(* ===== verification/_CoqProject ===== *)
-Q . S2P
Prelude.v
PyStr.v
Dict.v
PyVal.v
PyFloat.v
Rounding.v
Regex.v
ContentFilter.v
Injection.v
FileTools.v
ToolExec.v
WebGuard.v
Base58.v
Json.v
JsonLoads.v
Did.v
Merkle.v
Uuid.v
TaskFsm.v
Dag.v
DagTopo.v
DagOps.v
DagPath.v
Decompose.v
Tasks.v
Engine.v
PolicyService.v
Policy.v
Rules.v
Wallet.v
Signer.v
RateLimit.v
PeerAuth.v
Crdt.v
Sync.v
SyncApi.v
Gossip.v
Convergence.v
Lifecycle.v
Facts.v
Agents.v
HealthWorker.v
Consensus.v
Auth.v
Selector.v
Trust.v
KeyStore.v
AgentFacts.v
Resolver.v
Identity.v
Checkpoint.v
Approval.v
Janitor.v
ToolLoop.v
ModelRouter.v
Events.v
WebSocket.v
MessageBus.v
SemCache.v
AuditTrail.v
Breaker.v
Scheduler.v
SchedFacts.v
SchedBatch.v
SchedGate.v
SchedLoop.v
SchedExamples.v
Resume.v
Strategy.v
Workflows.v
Evolution.v
Projects.v
