(* ===== verification/Prelude.v ===== *)
(** * MassClaw backend: verification library (root file)

    MassClaw runs workflows of tasks with language-model agents.  A goal
    becomes a graph of tasks; a scheduler executes the graph batch by batch
    under a budget, policies and human approvals; results go to a memory of
    signed, content-addressed records that nodes replicate by gossip.  This
    library models that backend ([src/backend/app], paths below are relative to
    it) as executable functions and proves what each part promises and what the
    parts promise together.

    ** Parts

    Foundations (no program code of their own): this file ([res] for code that
    may raise, list, option and integer lemmas, tactics, the hint database),
    PyStr.v (methods of [str]), Dict.v (insertion-ordered dictionaries), PyVal.v
    (dynamically typed values and doubles), PyFloat.v (operations of [float]),
    Rounding.v (how far sums, differences and quotients of doubles are off),
    Regex.v (what the program uses of [re], by backtracking and as a relation),
    JsonLoads.v ([json.loads]), Uuid.v ([uuid.UUID] and its text).

    Identity and encodings:
    - Base58.v: [identity/_base58.py], the multibase helpers of
      [identity/signer.py].
    - Did.v: [identity/did.py].
    - Signer.v: [identity/signer.py] over an abstract curve.
    - Json.v: [identity/canonicalize.py].
    - KeyStore.v: [identity/key_store.py] and the keys of agents in
      [services/identity_service.py]; AgentFacts.v: [identity/agent_facts.py];
      Resolver.v: [identity/did_resolver.py] and [identity/nanda_index.py];
      Identity.v: the rest of [services/identity_service.py].

    Replicated memory:
    - Merkle.v: [crdt/hashing.py] and [crdt/merkle.py].
    - Crdt.v: [crdt/store.py] over the table of [models/memory.py].
    - Sync.v: [crdt/sync.py] and what [crdt/peer_client.py] makes of answers.
    - Gossip.v: [crdt/gossip.py]; Convergence.v: two rounds between two nodes.
    - PeerAuth.v: [crdt/peer_auth.py] and the signing of requests in
      [crdt/peer_client.py]; SyncApi.v: [api/memory_sync.py] and the requests of
      [crdt/peer_client.py].
    - Lifecycle.v: [services/memory_lifecycle.py] and the writes, tombstones and
      searches of [services/memory_service.py]; Facts.v:
      [services/memory_fact_resolver.py].

    Agents:
    - Agents.v: [services/agent_service.py]; HealthWorker.v:
      [workers/health_check.py]; Trust.v:
      [services/trust_service.py]; Selector.v: [orchestration/selector.py];
      Evolution.v: [services/evolution_service.py]; Consensus.v:
      [services/consensus_service.py]; Auth.v: the authentication of
      [dependencies.py] and [core/security.py].

    Governance:
    - Policy.v: [safety/decision.py] and [safety/registry.py]; Rules.v:
      [safety/context.py] and the ten files of [safety/rules/].
    - Engine.v: [safety/policy_engine.py] (stored conditions, rule store,
      cache); PolicyService.v: [services/policy_service.py].
    - Approval.v: [safety/approval.py], [safety/federated_approval.py],
      [api/approvals.py]; Janitor.v: [safety/approval_janitor.py].
    - Wallet.v: [services/wallet_service.py] and [models/wallet.py].
    - ContentFilter.v: [safety/content_filter.py]; Injection.v:
      [safety/injection_detector.py]; RateLimit.v: [middleware/rate_limit.py].
    - FileTools.v: [tools/file_io.py] over a file system with symbolic links;
      ToolExec.v: [tools/executor.py], the toolbelt of [tools/registry.py] and
      the writer of [services/audit_service.py]; WebGuard.v:
      [tools/api_caller.py] with the parts of [urllib.parse] and [ipaddress] it
      uses.
    - AuditTrail.v: [safety/audit.py] and its endpoint of [api/audit.py].

    Orchestration:
    - TaskFsm.v: [orchestration/state_machine.py].
    - Dag.v: [orchestration/dag.py]; DagTopo.v (invariant, topological sort),
      DagOps.v (readiness, failures, snapshots), DagPath.v (critical path).
    - ToolLoop.v: [llm/token_counter.py] and the tool loop of
      [orchestration/scheduler.py]; SemCache.v: its semantic cache.
    - Scheduler.v: [execute_workflow] and what it calls in
      [intelligence/self_correction.py] and [intelligence/dynamic_replanner.py];
      SchedFacts.v, SchedBatch.v, SchedGate.v (lemmas), SchedLoop.v (theorems),
      SchedExamples.v (runs that show a defect).
    - Checkpoint.v: [orchestration/checkpoint.py]; Resume.v:
      [orchestration/resume.py] and [resume_workflow] of [api/workflows.py].
    - Breaker.v: [core/circuit_breaker.py].
    - Decompose.v: [orchestration/decomposer.py].
    - Strategy.v: [intelligence/goal_interpreter.py], [intelligence/planner.py],
      [intelligence/guardrails.py], [intelligence/strategy_router.py] and the
      background task of [api/workflows.py].
    - ModelRouter.v: [llm/router.py].
    - Events.v: [core/events.py] and the streams of [api/workflows.py] and
      [api/approvals.py]; WebSocket.v: [api/websocket.py]; MessageBus.v:
      [protocols/message_bus.py].
    - Tasks.v: [services/task_service.py] and [services/task_test_service.py];
      Workflows.v: [services/workflow_service.py] and the endpoints of
      [api/workflows.py] that create, estimate, list and stop; Projects.v:
      [services/project_service.py] and the run of a sprint task in
      [api/projects.py].

    ** How they interact

    Gossip.v talks to a peer through the class [Peer] (Sync.v), which an honest
    node implements and an adversary may implement otherwise; SyncApi.v puts HTTP
    with the signatures of PeerAuth.v between the two; records it takes
    in go through [Crdt.put], which recomputes the content address (Merkle.v on
    Json.v) and verifies the signature against the author's identifier (Did.v,
    Signer.v).  Rules.v instantiates the rules that Policy.v evaluates.
    Approval.v keeps its twins in the memory store, seen as a list of records.
    The state of Scheduler.v contains a graph (Dag.v), a wallet (Wallet.v) and
    an approval desk (Approval.v), and its steps call their operations; task
    statuses are those of TaskFsm.v.  A checkpoint is a snapshot of a graph
    (Dag.v) in a record of the memory store (Crdt.v); Resume.v reads it back on
    another node and consults the merged approval status of Approval.v.  A tool
    call of the scheduler goes through ToolExec.v, which runs the detector of
    Injection.v, a tool of FileTools.v and the redaction of ContentFilter.v.
    Decompose.v builds its graph with the constructor of DagTopo.v; Strategy.v
    charges the ledger of Wallet.v and takes the pipeline of decomposition,
    selection and scheduler as an argument.  Workflows.v runs what Strategy.v
    executes, keeps its row in a table beside the ledger and counts the rows of
    Tasks.v, whose overrides take the transitions of TaskFsm.v; Projects.v runs a
    workflow and links it.  AuditTrail.v writes a decision of Policy.v through
    [Crdt.put].  Consensus.v gives Scheduler.v its [w_consensus].  Selector.v reads the agents of
    Agents.v, whose scores Trust.v writes and whose levels Evolution.v moves;
    Auth.v looks for keys in their metadata.  WebSocket.v forwards what Events.v
    delivers, and MessageBus.v takes its interface to Redis.  Resolver.v and Identity.v sign and
    verify with AgentFacts.v and the keys of KeyStore.v.

    ** What is proved

    - Encodings are bijections onto their images: base58, key identifiers,
      canonical JSON up to its normal form, content addresses and Merkle roots
      up to hash collisions.
    - Replication: whatever a peer answers, a round stores only records whose
      content address is right and whose signature, if there is one, verifies;
      with honest peers two rounds make the Merkle roots equal; writes are
      idempotent.
    - Graphs: the constructor accepts exactly the closed acyclic graphs, the
      order it returns is topological and the loops terminate, a failure skips
      exactly the nodes it dooms, no deadlock, snapshots round-trip, the
      critical path is a longest path, every operation keeps the invariant.
    - Policies: evaluation with early stop equals full aggregation, built-in
      rules deny what they are meant to deny, stored conditions that pass
      validation never raise, the cache of stored rules changes no decision while
      only the engine writes and Redis answers, and delays a change by five
      minutes and a load otherwise.
    - Wallet: in doubles, what the service computes is what the ledger adds up to,
      no reservation is accepted that the budget does not cover, direct debits
      exceed it by no more than their sum or once more the limit; replay of a
      request with the same idempotency key changes nothing.
    - Approvals: the three views of the twins agree, a decision is final, the
      janitor settles what is due.
    - Scheduler, for every answer of models, tools, services and reviewers: the
      loop ends within its bound, a node is run only after its dependencies,
      at most three times, never against a policy and never without a decision
      where one is required, and a finished workflow leaves no node behind
      unless a policy denied one; the tool loop is bounded and gated by the
      budget.
    - Resumption: a saved checkpoint is read back unchanged wherever its row
      is; a paused workflow resumes on any such node with its graph, its tasks
      completed or failed as they were and pending otherwise; a restore is
      idempotent as long as no two nodes share a step number; nothing resumes without the checkpoint, or against
      the approval that is named.
    - Requests between nodes are admitted exactly with a recent signature of a
      known peer over this method and path; an honest client gets over HTTP what
      the gossip rounds assume of a peer; the circuit breaker implements a
      three-state machine on its Redis keys; the rate limit admits no more
      requests in a window than it allows.
    - Memory: a record only ages by the transitions of its lifecycle, the
      collector removes nothing recent, referenced or replicated before its
      time, only its author withdraws a record, and what is read does not
      depend on the order the search returns unless rank, time and hash tie.
    - Identity: an agent keeps the key of its identifier as long as its row keeps
      the entry, the key of an instance
      survives every crash of a rotation, a document that is signed verifies and
      keeps verifying, a document that is resolved passed the integrity check.
    - Agents: health follows the history of probes, the worker's summary counts
      the statuses it leaves, an assignment takes eligible
      agents within the budget, promotion and demotion go by rank.
    - Tools: whatever the model asks of the file tools stays inside the
      workspace, links included, and reaches the model redacted where the filter
      runs to its end; a listing names exactly the entries; redaction
      replaces what the patterns match unless spans overlap; a request is
      sent only for names that resolved as public, to the address of a second
      lookup.
    - Runs: a decomposition returns a graph of its answer over known
      capabilities within three calls; the iterative strategy is bounded and
      charged once; the background task commits a run as a whole or tries to mark
      the workflow FAILED; stopping ends unfinished workflows only and changes
      nothing else.
    - Manual control: a task is what the overrides for it alone make of it, a
      sprint is the list that its commands describe.
    - Access and audit: who is let in has a token or a key, a recorded decision
      is signed and listed, unanimous verifiers decide.
    - Live progress: a stream carries the events of its workflow and no other,
      in order; the registry of connections is a set without empty entries; a
      request between agents is answered by the first message that carries its
      identifier.

    ** Conventions

    - Strings are byte strings (UTF-8); [py_chars] are their code points.
      [str.lower] folds ASCII letters or is a parameter.
    - A raised exception is [Err] with the exception's class; texts are modelled
      where they are stored, logs and the events that services publish are not.
    - [int] is [Z] or [N]; [float] is [SpecFloat.spec_float] (binary64 by
      [SFadd] and the like); [Decimal] is a rational number.  Wallet.v states
      its main theorem over the interface [TightArith], which doubles satisfy by
      the bounds of Rounding.v, and exact units too.
    - Code outside the repository is a parameter: SHA-256, Ed25519, the cipher of
      key files, embeddings, [exp], [log] and powers of the platform library,
      the Unicode tables of [str] and [re], NFKC, coercions of pydantic,
      [os.path.islink] and decoding, [datetime.fromisoformat], [float(str)],
      [re.search] on a pattern of the caller, the resolver and the HTTP client,
      the JWT library, the averages of the database, the subscriptions and
      patterns of Redis.  Hypotheses on it are
      documented behaviour (digest length, correctness of verification) or, for hashing,
      absence of collisions among the strings at hand; witnesses instantiate
      them with concrete functions.
    - The database, Redis and the other processes are explicit state: records
      of tables, keys with deadlines, lists of rows that other sessions commit
      in a race, flags for calls that fail.  What a run asks of the outside
      world is a [World] (Scheduler.v) indexed by iteration and node.
    - Definitions keep the names of the source.

    ** Fuel and bounds

    [while] loops over a queue or a number run on fuel with a proof that the
    fuel given suffices: base58 (bit length, [b58_loop_digits]), Kahn's
    algorithm and the failure cascade ([kahn_spec], [skip_loop_spec]).  The walk of
    a path runs on the depth of the links it meets ([realpath_depth] and the
    limit of the system), the parser on the length of its text ([loads_total]),
    a repetition of a pattern on the length of what is left ([ends_Match]), a
    recursive listing on the longest path ([visits_os_walk]).  The
    scheduler's own bound on iterations is the program's, and [no_runaway]
    shows it is never reached: the potential of a graph (at most three per
    node, three per re-plan left) decreases with every batch and stays below
    [max (5 n) 50].

    ** Not modelled

    Texts of prompts, the synthesizer and the composer; the tools that run code in a subprocess or read pages of the web, the
    clients of language models, the adapters to agents over HTTP, MCP
    and sockets; the HTTP routes that only pass arguments to a modelled service, the other middleware,
    connection handling, logging, metrics, vector search, reports and
    other database queries, database migrations, workers that only call a
    modelled service on a timer, the frontend.  Concurrency inside a process is modelled where the code awaits between reading and
    writing shared state (race rows, other sessions, other reviewers); the
    parallel model calls of a batch have no shared state and are taken one
    after the other. *)

From Stdlib Require Import ZArith NArith Lia.
From stdpp Require Import base tactics list strings sorting gmap.

(** ** Fallible code

    A Python function that may raise is a function into [res E A]: [Ok] is a
    normal return, [Err] a raised exception of type [E].  Exception messages
    are not modelled, exception classes are. *)

Inductive res (E A : Type) : Type :=
  | Ok (a : A)
  | Err (e : E).
Arguments Ok {E A} a.
Arguments Err {E A} e.

#[export] Instance res_eq_dec {E A} `{EqDecision E, EqDecision A} : EqDecision (res E A).
Proof. solve_decision. Defined.

Definition res_bind {E A B} (m : res E A) (k : A → res E B) : res E B :=
  match m with
  | Ok a => k a
  | Err e => Err e
  end.

(** [try: m except: h] *)
Definition res_catch {E F A} (m : res E A) (h : E → res F A) : res F A :=
  match m with
  | Ok a => Ok a
  | Err e => h e
  end.

Definition res_map {E A B} (f : A → B) (m : res E A) : res E B :=
  match m with
  | Ok a => Ok (f a)
  | Err e => Err e
  end.

Definition res_of_option {E A} (e : E) (o : option A) : res E A :=
  match o with
  | Some a => Ok a
  | None => Err e
  end.

Definition is_ok {E A} (m : res E A) : bool :=
  match m with Ok _ => true | Err _ => false end.

(** [if b: raise e] *)
Definition raise_if {E} (b : bool) (e : E) : res E unit :=
  if b then Err e else Ok tt.

Declare Scope py_scope.
Delimit Scope py_scope with py.
Notation "x <~ m ; k" := (res_bind m (λ x, k))
  (at level 100, m at next level, right associativity) : py_scope.
Notation "m ;! k" := (res_bind m (λ _, k))
  (at level 100, right associativity) : py_scope.
Open Scope py_scope.

Lemma res_bind_Ok {E A B} (m : res E A) (k : A → res E B) b :
  res_bind m k = Ok b ↔ ∃ a, m = Ok a ∧ k a = Ok b.
Proof. destruct m; cbn; naive_solver. Qed.

Lemma res_bind_Err {E A B} (m : res E A) (k : A → res E B) e :
  res_bind m k = Err e ↔ m = Err e ∨ ∃ a, m = Ok a ∧ k a = Err e.
Proof. destruct m; cbn; naive_solver. Qed.

Lemma raise_if_Ok {E} b (e : E) u : raise_if b e = Ok u ↔ b = false.
Proof. destruct b, u; naive_solver. Qed.

Lemma raise_if_Err {E} b (e e' : E) : raise_if b e = Err e' ↔ b = true ∧ e = e'.
Proof. destruct b; naive_solver. Qed.

Lemma catch_const_Ok {E F A} (m : res E A) (e : F) a :
  res_catch m (λ _, Err e) = Ok a ↔ m = Ok a.
Proof. destruct m; cbn; naive_solver. Qed.

Lemma is_ok_Ok {E A} (m : res E A) : is_ok m = true → ∃ a, m = Ok a.
Proof. destruct m as [a|]; [by exists a|done]. Qed.

Create Rewrite HintDb py.
#[export] Hint Rewrite @res_bind_Ok @res_bind_Err @raise_if_Ok @raise_if_Err : py.

(** Case analysis on the first stuck [match]/[if] of a hypothesis or goal. *)
Ltac py_step :=
  match goal with
  | H : context [match ?x with _ => _ end] |- _ =>
      lazymatch x with
      | context [match _ with _ => _ end] => fail
      | _ => destruct x eqn:?
      end
  | |- context [match ?x with _ => _ end] =>
      lazymatch x with
      | context [match _ with _ => _ end] => fail
      | _ => destruct x eqn:?
      end
  end.
Ltac py_cases := repeat (py_step; simplify_eq/=).

(** ** Lists *)

Lemma list_filter_iff_in {A} (P1 P2 : A → Prop)
    `{!∀ x, Decision (P1 x), !∀ x, Decision (P2 x)} (l : list A) :
  (∀ x, x ∈ l → P1 x ↔ P2 x) → filter P1 l = filter P2 l.
Proof.
  induction l as [|x l IH]; intros Hiff; [done|]. rewrite !filter_cons.
  rewrite IH by (intros y Hy; apply Hiff, elem_of_cons; by right).
  assert (P1 x ↔ P2 x) by (apply Hiff, elem_of_cons; by left).
  do 2 case_decide; naive_solver.
Qed.

Lemma list_filter_all {A} (P : A → Prop) `{!∀ x, Decision (P x)} (l : list A) :
  (∀ x, x ∈ l → P x) → filter P l = l.
Proof.
  induction l as [|x l IH]; intros Hall; [done|].
  rewrite filter_cons_True by (apply Hall; by left).
  rewrite IH; [done|]. intros y Hy. apply Hall. by right.
Qed.

Lemma NoDup_map_filter {A B} (f : A → B) (P : A → Prop) `{!∀ x, Decision (P x)} (l : list A) :
  NoDup (map f l) → NoDup (map f (filter P l)).
Proof.
  induction l as [|x l IH]; [done|]. cbn [map]. intros [Hx Hnd]%NoDup_cons.
  rewrite filter_cons. case_decide; [|by apply IH]. cbn [map]. apply NoDup_cons.
  split; [|by apply IH]. intros (y&Heq&[_ Hy]%list_elem_of_filter)%list_elem_of_fmap.
  apply Hx. rewrite Heq. by apply list_elem_of_fmap_2.
Qed.

Lemma filter_first {A} (P : A → Prop) `{!∀ x, Decision (P x)} l x l' :
  filter P l = x :: l' → ∃ l1 l2, l = l1 ++ x :: l2 ∧ P x ∧ ∀ y, y ∈ l1 → ¬ P y.
Proof.
  induction l as [|y l IH]; [done|]. rewrite filter_cons. case_decide as Hy.
  - intros [= -> _]. exists [], l. split_and!; try done. intros z Hz. by apply elem_of_nil in Hz.
  - intros Hf. destruct (IH Hf) as (l1&l2&->&Hx&Hl). exists (y :: l1), l2.
    split_and!; try done. intros z [->|Hz]%elem_of_cons; [done|by apply Hl].
Qed.

Lemma NoDup_omap_inj {A B} (f : A → option B) (l : list A) x y b :
  NoDup (omap f l) → x ∈ l → y ∈ l → f x = Some b → f y = Some b → x = y.
Proof.
  induction l as [|z l IH]; [intros _ Hx; by apply elem_of_nil in Hx|].
  cbn. intros Hnd Hx Hy Hfx Hfy.
  assert (∀ w, w ∈ l → f w = Some b → b ∈ omap f l) as Hin
    by (intros w Hw Hfw; apply list_elem_of_omap; by exists w).
  apply elem_of_cons in Hx as [->|Hx], Hy as [->|Hy]; [done| | |].
  - rewrite Hfx in Hnd. apply NoDup_cons in Hnd as [Hb _]. by destruct Hb; eapply Hin.
  - rewrite Hfy in Hnd. apply NoDup_cons in Hnd as [Hb _]. by destruct Hb; eapply Hin.
  - apply IH; [|done..]. destruct (f z); [by apply NoDup_cons in Hnd as [_ ?]|done].
Qed.

Lemma omap_Some {A B} (f : A → B) (l : list A) : omap (λ a, Some (f a)) l = map f l.
Proof. induction l as [|a l IH]; [done|]. cbn. by rewrite IH. Qed.

Lemma NoDup_map_inj {A B} (f : A → B) (l : list A) x y :
  NoDup (map f l) → x ∈ l → y ∈ l → f x = f y → x = y.
Proof.
  intros Hnd Hx Hy Hf. apply (NoDup_omap_inj (λ a, Some (f a)) l x y (f x)); [by rewrite omap_Some|done..|].
  by rewrite Hf.
Qed.

(** *** Selections and pairs *)

Lemma filter_none {A} (f : A → bool) l : (∀ y, y ∈ l → f y = false) → List.filter f l = [].
Proof. induction l as [|a l IH]; intros H; [done|]. cbn. rewrite (H a) by left. apply IH. intros y Hy. apply H. by right. Qed.

Lemma filter_all {A} (f : A → bool) l : (∀ y, y ∈ l → f y = true) → List.filter f l = l.
Proof.
  induction l as [|a l IH]; intros H; [done|]. cbn. rewrite (H a) by left. f_equal. apply IH. intros y Hy. apply H. by right.
Qed.

Lemma filter_perm {A} (f : A → bool) l l' : l ≡ₚ l' → List.filter f l ≡ₚ List.filter f l'.
Proof.
  induction 1 as [|x l l' _ IH|x y l|l l' l'' _ IH _ IH']; cbn; [done|destruct (f x); [by rewrite IH|done]| |by etrans].
  destruct (f x), (f y); auto using perm_swap.
Qed.

Lemma filter_swap {A} (f : A → bool) (P : A → Prop) `{∀ x, Decision (P x)} l : filter P (List.filter f l) = List.filter f (filter P l).
Proof.
  induction l as [|a l IH]; [done|]. cbn [List.filter]. rewrite filter_cons. destruct (f a) eqn:E.
  - rewrite filter_cons. destruct (decide _); cbn; rewrite ?E; by rewrite IH.
  - destruct (decide _); cbn; rewrite ?E; by rewrite IH.
Qed.

Lemma filter_map {A B} (f : B → bool) (g : A → B) l : List.filter f (map g l) = map g (List.filter (λ x, f (g x)) l).
Proof. induction l as [|a l IH]; [done|]. cbn. destruct (f (g a)); cbn; by rewrite IH. Qed.

Lemma NoDup_filter' {A} (f : A → bool) (l : list A) : NoDup l → NoDup (List.filter f l).
Proof.
  induction 1 as [|x l Hx _ IH]; [constructor|]. cbn. destruct (f x); [|done]. constructor; [|done].
  by intros [Hin%list_elem_of_In _]%list_elem_of_In%filter_In.
Qed.

Lemma foldl_max_start ps p : (p ≤ foldl Z.max p ps)%Z.
Proof. revert p. induction ps as [|r ps IH]; intros p; cbn; [done|]. specialize (IH (Z.max p r)). lia. Qed.

Lemma foldl_max_ge ps p q : q ∈ p :: ps → (q ≤ foldl Z.max p ps)%Z.
Proof.
  revert p. induction ps as [|r ps IH]; intros p [->|Hq]%elem_of_cons; [done|by apply elem_of_nil in Hq|apply foldl_max_start|].
  cbn. apply elem_of_cons in Hq as [->|Hq]; [pose proof (foldl_max_start ps (Z.max p r)); lia|]. apply IH. by right.
Qed.

Lemma zip_map_inv {A B} (f : A → B) l x y : (x, y) ∈ zip l (map f l) → x ∈ l ∧ y = f x.
Proof.
  induction l as [|a l IH]; [by intros ?%elem_of_nil|]. cbn. rewrite elem_of_cons.
  intros [[= -> ->]|H]; [split; [by left|done]|]. destruct (IH H). split; [by right|done].
Qed.

Lemma elem_of_flat_map {A B} (f : A → list B) l b : b ∈ flat_map f l ↔ ∃ a, a ∈ l ∧ b ∈ f a.
Proof. rewrite !list_elem_of_In, in_flat_map. by setoid_rewrite list_elem_of_In. Qed.

Lemma Forall2_compose {A B C} (P : A → B → Prop) (Q : B → C → Prop) (R : A → C → Prop) l1 l2 l3 :
  Forall2 P l1 l2 → Forall2 Q l2 l3 → (∀ x y z, P x y → Q y z → R x z) → Forall2 R l1 l3.
Proof.
  intros H1 H2 HR. revert l3 H2. induction H1 as [|x y l1 l2 Hxy _ IH]; intros l3 H2; [by inversion H2|].
  inversion H2 as [|? z ? l Hyz H2']; subst. constructor; [by eapply HR|by apply IH].
Qed.

(** ** [list.sort]

    Insertion from the right by a strict comparison is the stable sort wherever
    the comparison is a strict weak order. *)

Section sort_by.
Context {A : Type} (lt : A → A → bool).

Fixpoint insert_by (x : A) (l : list A) : list A :=
  match l with
  | [] => [x]
  | y :: l => if lt y x then y :: insert_by x l else x :: y :: l
  end.

Definition sort_by (l : list A) : list A := foldr insert_by [] l.

Lemma insert_by_perm x l : insert_by x l ≡ₚ x :: l.
Proof. induction l as [|y l IH]; cbn; [done|]. destruct (lt y x); [|done]. rewrite IH. apply Permutation_swap. Qed.

Lemma sort_by_perm l : sort_by l ≡ₚ l.
Proof. induction l as [|x l IH]; cbn; [done|]. by rewrite insert_by_perm, IH. Qed.

(** [P] holds of the values between which the comparison is an order. *)
Context (P : A → Prop).
Context (Hasym : ∀ a b, P a → P b → lt a b = true → lt b a = false).
Context (Htrans : ∀ a b c, P a → P b → P c → lt b a = false → lt c b = false → lt c a = false).

Lemma insert_by_sorted x l :
  P x → Forall P l → StronglySorted (λ a b, lt b a = false) l → StronglySorted (λ a b, lt b a = false) (insert_by x l).
Proof.
  intros Hx Hl Hs. induction Hs as [|y l Hs IH Hy]; cbn; [by repeat constructor|].
  apply Forall_cons in Hl as [Hcy Hl]. destruct (lt y x) eqn:E.
  - constructor; [by apply IH|]. rewrite insert_by_perm. constructor; [by apply Hasym|done].
  - constructor; [by constructor|]. constructor; [done|]. rewrite Forall_forall in *.
    intros z Hz. eapply (Htrans _ y); auto.
Qed.

Lemma sort_by_sorted l : Forall P l → StronglySorted (λ a b, lt b a = false) (sort_by l).
Proof. induction 1; cbn; [constructor|]. apply insert_by_sorted; [done| |done]. by rewrite sort_by_perm. Qed.

(** No element is below the first. *)
Lemma sort_by_head l w rest x :
  Forall P l → sort_by l = w :: rest → x ∈ l → x = w ∨ lt x w = false.
Proof.
  intros Hl E Hx. rewrite <-(sort_by_perm l), E in Hx. apply elem_of_cons in Hx as [Hx|Hx]; [by left|right].
  pose proof (sort_by_sorted l Hl) as Hs. rewrite E in Hs. inversion Hs as [|? ? _ Hw]; subst.
  rewrite Forall_forall in Hw. by apply Hw.
Qed.
End sort_by.

(** ** Python strings

    A Python [str] is modelled by its UTF-8 bytes, a [String.string].  UTF-8
    is injective and keeps the code-point order, so equality, comparison and
    concatenation agree with those of [str]. *)

Abbreviation str_chars := String.list_ascii_of_string.

(** [sep.join(parts)] *)
Fixpoint str_join (sep : string) (parts : list string) : string :=
  match parts with
  | [] => ""
  | [p] => p
  | p :: ps => p +:+ sep +:+ str_join sep ps
  end.

(** [sorted(l)] on strings *)
Definition str_sorted (l : list string) : list string :=
  merge_sort String.le l.

Lemma str_sorted_perm l : str_sorted l ≡ₚ l.
Proof. apply merge_sort_Permutation. Qed.

Lemma str_sorted_sorted l : StronglySorted String.le (str_sorted l).
Proof. apply StronglySorted_merge_sort; apply _. Qed.

Lemma str_sorted_proper l1 l2 : l1 ≡ₚ l2 → str_sorted l1 = str_sorted l2.
Proof.
  intros Hp. apply (StronglySorted_unique String.le);
    [apply str_sorted_sorted..|].
  etrans; [apply str_sorted_perm|]. etrans; [apply Hp|].
  symmetry. apply str_sorted_perm.
Qed.

#[export] Instance str_sorted_Proper : Proper ((≡ₚ) ==> (=)) str_sorted.
Proof. intros ???. by apply str_sorted_proper. Qed.

Lemma elem_of_str_sorted x l : x ∈ str_sorted l ↔ x ∈ l.
Proof. by rewrite str_sorted_perm. Qed.

Lemma str_app_cons x (a b : string) : String x a +:+ b = String x (a +:+ b).
Proof. done. Qed.

Lemma str_app_nil_l (a : string) : "" +:+ a = a.
Proof. done. Qed.

Lemma str_app_assoc (a b c : string) : (a +:+ b) +:+ c = a +:+ (b +:+ c).
Proof. induction a as [|x a IH]; [done|]. by rewrite !str_app_cons, IH. Qed.

Lemma str_app_nil_r (a : string) : a +:+ "" = a.
Proof. induction a as [|x a IH]; [done|]. by rewrite str_app_cons, IH. Qed.

Lemma str_length_app (a b : string) :
  String.length (a +:+ b) = String.length a + String.length b.
Proof.
  induction a as [|x a IH]; [done|]. rewrite str_app_cons. cbn. by rewrite IH.
Qed.

Create Rewrite HintDb str_app.
#[export] Hint Rewrite str_app_cons str_app_nil_l str_app_nil_r str_app_assoc
  : str_app.
