(* ===== verification/PyStr.v ===== *)
(** * PyStr: the [str] methods the modelled code calls

    [split] (bounded and unbounded), [lower], [strip], [replace] of one
    character, [startswith], with the lemmas the codecs need.  [lower] folds
    ASCII letters only: the callers apply it to method names and identifiers
    made of ASCII characters. *)

From Stdlib Require Import Ascii NArith Lia.
From stdpp Require Import base tactics list strings.
From S2P Require Import Prelude.

(** ** Methods *)

Fixpoint str_mem (c : ascii) (s : string) : bool :=
  match s with
  | EmptyString => false
  | String x s => Ascii.eqb x c || str_mem c s
  end.

(** The text before and after the first [c] *)
Fixpoint str_cut (c : ascii) (s : string) : option (string * string) :=
  match s with
  | EmptyString => None
  | String x s =>
      if Ascii.eqb x c then Some ("", s)
      else match str_cut c s with
           | Some (a, b) => Some (String x a, b)
           | None => None
           end
  end.

(** [s.split(c, n)] *)
Fixpoint str_split_max (c : ascii) (n : nat) (s : string) : list string :=
  match n with
  | O => [s]
  | S n =>
      match str_cut c s with
      | Some (a, b) => a :: str_split_max c n b
      | None => [s]
      end
  end.

(** [s.split(c)]: no more separators than characters *)
Definition str_split (c : ascii) (s : string) : list string :=
  str_split_max c (String.length s) s.

Definition char_lower (c : ascii) : ascii :=
  let n := N_of_ascii c in
  if (65 <=? n)%N && (n <=? 90)%N then ascii_of_N (n + 32) else c.

Fixpoint str_map (f : ascii → ascii) (s : string) : string :=
  match s with
  | EmptyString => EmptyString
  | String c s => String (f c) (str_map f s)
  end.

Definition str_lower : string → string := str_map char_lower.

(** [s.replace(a, b)] for one-character [a] and [b] *)
Definition str_replace (a b : ascii) : string → string :=
  str_map (λ c, if Ascii.eqb c a then b else c).

Fixpoint str_lstrip (c : ascii) (s : string) : string :=
  match s with
  | String x s' => if Ascii.eqb x c then str_lstrip c s' else s
  | EmptyString => EmptyString
  end.

Fixpoint str_rstrip (c : ascii) (s : string) : string :=
  match s with
  | EmptyString => EmptyString
  | String x s =>
      match str_rstrip c s with
      | EmptyString => if Ascii.eqb x c then EmptyString else String x EmptyString
      | r => String x r
      end
  end.

Definition str_strip (c : ascii) (s : string) : string :=
  str_rstrip c (str_lstrip c s).

(** [s.startswith(p)] *)
Definition str_startswith (p s : string) : bool := String.prefix p s.

Definition str_empty (s : string) : bool :=
  match s with EmptyString => true | _ => false end.

(** ** Lemmas *)

Lemma str_empty_true s : str_empty s = true ↔ s = "".
Proof. by destruct s. Qed.

Lemma str_mem_app c a b : str_mem c (a +:+ b) = str_mem c a || str_mem c b.
Proof.
  induction a as [|x a IH]; [done|]. rewrite str_app_cons. cbn.
  by rewrite IH, orb_assoc.
Qed.

Lemma str_cut_Some c s a b :
  str_cut c s = Some (a, b) → s = a +:+ String c b ∧ str_mem c a = false.
Proof.
  revert a b. induction s as [|x s IH]; intros a b H; [done|]. cbn in H.
  destruct (Ascii.eqb_spec x c) as [->|Hx]; [by simplify_eq|].
  destruct (str_cut c s) as [[a' b']|] eqn:E; simplify_eq.
  destruct (IH a' b eq_refl) as [-> Hm]. rewrite str_app_cons. cbn.
  by apply Ascii.eqb_neq in Hx as ->.
Qed.

Lemma str_cut_None c s : str_cut c s = None ↔ str_mem c s = false.
Proof.
  induction s as [|x s IH]; [done|]. cbn.
  destruct (Ascii.eqb_spec x c) as [->|Hx]; [done|]. cbn. rewrite <-IH.
  destruct (str_cut c s) as [[]|]; naive_solver.
Qed.

Lemma str_cut_app c a b :
  str_mem c a = false → str_cut c (a +:+ String c b) = Some (a, b).
Proof.
  induction a as [|x a IH]; intros H.
  - rewrite str_app_nil_l. cbn. by rewrite Ascii.eqb_refl.
  - cbn in H. apply orb_false_iff in H as [Hx H]. rewrite str_app_cons. cbn.
    by rewrite Hx, IH.
Qed.

Lemma str_join_cons c a ps :
  ps ≠ [] → str_join (String c "") (a :: ps) = a +:+ String c (str_join (String c "") ps).
Proof. destruct ps; [done|]. intros _. done. Qed.

Lemma str_split_max_ne c n s : str_split_max c n s ≠ [].
Proof. destruct n; cbn; [done|]. by destruct (str_cut c s) as [[]|]. Qed.

(** [c.join(s.split(c, n)) == s] *)
Lemma str_join_split_max c n s : str_join (String c "") (str_split_max c n s) = s.
Proof.
  revert s. induction n as [|n IH]; intros s; [done|]. cbn [str_split_max].
  destruct (str_cut c s) as [[a b]|] eqn:E; [|done].
  rewrite str_join_cons by apply str_split_max_ne. rewrite IH.
  by apply str_cut_Some in E as [-> _].
Qed.

Lemma str_length_cut c s a b :
  str_cut c s = Some (a, b) → String.length b < String.length s.
Proof.
  intros [-> _]%str_cut_Some. rewrite str_length_app. cbn. lia.
Qed.

Lemma str_split_max_plain c n s : str_mem c s = false → str_split_max c n s = [s].
Proof. intros H%str_cut_None. destruct n; cbn; [done|]. by rewrite H. Qed.

Lemma str_split_max_cons c n a b :
  str_mem c a = false →
  str_split_max c (S n) (a +:+ String c b) = a :: str_split_max c n b.
Proof. intros H. cbn [str_split_max]. by rewrite str_cut_app. Qed.

Lemma str_split_max_no_sep c n s :
  String.length s ≤ n → Forall (λ p, str_mem c p = false) (str_split_max c n s).
Proof.
  revert s. induction n as [|n IH]; intros s Hn.
  { destruct s; [by repeat constructor|cbn in Hn; lia]. }
  cbn. destruct (str_cut c s) as [[a b]|] eqn:E.
  - pose proof (str_length_cut _ _ _ _ E). apply str_cut_Some in E as [_ Hm].
    constructor; [done|]. apply IH. lia.
  - apply str_cut_None in E. by repeat constructor.
Qed.

(** [s.split(c)] is the only list of separator-free parts that joins to [s]. *)
Lemma str_split_spec c s :
  str_join (String c "") (str_split c s) = s ∧
  Forall (λ p, str_mem c p = false) (str_split c s).
Proof. split; [apply str_join_split_max|by apply str_split_max_no_sep]. Qed.

Lemma str_map_app f a b : str_map f (a +:+ b) = str_map f a +:+ str_map f b.
Proof.
  induction a as [|x a IH]; [done|].
  rewrite str_app_cons. cbn [str_map]. by rewrite str_app_cons, IH.
Qed.

Lemma str_map_compose f g s : str_map f (str_map g s) = str_map (λ c, f (g c)) s.
Proof. induction s as [|x s IH]; [done|]. cbn. by rewrite IH. Qed.

Lemma str_map_ext f g s : (∀ c, f c = g c) → str_map f s = str_map g s.
Proof. intros H. induction s as [|x s IH]; [done|]. cbn. by rewrite H, IH. Qed.

Lemma str_map_id s : str_map (λ c, c) s = s.
Proof. induction s as [|x s IH]; [done|]. cbn. by rewrite IH. Qed.

Lemma char_lower_idem c : char_lower (char_lower c) = char_lower c.
Proof. destruct c as [[] [] [] [] [] [] [] []]; reflexivity. Qed.

Lemma str_lower_idem s : str_lower (str_lower s) = str_lower s.
Proof.
  unfold str_lower. rewrite str_map_compose. apply str_map_ext, char_lower_idem.
Qed.

Lemma char_lower_colon c : Ascii.eqb (char_lower c) ":" = Ascii.eqb c ":".
Proof. destruct c as [[] [] [] [] [] [] [] []]; reflexivity. Qed.

Lemma str_mem_lower_colon s : str_mem ":" (str_lower s) = str_mem ":" s.
Proof. induction s as [|x s IH]; [done|]. cbn. by rewrite char_lower_colon, <-IH. Qed.

Lemma str_empty_map f s : str_empty (str_map f s) = str_empty s.
Proof. by destruct s. Qed.

Lemma str_startswith_app p s : str_startswith p (p +:+ s) = true.
Proof.
  unfold str_startswith. induction p as [|x p IH]; [by destruct s|].
  rewrite str_app_cons. cbn [String.prefix]. destruct (ascii_dec x x); [exact IH|done].
Qed.

Lemma str_startswith_true p s :
  str_startswith p s = true ↔ ∃ r, s = p +:+ r.
Proof.
  split; [|intros [r ->]; apply str_startswith_app].
  unfold str_startswith. revert s. induction p as [|x p IH]; intros s H; [by exists s|].
  destruct s as [|y s]; [done|]. cbn in H. destruct (ascii_dec x y) as [->|]; [|done].
  destruct (IH s H) as [r ->]. exists r. by rewrite str_app_cons.
Qed.

Lemma str_app_inj_l (p a b : string) : p +:+ a = p +:+ b → a = b.
Proof.
  induction p as [|x p IH]; [done|]. rewrite !str_app_cons. intros [= H]. auto.
Qed.

(** A join on [c] of separator-free parts determines the parts. *)
Lemma str_join_inj c ps qs :
  ps ≠ [] → qs ≠ [] →
  Forall (λ p, str_mem c p = false) ps → Forall (λ p, str_mem c p = false) qs →
  str_join (String c "") ps = str_join (String c "") qs → ps = qs.
Proof.
  intros Hp Hq H1 H2. revert qs Hp Hq H2.
  induction H1 as [|p ps Hp H1 IH]; intros qs Hne Hq H2 E; [done|].
  destruct H2 as [|q qs Hq' H2]; [done|].
  apply (f_equal (str_cut c)) in E as Ec.
  destruct (decide (ps = [])) as [->|Hps], (decide (qs = [])) as [->|Hqs].
  - by cbn in E; subst.
  - rewrite (str_join_cons c q) in Ec by done. rewrite str_cut_app in Ec by done.
    cbn in Ec. by apply str_cut_None in Hp; rewrite Hp in Ec.
  - rewrite (str_join_cons c p) in Ec by done. rewrite str_cut_app in Ec by done.
    cbn in Ec. by apply str_cut_None in Hq'; rewrite Hq' in Ec.
  - rewrite !str_join_cons in Ec by done. rewrite !str_cut_app in Ec by done.
    injection Ec as -> Ec. f_equal. by apply IH.
Qed.

(** ** The order of strings *)

Lemma str_leb_trans a b c :
  String.leb a b = true → String.leb b c = true → String.leb a c = true.
Proof.
  intros Hab Hbc. pose proof (transitivity (R := String.le) (x := a) (y := b) (z := c)) as Ht.
  unfold String.le in Ht. rewrite !Is_true_true in Ht. by apply Ht.
Qed.

Lemma str_ltb_leb a b : String.ltb a b = negb (String.leb b a).
Proof. unfold String.ltb, String.leb. rewrite (String.compare_antisym b a). by destruct (String.compare a b). Qed.
