(* ===== verification/Dict.v ===== *)
(** * Dict: insertion-ordered Python dictionaries

    A [dict] iterates in insertion order, and assigning to a key already
    present keeps the key's place.  It is modelled by the association list of
    its items in iteration order; [NoDup] of the keys is an invariant that
    every operation keeps.  [kv_sort] is [sorted(d.items(), key=...)]. *)

From Stdlib Require Import Lia.
From stdpp Require Import base tactics list sorting.
From S2P Require Import Prelude.

Section dict.
Context {K V : Type} `{EqDecision K}.

Abbreviation dict := (list (K * V)).

Fixpoint dict_get (k : K) (d : dict) : option V :=
  match d with
  | [] => None
  | (k', v) :: d => if decide (k' = k) then Some v else dict_get k d
  end.

(** [d[k] = v] *)
Fixpoint dict_set (k : K) (v : V) (d : dict) : dict :=
  match d with
  | [] => [(k, v)]
  | (k', v') :: d => if decide (k' = k) then (k, v) :: d else (k', v') :: dict_set k v d
  end.

(** In-place mutation of the object stored at [k] *)
Fixpoint dict_alter (f : V → V) (k : K) (d : dict) : dict :=
  match d with
  | [] => []
  | (k', v) :: d =>
      if decide (k' = k) then (k', f v) :: d else (k', v) :: dict_alter f k d
  end.

(** [{k: v for k, v in items}] *)
Definition dict_of (items : list (K * V)) : dict :=
  fold_left (λ d '(k, v), dict_set k v d) items [].

Abbreviation dict_keys d := (map fst d).

Lemma dict_get_set k v d k' :
  dict_get k' (dict_set k v d) = if decide (k = k') then Some v else dict_get k' d.
Proof.
  induction d as [|[k1 v1] d IH]; cbn; [by repeat case_decide|].
  repeat (case_decide; cbn); subst; try done; congruence.
Qed.

Lemma dict_get_set_eq k v d : dict_get k (dict_set k v d) = Some v.
Proof. rewrite dict_get_set. by case_decide. Qed.

Lemma dict_get_set_ne k k' v d : k ≠ k' → dict_get k' (dict_set k v d) = dict_get k' d.
Proof. intros. rewrite dict_get_set. by case_decide. Qed.

Lemma dict_get_alter f k d k' :
  dict_get k' (dict_alter f k d) =
  if decide (k = k') then f <$> dict_get k' d else dict_get k' d.
Proof.
  induction d as [|[k1 v1] d IH]; cbn; [by case_decide|].
  repeat (case_decide; cbn); subst; try done; congruence.
Qed.

Lemma dict_keys_alter f k d : dict_keys (dict_alter f k d) = dict_keys d.
Proof. induction d as [|[k1 v1] d IH]; cbn; [done|]. case_decide; cbn; by rewrite ?IH. Qed.

Lemma dict_get_None k d : dict_get k d = None ↔ k ∉ dict_keys d.
Proof.
  induction d as [|[k1 v1] d IH]; cbn.
  { split; [intros _; apply not_elem_of_nil|done]. }
  rewrite not_elem_of_cons. case_decide; naive_solver.
Qed.

Lemma dict_get_is_Some k d : is_Some (dict_get k d) ↔ k ∈ dict_keys d.
Proof.
  rewrite <-not_eq_None_Some, dict_get_None.
  destruct (decide (k ∈ dict_keys d)); tauto.
Qed.

Lemma dict_get_Some_elem k v d : dict_get k d = Some v → (k, v) ∈ d.
Proof.
  induction d as [|[k1 v1] d IH]; cbn; [done|]. case_decide; [|right; by apply IH].
  intros [= ->]. subst. by left.
Qed.

Lemma dict_get_elem_of k v d :
  NoDup (dict_keys d) → dict_get k d = Some v ↔ (k, v) ∈ d.
Proof.
  induction d as [|[k1 v1] d IH]; cbn; intros Hnd.
  { split; [done|]. by intros ?%elem_of_nil. }
  apply NoDup_cons in Hnd as [Hk Hnd]. rewrite elem_of_cons. case_decide; subst.
  - split; [intros [= ->]; by left|]. intros [[= ->]|Hin]; [done|].
    destruct Hk. apply list_elem_of_fmap. by exists (k, v).
  - rewrite (IH Hnd). naive_solver.
Qed.

Lemma dict_keys_set k v d :
  dict_keys (dict_set k v d) =
  if decide (k ∈ dict_keys d) then dict_keys d else dict_keys d ++ [k].
Proof.
  induction d as [|[k1 v1] d IH]; [done|]. cbn [dict_set map fst].
  destruct (decide (k1 = k)) as [->|Hne]; cbn [map fst].
  - rewrite decide_True by (apply elem_of_cons; by left). done.
  - rewrite IH. destruct (decide (k ∈ dict_keys d)) as [Hin|Hin].
    + by rewrite decide_True by (by apply elem_of_cons; right).
    + rewrite decide_False; [done|]. rewrite elem_of_cons. naive_solver.
Qed.

Lemma dict_keys_set_NoDup k v d :
  NoDup (dict_keys d) → NoDup (dict_keys (dict_set k v d)).
Proof.
  intros Hnd. rewrite dict_keys_set. case_decide as Hin; [done|].
  apply NoDup_app. split_and!; [done| |apply NoDup_singleton].
  intros x Hx ->%list_elem_of_singleton. done.
Qed.

Lemma dict_set_fresh k v d : k ∉ dict_keys d → dict_set k v d = d ++ [(k, v)].
Proof.
  induction d as [|[k1 v1] d IH]; [done|]. cbn. intros [Hne Hk]%not_elem_of_cons.
  rewrite decide_False by congruence. by rewrite IH.
Qed.

Lemma dict_of_id (l : dict) : NoDup (dict_keys l) → dict_of l = l.
Proof.
  unfold dict_of. intros Hnd.
  assert (∀ d0, NoDup (dict_keys (d0 ++ l)) →
    fold_left (λ d '(k, v), dict_set k v d) l d0 = d0 ++ l) as H; [|by apply (H [])].
  clear Hnd. induction l as [|[k v] l IH]; intros d0 Hnd; cbn; [by rewrite app_nil_r|].
  rewrite dict_set_fresh, IH; [by rewrite <-app_assoc..|].
  rewrite map_app in Hnd. apply NoDup_app in Hnd as (_&Hnd&_). intros Hin.
  apply (Hnd _ Hin). by left.
Qed.

Lemma dict_of_NoDup items : NoDup (dict_keys (dict_of items)).
Proof.
  unfold dict_of. assert (NoDup (dict_keys ([] : dict))) as H0 by apply NoDup_nil_2.
  revert H0. generalize ([] : dict). induction items as [|[k v] items IH]; [done|].
  intros d Hd. apply IH. by apply dict_keys_set_NoDup.
Qed.

(** Of the items with one key the last is kept. *)
Lemma dict_of_get k items : dict_get k (dict_of items) = snd <$> last (filter (λ p, p.1 = k) items).
Proof.
  unfold dict_of. induction items as [|[k' v] items IH] using rev_ind; [done|].
  rewrite fold_left_app, filter_app. cbn [fold_left]. rewrite dict_get_set. case_decide as Hk; subst.
  - by rewrite filter_cons_True, filter_nil, last_snoc by done.
  - by rewrite filter_cons_False, filter_nil, app_nil_r by done.
Qed.
End dict.

Abbreviation dict_keys d := (map fst d).

(** ** Sorting items by key (stable, as Python's [sorted]) *)

Lemma dict_get_map {K V W} `{EqDecision K} (f : V → W) k (d : list (K * V)) :
  dict_get k (map (λ '(k, v), (k, f v)) d) = f <$> dict_get k d.
Proof. induction d as [|[k' v] d IH]; cbn; [done|]. by case_decide. Qed.

Lemma dict_get_filter_key {K V} `{EqDecision K} (k x : K) (d : list (K * V)) :
  dict_get x (filter (λ p, p.1 ≠ k) d) = if decide (x = k) then None else dict_get x d.
Proof.
  induction d as [|[k' v] d IH]; [cbn; by case_decide|]. rewrite filter_cons. cbn [dict_get fst].
  destruct (decide (k' ≠ k)) as [Hk|Hk%dec_stable]; cbn [dict_get]; rewrite IH; repeat case_decide; congruence.
Qed.

Section kv_sort.
Context {K : Type} (leb : K → K → bool).

Fixpoint kv_insert {V} (p : K * V) (l : list (K * V)) : list (K * V) :=
  match l with
  | [] => [p]
  | q :: l => if leb p.1 q.1 then p :: q :: l else q :: kv_insert p l
  end.

Fixpoint kv_sort {V} (l : list (K * V)) : list (K * V) :=
  match l with
  | [] => []
  | p :: l => kv_insert p (kv_sort l)
  end.

Lemma kv_insert_map {V W} (f : V → W) p l :
  kv_insert (p.1, f p.2) (map (λ '(k, v), (k, f v)) l) =
  map (λ '(k, v), (k, f v)) (kv_insert p l).
Proof.
  induction l as [|[k v] l IH]; [by destruct p|]. cbn.
  destruct (leb _ _); cbn; [by destruct p|by rewrite <-IH].
Qed.

Lemma kv_sort_map {V W} (f : V → W) (l : list (K * V)) :
  kv_sort (map (λ '(k, v), (k, f v)) l) = map (λ '(k, v), (k, f v)) (kv_sort l).
Proof.
  induction l as [|[k v] l IH]; [done|]. cbn. rewrite IH.
  apply (kv_insert_map f (k, v)).
Qed.

Lemma kv_insert_perm {V} p (l : list (K * V)) : kv_insert p l ≡ₚ p :: l.
Proof.
  induction l as [|q l IH]; [done|]. cbn. destruct (leb _ _); [done|].
  rewrite IH. apply Permutation_swap.
Qed.

Lemma kv_sort_perm {V} (l : list (K * V)) : kv_sort l ≡ₚ l.
Proof.
  induction l as [|p l IH]; [done|]. cbn. rewrite kv_insert_perm. by rewrite IH.
Qed.

Definition kv_le {V} (p q : K * V) : Prop := leb p.1 q.1 = true.

Context (Htotal : ∀ a b, leb a b = true ∨ leb b a = true).
Context (Htrans : ∀ a b c, leb a b = true → leb b c = true → leb a c = true).

Lemma kv_insert_sorted {V} p (l : list (K * V)) :
  StronglySorted kv_le l → StronglySorted kv_le (kv_insert p l).
Proof.
  induction 1 as [|q l Hl IH Hq]; cbn; [by repeat constructor|].
  destruct (leb p.1 q.1) eqn:E.
  - constructor; [by constructor|]. constructor; [done|].
    eapply Forall_impl; [apply Hq|]. intros x Hx. by eapply Htrans.
  - constructor; [done|]. rewrite kv_insert_perm. constructor; [|done].
    unfold kv_le. destruct (Htotal p.1 q.1); congruence.
Qed.

Lemma kv_sort_sorted {V} (l : list (K * V)) : StronglySorted kv_le (kv_sort l).
Proof. induction l; [constructor|]. by apply kv_insert_sorted. Qed.

Lemma kv_sort_id {V} (l : list (K * V)) : StronglySorted kv_le l → kv_sort l = l.
Proof.
  induction 1 as [|p l Hl IH Hp]; [done|]. cbn. rewrite IH.
  destruct Hp as [|q l Hq]; [done|]. cbn. unfold kv_le in Hq. by rewrite Hq.
Qed.

Context (Hanti : ∀ a b, leb a b = true → leb b a = true → a = b).

(** Items with distinct keys have one sorted order: the order in which a dict
    was filled does not matter. *)
Lemma kv_sort_proper {V} (l1 l2 : list (K * V)) :
  NoDup (map fst l1) → l1 ≡ₚ l2 → kv_sort l1 = kv_sort l2.
Proof.
  intros Hnd Hp. apply (StronglySorted_unique_strong kv_le).
  - intros p q Hp1 Hq1 Hpq Hqp. rewrite kv_sort_perm in Hp1, Hq1. rewrite <-Hp in Hq1.
    assert (p.1 = q.1) as Hk by by apply Hanti.
    clear -Hnd Hp1 Hq1 Hk. induction l1 as [|r l IH]; [by apply elem_of_nil in Hp1|].
    apply NoDup_cons in Hnd as [Hr Hnd]. apply elem_of_cons in Hp1, Hq1.
    destruct Hp1 as [->|Hp1], Hq1 as [->|Hq1]; [done| | |by apply IH].
    + destruct Hr. rewrite Hk. by apply list_elem_of_fmap_2.
    + destruct Hr. rewrite <-Hk. by apply list_elem_of_fmap_2.
  - apply kv_sort_sorted.
  - apply kv_sort_sorted.
  - by rewrite !kv_sort_perm.
Qed.
End kv_sort.
