(* ===== verification/PyVal.v ===== *)
(** * PyVal: dynamically typed Python values

    The values that reach the policy code as [Any]: JSON data and the
    context built from it, with Python's comparison operators, membership,
    truth value and the [int]/[float] conversions, and the double arithmetic the scores use
    (computed by [SpecFloat]; [float(str)] is a parameter).  Numbers compare exactly
    across [bool], [int] and [float], as in Python; a float is a
    [SpecFloat.spec_float].  [VOpaque] stands for any other object (a bound
    method, say): hashable, true, and equal to no value of another kind.  An operator that raises gives [Err]. *)

From Stdlib Require Import Ascii ZArith Lia SpecFloat.
From stdpp Require Import base tactics strings list.
From S2P Require Import Prelude PyStr Dict.

Inductive pyval :=
  | VNone
  | VBool (b : bool)
  | VInt (z : Z)
  | VFloat (f : spec_float)
  | VStr (s : string)
  | VList (l : list pyval)
  | VDict (items : list (string * pyval))
  | VOpaque (name : string).

Inductive py_exn := TypeError | ValueError | OverflowError | AttributeError | ValidationError.

#[export] Instance py_exn_eq_dec : EqDecision py_exn.
Proof. solve_decision. Defined.

Definition is_dict (v : pyval) : bool := match v with VDict _ => true | _ => false end.

(** [v is None] *)
Definition is_none (v : pyval) : bool := match v with VNone => true | _ => false end.

(** [bool(v)] *)
Definition py_truth (v : pyval) : bool :=
  match v with
  | VNone => false
  | VBool b => b
  | VInt z => negb (z =? 0)%Z
  | VFloat (S754_zero _) => false
  | VFloat _ => true
  | VStr s => negb (str_empty s)
  | VList l => match l with [] => false | _ => true end
  | VDict d => match d with [] => false | _ => true end
  | VOpaque _ => true
  end.

(** ** Numbers *)

(** [NFin m e] is the number m * 2^e. *)
Inductive num := NFin (m e : Z) | NInf (neg : bool) | NNan.

Definition num_of_float (f : spec_float) : num :=
  match f with
  | S754_zero _ => NFin 0 0
  | S754_infinity s => NInf s
  | S754_nan => NNan
  | S754_finite s m e => NFin (if s then Zneg m else Zpos m) e
  end.

Definition num_of (v : pyval) : option num :=
  match v with
  | VBool b => Some (NFin (Z.b2z b) 0)
  | VInt z => Some (NFin z 0)
  | VFloat f => Some (num_of_float f)
  | _ => None
  end.

(** Exact comparison; [None] when one side is a NaN *)
Definition num_cmp (a b : num) : option comparison :=
  match a, b with
  | NNan, _ | _, NNan => None
  | NInf s, NInf s' => Some (if Bool.eqb s s' then Eq else if s then Lt else Gt)
  | NInf s, NFin _ _ => Some (if s then Lt else Gt)
  | NFin _ _, NInf s => Some (if s then Gt else Lt)
  | NFin m e, NFin m' e' =>
      let k := Z.min e e' in
      Some ((m * 2 ^ (e - k)) ?= (m' * 2 ^ (e' - k)))%Z
  end.

Definition cmp_is (c : comparison) (o : option comparison) : bool :=
  match o, c with
  | Some Eq, Eq | Some Lt, Lt | Some Gt, Gt => true
  | _, _ => false
  end.

Definition cmp_lt (o : option comparison) : bool := cmp_is Lt o.
Definition cmp_le (o : option comparison) : bool := cmp_is Lt o || cmp_is Eq o.

(** ** [==] *)

Fixpoint py_eq (a b : pyval) {struct a} : bool :=
  match a, b with
  | VNone, VNone => true
  | VStr s, VStr s' => String.eqb s s'
  | VList l, VList l' =>
      (fix go l l' :=
         match l, l' with
         | [], [] => true
         | x :: l, y :: l' => py_eq x y && go l l'
         | _, _ => false
         end) l l'
  | VDict d, VDict d' =>
      (length d =? length d') &&
      (fix go d :=
         match d with
         | [] => true
         | (k, x) :: d =>
             match dict_get k d' with
             | Some y => py_eq x y && go d
             | None => false
             end
         end) d
  | _, _ =>
      match num_of a, num_of b with
      | Some m, Some n => cmp_is Eq (num_cmp m n)
      | _, _ => false
      end
  end.

(** ** [<], [<=], [>], [>=]

    [op] says which orderings make the comparison true.  Sequences compare at
    their first difference; other mixed types raise [TypeError]. *)
Fixpoint py_rich (op : comparison → bool) (a b : pyval) {struct a} : res py_exn bool :=
  match a, b with
  | VStr s, VStr s' => Ok (op (String.compare s s'))
  | VList l, VList l' =>
      (fix go l l' :=
         match l, l' with
         | x :: l, y :: l' => if py_eq x y then go l l' else py_rich op x y
         | _, _ => Ok (op (Nat.compare (length l) (length l')))
         end) l l'
  | _, _ =>
      match num_of a, num_of b with
      | Some m, Some n =>
          Ok (match num_cmp m n with Some c => op c | None => false end)
      | _, _ => Err TypeError
      end
  end.

Definition op_lt (c : comparison) : bool := match c with Lt => true | _ => false end.
Definition op_le (c : comparison) : bool := match c with Gt => false | _ => true end.
Definition op_gt (c : comparison) : bool := match c with Gt => true | _ => false end.
Definition op_ge (c : comparison) : bool := match c with Lt => false | _ => true end.

(** ** [v in container] *)

Fixpoint str_contains (sub s : string) : bool :=
  str_startswith sub s ||
  match s with
  | EmptyString => false
  | String _ s => str_contains sub s
  end.

Definition py_in (v container : pyval) : res py_exn bool :=
  match container with
  | VList l => Ok (existsb (py_eq v) l)
  | VDict d =>
      match v with
      | VList _ | VDict _ => Err TypeError
      | VStr k => Ok (bool_decide (k ∈ dict_keys d))
      | _ => Ok false
      end
  | VStr s =>
      match v with
      | VStr sub => Ok (str_contains sub s)
      | _ => Err TypeError
      end
  | _ => Err TypeError
  end.

(** ** Conversions *)

(** Decimal digits with single underscores between them, as [int(str)] reads
    them; the [bool] says that a digit was just read. *)
Fixpoint int_digits (s : string) (after_digit : bool) (acc : Z) : option Z :=
  match s with
  | EmptyString => if after_digit then Some acc else None
  | String c s =>
      let n := Z.of_N (N_of_ascii c) in
      if ((48 <=? n) && (n <=? 57))%Z then int_digits s true (acc * 10 + (n - 48))%Z
      else if (n =? 95)%Z && after_digit then int_digits s false acc
      else None
  end.

(** A UTF-8 text cut into its characters: a byte 10xxxxxx continues one. *)
Definition continues (c : ascii) : bool :=
  let n := N_of_ascii c in ((128 <=? n) && (n <? 192))%N.

Fixpoint py_chars (s : string) : list string :=
  match s with
  | EmptyString => []
  | String c s =>
      match py_chars s with
      | String d r :: rest =>
          if continues d then String c (String d r) :: rest
          else String c "" :: String d r :: rest
      | rest => String c "" :: rest
      end
  end.

(** The white space [strip] removes: tab to carriage return, 0x1c to 0x1f,
    space, U+0085, U+00A0, U+1680, U+2000 to U+200A, U+2028, U+2029, U+202F,
    U+205F and U+3000 *)
Definition is_space (c : string) : bool :=
  match map (λ c, N_of_ascii c) (str_chars c) with
  | [n] => ((9 <=? n) && (n <=? 13) || (28 <=? n) && (n <=? 32))%N
  | [194; n]%N => ((n =? 133) || (n =? 160))%N
  | [225; 154; 128]%N => true
  | [226; 128; n]%N => ((128 <=? n) && (n <=? 138) || (168 <=? n) && (n <=? 169) || (n =? 175))%N
  | [226; 129; 159]%N => true
  | [227; 128; 128]%N => true
  | _ => false
  end.

Fixpoint drop_spaces (l : list string) : list string :=
  match l with
  | c :: l' => if is_space c then drop_spaces l' else l
  | [] => []
  end.

(** [s.strip()] *)
Definition py_strip (s : string) : string :=
  str_join "" (rev (drop_spaces (rev (drop_spaces (py_chars s))))).

Definition int_of_str (s : string) : res py_exn Z :=
  res_of_option ValueError
    match py_strip s with
    | String c s' as s =>
        if Ascii.eqb c "-"%char then Z.opp <$> int_digits s' false 0
        else if Ascii.eqb c "+"%char then int_digits s' false 0
        else int_digits s false 0
    | EmptyString => None
    end.

(** [int(v)]: floats are truncated towards zero. *)
Definition py_int (v : pyval) : res py_exn Z :=
  match v with
  | VBool b => Ok (Z.b2z b)
  | VInt z => Ok z
  | VFloat f =>
      match num_of_float f with
      | NFin m e => Ok (if (0 <=? e)%Z then (m * 2 ^ e)%Z else Z.quot m (2 ^ (- e)))
      | NInf _ => Err OverflowError
      | NNan => Err ValueError
      end
  | VStr s => int_of_str s
  | _ => Err TypeError
  end.

(** [float(z)]: the nearest double, [OverflowError] beyond their range *)
Definition float_of_int (z : Z) : res py_exn spec_float :=
  match binary_normalize 53 1024 z 0 false with
  | S754_infinity _ => Err OverflowError
  | f => Ok f
  end.

(** [float(v)] *)
Definition py_float (float_of_str : string → option spec_float) (v : pyval) : res py_exn spec_float :=
  match v with
  | VBool b => float_of_int (Z.b2z b)
  | VInt z => float_of_int z
  | VFloat f => Ok f
  | VStr s => res_of_option ValueError (float_of_str s)
  | _ => Err TypeError
  end.

(** ** Doubles *)

Definition f_of_nat (n : nat) : spec_float := binary_normalize 53 1024 (Z.of_nat n) 0 false.
Definition f_mul : spec_float → spec_float → spec_float := SFmul 53 1024.
Definition f_div : spec_float → spec_float → spec_float := SFdiv 53 1024.

Definition f_lt (a b : spec_float) : bool := cmp_lt (num_cmp (num_of_float a) (num_of_float b)).
Definition f_ge (a b : spec_float) : bool := cmp_le (num_cmp (num_of_float b) (num_of_float a)).

(** [min(a, b)] and [max(a, b)] keep the first argument unless the second is
    strictly beyond it. *)
Definition f_min (a b : spec_float) : spec_float := if f_lt b a then b else a.
Definition f_max (a b : spec_float) : spec_float := if f_lt a b then b else a.

(** The doubles nearest to 0.2, 0.3, 0.4, 0.6 and 0.8 *)
Definition f0_2 : spec_float := S754_finite false 7205759403792794 (-55).
Definition f0_3 : spec_float := S754_finite false 5404319552844595 (-54).
Definition f0_4 : spec_float := S754_finite false 7205759403792794 (-54).
Definition f0_6 : spec_float := S754_finite false 5404319552844595 (-53).
Definition f0_8 : spec_float := S754_finite false 7205759403792794 (-53).

(** [round(x, 3)] of a non-negative double: the exact value is rounded to
    thousandths, half to even, and the quotient to the nearest double. *)
Definition round_half_even (a b : Z) : Z :=
  let q := (a / b)%Z in
  match (2 * (a mod b) ?= b)%Z with
  | Lt => q
  | Gt => (q + 1)%Z
  | Eq => if Z.even q then q else (q + 1)%Z
  end.

Definition f_round3 (f : spec_float) : spec_float :=
  match num_of_float f with
  | NFin m e =>
      let k := if (0 <=? e)%Z then (m * 2 ^ e * 1000)%Z
               else round_half_even (m * 1000) (2 ^ (- e)) in
      f_div (binary_normalize 53 1024 k 0 false) (f_of_nat 1000)
  | _ => f
  end.

(** ** Examples *)

Definition float_half : spec_float := S754_finite false 1 (-1).

Example py_eq_mixed : py_eq (VList [VInt 1; VBool true]) (VList [VBool true; VInt 1]) = true.
Proof. reflexivity. Qed.
Example py_lt_mixed : py_rich op_lt (VFloat float_half) (VInt 1) = Ok true.
Proof. reflexivity. Qed.
Example py_lt_type : py_rich op_lt (VStr "a") (VInt 1) = Err TypeError.
Proof. reflexivity. Qed.
Example py_lt_list :
  py_rich op_lt (VList [VInt 1; VStr "a"]) (VList [VInt 1; VStr "b"; VNone]) = Ok true.
Proof. reflexivity. Qed.
Example py_int_str : py_int (VStr " -1_000 ") = Ok (-1000)%Z.
Proof. reflexivity. Qed.
Example py_int_trunc : py_int (VFloat (S754_finite true 7 (-1))) = Ok (-3)%Z.
Proof. reflexivity. Qed.
Example py_in_sub : py_in (VStr "bc") (VStr "abcd") = Ok true.
Proof. reflexivity. Qed.

(** ** Lemmas *)

Lemma num_cmp_refl a : a ≠ NNan → num_cmp a a = Some Eq.
Proof. destruct a as [m e|[]|]; cbn; [by rewrite Z.compare_refl|done..]. Qed.

Lemma num_cmp_sym a b : num_cmp b a = CompOpp <$> num_cmp a b.
Proof.
  destruct a as [m e|s|], b as [m' e'|s'|]; cbn; try done; try (by destruct s);
    try (by destruct s'); [|by destruct s, s'].
  rewrite (Z.min_comm e' e). f_equal. apply Z.compare_antisym.
Qed.

Lemma py_rich_num op a b m n :
  num_of a = Some m → num_of b = Some n →
  py_rich op a b = Ok (match num_cmp m n with Some c => op c | None => false end).
Proof. destruct a, b; cbn; intros; by simplify_eq. Qed.

(** Structural induction that also gives the elements of a list stored in a
    dictionary *)
Section pyval_ind'.
Context (P : pyval → Prop).

Definition with_elems (v : pyval) : Prop :=
  P v ∧ match v with VList l => Forall P l | _ => True end.

Context (Hatom : ∀ v, match v with VList _ | VDict _ => False | _ => True end → P v).
Context (Hlist : ∀ l, Forall P l → P (VList l)).
Context (Hdict : ∀ items, Forall (λ kv, with_elems kv.2) items → P (VDict items)).

Lemma pyval_ind' v : P v.
Proof.
  enough (with_elems v) as [H _]; [exact H|]. revert v. fix IH 1. intros v.
  destruct v as [|b|z|f|s|l|items|n]; try (split; [by apply Hatom|exact I]).
  - assert (Forall P l) as Hl.
    { induction l as [|x l IHl]; constructor; [apply (IH x)|exact IHl]. }
    split; [by apply Hlist|exact Hl].
  - split; [|exact I]. apply Hdict.
    induction items as [|kv items IHi]; constructor; [apply (IH kv.2)|exact IHi].
Qed.
End pyval_ind'.

Lemma py_rich_err op a b e : py_rich op a b = Err e → e = TypeError.
Proof.
  revert b e. induction a as [v Hv|l IH|items IH] using pyval_ind'; intros b e H.
  - destruct v; try done; destruct b; cbn in H; try done; congruence.
  - destruct b as [| | | | |l'| |]; try (cbn in H; congruence).
    cbn in H. revert l' H. induction IH as [|x l Hx _ IHl]; intros [|y l'] H; try done.
    cbn in H. destruct (py_eq x y) eqn:E; [|by eapply Hx].
    by apply (IHl l').
  - destruct b; cbn in H; congruence.
Qed.

Lemma py_in_err v c e : py_in v c = Err e → e = TypeError.
Proof. destruct c, v; cbn; congruence. Qed.
