(* ===== verification/PyFloat.v ===== *)
(** * PyFloat: arithmetic and order of doubles

    The operations on [float] that several components share, on top of PyVal.v:
    binary64 addition and subtraction, [round(x, n)], and the fact that the
    comparison of numbers is a total preorder away from NaN. *)

From Stdlib Require Import ZArith Lia Floats.SpecFloat.
From stdpp Require Import base tactics list strings pretty.
From S2P Require Import Prelude PyStr Dict PyVal.

#[local] Open Scope Z_scope.

Definition f_of_Z (z : Z) : spec_float := binary_normalize 53 1024 z 0 false.
Definition f_add : spec_float → spec_float → spec_float := SFadd 53 1024.
Definition f_sub : spec_float → spec_float → spec_float := SFsub 53 1024.
Definition f_le (a b : spec_float) : bool := f_ge b a.
Definition f_neg : spec_float → spec_float := SFopp.
Definition f_abs : spec_float → spec_float := SFabs.

(** The literal of [n] hundredths *)
Definition hundredths (n : Z) : spec_float := f_div (f_of_Z n) (f_of_Z 100).

Definition is_nan (f : spec_float) : bool := match f with S754_nan => true | _ => false end.

(** [round(x, n)]: the exact value is rounded to [n] decimals, half to even,
    and the quotient to the nearest double. *)
Definition f_round (n : Z) (f : spec_float) : spec_float :=
  match num_of_float f with
  | NFin m e =>
      let k := if 0 <=? e then m * 2 ^ e * 10 ^ n else round_half_even (m * 10 ^ n) (2 ^ (- e)) in
      f_div (f_of_Z k) (f_of_Z (10 ^ n))
  | _ => f
  end.

(** [f"{x:.2f}"]: the exact value rounded to hundredths, half to even *)
Definition f_sign (f : spec_float) : bool :=
  match f with S754_zero b | S754_infinity b | S754_finite b _ _ => b | S754_nan => false end.

Definition two_digits (n : Z) : string := (if n <? 10 then "0" else "") +:+ pretty n.

Definition f_fixed2 (f : spec_float) : string :=
  (if f_sign f then "-" else "") +:+
  match num_of_float (SFabs f) with
  | NFin m e =>
      let k := if 0 <=? e then m * 2 ^ e * 100 else round_half_even (m * 100) (2 ^ (- e)) in
      pretty (k / 100) +:+ "." +:+ two_digits (k mod 100)
  | NInf _ => "inf"
  | NNan => "nan"
  end.

Definition f_sqrt : spec_float → spec_float := SFsqrt 53 1024.

Definition f_is_zero (f : spec_float) : bool := match f with S754_zero _ => true | _ => false end.

Definition f_is_finite (f : spec_float) : bool :=
  match f with S754_zero _ | S754_finite _ _ _ => true | _ => false end.

(** [sum(xs)] of a list of floats: the compensated summation of Python 3.13,
    with the running total and the error term *)
Definition cs_add (total : spec_float * spec_float) (x : spec_float) : spec_float * spec_float :=
  let '(hi, lo) := total in
  let t := f_add hi x in
  (t, f_add lo (if f_ge (f_abs hi) (f_abs x) then f_add (f_sub hi t) x else f_add (f_sub x t) hi)).

Definition f_sum (xs : list spec_float) : spec_float :=
  match xs with
  | [] => f_of_Z 0
  | x :: xs =>
      let '(hi, lo) := foldl cs_add (f_add (f_of_Z 0) x, f_of_Z 0) xs in
      if f_is_zero lo || negb (f_is_finite lo) then hi else f_add hi lo
  end.

(** ** Order *)

(** A finite number as a multiple of 2^k *)
Definition scaled (k m e : Z) : Z := m * 2 ^ (e - k).

Lemma num_cmp_scaled k m e m' e' :
  k ≤ e → k ≤ e' → num_cmp (NFin m e) (NFin m' e') = Some (scaled k m e ?= scaled k m' e').
Proof.
  intros H1 H2. cbn. f_equal. unfold scaled.
  set (j := Z.min e e'). assert (k ≤ j) by (subst j; lia). assert (j ≤ e ∧ j ≤ e') as [? ?] by (subst j; lia).
  replace (e - k) with ((e - j) + (j - k)) by lia. replace (e' - k) with ((e' - j) + (j - k)) by lia.
  rewrite !Z.pow_add_r, !Z.mul_assoc by lia. apply Zmult_compare_compat_r.
  assert (0 < 2 ^ (j - k)) by (apply Z.pow_pos_nonneg; lia). lia.
Qed.

Definition num_le (a b : num) : bool := cmp_le (num_cmp a b).

Lemma num_le_total a b : a ≠ NNan → b ≠ NNan → num_le a b = true ∨ num_le b a = true.
Proof.
  unfold num_le. destruct a as [m e|s|], b as [m' e'|s'|]; intros Ha Hb; try done.
  - rewrite (num_cmp_scaled (Z.min e e') m e), (num_cmp_scaled (Z.min e e') m' e') by lia.
    unfold cmp_le, cmp_is. destruct (Z.compare_spec (scaled (Z.min e e') m e) (scaled (Z.min e e') m' e')) as [Hc|Hc|Hc];
      [by left|by left|right]. apply Z.compare_lt_iff in Hc. by rewrite Hc.
  - destruct s'; [by right|by left].
  - destruct s; [by left|by right].
  - destruct s, s'; auto.
Qed.

Lemma num_le_trans a b c : num_le a b = true → num_le b c = true → num_le a c = true.
Proof.
  assert (∀ x y, cmp_le (Some (x ?= y)) = true ↔ x ≤ y) as Hle.
  { intros x y. unfold cmp_le, cmp_is. rewrite Z.le_lteq. destruct (Z.compare_spec x y) as [->|Hc|Hc]; cbn; split; try done; lia. }
  unfold num_le. destruct a as [m e|s|], b as [m' e'|s'|], c as [m2 e2|s2|]; try done;
    try (by destruct s); try (by destruct s'); try (by destruct s2); try (by destruct s, s'); try (by destruct s', s2);
    try (by destruct s, s2); try (by destruct s, s', s2).
  set (k := Z.min e (Z.min e' e2)).
  rewrite (num_cmp_scaled k m e m' e'), (num_cmp_scaled k m' e' m2 e2), (num_cmp_scaled k m e m2 e2) by lia.
  rewrite !Hle. lia.
Qed.

Lemma nan_num f : is_nan f = false ↔ num_of_float f ≠ NNan.
Proof. destruct f; split; try done. Qed.

Lemma f_le_total a b : is_nan a = false → is_nan b = false → f_le a b = true ∨ f_le b a = true.
Proof. rewrite !nan_num. apply num_le_total. Qed.

Lemma f_le_trans a b c : f_le a b = true → f_le b c = true → f_le a c = true.
Proof. apply num_le_trans. Qed.

Lemma f_le_refl a : is_nan a = false → f_le a a = true.
Proof. intros Ha. by destruct (f_le_total a a Ha Ha). Qed.

(** [a < b] is the negation of [b <= a] where both are numbers. *)
Lemma f_lt_le a b : is_nan a = false → is_nan b = false → f_lt a b = negb (f_le b a).
Proof.
  rewrite !nan_num. intros Ha Hb. unfold f_lt, f_le, f_ge. rewrite (num_cmp_sym (num_of_float a)).
  destruct (num_cmp (num_of_float a) (num_of_float b)) as [[]|] eqn:E; try done.
  destruct (num_of_float a), (num_of_float b); done.
Qed.

Lemma f_lt_le_weak a b : f_lt a b = true → f_le a b = true.
Proof. unfold f_lt, f_le, f_ge. by destruct (num_cmp _ _) as [[]|]. Qed.

Lemma f_lt_nan a b : f_lt a b = true → is_nan a = false ∧ is_nan b = false.
Proof. by destruct a, b. Qed.

(** [min] and [max] with a bound that is a number, whatever the other argument
    is *)
Lemma f_min_le_l a b : is_nan a = false → f_le (f_min a b) a = true.
Proof. intros Ha. unfold f_min. destruct (f_lt b a) eqn:E; [by apply f_lt_le_weak|by apply f_le_refl]. Qed.

Lemma f_max_ge_l a b : is_nan a = false → f_le a (f_max a b) = true.
Proof. intros Ha. unfold f_max. destruct (f_lt a b) eqn:E; [by apply f_lt_le_weak|by apply f_le_refl]. Qed.

Lemma f_clamp lo hi x :
  f_le lo hi = true → is_nan lo = false → is_nan hi = false →
  f_le lo (f_max lo (f_min hi x)) = true ∧ f_le (f_max lo (f_min hi x)) hi = true.
Proof.
  intros Hlh Hl Hh. split; [by apply f_max_ge_l|]. unfold f_max. destruct (f_lt lo (f_min hi x)); [by apply f_min_le_l|done].
Qed.

Example f_fixed2_sample : f_fixed2 (hundredths 95) = "0.95" ∧ f_fixed2 (S754_finite false 1 (-3)) = "0.12".
Proof. split; vm_compute; reflexivity. Qed.

Example f_round_half : f_round 0 (S754_finite false 5 (-1)) = f_of_Z 2.
Proof. reflexivity. Qed.
