(* ===== verification/Rounding.v ===== *)
(** * Rounding: how far binary64 arithmetic is from exact arithmetic

    The error of the sum, the difference and the quotient of doubles as
    [SpecFloat] defines them, for numbers of bounded size.  The value of a double
    is counted in the smallest positive one, 2^-1074, so that it is an integer.
    Wallet.v uses the bounds for amounts of money. *)

From Stdlib Require Import ZArith Lia Floats.SpecFloat.
From stdpp Require Import base tactics list strings.
From S2P Require Import Prelude PyStr Dict PyVal PyFloat.

#[local] Open Scope Z_scope.

(** A number of binary64, and its value in 2^-1074 *)
Definition is_number (x : spec_float) : Prop :=
  match x with S754_zero _ => True | S754_finite _ _ e => -1074 <= e | _ => False end.

Definition ticks (x : spec_float) : Z :=
  match x with S754_finite s m e => cond_Zopp s (Zpos m) * 2 ^ (e + 1074) | _ => 0 end.

(** ** Mantissas *)

Lemma pow2_pos k : 0 <= k → 0 < 2 ^ k.
Proof. intros. apply Z.pow_pos_nonneg; lia. Qed.

Lemma digits_bounds m : 2 ^ (Zpos (digits2_pos m) - 1) <= Zpos m < 2 ^ Zpos (digits2_pos m).
Proof.
  assert (∀ p, 2 ^ Zpos (Pos.succ p) = 2 * 2 ^ Zpos p) as Hs
    by (intros p; rewrite Pos2Z.inj_succ, Z.pow_succ_r; lia).
  assert (∀ p, 2 ^ (Zpos (Pos.succ p) - 1) = 2 * 2 ^ (Zpos p - 1)) as Hp
    by (intros p; rewrite Pos2Z.inj_succ, <-Z.pow_succ_r by lia; f_equal; lia).
  induction m as [m IH|m IH|]; cbn [digits2_pos]; rewrite ?Hs, ?Hp; lia.
Qed.

Lemma digits_le m k : 0 <= k → Zpos m < 2 ^ k → Zpos (digits2_pos m) <= k.
Proof.
  intros Hk Hm. destruct (digits_bounds m) as [Hl _]. apply Z.nlt_ge. intros Hlt.
  assert (2 ^ k <= 2 ^ (Zpos (digits2_pos m) - 1)) by (apply Z.pow_le_mono_r; lia). lia.
Qed.

Lemma shr_1_half r : 0 <= shr_m r → shr_m (shr_1 r) = shr_m r / 2.
Proof.
  destruct r as [[|[p|p|]|p] r s]; cbn; try done; try lia; intros _.
  - rewrite Pos2Z.inj_xI. apply Z.div_unique with 1; lia.
  - rewrite Pos2Z.inj_xO. apply Z.div_unique with 0; lia.
Qed.

Lemma pow2_xO p : 2 ^ Zpos p~0 = 2 ^ Zpos p * 2 ^ Zpos p.
Proof. rewrite <-Z.pow_add_r by lia. f_equal. lia. Qed.

Lemma pow2_xI p : 2 ^ Zpos p~1 = 2 * (2 ^ Zpos p * 2 ^ Zpos p).
Proof. rewrite <-pow2_xO, <-Z.pow_succ_r by lia. f_equal. Qed.

Lemma iter_shr p r : 0 <= shr_m r → shr_m (SpecFloat.iter_pos shr_1 p r) = shr_m r / 2 ^ Zpos p.
Proof.
  revert r. induction p as [p IH|p IH|]; intros r Hr; cbn [SpecFloat.iter_pos].
  - pose proof (pow2_pos (Zpos p) ltac:(lia)). pose proof (shr_1_half r Hr) as H1. assert (0 <= shr_m (shr_1 r)) as H1p by (rewrite H1; apply Z.div_pos; lia).
    pose proof (IH _ H1p) as H2.
    rewrite IH, H2, H1 by (rewrite H2; apply Z.div_pos; lia). by rewrite pow2_xI, <-!Z.div_div by lia.
  - pose proof (pow2_pos (Zpos p) ltac:(lia)). pose proof (IH _ Hr) as H2.
    rewrite IH, H2 by (rewrite H2; apply Z.div_pos; lia). by rewrite pow2_xO, <-Z.div_div by lia.
  - by apply shr_1_half.
Qed.

(** The exponent after a shift, and the mantissa *)
Definition shifted (m e : Z) : Z := Z.max e (fexp 53 1024 (Zdigits2 m + e)).

Lemma shr_fexp_floor m e l :
  0 <= m → ∃ r, shr_fexp 53 1024 m e l = (r, shifted m e) ∧ shr_m r = m / 2 ^ (shifted m e - e).
Proof.
  intros Hm. unfold shr_fexp, shifted. set (k := fexp 53 1024 (Zdigits2 m + e)).
  assert (shr_m (shr_record_of_loc m l) = m) as Hr by (by destruct l as [|[]]).
  unfold shr. destruct (k - e) as [|p|p] eqn:E.
  - eexists. replace (Z.max e k) with e by lia. split; [reflexivity|]. rewrite Hr, Z.sub_diag. by rewrite Z.div_1_r.
  - eexists. replace (Z.max e k) with (e + Zpos p) by lia. split; [reflexivity|].
    rewrite iter_shr by by rewrite Hr. rewrite Hr. do 2 f_equal. lia.
  - eexists. replace (Z.max e k) with e by lia. split; [reflexivity|]. rewrite Hr, Z.sub_diag. by rewrite Z.div_1_r.
Qed.

Lemma nearest_even_near m l : m <= round_nearest_even m l <= m + 1.
Proof. destruct l as [|[]]; cbn; try lia. destruct (Z.even m); lia. Qed.

(** Dropping bits loses less than the last one kept. *)
Lemma floor_ticks m e e' :
  0 <= m → -1074 <= e <= e' →
  m / 2 ^ (e' - e) * 2 ^ (e' + 1074) <= m * 2 ^ (e + 1074) < (m / 2 ^ (e' - e) + 1) * 2 ^ (e' + 1074).
Proof.
  intros Hm He. replace (e' + 1074) with ((e' - e) + (e + 1074)) by lia. rewrite Z.pow_add_r by lia.
  pose proof (pow2_pos (e' - e) ltac:(lia)) as H1. pose proof (pow2_pos (e + 1074) ltac:(lia)) as H2.
  pose proof (Z.mul_div_le m _ H1). pose proof (Z.mul_succ_div_gt m _ H1). nia.
Qed.

(** ** Rounding to a double *)

Lemma zdigits_le m k : 0 <= m → 0 <= k → m < 2 ^ k → Zdigits2 m <= k.
Proof. destruct m; cbn; try lia. intros _. apply digits_le. Qed.

Lemma zdigits_gt m : 0 <= m → m < 2 ^ Zdigits2 m.
Proof. destruct m; cbn; try lia. intros _. apply digits_bounds. Qed.

Lemma ticks_digits m e N :
  0 <= m → -1074 <= e <= N → m * 2 ^ (e + 1074) <= 2 ^ (N + 1074) → Zdigits2 m <= N - e + 1.
Proof.
  intros Hm He Hb. apply zdigits_le; [done|lia|].
  replace (N + 1074) with ((N - e) + (e + 1074)) in Hb by lia. rewrite (Z.pow_add_r 2 (N - e)) in Hb by lia.
  apply Z.mul_le_mono_pos_r in Hb; [|apply pow2_pos; lia].
  pose proof (pow2_pos (N - e) ltac:(lia)). replace (N - e + 1) with (Z.succ (N - e)) by lia.
  rewrite Z.pow_succ_r by lia. lia.
Qed.

(** The two shifts of [binary_round_aux]: the mantissa is cut, rounded and, if that
    made it too long, cut again. *)
Lemma two_shifts m e N M :
  -900 <= N → 0 <= m → -1074 <= e <= N - 52 → m * 2 ^ (e + 1074) <= 2 ^ (N + 1074) →
  m / 2 ^ (shifted m e - e) <= M <= m / 2 ^ (shifted m e - e) + 1 →
  let e2 := shifted M (shifted m e) in
  0 <= M ∧ -1074 <= e2 <= N - 51 ∧
  Z.abs (M / 2 ^ (e2 - shifted m e) * 2 ^ (e2 + 1074) - m * 2 ^ (e + 1074)) <= 3 * 2 ^ (N - 52 + 1074).
Proof.
  intros HN Hm He Hb HM e2. pose proof (ticks_digits m e N Hm ltac:(lia) Hb) as Hd.
  pose proof (zdigits_gt m Hm) as Hg.
  set (e1 := shifted m e) in *.
  assert (e <= e1 <= N - 52 ∧ Zdigits2 m - 53 <= e1 - e) as [He1 Hcut].
  { unfold e1, shifted, fexp, emin. lia. }
  pose proof (floor_ticks m e e1 Hm ltac:(lia)) as Hf1.
  assert (0 <= m / 2 ^ (e1 - e)) as H0 by (apply Z.div_pos; [done|apply pow2_pos; lia]).
  assert (m / 2 ^ (e1 - e) < 2 ^ 53) as Hlt.
  { apply Z.div_lt_upper_bound; [apply pow2_pos; lia|]. rewrite <-Z.pow_add_r by lia.
    eapply Z.lt_le_trans; [exact Hg|]. apply Z.pow_le_mono_r; lia. }
  assert (Zdigits2 M <= 54) as Hd2 by (apply zdigits_le; lia).
  assert (e1 <= e2 <= e1 + 1) as He2 by (unfold e2, shifted, fexp, emin; lia).
  pose proof (floor_ticks M e1 e2 ltac:(lia) ltac:(lia)) as Hf2.
  assert (2 ^ (e2 + 1074) <= 2 * 2 ^ (e1 + 1074)) as Hp2.
  { rewrite <-Z.pow_succ_r by lia. apply Z.pow_le_mono_r; lia. }
  assert (2 ^ (e1 + 1074) <= 2 ^ (N - 52 + 1074)) as Hp1 by (apply Z.pow_le_mono_r; lia).
  pose proof (pow2_pos (e1 + 1074) ltac:(lia)). split_and!; [lia..|]. nia.
Qed.

Lemma round_aux_near s m e l N :
  -900 <= N <= 900 → 0 <= m → -1074 <= e <= N - 52 → m * 2 ^ (e + 1074) <= 2 ^ (N + 1074) →
  let y := binary_round_aux 53 1024 s m e l in
  is_number y ∧ Z.abs (ticks y - cond_Zopp s m * 2 ^ (e + 1074)) <= 3 * 2 ^ (N - 52 + 1074).
Proof.
  intros HN Hm He Hb y. unfold y, binary_round_aux.
  destruct (shr_fexp_floor m e l Hm) as (r&->&Hr).
  pose proof (nearest_even_near (shr_m r) (loc_of_shr_record r)) as HM.
  set (M := round_nearest_even _ _) in *. rewrite Hr in HM.
  destruct (two_shifts m e N M ltac:(lia) Hm He Hb HM) as (HM0&He2&Herr).
  destruct (shr_fexp_floor M (shifted m e) loc_Exact HM0) as (r2&->&Hr2).
  rewrite <-Hr2 in Herr. assert (0 <= shr_m r2) as Hp2.
  { rewrite Hr2. apply Z.div_pos; [done|]. apply pow2_pos. unfold shifted at 1. lia. }
  destruct (shr_m r2) as [|p|p]; [|destruct (Z.leb_spec (shifted M (shifted m e)) (1024 - 53)); [|lia]|lia].
  - split; [done|]. destruct s; cbn [ticks cond_Zopp]; lia.
  - split; [cbn; lia|]. destruct s; cbn [ticks cond_Zopp]; lia.
Qed.

Lemma shl_align_ticks m e k :
  -1074 <= k → -1074 <= e →
  let '(m', e') := shl_align m e k in
  e' = Z.min e k ∧ Zpos m' * 2 ^ (e' + 1074) = Zpos m * 2 ^ (e + 1074).
Proof.
  intros Hk He. unfold shl_align. destruct (k - e) as [|p|p] eqn:E; [split; [lia|done]..|].
  split; [lia|].
  assert (∀ q, Zpos (Pos.iter xO m q) = Zpos m * 2 ^ Zpos q) as ->.
  { intros q. induction q as [|q IH] using Pos.peano_ind; [cbn; lia|].
    rewrite Pos.iter_succ, Pos2Z.inj_xO, IH, Pos2Z.inj_succ, Z.pow_succ_r by lia. lia. }
  rewrite <-Z.mul_assoc, <-Z.pow_add_r by lia. do 2 f_equal. lia.
Qed.

Lemma normalize_near m e z N :
  -900 <= N <= 900 → -1074 <= e → Z.abs m * 2 ^ (e + 1074) <= 2 ^ (N + 1074) →
  let y := binary_normalize 53 1024 m e z in
  is_number y ∧ Z.abs (ticks y - m * 2 ^ (e + 1074)) <= 3 * 2 ^ (N - 52 + 1074).
Proof.
  intros HN He Hb y. pose proof (pow2_pos (N - 52 + 1074) ltac:(lia)).
  assert (∀ s p, Zpos p * 2 ^ (e + 1074) <= 2 ^ (N + 1074) →
    is_number (binary_round 53 1024 s p e) ∧
    Z.abs (ticks (binary_round 53 1024 s p e) - cond_Zopp s (Zpos p) * 2 ^ (e + 1074)) <= 3 * 2 ^ (N - 52 + 1074)) as Hr.
  { intros s p Hp. unfold binary_round. set (k := fexp 53 1024 _).
    assert (e <= N) as HeN.
    { apply Z.nlt_ge. intros Hlt. pose proof (Z.pow_lt_mono_r 2 (N + 1074) (e + 1074) ltac:(lia) ltac:(lia) ltac:(lia)). nia. }
    pose proof (ticks_digits (Zpos p) e N ltac:(lia) ltac:(lia) Hp) as Hd. cbn [Zdigits2] in Hd.
    assert (-1074 <= k <= N - 52) as Hk by (unfold k, fexp, emin; lia).
    pose proof (shl_align_ticks p e k ltac:(lia) He) as Ha. destruct (shl_align p e k) as [mz ez].
    destruct Ha as [-> Ha].
    assert (∀ b, cond_Zopp b (Zpos mz) * 2 ^ (Z.min e k + 1074) = cond_Zopp b (Zpos p) * 2 ^ (e + 1074)) as Hc
      by (intros []; cbn [cond_Zopp]; lia).
    rewrite <-(Hc s). apply round_aux_near; [lia..|]. by rewrite Ha. }
  destruct m as [|p|p]; unfold y, binary_normalize.
  - split; [done|]. cbn [ticks]. lia.
  - apply (Hr false). lia.
  - apply (Hr true). lia.
Qed.

(** ** Operations *)

Lemma aligned_ticks s m e k :
  -1074 <= k <= e → cond_Zopp s (Zpos (shl_align m e k).1) * 2 ^ (k + 1074) = ticks (S754_finite s m e).
Proof.
  intros Hk. pose proof (shl_align_ticks m e k ltac:(lia) ltac:(lia)) as Ha.
  destruct (shl_align m e k) as [m' e']. destruct Ha as [-> Ha]. replace (Z.min e k) with k in Ha by lia.
  cbn [fst ticks]. destruct s; cbn [cond_Zopp]; lia.
Qed.

(** A sum or difference of magnitude at most 2^N is off by at most three halves of the
    last bit of numbers below 2^(N+1). *)
Definition last_bits (N : Z) : Z := 3 * 2 ^ (N - 52 + 1074).

Lemma last_bits_pos N : -900 <= N → 0 < last_bits N.
Proof. intros. unfold last_bits. pose proof (pow2_pos (N - 52 + 1074) ltac:(lia)). lia. Qed.

Lemma add_near x y N :
  -900 <= N <= 900 → is_number x → is_number y → Z.abs (ticks x + ticks y) <= 2 ^ (N + 1074) →
  is_number (f_add x y) ∧ Z.abs (ticks (f_add x y) - (ticks x + ticks y)) <= last_bits N.
Proof.
  intros HN Hx Hy Hb. pose proof (last_bits_pos N ltac:(lia)) as Hp. unfold f_add.
  destruct x as [sx| | |sx mx ex], y as [sy| | |sy my ey]; try done;
    cbn [SFadd]; try (by (split; [by repeat case_match|]); repeat case_match; cbn [ticks] in *; lia).
  cbn [is_number] in Hx, Hy. pose proof (aligned_ticks sx mx ex (Z.min ex ey) ltac:(lia)) as H1.
  pose proof (aligned_ticks sy my ey (Z.min ex ey) ltac:(lia)) as H2. rewrite <-H1, <-H2, <-Z.mul_add_distr_r in *.
  apply normalize_near; [done|lia|]. by rewrite Z.abs_mul, (Z.abs_eq (2 ^ _)) in Hb by (apply Z.lt_le_incl, pow2_pos; lia).
Qed.

Lemma neg_ticks x : ticks (f_neg x) = - ticks x.
Proof. destruct x as [| | |[] m e]; cbn; lia. Qed.

Lemma neg_number x : is_number x → is_number (f_neg x).
Proof. by destruct x. Qed.

Lemma abs_ticks x : ticks (f_abs x) = Z.abs (ticks x).
Proof.
  destruct x as [| | |s m e]; try done. cbn [f_abs SFabs ticks]. unfold f_abs. cbn [SFabs ticks].
  rewrite Z.abs_mul, (Z.abs_eq (2 ^ _)) by (apply Z.pow_nonneg; lia). by destruct s.
Qed.

Lemma abs_number x : is_number x → is_number (f_abs x).
Proof. by destruct x. Qed.

Lemma sub_near x y N :
  -900 <= N <= 900 → is_number x → is_number y → Z.abs (ticks x - ticks y) <= 2 ^ (N + 1074) →
  is_number (f_sub x y) ∧ Z.abs (ticks (f_sub x y) - (ticks x - ticks y)) <= last_bits N.
Proof.
  intros HN Hx Hy Hb. pose proof (last_bits_pos N ltac:(lia)) as Hp. unfold f_sub.
  destruct x as [sx| | |sx mx ex], y as [sy| | |sy my ey]; try done;
    cbn [SFsub]; try (by (split; [by repeat case_match|]); repeat case_match; cbn [ticks] in *; lia).
  { split; [done|]. change (S754_finite (negb sy) my ey) with (f_neg (S754_finite sy my ey)). rewrite neg_ticks.
    cbn [ticks]. lia. }
  cbn [is_number] in Hx, Hy. pose proof (aligned_ticks sx mx ex (Z.min ex ey) ltac:(lia)) as H1.
  pose proof (aligned_ticks sy my ey (Z.min ex ey) ltac:(lia)) as H2. rewrite <-H1, <-H2, <-Z.mul_sub_distr_r in *.
  apply normalize_near; [done|lia|]. by rewrite Z.abs_mul, (Z.abs_eq (2 ^ _)) in Hb by (apply Z.lt_le_incl, pow2_pos; lia).
Qed.

Lemma num_ticks x : is_number x → ∃ m e, num_of_float x = NFin m e ∧ -1074 <= e ∧ ticks x = scaled (-1074) m e.
Proof.
  unfold scaled. destruct x as [s| | |s m e]; try done; intros Hx; [by exists 0, 0|].
  eexists _, _. split; [reflexivity|]. split; [exact Hx|]. cbn [ticks]. replace (e - -1074) with (e + 1074) by lia.
  by destruct s.
Qed.

Lemma lt_ticks x y : is_number x → is_number y → f_lt x y = (ticks x <? ticks y).
Proof.
  intros (m&e&Hm&He&->)%num_ticks (m'&e'&Hm'&He'&->)%num_ticks. unfold f_lt.
  rewrite Hm, Hm', (num_cmp_scaled (-1074)) by done. unfold cmp_lt, cmp_is, Z.ltb. by destruct (_ ?= _).
Qed.

Lemma le_ticks x y : is_number x → is_number y → f_le x y = (ticks x <=? ticks y).
Proof.
  intros (m&e&Hm&He&->)%num_ticks (m'&e'&Hm'&He'&->)%num_ticks. unfold f_le, f_ge.
  rewrite Hm, Hm', (num_cmp_scaled (-1074)) by done. unfold cmp_le, cmp_is, Z.leb. by destruct (_ ?= _).
Qed.

(** A quotient by ten thousand: the long division stops below 2^-26, and what is left
    is rounded. *)
Lemma div_10000_near x :
  is_number x → Z.abs (ticks x) <= 2 ^ (40 + 1074) →
  let y := f_div x (f_of_Z 10000) in
  is_number y ∧ Z.abs (10000 * ticks y - ticks x) <= 10000 * (2 ^ (-26 + 1074) + last_bits 30).
Proof.
  intros Hx Hb. cbv zeta. change (f_of_Z 10000) with (S754_finite false 5497558138880000 (-39)).
  pose proof (last_bits_pos 30 ltac:(lia)) as Hp. pose proof (pow2_pos (-26 + 1074) ltac:(lia)) as Hq.
  destruct x as [s| | |s m e]; [split; [done|]; cbn [f_div SFdiv ticks]; lia|done|done|].
  assert (ticks (S754_finite s m e) = cond_Zopp s (Zpos m * 2 ^ (e + 1074))) as Ht
    by (destruct s; cbn [ticks cond_Zopp]; lia).
  rewrite Ht in *. cbn [is_number] in Hx.
  assert (Zpos m * 2 ^ (e + 1074) <= 2 ^ (40 + 1074)) as Hm
    by (destruct s; cbn [cond_Zopp] in Hb; lia).
  assert (e <= 40) as He.
  { apply Z.nlt_ge. intros Hlt. pose proof (Z.pow_lt_mono_r 2 (40 + 1074) (e + 1074) ltac:(lia) ltac:(lia) ltac:(lia)). nia. }
  pose proof (ticks_digits (Zpos m) e 40 ltac:(lia) ltac:(lia) Hm) as Hd. cbn [Zdigits2] in Hd.
  unfold f_div, SFdiv, SFdiv_core_binary. cbn [Zdigits2].
  change (Zpos (digits2_pos 5497558138880000)) with 53. set (d := Zpos (digits2_pos m)) in *.
  set (k := Z.min (fexp 53 1024 (d + e - (53 + -39))) (e - -39)).
  assert (-1074 <= k <= -26 ∧ k <= e + 39) as [Hk Hke] by (unfold k, fexp, emin; lia).
  assert (match e - -39 - k with Zpos _ => Z.shiftl (Zpos m) (e - -39 - k) | Z0 => Zpos m | Zneg _ => 0 end
          = Zpos m * 2 ^ (e + 39 - k)) as ->.
  { replace (e - -39 - k) with (e + 39 - k) by lia. destruct (e + 39 - k) eqn:E; [cbn; lia|by rewrite Z.shiftl_mul_pow2|lia]. }
  pose proof (Z.div_eucl_eq (Zpos m * 2 ^ (e + 39 - k)) 5497558138880000 ltac:(lia)) as Heq.
  pose proof (Z.mod_pos_bound (Zpos m * 2 ^ (e + 39 - k)) 5497558138880000 ltac:(lia)) as Hr. unfold Z.modulo in Hr.
  pose proof (Z.div_pos (Zpos m * 2 ^ (e + 39 - k)) 5497558138880000) as Hq0. unfold Z.div in Hq0.
  destruct (Z.div_eucl _ _) as [q r].
  assert (0 <= q) as Hq1 by (apply Hq0; [|lia]; apply Z.mul_nonneg_nonneg; [lia|apply Z.pow_nonneg; lia]).
  set (T := Zpos m * 2 ^ (e + 1074)) in *. set (K := 2 ^ (k + 1074)).
  assert (0 < K <= 2 ^ (-26 + 1074)) as [HK0 HK]
    by (unfold K; split; [apply pow2_pos; lia|apply Z.pow_le_mono_r; lia]).
  assert (549755813888 * T = 549755813888 * (10000 * (q * K)) + r * K) as Hdiv.
  { transitivity (Zpos m * 2 ^ (e + 39 - k) * K); [|rewrite Heq; lia]. unfold T, K.
    rewrite <-Z.mul_assoc, <-Z.pow_add_r by lia. change 549755813888 with (2 ^ 39).
    replace (e + 39 - k + (k + 1074)) with (39 + (e + 1074)) by lia. rewrite (Z.pow_add_r 2 39) by lia. lia. }
  assert (0 <= T - 10000 * (q * K) < 10000 * K) as Hrem by nia.
  assert (2 ^ (40 + 1074) = 1024 * 2 ^ (30 + 1074)) as H40 by (by change (40 + 1074) with (10 + (30 + 1074)); rewrite (Z.pow_add_r 2 10) by lia).
  assert (0 <= q * K <= 2 ^ (30 + 1074)) as Hb30 by (pose proof (pow2_pos (30 + 1074) ltac:(lia)); nia).
  destruct (round_aux_near (xorb s false) q k (new_location 5497558138880000 r) 30) as [Hn He2]; [lia..|].
  split; [exact Hn|]. fold (last_bits 30) K in He2. rewrite xorb_false_r in *. set (y := binary_round_aux _ _ _ _ _ _) in *.
  destruct s; cbn [cond_Zopp] in *; lia.
Qed.
