(* ===== verification/Regex.v ===== *)
(** * Regex: the regular expressions of the safety filters

    The part of Python's [re] that the patterns under [app/safety] use, on the
    code points of a [str].  [ends] is the backtracking matcher: the ends of all
    matches from a position, in the order in which backtracking finds them, so
    that the match [re] reports is the first.  [finditer] scans as [re] does,
    and [Match] is the meaning of an expression as a relation. *)

From Stdlib Require Import NArith Ascii Lia.
From stdpp Require Import base tactics list strings sorting.
From S2P Require Import Prelude PyStr Dict PyVal.

#[local] Open Scope nat_scope.

(** A Python [str] by its code points *)
Abbreviation text := (list N).

(** The code points of an ASCII string *)
Definition text_of (s : string) : text := map N_of_ascii (str_chars s).

(** A [str] kept as UTF-8 and its code points *)
Definition code_point (c : string) : N :=
  match map N_of_ascii (str_chars c) with
  | [a] => a
  | [a; b] => (a - 192) * 64 + (b - 128)
  | [a; b; d] => ((a - 224) * 64 + (b - 128)) * 64 + (d - 128)
  | [a; b; d; e] => (((a - 240) * 64 + (b - 128)) * 64 + (d - 128)) * 64 + (e - 128)
  | _ => 65533
  end%N.

Definition utf8 (n : N) : string :=
  String.string_of_list_ascii (map ascii_of_N
    (if n <? 128 then [n]
     else if n <? 2048 then [192 + n / 64; 128 + n mod 64]
     else if n <? 65536 then [224 + n / 4096; 128 + n / 64 mod 64; 128 + n mod 64]
     else [240 + n / 262144; 128 + n / 4096 mod 64; 128 + n / 64 mod 64; 128 + n mod 64])%N).

Definition str_text (s : string) : text := map code_point (py_chars s).
Definition text_str (t : text) : string := str_join "" (map utf8 t).

Inductive regex :=
  | Eps
  | Class (p : N → bool)
  | Cat (r1 r2 : regex)
  | Alt (r1 r2 : regex)
  | Star (r : regex)
  | WordEdge
  | LineStart.

(** ** Derived forms *)

Definition Opt (r : regex) : regex := Alt r Eps.

Definition Plus (r : regex) : regex := Cat r (Star r).

Fixpoint Times (n : nat) (r : regex) : regex :=
  match n with
  | 0 => Eps
  | S n => Cat r (Times n r)
  end.

(** [r{n,}] *)
Definition AtLeast (n : nat) (r : regex) : regex := Cat (Times n r) (Star r).

Definition cats (rs : list regex) : regex := foldr Cat Eps rs.

(** [r1|...|rn] *)
Fixpoint alts (rs : list regex) : regex :=
  match rs with
  | [] => Class (λ _, false)
  | [r] => r
  | r :: rs => Alt r (alts rs)
  end.

Definition one_of (s : string) (c : N) : bool := existsb (N.eqb c) (text_of s).

Definition in_range (a b : ascii) (c : N) : bool := (N_of_ascii a <=? c)%N && (c <=? N_of_ascii b)%N.

Definition lit (s : string) : regex := cats (map (λ c, Class (N.eqb c)) (text_of s)).

(** A lower-case ASCII letter under IGNORECASE: its two cases, and the code
    points whose lower case or equivalent it is *)
Definition same_letter (c x : N) : bool :=
  (x =? c)%N ||
  in_range "a" "z" c && ((x =? c - 32)%N ||
    (c =? 105)%N && ((x =? 304)%N || (x =? 305)%N) || (c =? 107)%N && (x =? 8490)%N ||
    (c =? 115)%N && (x =? 383)%N).

Definition lit_i (s : string) : regex := cats (map (λ c, Class (same_letter c)) (text_of s)).

(** [\s]: [str.isspace] *)
Definition is_blank (c : N) : bool :=
  (9 <=? c)%N && (c <=? 13)%N || (28 <=? c)%N && (c <=? 32)%N ||
  existsb (N.eqb c) [133; 160; 5760; 8232; 8233; 8239; 8287; 12288]%N || (8192 <=? c)%N && (c <=? 8202)%N.

Definition blanks : regex := Star (Class is_blank).

(** ** Matching *)

Section matching.
(** [\w] *)
Context (is_word : N → bool) (s : text).

Definition word_at (i : nat) : bool := if s !! i is Some c then is_word c else false.

Definition word_edge (i : nat) : bool :=
  xorb (match i with 0 => false | S j => word_at j end) (word_at i).

Definition line_start (i : nat) : bool :=
  match i with
  | 0 => true
  | S j => bool_decide (s !! j = Some 10%N)
  end.

(** The repetitions of a body from [i], longest first; a round that consumes
    nothing is the last *)
Fixpoint star_ends (body : nat → list nat) (fuel : nat) (i : nat) : list nat :=
  match fuel with
  | 0 => [i]
  | S fuel => flat_map (λ j, if i <? j then star_ends body fuel j else [j]) (body i) ++ [i]
  end.

Fixpoint ends (r : regex) (i : nat) : list nat :=
  match r with
  | Eps => [i]
  | Class p => match s !! i with Some c => if p c then [S i] else [] | None => [] end
  | Cat r1 r2 => flat_map (ends r2) (ends r1 i)
  | Alt r1 r2 => ends r1 i ++ ends r2 i
  | Star r => star_ends (ends r) (length s - i) i
  | WordEdge => if word_edge i then [i] else []
  | LineStart => if line_start i then [i] else []
  end.

(** [pattern.search(s) is not None] *)
Definition search (r : regex) : bool :=
  existsb (λ i, negb (bool_decide (ends r i = []))) (seq 0 (S (length s))).

(** [pattern.finditer(s)]: after an empty match at [i] the next match from [i]
    has to consume something. *)
Fixpoint find_from (r : regex) (fuel i : nat) (advance : bool) : list (nat * nat) :=
  match fuel with
  | 0 => []
  | S fuel =>
      if length s <? i then [] else
      match filter (λ j, advance = false ∨ i < j) (ends r i) with
      | j :: _ => (i, j) :: find_from r fuel j (j =? i)
      | [] => find_from r fuel (S i) false
      end
  end.

Definition finditer (r : regex) : list (nat * nat) := find_from r (2 * S (length s)) 0 false.

(** ** Meaning *)

Inductive Match : regex → nat → nat → Prop :=
  | MEps i : Match Eps i i
  | MClass p i c : s !! i = Some c → p c = true → Match (Class p) i (S i)
  | MCat r1 r2 i j k : Match r1 i j → Match r2 j k → Match (Cat r1 r2) i k
  | MAltL r1 r2 i j : Match r1 i j → Match (Alt r1 r2) i j
  | MAltR r1 r2 i j : Match r2 i j → Match (Alt r1 r2) i j
  | MStar0 r i : Match (Star r) i i
  | MStar r i j k : Match r i j → Match (Star r) j k → Match (Star r) i k
  | MWordEdge i : word_edge i = true → Match WordEdge i i
  | MLineStart i : line_start i = true → Match LineStart i i.

Lemma Match_bounds r i j : Match r i j → i ≤ j ∧ (i ≤ length s → j ≤ length s).
Proof.
  induction 1 as [|? i c Hc _| | | | | | |]; try lia.
  apply lookup_lt_Some in Hc. lia.
Qed.

Section star.
Context (r : regex) (body : nat → list nat).
Context (body_spec : ∀ i j, i ≤ length s → j ∈ body i ↔ Match r i j).

Lemma star_sound fuel i j : i ≤ length s → j ∈ star_ends body fuel i → Match (Star r) i j.
Proof using body_spec.
  revert i. induction fuel as [|fuel IH]; intros i Hi; cbn [star_ends].
  { intros ->%list_elem_of_singleton. constructor. }
  intros [(k&Hk&Hj)%elem_of_flat_map| ->%list_elem_of_singleton]%elem_of_app; [|constructor].
  apply body_spec in Hk as Hm; [|done]. pose proof (Match_bounds _ _ _ Hm) as [_ Hb].
  eapply MStar; [done|]. destruct (i <? k); [apply IH; auto|].
  apply list_elem_of_singleton in Hj as ->. constructor.
Qed.

Lemma star_complete q i j :
  Match q i j → q = Star r → ∀ fuel, i ≤ length s → length s - i ≤ fuel → j ∈ star_ends body fuel i.
Proof using body_spec.
  induction 1 as [| | | | |q i|q i j k Hb _ Hs IH| |]; intros [= ->] fuel Hi Hf.
  { destruct fuel; cbn [star_ends]; [by left|]. apply elem_of_app. right. by left. }
  pose proof (Match_bounds _ _ _ Hb) as [Hij Hjn]. pose proof (Match_bounds _ _ _ Hs) as [Hjk Hkn].
  destruct (decide (i = j)) as [<-|Hne]; [by apply IH|].
  destruct fuel as [|fuel]; [specialize (Hjn Hi); lia|]. cbn [star_ends]. apply elem_of_app. left.
  apply elem_of_flat_map. exists j. split; [by apply body_spec|].
  replace (i <? j) with true by (symmetry; apply Nat.ltb_lt; lia). apply IH; [done|auto|lia].
Qed.
End star.

Lemma ends_Match r i j : i ≤ length s → j ∈ ends r i ↔ Match r i j.
Proof.
  revert i j. induction r as [|p|r1 IH1 r2 IH2|r1 IH1 r2 IH2|r IH| |]; intros i j Hi; cbn [ends].
  - rewrite list_elem_of_singleton. split; [intros ->; constructor|]. by inversion 1.
  - split.
    + destruct (s !! i) as [c|] eqn:Hc; [|by intros ?%elem_of_nil]. destruct (p c) eqn:Hp; [|by intros ?%elem_of_nil].
      intros ->%list_elem_of_singleton. by econstructor.
    + inversion 1 as [|? ? c Hc Hp| | | | | | |]; subst. rewrite Hc, Hp. by left.
  - rewrite elem_of_flat_map. split.
    + intros (k&Hk%IH1&Hj); [|done]. pose proof (Match_bounds _ _ _ Hk) as [_ Hb].
      apply IH2 in Hj; [|auto]. by econstructor.
    + inversion 1 as [| |? ? ? k ? H1 H2| | | | | |]; subst. pose proof (Match_bounds _ _ _ H1) as [_ Hb].
      exists k. split; [by apply IH1|apply IH2; auto].
  - rewrite elem_of_app, IH1, IH2 by done. split; [intros [H|H]; by constructor|].
    inversion 1; subst; auto.
  - split; [by apply star_sound|]. intros Hm. by eapply star_complete; eauto.
  - destruct (word_edge i) eqn:E; split; try (by intros ?%elem_of_nil); try (inversion 1; subst; congruence).
    + intros ->%list_elem_of_singleton. by constructor.
    + inversion 1; subst. by left.
  - destruct (line_start i) eqn:E; split; try (by intros ?%elem_of_nil); try (inversion 1; subst; congruence).
    + intros ->%list_elem_of_singleton. by constructor.
    + inversion 1; subst. by left.
Qed.

Lemma search_Match r : search r = true ↔ ∃ i j, i ≤ length s ∧ Match r i j.
Proof.
  unfold search. rewrite existsb_exists. split.
  - intros (i&Hi%in_seq&He%negb_true_iff). apply bool_decide_eq_false in He.
    destruct (ends r i) as [|j l] eqn:E; [done|]. exists i, j. split; [lia|]. apply ends_Match; [lia|]. rewrite E. by left.
  - intros (i&j&Hi&Hm%ends_Match); [|done]. exists i. split; [apply in_seq; lia|].
    apply negb_true_iff, bool_decide_eq_false. intros E. rewrite E in Hm. by apply elem_of_nil in Hm.
Qed.

(** ** The scan *)

Definition before (a b : nat * nat) : Prop := a.2 ≤ b.1.

Definition in_span (i : nat) (a : nat * nat) : Prop := a.1 ≤ i < a.2.

Lemma find_from_spec r fuel i (advance : bool) :
  i ≤ S (length s) → 2 * (S (length s) - i) - (if advance then 1 else 0) ≤ fuel →
  (∀ a, a ∈ find_from r fuel i advance → i ≤ a.1 ∧ a.2 ≤ length s ∧ Match r a.1 a.2) ∧
  StronglySorted before (find_from r fuel i advance) ∧
  (∀ k j, i ≤ k → k < j → k ≤ length s → Match r k j → Exists (in_span k) (find_from r fuel i advance)).
Proof.
  revert i advance. induction fuel as [|fuel IH]; intros i advance Hi Hf.
  { cbn. split_and!; [by intros a ?%elem_of_nil|constructor|]. destruct advance; intros; lia. }
  cbn [find_from]. destruct (Nat.ltb_spec (length s) i) as [Hlt|Hle].
  { split_and!; [by intros a ?%elem_of_nil|constructor|]. intros; lia. }
  destruct (filter (λ j, advance = false ∨ i < j) (ends r i)) as [|j l] eqn:E.
  - destruct (IH (S i) false) as (H1&H2&H3); [lia|destruct advance; lia|].
    split_and!; [|done|].
    { intros a Ha. destruct (H1 a Ha) as (?&?&?). split_and!; [lia|done..]. }
    intros k j Hk Hj Hn Hm. destruct (decide (k = i)) as [->|Hne]; [|apply (H3 k j); [lia|done..]].
    exfalso. apply (elem_of_nil j). rewrite <-E. apply list_elem_of_filter.
    split; [by right|by apply ends_Match].
  - assert (j ∈ filter (λ j, advance = false ∨ i < j) (ends r i)) as [Hadv Hj]%list_elem_of_filter by (rewrite E; by left).
    apply ends_Match in Hj; [|done].
    pose proof (Match_bounds _ _ _ Hj) as [Hij Hjn]. specialize (Hjn Hle).
    destruct (IH j (j =? i)) as (H1&H2&H3); [lia|destruct (Nat.eqb_spec j i), advance; lia|].
    split_and!.
    + intros a [->|Ha]%elem_of_cons; [done|]. destruct (H1 a Ha) as (?&?&?). split_and!; [lia|done..].
    + constructor; [done|]. apply Forall_forall. intros a Ha. unfold before. cbn. by apply H1.
    + intros k j' Hk Hj' Hn Hm. destruct (decide (j ≤ k)) as [Hjk|Hjk].
      * right. by apply (H3 k j').
      * left. unfold in_span. cbn. lia.
Qed.

(** What a scan finds: matches, in order and disjoint, and one on every position
    at which the expression matches something. *)
Lemma finditer_spec r :
  (∀ a, a ∈ finditer r → a.2 ≤ length s ∧ Match r a.1 a.2) ∧
  StronglySorted before (finditer r) ∧
  (∀ i j, i < j → i ≤ length s → Match r i j → Exists (in_span i) (finditer r)).
Proof.
  destruct (find_from_spec r (2 * S (length s)) 0 false) as (H1&H2&H3); [lia..|].
  split_and!; [intros a Ha; by apply H1|done|]. intros i j Hij Hn Hm. apply (H3 i j); [lia|done..].
Qed.

(** *** Expressions that consume *)

Fixpoint consumes (r : regex) : bool :=
  match r with
  | Class _ => true
  | Cat r1 r2 => consumes r1 || consumes r2
  | Alt r1 r2 => consumes r1 && consumes r2
  | _ => false
  end.

Lemma consumes_Match r i j : Match r i j → consumes r = true → i < j.
Proof.
  induction 1 as [| |r1 r2 i j k H1 IH1 H2 IH2|? ? ? ? H1 IH|? ? ? ? H1 IH| | | |]; cbn; intros Hc; try done; try lia.
  - pose proof (Match_bounds _ _ _ H1). pose proof (Match_bounds _ _ _ H2).
    apply orb_true_iff in Hc as [Hc|Hc]; [specialize (IH1 Hc)|specialize (IH2 Hc)]; lia.
  - apply andb_true_iff in Hc as [Hc _]. auto.
  - apply andb_true_iff in Hc as [_ Hc]. auto.
Qed.
End matching.
