(* ===== verification/ContentFilter.v ===== *)
(** * ContentFilter: PII, harmful patterns and content classification

    Models [app/safety/content_filter.py]: the regular-expression layer, the
    similarity of a text to the seed phrases of each category, the verdict that
    combines them, the optional ruling of a language model, and the redaction of
    PII.  A text is its list of code points; [\d] and [\w] range over the
    Unicode tables of the interpreter, which are parameters, as are the
    embedding model and the answers of the language model.  A flag, a string in
    the code, is a value that says what it reports. *)

From Stdlib Require Import NArith ZArith Ascii SpecFloat Lia.
From stdpp Require Import base tactics list strings sorting.
From S2P Require Import Prelude PyStr Dict PyVal PyFloat Regex.

#[local] Open Scope nat_scope.

(** ** Patterns *)

Section patterns.
Context (is_decimal is_alnum : N → bool).

Definition is_word (c : N) : bool := is_alnum c || (c =? 95)%N.

Definition digit : regex := Class is_decimal.

Definition ascii_letter (c : N) : bool := in_range "a" "z" c || in_range "A" "Z" c.
Definition ascii_digit (c : N) : bool := in_range "0" "9" c.

Definition _SSN_RE : regex :=
  cats [WordEdge; Times 3 digit; lit "-"; Times 2 digit; lit "-"; Times 4 digit; WordEdge].

Definition _CREDIT_CARD_RE : regex :=
  let sep := Opt (Class (λ c, is_blank c || one_of "-" c)) in
  cats [WordEdge; Times 4 digit; sep; Times 4 digit; sep; Times 4 digit; sep; Times 4 digit; WordEdge].

Definition _EMAIL_RE : regex :=
  cats [WordEdge; Plus (Class (λ c, ascii_letter c || ascii_digit c || one_of "._%+-" c)); lit "@";
        Plus (Class (λ c, ascii_letter c || ascii_digit c || one_of ".-" c)); lit ".";
        AtLeast 2 (Class ascii_letter); WordEdge].

Definition _PHONE_RE : regex :=
  let sep := Opt (Class (λ c, is_blank c || one_of "-." c)) in
  cats [WordEdge; Opt (cats [Opt (lit "+"); lit "1"; sep]); Opt (lit "("); Times 3 digit; Opt (lit ")"); sep;
        Times 3 digit; sep; Times 4 digit; WordEdge].

(** [25[0-5]|2[0-4]\d|[01]?\d\d?] *)
Definition octet : regex :=
  alts [cats [lit "25"; Class (in_range "0" "5")]; cats [lit "2"; Class (in_range "0" "4"); digit];
        cats [Opt (Class (one_of "01")); digit; Opt digit]].

Definition _IP_ADDRESS_RE : regex :=
  cats [WordEdge; Times 3 (cats [octet; lit "."]); octet; WordEdge].

Definition _PII_PATTERNS : list (string * regex * string) := [
  ("ssn", _SSN_RE, "[REDACTED_SSN]");
  ("credit_card", _CREDIT_CARD_RE, "[REDACTED_CC]");
  ("email", _EMAIL_RE, "[REDACTED_EMAIL]");
  ("phone", _PHONE_RE, "[REDACTED_PHONE]");
  ("ip_address", _IP_ADDRESS_RE, "[REDACTED_IP]")].

Definition word_chars : regex := Plus (Class is_word).

Definition some_blanks : regex := Plus (Class is_blank).

Definition _HARMFUL_PATTERNS : list (string * regex) := [
  ("sql_injection",
    alts [cats [lit_i "union"; some_blanks; lit_i "select"]; cats [lit_i "drop"; some_blanks; lit_i "table"];
          cats [lit_i "insert"; some_blanks; lit_i "into"]; cats [lit_i "delete"; some_blanks; lit_i "from"];
          cats [lit_i "update"; some_blanks; word_chars; some_blanks; lit_i "set"];
          cats [lit ";"; blanks; lit "--"];
          cats [lit "'"; blanks; lit_i "or"; some_blanks; lit "'1'"; blanks; lit "="; blanks; lit "'1"]]);
  ("xss_attempt",
    alts [cats [lit "<"; blanks; lit_i "script"; Star (Class (λ c, negb (one_of ">" c))); lit ">"];
          cats [lit_i "javascript"; blanks; lit ":"];
          cats [lit_i "on"; alts [lit_i "error"; lit_i "load"; lit_i "click"]; blanks; lit "="]]);
  ("path_traversal",
    alts [AtLeast 2 (lit "../"); AtLeast 2 (cats [lit "..%2"; Class (one_of "fF")])]);
  ("command_injection",
    alts [cats [lit ";"; blanks;
                alts (map lit ["rm"; "cat"; "wget"; "curl"; "bash"; "sh"; "python"; "perl"; "nc"]);
                Class is_blank];
          cats [lit "|"; blanks; alts [lit "bash"; lit "sh"]; WordEdge]])].

(** ** The regular-expression layer *)

Record PIIMatch := { pii_type : string; location : nat * nat; redacted : string }.

Definition _detect_pii (content : text) : list PIIMatch :=
  flat_map (λ '(ty, re, mark),
    map (λ loc, {| pii_type := ty; location := loc; redacted := mark |}) (finditer is_word content re)) _PII_PATTERNS.

Definition _detect_harmful_patterns (content : text) : list string :=
  map fst (filter (λ p, search is_word content p.2 = true) _HARMFUL_PATTERNS).

(** [result[:start] + match.redacted + result[end:]] *)
Definition replace_span (result : text) (m : PIIMatch) : text :=
  let '(start, stop) := location m in take start result ++ text_of (redacted m) ++ drop stop result.

Definition later_start (a b : PIIMatch) : bool := (location b).1 <? (location a).1.

Definition redact_pii (content : text) : text :=
  match _detect_pii content with
  | [] => content
  | matches => foldl replace_span content (sort_by later_start matches)
  end.
End patterns.

(** ** Similarity to the seed phrases *)

Definition _CATEGORY_SEEDS : list (string * list string) := [
  ("harmful", ["how to create a weapon"; "instructions for making explosives"; "detailed guide to harm someone";
               "bypass security and hack into systems"; "generate malware or virus code"]);
  ("pii", ["my social security number is"; "here is my credit card number"; "personal identification information";
           "home address and date of birth"; "passport number and bank account details"]);
  ("sensitive", ["confidential company financial data"; "internal trade secrets"; "private medical records";
                 "classified government information"; "proprietary algorithm details"]);
  ("safe", ["hello how are you today"; "please summarise this document"; "what is the weather forecast";
            "explain quantum computing simply"; "write a poem about nature"])].

(** [n] hundredths *)
Definition f_pct (n : Z) : spec_float := f_div (f_of_Z n) (f_of_Z 100).

Definition _DEFAULT_THRESHOLDS : list (string * spec_float) :=
  [("harmful", f_pct 65); ("pii", f_pct 60); ("sensitive", f_pct 55); ("safe", f_pct 70)].

Definition _MEDIUM_CONFIDENCE_LOW : spec_float := f_pct 40.
Definition _MEDIUM_CONFIDENCE_HIGH : spec_float := f_pct 75.

Inductive filter_exn := ZeroDivisionError | RoundTypeError.

Definition _cosine_similarity (a b : list spec_float) : res filter_exn spec_float :=
  let dot := f_sum (zip_with f_mul a b) in
  let mag_a := f_sqrt (f_sum (zip_with f_mul a a)) in
  let mag_b := f_sqrt (f_sum (zip_with f_mul b b)) in
  if f_is_zero mag_a || f_is_zero mag_b then Ok (f_of_Z 0)
  else if f_is_zero (f_mul mag_a mag_b) then Err ZeroDivisionError
  else Ok (f_div dot (f_mul mag_a mag_b)).

Fixpoint max_similarity (content_embedding : list spec_float) (max_sim : spec_float)
    (embeddings : list (list spec_float)) : res filter_exn spec_float :=
  match embeddings with
  | [] => Ok max_sim
  | seed_emb :: embeddings =>
      sim <~ _cosine_similarity content_embedding seed_emb;
      max_similarity content_embedding (if f_lt max_sim sim then sim else max_sim) embeddings
  end.

Fixpoint _compute_similarities (content_embedding : list spec_float)
    (category_embeddings : list (string * list (list spec_float))) : res filter_exn (list (string * spec_float)) :=
  match category_embeddings with
  | [] => Ok []
  | (category, embeddings) :: rest =>
      score <~ match embeddings with
               | [] => Ok (f_of_Z 0)
               | _ => res_map (f_round 4) (max_similarity content_embedding (f_of_Z 0) embeddings)
               end;
      scores <~ _compute_similarities content_embedding rest;
      Ok ((category, score) :: scores)
  end.

(** ** The pipeline *)

Inductive flag :=
  | FRegex (label : string)
  | FPii (count : nat)
  | FNlp (category : string) (score : spec_float)
  | FLlm (label : pyval).

Record ContentAnalysis := {
  is_safe : pyval;
  categories : list (string * spec_float);
  pii_detected : list PIIMatch;
  flags : list flag;
  confidence : pyval;
}.

(** [round(v, 4)] *)
Definition py_round4 (v : pyval) : res filter_exn pyval :=
  match v with
  | VFloat f => Ok (VFloat (f_round 4 f))
  | VInt z => Ok (VInt z)
  | VBool b => Ok (VInt (if b then 1 else 0))
  | _ => Err RoundTypeError
  end.

Section pipeline.
Context (is_decimal is_alnum : N → bool).

(** The embedding service: whether its model is loaded, and its answers, [None]
    where it raises *)
Context (is_loaded : bool) (embed : text → option (list spec_float))
        (embed_batch : list string → option (list (list spec_float))).

(** [json.loads] of what the language model answers; [None] where the router or
    the provider raises or the answer is not JSON *)
Context (llm_answer : text → list flag → option pyval).

Definition all_zero : list (string * spec_float) := map (λ p, (p.1, f_of_Z 0)) _CATEGORY_SEEDS.

Definition _compute_category_embeddings : list (string * list (list spec_float)) :=
  map (λ p, (p.1, default [] (embed_batch p.2))) _CATEGORY_SEEDS.

(** The instance caches the embeddings of the seed phrases. *)
Abbreviation cache := (option (list (string * list (list spec_float)))).

Definition _classify_content (cached : cache) (content : text)
    : cache * res filter_exn (list (string * spec_float)) :=
  if negb is_loaded then (cached, Ok all_zero)
  else
    let computed := default _compute_category_embeddings cached in
    (Some computed,
     match embed content with
     | None => Ok all_zero
     | Some content_embedding => _compute_similarities content_embedding computed
     end).

Definition _llm_verify (content : text) (fs : list flag) : option (list (string * pyval)) :=
  match llm_answer content fs with
  | Some (VDict result) => if dict_get "is_safe" result is Some _ then Some result else None
  | _ => None
  end.

Definition above_threshold (thresholds : list (string * spec_float)) (p : string * spec_float) : bool :=
  negb (String.eqb p.1 "safe") && f_ge p.2 (default (f_pct 60) (dict_get p.1 thresholds)).

(** [max(scores)], 0.0 of none *)
Definition f_max_list (l : list spec_float) : spec_float :=
  match l with
  | [] => f_of_Z 0
  | x :: l => foldl f_max x l
  end.

(** The verdict of the first two layers *)
Definition combine_signals (thresholds : list (string * spec_float)) (pii : list PIIMatch) (harmful : list string)
    (scores : list (string * spec_float)) : bool * list flag * spec_float :=
  let above := filter (λ p, above_threshold thresholds p = true) scores in
  let fs := map FRegex harmful ++ (match pii with [] => [] | _ => [FPii (length pii)] end) ++
            map (λ p, FNlp p.1 p.2) above in
  let safe := bool_decide (above = []) && bool_decide (harmful = []) &&
              match pii with [] => true | _ => false end in
  let max_unsafe := f_max_list (map snd (filter (λ p, p.1 ≠ "safe") scores)) in
  let safe_score := default (f_of_Z 0) (dict_get "safe" scores) in
  (safe, fs, f_max float_half (if safe then safe_score else max_unsafe)).

Definition medium (conf : spec_float) : bool :=
  f_le _MEDIUM_CONFIDENCE_LOW conf && f_le conf _MEDIUM_CONFIDENCE_HIGH.

(** The ruling of the language model replaces verdict and confidence. *)
Definition apply_ruling (ruling : option (list (string * pyval))) (verdict : bool * list flag * spec_float)
    : pyval * list flag * pyval :=
  let '(safe, fs, conf) := verdict in
  match ruling with
  | None => (VBool safe, fs, VFloat conf)
  | Some result =>
      (default (VBool safe) (dict_get "is_safe" result),
       (let label := default VNone (dict_get "flag" result) in
        if py_truth label then fs ++ [FLlm label] else fs),
       default (VFloat conf) (dict_get "confidence" result))
  end.

Definition is_blank_text (content : text) : bool := forallb is_blank content.

Definition analyze (thresholds : list (string * spec_float)) (enable_llm_verification : bool) (cached : cache)
    (content : text) : cache * res filter_exn ContentAnalysis :=
  if is_blank_text content then
    (cached, Ok {| is_safe := VBool true; categories := []; pii_detected := []; flags := [];
                   confidence := VFloat (f_of_Z 1) |})
  else
    let pii := _detect_pii is_decimal is_alnum content in
    let harmful := _detect_harmful_patterns is_alnum content in
    let '(cached, scores) := _classify_content cached content in
    (cached,
     scores <~ scores;
     let verdict := combine_signals thresholds pii harmful scores in
     let '(_, fs, conf) := verdict in
     let ruling := if enable_llm_verification && negb (bool_decide (length fs = 0)) && medium conf
                   then _llm_verify content fs else None in
     let '(safe, fs, conf) := apply_ruling ruling verdict in
     conf <~ py_round4 conf;
     Ok {| is_safe := safe; categories := scores; pii_detected := pii; flags := fs; confidence := conf |}).
End pipeline.

(** [{**_DEFAULT_THRESHOLDS, **(thresholds or {})}] *)
Definition with_defaults (thresholds : list (string * spec_float)) : list (string * spec_float) :=
  foldl (λ d p, dict_set p.1 p.2 d) _DEFAULT_THRESHOLDS thresholds.

(** ** Redaction *)

(** The text with the spans of [ms], in ascending order, replaced by their marks:
    what lies between the spans is copied, what lies in a span is not *)
Fixpoint splice (pos : nat) (ms : list PIIMatch) (content : text) : text :=
  match ms with
  | [] => drop pos content
  | m :: ms =>
      take ((location m).1 - pos) (drop pos content) ++ text_of (redacted m) ++ splice (location m).2 ms content
  end.

Definition ordered (a b : PIIMatch) : Prop := before (location a) (location b).

Definition disjoint (a b : PIIMatch) : bool :=
  ((location a).2 <=? (location b).1) || ((location b).2 <=? (location a).1).

Fixpoint pairwise_disjoint (ms : list PIIMatch) : bool :=
  match ms with
  | [] => true
  | m :: ms => forallb (disjoint m) ms && pairwise_disjoint ms
  end.

Lemma disjoint_comm a b : disjoint a b = disjoint b a.
Proof. unfold disjoint. by rewrite orb_comm. Qed.

#[local] Instance pairwise_disjoint_Proper : Proper ((≡ₚ) ==> eq) pairwise_disjoint.
Proof.
  intros l l' Hp. induction Hp as [|a l l' Hp IH|a b l|l1 l2 l3 _ IH1 _ IH2]; cbn; [done| | |congruence].
  - rewrite IH. f_equal. apply eq_true_iff_eq. rewrite !forallb_forall. by setoid_rewrite <-list_elem_of_In; setoid_rewrite Hp.
  - rewrite (disjoint_comm b a). destruct (disjoint a b), (forallb (disjoint a) l), (forallb (disjoint b) l); done.
Qed.

Lemma StronglySorted_reverse {A} (R : A → A → Prop) l : StronglySorted (flip R) l → StronglySorted R (reverse l).
Proof.
  induction 1 as [|a l _ IH Ha]; [constructor|]. rewrite reverse_cons. apply StronglySorted_app_2; [|done|apply StronglySorted_cons; by repeat constructor].
  intros x y Hx ->%list_elem_of_singleton. rewrite elem_of_reverse in Hx. rewrite Forall_forall in Ha. exact (Ha x Hx).
Qed.

Definition nonempty (m : PIIMatch) : Prop := (location m).1 < (location m).2.

(** Sorted by descending start, disjoint spans are in descending order. *)
Lemma sorted_descending ms :
  pairwise_disjoint ms = true → Forall nonempty ms → StronglySorted (flip ordered) (sort_by later_start ms).
Proof.
  intros Hd Hne.
  assert (StronglySorted (λ a b, later_start b a = false) (sort_by later_start ms)) as Hs.
  { apply (sort_by_sorted _ (λ _, True)); [..|by apply Forall_true]; unfold later_start.
    - intros a b _ _ ?%Nat.ltb_lt. apply Nat.ltb_ge. lia.
    - intros a b c _ _ _ ?%Nat.ltb_ge ?%Nat.ltb_ge. apply Nat.ltb_ge. lia. }
  rewrite <-(sort_by_perm later_start ms) in Hd, Hne.
  induction Hs as [|m l _ IH Hm]; [constructor|]. cbn in Hd.
  apply andb_true_iff in Hd as [Hdm Hd]. apply Forall_cons in Hne as [Hn Hne]. constructor; [auto|].
  rewrite Forall_forall in Hm |- *. rewrite forallb_forall in Hdm. intros b Hb. specialize (Hm b Hb).
  specialize (Hdm b (proj1 (list_elem_of_In _ _) Hb)). rewrite Forall_forall in Hne. specialize (Hne b Hb).
  unfold later_start, disjoint, nonempty, ordered, before, flip in *.
  apply Nat.ltb_ge in Hm. apply orb_true_iff in Hdm as [Hdm%Nat.leb_le|Hdm%Nat.leb_le]; lia.
Qed.

Lemma splice_snoc pos ms m content :
  pos ≤ (location m).1 → Forall (λ a, ordered a m) ms → Forall nonempty ms → (location m).1 ≤ length content →
  StronglySorted ordered ms →
  splice pos (ms ++ [m]) content =
    splice pos ms (take (location m).1 content) ++ text_of (redacted m) ++ drop (location m).2 content.
Proof.
  intros Hp Hms Hne Hl Hs. revert pos Hp. induction Hs as [|a ms _ IH Ha]; intros pos Hp; cbn [splice app].
  { by rewrite <-skipn_firstn_comm. }
  apply Forall_cons in Hms as [Hm Hms]. apply Forall_cons in Hne as [Hna Hne].
  unfold ordered, before in Hm. unfold nonempty in Hna.
  rewrite IH, <-!app_assoc by (done || lia). f_equal.
  rewrite skipn_firstn_comm, take_take. f_equal. lia.
Qed.

(** Replacing from the last span to the first never moves an offset still to be
    used. *)
Lemma replace_descending ms content :
  StronglySorted (flip ordered) ms → Forall nonempty ms → Forall (λ m, (location m).2 ≤ length content) ms →
  foldl replace_span content ms = splice 0 (reverse ms) content.
Proof.
  revert content. induction ms as [|m ms IH]; intros content Hs Hne Hl; [by rewrite reverse_nil|].
  inversion Hs as [|? ? Hs' Hm]; subst. apply Forall_cons in Hne as [Hnm Hne]. apply Forall_cons in Hl as [Hlm Hl].
  assert (∀ x y l, Forall (λ a, (location a).2 ≤ length x) l → Forall nonempty l →
    StronglySorted (flip ordered) l → foldl replace_span (x ++ y) l = foldl replace_span x l ++ y) as Happ.
  { clear. intros x y l. revert x. induction l as [|a l IH]; intros x Hx Hn Hs; [done|].
    apply Forall_cons in Hx as [Ha Hx]. apply Forall_cons in Hn as [Hna Hn]. inversion Hs as [|? ? Hs' Hal]; subst.
    unfold nonempty in Hna. cbn [foldl].
    replace (replace_span (x ++ y) a) with (replace_span x a ++ y).
    - apply IH; [|done..]. rewrite Forall_forall in *. intros b Hb. specialize (Hal b Hb).
      unfold replace_span. destruct (location a) as [i j] eqn:E. unfold ordered, before, flip in Hal. rewrite E in *. cbn in *.
      rewrite length_app, length_take. lia.
    - unfold replace_span. destruct (location a) as [i j]. cbn in *.
      rewrite take_app_le, drop_app_le, <-!app_assoc by lia. done. }
  cbn [foldl]. unfold nonempty in Hnm. rewrite reverse_cons, splice_snoc; try lia.
  - unfold replace_span. destruct (location m) as [i j] eqn:E. cbn [fst snd] in *.
    assert (Forall (λ a, (location a).2 ≤ length (take i content)) ms) as Hli.
    { eapply Forall_impl; [exact Hm|]. intros a Ha. unfold ordered, before, flip in Ha. rewrite E in Ha.
      rewrite length_take. cbn in *. lia. }
    rewrite Happ by done. f_equal. by apply IH.
  - apply Forall_reverse. eapply Forall_impl; [exact Hm|done].
  - by apply Forall_reverse.
  - by apply StronglySorted_reverse.
Qed.

Section redaction.
Context (is_decimal is_alnum : N → bool).

Lemma pii_consumes ty re mark : (ty, re, mark) ∈ _PII_PATTERNS is_decimal → consumes re = true.
Proof.
  intros H. repeat (apply elem_of_cons in H as [[= _ -> _]|H]; [reflexivity|]). by apply elem_of_nil in H.
Qed.

Lemma elem_of_detect_pii content m :
  m ∈ _detect_pii is_decimal is_alnum content ↔
  ∃ re, (pii_type m, re, redacted m) ∈ _PII_PATTERNS is_decimal ∧
        location m ∈ finditer (is_word is_alnum) content re.
Proof.
  unfold _detect_pii. rewrite elem_of_flat_map. split.
  - intros ([[ty re] mark]&Hp&(loc&->&Hl)%list_elem_of_fmap). by exists re.
  - intros (re&Hp&Hl). exists (pii_type m, re, redacted m). split; [done|]. apply list_elem_of_fmap.
    exists (location m). by destruct m.
Qed.

Lemma detected_spans content :
  Forall nonempty (_detect_pii is_decimal is_alnum content) ∧
  Forall (λ m, (location m).2 ≤ length content) (_detect_pii is_decimal is_alnum content).
Proof.
  split; apply Forall_forall; intros m (re&Hp&Hl)%elem_of_detect_pii;
    destruct (finditer_spec (is_word is_alnum) content re) as (Hm&_); destruct (Hm _ Hl) as [Hn Hma]; [|done].
  eapply consumes_Match; [exact Hma|]. by eapply pii_consumes.
Qed.

Lemma redact_pii_splice content :
  pairwise_disjoint (_detect_pii is_decimal is_alnum content) = true →
  ∃ ms, ms ≡ₚ _detect_pii is_decimal is_alnum content ∧ StronglySorted ordered ms ∧
        redact_pii is_decimal is_alnum content = splice 0 ms content.
Proof.
  intros Hd. destruct (detected_spans content) as [Hn Hl]. unfold redact_pii.
  set (ms := _detect_pii is_decimal is_alnum content) in *.
  pose proof (sorted_descending ms Hd Hn) as Hs.
  exists (reverse (sort_by later_start ms)). split_and!.
  - by rewrite reverse_Permutation, sort_by_perm.
  - by apply StronglySorted_reverse.
  - rewrite <-replace_descending; [by destruct ms|done|by rewrite sort_by_perm..].
Qed.

(** Every place at which a PII pattern matches lies in a detected span. *)
Lemma detect_complete content ty re mark i j :
  (ty, re, mark) ∈ _PII_PATTERNS is_decimal → i ≤ length content →
  Match (is_word is_alnum) content re i j →
  ∃ m, m ∈ _detect_pii is_decimal is_alnum content ∧ redacted m = mark ∧ in_span i (location m).
Proof.
  intros Hp Hi Hm. destruct (finditer_spec (is_word is_alnum) content re) as (_&_&Hc).
  assert (i < j) as Hij by (eapply consumes_Match; [exact Hm|by eapply pii_consumes]).
  destruct (proj1 (Exists_exists _ _) (Hc i j Hij Hi Hm)) as (loc&Hl&Hs).
  exists {| pii_type := ty; location := loc; redacted := mark |}. split_and!; [|done..].
  apply elem_of_detect_pii. by exists re.
Qed.
End redaction.

(** *** Samples, with the ASCII part of the tables *)

Definition ascii_alnum (c : N) : bool := ascii_letter c || ascii_digit c.

Definition ascii_redact (s : string) : text := redact_pii ascii_digit ascii_alnum (text_of s).

Definition sample : text := text_of "ssn 078-05-1120, ip 10.0.0.7.".

Example sample_redacted :
  redact_pii ascii_digit ascii_alnum sample = text_of "ssn [REDACTED_SSN], ip [REDACTED_IP].".
Proof. vm_compute. reflexivity. Qed.

(** Where a span lies in another, the inner replacement moves the end of the
    outer one: the tail of the address stays in the text, or text that follows it
    is lost. *)
Example nested_pii_leaks : ascii_redact "tel.5551234567@a.com" = text_of "[REDACTED_EMAIL]@a.com".
Proof. vm_compute. reflexivity. Qed.

Example nested_pii_eats : ascii_redact "no.4111111111111111@a.io ok" = text_of "[REDACTED_EMAIL]".
Proof. vm_compute. reflexivity. Qed.

(** ** The verdict *)

Section verdict.
Context (is_decimal is_alnum : N → bool).
Context (is_loaded : bool) (embed : text → option (list spec_float))
        (embed_batch : list string → option (list (list spec_float))).
Context (llm_answer : text → list flag → option pyval).

Abbreviation analyze := (analyze is_decimal is_alnum is_loaded embed embed_batch llm_answer).
Abbreviation pii := (_detect_pii is_decimal is_alnum).

(** The analysis reports all PII whatever the other layers say. *)
Lemma analyze_reports_pii thresholds llm cached content a :
  is_blank_text content = false → (analyze thresholds llm cached content).2 = Ok a → pii_detected a = pii content.
Proof.
  unfold ContentFilter.analyze. intros ->.
  destruct (_classify_content _ _ _ _ _) as [c scores]. cbn [snd].
  intros (sc&_&H)%res_bind_Ok. destruct (combine_signals _ _ _ _) as [[safe fs] conf].
  destruct (apply_ruling _ _) as [[safe' fs'] conf']. by apply res_bind_Ok in H as (?&_&[= <-]).
Qed.

(** With no ruling of the language model a text is safe exactly where no layer
    objects. *)
Lemma analyze_verdict thresholds cached content a :
  is_blank_text content = false → (analyze thresholds false cached content).2 = Ok a →
  is_safe a = VBool true ↔
  pii content = [] ∧ _detect_harmful_patterns is_alnum content = [] ∧
  ∀ category score, (category, score) ∈ categories a → category ≠ "safe" →
    f_ge score (default (f_pct 60) (dict_get category thresholds)) = false.
Proof.
  unfold ContentFilter.analyze. intros ->. destruct (_classify_content _ _ _ _ _) as [c scores]. cbn [snd].
  intros (sc&_&H)%res_bind_Ok. unfold combine_signals in H. remember (filter (λ p, above_threshold thresholds p = true) sc) as above eqn:Hab.
  assert (above = [] ↔ ∀ category score, (category, score) ∈ sc → category ≠ "safe" →
    f_ge score (default (f_pct 60) (dict_get category thresholds)) = false) as Habove.
  { split.
    - intros Hf k x Hk Hn. apply not_true_is_false. intros Hx. rewrite Hf in Hab. symmetry in Hab.
      apply (filter_nil_not_elem_of _ _ _ Hab) in Hk; [done|].
      unfold above_threshold. apply String.eqb_neq in Hn. cbn. by rewrite Hn.
    - intros Hf. destruct above as [|[k x] l] eqn:E; [done|].
      assert ((k, x) ∈ filter (λ p, above_threshold thresholds p = true) sc) as [Ha Hk]%list_elem_of_filter
        by (rewrite <-Hab; by left).
      unfold above_threshold in Ha. cbn in Ha. destruct (String.eqb_spec k "safe") as [|Hn]; [done|].
      by rewrite (Hf k x) in Ha. }
  cbn [andb apply_ruling] in H. apply res_bind_Ok in H as (conf&_&[= <-]). cbn [is_safe categories].
  rewrite <-Habove. destruct (pii content) as [|m l].
  - split; [|by intros (_&->&->)]. intros [= Hs]. apply andb_true_iff in Hs as [Hs _].
    apply andb_true_iff in Hs as [H1%bool_decide_eq_true H2%bool_decide_eq_true]. done.
  - split; [intros [= Hs]; by rewrite andb_false_r in Hs|by intros [? _]].
Qed.
End verdict.

Section examples.
(** The embedding model is not loaded, as after a failed start. *)
Let analyze llm := analyze ascii_digit ascii_alnum false (λ _, None) (λ _, None) llm (with_defaults []) true None.

(** A language model that calls the text safe overrides the regular expressions. *)
Example model_overrides_pii :
  ((λ a, (is_safe a, length (pii_detected a))) <$>
    (match (analyze (λ _ _, Some (VDict [("is_safe", VBool true)])) sample).2 with Ok a => Some a | Err _ => None end))
  = Some (VBool true, 2).
Proof. vm_compute. reflexivity. Qed.

(** A confidence that is not a number makes the analysis raise. *)
Example bad_confidence_raises :
  (analyze (λ _ _, Some (VDict [("is_safe", VBool false); ("confidence", VStr "high")])) sample).2 = Err RoundTypeError.
Proof. vm_compute. reflexivity. Qed.
End examples.

(** ** Correctness *)

(** C21: where no two detected spans overlap, redaction replaces exactly the
    detected spans, each by the mark of its pattern, and copies the rest; and
    every place at which a PII pattern matches lies in one of those spans. *)
Theorem redact_pii_spec is_decimal is_alnum content :
  pairwise_disjoint (_detect_pii is_decimal is_alnum content) = true →
  ∃ ms, ms ≡ₚ _detect_pii is_decimal is_alnum content ∧ StronglySorted ordered ms ∧
    redact_pii is_decimal is_alnum content = splice 0 ms content ∧
    ∀ ty re mark i j, (ty, re, mark) ∈ _PII_PATTERNS is_decimal → i ≤ length content →
      Match (is_word is_alnum) content re i j → ∃ m, m ∈ ms ∧ redacted m = mark ∧ in_span i (location m).
Proof.
  intros Hd. destruct (redact_pii_splice is_decimal is_alnum content Hd) as (ms&Hp&Hs&Hr). exists ms.
  split_and!; [done..|]. intros ty re mark i j Hre Hi Hm.
  destruct (detect_complete is_decimal is_alnum content ty re mark i j Hre Hi Hm) as (m&Hin&Hmark).
  exists m. by rewrite Hp.
Qed.

Lemma redact_pii_spec_witness :
  pairwise_disjoint (_detect_pii ascii_digit ascii_alnum sample) = true ∧
  ∃ ms, ms ≡ₚ _detect_pii ascii_digit ascii_alnum sample ∧ StronglySorted ordered ms ∧
    redact_pii ascii_digit ascii_alnum sample = splice 0 ms sample ∧
    ∀ ty re mark i j, (ty, re, mark) ∈ _PII_PATTERNS ascii_digit → i ≤ length sample →
      Match (is_word ascii_alnum) sample re i j → ∃ m, m ∈ ms ∧ redacted m = mark ∧ in_span i (location m).
Proof.
  assert (pairwise_disjoint (_detect_pii ascii_digit ascii_alnum sample) = true) as H by (vm_compute; reflexivity).
  split; [exact H|]. exact (redact_pii_spec ascii_digit ascii_alnum sample H).
Defined.
