(* ===== verification/FileTools.v ===== *)
(** * FileTools: the workspace tools of an agent

    Models [file_read], [file_write] and [file_list] of [app/tools/file_io.py]
    over a file system with symbolic links: a finite map from absolute paths,
    lists of names, to nodes.  [realpath] is that of [os.path] (not strict, loops
    included); [islink], the kernel's [lstat] on a path as given, is a parameter,
    as are the decoding of a file that is not valid UTF-8, the order in which
    the kernel lists a directory, and whether a link leads to a directory.  The
    file system does not change while a tool runs. *)

From Stdlib Require Import Ascii NArith ZArith Lia SpecFloat.
From stdpp Require Import base tactics list strings gmap pretty.
From S2P Require Import Prelude PyStr Dict PyVal.

#[local] Open Scope nat_scope.

(** ** Files *)

Inductive node := File (bytes : string) | Dir | Link (target : string).

#[export] Instance node_eq_dec : EqDecision node.
Proof. solve_decision. Defined.

(** An absolute path without symbolic links, ["/"] being the empty list *)
Abbreviation path := (list string).
Abbreviation filesystem := (gmap path node).

Definition os_stat (F : filesystem) (p : path) : option node :=
  match p with
  | [] => Some Dir
  | _ => F !! p
  end.

Definition render (p : path) : string := String "/" (str_join "/" p).

Definition isabs (s : string) : bool := str_startswith "/" s.

(** [os.path.join(a, b)] *)
Definition path_join (a b : string) : string :=
  if isabs b then b
  else if str_empty a || bool_decide (last (str_chars a) = Some "/"%char) then a +:+ b
  else a +:+ "/" +:+ b.

(** ** os.path.realpath *)

Definition stays (name : string) : bool := str_empty name || String.eqb name ".".

Definition up (p : path) : path := removelast p.

(** The rest of a path taken literally, from the first link of a loop on *)
Fixpoint lexical (p : path) (rest : list string) : path :=
  match rest with
  | [] => p
  | name :: rest =>
      lexical (if stays name then p else if String.eqb name ".." then up p else p ++ [name]) rest
  end.

Section realpath.
Context (cwd : path) (F : filesystem).

(** [rest] followed from the resolved path [p]; [active] are the links being
    resolved.  [depth] bounds how many there can be. *)
Fixpoint walk (depth : nat) (active : list path) : path → list string → path * bool :=
  match depth with
  | 0 => λ p rest, (lexical p rest, false)
  | S depth =>
      fix follow (p : path) (rest : list string) : path * bool :=
        match rest with
        | [] => (p, true)
        | name :: rest =>
            if stays name then follow p rest
            else if String.eqb name ".." then follow (up p) rest
            else
              let newpath := p ++ [name] in
              match F !! newpath with
              | Some (Link target) =>
                  if bool_decide (newpath ∈ active) then (lexical newpath rest, false)
                  else
                    let '(q, ok) := walk depth (newpath :: active) (if isabs target then [] else p) (str_split "/" target) in
                    if ok then follow q rest else (lexical q rest, false)
              | _ => follow newpath rest
              end
        end
  end.

Definition realpath (s : string) : path :=
  (walk (S (size F)) [] (if isabs s then [] else cwd) (str_split "/" s)).1.
End realpath.

(** ** The path guard *)

Definition control_char (c : ascii) : bool :=
  (N_of_ascii c <? 32)%N && negb (existsb (Ascii.eqb c) ["010"; "013"; "009"]%char).

Section tools.
Context (cwd : path) (islink : filesystem → string → bool).

Definition _safe_resolve (F : filesystem) (workspace relative_path : string) : option path :=
  if str_mem "000" relative_path || (1024 <? length (py_chars relative_path)) then None
  else if existsb control_char (str_chars relative_path) then None
  else
    let workspace_real := render (realpath cwd F workspace) in
    let raw_path := path_join workspace relative_path in
    if islink F raw_path then None
    else
      let candidate := realpath cwd F raw_path in
      if negb (str_startswith (workspace_real +:+ "/") (render candidate)) &&
         negb (String.eqb (render candidate) workspace_real) then None
      else Some candidate.

(** ** The tools *)

Record ToolResult := {
  tr_content : string;
  tr_success : bool;
  tr_metadata : list (string * pyval);
  tr_artifacts : list string;
  tr_cost_credits : spec_float;
}.

Definition failed_with (meta : list (string * pyval)) (message : string) : ToolResult :=
  {| tr_content := message; tr_success := false; tr_metadata := meta; tr_artifacts := []; tr_cost_credits := S754_zero false |}.

Definition failed : string → ToolResult := failed_with [].

Definition succeeded (message : string) (meta : list (string * pyval)) (artifacts : list string) : ToolResult :=
  {| tr_content := message; tr_success := true; tr_metadata := meta; tr_artifacts := artifacts;
     tr_cost_credits := S754_zero false |}.

(** The exceptions a tool lets through *)
Inductive tool_exn := ToolTypeError | ToolAttributeError | OSError.

(** [arguments.get("path", "").strip()] *)
Definition path_arg (arguments : list (string * pyval)) : res tool_exn string :=
  match default (VStr "") (dict_get "path" arguments) with
  | VStr s => Ok (py_strip s)
  | _ => Err ToolAttributeError
  end.

Definition MISSING_PATH : string := "Error: 'path' argument is required.".

Definition escapes (arg : string) : ToolResult :=
  failed ("Error: path '" +:+ arg +:+ "' escapes the workspace root — path traversal is not allowed.").

Definition _FILE_READ_CAP : N := 1048576.

(** [decode] is [read_text(encoding="utf-8", errors="replace")] on the bytes. *)
Definition file_read (decode : string → string) (F : filesystem) (workspace : string) (arguments : list (string * pyval))
    : res tool_exn ToolResult :=
  arg <~ path_arg arguments;
  if str_empty arg then Ok (failed MISSING_PATH)
  else match _safe_resolve F workspace arg with
  | None => Ok (escapes arg)
  | Some resolved =>
      match os_stat F resolved with
      | None | Some (Link _) => Ok (failed ("Error: file '" +:+ arg +:+ "' does not exist."))
      | Some Dir => Ok (failed ("Error: '" +:+ arg +:+ "' is not a file."))
      | Some (File bytes) =>
          let size := N.of_nat (String.length bytes) in
          if (_FILE_READ_CAP <? size)%N then
            Ok (failed_with [("size_bytes", VInt (Z.of_N size))]
                  ("Error: file '" +:+ arg +:+ "' is " +:+ pretty size +:+ " bytes, exceeding the 1 MB read cap."))
          else if str_mem "000" (String.substring 0 1024 bytes) then
            Ok (failed_with [("path", VStr arg); ("binary", VBool true)] ("Error: file '" +:+ arg +:+ "' appears to be binary and cannot be read as text."))
          else Ok (succeeded (decode bytes) [("path", VStr arg); ("size_bytes", VInt (Z.of_N size))] [])
      end
  end.

(** [path.mkdir(parents=True, exist_ok=True)] below [base]: what exists has to be
    a directory. *)
Fixpoint make_dirs (F : filesystem) (base rest : path) : filesystem * res tool_exn unit :=
  match rest with
  | [] => (F, Ok tt)
  | name :: rest =>
      let p := base ++ [name] in
      match F !! p with
      | None => make_dirs (<[p := Dir]> F) p rest
      | Some Dir => make_dirs F p rest
      | Some _ => (F, Err OSError)
      end
  end.

Definition write_text (F : filesystem) (p : path) (content : string) : filesystem * res tool_exn unit :=
  match os_stat F p with
  | None | Some (File _) => (<[p := File content]> F, Ok tt)
  | Some _ => (F, Err OSError)
  end.

(** [arguments.get("content") or ""], which [write_text] refuses when it is not a
    string *)
Definition content_arg (arguments : list (string * pyval)) : res tool_exn string :=
  match default VNone (dict_get "content" arguments) with
  | VStr s => Ok s
  | v => if py_truth v then Err ToolTypeError else Ok ""
  end.

Definition file_write (F : filesystem) (workspace : string) (arguments : list (string * pyval))
    : filesystem * res tool_exn ToolResult :=
  match path_arg arguments with
  | Err e => (F, Err e)
  | Ok arg =>
      if str_empty arg then (F, Ok (failed MISSING_PATH))
      else match _safe_resolve F workspace arg with
      | None => (F, Ok (escapes arg))
      | Some resolved =>
          let '(F, made) := make_dirs F [] (up resolved) in
          match made, content_arg arguments with
          | Err e, _ | _, Err e => (F, Err e)
          | Ok _, Ok content =>
              let '(F, written) := write_text F resolved content in
              (F, written ;!
                  Ok (succeeded ("File '" +:+ arg +:+ "' written successfully (" +:+
                                 pretty (N.of_nat (length (py_chars content))) +:+ " characters).")
                     [("path", VStr arg); ("bytes_written", VInt (Z.of_nat (String.length content)))]
                     [render resolved]))
          end
      end
  end.

(** *** Listings *)

Context (scandir : filesystem → path → list string) (leads_to_dir : filesystem → path → bool).

(** [entry.is_dir()] follows links. *)
Definition is_dir (F : filesystem) (p : path) : bool :=
  match F !! p with
  | Some Dir => true
  | Some (Link _) => leads_to_dir F p
  | _ => false
  end.

Definition is_link (F : filesystem) (p : path) : bool :=
  match F !! p with Some (Link _) => true | _ => false end.

(** [os.walk(top)]: a directory with its directories and its other entries, then
    those of its directories in turn, links apart.  [fuel] bounds the depth. *)
Fixpoint os_walk (fuel : nat) (F : filesystem) (top : path) : list (path * list string * list string) :=
  match fuel with
  | 0 => []
  | S fuel =>
      let names := scandir F top in
      let dirs := filter (λ d, is_dir F (top ++ [d]) = true) names in
      let nondirs := filter (λ d, is_dir F (top ++ [d]) = false) names in
      (top, dirs, nondirs) ::
        flat_map (λ d, if is_link F (top ++ [d]) then [] else os_walk fuel F (top ++ [d])) dirs
  end.

(** The length of the longest path *)
Definition depth (F : filesystem) : nat := foldr max 0 (map (λ e, length e.1) (map_to_list F)).

(** [str(p.relative_to(root))] of a path below [root]; the guard has it below. *)
Definition relative_to (root p : path) : string := str_join "/" (drop (length root) p).

Definition dir_line (root p : path) (d : string) : string := relative_to root (p ++ [d]) +:+ "/".
Definition file_line (root p : path) (f : string) : string := relative_to root (p ++ [f]).

Definition walk_entries (F : filesystem) (root top : path) : list string :=
  flat_map (λ '(p, dirs, files), map (dir_line root p) (str_sorted dirs) ++ map (file_line root p) (str_sorted files))
    (os_walk (S (depth F)) F top).

Definition iterdir_entries (F : filesystem) (root top : path) : list string :=
  map (λ e, if is_dir F (top ++ [e]) then dir_line root top e else file_line root top e) (str_sorted (scandir F top)).

Definition list_entries (F : filesystem) (workspace : string) (arguments : list (string * pyval)) (top : path)
    : list string :=
  (if py_truth (default (VBool false) (dict_get "recursive" arguments)) then walk_entries else iterdir_entries)
    F (realpath cwd F workspace) top.

Definition file_list (F : filesystem) (workspace : string) (arguments : list (string * pyval)) : res tool_exn ToolResult :=
  arg <~ path_arg arguments;
  let shown := if str_empty arg then "." else arg in
  match (if str_empty arg then Some (realpath cwd F workspace) else _safe_resolve F workspace arg) with
  | None => Ok (escapes arg)
  | Some resolved =>
      match os_stat F resolved with
      | None | Some (Link _) => Ok (failed ("Error: directory '" +:+ shown +:+ "' does not exist."))
      | Some (File _) => Ok (failed ("Error: '" +:+ arg +:+ "' is not a directory."))
      | Some Dir =>
          match list_entries F workspace arguments resolved with
          | [] => Ok (succeeded "(empty directory)" [("path", VStr shown); ("count", VInt 0)] [])
          | entries =>
              Ok (succeeded (str_join (String "010" "") entries)
                    [("path", VStr shown); ("count", VInt (Z.of_nat (length entries)))] [])
          end
      end
  end.
End tools.

(** ** Paths *)

(** What the components of a resolved path are: names *)
Definition is_name (name : string) : Prop := str_mem "/" name = false ∧ name ≠ "".

Definition clean (p : path) : Prop := Forall is_name p.

Lemma clean_up p : clean p → clean (up p).
Proof.
  unfold clean, up. rewrite !Forall_forall. intros Hp x Hx. apply Hp.
  destruct (decide (p = [])) as [->|Hne]; [done|]. rewrite (app_removelast_last "" Hne). apply elem_of_app. by left.
Qed.

Lemma clean_snoc p name : clean p → str_mem "/" name = false → stays name = false → clean (p ++ [name]).
Proof.
  intros Hp Hm [Hs _]%orb_false_iff. apply Forall_app. split; [done|]. apply Forall_singleton. split; [done|].
  intros ->. by cbn in Hs.
Qed.

Abbreviation no_slash := (Forall (λ name, str_mem "/" name = false)).

Lemma clean_lexical p rest : clean p → no_slash rest → clean (lexical p rest).
Proof.
  intros Hp Hr. revert p Hp. induction Hr as [|name rest Hn Hr IH]; intros p Hp; [done|]. cbn [lexical].
  apply IH. destruct (stays name) eqn:E; [done|]. destruct (String.eqb name ".."); [by apply clean_up|by apply clean_snoc].
Qed.

Lemma clean_walk F depth active p rest : clean p → no_slash rest → clean (walk F depth active p rest).1.
Proof.
  revert active p rest. induction depth as [|depth IH]; intros active p rest Hp Hr; [by apply clean_lexical|].
  revert p Hp. induction Hr as [|name rest Hn Hr IHr]; intros p Hp; [done|]. cbn [walk].
  destruct (stays name) eqn:Hs; [by apply IHr|]. destruct (String.eqb name ".."); [by apply IHr, clean_up|].
  assert (clean (p ++ [name])) as Hc by by apply clean_snoc.
  destruct (F !! (p ++ [name])) as [[bytes| |target]|]; try by apply IHr.
  destruct (bool_decide _); [by apply clean_lexical|].
  pose proof (IH ((p ++ [name]) :: active) (if isabs target then [] else p) (str_split "/" target)) as Hw.
  destruct (walk F depth _ _ _) as [q ok]. cbn [fst] in Hw.
  assert (clean q) as Hq by (apply Hw; [by destruct (isabs target); [constructor|]|apply str_split_spec]).
  destruct ok; [by apply IHr|by apply clean_lexical].
Qed.

Lemma clean_realpath cwd F s : clean cwd → clean (realpath cwd F s).
Proof.
  intros Hc. apply clean_walk; [|apply str_split_spec]. destruct (isabs s); [constructor|done].
Qed.

Lemma clean_no_slash p : clean p → no_slash p.
Proof. intros Hp. eapply Forall_impl; [exact Hp|]. by intros x [? _]. Qed.

Lemma join_app a b : a ≠ [] → b ≠ [] → str_join "/" (a ++ b) = str_join "/" a +:+ "/" +:+ str_join "/" b.
Proof.
  intros Ha Hb. induction a as [|x a IH]; [done|]. destruct (decide (a = [])) as [->|Hne].
  - cbn [app]. by rewrite str_join_cons.
  - cbn [app]. rewrite !str_join_cons by (by destruct a). rewrite IH by done. by autorewrite with str_app.
Qed.

Lemma render_inj a b : clean a → clean b → render a = render b → a = b.
Proof.
  intros Ha Hb [= E]. destruct (decide (a = [])) as [->|Hna], (decide (b = [])) as [->|Hnb]; try done.
  - destruct b as [|x b]; [done|]. apply Forall_cons in Hb as [[_ Hx] _]. exfalso. destruct b.
    + cbn in E. by subst.
    + rewrite str_join_cons in E by done. by destruct x.
  - destruct a as [|x a]; [done|]. apply Forall_cons in Ha as [[_ Hx] _]. exfalso. destruct a.
    + cbn in E. by subst.
    + rewrite str_join_cons in E by done. by destruct x.
  - eapply str_join_inj; try done; by apply clean_no_slash.
Qed.

(** The string test of the guard is the test on paths, the root apart. *)
Lemma render_inside a b :
  clean a → clean b → a ≠ [] →
  str_startswith (render a +:+ "/") (render b) = true ↔ ∃ c, c ≠ [] ∧ b = a ++ c.
Proof.
  intros Ha Hb Hna. rewrite str_startswith_true. split.
  - intros [r E]. unfold render in E. rewrite !str_app_cons in E. injection E as E.
    rewrite str_app_assoc in E. cbn in E. destruct (str_split_spec "/" r) as [Hj Hs].
    assert (str_split "/" r ≠ []) as Hne by apply str_split_max_ne.
    exists (str_split "/" r). split; [done|].
    destruct (decide (b = [])) as [->|Hnb]; [by destruct (str_join "/" a)|].
    apply (str_join_inj "/"); [done|by destruct a|by apply clean_no_slash|..].
    + apply Forall_app. split; [by apply clean_no_slash|done].
    + rewrite E, join_app by done. by rewrite Hj.
  - intros (c&Hc&->). exists (str_join "/" c). unfold render. rewrite join_app by done.
    by rewrite !str_app_cons, str_app_assoc.
Qed.

(** The root is a prefix of no path as a string. *)
Lemma render_root b : clean b → str_startswith (render [] +:+ "/") (render b) = false.
Proof.
  intros Hb. apply not_true_is_false. intros [r E]%str_startswith_true. cbn in E. unfold render in E. injection E as E.
  destruct b as [|x b]; [done|]. apply Forall_cons in Hb as [[Hm Hx] _].
  destruct x as [|c x]; [done|].
  assert (c = "/"%char) as ->.
  { rewrite str_app_nil_l, str_app_cons in E.
    destruct b; [cbn in E; congruence|rewrite str_join_cons, str_app_cons in E by done; congruence]. }
  done.
Qed.

(** ** Enough depth *)

Lemma active_le (F : filesystem) active :
  NoDup active → (∀ q, q ∈ active → is_Some (F !! q)) → length active ≤ size F.
Proof.
  intros Hnd Hin. rewrite <-size_dom, <-(size_list_to_set (C := gset path) active) by done. apply subseteq_size.
  intros q Hq%elem_of_list_to_set. by apply elem_of_dom, Hin.
Qed.

Lemma walk_depth F active p rest d1 d2 :
  NoDup active → (∀ q, q ∈ active → is_Some (F !! q)) →
  size F < d1 + length active → size F < d2 + length active →
  walk F d1 active p rest = walk F d2 active p rest.
Proof.
  revert d2 active p rest. induction d1 as [|d1 IH]; intros d2 active p rest Hnd Hin H1 H2.
  - pose proof (active_le F active Hnd Hin). lia.
  - destruct d2 as [|d2]; [pose proof (active_le F active Hnd Hin); lia|].
    revert p. induction rest as [|name rest IHr]; intros p; [done|]. cbn [walk].
    destruct (stays name); [apply IHr|]. destruct (String.eqb name ".."); [apply IHr|].
    destruct (F !! (p ++ [name])) as [[bytes| |target]|] eqn:E; try apply IHr.
    destruct (bool_decide _) eqn:Ha; [done|]. apply bool_decide_eq_false in Ha.
    rewrite (IH d2); [| |intros q [->|Hq]%elem_of_cons; [by eexists|by apply Hin]|cbn; lia|cbn; lia].
    + destruct (walk F d2 _ _ _) as [q []]; [apply IHr|done].
    + by constructor.
Qed.

(** The depth [realpath] starts with is never used up. *)
Lemma realpath_depth cwd F s d :
  S (size F) ≤ d → realpath cwd F s = (walk F d [] (if isabs s then [] else cwd) (str_split "/" s)).1.
Proof.
  intros Hd. unfold realpath. f_equal. apply walk_depth; [constructor|by intros q ?%elem_of_nil|cbn; lia..].
Qed.

(** ** The guard *)

Section guard.
Context (cwd : path) (islink : filesystem → string → bool) (cwd_clean : clean cwd).

Abbreviation safe_resolve := (_safe_resolve cwd islink).

(** Below the root of the workspace, or the root itself *)
Definition inside (root p : path) : Prop := ∃ c, p = root ++ c.

Lemma safe_resolve_inside F workspace arg p :
  safe_resolve F workspace arg = Some p → inside (realpath cwd F workspace) p.
Proof using cwd_clean.
  unfold _safe_resolve. destruct (_ || _); [done|]. destruct (existsb _ _); [done|]. destruct (islink _ _); [done|].
  set (root := realpath cwd F workspace). set (c := realpath cwd F (path_join workspace arg)).
  assert (clean root ∧ clean c) as [Hr Hc] by (by split; apply clean_realpath).
  destruct (str_startswith _ _) eqn:Hs; cbn [negb andb].
  - intros [= <-]. destruct (decide (root = [])) as [E|Hne]; [exists c; by rewrite E|].
    destruct (proj1 (render_inside root c Hr Hc Hne) Hs) as (d&_&E). by exists d.
  - destruct (String.eqb_spec (render c) (render root)) as [E|]; [|done]. intros [= <-].
    apply render_inj in E as ->; [|done..]. exists []. by rewrite app_nil_r.
Qed.

(** Where the workspace is not the root of the file system, a sane relative path
    that is not itself a link is accepted exactly if it leads into it. *)
Lemma safe_resolve_complete F workspace arg :
  str_mem "000" arg = false → length (py_chars arg) ≤ 1024 → existsb control_char (str_chars arg) = false →
  islink F (path_join workspace arg) = false → realpath cwd F workspace ≠ [] →
  inside (realpath cwd F workspace) (realpath cwd F (path_join workspace arg)) →
  safe_resolve F workspace arg = Some (realpath cwd F (path_join workspace arg)).
Proof using cwd_clean.
  intros H0 Hl Hc Hi Hne [c E]. unfold _safe_resolve. rewrite H0, Hc, Hi.
  replace (1024 <? length (py_chars arg)) with false by (symmetry; apply Nat.ltb_ge; lia). cbn [orb].
  destruct (decide (c = [])) as [->|Hnc].
  - rewrite E, app_nil_r, String.eqb_refl. by rewrite andb_false_r.
  - assert (str_startswith (render (realpath cwd F workspace) +:+ "/") (render (realpath cwd F (path_join workspace arg)))
      = true) as ->; [|done].
    apply render_inside; [by apply clean_realpath..|done|by exists c].
Qed.
End guard.

(** ** What a write changes *)

(** Nothing but [p] and what lies below or, newly created, above it *)
Definition changes_only (root : path) (F F' : filesystem) : Prop :=
  ∀ q, F' !! q ≠ F !! q → inside root q ∨ (inside q root ∧ F !! q = None ∧ F' !! q = Some Dir).

Lemma make_dirs_changes F base rest :
  ∀ q, (make_dirs F base rest).1 !! q ≠ F !! q →
    F !! q = None ∧ (make_dirs F base rest).1 !! q = Some Dir ∧ ∃ a b, q = base ++ a ∧ rest = a ++ b.
Proof.
  revert F base. induction rest as [|name rest IH]; intros F dn q; [done|]. cbn [make_dirs].
  destruct (F !! (dn ++ [name])) as [[bytes| |target]|] eqn:E; try done.
  - intros Hq. destruct (IH _ _ _ Hq) as (H1&H2&a&b&->&->). split_and!; [done..|]. exists (name :: a), b. by rewrite <-app_assoc.
  - intros Hq. destruct (decide (q = dn ++ [name])) as [->|Hne].
    + split_and!; [done| |by exists [name], rest].
      destruct (decide ((make_dirs (<[dn ++ [name]:=Dir]> F) (dn ++ [name]) rest).1 !! (dn ++ [name]) =
                        <[dn ++ [name]:=Dir]> F !! (dn ++ [name]))) as [->|Hc]; [by rewrite lookup_insert_eq|].
      apply IH in Hc as (Hc&_). by rewrite lookup_insert_eq in Hc.
    + destruct (IH (<[dn ++ [name]:=Dir]> F) (dn ++ [name]) q) as (H1&H2&a&b&->&->); [by rewrite lookup_insert_ne|].
      rewrite lookup_insert_ne in H1 by done. split_and!; [done..|]. exists (name :: a), b. by rewrite <-app_assoc.
Qed.

Lemma write_text_changes F p content q : (write_text F p content).1 !! q ≠ F !! q → q = p.
Proof.
  unfold write_text. intros Hq. destruct (decide (q = p)) as [|Hne]; [done|]. exfalso. apply Hq.
  destruct (os_stat F p) as [[]|]; cbn; try done; by rewrite lookup_insert_ne.
Qed.

(** No operation makes or removes a link, so that paths resolve as before. *)
Definition same_links (F F' : filesystem) : Prop := ∀ q t, F !! q = Some (Link t) ↔ F' !! q = Some (Link t).

#[export] Instance same_links_PreOrder : PreOrder same_links.
Proof.
  split; [by intros F q t|]. intros F1 F2 F3 H12 H23 q t. by rewrite (H12 q t).
Qed.

Lemma insert_links F p n : (∀ t, F !! p ≠ Some (Link t)) → (∀ t, n ≠ Link t) → same_links F (<[p := n]> F).
Proof.
  intros Hp Hn q t. destruct (decide (q = p)) as [->|Hne]; [|by rewrite lookup_insert_ne].
  rewrite lookup_insert_eq. split; [by intros ?%Hp|]. intros [= ?]. by destruct (Hn t).
Qed.

Lemma make_dirs_links F base rest : same_links F (make_dirs F base rest).1.
Proof.
  revert F base. induction rest as [|name rest IH]; intros F base; [done|]. cbn [make_dirs].
  destruct (F !! (base ++ [name])) as [[bytes| |target]|] eqn:E; [done|apply IH|done|].
  etrans; [|apply IH]. apply insert_links; [by intros t; rewrite E|done].
Qed.

Lemma write_text_links F p content : same_links F (write_text F p content).1.
Proof.
  unfold write_text, os_stat. destruct p as [|x p]; [done|].
  destruct (F !! (x :: p)) as [[bytes| |target]|] eqn:E; try done;
    (apply insert_links; [by intros t; rewrite E|done]).
Qed.

Lemma walk_links F F' depth active p rest :
  same_links F F' → walk F' depth active p rest = walk F depth active p rest.
Proof.
  intros Hl. revert active p rest. induction depth as [|depth IH]; intros active p rest; [done|].
  revert p. induction rest as [|name rest IHr]; intros p; [done|]. cbn [walk].
  destruct (stays name); [apply IHr|]. destruct (String.eqb name ".."); [apply IHr|].
  specialize (Hl (p ++ [name])).
  destruct (F !! (p ++ [name])) as [[b| |t]|] eqn:E, (F' !! (p ++ [name])) as [[b'| |t']|] eqn:E'; try apply IHr;
    try (by pose proof (proj1 (Hl _) eq_refl)); try (by pose proof (proj2 (Hl _) eq_refl)).
  pose proof (proj1 (Hl _) eq_refl) as [= ->]. destruct (bool_decide _); [done|]. rewrite IH.
  destruct (walk F depth _ _ _) as [q []]; [apply IHr|done].
Qed.

Lemma realpath_links cwd F F' s : same_links F F' → realpath cwd F' s = realpath cwd F s.
Proof.
  intros Hl. rewrite (realpath_depth cwd F s (S (size F `max` size F'))) by lia.
  rewrite (realpath_depth cwd F' s (S (size F `max` size F'))) by lia. by rewrite (walk_links F F').
Qed.

Lemma changes_only_trans root F1 F2 F3 : changes_only root F1 F2 → changes_only root F2 F3 → changes_only root F1 F3.
Proof.
  intros H1 H2 q Hq. destruct (decide (F2 !! q = F1 !! q)) as [E|Hne].
  - destruct (H2 q) as [?|(?&?&?)]; [by rewrite E|by left|]. right. by rewrite <-E.
  - destruct (H1 q Hne) as [?|(Hi&Hn&Hd)]; [by left|]. destruct (decide (F3 !! q = F2 !! q)) as [E|Hne'].
    + right. by rewrite E.
    + destruct (H2 q Hne') as [?|(_&Hn2&_)]; [by left|congruence].
Qed.

Lemma changes_none root F : changes_only root F F.
Proof. by intros q []. Qed.

Section confined.
Context (cwd : path) (islink : filesystem → string → bool) (cwd_clean : clean cwd).

Lemma write_changes F workspace arguments :
  changes_only (realpath cwd F workspace) F (file_write cwd islink F workspace arguments).1.
Proof using cwd_clean.
  unfold file_write. destruct (path_arg arguments) as [arg|e]; [|apply changes_none].
  destruct (str_empty arg); [apply changes_none|].
  destruct (_safe_resolve cwd islink F workspace arg) as [p|] eqn:Hs; [|apply changes_none].
  apply safe_resolve_inside in Hs as [c ->]; [|done]. set (root := realpath cwd F workspace).
  destruct (make_dirs F [] (up (root ++ c))) as [F1 made] eqn:Em.
  assert (∀ q, F1 !! q ≠ F !! q →
    inside root q ∨ (inside q root ∧ F !! q = None ∧ F1 !! q = Some Dir)) as H1.
  { intros q Hq. pose proof (make_dirs_changes F [] (up (root ++ c)) q) as Hd. rewrite Em in Hd.
    destruct (Hd Hq) as (Hn&Hdir&a&b&->&Hab). cbn in *.
    assert (∃ d, root ++ c = a ++ d) as [d Hd'].
    { destruct (decide (root ++ c = [])) as [E|Hne]; [exists []; rewrite E in Hab; by destruct a|].
      exists (b ++ [List.last (root ++ c) ""]). rewrite app_assoc, <-Hab. by apply app_removelast_last. }
    apply app_eq_app in Hd' as (l&[[-> ->]|[-> ->]]); [|by left; exists l]. right. split; [by exists l|done]. }
  destruct made as [u|e], (content_arg arguments) as [content|e'];
    [destruct (write_text F1 (root ++ c) content) as [F2 written] eqn:Ew|exact H1..]. intros q Hq. cbn [fst] in *.
  destruct (decide (q = root ++ c)) as [->|Hne]; [left; by exists c|].
  assert (F2 !! q = F1 !! q) as E.
  { destruct (decide (F2 !! q = F1 !! q)) as [|Hc]; [done|]. pose proof (write_text_changes F1 (root ++ c) content q) as Hw.
    rewrite Ew in Hw. by destruct Hne; apply Hw. }
  rewrite E in *. by apply H1.
Qed.

Lemma write_links F workspace arguments :
  same_links F (file_write cwd islink F workspace arguments).1.
Proof using Type.
  unfold file_write. destruct (path_arg arguments) as [arg|e]; [|done]. destruct (str_empty arg); [done|].
  destruct (_safe_resolve cwd islink F workspace arg) as [p|]; [|done].
  pose proof (make_dirs_links F [] (up p)) as H1. destruct (make_dirs F [] (up p)) as [F1 made]. cbn [fst] in H1.
  destruct made as [u|e], (content_arg arguments) as [content|e']; [|done..].
  pose proof (write_text_links F1 p content) as H2. destruct (write_text F1 p content) as [F2 w]. by etrans.
Qed.

(** A read depends on the file it names and on the links, and on nothing else
    outside of the workspace. *)
Lemma read_inside F decode workspace arguments r :
  file_read cwd islink decode F workspace arguments = Ok r → tr_success r = true →
  ∃ p bytes, inside (realpath cwd F workspace) p ∧ F !! p = Some (File bytes) ∧ tr_content r = decode bytes.
Proof using cwd_clean.
  unfold file_read. intros (arg&_&H)%res_bind_Ok. destruct (str_empty arg); [by injection H as <-|].
  destruct (_safe_resolve cwd islink F workspace arg) as [p|] eqn:Hs; [|by injection H as <-].
  apply safe_resolve_inside in Hs; [|done]. unfold os_stat in H.
  destruct p as [|x p]; [by injection H as <-|].
  destruct (F !! (x :: p)) as [[bytes| |t]|] eqn:E; try by injection H as <-.
  destruct (_FILE_READ_CAP <? _)%N; [by injection H as <-|]. destruct (str_mem _ _); injection H as <-; [done|].
  intros _. by exists (x :: p), bytes.
Qed.
End confined.

(** ** What a listing names *)

(** The names directly below [p] *)
Definition child_of (p q : path) : option string :=
  if decide (length q = S (length p) ∧ take (length p) q = p) then last q else None.

Definition children (F : filesystem) (p : path) : list string := omap (child_of p) (map fst (map_to_list F)).

Lemma child_of_Some p q d : child_of p q = Some d ↔ q = p ++ [d].
Proof.
  unfold child_of. case_decide as H.
  - destruct H as [Hl Ht]. destruct q as [|x q _] using rev_ind; [done|]. rewrite last_snoc. rewrite length_app in Hl.
    cbn in Hl. rewrite take_app_le, take_ge in Ht by lia. subst q. split; [by intros [= <-]|].
    intros E. apply app_inv_head in E. by injection E as ->.
  - split; [done|]. intros ->. destruct H. rewrite length_app, take_app_length. cbn. split; [lia|done].
Qed.

Lemma elem_of_children F p d : d ∈ children F p ↔ is_Some (F !! (p ++ [d])).
Proof.
  unfold children. rewrite list_elem_of_omap. split.
  - intros (q&([q' n]&->&Hq)%list_elem_of_fmap&Hc%child_of_Some). cbn in Hc. subst q'.
    apply elem_of_map_to_list in Hq. by eexists.
  - intros [n Hn]. exists (p ++ [d]). split; [|by apply child_of_Some]. apply list_elem_of_fmap.
    exists (p ++ [d], n). split; [done|]. by apply elem_of_map_to_list.
Qed.

Lemma depth_ge F p : is_Some (F !! p) → length p ≤ depth F.
Proof.
  intros [n Hn%elem_of_map_to_list]. unfold depth. induction (map_to_list F) as [|e l IH]; [by apply elem_of_nil in Hn|].
  apply elem_of_cons in Hn as [<-|Hn]; cbn; [lia|]. apply IH in Hn. lia.
Qed.

(** What [os.walk] visits: [top] and the directories below, links apart *)
Inductive visits (F : filesystem) : path → path → Prop :=
  | visits_top p : visits F p p
  | visits_into p d q : F !! (p ++ [d]) = Some Dir → visits F (p ++ [d]) q → visits F p q.

Section listing.
Context (cwd : path) (islink : filesystem → string → bool) (cwd_clean : clean cwd).
Context (scandir : filesystem → path → list string) (leads_to_dir : filesystem → path → bool).
(** The kernel lists the names of a directory, in some order. *)
Context (scandir_children : ∀ F p, scandir F p ≡ₚ children F p).

Abbreviation dirp F p := (is_dir leads_to_dir F p).
Abbreviation walk_from := (os_walk scandir leads_to_dir).

Definition visited (F : filesystem) (p : path) : path * list string * list string :=
  (p, filter (λ d, dirp F (p ++ [d]) = true) (scandir F p), filter (λ d, dirp F (p ++ [d]) = false) (scandir F p)).

Lemma not_link_dir F p : dirp F p = true → is_link F p = false → F !! p = Some Dir.
Proof using Type. unfold is_dir, is_link. by destruct (F !! p) as [[]|]. Qed.

Lemma os_walk_visits fuel F top v : v ∈ walk_from fuel F top → ∃ p, visits F top p ∧ v = visited F p.
Proof using Type.
  revert top. induction fuel as [|fuel IH]; intros top; [by intros ?%elem_of_nil|]. cbn [os_walk].
  intros [->|(d&Hd&Hv)%elem_of_flat_map]%elem_of_cons; [exists top; split; [constructor|done]|].
  apply list_elem_of_filter in Hd as [Hd _]. destruct (is_link F (top ++ [d])) eqn:El; [by apply elem_of_nil in Hv|].
  apply IH in Hv as (p&Hp&->). exists p. split; [|done]. eapply visits_into; [|exact Hp]. by apply not_link_dir.
Qed.

(** The depth is enough for every directory. *)
Lemma visits_os_walk fuel F top p :
  visits F top p → length top ≤ depth F → depth F < fuel + length top → visited F p ∈ walk_from fuel F top.
Proof using scandir_children.
  intros Hv. revert fuel. induction Hv as [top|top d p Hd Hv IH]; intros fuel Hl Hf;
    (destruct fuel as [|fuel]; [lia|]; cbn [os_walk]); apply elem_of_cons; [by left|right].
  assert (length (top ++ [d]) ≤ depth F) as Hl' by (apply depth_ge; by eexists).
  apply elem_of_flat_map. exists d. split.
  - apply list_elem_of_filter. unfold is_dir. rewrite Hd. split; [done|]. rewrite scandir_children.
    apply elem_of_children. by eexists.
  - unfold is_link. rewrite Hd. apply IH; [done|]. rewrite length_app. cbn. lia.
Qed.

(** The line of an entry: its path from the workspace on, with a slash if it is
    or leads to a directory *)
Definition entry_line (F : filesystem) (root p : path) : string :=
  if dirp F p then relative_to root p +:+ "/" else relative_to root p.

Lemma elem_of_visited F root p line :
  (line ∈ map (dir_line root p) (str_sorted (visited F p).1.2) ++ map (file_line root p) (str_sorted (visited F p).2)) ↔
  ∃ d, is_Some (F !! (p ++ [d])) ∧ line = entry_line F root (p ++ [d]).
Proof using scandir_children.
  unfold visited, entry_line. cbn [fst snd]. rewrite elem_of_app, !list_elem_of_fmap. split.
  - intros [(d&->&Hd)|(d&->&Hd)]; rewrite elem_of_str_sorted in Hd; apply list_elem_of_filter in Hd as [Hd Hc];
      rewrite scandir_children in Hc; apply elem_of_children in Hc; exists d; by rewrite Hd.
  - intros (d&Hs&->). destruct (dirp F (p ++ [d])) eqn:E; [left|right]; exists d; (split; [done|]);
      rewrite elem_of_str_sorted; apply list_elem_of_filter; (split; [done|]); rewrite scandir_children;
      by apply elem_of_children.
Qed.

Lemma elem_of_iterdir F root p line :
  line ∈ iterdir_entries scandir leads_to_dir F root p ↔
  ∃ d, is_Some (F !! (p ++ [d])) ∧ line = entry_line F root (p ++ [d]).
Proof using scandir_children.
  unfold iterdir_entries, entry_line. rewrite list_elem_of_fmap. split.
  - intros (d&->&Hd). rewrite elem_of_str_sorted, scandir_children in Hd. exists d. split; [by apply elem_of_children|done].
  - intros (d&Hs&->). exists d. split; [done|]. rewrite elem_of_str_sorted, scandir_children. by apply elem_of_children.
Qed.

Lemma elem_of_walk F root top line :
  length top ≤ depth F →
  line ∈ walk_entries scandir leads_to_dir F root top ↔
  ∃ p d, visits F top p ∧ is_Some (F !! (p ++ [d])) ∧ line = entry_line F root (p ++ [d]).
Proof using scandir_children.
  intros Hl. unfold walk_entries. rewrite elem_of_flat_map. split.
  - intros (v&(p&Hp&->)%os_walk_visits&Hin).
    apply (elem_of_visited F root p) in Hin as (d&Hd&->). by exists p, d.
  - intros (p&d&Hp&Hd). exists (visited F p). split; [apply visits_os_walk; [done|done|lia]|].
    apply elem_of_visited. by exists d.
Qed.

Lemma visits_inside F root top p : visits F top p → inside root top → inside root p.
Proof using Type.
  induction 1 as [p|p d q Hd Hv IH]; [done|]. intros [c ->]. apply IH. exists (c ++ [d]). by rewrite app_assoc.
Qed.

(** The whole of what a listing says *)
Definition lists (F : filesystem) (recursive : bool) (root top : path) (line : string) : Prop :=
  ∃ p d, (if recursive then visits F top p else p = top) ∧ is_Some (F !! (p ++ [d])) ∧
    line = entry_line F root (p ++ [d]).

Lemma elem_of_entries F workspace arguments top line :
  os_stat F top = Some Dir →
  line ∈ list_entries cwd scandir leads_to_dir F workspace arguments top ↔
  lists F (py_truth (default (VBool false) (dict_get "recursive" arguments))) (realpath cwd F workspace) top line.
Proof using scandir_children.
  intros Hd. assert (length top ≤ depth F) as Hl by (destruct top; [cbn; lia|apply depth_ge; by eexists]).
  unfold list_entries, lists. destruct (py_truth _); [by apply elem_of_walk|]. rewrite elem_of_iterdir.
  split; [intros (d&?&->); by exists top, d|]. intros (p&d&->&?&->). by exists d.
Qed.

(** The directory a call is about *)
Definition list_target (F : filesystem) (workspace arg : string) : option path :=
  if str_empty arg then Some (realpath cwd F workspace) else _safe_resolve cwd islink F workspace arg.

Lemma list_target_inside F workspace arg top :
  list_target F workspace arg = Some top → inside (realpath cwd F workspace) top.
Proof using cwd_clean.
  unfold list_target. destruct (str_empty arg); [|by apply safe_resolve_inside]. intros [= <-]. exists [].
  by rewrite app_nil_r.
Qed.

Definition listing (entries : list string) : string :=
  match entries with [] => "(empty directory)" | _ => str_join (String "010" "") entries end.

(** A call with a path of text succeeds exactly on a directory. *)
Lemma file_list_run F workspace arguments arg :
  path_arg arguments = Ok arg →
  ∃ r, file_list cwd islink scandir leads_to_dir F workspace arguments = Ok r ∧
    (tr_success r = true ↔ ∃ top, list_target F workspace arg = Some top ∧ os_stat F top = Some Dir) ∧
    (∀ top, list_target F workspace arg = Some top → os_stat F top = Some Dir →
       tr_content r = listing (list_entries cwd scandir leads_to_dir F workspace arguments top)).
Proof using Type.
  unfold file_list, list_target. intros ->. cbn [res_bind].
  destruct (if str_empty arg then Some _ else _) as [top|].
  - destruct (os_stat F top) as [[b| |t]|] eqn:Ed;
      try (eexists; split; [done|]; split; [split; [done|intros (?&[= <-]&?); congruence]|intros ? [= <-] ?; congruence]).
    destruct (list_entries _ _ _ _ _ _ _) eqn:El; (eexists; split; [done|]; split;
      [split; [by exists top|done]|intros ? [= <-] _; by rewrite El]).
  - eexists. split; [done|]. split; [split; [done|by intros (?&?&?)]|done].
Qed.

Lemma file_list_lines F workspace arguments r :
  file_list cwd islink scandir leads_to_dir F workspace arguments = Ok r → tr_success r = true →
  ∃ lines, tr_content r = listing lines ∧
    ∀ line, line ∈ lines → ∃ p d, inside (realpath cwd F workspace) (p ++ [d]) ∧ is_Some (F !! (p ++ [d])) ∧
      line = entry_line F (realpath cwd F workspace) (p ++ [d]).
Proof using cwd_clean scandir_children.
  intros Hr Hs. destruct (path_arg arguments) as [arg|e] eqn:Ea; [|by unfold file_list in Hr; rewrite Ea in Hr].
  destruct (file_list_run F workspace arguments arg Ea) as (r'&Hr'&Hok&Hc).
  rewrite Hr in Hr'. injection Hr' as <-. destruct (proj1 Hok Hs) as (top&Ht&Hd).
  eexists. split; [by apply Hc|]. intros line Hl. apply elem_of_entries in Hl as (p&d&Hp&Hin&->); [|done]. exists p, d.
  split; [|done]. apply list_target_inside in Ht as Hi.
  assert (inside (realpath cwd F workspace) p) as [c ->]
    by (destruct (py_truth _); [by eapply visits_inside|by subst]).
  exists (c ++ [d]). by rewrite app_assoc.
Qed.
End listing.

(** ** Samples *)

(** A workspace /w with a directory, a file in it, a link out of it and one back
    to its own parent *)
Definition listed_fs : filesystem := list_to_map
  [(["w"], Dir); (["w"; "a"], Dir); (["w"; "a"; "n"], File "x"); (["w"; "a"; "b"], Dir); (["w"; "up"], Link "..");
   (["w"; "a"; "k"], Link "n"); (["k"], File "s")].

(** The kernel following the two links *)
Definition listed_links (F : filesystem) (p : path) : bool := bool_decide (last p = Some "up").

Definition list_sample (arguments : list (string * pyval)) : res tool_exn string :=
  r <~ file_list [] (λ _ _, false) children listed_links listed_fs "/w" arguments; Ok (tr_content r).

Definition newline : string := String "010" "".

Example list_plain : list_sample [] = Ok ("a/" +:+ newline +:+ "up/").
Proof. vm_compute. reflexivity. Qed.

(** The link out of the workspace is named and not followed. *)
Example list_recursive :
  list_sample [("recursive", VBool true)] = Ok (str_join newline ["a/"; "up/"; "a/b/"; "a/k"; "a/n"]).
Proof. vm_compute. reflexivity. Qed.

Example list_empty : list_sample [("path", VStr "a/b")] = Ok "(empty directory)".
Proof. vm_compute. reflexivity. Qed.

Example list_through_link : list_sample [("path", VStr "up")] =
  Ok "Error: path 'up' escapes the workspace root — path traversal is not allowed.".
Proof. vm_compute. reflexivity. Qed.

(** ** Correctness *)

(** C22: a listing succeeds exactly on the workspace or a directory the guard
    accepts, which is inside; its lines are exactly the entries there, or, asked
    to recurse, those of the directories reached from it without following a
    link, each by its path from the workspace on and marked with a slash if it
    is or leads to a directory. *)
Theorem file_list_exact cwd islink scandir leads_to_dir F workspace arguments arg :
  clean cwd → (∀ F p, scandir F p ≡ₚ children F p) → path_arg arguments = Ok arg →
  let root := realpath cwd F workspace in
  ∃ r, file_list cwd islink scandir leads_to_dir F workspace arguments = Ok r ∧
    (tr_success r = true ↔ ∃ top, list_target cwd islink F workspace arg = Some top ∧ os_stat F top = Some Dir) ∧
    (∀ top, list_target cwd islink F workspace arg = Some top → os_stat F top = Some Dir →
       inside root top ∧
       ∃ lines, tr_content r = listing lines ∧
         ∀ line, line ∈ lines ↔
           ∃ p d, (if py_truth (default (VBool false) (dict_get "recursive" arguments)) then visits F top p else p = top) ∧
             is_Some (F !! (p ++ [d])) ∧ line = entry_line leads_to_dir F root (p ++ [d])).
Proof.
  intros Hc Hs Ha root.
  destruct (file_list_run cwd islink scandir leads_to_dir F workspace arguments arg Ha) as (r&Hr&Hok&Hl).
  exists r. split_and!; [done..|]. intros top Ht Hd. split; [by eapply list_target_inside|].
  exists (list_entries cwd scandir leads_to_dir F workspace arguments top). split; [by apply Hl|].
  intros line. by apply elem_of_entries.
Qed.

Lemma file_list_exact_witness :
  ∃ r, file_list [] (λ _ _, false) children listed_links listed_fs "/w" [("recursive", VBool true)] = Ok r ∧
    tr_success r = true ∧ visits listed_fs ["w"] ["w"; "a"].
Proof.
  destruct (file_list_exact [] (λ _ _, false) children listed_links listed_fs "/w" [("recursive", VBool true)] ""
    (Forall_nil_2 _) (λ _ _, reflexivity _) eq_refl) as (r&Hr&Hok&_).
  exists r. split; [exact Hr|]. split.
  - apply Hok. exists ["w"]. split; vm_compute; reflexivity.
  - apply (visits_into _ _ "a"); [vm_compute; reflexivity|apply visits_top].
Defined.
