(* ===== verification/ToolExec.v ===== *)
(** * ToolExec: the tool executor

    Models [app/tools/executor.py], the toolbelt of [app/tools/registry.py] and
    the write path of [app/services/audit_service.py].  A tool is a state
    transformer that may raise; the executor puts the injection check before it
    and the redaction of PII after it, each with its time limit, and writes an
    audit entry.  The composition with the file tools shows what an agent's
    tool calls can reach. *)

From Stdlib Require Import Ascii NArith ZArith Lia SpecFloat.
From stdpp Require Import base tactics list strings gmap sorting.
From S2P Require Import Prelude PyStr Dict PyVal PyFloat Regex ContentFilter Injection FileTools.

#[local] Open Scope nat_scope.

(** [s[:n]] *)
Definition str_take (n : nat) (s : string) : string := str_join "" (take n (py_chars s)).

(** ** Audit entries *)

Inductive AuditEventType := TOOL_EXECUTED | TOOL_BLOCKED.

Record AuditLog := {
  log_id : nat;
  al_workflow_id : option nat;
  al_task_id : option nat;
  event_type : AuditEventType;
  actor_id : string;
  input_summary : option string;
  output_summary : option string;
  decision_reason : option string;
  al_metadata : list (string * pyval);
  created_at : Z;
}.

(** The rows of [audit_logs] and what was published to the audit channel, which
    nothing in the program subscribes to *)
Record AuditState := { audit_logs : list AuditLog; published : list AuditLog }.

Definition _write_to_db (db_ok : bool) (entry : AuditLog) (a : AuditState) : option AuditState :=
  if db_ok then Some {| audit_logs := audit_logs a ++ [entry]; published := published a |} else None.

(** [AuditService.log], [None] where it raises *)
Definition audit_log (redis_ok db_ok : bool) (entry : AuditLog) (a : AuditState) : option AuditState :=
  if redis_ok then Some {| audit_logs := audit_logs a; published := published a ++ [entry] |}
  else _write_to_db db_ok entry a.

(** [AuditService.log_sync] *)
Definition log_sync (db_ok : bool) (entry : AuditLog) (a : AuditState) : option AuditState :=
  _write_to_db db_ok entry a.

(** ** The toolbelt *)

Record ToolProvider (S : Type) := {
  tool_name : string;
  required_capabilities : list string;
  estimated_cost_credits : spec_float;
  tool_execute : list (string * pyval) → S → S * res string ToolResult;
}.
Arguments tool_name {S} _.
Arguments required_capabilities {S} _.
Arguments estimated_cost_credits {S} _.
Arguments tool_execute {S} _ _ _.

(** The registry: tools by name, in the order they were registered *)
Abbreviation registry S := (list (string * ToolProvider S)).

Definition register {S} (tool : ToolProvider S) (r : registry S) : registry S := dict_set (tool_name tool) tool r.

Definition get_tools_for_capabilities {S} (caps : list string) (r : registry S) : list (ToolProvider S) :=
  filter (λ t, Exists (λ c, c ∈ caps) (required_capabilities t)) (map snd r).

(** [agent.supported_tools]: a dict of flags, a list, or something else *)
Inductive SupportedTools :=
  | ToolFlags (flags : list (string * pyval))
  | ToolNames (names : list string)
  | OtherTools (truthy : bool).

Definition supported_truth (s : SupportedTools) : bool :=
  match s with
  | ToolFlags l => negb (bool_decide (length l = 0))
  | ToolNames l => negb (bool_decide (l = []))
  | OtherTools b => b
  end.

Definition allowed_names (s : SupportedTools) : list string :=
  match s with
  | ToolFlags flags => map fst (filter (λ p, py_truth p.2 = true) flags)
  | ToolNames names => names
  | OtherTools _ => []
  end.

Definition get_tools_for_agent {S} (supported : SupportedTools) (caps : list string) (r : registry S)
    : list (ToolProvider S) :=
  let allowed := if supported_truth supported then allowed_names supported else [] in
  match allowed with
  | [] => get_tools_for_capabilities caps r
  | _ => map snd (filter (λ p, p.1 ∈ allowed) r)
  end.

(** ** execute_tool *)

Section executor.
Context {S : Type}.
(** The safety layers: Unicode tables, numpy, the embedding service with the
    bank of the process, the language model *)
Context (is_decimal is_alnum : N → bool) (nfkc : text → text).
Context (np_dot : embedding → embedding → option spec_float) (np_norm : embedding → spec_float).
Context (is_loaded : bool) (embed : text → option embedding) (embed_batch : list string → option (list embedding)).
Context (bank : option (list (string * embedding))) (llm_answer : text → list flag → option pyval).
(** [str(arguments)] *)
Context (repr : list (string * pyval) → string).

(** Which of the three waits of five seconds end in time, and whether the audit
    entry gets through *)
Record Outcomes := {
  check_in_time : bool;
  analysis_in_time : bool;
  redaction_in_time : bool;
  redis_ok : bool;
  db_ok : bool;
}.

Definition injection_check (o : Outcomes) (arguments : list (string * pyval)) : option InjectionAssessment :=
  if check_in_time o then
    Some (Injection.analyze is_alnum nfkc np_dot np_norm embed embed_batch bank (str_text (repr arguments))).2
  else None.

Definition blocks (check : option InjectionAssessment) : bool :=
  match check with
  | Some a => is_suspicious a && match recommendation a with Block => true | _ => false end
  | None => false
  end.

Definition with_content (c : string) (m : list (string * pyval)) (r : ToolResult) : ToolResult :=
  {| tr_content := c; tr_success := tr_success r; tr_metadata := m; tr_artifacts := tr_artifacts r;
     tr_cost_credits := tr_cost_credits r |}.

Definition with_cost (x : spec_float) (r : ToolResult) : ToolResult :=
  {| tr_content := tr_content r; tr_success := tr_success r; tr_metadata := tr_metadata r;
     tr_artifacts := tr_artifacts r; tr_cost_credits := x |}.

(** Redaction of a successful result; a late or failed analysis leaves it as it
    is. *)
Definition redact_output (o : Outcomes) (r : ToolResult) : ToolResult :=
  if tr_success r && negb (str_empty (tr_content r)) && analysis_in_time o then
    let content := str_text (tr_content r) in
    match (ContentFilter.analyze is_decimal is_alnum is_loaded embed embed_batch llm_answer
             (with_defaults []) true None content).2 with
    | Ok a =>
        match pii_detected a with
        | [] => r
        | _ =>
            if redaction_in_time o then
              with_content (text_str (redact_pii is_decimal is_alnum content))
                (dict_set "pii_redacted" (VBool true) (tr_metadata r)) r
            else r
        end
    | Err _ => r
    end
  else r.

Definition audit_entry (id : nat) (now : Z) (workflow_id : option nat) (agent_id name : string)
    (arguments : list (string * pyval)) (r : ToolResult) : AuditLog :=
  {| log_id := id; al_workflow_id := workflow_id; al_task_id := None;
     event_type := if tr_success r then TOOL_EXECUTED else TOOL_BLOCKED; actor_id := agent_id;
     input_summary := Some ("tool=" +:+ name +:+ " args=" +:+ str_take 200 (repr arguments));
     output_summary := if str_empty (tr_content r) then None else Some (str_take 200 (tr_content r));
     decision_reason := None;
     al_metadata := [("tool", VStr name); ("success", VBool (tr_success r))]; created_at := now |}.

Definition blocked_message (check : option InjectionAssessment) : string :=
  "Tool execution blocked: input flagged as potentially unsafe (risk: " +:+
  f_fixed2 (default (f_of_Z 0) (risk_score <$> check)) +:+ ").".

Definition execute_tool (r : registry S) (o : Outcomes) (id : nat) (now : Z) (workflow_id : option nat)
    (agent_id name : string) (arguments : list (string * pyval)) (s : S) (a : AuditState)
    : S * AuditState * ToolResult :=
  match dict_get name r with
  | None => (s, a, failed ("Tool not found: " +:+ name))
  | Some tool =>
      let check := injection_check o arguments in
      if blocks check then
        (s, a, failed_with [("blocked_reason", VStr "injection_detection")] (blocked_message check))
      else
        let '(s, outcome) := tool_execute tool arguments s in
        match outcome with
        | Err e => (s, a, failed ("Tool execution failed: " +:+ e))
        | Ok result =>
            let result := redact_output o result in
            let entry := audit_entry id now workflow_id agent_id name arguments result in
            (s, default a (audit_log (redis_ok o) (db_ok o) entry a), with_cost (estimated_cost_credits tool) result)
        end
  end.
End executor.

(** ** The file tools of a workspace *)

Section file_tools.
Context (cwd : path) (islink : filesystem → string → bool) (decode : string → string).
Context (scandir : filesystem → path → list string) (leads_to_dir : filesystem → path → bool).
Context (exn_text : tool_exn → string) (workspace : string).

Definition raised {A} (m : res tool_exn A) : res string A :=
  match m with Ok a => Ok a | Err e => Err (exn_text e) end.

Definition FileReadTool : ToolProvider filesystem :=
  {| tool_name := "file_read";
     required_capabilities := ["research"; "code-execution"; "verification"; "quality-check"; "report-generation";
       "summarization"; "data-analytics"; "literature-review"; "data-retrieval"; "process-analysis"];
     estimated_cost_credits := f_of_Z 0;
     tool_execute arguments F := (F, raised (file_read cwd islink decode F workspace arguments)) |}.

Definition FileWriteTool : ToolProvider filesystem :=
  {| tool_name := "file_write";
     required_capabilities := ["code-execution"; "summarization"; "report-generation"; "data-analytics";
       "optimization"; "workflow-mapping"; "process-analysis"];
     estimated_cost_credits := f_of_Z 0;
     tool_execute arguments F :=
       let '(F, r) := file_write cwd islink F workspace arguments in (F, raised r) |}.

Definition FileListTool : ToolProvider filesystem :=
  {| tool_name := "file_list";
     required_capabilities := ["research"; "code-execution"; "verification"; "workflow-mapping"; "process-analysis";
       "data-analytics"];
     estimated_cost_credits := f_of_Z 0;
     tool_execute arguments F :=
       (F, raised (file_list cwd islink scandir leads_to_dir F workspace arguments)) |}.

Definition file_tools : registry filesystem :=
  register FileListTool (register FileWriteTool (register FileReadTool [])).
End file_tools.

(** ** What the executor guarantees *)

Section guarantees.
Context {S : Type}.
Context (is_decimal is_alnum : N → bool) (nfkc : text → text).
Context (np_dot : embedding → embedding → option spec_float) (np_norm : embedding → spec_float).
Context (is_loaded : bool) (embed : text → option embedding) (embed_batch : list string → option (list embedding)).
Context (bank : option (list (string * embedding))) (llm_answer : text → list flag → option pyval).
Context (repr : list (string * pyval) → string).

Abbreviation check := (injection_check is_alnum nfkc np_dot np_norm embed embed_batch bank repr).
Abbreviation redacted_output := (redact_output is_decimal is_alnum is_loaded embed embed_batch llm_answer).
Abbreviation execute := (execute_tool is_decimal is_alnum nfkc np_dot np_norm is_loaded embed embed_batch bank
  llm_answer repr).

Lemma redact_success o r : tr_success (redacted_output o r) = tr_success r.
Proof.
  unfold redact_output. destruct (_ && _); [|done]. destruct (ContentFilter.analyze _ _ _ _ _ _ _ _ _ _).2 as [a|]; [|done].
  destruct (pii_detected a); [done|]. by destruct (redaction_in_time o).
Qed.

(** What is seen of a successful tool's [content]: the text with its PII redacted,
    where the analysis and the redaction end in time, the analysis does not
    raise and finds something *)
Definition redacts (o : Outcomes) (content : string) : bool :=
  negb (is_blank_text (str_text content)) && analysis_in_time o && redaction_in_time o &&
  is_ok (ContentFilter.analyze is_decimal is_alnum is_loaded embed embed_batch llm_answer (with_defaults []) true None
           (str_text content)).2 &&
  negb (bool_decide (length (_detect_pii is_decimal is_alnum (str_text content)) = 0)).

Definition shown (o : Outcomes) (content : string) : string :=
  if redacts o content then text_str (redact_pii is_decimal is_alnum (str_text content)) else content.

Lemma redact_shown o r : tr_success r = true → tr_content (redacted_output o r) = shown o (tr_content r).
Proof.
  intros Hs. unfold redact_output, shown, redacts. rewrite Hs.
  destruct (str_empty (tr_content r)) eqn:Ee;
    [assert (tr_content r = "") as E by (by destruct (tr_content r)); by rewrite E|]. cbn [andb negb].
  destruct (analysis_in_time o); [|by rewrite andb_false_r].
  set (t := str_text (tr_content r)). destruct (is_blank_text t) eqn:Eb; cbn [negb andb].
  - unfold ContentFilter.analyze. by rewrite Eb.
  - destruct (ContentFilter.analyze _ _ _ _ _ _ _ _ _ _).2 as [an|e] eqn:Ea; [|by rewrite andb_false_r].
    rewrite (analyze_reports_pii _ _ _ _ _ _ _ _ _ _ _ Eb Ea). cbn [is_ok].
    destruct (_detect_pii is_decimal is_alnum t); [by rewrite !andb_false_r|]. by destruct (redaction_in_time o).
Qed.

(** A call runs the named tool, unless there is none or the check blocks it; a
    successful answer is the tool's, redacted. *)
Lemma execute_tool_cases (r : registry S) o id now wid agent name arguments s a :
  let '(s', _, result) := execute r o id now wid agent name arguments s a in
  (s' = s ∧ tr_success result = false) ∨
  ∃ tool, dict_get name r = Some tool ∧ blocks (check o arguments) = false ∧
    s' = (tool_execute tool arguments s).1 ∧
    (tr_success result = true → ∃ r0, (tool_execute tool arguments s).2 = Ok r0 ∧ tr_success r0 = true ∧
       tr_content result = shown o (tr_content r0)).
Proof.
  unfold execute_tool. destruct (dict_get name r) as [tool|]; [|by left]. destruct (blocks _) eqn:Hb; [by left|].
  destruct (tool_execute tool arguments s) as [s' [r0|e]] eqn:E; right; exists tool; rewrite E; split_and!; try done.
  cbn [with_cost tr_success]. intros Hs. exists r0. rewrite redact_success in Hs.
  by rewrite <-redact_shown.
Qed.
End guarantees.

Section confined.
Context (cwd : path) (islink : filesystem → string → bool) (decode : string → string).
Context (scandir : filesystem → path → list string) (leads_to_dir : filesystem → path → bool).
Context (exn_text : tool_exn → string) (workspace : string).

Abbreviation tools := (file_tools cwd islink decode scandir leads_to_dir exn_text workspace).

Lemma file_tools_get name tool :
  dict_get name tools = Some tool →
  tool = FileReadTool cwd islink decode exn_text workspace ∨ tool = FileWriteTool cwd islink exn_text workspace ∨
  tool = FileListTool cwd islink scandir leads_to_dir exn_text workspace.
Proof.
  change tools with
    [("file_read", FileReadTool cwd islink decode exn_text workspace);
     ("file_write", FileWriteTool cwd islink exn_text workspace);
     ("file_list", FileListTool cwd islink scandir leads_to_dir exn_text workspace)].
  unfold dict_get. do 3 (case_decide; [intros [= <-]; auto|]). done.
Qed.

Lemma file_tool_execute name tool arguments F :
  clean cwd → dict_get name tools = Some tool →
  changes_only (realpath cwd F workspace) F (tool_execute tool arguments F).1 ∧
  same_links F (tool_execute tool arguments F).1.
Proof.
  intros Hc [->|[-> | ->]]%file_tools_get; [by split; [apply changes_none|]| |by split; [apply changes_none|]].
  cbn [tool_execute FileWriteTool].
  pose proof (write_changes cwd islink Hc F workspace arguments) as Hw.
  pose proof (write_links cwd islink F workspace arguments) as Hl.
  by destruct (file_write cwd islink F workspace arguments).
Qed.

Lemma file_read_tool tool :
  dict_get "file_read" tools = Some tool → tool = FileReadTool cwd islink decode exn_text workspace.
Proof. by intros [= <-]. Qed.

Lemma file_list_tool tool :
  dict_get "file_list" tools = Some tool → tool = FileListTool cwd islink scandir leads_to_dir exn_text workspace.
Proof. by intros [= <-]. Qed.

(** Only a write changes anything. *)
Lemma file_tool_reads name tool arguments F :
  dict_get name tools = Some tool → name ≠ "file_write" → (tool_execute tool arguments F).1 = F.
Proof.
  change tools with
    [("file_read", FileReadTool cwd islink decode exn_text workspace);
     ("file_write", FileWriteTool cwd islink exn_text workspace);
     ("file_list", FileListTool cwd islink scandir leads_to_dir exn_text workspace)].
  unfold dict_get. intros H Hn. by repeat (case_decide; [injection H as <-|]).
Qed.
End confined.

(** ** A run of tool calls *)

Section run.
Context (is_decimal is_alnum : N → bool) (nfkc : text → text).
Context (np_dot : embedding → embedding → option spec_float) (np_norm : embedding → spec_float).
Context (is_loaded : bool) (embed : text → option embedding) (embed_batch : list string → option (list embedding)).
Context (bank : option (list (string * embedding))) (llm_answer : text → list flag → option pyval).
Context (repr : list (string * pyval) → string).
Context (cwd : path) (islink : filesystem → string → bool) (decode : string → string).
Context (scandir : filesystem → path → list string) (leads_to_dir : filesystem → path → bool).
Context (exn_text : tool_exn → string) (workspace : string).

Record ToolCall := {
  tc_outcomes : Outcomes; tc_id : nat; tc_now : Z; tc_workflow : option nat; tc_agent : string;
  tc_name : string; tc_arguments : list (string * pyval)
}.

Definition run_call (F : filesystem) (a : AuditState) (c : ToolCall) : filesystem * AuditState * ToolResult :=
  execute_tool is_decimal is_alnum nfkc np_dot np_norm is_loaded embed embed_batch bank llm_answer repr
    (file_tools cwd islink decode scandir leads_to_dir exn_text workspace) (tc_outcomes c) (tc_id c) (tc_now c) (tc_workflow c)
    (tc_agent c) (tc_name c) (tc_arguments c) F a.

Fixpoint run_calls (F : filesystem) (a : AuditState) (cs : list ToolCall) : filesystem * AuditState * list ToolResult :=
  match cs with
  | [] => (F, a, [])
  | c :: cs =>
      let '(F, a, r) := run_call F a c in
      let '(F, a, rs) := run_calls F a cs in
      (F, a, r :: rs)
  end.

Lemma run_call_confined F a c :
  clean cwd →
  changes_only (realpath cwd F workspace) F (run_call F a c).1.1 ∧ same_links F (run_call F a c).1.1.
Proof.
  intros Hc. unfold run_call.
  pose proof (execute_tool_cases is_decimal is_alnum nfkc np_dot np_norm is_loaded embed embed_batch bank llm_answer repr
    (file_tools cwd islink decode scandir leads_to_dir exn_text workspace) (tc_outcomes c) (tc_id c) (tc_now c) (tc_workflow c) (tc_agent c)
    (tc_name c) (tc_arguments c) F a) as H.
  destruct (execute_tool _ _ _ _ _ _ _ _ _ _ _ _ _ _ _ _ _ _ _ _ _) as [[F' a'] r]. cbn [fst].
  destruct H as [[-> _]|(tool&Hget&_&->&_)]; [by split; [apply changes_none|]|].
  by eapply file_tool_execute.
Qed.

Lemma run_calls_confined F a cs :
  clean cwd →
  changes_only (realpath cwd F workspace) F (run_calls F a cs).1.1 ∧ same_links F (run_calls F a cs).1.1.
Proof.
  intros Hc. revert F a. induction cs as [|c cs IH]; intros F a; [by split; [apply changes_none|]|]. cbn [run_calls].
  pose proof (run_call_confined F a c Hc) as [H1 L1]. destruct (run_call F a c) as [[F1 a1] r]. cbn [fst] in *.
  destruct (IH F1 a1) as [H2 L2]. destruct (run_calls F1 a1 cs) as [[F2 a2] rs]. cbn [fst] in *.
  rewrite (realpath_links cwd F F1) in H2 by done. split; [by eapply changes_only_trans|by etrans].
Qed.

Abbreviation tools := (file_tools cwd islink decode scandir leads_to_dir exn_text workspace).
Abbreviation shown_of := (shown is_decimal is_alnum is_loaded embed embed_batch llm_answer).

(** A successful call has run a tool of the name; what it answers is shown
    redacted. *)
Lemma run_call_success F a c :
  tr_success (run_call F a c).2 = true →
  ∃ tool r, dict_get (tc_name c) tools = Some tool ∧ (tool_execute tool (tc_arguments c) F).2 = Ok r ∧
    tr_success r = true ∧ tr_content (run_call F a c).2 = shown_of (tc_outcomes c) (tr_content r).
Proof.
  unfold run_call.
  pose proof (execute_tool_cases is_decimal is_alnum nfkc np_dot np_norm is_loaded embed embed_batch bank llm_answer repr
    tools (tc_outcomes c) (tc_id c) (tc_now c) (tc_workflow c) (tc_agent c) (tc_name c) (tc_arguments c) F a) as H.
  destruct (execute_tool _ _ _ _ _ _ _ _ _ _ _ _ _ _ _ _ _ _ _ _ _) as [[F' a'] r]. cbn [snd].
  intros Hs. destruct H as [[_ Hf]|(tool&Hget&_&_&Hr)]; [congruence|].
  destruct (Hr Hs) as (r0&He&Hs0&Hc). by exists tool, r0.
Qed.

Lemma run_call_unchanged F a c : tc_name c ≠ "file_write" → (run_call F a c).1.1 = F.
Proof.
  unfold run_call. intros Hn.
  pose proof (execute_tool_cases is_decimal is_alnum nfkc np_dot np_norm is_loaded embed embed_batch bank llm_answer repr
    tools (tc_outcomes c) (tc_id c) (tc_now c) (tc_workflow c) (tc_agent c) (tc_name c) (tc_arguments c) F a) as H.
  destruct (execute_tool _ _ _ _ _ _ _ _ _ _ _ _ _ _ _ _ _ _ _ _ _) as [[F' a'] r]. cbn [fst].
  destruct H as [[-> _]|(tool&Hget&_&->&_)]; [done|]. by eapply file_tool_reads.
Qed.

(** What a successful read answers with *)
Lemma run_call_reads F a c :
  clean cwd → tc_name c = "file_read" → tr_success (run_call F a c).2 = true →
  ∃ p bytes, inside (realpath cwd F workspace) p ∧ F !! p = Some (File bytes) ∧
    tr_content (run_call F a c).2 = shown_of (tc_outcomes c) (decode bytes).
Proof.
  intros Hc Hn (tool&r&Hget&He&Hs&->)%run_call_success. rewrite Hn in Hget. apply file_read_tool in Hget as ->.
  cbn [tool_execute FileReadTool snd] in He. unfold raised in He.
  destruct (file_read cwd islink decode F workspace (tc_arguments c)) as [r'|e] eqn:E; [|done]. injection He as ->.
  apply read_inside in E as (p&bytes&Hi&Hp&->); [|done..]. by exists p, bytes.
Qed.

(** What a successful listing answers with *)
Lemma run_call_lists F a c :
  clean cwd → (∀ F p, scandir F p ≡ₚ children F p) → tc_name c = "file_list" → tr_success (run_call F a c).2 = true →
  ∃ lines, tr_content (run_call F a c).2 = shown_of (tc_outcomes c) (listing lines) ∧
    ∀ line, line ∈ lines → ∃ p, inside (realpath cwd F workspace) p ∧ is_Some (F !! p) ∧
      line = entry_line leads_to_dir F (realpath cwd F workspace) p.
Proof.
  intros Hc Hk Hn (tool&r&Hget&He&Hs&->)%run_call_success. rewrite Hn in Hget. apply file_list_tool in Hget as ->.
  cbn [tool_execute FileListTool snd] in He. unfold raised in He.
  destruct (file_list cwd islink scandir leads_to_dir F workspace (tc_arguments c)) as [r'|e] eqn:E; [|done].
  injection He as ->. destruct (file_list_lines _ _ Hc _ _ Hk _ _ _ _ E Hs) as (lines&->&Hl).
  exists lines. split; [done|]. intros line (p&d&Hi&Hd&->)%Hl. by exists (p ++ [d]).
Qed.
End run.

(** ** Samples *)

(** Two workspaces with a link from the first into the second *)
Definition sample_fs : filesystem := list_to_map
  [(["ws"], Dir); (["ws"; "a"], Dir); (["ws"; "a"; "out"], Link "../../b"); (["ws"; "a"; "note"], File "mail x@y.io");
   (["b"], Dir); (["b"; "secret"], File "k")].

(** The file system, the entries stored and the answer of a call in /ws/a, with
    all services but the language and embedding models up *)
Definition call (name : string) (arguments : list (string * pyval)) : filesystem * AuditState * ToolResult :=
  execute_tool ascii_digit ascii_alnum id (λ _ _, None) (λ _, f_of_Z 0) false (λ _, None) (λ _, None) None
    (λ _ _, None) (λ _, "") (file_tools [] (λ _ _, false) id children (λ _ _, true) (λ _, "") "/ws/a")
    {| check_in_time := true; analysis_in_time := true; redaction_in_time := true; redis_ok := true; db_ok := true |}
    0 0 None "agent" name arguments sample_fs {| audit_logs := []; published := [] |}.

Example read_redacted : tr_content (call "file_read" [("path", VStr "note")]).2 = "mail [REDACTED_EMAIL]".
Proof. vm_compute. reflexivity. Qed.

Example listing_shown :
  tr_content (call "file_list" [("recursive", VInt 1)]).2 = "out/" +:+ newline +:+ "note".
Proof. vm_compute. reflexivity. Qed.

Example link_refused : tr_success (call "file_read" [("path", VStr "out/secret")]).2 = false.
Proof. vm_compute. reflexivity. Qed.

(** An accepted entry is only published; the table stays empty. *)
Example audit_not_stored :
  audit_logs (call "file_read" [("path", VStr "note")]).1.2 = [] ∧
  length (published (call "file_read" [("path", VStr "note")]).1.2) = 1.
Proof. split; vm_compute; reflexivity. Qed.

Example block_message :
  blocked_message (Some {| risk_score := hundredths 95; signals := []; is_suspicious := true; recommendation := Block |}) =
  "Tool execution blocked: input flagged as potentially unsafe (risk: 0.95).".
Proof. vm_compute. reflexivity. Qed.

(** Flags that forbid every tool open the toolbelt of the capabilities. *)
Example all_flags_off :
  map tool_name (get_tools_for_agent (ToolFlags [("file_read", VBool false); ("file_write", VBool false)])
    ["data-analytics"] (file_tools [] (λ _ _, false) id children (λ _ _, true) (λ _, "") "/ws/a")) = ["file_read"; "file_write"; "file_list"].
Proof. reflexivity. Qed.

(** ** Correctness *)

(** C2: whatever tools an agent calls, in any number and with any arguments, the
    file tools change nothing outside of its workspace but to create missing
    directories above it, and only a write changes anything; the workspace stays
    where it is; each successful read answers with the contents of a file inside
    and each successful listing with lines that name nodes inside; and the
    answer is shown with every detected PII span replaced, where the text is not
    blank, the analysis and the redaction end within their time limits and the
    analysis does not raise, and as it is otherwise. *)
Theorem tool_calls_confined is_decimal is_alnum nfkc np_dot np_norm is_loaded embed embed_batch bank llm_answer repr
    cwd islink decode scandir leads_to_dir exn_text workspace F a cs c :
  clean cwd → (∀ F p, scandir F p ≡ₚ children F p) →
  let run := run_calls is_decimal is_alnum nfkc np_dot np_norm is_loaded embed embed_batch bank llm_answer repr
               cwd islink decode scandir leads_to_dir exn_text workspace F a cs in
  let next := run_call is_decimal is_alnum nfkc np_dot np_norm is_loaded embed embed_batch bank llm_answer repr
                cwd islink decode scandir leads_to_dir exn_text workspace run.1.1 run.1.2 c in
  let root := realpath cwd F workspace in
  let shows content :=
    let t := str_text content in
    let analysis := (ContentFilter.analyze is_decimal is_alnum is_loaded embed embed_batch llm_answer
                       (with_defaults []) true None t).2 in
    tr_content next.2 =
      if negb (is_blank_text t) && analysis_in_time (tc_outcomes c) && redaction_in_time (tc_outcomes c) &&
         is_ok analysis && negb (bool_decide (length (_detect_pii is_decimal is_alnum t) = 0))
      then text_str (redact_pii is_decimal is_alnum t) else content in
  changes_only root F run.1.1 ∧ realpath cwd run.1.1 workspace = root ∧
  (tc_name c ≠ "file_write" → next.1.1 = run.1.1) ∧
  (tc_name c = "file_read" → tr_success next.2 = true →
   ∃ p bytes, inside root p ∧ run.1.1 !! p = Some (File bytes) ∧ shows (decode bytes)) ∧
  (tc_name c = "file_list" → tr_success next.2 = true →
   ∃ lines, shows (listing lines) ∧
     ∀ line, line ∈ lines → ∃ p, inside root p ∧ is_Some (run.1.1 !! p) ∧
       line = entry_line leads_to_dir run.1.1 root p).
Proof.
  intros Hc Hk run next root shows.
  destruct (run_calls_confined is_decimal is_alnum nfkc np_dot np_norm is_loaded embed embed_batch bank llm_answer repr
    cwd islink decode scandir leads_to_dir exn_text workspace F a cs Hc) as [Hch Hl]. fold run in Hch, Hl.
  assert (realpath cwd run.1.1 workspace = root) as Er by by apply realpath_links.
  split_and!; [done|done|by intros; apply run_call_unchanged|..].
  - intros Hn Hs. apply run_call_reads in Hs; [|done..]. by rewrite <-Er.
  - intros Hn Hs. apply run_call_lists in Hs; [|done..]. by rewrite <-Er.
Qed.

Definition sample_call (name : string) (arguments : list (string * pyval)) : ToolCall :=
  {| tc_outcomes := {| check_in_time := true; analysis_in_time := true; redaction_in_time := true;
                       redis_ok := true; db_ok := true |};
     tc_id := 0; tc_now := 0; tc_workflow := None; tc_agent := "agent"; tc_name := name; tc_arguments := arguments |}.

Definition sample_calls : list ToolCall :=
  [sample_call "file_write" [("path", VStr "d/e"); ("content", VStr "x")];
   sample_call "file_write" [("path", VStr "../../b/secret"); ("content", VStr "x")]].

Definition sample_run : filesystem * AuditState * list ToolResult :=
  run_calls ascii_digit ascii_alnum id (λ _ _, None) (λ _, f_of_Z 0) false (λ _, None) (λ _, None) None (λ _ _, None)
    (λ _, "") [] (λ _ _, false) id children (λ _ _, true) (λ _, "") "/ws/a" sample_fs
    {| audit_logs := []; published := [] |} sample_calls.

Lemma tool_calls_confined_witness :
  map tr_success sample_run.2 = [true; false] ∧ sample_run.1.1 !! ["ws"; "a"; "d"; "e"] = Some (File "x") ∧
  changes_only ["ws"; "a"] sample_fs sample_run.1.1 ∧
  ∃ p bytes, inside ["ws"; "a"] p ∧ sample_run.1.1 !! p = Some (File bytes) ∧
    (text_str (redact_pii ascii_digit ascii_alnum (str_text bytes)) = "mail [REDACTED_EMAIL]" ∨
     bytes = "mail [REDACTED_EMAIL]").
Proof.
  split; [vm_compute; reflexivity|]. split; [vm_compute; reflexivity|].
  destruct (tool_calls_confined ascii_digit ascii_alnum id (λ _ _, None) (λ _, f_of_Z 0) false (λ _, None)
    (λ _, None) None (λ _ _, None) (λ _, "") [] (λ _ _, false) id children (λ _ _, true) (λ _, "") "/ws/a" sample_fs
    {| audit_logs := []; published := [] |} sample_calls (sample_call "file_read" [("path", VStr "note")])
    (Forall_nil_2 _) (λ _ _, reflexivity _)) as (Hc&_&_&Hr&_).
  split; [exact Hc|]. destruct (Hr eq_refl ltac:(vm_compute; reflexivity)) as (p&bytes&Hi&Hp&Hs).
  exists p, bytes. split; [exact Hi|]. split; [exact Hp|]. cbv zeta in Hs.
  match type of Hs with ?l = _ =>
    assert (l = "mail [REDACTED_EMAIL]") as E by (vm_compute; reflexivity); rewrite E in Hs; clear E end.
  destruct (_ && _) in Hs; [left|right]; symmetry; exact Hs.
Defined.
