(* ===== verification/WebGuard.v ===== *)
(** * WebGuard: the guard of outgoing requests

    Models [tools/api_caller.py]: the scheme and method checks, the guard against
    requests into private networks, the pinning of the address, the request and
    its answer; and what it uses of [urllib.parse] and [ipaddress].  The resolver,
    the HTTP client, [str.lower] and [str.upper] beyond ASCII, NFKC and the check
    of a bracketed host, which differs between releases of Python, are parameters.
    Addresses are numbers, as [ip_address] reads what the resolver returns. *)

From Stdlib Require Import Ascii NArith ZArith Lia SpecFloat.
From stdpp Require Import base tactics strings list pretty.
From S2P Require Import Prelude PyStr Dict PyVal PyFloat FileTools ToolExec.

#[local] Open Scope nat_scope.

(** ** urllib.parse *)

Fixpoint str_all (p : ascii → bool) (s : string) : bool :=
  match s with
  | EmptyString => true
  | String c s => p c && str_all p s
  end.

Definition is_ascii (c : ascii) : bool := (N_of_ascii c <? 128)%N.

(** What precedes the first character that satisfies [stop], and the rest *)
Fixpoint span_until (stop : ascii → bool) (s : string) : string * string :=
  match s with
  | EmptyString => ("", "")
  | String c s' => if stop c then ("", s) else let '(a, b) := span_until stop s' in (String c a, b)
  end.

Fixpoint lstrip_c0 (s : string) : string :=
  match s with
  | String c s' => if (N_of_ascii c <=? 32)%N then lstrip_c0 s' else s
  | EmptyString => ""
  end.

(** [_UNSAFE_URL_BYTES_TO_REMOVE]: tab, carriage return, line feed *)
Fixpoint remove_breaks (s : string) : string :=
  match s with
  | EmptyString => ""
  | String c s => if existsb (Ascii.eqb c) ["009"; "010"; "013"]%char then remove_breaks s else String c (remove_breaks s)
  end.

Definition is_alpha (c : ascii) : bool :=
  let n := N_of_ascii c in ((65 <=? n)%N && (n <=? 90)%N) || ((97 <=? n)%N && (n <=? 122)%N).

Definition is_digit (c : ascii) : bool := let n := N_of_ascii c in (48 <=? n)%N && (n <=? 57)%N.

Definition is_scheme_char (c : ascii) : bool := is_alpha c || is_digit c || existsb (Ascii.eqb c) ["+"; "-"; "."]%char.

Definition starts_alpha (s : string) : bool := match s with String c _ => is_alpha c | EmptyString => false end.

(** [s[n:]] of characters below 128 *)
Fixpoint str_drop (n : nat) (s : string) : string :=
  match n, s with
  | S n, String _ s => str_drop n s
  | _, _ => s
  end.

(** [s.partition(c)], without the separator *)
Definition partition (c : ascii) (s : string) : string * string := default (s, "") (str_cut c s).

(** [s.rpartition(c)[2]] *)
Definition after_last (c : ascii) (s : string) : string := default "" (last (str_split c s)).

Record ParseResult := {
  scheme : string;
  netloc : string;
  p_path : string;
  p_params : string;
  p_query : string;
  fragment : string;
}.

Definition is_delim (c : ascii) : bool := existsb (Ascii.eqb c) ["/"; "?"; "#"]%char.

Section url.
Context (nfkc lower : string → string) (bracketed_ok : string → bool).

Definition lower_text (s : string) : string := if str_all is_ascii s then str_lower s else lower s.

(** [_checknetloc]: a normalised form must not contain a separator *)
Definition netloc_ok (s : string) : bool :=
  if str_all is_ascii s then true
  else
    let n := str_join "" (str_split "?" (str_join "" (str_split "#" (str_join "" (str_split ":"
               (str_join "" (str_split "@" s))))))) in
    String.eqb n (nfkc n) || negb (existsb (λ c, str_mem c (nfkc n)) ["/"; "?"; "#"; "@"; ":"]%char).

Definition split_scheme (url : string) : string * string :=
  match str_cut ":" url with
  | Some (a, b) => if starts_alpha a && str_all is_scheme_char a then (str_lower a, b) else ("", url)
  | None => ("", url)
  end.

Definition split_netloc (url : string) : string * string :=
  if str_startswith "//" url then span_until is_delim (str_drop 2 url) else ("", url).

(** [_splitparams] of the schemes that have parameters *)
Definition split_params (path : string) : string * string :=
  let segments := str_split "/" path in
  let '(name, params) := partition ";" (default "" (last segments)) in
  (str_join "/" (removelast segments ++ [name]), params).

(** [None] is [ValueError]. *)
Definition urlparse (url : string) : option ParseResult :=
  let '(sch, url) := split_scheme (remove_breaks (lstrip_c0 url)) in
  let '(host, url) := split_netloc url in
  if xorb (str_mem "[" host) (str_mem "]" host) then None
  else if str_mem "[" host && negb (bracketed_ok host) then None
  else
    let '(url, frag) := partition "#" url in
    let '(path, query) := partition "?" url in
    if netloc_ok host then
      let '(path, params) := if bool_decide (sch ∈ ["http"; "https"]) then split_params path else (path, "") in
      Some {| scheme := sch; netloc := host; p_path := path; p_params := params; p_query := query; fragment := frag |}
    else None.

Definition joined (sep : ascii) (a b : string) : string := if str_empty b then a else a +:+ String sep b.

(** [urlunparse] of a result with a scheme and a network location *)
Definition urlunparse (p : ParseResult) : string :=
  let path := joined ";" (p_path p) (p_params p) in
  let path := if negb (str_empty path) && negb (str_startswith "/" path) then "/" +:+ path else path in
  joined "#" (joined "?" (scheme p +:+ "://" +:+ netloc p +:+ path) (p_query p)) (fragment p).

(** [_hostinfo]: the host and the text after it *)
Definition hostinfo (p : ParseResult) : string * string :=
  let hostinfo := after_last "@" (netloc p) in
  match str_cut "[" hostinfo with
  | Some (_, bracketed) => let '(host, port) := partition "]" bracketed in (host, (partition ":" port).2)
  | None => partition ":" hostinfo
  end.

Definition hostname (p : ParseResult) : string :=
  let host := (hostinfo p).1 in
  match str_cut "%" host with
  | Some (host, zone) => lower_text host +:+ "%" +:+ zone
  | None => lower_text host
  end.

(** [parsed.port]: [Some None] is [None], [None] is [ValueError]. *)
Definition port (p : ParseResult) : option (option N) :=
  let text := (hostinfo p).2 in
  if str_empty text then Some None
  else if str_all is_digit text then
    let n := foldl (λ acc c, 10 * acc + (N_of_ascii c - 48))%N 0%N (str_chars text) in
    if (n <=? 65535)%N then Some (Some n) else None
  else None.
End url.

(** ** Addresses *)

Inductive ip_addr := V4 (n : N) | V6 (n : N).

#[export] Instance ip_addr_eq_dec : EqDecision ip_addr.
Proof. solve_decision. Defined.

(** A network: its first address and the length of its prefix *)
Definition in_network (a : ip_addr) (net : ip_addr * N) : bool :=
  match a, net with
  | V4 n, (V4 base, len) => (N.shiftr n (32 - len) =? N.shiftr base (32 - len))%N
  | V6 n, (V6 base, len) => (N.shiftr n (128 - len) =? N.shiftr base (128 - len))%N
  | _, _ => false
  end.

Definition v4 (a b c d : N) : N := ((a * 256 + b) * 256 + c) * 256 + d.

Definition _PRIVATE_NETWORKS : list (ip_addr * N) :=
  [(V4 (v4 127 0 0 0), 8%N); (V4 (v4 10 0 0 0), 8%N); (V4 (v4 172 16 0 0), 12%N); (V4 (v4 192 168 0 0), 16%N);
   (V4 (v4 169 254 0 0), 16%N); (V6 1, 128%N); (V6 (N.shiftl 252 120), 7%N); (V6 (N.shiftl 1018 118), 10%N)].

Definition is_private (a : ip_addr) : bool := existsb (in_network a) _PRIVATE_NETWORKS.

Definition digit (n : N) : ascii := ascii_of_N (48 + n mod 10).

(** A decimal number below [10 ^ digits] *)
Fixpoint decimal (digits : nat) (n : N) : string :=
  match digits with
  | 0 => ""
  | S digits => (if (n <? 10)%N then "" else decimal digits (n / 10)) +:+ String (digit n) ""
  end.

Definition octet (n i : N) : string := decimal 3 (N.shiftr n (8 * i) mod 256).

Definition v4_text (n : N) : string := str_join "." [octet n 3; octet n 2; octet n 1; octet n 0].

(** ** The guard *)

Definition _BLOCKED_HOSTNAMES : list string := ["localhost"; "0.0.0.0"].

Definition _ALLOWED_METHODS : list string := ["DELETE"; "GET"; "PATCH"; "POST"; "PUT"].

(** What [getaddrinfo] does; an address that [ip_address] does not read is
    [None]. *)
Inductive lookup_result := Found (addresses : list (option ip_addr)) | GaiError | LookupRaised.

Section guard.
Context (nfkc lower upper : string → string) (bracketed_ok : string → bool).
(** The answers of the resolver to [getaddrinfo(hostname, None)] *)
Context (resolve : string → lookup_result).

Abbreviation urlparse := (urlparse nfkc bracketed_ok).
Abbreviation hostname := (hostname lower).

(** [None] where the lookup raises anything but [gaierror] *)
Definition _is_private_url (url : string) : option bool :=
  match urlparse url with
  | None => Some true
  | Some parsed =>
      let host := hostname parsed in
      if str_empty host then Some true
      else if bool_decide (lower_text lower host ∈ _BLOCKED_HOSTNAMES) then Some true
      else match resolve host with
      | GaiError => Some false
      | LookupRaised => None
      | Found addresses => Some (existsb is_private (omap id addresses))
      end
  end.

(** [socket.getaddrinfo(hostname, None, AF_INET, SOCK_STREAM)], a second lookup *)
Context (resolve_v4 : string → option (list N)).

Record request := {
  rq_method : string;
  rq_url : string;
  rq_headers : pyval;
  rq_params : option pyval;
  rq_json : option pyval;
}.

(** The URL with its address pinned and the headers with the host, as far as the
    [try] block gets *)
Definition pin (parsed : ParseResult) (url : string) (headers : pyval) : string * pyval :=
  let host := hostname parsed in
  if str_empty host || bool_decide (host ∈ ["localhost"; "127.0.0.1"; "::1"]) then (url, headers)
  else match resolve_v4 host with
  | None | Some [] => (url, headers)
  | Some (ip :: _) =>
      match port parsed with
      | None => (url, headers)
      | Some p =>
          let netloc :=
            match p with
            | Some p => if (p =? 0)%N then v4_text ip else v4_text ip +:+ ":" +:+ decimal 5 p
            | None => v4_text ip
            end in
          (urlunparse {| scheme := scheme parsed; netloc := netloc; p_path := p_path parsed; p_params := p_params parsed;
                         p_query := p_query parsed; fragment := fragment parsed |},
           match headers with
           | VDict items =>
               match dict_get "Host" items with None => VDict (dict_set "Host" (VStr host) items) | Some _ => headers end
           | _ => headers
           end)
      end
  end.

(** What the HTTP client does with a request *)
Inductive response := TimedOut | RequestFailed (message : string) | ClientRaised | Answer (status : Z) (body : string).

Context (client : request → response).

Definition _RESPONSE_CAP : nat := 100 * 100.

(** What [execute] raises: an argument that is not a string, [urlparse], the
    lookup, the client *)
Inductive request_exn := NotText | BadURL | LookupError | ClientError.

(** [arguments.get(k, d)], of which a string method is called *)
Definition str_arg (k d : string) (arguments : list (string * pyval)) : res request_exn string :=
  match default (VStr d) (dict_get k arguments) with VStr s => Ok s | _ => Err NotText end.

(** [arguments.get(k)] *)
Definition opt_arg (k : string) (arguments : list (string * pyval)) : pyval := default VNone (dict_get k arguments).

Definition result_of (url method : string) (r : response) : res request_exn ToolResult :=
  match r with
  | TimedOut => Ok (failed_with [("url", VStr url); ("timeout", VFloat (f_of_Z 15))]
                      ("Error: request to " +:+ url +:+ " timed out after 15.0s."))
  | RequestFailed message => Ok (failed_with [("url", VStr url)] ("Error: network request failed — " +:+ message))
  | ClientRaised => Err ClientError
  | Answer status text =>
      let truncated := _RESPONSE_CAP <? length (py_chars text) in
      let body_out := str_take _RESPONSE_CAP text +:+ (if truncated then "…" else "") in
      let meta := [("url", VStr url); ("method", VStr method); ("status_code", VInt status); ("truncated", VBool truncated);
                   ("response_chars", VInt (Z.of_nat (length (py_chars body_out))))] in
      let content := "HTTP " +:+ pretty status +:+ String "010" (String "010" body_out) in
      Ok (if ((200 <=? status) && (status <? 300))%Z then succeeded content meta [] else failed_with meta content)
  end.

(** [APICallerTool.execute]: the request that is sent, and the result *)
Definition api_call (arguments : list (string * pyval)) : option request * res request_exn ToolResult :=
  match str_arg "url" "" arguments with
  | Err e => (None, Err e)
  | Ok url =>
      let url := py_strip url in
      if str_empty url then (None, Ok (failed "Error: 'url' argument is required."))
      else match urlparse url with
      | None => (None, Err BadURL)
      | Some parsed =>
          if negb (bool_decide (scheme parsed ∈ ["http"; "https"])) then
            (None, Ok (failed ("Blocked: only http/https URLs allowed (got: " +:+
                               (if str_empty (scheme parsed) then "none" else scheme parsed) +:+ ")")))
          else match str_arg "method" "GET" arguments with
          | Err e => (None, Err e)
          | Ok method =>
              let method := upper method in
              if negb (bool_decide (method ∈ _ALLOWED_METHODS)) then
                (None, Ok (failed ("Error: unsupported HTTP method '" +:+ method +:+ "'. Allowed: " +:+
                                   str_join ", " _ALLOWED_METHODS +:+ ".")))
              else match _is_private_url url with
              | None => (None, Err LookupError)
              | Some true =>
                  (None, Ok (failed_with [("url", VStr url); ("blocked", VBool true)]
                     ("Error: requests to private or internal network addresses are not permitted. URL: " +:+ url)))
              | Some false =>
                  let headers := if py_truth (opt_arg "headers" arguments) then opt_arg "headers" arguments else VDict [] in
                  let '(url, headers) := pin parsed url headers in
                  let body := opt_arg "body" arguments in
                  let params := opt_arg "params" arguments in
                  let r := {| rq_method := method; rq_url := url; rq_headers := headers;
                              rq_params := if py_truth params then Some params else None;
                              rq_json := if is_none body then None else Some body |} in
                  (Some r, result_of url method (client r))
              end
          end
      end
  end.
End guard.

(** ** Reading back a pinned URL *)

Definition plain (c : ascii) : bool := is_digit c || existsb (Ascii.eqb c) ["."; ":"]%char.

Lemma str_all_app p (a b : string) : str_all p (a +:+ b) = str_all p a && str_all p b.
Proof. induction a as [|c a IH]; [done|]. rewrite str_app_cons. cbn [str_all]. by rewrite IH, andb_assoc. Qed.

Lemma str_all_impl (p q : ascii → bool) s : (∀ c, p c = true → q c = true) → str_all p s = true → str_all q s = true.
Proof. intros H. induction s as [|c s IH]; [done|]. cbn. rewrite !andb_true_iff. naive_solver. Qed.

Lemma str_all_mem p c s : str_all p s = true → p c = false → str_mem c s = false.
Proof.
  induction s as [|x s IH]; [done|]. cbn. intros [Hx Hs]%andb_true_iff Hc. rewrite (IH Hs Hc), orb_false_r.
  destruct (Ascii.eqb_spec x c) as [->|]; [congruence|done].
Qed.

Ltac by_chars := intros [[][][][][][][][]]; (done || (vm_compute; congruence)).

Lemma plain_ascii c : plain c = true → is_ascii c = true.
Proof. revert c. by_chars. Qed.

Lemma plain_delim c : plain c = true → negb (is_delim c) = true.
Proof. revert c. by_chars. Qed.

Lemma plain_kept c : plain c = true → existsb (Ascii.eqb c) ["009"; "010"; "013"]%char = false.
Proof. revert c. by_chars. Qed.

Lemma plain_lower c : plain c = true → char_lower c = c.
Proof. revert c. by_chars. Qed.

Lemma digit_plain n : is_digit (digit n) = true.
Proof.
  unfold digit. assert (n mod 10 < 10)%N as H by (apply N.mod_lt; lia). generalize dependent (n mod 10)%N.
  intros m Hm. assert (m ∈ [0;1;2;3;4;5;6;7;8;9]%N) as Hin by (rewrite !elem_of_cons; lia).
  clear Hm. revert m Hin. apply Forall_forall. by repeat constructor.
Qed.

Lemma decimal_digits k n : str_all is_digit (decimal k n) = true.
Proof.
  revert n. induction k as [|k IH]; intros n; [done|]. cbn [decimal]. rewrite str_all_app. cbn [str_all].
  rewrite digit_plain. by destruct (n <? 10)%N; rewrite ?IH.
Qed.

Lemma octet_digits n i : str_all is_digit (octet n i) = true.
Proof. apply decimal_digits. Qed.

Definition dotted (c : ascii) : bool := is_digit c || Ascii.eqb c ".".

Lemma v4_dotted n : str_all dotted (v4_text n) = true.
Proof.
  unfold v4_text. cbn [str_join]. rewrite !str_all_app. cbn [str_all].
  assert (∀ i, str_all dotted (octet n i) = true) as H.
  { intros i. apply (str_all_impl is_digit); [by intros c; unfold dotted; intros ->|apply octet_digits]. }
  by rewrite !H.
Qed.

Lemma dotted_plain s : str_all dotted s = true → str_all plain s = true.
Proof. apply str_all_impl. unfold dotted, plain. intros c. cbn. destruct (is_digit c), (Ascii.eqb c "."); naive_solver. Qed.

Lemma span_until_app stop (a b : string) :
  str_all (λ c, negb (stop c)) a = true → (match b with String c _ => stop c = true | EmptyString => True end) →
  span_until stop (a +:+ b) = (a, b).
Proof.
  intros Ha Hb. induction a as [|c a IH].
  - rewrite str_app_nil_l. destruct b as [|c b]; cbn; [done|by rewrite Hb].
  - cbn in Ha. apply andb_true_iff in Ha as [Hc%negb_true_iff Ha]. rewrite str_app_cons. cbn. by rewrite Hc, (IH Ha).
Qed.

Lemma remove_breaks_app (a b : string) : remove_breaks (a +:+ b) = remove_breaks a +:+ remove_breaks b.
Proof.
  induction a as [|c a IH]; [done|]. rewrite str_app_cons. cbn [remove_breaks]. rewrite IH.
  destruct (existsb _ _); [done|]. by rewrite str_app_cons.
Qed.

Lemma remove_breaks_plain a : str_all plain a = true → remove_breaks a = a.
Proof.
  induction a as [|c a IH]; [done|]. cbn [str_all remove_breaks]. intros [Hc Ha]%andb_true_iff.
  by rewrite (plain_kept c Hc), (IH Ha).
Qed.

Lemma lower_plain a : str_all plain a = true → str_lower a = a.
Proof.
  unfold str_lower. induction a as [|c a IH]; [done|]. cbn. intros [Hc Ha]%andb_true_iff. by rewrite (plain_lower c Hc), (IH Ha).
Qed.

(** The text after the location of an unparsed URL begins with a delimiter. *)
Definition tail_ok (b : string) : Prop := match b with String c _ => is_delim c = true | EmptyString => True end.

Lemma tail_ok_breaks b : tail_ok b → tail_ok (remove_breaks b).
Proof.
  destruct b as [|c b]; [done|]. cbn [tail_ok]. intros H. cbn [remove_breaks].
  assert (existsb (Ascii.eqb c) ["009"; "010"; "013"]%char = false) as -> by (revert c H; by_chars). done.
Qed.

Lemma tail_ok_joined sep a b (n : string) :
  is_delim sep = true → (∃ t, a = n +:+ t ∧ tail_ok t) → ∃ t, joined sep a b = n +:+ t ∧ tail_ok t.
Proof.
  intros Hs (t&->&Ht). unfold joined. destruct (str_empty b); [by exists t|]. exists (t +:+ String sep b).
  rewrite str_app_assoc. split; [done|]. by destruct t.
Qed.

Lemma urlunparse_shape p : ∃ t, urlunparse p = (scheme p +:+ "://" +:+ netloc p) +:+ t ∧ tail_ok t.
Proof.
  unfold urlunparse. set (path := if negb _ && _ then _ else _).
  assert (tail_ok path) as Hp.
  { unfold path. destruct (joined ";" (p_path p) (p_params p)) as [|c s]; [done|]. cbn [str_empty negb andb].
    destruct (str_startswith "/" (String c s)) eqn:E; cbn [negb]; [|done].
    apply str_startswith_true in E as [b E]. rewrite str_app_cons in E. injection E as -> _. done. }
  do 2 (apply tail_ok_joined; [done|]). exists path. by rewrite !str_app_assoc.
Qed.

Ltac by_scheme H := rewrite !elem_of_cons, elem_of_nil in H; destruct H as [-> | [-> | []]]; reflexivity.

Section pinned.
Context (nfkc lower : string → string) (bracketed_ok : string → bool).

Lemma urlparse_location sch n t :
  sch ∈ ["http"; "https"] → str_all plain n = true → tail_ok t →
  ∃ q, urlparse nfkc bracketed_ok ((sch +:+ "://" +:+ n) +:+ t) = Some q ∧ scheme q = sch ∧ netloc q = n.
Proof.
  intros Hsch Hn Ht%tail_ok_breaks. rewrite !str_app_assoc. unfold urlparse.
  assert (remove_breaks (lstrip_c0 (sch +:+ "://" +:+ n +:+ t)) = sch +:+ "://" +:+ n +:+ remove_breaks t) as ->.
  { assert (lstrip_c0 (sch +:+ "://" +:+ n +:+ t) = sch +:+ "://" +:+ n +:+ t) as -> by by_scheme Hsch.
    rewrite !remove_breaks_app, (remove_breaks_plain n Hn). by_scheme Hsch. }
  assert (split_scheme (sch +:+ "://" +:+ n +:+ remove_breaks t) = (sch, "//" +:+ n +:+ remove_breaks t)) as ->.
  { by_scheme Hsch. }
  unfold split_netloc. rewrite str_startswith_app. change (str_drop 2 ("//" +:+ n +:+ remove_breaks t)) with (n +:+ remove_breaks t).
  rewrite span_until_app; [|by eapply str_all_impl, Hn; apply plain_delim|exact Ht].
  rewrite !(str_all_mem plain _ n) by done. cbn [xorb andb].
  destruct (partition "#" (remove_breaks t)) as [u frag]. destruct (partition "?" u) as [path query].
  unfold netloc_ok. rewrite (str_all_impl plain is_ascii n plain_ascii Hn).
  destruct (if bool_decide _ then _ else _) as [path' params]. by eexists.
Qed.

(** Any reader of the pinned URL finds the pinned address. *)
Lemma pinned_hostname q ip p :
  netloc q = v4_text ip ∨ netloc q = v4_text ip +:+ ":" +:+ decimal 5 p → hostname lower q = v4_text ip.
Proof.
  intros Hq. pose proof (v4_dotted ip) as Hd. pose proof (dotted_plain _ Hd) as Hp.
  assert (str_all plain (netloc q) = true) as Hn.
  { destruct Hq as [-> | ->]; [done|]. rewrite !str_all_app, Hp.
    apply (str_all_impl is_digit plain); [intros c; unfold plain; by intros ->|apply decimal_digits]. }
  assert ((hostinfo q).1 = v4_text ip) as Hh.
  { unfold hostinfo, after_last. unfold str_split. rewrite str_split_max_plain by by apply (str_all_mem plain).
    cbn [last default]. unfold id at 1. rewrite (proj2 (str_cut_None "[" _)) by by apply (str_all_mem plain). unfold partition, id.
    destruct Hq as [-> | ->].
    - by rewrite (proj2 (str_cut_None ":" _)) by by apply (str_all_mem dotted).
    - assert (":" +:+ decimal 5 p = String ":" (decimal 5 p)) as -> by reflexivity. by rewrite str_cut_app by by apply (str_all_mem dotted). }
  unfold hostname. rewrite Hh, (proj2 (str_cut_None "%" _)) by by apply (str_all_mem dotted).
  unfold lower_text. rewrite (str_all_impl plain is_ascii _ plain_ascii Hp). by apply lower_plain.
Qed.
End pinned.

(** ** Correctness *)

Section correctness.
Context (nfkc lower upper : string → string) (bracketed_ok : string → bool).
Context (resolve : string → lookup_result) (resolve_v4 : string → option (list N)) (client : request → response).

(** A name the guard lets through *)
Definition public_name (host : string) : Prop :=
  host ≠ "" ∧ (lower_text lower host ∉ _BLOCKED_HOSTNAMES) ∧
  match resolve host with
  | GaiError => True
  | Found addresses => ∀ a, Some a ∈ addresses → is_private a = false
  | LookupRaised => False
  end.

(** The second lookup finds nothing but what the first found. *)
Definition stable : Prop :=
  ∀ host ips ip, resolve_v4 host = Some ips → ip ∈ ips →
    match resolve host with Found addresses => Some (V4 ip) ∈ addresses | _ => False end.

Lemma private_url_false url parsed :
  urlparse nfkc bracketed_ok url = Some parsed → _is_private_url nfkc lower bracketed_ok resolve url = Some false →
  public_name (hostname lower parsed).
Proof.
  intros Hp. unfold _is_private_url. rewrite Hp. unfold public_name.
  destruct (hostname lower parsed) as [|c h]; [done|]. cbn [str_empty]. case_bool_decide as Hb; [done|].
  destruct (resolve _) as [l| |]; [|by intros; split_and!|done]. intros [= Hl]. split_and!; [done..|].
  intros a Ha. apply not_true_is_false. intros Ht.
  assert (existsb is_private (omap id l) = true); [|congruence]. apply existsb_exists. exists a. split; [|done].
  apply list_elem_of_In, list_elem_of_omap. by exists (Some a).
Qed.

(** A name that is looked up again: not one of the three spellings of this host *)
Definition looked_up (host : string) : bool := negb (bool_decide (host ∈ ["localhost"; "127.0.0.1"; "::1"])).

Definition pinned_netloc (ip : N) (p : option N) : string :=
  match p with
  | Some p => if (p =? 0)%N then v4_text ip else v4_text ip +:+ ":" +:+ decimal 5 p
  | None => v4_text ip
  end.

Lemma pinned_netloc_spec ip p :
  ∃ k, pinned_netloc ip p = v4_text ip ∨ pinned_netloc ip p = v4_text ip +:+ ":" +:+ decimal 5 k.
Proof.
  destruct p as [p|]; [|by exists 0%N; left]. unfold pinned_netloc. destruct (p =? 0)%N; [by exists 0%N; left|by exists p; right].
Qed.

(** Where a pinned request goes, and under which name *)
Lemma pin_first parsed url headers ip ips p :
  urlparse nfkc bracketed_ok url = Some parsed → scheme parsed ∈ ["http"; "https"] →
  hostname lower parsed ≠ "" → looked_up (hostname lower parsed) = true →
  resolve_v4 (hostname lower parsed) = Some (ip :: ips) → port parsed = Some p →
  (∃ q, urlparse nfkc bracketed_ok (pin lower resolve_v4 parsed url headers).1 = Some q ∧ scheme q = scheme parsed ∧
     netloc q = pinned_netloc ip p ∧ hostname lower q = v4_text ip) ∧
  ∀ items, headers = VDict items →
    (pin lower resolve_v4 parsed url headers).2 =
      VDict (match dict_get "Host" items with
             | None => dict_set "Host" (VStr (hostname lower parsed)) items
             | Some _ => items
             end).
Proof.
  intros Hp Hs Hne Hl Hr Hport. unfold pin, looked_up in *.
  assert (str_empty (hostname lower parsed) = false) as He by by destruct (hostname lower parsed).
  rewrite He, Hr, Hport. destruct (bool_decide _); [done|]. cbn [orb fst snd]. split.
  - fold (pinned_netloc ip p). destruct (pinned_netloc_spec ip p) as (k&Hn).
    match goal with |- context [urlunparse ?p] => destruct (urlunparse_shape p) as (t&->&Ht) end. cbn [scheme netloc].
    destruct (urlparse_location nfkc bracketed_ok (scheme parsed) (pinned_netloc ip p) t) as (q'&Hq&Hsq&Hnq); [done| |done|].
    { destruct Hn as [-> | ->]; [apply dotted_plain, v4_dotted|]. rewrite !str_all_app, (dotted_plain _ (v4_dotted ip)).
      apply (str_all_impl is_digit plain); [intros c; unfold plain; by intros ->|apply decimal_digits]. }
    exists q'. split_and!; [done..|]. apply (pinned_hostname lower q' ip k). by rewrite Hnq.
  - intros items ->. by destruct (dict_get "Host" items).
Qed.

Lemma pin_none parsed url headers :
  looked_up (hostname lower parsed) = false ∨ resolve_v4 (hostname lower parsed) = None ∨
  resolve_v4 (hostname lower parsed) = Some [] ∨ port parsed = None →
  pin lower resolve_v4 parsed url headers = (url, headers).
Proof.
  unfold pin, looked_up. intros [H|[H|[H|H]]].
  - destruct (bool_decide _); [|done]. by rewrite orb_true_r.
  - rewrite H. by destruct (_ || _).
  - rewrite H. by destruct (_ || _).
  - rewrite H. destruct (_ || _); [done|]. by destruct (resolve_v4 _) as [[]|].
Qed.

Lemma stable_public host ip ips :
  public_name host → resolve_v4 host = Some (ip :: ips) → stable → is_private (V4 ip) = false.
Proof.
  intros (_&_&Hpub) Hr Hst. specialize (Hst host (ip :: ips) ip Hr ltac:(by left)).
  destruct (resolve host); [|done|done]. by apply Hpub.
Qed.

(** [arguments.get("headers") or {}] *)
Definition given_headers (arguments : list (string * pyval)) : pyval :=
  if py_truth (opt_arg "headers" arguments) then opt_arg "headers" arguments else VDict [].

(** What the checks before a request have established *)
Lemma api_call_sent arguments r out :
  api_call nfkc lower upper bracketed_ok resolve resolve_v4 client arguments = (Some r, out) →
  ∃ url parsed, str_arg "url" "" arguments = Ok url ∧ urlparse nfkc bracketed_ok (py_strip url) = Some parsed ∧
    scheme parsed ∈ ["http"; "https"] ∧ rq_method r ∈ _ALLOWED_METHODS ∧
    _is_private_url nfkc lower bracketed_ok resolve (py_strip url) = Some false ∧
    (rq_url r, rq_headers r) = pin lower resolve_v4 parsed (py_strip url) (given_headers arguments).
Proof.
  unfold api_call. destruct (str_arg "url" "" arguments) as [url|]; [|done]. destruct (str_empty _); [done|].
  destruct (urlparse _ _ _) as [parsed|] eqn:Hp; [|done]. case_bool_decide as Hs; [|done].
  destruct (str_arg "method" "GET" arguments) as [method|]; [|done]. case_bool_decide as Hm; [|done].
  destruct (_is_private_url _ _ _ _ _) as [[]|] eqn:Hg; [done| |done]. fold (given_headers arguments).
  destruct (pin lower resolve_v4 parsed (py_strip url) _) as [url' headers'] eqn:Hpin. intros [= <- _].
  exists url, parsed. by split_and!.
Qed.
End correctness.

(** ** Samples *)

Definition sample_call (resolve : string → lookup_result) (resolve_v4 : string → option (list N)) (url : string)
    : option request * res request_exn ToolResult :=
  api_call id id id (λ _, true) resolve resolve_v4 (λ _, Answer 200 "ok") [("url", VStr url)].

Definition sent_url (c : option request * res request_exn ToolResult) : option string := rq_url <$> c.1.

Definition always (addresses : list ip_addr) (_ : string) : lookup_result := Found (map Some addresses).

Example pinned_sample :
  sent_url (sample_call (always [V4 (v4 93 184 216 34)]) (λ _, Some [v4 93 184 216 34]) "HTTP://user@Example.com:8080/a/b;c?d#e")
    = Some "http://93.184.216.34:8080/a/b;c?d#e".
Proof. vm_compute. reflexivity. Qed.

Example private_refused : sent_url (sample_call (always [V4 (v4 10 0 0 7)]) (λ _, Some [v4 10 0 0 7]) "http://intranet/") = None.
Proof. vm_compute. reflexivity. Qed.

(** The address that is pinned is the answer of a second lookup, which nobody
    checks: a name that changes between the two reaches the loopback interface. *)
Example rebinding :
  sent_url (sample_call (always [V4 (v4 93 184 216 34)]) (λ _, Some [v4 127 0 0 1]) "http://rebind.example/admin")
    = Some "http://127.0.0.1/admin".
Proof. vm_compute. reflexivity. Qed.

(** An IPv4 address in IPv6 clothes is in none of the networks, and has no
    IPv4 lookup: the request goes to the loopback interface as it is. *)
Example mapped_loopback :
  sent_url (sample_call (always [V6 (N.shiftl 65535 32 + v4 127 0 0 1)]) (λ _, None) "http://[::ffff:127.0.0.1]/admin")
    = Some "http://[::ffff:127.0.0.1]/admin".
Proof. vm_compute. reflexivity. Qed.

(** The unspecified address is blocked by one of its spellings only. *)
Example unspecified_address :
  sent_url (sample_call (always [V4 0]) (λ _, Some [0%N]) "http://0/admin") = Some "http://0.0.0.0/admin".
Proof. vm_compute. reflexivity. Qed.

(** ** The guarantee *)

(** C13: a request is sent only over HTTP, with one of the five methods, for a URL
    whose name is not blocked and none of whose addresses, at the check, is
    private.  Unless the name is localhost, 127.0.0.1 or ::1, has no IPv4 address
    at the second lookup or the URL's port is malformed, when the URL and headers
    are sent as given, the request goes to the first address of the second
    lookup, at the same port, with the name in the Host header where none is
    given; and that address is public too if the second lookup of the name agrees
    with the first. *)
Theorem api_call_public nfkc lower upper bracketed_ok resolve resolve_v4 client arguments r out
    (Hsent : api_call nfkc lower upper bracketed_ok resolve resolve_v4 client arguments = (Some r, out)) :
  ∃ url parsed, str_arg "url" "" arguments = Ok url ∧ urlparse nfkc bracketed_ok (py_strip url) = Some parsed ∧
    scheme parsed ∈ ["http"; "https"] ∧ rq_method r ∈ _ALLOWED_METHODS ∧
    let host := hostname lower parsed in
    public_name lower resolve host ∧
    match looked_up host, resolve_v4 host, port parsed with
    | true, Some (ip :: _), Some p =>
        (∃ q, urlparse nfkc bracketed_ok (rq_url r) = Some q ∧ scheme q = scheme parsed ∧
           netloc q = pinned_netloc ip p ∧ hostname lower q = v4_text ip) ∧
        (∀ items, given_headers arguments = VDict items →
           rq_headers r = VDict (match dict_get "Host" items with
                                 | None => dict_set "Host" (VStr host) items
                                 | Some _ => items
                                 end)) ∧
        (stable resolve resolve_v4 → is_private (V4 ip) = false)
    | _, _, _ => rq_url r = py_strip url ∧ rq_headers r = given_headers arguments
    end.
Proof.
  apply api_call_sent in Hsent as (url&parsed&Hu&Hp&Hs&Hm&Hg&Hpin). exists url, parsed. split_and!; [done..|].
  pose proof (private_url_false _ _ _ _ _ _ Hp Hg) as Hpub. intros host. split; [done|].
  assert (rq_url r = (pin lower resolve_v4 parsed (py_strip url) (given_headers arguments)).1) as -> by by rewrite <-Hpin.
  assert (rq_headers r = (pin lower resolve_v4 parsed (py_strip url) (given_headers arguments)).2) as -> by by rewrite <-Hpin.
  destruct (looked_up host) eqn:Hl; [|by rewrite pin_none by auto].
  destruct (resolve_v4 host) as [[|ip ips]|] eqn:Hr; [by rewrite pin_none by auto| |by rewrite pin_none by auto].
  destruct (port parsed) as [p|] eqn:Hport; [|by rewrite pin_none by auto].
  destruct (pin_first nfkc lower bracketed_ok resolve_v4 parsed (py_strip url) (given_headers arguments) ip ips p)
    as [Hq Hh]; try done; [by destruct Hpub|]. split_and!; [done..|]. by eapply stable_public.
Qed.

(** A name with a port, pinned *)
Lemma api_call_public_witness :
  ∃ r, rq_url r = "https://93.184.216.34:8443/x" ∧ rq_headers r = VDict [("Host", VStr "example.com")] ∧
    is_private (V4 (v4 93 184 216 34)) = false.
Proof.
  exists {| rq_method := "GET"; rq_url := "https://93.184.216.34:8443/x"; rq_headers := VDict [("Host", VStr "example.com")];
            rq_params := None; rq_json := None |}.
  pose proof (api_call_public id id id (λ _, true) (always [V4 (v4 93 184 216 34)]) (λ _, Some [v4 93 184 216 34])
    (λ _, Answer 200 "ok") [("url", VStr "https://Example.com:8443/x")] _ _ ltac:(vm_compute; reflexivity))
    as (url&parsed&Hu&Hp&_&_&_&H).
  split; [reflexivity|]. split; [reflexivity|]. vm_compute in Hu. injection Hu as <-. vm_compute in Hp. injection Hp as <-.
  refine (proj2 (proj2 H) _). intros host ips ip [= <-] Hip. apply list_elem_of_singleton in Hip as ->. by left.
Defined.
