(* ===== verification/Base58.v ===== *)
(** * Base58: base58btc and multibase encodings

    Models [identity/_base58.py] and the multibase helpers of
    [identity/signer.py].  Byte strings are [list Byte.byte], Python integers
    are [N] (both functions only handle non-negative ones).  The [while]
    loop of the encoder runs on fuel; [b58_loop_digits] shows that the fuel
    supplied by [b58encode], the bit size of the number, always suffices. *)

From Stdlib Require Import Ascii NArith Lia.
From Stdlib Require Strings.Byte.
From stdpp Require Import base tactics list strings numbers.
From S2P Require Import Prelude.

#[local] Open Scope N_scope.

#[export] Instance byte_eq_dec : EqDecision Byte.byte := Strings.Byte.byte_eq_dec.

(** ** The code *)

Inductive codec_error := ValueError | SignatureError | OverflowError.

Definition _ALPHABET : list Ascii.ascii :=
  str_chars "123456789ABCDEFGHJKLMNPQRSTUVWXYZabcdefghijkmnopqrstuvwxyz".

(** [_ALPHABET[i]]; every index the encoder uses is below 58. *)
Definition alphabet_at (i : N) : Ascii.ascii :=
  nth (N.to_nat i) _ALPHABET Ascii.zero.

(** [_ALPHABET_MAP.get(c)] *)
Fixpoint index_of (c : Ascii.ascii) (l : list Ascii.ascii) (i : N) : option N :=
  match l with
  | [] => None
  | x :: l => if Ascii.eqb x c then Some i else index_of c l (i + 1)
  end.
Definition _ALPHABET_MAP (c : Ascii.ascii) : option N := index_of c _ALPHABET 0.

(** [int.from_bytes(data, "big")] *)
Definition int_from_bytes (data : list Byte.byte) : N :=
  fold_left (λ acc b, acc * 256 + Byte.to_N b) data 0.

Definition byte_of_N (n : N) : Byte.byte :=
  match Byte.of_N (n mod 256) with Some b => b | None => Byte.x00 end.

Fixpoint to_bytes_be (len : nat) (n : N) : list Byte.byte :=
  match len with
  | O => []
  | S len => to_bytes_be len (n / 256) ++ [byte_of_N n]
  end.

(** [num.to_bytes(len, "big")], which raises when the number does not fit *)
Definition int_to_bytes (len : nat) (n : N) : res codec_error (list Byte.byte) :=
  if n <? 256 ^ N.of_nat len then Ok (to_bytes_be len n) else Err OverflowError.

(** The loops that count leading zero bytes and leading ['1'] characters *)
Fixpoint leading_zeros (data : list Byte.byte) : nat :=
  match data with
  | Byte.x00 :: l => S (leading_zeros l)
  | _ => O
  end.

Fixpoint leading_ones (s : string) : nat :=
  match s with
  | String c s => if Ascii.eqb c (alphabet_at 0) then S (leading_ones s) else O
  | EmptyString => O
  end.

(** [while num > 0: num, rem = divmod(num, 58); out = _ALPHABET[rem] + out] *)
Fixpoint b58_loop (fuel : nat) (num : N) (out : string) : string :=
  match fuel with
  | O => out
  | S fuel =>
      if num =? 0 then out
      else b58_loop fuel (num / 58) (String (alphabet_at (num mod 58)) out)
  end.

(** [c * n] on a one-character string *)
Fixpoint str_repeat (c : Ascii.ascii) (n : nat) : string :=
  match n with
  | O => ""
  | S n => String c (str_repeat c n)
  end.

Definition b58encode (data : list Byte.byte) : string :=
  match data with
  | [] => ""
  | _ =>
      let num := int_from_bytes data in
      str_repeat (alphabet_at 0) (leading_zeros data)
        +:+ b58_loop (N.size_nat num) num ""
  end.

(** [for ch in encoded: ... num = num * 58 + _ALPHABET_MAP[ch]] *)
Fixpoint b58_accumulate (s : string) (num : N) : res codec_error N :=
  match s with
  | EmptyString => Ok num
  | String ch s =>
      match _ALPHABET_MAP ch with
      | None => Err ValueError
      | Some d => b58_accumulate s (num * 58 + d)
      end
  end.

Definition b58decode (encoded : string) : res codec_error (list Byte.byte) :=
  match encoded with
  | EmptyString => Ok []
  | _ =>
      num <~ b58_accumulate encoded 0;
      body <~ (if num =? 0 then Ok []
                else int_to_bytes (N.to_nat ((N.size num + 7) / 8)) num);
      Ok (replicate (leading_ones encoded) Byte.x00 ++ body)
  end.

(** [signer.encode_multibase] and [signer.decode_multibase] *)
Definition _MULTIBASE_BTC : Ascii.ascii := "z"%char.

Definition encode_multibase (raw : list Byte.byte) : string :=
  String _MULTIBASE_BTC (b58encode raw).

Definition decode_multibase (encoded : string) : res codec_error (list Byte.byte) :=
  match encoded with
  | EmptyString => Err SignatureError
  | String c body =>
      if Ascii.eqb c _MULTIBASE_BTC then b58decode body else Err SignatureError
  end.

Example b58encode_hello :
  b58encode (Byte.x00 :: String.list_byte_of_string "Hello World!")
  = "12NEpo7TZRRrLZSi2U".
Proof. vm_compute. reflexivity. Qed.
Example b58decode_hello :
  b58decode "12NEpo7TZRRrLZSi2U"
  = Ok (Byte.x00 :: String.list_byte_of_string "Hello World!").
Proof. vm_compute. reflexivity. Qed.

(** ** Positional notation

    [value b ds] is the number written by the digits [ds], most significant
    first, in base [b].  A digit list is [normal] when it has no leading
    zero; normal digit lists are unique. *)

Definition value (b : N) (ds : list N) : N :=
  fold_left (λ acc d, acc * b + d) ds 0.

Definition normal (ds : list N) : Prop :=
  match ds with [] => True | d :: _ => d ≠ 0 end.

Fixpoint digits (b : N) (fuel : nat) (n : N) (out : list N) : list N :=
  match fuel with
  | O => out
  | S fuel =>
      if n =? 0 then out else digits b fuel (n / b) (n mod b :: out)
  end.

Section positional.
Context (b : N) (Hb : 2 ≤ b).

Lemma value_snoc ds d : value b (ds ++ [d]) = value b ds * b + d.
Proof. unfold value. by rewrite fold_left_app. Qed.

Lemma value_zeros k ds : value b (replicate k 0 ++ ds) = value b ds.
Proof.
  unfold value. rewrite fold_left_app. f_equal.
  induction k as [|k IH]; [done|]. cbn. apply IH.
Qed.

Lemma value_pos ds : normal ds → ds ≠ [] → 0 < value b ds.
Proof.
  induction ds as [|d ds IH] using rev_ind; [done|]. intros Hn _.
  rewrite value_snoc. destruct ds as [|d' ds]; cbn in Hn.
  - cbn. lia.
  - assert (0 < value b (d' :: ds)) by by apply IH. nia.
Qed.

Lemma normal_prefix ds d : normal (ds ++ [d]) → normal ds.
Proof. by destruct ds. Qed.

Lemma mod_digit v d : d < b → (v * b + d) mod b = d.
Proof. intros. rewrite N.add_comm, N.Div0.mod_add. by apply N.mod_small. Qed.

Lemma value_inj ds1 ds2 :
  Forall (λ d, d < b) ds1 → Forall (λ d, d < b) ds2 →
  normal ds1 → normal ds2 → value b ds1 = value b ds2 → ds1 = ds2.
Proof.
  revert ds2. induction ds1 as [|d1 ds1 IH] using rev_ind;
    intros ds2 H1 H2 Hn1 Hn2 Hv; destruct ds2 as [|d2 ds2 _] using rev_ind.
  - done.
  - assert (0 < value b (ds2 ++ [d2])) by (apply value_pos; [done|by destruct ds2]).
    cbn in Hv. lia.
  - assert (0 < value b (ds1 ++ [d1])) by (apply value_pos; [done|by destruct ds1]).
    cbn in Hv. lia.
  - rewrite !value_snoc in Hv.
    rewrite Forall_app, Forall_singleton in H1, H2.
    destruct H1 as [H1 Hd1], H2 as [H2 Hd2].
    assert (d1 = d2) as ->.
    { assert (Hm := f_equal (λ x, x mod b) Hv). cbn beta in Hm.
      rewrite !mod_digit in Hm by done. exact Hm. }
    f_equal. apply IH; [done|done|by eapply normal_prefix|by eapply normal_prefix|nia].
Qed.

Lemma digits_app fuel n out : digits b fuel n out = digits b fuel n [] ++ out.
Proof.
  revert n out. induction fuel as [|fuel IH]; intros n out; [done|]. cbn.
  destruct (n =? 0); [done|]. rewrite IH, (IH _ [_]). by rewrite <-app_assoc.
Qed.

(** Enough fuel: the bit size of the number. *)
Lemma digits_spec fuel n :
  n < 2 ^ N.of_nat fuel →
  value b (digits b fuel n []) = n ∧
  Forall (λ d, d < b) (digits b fuel n []) ∧ normal (digits b fuel n []).
Proof.
  revert n. induction fuel as [|fuel IH]; intros n Hn.
  { cbn in Hn. assert (n = 0) as -> by lia. done. }
  cbn [digits]. destruct (N.eqb_spec n 0) as [->|Hn0]; [done|].
  rewrite digits_app.
  assert (n / b < 2 ^ N.of_nat fuel) as Hlt.
  { apply N.Div0.div_lt_upper_bound. rewrite Nat2N.inj_succ, N.pow_succ_r' in Hn.
    eapply N.lt_le_trans; [exact Hn|]. by apply N.mul_le_mono_r. }
  destruct (IH _ Hlt) as (Hv & Hf & Hnorm). rewrite value_snoc, Hv. split_and!.
  - pose proof (N.div_mod n b). lia.
  - apply Forall_app. split; [done|]. apply Forall_singleton, N.mod_lt. lia.
  - destruct (digits b fuel (n / b) []) as [|d ds] eqn:E; [|done]. cbn.
    cbn in Hv. symmetry in Hv. apply N.div_small_iff in Hv; [|lia].
    by rewrite N.mod_small.
Qed.
End positional.

Lemma size_nat_fuel n : n < 2 ^ N.of_nat (N.size_nat n).
Proof.
  assert (N.of_nat (N.size_nat n) = N.size n) as ->.
  { destruct n as [|p]; [done|]. cbn. induction p; cbn; lia. }
  apply N.size_gt.
Qed.

(** ** Bytes and characters as digits *)

Definition bytes_digits (data : list Byte.byte) : list N := map Byte.to_N data.

Definition string_of_digits (ds : list N) : string :=
  String.string_of_list_ascii (map alphabet_at ds).

Fixpoint lead0 (ds : list N) : nat :=
  match ds with
  | 0 :: ds => S (lead0 ds)
  | _ => O
  end.

Lemma lead0_split ds : ∃ rest, ds = replicate (lead0 ds) 0 ++ rest ∧ normal rest.
Proof.
  induction ds as [|d ds (rest & IH & Hn)]; [by exists []|].
  destruct (decide (d = 0)) as [->|Hd].
  - exists rest. cbn. by rewrite <-IH.
  - exists (d :: ds). by destruct d.
Qed.

Lemma lead0_replicate k ds : normal ds → lead0 (replicate k 0 ++ ds) = k.
Proof. intros Hn. induction k as [|k IH]; cbn; [by destruct ds as [|[]]|by rewrite IH]. Qed.

Lemma byte_to_N_lt (x : Byte.byte) : Byte.to_N x < 256.
Proof. pose proof (Strings.Byte.to_N_bounded x). lia. Qed.

Lemma byte_of_to_N (x : Byte.byte) : byte_of_N (Byte.to_N x) = x.
Proof.
  unfold byte_of_N. rewrite N.mod_small by apply byte_to_N_lt.
  by rewrite Strings.Byte.of_to_N.
Qed.

Lemma to_N_byte_of (n : N) : n < 256 → Byte.to_N (byte_of_N n) = n.
Proof.
  intros Hn. unfold byte_of_N. rewrite N.mod_small by done.
  destruct (Byte.of_N n) eqn:E; [by apply Strings.Byte.to_of_N|].
  apply Strings.Byte.of_N_None_iff in E. lia.
Qed.

Lemma bytes_digits_inj d1 d2 : bytes_digits d1 = bytes_digits d2 → d1 = d2.
Proof.
  revert d2. induction d1 as [|x d1 IH]; intros [|y d2] E; try done.
  injection E as Ex E. apply (f_equal byte_of_N) in Ex.
  rewrite !byte_of_to_N in Ex. by rewrite Ex, (IH _ E).
Qed.

Lemma bytes_digits_lt data : Forall (λ d, d < 256) (bytes_digits data).
Proof. unfold bytes_digits. induction data; constructor; [apply byte_to_N_lt|done]. Qed.

Lemma int_from_bytes_value data : int_from_bytes data = value 256 (bytes_digits data).
Proof.
  unfold int_from_bytes, value, bytes_digits. generalize 0.
  induction data as [|x data IH]; intros acc; [done|]. apply IH.
Qed.

Lemma leading_zeros_lead0 data : leading_zeros data = lead0 (bytes_digits data).
Proof. induction data as [|x data IH]; [done|]. destruct x; cbn; by rewrite ?IH. Qed.

Lemma bytes_digits_replicate k data :
  bytes_digits (replicate k Byte.x00 ++ data) = replicate k 0 ++ bytes_digits data.
Proof. induction k; cbn; by f_equal. Qed.

Lemma to_bytes_be_value len n :
  n < 256 ^ N.of_nat len →
  value 256 (bytes_digits (to_bytes_be len n)) = n ∧
  length (to_bytes_be len n) = len.
Proof.
  revert n. induction len as [|len IH]; intros n Hn; [cbn in Hn |- *; lia|].
  rewrite Nat2N.inj_succ, N.pow_succ_r' in Hn.
  assert (n / 256 < 256 ^ N.of_nat len) as Hlt by by apply N.Div0.div_lt_upper_bound.
  destruct (IH _ Hlt) as [Hv Hl]. cbn [to_bytes_be].
  unfold bytes_digits in *. rewrite map_app. cbn [map]. rewrite value_snoc, Hv, length_app, Hl. cbn [length].
  split; [|lia]. pose proof (N.div_mod n 256). pose proof (N.mod_lt n 256).
  unfold byte_of_N. rewrite <-(N.mod_small (n mod 256) 256) at 1 by lia.
  fold (byte_of_N (n mod 256)). rewrite to_N_byte_of; lia.
Qed.

Lemma value_lt b ds :
  2 ≤ b → Forall (λ d, d < b) ds → value b ds < b ^ N.of_nat (length ds).
Proof.
  intros Hb. induction ds as [|d ds IH] using rev_ind; [cbn; lia|].
  intros [Hf Hd]%Forall_app. inversion Hd; subst.
  rewrite value_snoc, length_app, Nat.add_comm. cbn [length Nat.add].
  rewrite Nat2N.inj_succ, N.pow_succ_r'. specialize (IH Hf). nia.
Qed.

Lemma value_big_normal b ds :
  2 ≤ b → Forall (λ d, d < b) ds →
  b ^ N.of_nat (pred (length ds)) ≤ value b ds → normal ds.
Proof.
  intros Hb Hf Hv. destruct ds as [|d ds]; [done|]. intros ->.
  apply Forall_inv_tail in Hf. pose proof (value_lt b ds Hb Hf) as Hlt.
  change (value b (0 :: ds)) with (value b ds) in Hv. cbn [length pred] in Hv. lia.
Qed.

Lemma bytes_for_bits s : s ≤ 8 * ((s + 7) / 8) ∧ 8 * ((s + 7) / 8 - 1) ≤ s - 1.
Proof.
  assert (Hd := N.div_mod (s + 7) 8 ltac:(done)).
  assert (Hm := N.mod_lt (s + 7) 8 ltac:(done)).
  revert Hd Hm. generalize ((s + 7) / 8), ((s + 7) mod 8). intros q r. lia.
Qed.

(** The byte length the decoder computes, [(bit_length + 7) // 8], is enough
    and leaves no leading zero byte. *)
Lemma minimal_bytes n :
  0 < n →
  ∃ body, int_to_bytes (N.to_nat ((N.size n + 7) / 8)) n = Ok body ∧
    value 256 (bytes_digits body) = n ∧ normal (bytes_digits body).
Proof.
  intros Hn. set (L := (N.size n + 7) / 8).
  assert (n < 256 ^ L) as Hlt.
  { eapply N.lt_le_trans; [apply N.size_gt|]. change 256 with (2 ^ 8).
    rewrite <-N.pow_mul_r. apply N.pow_le_mono_r; [done|]. apply bytes_for_bits. }
  assert (256 ^ (L - 1) ≤ n) as Hge.
  { pose proof (N.size_le n). change 256 with (2 ^ 8). rewrite <-N.pow_mul_r.
    assert (8 * (L - 1) ≤ N.size n - 1) by apply bytes_for_bits.
    assert (2 ^ (8 * (L - 1)) ≤ 2 ^ (N.size n - 1)) by by apply N.pow_le_mono_r.
    assert (N.size n ≠ 0) by (by destruct n; [lia|]).
    assert (2 ^ N.size n = 2 * 2 ^ (N.size n - 1)).
    { rewrite <-N.pow_succ_r'. f_equal. lia. }
    rewrite N.succ_double_spec in *. lia. }
  exists (to_bytes_be (N.to_nat L) n). unfold int_to_bytes.
  destruct (to_bytes_be_value (N.to_nat L) n) as [Hv Hl]; [by rewrite N2Nat.id|].
  rewrite N2Nat.id. split_and!.
  - by apply N.ltb_lt in Hlt as ->.
  - done.
  - apply (value_big_normal 256); [done|apply bytes_digits_lt|].
    rewrite Hv. unfold bytes_digits. rewrite length_map, Hl.
    replace (N.of_nat (pred (N.to_nat L))) with (L - 1) by lia. done.
Qed.

Lemma alphabet_map_at d : d < 58 → _ALPHABET_MAP (alphabet_at d) = Some d.
Proof.
  intros Hd. assert (Hall : forallb (λ i, bool_decide (_ALPHABET_MAP (alphabet_at
    (N.of_nat i)) = Some (N.of_nat i))) (seq 0 58) = true) by by vm_compute.
  rewrite forallb_forall in Hall. specialize (Hall (N.to_nat d)).
  rewrite N2Nat.id, in_seq in Hall. apply (bool_decide_eq_true_1 _), Hall. lia.
Qed.

Lemma index_of_Some c l i d :
  index_of c l i = Some d →
  i ≤ d ∧ d < i + N.of_nat (length l) ∧ nth (N.to_nat (d - i)) l Ascii.zero = c.
Proof.
  revert i. induction l as [|x l IH]; intros i H; [done|]. cbn in H.
  destruct (Ascii.eqb_spec x c) as [->|].
  - simplify_eq. rewrite N.sub_diag. cbn. split_and!; [lia|lia|done].
  - apply IH in H as (?&?&<-). cbn [length]. split_and!; [lia|lia|].
    replace (N.to_nat (d - i)) with (S (N.to_nat (d - (i + 1)))) by lia. done.
Qed.

Lemma index_of_None c l i : index_of c l i = None → c ∉ l.
Proof.
  revert i. induction l as [|x l IH]; intros i H; [apply not_elem_of_nil|]. cbn in H.
  destruct (Ascii.eqb_spec x c) as [->|]; [done|].
  apply not_elem_of_cons. split; [done|by eapply IH].
Qed.

Lemma alphabet_at_map c d : _ALPHABET_MAP c = Some d → d < 58 ∧ alphabet_at d = c.
Proof.
  intros (?&?&Hn)%index_of_Some. rewrite N.sub_0_r in Hn. by split.
Qed.

Lemma string_of_digits_cons d ds :
  string_of_digits (d :: ds) = String (alphabet_at d) (string_of_digits ds).
Proof. done. Qed.

Lemma string_of_digits_app ds1 ds2 :
  string_of_digits (ds1 ++ ds2) = string_of_digits ds1 +:+ string_of_digits ds2.
Proof. 
  induction ds1 as [|d ds1 IH]; [done|].
  rewrite <-app_comm_cons, !string_of_digits_cons, str_app_cons. by rewrite IH.
Qed.

Lemma b58_loop_digits fuel n out :
  b58_loop fuel n out = string_of_digits (digits 58 fuel n []) +:+ out.
Proof.
  revert n out. induction fuel as [|fuel IH]; intros n out; [done|].
  cbn [b58_loop digits].
  destruct (n =? 0); [done|]. rewrite IH, (digits_app 58 _ _ [_]).
  by rewrite string_of_digits_app, str_app_assoc.
Qed.

Lemma str_repeat_digits k : str_repeat (alphabet_at 0) k = string_of_digits (replicate k 0).
Proof. induction k as [|k IH]; [done|]. cbn. by f_equal. Qed.

(** Every string of base58 characters is written by its digits. *)
Lemma b58_accumulate_digits s acc n :
  b58_accumulate s acc = Ok n ↔
  ∃ ds, s = string_of_digits ds ∧ Forall (λ d, d < 58) ds ∧
    n = fold_left (λ a d, a * 58 + d) ds acc.
Proof.
  revert acc. induction s as [|c s IH]; intros acc; cbn [b58_accumulate].
  - split; [intros [= <-]; by exists []|]. by intros ([|d ds]&?&_&->).
  - destruct (_ALPHABET_MAP c) as [d|] eqn:E.
    + apply alphabet_at_map in E as Hd. destruct Hd as [Hd <-].
      rewrite IH. split.
      * intros (ds&->&Hf&->). exists (d :: ds). split_and!; [done|by constructor|done].
      * intros ([|d' ds]&Hs&Hf&->); [done|]. injection Hs as Hs ->.
        apply Forall_cons_1 in Hf as [Hd' Hf]. apply (f_equal _ALPHABET_MAP) in Hs.
        rewrite !alphabet_map_at in Hs by done. simplify_eq. by exists ds.
    + split; [done|]. intros ([|d ds]&Hs&Hf&_); [done|]. injection Hs as -> ->.
      apply Forall_cons_1 in Hf as [Hd _]. by rewrite alphabet_map_at in E.
Qed.

Lemma leading_ones_lead0 ds :
  Forall (λ d, d < 58) ds → leading_ones (string_of_digits ds) = lead0 ds.
Proof.
  induction 1 as [|d ds Hd _ IH]; [done|].
  rewrite string_of_digits_cons. cbn [leading_ones].
  destruct (Ascii.eqb_spec (alphabet_at d) (alphabet_at 0)) as [E|E].
  - apply (f_equal _ALPHABET_MAP) in E. rewrite !alphabet_map_at in E by lia.
    simplify_eq. by rewrite IH.
  - destruct d; [done|done].
Qed.

Lemma digits_ext b ds1 ds2 :
  2 ≤ b → Forall (λ d, d < b) ds1 → Forall (λ d, d < b) ds2 →
  lead0 ds1 = lead0 ds2 → value b ds1 = value b ds2 → ds1 = ds2.
Proof.
  intros Hb H1 H2 Hl Hv.
  destruct (lead0_split ds1) as (r1&E1&Hn1), (lead0_split ds2) as (r2&E2&Hn2).
  rewrite Hl in E1. remember (lead0 ds2) as k eqn:Hk. clear Hk Hl. subst ds1 ds2.
  rewrite Forall_app in H1, H2. destruct H1 as [_ H1], H2 as [_ H2].
  rewrite !value_zeros in Hv. f_equal. exact (value_inj b Hb _ _ H1 H2 Hn1 Hn2 Hv).
Qed.

Lemma encode_digits data :
  ∃ ds, b58encode data = string_of_digits ds ∧ Forall (λ d, d < 58) ds ∧
    lead0 ds = lead0 (bytes_digits data) ∧ value 58 ds = value 256 (bytes_digits data).
Proof.
  destruct (decide (data = [])) as [->|Hne]; [by exists []|].
  set (n := value 256 (bytes_digits data)).
  destruct (digits_spec 58 ltac:(done) (N.size_nat n) n (size_nat_fuel n)) as (Hv&Hf&Hn).
  exists (replicate (lead0 (bytes_digits data)) 0 ++ digits 58 (N.size_nat n) n []).
  split_and!.
  - destruct data as [|x data]; [done|]. unfold b58encode.
    rewrite b58_loop_digits, str_app_nil_r, int_from_bytes_value, leading_zeros_lead0.
    by rewrite str_repeat_digits, <-string_of_digits_app.
  - apply Forall_app. split; [|done]. by apply Forall_replicate.
  - by apply lead0_replicate.
  - by rewrite value_zeros.
Qed.

(** What decoding returns, read on the digits. *)
Lemma decode_digits ds :
  Forall (λ d, d < 58) ds →
  ∃ data, b58decode (string_of_digits ds) = Ok data ∧
    lead0 (bytes_digits data) = lead0 ds ∧
    value 256 (bytes_digits data) = value 58 ds.
Proof.
  intros Hf. destruct (decide (ds = [])) as [->|Hne]; [by exists []|].
  assert (b58decode (string_of_digits ds) =
    (num <~ b58_accumulate (string_of_digits ds) 0;
     body <~ (if num =? 0 then Ok []
               else int_to_bytes (N.to_nat ((N.size num + 7) / 8)) num);
     Ok (replicate (leading_ones (string_of_digits ds)) Byte.x00 ++ body))) as ->
    by by destruct ds.
  assert (b58_accumulate (string_of_digits ds) 0 = Ok (value 58 ds)) as ->
    by (apply b58_accumulate_digits; by exists ds).
  cbn [res_bind]. rewrite leading_ones_lead0 by done.
  destruct (N.eqb_spec (value 58 ds) 0) as [E|E]; cbn [res_bind].
  - exists (replicate (lead0 ds) Byte.x00 ++ []). split; [done|].
    rewrite bytes_digits_replicate, value_zeros, E. split; [|done].
    by apply lead0_replicate.
  - destruct (minimal_bytes (value 58 ds)) as (body&->&Hv&Hn); [lia|].
    eexists. split; [done|]. rewrite bytes_digits_replicate, value_zeros.
    split; [by apply lead0_replicate|done].
Qed.

Lemma b58decode_Ok_digits s data :
  b58decode s = Ok data → ∃ ds, s = string_of_digits ds ∧ Forall (λ d, d < 58) ds.
Proof.
  destruct s as [|c s]; [by exists []|]. unfold b58decode.
  intros (num&Hacc&_)%res_bind_Ok.
  apply b58_accumulate_digits in Hacc as (ds&?&?&_). by exists ds.
Qed.

Lemma b58decode_encode data : b58decode (b58encode data) = Ok data.
Proof.
  destruct (encode_digits data) as (ds&->&Hf&Hl&Hv).
  destruct (decode_digits ds Hf) as (data'&->&Hl'&Hv').
  do 2 f_equal. apply bytes_digits_inj, (digits_ext 256);
    [done|apply bytes_digits_lt..|congruence|congruence].
Qed.

Lemma b58encode_decode s data : b58decode s = Ok data → b58encode data = s.
Proof.
  intros Hd. destruct (b58decode_Ok_digits _ _ Hd) as (ds&->&Hf).
  destruct (decode_digits ds Hf) as (data'&Hd'&Hl&Hv).
  rewrite Hd in Hd'. injection Hd' as <-.
  destruct (encode_digits data) as (ds'&->&Hf'&Hl'&Hv').
  f_equal. by apply (digits_ext 58); [done|..|congruence|congruence].
Qed.

Lemma b58_accumulate_total s acc :
  (Forall (λ c, c ∈ _ALPHABET) (str_chars s) ∧ is_ok (b58_accumulate s acc) = true) ∨
  (¬ Forall (λ c, c ∈ _ALPHABET) (str_chars s) ∧ b58_accumulate s acc = Err ValueError).
Proof.
  revert acc. induction s as [|c s IH]; intros acc; [by left|]. cbn [b58_accumulate str_chars].
  destruct (_ALPHABET_MAP c) as [d|] eqn:E.
  - assert (c ∈ _ALPHABET) as Hin.
    { apply alphabet_at_map in E as [Hd <-]. apply list_elem_of_In, nth_In.
      change (length _ALPHABET) with 58%nat. lia. }
    destruct (IH (acc * 58 + d)) as [[??]|[Hn ?]]; [left|right]; (split; [|done]).
    + by constructor.
    + intros [_ ?]%Forall_cons_1. done.
  - right. split; [|done]. intros [Hc _]%Forall_cons_1.
    apply index_of_None in E. done.
Qed.

(** ** Theorems *)

(** [b58decode] and [b58encode] are inverse bijections between byte
    strings and the strings [b58decode] accepts: decoding returns [data]
    exactly on the string the encoder writes for [data].  So every byte
    string round-trips, leading zero bytes included, and no two spellings
    decode to the same bytes. *)
Theorem b58_bijection s data : b58decode s = Ok data ↔ s = b58encode data.
Proof.
  split; [by intros <-%b58encode_decode|]. intros ->. apply b58decode_encode.
Qed.

(** Decoding never raises anything but [ValueError], which it raises
    exactly on the strings with a character outside the alphabet; in
    particular the length it computes for [to_bytes] never overflows. *)
Theorem b58decode_total s :
  (Forall (λ c, c ∈ _ALPHABET) (str_chars s) ∧ is_ok (b58decode s) = true) ∨
  (¬ Forall (λ c, c ∈ _ALPHABET) (str_chars s) ∧ b58decode s = Err ValueError).
Proof.
  destruct (b58_accumulate_total s 0) as [[Hf Hok]|[Hn Herr]].
  - left. split; [done|]. destruct (b58_accumulate s 0) as [n|] eqn:E; [|done].
    apply b58_accumulate_digits in E as (ds&->&Hd&_).
    by destruct (decode_digits ds Hd) as (?&->&_).
  - right. split; [done|]. destruct s; [by destruct Hn|]. unfold b58decode. by rewrite Herr.
Qed.
