(* ===== verification/Json.v ===== *)
(** * Json: canonical JSON serialisation

    Models [identity/canonicalize.py] (RFC 8785 style canonicalisation, the
    bytes MassClaw signs and hashes) and [_clone_jsonable] of
    [crdt/hashing.py].

    A JSON-shaped Python value is a [json].  An integer-valued [float] is
    [FInt] (the code prints [int(value)], so [-0.0] and [0] are the same
    number), any other finite float is [FFrac] of its [repr], the shortest
    decimal that reads back to it, so distinct floats have distinct
    representations; [wf_json] says that these texts look like a [repr].
    Dictionary keys may be strings or integers, because the code tests them.
    [JOther s] is a value of an unsupported type whose [str()] is [s]. *)

From Stdlib Require Import Ascii NArith ZArith Lia.
From stdpp Require Import base tactics strings pretty sorting numbers list.
From S2P Require Import Prelude PyStr Dict.

(** ** Values *)

Inductive pyfloat :=
  | FInt (z : Z)
  | FFrac (repr : string)
  | FNonFinite.

Inductive pykey := KStr (s : string) | KInt (z : Z).

Inductive json :=
  | JNull
  | JBool (b : bool)
  | JStr (s : string)
  | JInt (z : Z)
  | JFloat (f : pyfloat)
  | JList (l : list json)
  | JObj (items : list (pykey * json))
  | JOther (str : string).

(** [bool(v)] *)
Definition json_truth (v : json) : bool :=
  match v with
  | JNull => false
  | JBool b => b
  | JStr s => negb (str_empty s)
  | JInt z => negb (z =? 0)%Z
  | JFloat (FInt z) => negb (z =? 0)%Z
  | JFloat _ => true
  | JList l => match l with [] => false | _ => true end
  | JObj l => match l with [] => false | _ => true end
  | JOther _ => true
  end.

#[export] Instance pyfloat_eq_dec : EqDecision pyfloat.
Proof. solve_decision. Defined.
#[export] Instance pykey_eq_dec : EqDecision pykey.
Proof. solve_decision. Defined.

(** Structural induction that reaches into lists and dictionaries *)
Definition json_ind' (P : json → Prop)
    (Hnull : P JNull) (Hbool : ∀ b, P (JBool b)) (Hstr : ∀ s, P (JStr s))
    (Hint : ∀ z, P (JInt z)) (Hfloat : ∀ f, P (JFloat f))
    (Hlist : ∀ l, Forall P l → P (JList l))
    (Hobj : ∀ items, Forall (λ kv, P kv.2) items → P (JObj items))
    (Hother : ∀ s, P (JOther s)) : ∀ v, P v :=
  fix go v :=
    match v with
    | JNull => Hnull
    | JBool b => Hbool b
    | JStr s => Hstr s
    | JInt z => Hint z
    | JFloat f => Hfloat f
    | JList l =>
        Hlist l ((fix gos l : Forall P l :=
          match l with
          | [] => @List.Forall_nil _ P
          | v :: l => @List.Forall_cons _ P v l (go v) (gos l)
          end) l)
    | JObj items =>
        Hobj items ((fix gos l : Forall (λ kv : pykey * json, P kv.2) l :=
          match l with
          | [] => @List.Forall_nil _ (λ kv, P kv.2)
          | kv :: l => @List.Forall_cons _ (λ kv, P kv.2) kv l (go kv.2) (gos l)
          end) items)
    | JOther s => Hother s
    end.

(** ** The canonicaliser *)

Inductive canon_error := CanonicalizationError | KeyTypeError.

Definition hex_digit (n : N) : ascii :=
  nth (N.to_nat n) (str_chars "0123456789abcdef") "0"%char.

(** The double quote and the backslash *)
Definition DQ : ascii := ascii_of_N 34.
Definition BS : ascii := ascii_of_N 92.

(** One character of [_escape_string].  UTF-8 lead and continuation bytes are
    above 0x20, so they are copied like the characters they encode. *)
Definition escape_char (ch : ascii) : string :=
  let code := N_of_ascii ch in
  if (code =? 34)%N then String BS (String DQ "")
  else if (code =? 92)%N then String BS (String BS "")
  else if (code =? 8)%N then String BS "b"
  else if (code =? 12)%N then String BS "f"
  else if (code =? 10)%N then String BS "n"
  else if (code =? 13)%N then String BS "r"
  else if (code =? 9)%N then String BS "t"
  else if (code <? 32)%N then
    String BS ("u00" +:+
      String (hex_digit (code / 16)) (String (hex_digit (code mod 16)) ""))
  else String ch "".

Fixpoint escape_body (s : string) : string :=
  match s with
  | EmptyString => ""
  | String ch s => escape_char ch +:+ escape_body s
  end.

Definition _escape_string (s : string) : string :=
  String DQ (escape_body s +:+ String DQ "").

(** [sorted(value.items(), key=lambda kv: kv[0])]: comparing a string key with
    an integer key raises [TypeError]. *)
Definition key_leb (a b : pykey) : bool :=
  match a, b with
  | KStr a, KStr b => String.leb a b
  | KInt a, KInt b => (a <=? b)%Z
  | KInt _, KStr _ => true
  | KStr _, KInt _ => false
  end.

Definition key_is_str (k : pykey) : bool :=
  match k with KStr _ => true | KInt _ => false end.

Definition keys_comparable (ks : list pykey) : bool :=
  forallb key_is_str ks || forallb (λ k, negb (key_is_str k)) ks.

(** Run a list of fallible computations in order. *)
Fixpoint res_seq {E A} (l : list (res E A)) : res E (list A) :=
  match l with
  | [] => Ok []
  | m :: l => a <~ m; r <~ res_seq l; Ok (a :: r)
  end.

(** One [key:value] pair of an object *)
Definition emit_item (kv : pykey * res canon_error string) : res canon_error string :=
  match kv.1 with
  | KInt _ => Err CanonicalizationError
  | KStr k => body <~ kv.2; Ok (_escape_string k +:+ ":" +:+ body)
  end.

Fixpoint _emit (value : json) : res canon_error string :=
  match value with
  | JNull => Ok "null"
  | JBool true => Ok "true"
  | JBool false => Ok "false"
  | JStr s => Ok (_escape_string s)
  | JInt z => Ok (pretty z)
  | JFloat FNonFinite => Err CanonicalizationError
  | JFloat (FInt z) => Ok (pretty z)
  | JFloat (FFrac r) => Ok r
  | JList l =>
      parts <~ res_seq (map _emit l);
      Ok ("[" +:+ str_join "," parts +:+ "]")
  | JObj items =>
      let emitted := map (λ '(k, v), (k, _emit v)) items in
      raise_if (negb (keys_comparable (map fst items))) KeyTypeError ;!
      parts <~ res_seq (map emit_item (kv_sort key_leb emitted));
      Ok ("{" +:+ str_join "," parts +:+ "}")
  | JOther _ => Err CanonicalizationError
  end.

Definition canonicalize (value : json) : res canon_error string := _emit value.

(** [str(k)] of a dictionary key *)
Definition key_str (k : pykey) : string :=
  match k with KStr s => s | KInt z => pretty z end.

(** [crdt.hashing._clone_jsonable] *)
Fixpoint _clone_jsonable (value : json) : json :=
  match value with
  | JObj items =>
      JObj (map (λ kv, (KStr kv.1, kv.2))
             (dict_of (map (λ '(k, v), (key_str k, _clone_jsonable v)) items)))
  | JList l => JList (map _clone_jsonable l)
  | JOther s => JStr s
  | v => v
  end.

Example canonicalize_ex :
  canonicalize (JObj [(KStr "b", JList [JInt 1; JFloat (FInt 2); JNull]);
                      (KStr "a", JFloat (FFrac "0.5"))])
  = Ok ("{" +:+ _escape_string "a" +:+ ":0.5," +:+ _escape_string "b" +:+ ":[1,2,null]}").
Proof. vm_compute. reflexivity. Qed.
Example canonicalize_mixed_keys :
  canonicalize (JObj [(KStr "b", JNull); (KInt 1, JNull)]) = Err KeyTypeError.
Proof. reflexivity. Qed.

(** ** Specification: JSON values up to presentation

    [jnorm] forgets what canonicalisation is meant to forget: the order of
    dictionary items and the difference between an integer and an
    integer-valued float. *)

Fixpoint jnorm (v : json) : json :=
  match v with
  | JFloat (FInt z) => JInt z
  | JList l => JList (map jnorm l)
  | JObj items => JObj (kv_sort key_leb (map (λ '(k, v), (k, jnorm v)) items))
  | v => v
  end.

Definition num_char (c : ascii) : bool :=
  existsb (Ascii.eqb c) (str_chars "0123456789-+.e").
Definition frac_char (c : ascii) : bool := existsb (Ascii.eqb c) (str_chars ".e").

Fixpoint wf_json (v : json) : bool :=
  match v with
  | JFloat (FFrac r) =>
      forallb num_char (str_chars r) && existsb frac_char (str_chars r)
  | JList l => forallb wf_json l
  | JObj items => forallb (λ kv, wf_json kv.2) items
  | _ => true
  end.

(** ** Unique readability of strings and numbers *)

Definition hex_val (c : ascii) : N :=
  let n := N_of_ascii c in if (n <=? 57)%N then (n - 48)%N else (n - 87)%N.

(** Reads back one escaped character. *)
Definition unescape (s : string) : option (ascii * string) :=
  match s with
  | EmptyString => None
  | String x r =>
      if Ascii.eqb x DQ then None
      else if Ascii.eqb x BS then
        match r with
        | String "b" r => Some (ascii_of_N 8, r)
        | String "f" r => Some (ascii_of_N 12, r)
        | String "n" r => Some (ascii_of_N 10, r)
        | String "r" r => Some (ascii_of_N 13, r)
        | String "t" r => Some (ascii_of_N 9, r)
        | String "u" (String _ (String _ (String h (String l r)))) =>
            Some (ascii_of_N (16 * hex_val h + hex_val l), r)
        | String c r => Some (c, r)
        | EmptyString => None
        end
      else Some (x, r)
  end.

Lemma unescape_escape c r : unescape (escape_char c +:+ r) = Some (c, r).
Proof. destruct c as [[] [] [] [] [] [] [] []]; reflexivity. Qed.

Lemma escape_body_inj s1 s2 r1 r2 :
  escape_body s1 +:+ String DQ r1 = escape_body s2 +:+ String DQ r2 →
  s1 = s2 ∧ r1 = r2.
Proof.
  revert s2. induction s1 as [|c1 s1 IH]; intros [|c2 s2] E; cbn [escape_body] in E.
  - by injection E.
  - apply (f_equal unescape) in E. by rewrite str_app_assoc, unescape_escape in E.
  - apply (f_equal unescape) in E. by rewrite str_app_assoc, unescape_escape in E.
  - apply (f_equal unescape) in E. rewrite !str_app_assoc, !unescape_escape in E.
    injection E as -> E. by destruct (IH _ E) as [-> ->].
Qed.

Lemma escape_string_inj s1 s2 r1 r2 :
  _escape_string s1 +:+ r1 = _escape_string s2 +:+ r2 → s1 = s2 ∧ r1 = r2.
Proof.
  unfold _escape_string. rewrite !str_app_cons, !str_app_assoc. intros [= E].
  by apply escape_body_inj.
Qed.

Definition int_char (c : ascii) : bool := num_char c && negb (frac_char c).

Lemma pretty_N_chars n s :
  forallb int_char (str_chars s) = true →
  forallb int_char (str_chars (pretty_N_go n s)) = true.
Proof.
  revert s. induction (N.lt_wf_0 n) as [n _ IH]; intros s Hs.
  destruct (decide (n = 0)%N) as [->|Hn]; [done|].
  rewrite pretty_N_go_step by lia. apply IH; [by apply N.div_lt; lia|].
  cbn [str_chars forallb]. rewrite Hs, andb_true_r.
  unfold pretty_N_char. by repeat case_match.
Qed.

Lemma pretty_N_go_ne n s : s ≠ "" → pretty_N_go n s ≠ "".
Proof.
  revert s. induction (N.lt_wf_0 n) as [n _ IH]; intros s Hs.
  destruct (decide (n = 0)%N) as [->|Hn]; [done|].
  rewrite pretty_N_go_step by lia. apply IH; [by apply N.div_lt; lia|done].
Qed.

Lemma pretty_Z_ne (z : Z) : pretty z ≠ "".
Proof.
  destruct z as [|p|p]; [done| |done]. unfold pretty, pretty_Z, pretty, pretty_positive, pretty, pretty_N.
  rewrite decide_False, pretty_N_go_step by done. by apply pretty_N_go_ne.
Qed.

Lemma pretty_Z_chars (z : Z) : forallb int_char (str_chars (pretty z)) = true.
Proof.
  assert (∀ p : positive, forallb int_char (str_chars (pretty p)) = true) as Hp.
  { intros p. unfold pretty, pretty_positive, pretty, pretty_N.
    rewrite decide_False by done. by apply pretty_N_chars. }
  destruct z as [|p|p]; [done|apply Hp|].
  change (pretty (Z.neg p)) with (String "-" (pretty p)). cbn. apply Hp.
Qed.

Lemma pretty_Z_num (z : Z) : forallb num_char (str_chars (pretty z)) = true.
Proof.
  pose proof (pretty_Z_chars z) as H. rewrite forallb_forall in H |- *.
  intros c Hc. by apply H, andb_true_iff in Hc as [].
Qed.

Lemma pretty_Z_not_frac (z : Z) : existsb frac_char (str_chars (pretty z)) = false.
Proof.
  pose proof (pretty_Z_chars z) as H. rewrite forallb_forall in H.
  apply not_true_iff_false. intros (c&Hc&Hf)%existsb_exists.
  apply H, andb_true_iff in Hc as [_ Hc]. by rewrite Hf in Hc.
Qed.

(** What can follow a value: the end, or [,], []] or [}]. *)
Definition delim (r : string) : bool :=
  match r with
  | EmptyString => true
  | String c _ => existsb (Ascii.eqb c) (str_chars ",]}")
  end.

Lemma delim_not_num c r : delim (String c r) = true → num_char c = false.
Proof. destruct c as [[] [] [] [] [] [] [] []]; cbn; done. Qed.

Lemma num_span_inj a b r1 r2 :
  forallb num_char (str_chars a) = true → forallb num_char (str_chars b) = true →
  delim r1 = true → delim r2 = true →
  a +:+ r1 = b +:+ r2 → a = b ∧ r1 = r2.
Proof.
  revert b. induction a as [|x a IH]; intros [|y b] Ha Hb H1 H2 E.
  - done.
  - rewrite str_app_nil_l, str_app_cons in E. subst r1.
    apply delim_not_num in H1. cbn [str_chars forallb] in Hb. by rewrite H1 in Hb.
  - rewrite str_app_nil_l, str_app_cons in E. subst r2.
    apply delim_not_num in H2. cbn [str_chars forallb] in Ha. by rewrite H2 in Ha.
  - rewrite !str_app_cons in E. injection E as -> E. cbn [str_chars forallb] in Ha, Hb.
    apply andb_true_iff in Ha as [_ Ha], Hb as [_ Hb].
    by destruct (IH b Ha Hb H1 H2 E) as [-> ->].
Qed.

(** ** Unique readability of whole documents *)

(** The class of a value, readable off the first character it is written with *)
Definition value_class (v : json) : nat :=
  match v with
  | JNull => 0 | JBool true => 1 | JBool false => 2 | JStr _ => 3
  | JInt _ | JFloat _ => 4 | JList _ => 5 | JObj _ => 6 | JOther _ => 7
  end.

Definition char_class (c : ascii) : nat :=
  if Ascii.eqb c "n" then 0 else if Ascii.eqb c "t" then 1
  else if Ascii.eqb c "f" then 2 else if Ascii.eqb c DQ then 3
  else if num_char c then 4 else if Ascii.eqb c "[" then 5
  else if Ascii.eqb c "{" then 6 else 8.

Lemma num_char_class c : num_char c = true → char_class c = 4.
Proof. destruct c as [[] [] [] [] [] [] [] []]; cbn; done. Qed.

Lemma delim_class c r : delim (String c r) = true → char_class c = 8.
Proof. destruct c as [[] [] [] [] [] [] [] []]; cbn; done. Qed.

Lemma num_text_class s :
  forallb num_char (str_chars s) = true → s ≠ "" → ∃ c t, s = String c t ∧ char_class c = 4.
Proof.
  destruct s as [|c t]; [done|]. intros [Hc _]%andb_true_iff _.
  exists c, t. by rewrite num_char_class.
Qed.

Lemma emit_class v s :
  wf_json v = true → _emit v = Ok s → ∃ c t, s = String c t ∧ char_class c = value_class v.
Proof.
  intros Hwf He. destruct v as [|[]|s'|z|[z|f|]|l|items|]; cbn in He; simplify_eq;
    try (by eexists _, _).
  - apply num_text_class; [apply pretty_Z_num|apply pretty_Z_ne].
  - apply num_text_class; [apply pretty_Z_num|apply pretty_Z_ne].
  - cbn in Hwf. apply andb_true_iff in Hwf as [Hn Hf].
    apply num_text_class; [done|]. by intros ->.
  - apply res_bind_Ok in He as (parts&_&[= <-]). by eexists _, _.
  - apply res_bind_Ok in He as ([]&_&(parts&_&[= <-])%res_bind_Ok). by eexists _, _.
Qed.

Lemma same_class v1 v2 s1 s2 r1 r2 :
  wf_json v1 = true → wf_json v2 = true → _emit v1 = Ok s1 → _emit v2 = Ok s2 →
  s1 +:+ r1 = s2 +:+ r2 → value_class v1 = value_class v2.
Proof.
  intros Hw1 Hw2 H1 H2 E.
  destruct (emit_class _ _ Hw1 H1) as (c1&t1&->&<-), (emit_class _ _ Hw2 H2) as (c2&t2&->&<-).
  rewrite !str_app_cons in E. by injection E as -> _.
Qed.

(** *** Comma-separated sequences

    [X] is what is written, [e] how, [n] what can be read back. *)
Section separated.
Context {X Y : Type} (e : X → res canon_error string) (n : X → Y) (good : X → Prop).

Definition readable (x : X) : Prop := ∀ x' s s' r r',
  good x' → e x = Ok s → e x' = Ok s' → delim r = true → delim r' = true →
  s +:+ r = s' +:+ r' → n x = n x' ∧ r = r'.

Context (e_head : ∀ x s, good x → e x = Ok s → ∃ c t, s = String c t ∧ char_class c ≠ 8).

Fixpoint tail_text (ps : list string) : string :=
  match ps with
  | [] => ""
  | p :: ps => "," +:+ p +:+ tail_text ps
  end.

Lemma join_tail p ps : str_join "," (p :: ps) = p +:+ tail_text ps.
Proof.
  revert p. induction ps as [|q ps IH]; intros p; [by rewrite str_app_nil_r|].
  change (str_join "," (p :: q :: ps)) with (p +:+ "," +:+ str_join "," (q :: ps)).
  by rewrite IH.
Qed.

Lemma res_seq_cons_Ok {A} (m : res canon_error A) ms ps :
  res_seq (m :: ms) = Ok ps ↔ ∃ p ps', ps = p :: ps' ∧ m = Ok p ∧ res_seq ms = Ok ps'.
Proof.
  cbn. rewrite res_bind_Ok. setoid_rewrite res_bind_Ok. naive_solver.
Qed.

Lemma tail_inj close l1 l2 p1 p2 r1 r2 :
  delim (String close "") = true → close ≠ ","%char →
  Forall readable l1 → Forall good l2 →
  res_seq (map e l1) = Ok p1 → res_seq (map e l2) = Ok p2 →
  tail_text p1 +:+ String close r1 = tail_text p2 +:+ String close r2 →
  map n l1 = map n l2 ∧ r1 = r2.
Proof.
  intros Hcl Hcomma Hl1. revert l2 p1 p2 r1 r2.
  assert (Hdel : ∀ ps r, delim (tail_text ps +:+ String close r) = true) by by intros [].
  induction Hl1 as [|x1 l1 Hx1 Hl1 IH]; intros l2 p1 p2 r1 r2 Hl2 H1 H2 E;
    destruct Hl2 as [|x2 l2 Hg2 Hl2]; cbn [map] in H1, H2;
    rewrite ?res_seq_cons_Ok in H1; rewrite ?res_seq_cons_Ok in H2.
  - by simplify_eq/=.
  - destruct H2 as (q&ps&->&_). by simplify_eq/=.
  - destruct H1 as (q&ps&->&_). by simplify_eq/=.
  - destruct H1 as (s1&ps1&->&Hs1&H1), H2 as (s2&ps2&->&Hs2&H2).
    cbn [tail_text] in E. rewrite !str_app_assoc in E. apply str_app_inj_l in E.
    destruct (Hx1 x2 s1 s2 _ _ Hg2 Hs1 Hs2 (Hdel _ _) (Hdel _ _) E) as [Hn E'].
    destruct (IH l2 ps1 ps2 r1 r2 Hl2 H1 H2 E') as [Hns ->]. cbn. by rewrite Hn, Hns.
Qed.

Lemma joined_inj close l1 l2 p1 p2 r1 r2 :
  delim (String close "") = true → close ≠ ","%char →
  Forall readable l1 → Forall good l1 → Forall good l2 →
  res_seq (map e l1) = Ok p1 → res_seq (map e l2) = Ok p2 →
  str_join "," p1 +:+ String close r1 = str_join "," p2 +:+ String close r2 →
  map n l1 = map n l2 ∧ r1 = r2.
Proof.
  intros Hcl Hcomma Hl1 Hgs1 Hgs2 H1 H2 E. apply delim_class in Hcl as Hcc.
  assert (Hdel : ∀ ps r, delim (tail_text ps +:+ String close r) = true) by by intros [].
  destruct Hl1 as [|x1 l1 Hx1 Hl1], Hgs2 as [|x2 l2 Hg2 Hgs2]; cbn [map] in H1, H2;
    rewrite ?res_seq_cons_Ok in H1; rewrite ?res_seq_cons_Ok in H2.
  - by simplify_eq/=.
  - destruct H2 as (s2&ps&->&Hs2&_). destruct (e_head _ _ Hg2 Hs2) as (c&t&->&Hc).
    injection H1 as <-. rewrite join_tail, !str_app_cons in E. by injection E as <- _.
  - apply Forall_inv in Hgs1. destruct H1 as (s1&ps&->&Hs1&_).
    destruct (e_head _ _ Hgs1 Hs1) as (c&t&->&Hc).
    injection H2 as <-. rewrite join_tail, !str_app_cons in E. by injection E as -> _.
  - destruct H1 as (s1&ps1&->&Hs1&H1), H2 as (s2&ps2&->&Hs2&H2).
    rewrite !join_tail, !str_app_assoc in E.
    destruct (Hx1 x2 s1 s2 _ _ Hg2 Hs1 Hs2 (Hdel _ _) (Hdel _ _) E) as [Hn E'].
    destruct (tail_inj close l1 l2 ps1 ps2 r1 r2) as [Hns ->]; try done.
    cbn. by rewrite Hn, Hns.
Qed.
End separated.

Definition wf_val (v : json) : Prop := wf_json v = true.
Definition emit_pair (kv : pykey * json) : res canon_error string :=
  emit_item (kv.1, _emit kv.2).
Definition norm_pair (kv : pykey * json) : pykey * json := (kv.1, jnorm kv.2).
Definition wf_pair (kv : pykey * json) : Prop := wf_val kv.2.

Lemma emit_obj items :
  _emit (JObj items) =
  (raise_if (negb (keys_comparable (map fst items))) KeyTypeError ;!
   parts <~ res_seq (map emit_pair (kv_sort key_leb items));
   Ok ("{" +:+ str_join "," parts +:+ "}")).
Proof.
  cbn [_emit]. rewrite (kv_sort_map key_leb _emit), map_map.
  rewrite (map_ext _ emit_pair); [done|]. by intros [k v].
Qed.

Lemma jnorm_obj items :
  jnorm (JObj items) = JObj (map norm_pair (kv_sort key_leb items)).
Proof.
  cbn [jnorm]. rewrite (kv_sort_map key_leb jnorm). f_equal. apply map_ext.
  by intros [k v].
Qed.

Lemma emit_pair_Ok kv s :
  emit_pair kv = Ok s ↔ ∃ k b, kv.1 = KStr k ∧ _emit kv.2 = Ok b ∧
    s = _escape_string k +:+ ":" +:+ b.
Proof.
  unfold emit_pair, emit_item. destruct kv as [[k|z] v]; cbn [fst snd].
  - rewrite res_bind_Ok. naive_solver.
  - naive_solver.
Qed.

Lemma emit_pair_readable kv :
  readable _emit jnorm wf_val kv.2 → readable emit_pair norm_pair wf_pair kv.
Proof.
  intros Hr kv' s s' r r' Hg He He' Hd Hd' E.
  apply emit_pair_Ok in He as (k&b&Hk&He&->), He' as (k'&b'&Hk'&He'&->).
  rewrite !str_app_assoc in E. apply escape_string_inj in E as [-> E].
  apply str_app_inj_l in E. destruct (Hr _ _ _ _ _ Hg He He' Hd Hd' E) as [Hn ->].
  split; [|done]. unfold norm_pair. by rewrite Hk, Hk', Hn.
Qed.

Lemma emit_pair_head kv s :
  wf_pair kv → emit_pair kv = Ok s → ∃ c t, s = String c t ∧ char_class c ≠ 8.
Proof. intros _ (k&b&_&_&->)%emit_pair_Ok. by eexists _, _. Qed.

Lemma emit_head v s :
  wf_val v → _emit v = Ok s → ∃ c t, s = String c t ∧ char_class c ≠ 8.
Proof.
  intros Hw (c&t&->&Hc)%emit_class; [|done]. exists c, t. rewrite Hc.
  by destruct v as [|[]| | | | | |].
Qed.

Lemma forallb_Forall_true {A} (f : A → bool) l :
  forallb f l = true ↔ Forall (λ x, f x = true) l.
Proof.
  rewrite <-!Is_true_true, forallb_True, !Forall_forall.
  by setoid_rewrite Is_true_true.
Qed.

Lemma wf_list l : wf_val (JList l) ↔ Forall wf_val l.
Proof. apply forallb_Forall_true. Qed.

Lemma wf_obj items : wf_val (JObj items) ↔ Forall wf_pair items.
Proof. apply (forallb_Forall_true (λ kv, wf_json kv.2)). Qed.

Lemma Forall_kv_sort {V} (P : pykey * V → Prop) l :
  Forall P l → Forall P (kv_sort key_leb l).
Proof. intros H. by rewrite kv_sort_perm. Qed.

Lemma emit_list_Ok l s :
  _emit (JList l) = Ok s ↔
  ∃ ps, res_seq (map _emit l) = Ok ps ∧ s = "[" +:+ str_join "," ps +:+ "]".
Proof. cbn [_emit]. rewrite res_bind_Ok. naive_solver. Qed.

Lemma emit_obj_Ok items s :
  _emit (JObj items) = Ok s ↔
  keys_comparable (map fst items) = true ∧
  ∃ ps, res_seq (map emit_pair (kv_sort key_leb items)) = Ok ps ∧
    s = "{" +:+ str_join "," ps +:+ "}".
Proof.
  rewrite emit_obj, res_bind_Ok. setoid_rewrite raise_if_Ok.
  setoid_rewrite negb_false_iff. setoid_rewrite res_bind_Ok.
  split; [naive_solver|]. intros (?&ps&?&->). exists tt. naive_solver.
Qed.

(** Numbers: an integer text never reads as a fraction. *)
Lemma emit_number v s :
  value_class v = 4 → wf_val v → _emit v = Ok s →
  forallb num_char (str_chars s) = true ∧
  ((∃ z, jnorm v = JInt z ∧ s = pretty z) ∨
   (jnorm v = JFloat (FFrac s) ∧ existsb frac_char (str_chars s) = true)).
Proof.
  intros Hc Hw He.
  destruct v as [|[]|s0|z|[z|f|]|l|items|s0]; try done; cbn in He; simplify_eq.
  - split; [apply pretty_Z_num|]. left. by exists z.
  - split; [apply pretty_Z_num|]. left. by exists z.
  - apply andb_true_iff in Hw as [Hn Hf]. split; [done|by right].
Qed.

Lemma number_readable v v' s s' r r' :
  value_class v = 4 → value_class v = value_class v' → wf_val v → wf_val v' →
  _emit v = Ok s → _emit v' = Ok s' → delim r = true → delim r' = true →
  s +:+ r = s' +:+ r' → jnorm v = jnorm v' ∧ r = r'.
Proof.
  intros Hc Hcc Hw Hw' He He' Hd Hd' E. rewrite Hc in Hcc.
  destruct (emit_number _ _ Hc Hw He) as [Hn Hv].
  destruct (emit_number _ _ (eq_sym Hcc) Hw' He') as [Hn' Hv'].
  destruct (num_span_inj _ _ _ _ Hn Hn' Hd Hd' E) as [-> ->]. split; [|done].
  destruct Hv as [(z&->&->)|[-> Hf]], Hv' as [(z'&->&Hz)|[-> Hf']]; try done.
  - apply (inj pretty) in Hz. by subst.
  - by rewrite pretty_Z_not_frac in Hf'.
  - rewrite Hz in Hf. by rewrite pretty_Z_not_frac in Hf.
Qed.

Lemma json_readable v : wf_val v → readable _emit jnorm wf_val v.
Proof.
  induction v as [|b|s0|z|f|l IH|items IH|s0] using json_ind';
    intros Hw v' s s' r r' Hw' He He' Hd Hd' E;
    pose proof (same_class _ _ _ _ _ _ Hw Hw' He He' E) as Hc.
  - destruct v' as [|[]| | | | | |]; try done. cbn in He, He'. by simplify_eq.
  - destruct b, v' as [|[]| | | | | |]; try done; cbn in He, He'; by simplify_eq.
  - destruct v' as [|[]| | | | | |]; try done. injection He as <-. injection He' as <-.
    by apply escape_string_inj in E as [-> ->].
  - apply (number_readable (JInt z) v' s s' r r'); done.
  - apply (number_readable (JFloat f) v' s s' r r'); done.
  - destruct v' as [|[]| | | |l'| |]; try done.
    apply emit_list_Ok in He as (ps&Hps&->), He' as (ps'&Hps'&->).
    rewrite wf_list in Hw, Hw'. rewrite !str_app_assoc in E.
    apply (str_app_inj_l "[") in E.
    destruct (joined_inj _emit jnorm wf_val emit_head "]" l l' ps ps' r r') as [Hn ->];
      try done.
    + clear -IH Hw. induction IH; inversion Hw; subst; constructor; auto.
    + split; [|done]. cbn. by f_equal.
  - destruct v' as [|[]| | | | |items'|]; try done.
    apply emit_obj_Ok in He as (_&ps&Hps&->), He' as (_&ps'&Hps'&->).
    rewrite wf_obj in Hw, Hw'. rewrite !str_app_assoc in E.
    apply (str_app_inj_l "{") in E.
    destruct (joined_inj emit_pair norm_pair wf_pair emit_pair_head "}"
      (kv_sort key_leb items) (kv_sort key_leb items') ps ps' r r') as [Hn ->];
      try done; try by apply Forall_kv_sort.
    + apply Forall_kv_sort. clear -IH Hw.
      induction IH as [|kv items Hkv IH]; inversion Hw; subst; constructor; [|by auto].
      by apply emit_pair_readable, Hkv.
    + split; [|done]. rewrite !jnorm_obj. by f_equal.
  - done.
Qed.

(** ** Canonicalisation forgets presentation only *)

Lemma key_leb_total a b : key_leb a b = true ∨ key_leb b a = true.
Proof.
  destruct a as [a|a], b as [b|b]; cbn; auto; [apply String.leb_total|].
  destruct (Z.leb_spec a b); [by left|right]. apply Z.leb_le. lia.
Qed.

Lemma key_leb_trans a b c :
  key_leb a b = true → key_leb b c = true → key_leb a c = true.
Proof.
  destruct a as [a|a], b as [b|b], c as [c|c]; cbn; try done.
  - apply str_leb_trans.
  - rewrite !Z.leb_le. lia.
Qed.

Lemma key_leb_anti a b : key_leb a b = true → key_leb b a = true → a = b.
Proof.
  destruct a as [a|a], b as [b|b]; cbn; try done.
  - intros H1 H2. by rewrite (String.leb_antisym _ _ H1 H2).
  - rewrite !Z.leb_le. intros. f_equal. lia.
Qed.

Lemma forallb_perm {A} (f : A → bool) l l' : l ≡ₚ l' → forallb f l = forallb f l'.
Proof. induction 1; cbn; [done|by f_equal| |congruence]. by rewrite !andb_assoc, (andb_comm (f _)). Qed.

Lemma keys_comparable_perm l l' : l ≡ₚ l' → keys_comparable l = keys_comparable l'.
Proof. intros H. unfold keys_comparable. by rewrite !(forallb_perm _ _ _ H). Qed.

Lemma StronglySorted_map_keys (l : list (pykey * json)) :
  StronglySorted (kv_le key_leb) l → StronglySorted (kv_le key_leb) (map norm_pair l).
Proof.
  induction 1 as [|kv l Hl IH Hkv]; [constructor|]. cbn. constructor; [done|].
  apply Forall_fmap. by eapply Forall_impl.
Qed.

Lemma emit_jnorm v : _emit (jnorm v) = _emit v.
Proof.
  induction v as [|b|s0|z|f|l IH|items IH|s0] using json_ind'; try done.
  - by destruct f.
  - cbn [jnorm _emit]. rewrite map_map. by rewrite (map_ext_Forall _ _ IH).
  - rewrite jnorm_obj, !emit_obj, map_map.
    assert (map (λ kv, (norm_pair kv).1) (kv_sort key_leb items) ≡ₚ map fst items)
      as Hk by (by rewrite kv_sort_perm).
    rewrite (keys_comparable_perm _ _ Hk).
    rewrite kv_sort_id by apply StronglySorted_map_keys,
      (kv_sort_sorted key_leb key_leb_total key_leb_trans).
    rewrite map_map. apply (Forall_kv_sort _ items) in IH.
    rewrite (map_ext_Forall (λ kv, emit_pair (norm_pair kv)) emit_pair); [done|].
    eapply Forall_impl; [exact IH|]. intros [k v] Hv. cbn in Hv.
    unfold emit_pair, norm_pair. cbn. by rewrite Hv.
Qed.

(** *** Cloning *)

Fixpoint finite_json (v : json) : bool :=
  match v with
  | JFloat FNonFinite => false
  | JList l => forallb finite_json l
  | JObj items => forallb (λ kv, finite_json kv.2) items
  | _ => true
  end.

(** Values JSON can express directly: string keys, no unsupported types *)
Fixpoint plain_json (v : json) : bool :=
  match v with
  | JOther _ => false
  | JList l => forallb plain_json l
  | JObj items => forallb (λ kv, key_is_str kv.1 && plain_json kv.2) items
  | _ => true
  end.

Lemma res_seq_all_Ok {E A B} (f : A → res E B) l :
  Forall (λ a, is_ok (f a) = true) l → ∃ bs, res_seq (map f l) = Ok bs.
Proof.
  induction 1 as [|a l Ha Hl IH]; [by eexists|]. destruct IH as [bs Hbs].
  cbn. destruct (f a) as [b|]; [|done]. rewrite Hbs. by eexists.
Qed.

Lemma emit_plain v :
  plain_json v = true → finite_json v = true → is_ok (_emit v) = true.
Proof.
  induction v as [|b|s0|z|f|l IH|items IH|s0] using json_ind'; intros Hp Hf; try done.
  - by destruct b.
  - by destruct f.
  - cbn [_emit]. cbn [plain_json finite_json] in Hp, Hf.
    rewrite forallb_Forall_true in Hp, Hf.
    destruct (res_seq_all_Ok _emit l) as [bs ->]; [|done].
    rewrite Forall_forall in *. auto.
  - rewrite emit_obj. cbn [plain_json finite_json] in Hp, Hf.
    rewrite forallb_Forall_true in Hp, Hf.
    assert (keys_comparable (map fst items) = true) as ->.
    { apply orb_true_iff. left. apply forallb_Forall_true, Forall_fmap.
      eapply Forall_impl; [exact Hp|]. by intros kv [? _]%andb_true_iff. }
    destruct (res_seq_all_Ok emit_pair (kv_sort key_leb items)) as [bs ->]; [|done].
    apply Forall_kv_sort. rewrite Forall_forall in *. intros [k v] Hkv.
    pose proof (Hp _ Hkv) as [Hk Hpv]%andb_true_iff.
    destruct k as [k|]; [|done]. unfold emit_pair, emit_item. cbn in *.
    specialize (IH _ Hkv Hpv (Hf _ Hkv)). cbn in IH. by destruct (_emit v).
Qed.

Lemma Forall_dict_set {K V} `{EqDecision K} (P : V → Prop) k v (d : list (K * V)) :
  P v → Forall (λ kv, P kv.2) d → Forall (λ kv, P kv.2) (dict_set k v d).
Proof.
  intros Hv. induction 1 as [|[k' v'] d Hkv Hd IH]; cbn; [by repeat constructor|].
  case_decide; by constructor.
Qed.

Lemma Forall_dict_of {K V} `{EqDecision K} (P : V → Prop) (items : list (K * V)) :
  Forall (λ kv, P kv.2) items → Forall (λ kv, P kv.2) (dict_of items).
Proof.
  unfold dict_of. intros H. assert (Forall (λ kv : K * V, P kv.2) []) as H0 by constructor.
  revert H0. generalize ([] : list (K * V)).
  induction H as [|[k v] items Hkv _ IH]; [done|]. intros d Hd. cbn.
  apply IH. by apply Forall_dict_set.
Qed.

Lemma clone_Forall (P : json → bool) items :
  Forall (λ kv : pykey * json, P (_clone_jsonable kv.2) = true) items →
  Forall (λ kv : string * json, P kv.2 = true)
    (dict_of (map (λ '(k, v), (key_str k, _clone_jsonable v)) items)).
Proof.
  intros H. apply (Forall_dict_of (λ v, P v = true)), Forall_fmap.
  eapply Forall_impl; [exact H|]. by intros [k v].
Qed.

Lemma clone_plain v : plain_json (_clone_jsonable v) = true.
Proof.
  induction v as [|b|s0|z|f|l IH|items IH|s0] using json_ind'; try done.
  - cbn. by apply forallb_Forall_true, Forall_fmap.
  - cbn. apply forallb_Forall_true, Forall_fmap. apply clone_Forall in IH.
    eapply Forall_impl; [exact IH|]. by intros [k v] H.
Qed.

Lemma clone_finite v : finite_json v = true → finite_json (_clone_jsonable v) = true.
Proof.
  induction v as [|b|s0|z|f|l IH|items IH|s0] using json_ind'; try done; intros Hf;
    cbn [finite_json] in Hf; rewrite forallb_Forall_true in Hf; cbn;
    apply forallb_Forall_true, Forall_fmap.
  - rewrite Forall_forall in *. intros v Hv. by apply IH, Hf.
  - assert (Forall (λ kv : pykey * json,
      finite_json (_clone_jsonable kv.2) = true) items) as H.
    { rewrite Forall_forall in *. intros v Hv. by apply IH, Hf. }
    apply clone_Forall in H. eapply Forall_impl; [exact H|]. by intros [k v].
Qed.

Lemma clone_wf v : wf_json v = true → wf_json (_clone_jsonable v) = true.
Proof.
  induction v as [|b|s0|z|f|l IH|items IH|s0] using json_ind'; try done; intros Hf;
    cbn [wf_json] in Hf; rewrite forallb_Forall_true in Hf; cbn;
    apply forallb_Forall_true, Forall_fmap.
  - rewrite Forall_forall in *. intros v Hv. by apply IH, Hf.
  - assert (Forall (λ kv : pykey * json,
      wf_json (_clone_jsonable kv.2) = true) items) as H.
    { rewrite Forall_forall in *. intros v Hv. by apply IH, Hf. }
    apply clone_Forall in H. eapply Forall_impl; [exact H|]. by intros [k v].
Qed.

Lemma canonicalize_eq_iff v1 v2 s1 s2 :
  wf_val v1 → wf_val v2 → canonicalize v1 = Ok s1 → canonicalize v2 = Ok s2 →
  s1 = s2 ↔ jnorm v1 = jnorm v2.
Proof.
  intros Hw1 Hw2 H1 H2. split.
  - intros ->. eapply (json_readable v1 Hw1 v2 s2 s2 "" ""); done.
  - intros E. unfold canonicalize in *. rewrite <-emit_jnorm, E, emit_jnorm in H1.
    congruence.
Qed.

(** ** Theorems *)

(** Canonical bytes identify a document.  If two well-formed values both
    serialise, they serialise to the same bytes exactly when they have the
    same normal form, that is when they differ only in the order of dictionary
    items and in integers written as floats.  No two documents that differ in
    anything else share the bytes that are signed and hashed. *)
Theorem canonicalize_identifies v1 v2 s1 s2 :
  wf_val v1 → wf_val v2 → canonicalize v1 = Ok s1 → canonicalize v2 = Ok s2 →
  s1 = s2 ↔ jnorm v1 = jnorm v2.
Proof. apply canonicalize_eq_iff. Qed.

Lemma canonicalize_identifies_witness :
  let v1 := JObj [(KStr "a", JInt 1); (KStr "b", JFloat (FFrac "0.5"))] in
  let v2 := JObj [(KStr "b", JFloat (FFrac "0.5")); (KStr "a", JFloat (FInt 1))] in
  ∃ s, canonicalize v1 = Ok s ∧ canonicalize v2 = Ok s ∧ (s = s ↔ jnorm v1 = jnorm v2).
Proof.
  intros v1 v2. eexists. split; [vm_compute; reflexivity|].
  split; [vm_compute; reflexivity|].
  apply (canonicalize_identifies v1 v2); vm_compute; reflexivity.
Defined.

(** The order in which a dictionary was filled does not change its
    canonical bytes, at any place a dictionary occurs in. *)
Theorem canonicalize_key_order items items' :
  NoDup (map fst items) → items ≡ₚ items' →
  canonicalize (JObj items) = canonicalize (JObj items') ∧
  jnorm (JObj items) = jnorm (JObj items').
Proof.
  intros Hnd Hp.
  assert (kv_sort key_leb items = kv_sort key_leb items') as E.
  { by apply (kv_sort_proper key_leb key_leb_total key_leb_trans key_leb_anti). }
  split; [|by rewrite !jnorm_obj, E].
  unfold canonicalize. rewrite !emit_obj, E.
  by rewrite (keys_comparable_perm (map fst items) (map fst items')) by by rewrite Hp.
Qed.

Lemma canonicalize_key_order_witness :
  canonicalize (JObj [(KStr "b", JNull); (KStr "a", JInt 3)])
  = canonicalize (JObj [(KStr "a", JInt 3); (KStr "b", JNull)]).
Proof.
  apply (canonicalize_key_order [(KStr "b", JNull); (KStr "a", JInt 3)]
    [(KStr "a", JInt 3); (KStr "b", JNull)]).
  - apply (bool_decide_eq_true_1 (NoDup _)). vm_compute. reflexivity.
  - apply Permutation_swap.
Defined.

(** Whatever value [_clone_jsonable] is given, the canonicaliser accepts
    the clone, unless a NaN or an infinity occurs in the value. *)
Theorem clone_canonicalizes v :
  finite_json v = true → ∃ s, canonicalize (_clone_jsonable v) = Ok s.
Proof.
  intros Hf. pose proof (emit_plain _ (clone_plain v) (clone_finite v Hf)) as H.
  unfold canonicalize. destruct (_emit (_clone_jsonable v)) as [s|]; [by exists s|done].
Qed.

Lemma clone_canonicalizes_witness :
  ∃ s, canonicalize (_clone_jsonable (JObj [(KInt 1, JOther "b'x'"); (KStr "1", JNull)]))
       = Ok s.
Proof.
  apply (clone_canonicalizes (JObj [(KInt 1, JOther "b'x'"); (KStr "1", JNull)])).
  reflexivity.
Defined.
