(* ===== verification/JsonLoads.v ===== *)
(** * JsonLoads: json.loads

    The decoder of Python's [json] module, as the code uses it on the answers of
    language models: white space, literals (with NaN and the infinities), the
    number grammar, strings with their escapes and surrogate pairs, arrays and
    objects, in which a repeated key takes its last value.  The value of a number
    with a fraction or an exponent is a parameter; a surrogate without its other
    half is kept in the byte form that UTF-8 would give it.  The limit on nesting
    is not modelled. *)

From Stdlib Require Import Ascii NArith ZArith Lia.
From stdpp Require Import base tactics strings list.
From S2P Require Import Prelude PyStr Dict PyVal Regex Json.

#[local] Open Scope nat_scope.

(** [JSONDecodeError], the [ValueError] of an integer of more than 4300 digits,
    and the fuel of the model *)
Inductive loads_exn := JSONDecodeError | IntTooLong | LoadsFuel.

Abbreviation scanned A := (res loads_exn (A * string)).

Definition is_ws (c : ascii) : bool := existsb (Ascii.eqb c) [" "; "009"; "010"; "013"]%char.

Fixpoint skip_ws (s : string) : string :=
  match s with
  | String c r => if is_ws c then skip_ws r else s
  | EmptyString => s
  end.

(** [s] without the prefix [p] *)
Fixpoint strip_prefix (p s : string) : option string :=
  match p, s with
  | EmptyString, _ => Some s
  | String a p, String b s => if Ascii.eqb a b then strip_prefix p s else None
  | _, EmptyString => None
  end.

(** ** Strings *)

Definition hex_digit_val (c : ascii) : option N :=
  let n := N_of_ascii c in
  if in_range "0" "9" n then Some (n - 48)%N
  else if in_range "a" "f" n then Some (n - 87)%N
  else if in_range "A" "F" n then Some (n - 55)%N
  else None.

Definition hex4 (s : string) : option (N * string) :=
  match s with
  | String a (String b (String c (String d r))) =>
      x ← hex_digit_val a; y ← hex_digit_val b; z ← hex_digit_val c; w ← hex_digit_val d;
      Some (((x * 16 + y) * 16 + z) * 16 + w, r)%N
  | _ => None
  end.

(** What follows [\u] *)
Definition unicode_escape (s : string) : option (string * string) :=
  '(c, r) ← hex4 s;
  if ((55296 <=? c) && (c <=? 56319))%N then
    match strip_prefix (String BS "u") r with
    | Some r' =>
        '(c2, r'') ← hex4 r';
        if ((56320 <=? c2) && (c2 <=? 57343))%N then
          Some (utf8 (65536 + (c - 55296) * 1024 + (c2 - 56320)), r'')%N
        else Some (utf8 c, r)
    | None => Some (utf8 c, r)
    end
  else Some (utf8 c, r).

Definition simple_escape (c : ascii) : option ascii :=
  if Ascii.eqb c DQ then Some DQ else if Ascii.eqb c BS then Some BS
  else match c with
  | "/" => Some "/" | "b" => Some "008" | "f" => Some "012"
  | "n" => Some "010" | "r" => Some "013" | "t" => Some "009"
  | _ => None
  end%char.

(** The rest of a string after its opening quote *)
Fixpoint scan_string (fuel : nat) (acc s : string) : scanned string :=
  match fuel with
  | 0 => Err LoadsFuel
  | S fuel =>
      match s with
      | EmptyString => Err JSONDecodeError
      | String c r =>
          if Ascii.eqb c DQ then Ok (acc, r)
          else if Ascii.eqb c BS then
            match r with
            | EmptyString => Err JSONDecodeError
            | String "u" r =>
                match unicode_escape r with
                | Some (t, r) => scan_string fuel (acc +:+ t) r
                | None => Err JSONDecodeError
                end
            | String e r =>
                match simple_escape e with
                | Some x => scan_string fuel (acc +:+ String x "") r
                | None => Err JSONDecodeError
                end
            end
          else if (N_of_ascii c <? 32)%N then Err JSONDecodeError
          else scan_string fuel (acc +:+ String c "") r
      end
  end.

(** ** Numbers *)

Definition is_digit (c : ascii) : bool := in_range "0" "9" (N_of_ascii c).

(** The digits at the head *)
Fixpoint span_digits (s : string) : string * string :=
  match s with
  | String c r => if is_digit c then let '(d, r) := span_digits r in (String c d, r) else ("", s)
  | EmptyString => ("", "")
  end.

(** [(\.\d+)?] and [([eE][-+]?\d+)?] *)
Definition frac_part (s : string) : string * string :=
  match s with
  | String "." r => let '(d, r') := span_digits r in if str_empty d then ("", s) else (String "." d, r')
  | _ => ("", s)
  end.

Definition exp_part (s : string) : string * string :=
  match s with
  | String e r =>
      if Ascii.eqb e "e" || Ascii.eqb e "E" then
        let '(sign, r) := match r with
          | String c r' => if Ascii.eqb c "-" || Ascii.eqb c "+" then (String c "", r') else ("", r)
          | EmptyString => ("", r)
          end in
        let '(d, r) := span_digits r in
        if str_empty d then ("", s) else (String e (sign +:+ d), r)
      else ("", s)
  | EmptyString => ("", s)
  end.

Definition int_part (s : string) : option (string * string) :=
  match s with
  | String "0" r => Some ("0", r)
  | _ => let '(d, r) := span_digits s in if str_empty d then None else Some (d, r)
  end.

Fixpoint digits_value (acc : Z) (s : string) : Z :=
  match s with
  | String c r => digits_value (acc * 10 + Z.of_N (N_of_ascii c - 48)) r
  | EmptyString => acc
  end.

Section loads.
(** [float(s)] of a text with a fraction or an exponent *)
Context (float_of_text : string → pyfloat).

Definition scan_number (s : string) : scanned json :=
  let '(sign, r) := match s with String "-" r => ("-", r) | _ => ("", s) end in
  match int_part r with
  | None => Err JSONDecodeError
  | Some (int, r) =>
      let '(frac, r) := frac_part r in
      let '(exp, r) := exp_part r in
      if str_empty frac && str_empty exp then
        if 4300 <? String.length int then Err IntTooLong
        else let z := digits_value 0 int in Ok (JInt (if str_empty sign then z else - z)%Z, r)
      else Ok (JFloat (float_of_text (sign +:+ int +:+ frac +:+ exp)), r)
  end.

(** ** Values *)

(** The elements of an array from the first, and the pairs of an object from the
    key's opening quote; [value] scans an element *)
Fixpoint scan_array (value : string → scanned json) (fuel : nat) (acc : list json) (s : string) : scanned json :=
  match fuel with
  | 0 => Err LoadsFuel
  | S fuel =>
      v <~ value s;
      let acc := acc ++ [v.1] in
      match skip_ws v.2 with
      | String "]" r => Ok (JList acc, r)
      | String "," r => scan_array value fuel acc (skip_ws r)
      | _ => Err JSONDecodeError
      end
  end.

Fixpoint scan_object (value : string → scanned json) (fuel : nat) (acc : list (pykey * json)) (s : string)
    : scanned json :=
  match fuel with
  | 0 => Err LoadsFuel
  | S fuel =>
      match s with
      | String q r =>
          if negb (Ascii.eqb q DQ) then Err JSONDecodeError
          else
            k <~ scan_string (S (String.length r)) "" r;
            match skip_ws k.2 with
            | String ":" r =>
                v <~ value (skip_ws r);
                let acc := acc ++ [(KStr k.1, v.1)] in
                match skip_ws v.2 with
                | String "}" r => Ok (JObj (dict_of acc), r)
                | String "," r => scan_object value fuel acc (skip_ws r)
                | _ => Err JSONDecodeError
                end
            | _ => Err JSONDecodeError
            end
      | EmptyString => Err JSONDecodeError
      end
  end.

Definition scan_literal (s : string) : option (json * string) :=
  let try (word : string) (v : json) := (λ r, (v, r)) <$> strip_prefix word s in
  match try "null" JNull with Some x => Some x | None =>
  match try "true" (JBool true) with Some x => Some x | None =>
  match try "false" (JBool false) with Some x => Some x | None =>
  match try "NaN" (JFloat FNonFinite) with Some x => Some x | None =>
  match try "Infinity" (JFloat FNonFinite) with Some x => Some x | None =>
  try "-Infinity" (JFloat FNonFinite) end end end end end.

Fixpoint scan_once (fuel : nat) (s : string) : scanned json :=
  match fuel with
  | 0 => Err LoadsFuel
  | S fuel =>
      match s with
      | EmptyString => Err JSONDecodeError
      | String c r =>
          if Ascii.eqb c DQ then t <~ scan_string (S (String.length r)) "" r; Ok (JStr t.1, t.2)
          else if Ascii.eqb c "{" then
            match skip_ws r with
            | String "}" r => Ok (JObj [], r)
            | r => scan_object (scan_once fuel) fuel [] r
            end
          else if Ascii.eqb c "[" then
            match skip_ws r with
            | String "]" r => Ok (JList [], r)
            | r => scan_array (scan_once fuel) fuel [] r
            end
          else match scan_literal s with
          | Some x => Ok x
          | None => scan_number s
          end
      end
  end.

(** [json.loads(s)]; a byte order mark is refused *)
Definition loads (s : string) : res loads_exn json :=
  raise_if (str_startswith (utf8 65279) s) JSONDecodeError ;!
  v <~ scan_once (S (String.length s)) (skip_ws s);
  raise_if (negb (str_empty (skip_ws v.2))) JSONDecodeError ;!
  Ok v.1.
End loads.

(** Double quotes for the samples *)
Definition quoted (s : string) : string := str_map (λ c, if Ascii.eqb c "'" then DQ else c) s.

Example loads_sample :
  loads (λ _, FNonFinite) (quoted " {'a': [1, -20, true], 'b\u00e9': null, 'a': 'x\n'} ") =
  Ok (JObj [(KStr "a", JStr ("x" +:+ String "010" "")); (KStr "bé", JNull)]).
Proof. vm_compute. reflexivity. Qed.

Example loads_pair : loads (λ _, FNonFinite) (quoted "'\ud83d\ude00'") = Ok (JStr "😀").
Proof. vm_compute. reflexivity. Qed.

Example loads_trailing : loads (λ _, FNonFinite) "[1,]" = Err JSONDecodeError.
Proof. vm_compute. reflexivity. Qed.

(** ** The fuel is enough

    Every scanner consumes what it accepts, and none runs out of fuel when given
    one unit more than the length of its input. *)

Definition scans {A} (strictly : nat) (s : string) (m : scanned A) : Prop :=
  match m with
  | Ok (_, r) => String.length r + strictly ≤ String.length s
  | Err e => e ≠ LoadsFuel
  end.

Lemma skip_ws_le s : String.length (skip_ws s) ≤ String.length s.
Proof. induction s as [|c s IH]; cbn [skip_ws]; [done|]. destruct (is_ws c); cbn [String.length]; lia. Qed.

Lemma strip_prefix_len p s r : strip_prefix p s = Some r → String.length s = String.length p + String.length r.
Proof.
  revert s. induction p as [|a p IH]; intros s; cbn; [by intros [= ->]|]. destruct s as [|b s]; [done|].
  destruct (Ascii.eqb a b); [|done]. intros H%IH. cbn. lia.
Qed.

Lemma hex4_len s n r : hex4 s = Some (n, r) → String.length s = 4 + String.length r.
Proof.
  destruct s as [|a [|b [|c [|d s]]]]; cbn; try done.
  destruct (hex_digit_val a), (hex_digit_val b), (hex_digit_val c), (hex_digit_val d); cbn; try done. by intros [= _ ->].
Qed.

Lemma unicode_escape_len s t r : unicode_escape s = Some (t, r) → String.length r ≤ String.length s.
Proof.
  unfold unicode_escape. destruct (hex4 s) as [[c r1]|] eqn:E; [|done]. apply hex4_len in E. cbn [mbind option_bind].
  destruct (_ && _)%N; [|intros [= _ <-]; lia].
  destruct (strip_prefix _ r1) as [r2|] eqn:E2; [|intros [= _ <-]; lia]. apply strip_prefix_len in E2. cbn in E2.
  destruct (hex4 r2) as [[c2 r3]|] eqn:E3; [|done]. apply hex4_len in E3. cbn [mbind option_bind].
  destruct (_ && _)%N; intros [= _ <-]; lia.
Qed.

Lemma scan_string_scans fuel acc s : String.length s < fuel → scans 1 s (scan_string fuel acc s).
Proof.
  revert acc s. induction fuel as [|fuel IH]; intros acc s Hf; [lia|]. cbn [scan_string].
  destruct s as [|c s]; [done|]. cbn [String.length] in Hf.
  assert (∀ acc r, String.length r ≤ String.length s → scans 1 (String c s) (scan_string fuel acc r)) as Hrec.
  { intros acc' r Hr. specialize (IH acc' r ltac:(lia)). unfold scans in *.
    destruct (scan_string fuel acc' r) as [[t r']|e]; [|done]. cbn [String.length]. lia. }
  destruct (Ascii.eqb c DQ); [cbn; lia|]. destruct (Ascii.eqb c BS); [|destruct (_ <? 32)%N; [done|by apply Hrec]].
  destruct s as [|e s]; [done|]. cbn [String.length] in Hrec.
  assert (scans 1 (String c (String e s)) (match simple_escape e with
    | Some x => scan_string fuel (acc +:+ String x "") s | None => Err JSONDecodeError end)) as Hs.
  { destruct (simple_escape e); [|done]. apply Hrec. lia. }
  assert (scans 1 (String c (String e s)) (match unicode_escape s with
    | Some (t, r) => scan_string fuel (acc +:+ t) r | None => Err JSONDecodeError end)) as Hu.
  { destruct (unicode_escape s) as [[t r]|] eqn:E; [|done]. apply unicode_escape_len in E. apply Hrec. lia. }
  by destruct e as [[] [] [] [] [] [] [] []].
Qed.

Lemma span_digits_len s : String.length (span_digits s).2 + String.length (span_digits s).1 = String.length s.
Proof.
  induction s as [|c s IH]; cbn; [done|]. destruct (is_digit c); [|cbn; lia].
  destruct (span_digits s) as [d r]. cbn in *. lia.
Qed.

Lemma frac_part_len s : String.length (frac_part s).2 ≤ String.length s.
Proof.
  destruct s as [|c s]; [done|]. pose proof (span_digits_len s) as H. unfold frac_part.
  destruct c as [[] [] [] [] [] [] [] []]; try done. destruct (span_digits s) as [d r].
  destruct (str_empty d); cbn in *; lia.
Qed.

Lemma exp_part_len s : String.length (exp_part s).2 ≤ String.length s.
Proof.
  destruct s as [|e s]; [done|]. unfold exp_part. destruct (_ || _); [|done].
  set (p := match s with String c r' => _ | EmptyString => _ end).
  assert (String.length p.2 ≤ String.length s) as Hp by (subst p; destruct s as [|c s]; [done|]; destruct (_ || _); cbn; lia).
  destruct p as [sign r]. pose proof (span_digits_len r) as H. destruct (span_digits r) as [d r'].
  destruct (str_empty d); cbn in *; lia.
Qed.

Lemma int_part_len s i r : int_part s = Some (i, r) → String.length r + 1 ≤ String.length s.
Proof.
  intros H. assert (int_part s = Some (i, r) → (let '(d, r) := span_digits s in if str_empty d then None else Some (d, r)) = Some (i, r)
    ∨ s = String "0" r) as Hc.
  { unfold int_part. destruct s as [|c s]; [auto|]. destruct c as [[] [] [] [] [] [] [] []]; auto. intros [= _ <-]. auto. }
  destruct (Hc H) as [Hd| ->]; [|cbn; lia]. pose proof (span_digits_len s) as Hl. destruct (span_digits s) as [d r'].
  destruct d as [|c d]; [done|]. injection Hd as _ <-. cbn in *. lia.
Qed.

Section fuel.
Context (float_of_text : string → pyfloat).

Lemma scan_number_scans s : scans 1 s (scan_number float_of_text s).
Proof.
  unfold scan_number. set (p := match s with String "-" r => _ | _ => _ end).
  assert (String.length p.2 ≤ String.length s) as Hp.
  { subst p. destruct s as [|c s]; [done|]. destruct c as [[] [] [] [] [] [] [] []]; cbn; lia. }
  destruct p as [sign r]. cbn [snd] in Hp.
  destruct (int_part r) as [[int r1]|] eqn:Hi; [|done]. apply int_part_len in Hi.
  pose proof (frac_part_len r1) as Hf. destruct (frac_part r1) as [frac r2]. cbn [snd] in Hf.
  pose proof (exp_part_len r2) as He. destruct (exp_part r2) as [exp r3]. cbn [snd] in He.
  destruct (_ && _); [destruct (4300 <? _); [done|]|]; cbn; lia.
Qed.

Lemma scan_literal_len s v r : scan_literal s = Some (v, r) → String.length r + 1 ≤ String.length s.
Proof.
  unfold scan_literal. repeat (destruct (strip_prefix _ s) as [?r|] eqn:E; cbn -[strip_prefix];
    [apply strip_prefix_len in E; cbn in E; intros [= _ <-]; lia|clear E]). done.
Qed.

Section containers.
Context (value : string → scanned json) (bound : nat).
Context (value_scans : ∀ s, String.length s < bound → scans 1 s (value s)).

Lemma scan_array_scans fuel acc s :
  String.length s < fuel → String.length s < bound → scans 1 s (scan_array value fuel acc s).
Proof using value_scans.
  revert acc s. induction fuel as [|fuel IH]; intros acc s Hf Hb; [lia|]. cbn [scan_array].
  pose proof (value_scans s Hb) as Hv. destruct (value s) as [[v r]|e]; [|exact Hv]. cbn [res_bind fst snd].
  cbn [scans] in Hv. pose proof (skip_ws_le r) as Hr. destruct (skip_ws r) as [|c r']; [done|]. cbn [String.length] in Hr.
  assert (scans 1 s (scan_array value fuel (acc ++ [v]) (skip_ws r'))) as Hrec.
  { pose proof (skip_ws_le r') as Hr'. specialize (IH (acc ++ [v]) (skip_ws r') ltac:(lia) ltac:(lia)).
    unfold scans in *. destruct (scan_array _ _ _ _) as [[x y]|e]; [lia|done]. }
  destruct c as [[] [] [] [] [] [] [] []]; try done. cbn. lia.
Qed.

Lemma scan_object_scans fuel acc s :
  String.length s < fuel → String.length s < bound → scans 1 s (scan_object value fuel acc s).
Proof using value_scans.
  revert acc s. induction fuel as [|fuel IH]; intros acc s Hf Hb; [lia|]. cbn [scan_object].
  destruct s as [|q s]; [done|]. destruct (negb _); [done|]. cbn [String.length] in *.
  pose proof (scan_string_scans (S (String.length s)) "" s ltac:(lia)) as Hk.
  destruct (scan_string _ _ s) as [[k r]|e]; [|exact Hk]. cbn [res_bind fst snd]. cbn [scans] in Hk.
  pose proof (skip_ws_le r) as Hr. destruct (skip_ws r) as [|c r1]; [done|]. cbn [String.length] in Hr.
  assert (scans 1 (String q s) (v <~ value (skip_ws r1);
     let acc := acc ++ [(KStr k, v.1)] in
     match skip_ws v.2 with
     | String "}" r => Ok (JObj (dict_of acc), r)
     | String "," r => scan_object value fuel acc (skip_ws r)
     | _ => Err JSONDecodeError
     end)) as Hv; [|by destruct c as [[] [] [] [] [] [] [] []]].
  pose proof (skip_ws_le r1) as Hr1. pose proof (value_scans (skip_ws r1) ltac:(lia)) as Hv.
  destruct (value (skip_ws r1)) as [[v r2]|e]; [|exact Hv]. cbn [res_bind fst snd]. cbn [scans] in Hv.
  pose proof (skip_ws_le r2) as Hr2. destruct (skip_ws r2) as [|c' r3]; [done|]. cbn [String.length] in Hr2.
  assert (scans 1 (String q s) (scan_object value fuel (acc ++ [(KStr k, v)]) (skip_ws r3))) as Hrec.
  { pose proof (skip_ws_le r3) as Hr3. specialize (IH (acc ++ [(KStr k, v)]) (skip_ws r3) ltac:(lia) ltac:(lia)).
    unfold scans in *. destruct (scan_object _ _ _ _) as [[x y]|e]; [|done]. cbn [String.length]. lia. }
  destruct c' as [[] [] [] [] [] [] [] []]; try done. cbn. lia.
Qed.
End containers.

Lemma scan_once_scans fuel s : String.length s < fuel → scans 1 s (scan_once float_of_text fuel s).
Proof.
  revert s. induction fuel as [|fuel IH]; intros s Hf; [lia|]. cbn [scan_once]. destruct s as [|c s]; [done|].
  cbn [String.length] in Hf.
  assert (∀ r m, String.length r ≤ String.length s → scans 1 r m → scans 1 (String c s) (m : scanned json)) as Hlift.
  { intros r m Hr. unfold scans. destruct m as [[x y]|e]; [|done]. cbn [String.length]. lia. }
  pose proof (skip_ws_le s) as Hs.
  destruct (Ascii.eqb c DQ).
  { pose proof (scan_string_scans (S (String.length s)) "" s ltac:(lia)) as Ht.
    destruct (scan_string _ _ s) as [[t r]|e]; [|exact Ht]. cbn in *. lia. }
  destruct (Ascii.eqb c "{").
  { pose proof (scan_object_scans (scan_once float_of_text fuel) fuel IH fuel [] (skip_ws s) ltac:(lia) ltac:(lia)) as Ho.
    apply (Hlift _ _ Hs) in Ho. destruct (skip_ws s) as [|d r]; [done|]. cbn [String.length] in Hs.
    destruct d as [[] [] [] [] [] [] [] []]; try exact Ho. cbn. lia. }
  destruct (Ascii.eqb c "[").
  { pose proof (scan_array_scans (scan_once float_of_text fuel) fuel IH fuel [] (skip_ws s) ltac:(lia) ltac:(lia)) as Ho.
    apply (Hlift _ _ Hs) in Ho. destruct (skip_ws s) as [|d r]; [done|]. cbn [String.length] in Hs.
    destruct d as [[] [] [] [] [] [] [] []]; try exact Ho. cbn. lia. }
  destruct (scan_literal (String c s)) as [[v r]|] eqn:E; [|apply scan_number_scans]. by apply scan_literal_len in E.
Qed.

(** [loads] answers or raises; it never stops for want of fuel. *)
Lemma loads_total s : loads float_of_text s ≠ Err LoadsFuel.
Proof.
  unfold loads. destruct (str_startswith _ s); [done|]. cbn [res_bind raise_if]. pose proof (skip_ws_le s) as Hs.
  pose proof (scan_once_scans (S (String.length s)) (skip_ws s) ltac:(lia)) as Hv.
  destruct (scan_once _ _ _) as [[v r]|e]; cbn in Hv |- *; [|congruence]. by destruct (str_empty _).
Qed.
End fuel.
