(* ===== verification/Did.v ===== *)
(** * Did: decentralised identifiers

    Models [identity/did.py]: the parser of [did:<method>:<id>], and the
    builders and decoders of the three methods MassClaw accepts, [did:key],
    [did:web] and the legacy [did:nanda].  A raw Ed25519 public key is a list
    of 32 bytes. *)

From Stdlib Require Import Ascii NArith Lia.
From stdpp Require Import base tactics list strings.
From S2P Require Import Prelude PyStr Base58.

(** ** The code *)

Inductive did_error := MalformedDIDError.

Definition DID_METHOD_KEY : string := "key".
Definition DID_METHOD_WEB : string := "web".
Definition DID_METHOD_NANDA_LEGACY : string := "nanda".

Definition _ED25519_MULTICODEC_PREFIX : list Byte.byte := [Byte.xed; Byte.x01].

Record ParsedDID := { method : string; identifier : string }.

Definition as_str (p : ParsedDID) : string :=
  "did:" +:+ method p +:+ ":" +:+ identifier p.

Definition parse_did (did : string) : res did_error ParsedDID :=
  raise_if (negb (str_startswith "did:" did)) MalformedDIDError ;!
  match str_split_max ":" 2 did with
  | [_; m; i] =>
      if str_empty m || str_empty i then Err MalformedDIDError
      else Ok {| method := str_lower m; identifier := i |}
  | _ => Err MalformedDIDError
  end.

(** [try: decode_multibase(...) except Exception: raise MalformedDIDError] *)
Definition decode_identifier (i : string) : res did_error (list Byte.byte) :=
  res_catch (decode_multibase i) (λ _, Err MalformedDIDError).

Definition build_did_key (public_bytes : list Byte.byte) : res did_error string :=
  raise_if (negb (length public_bytes =? 32)) MalformedDIDError ;!
  Ok ("did:" +:+ DID_METHOD_KEY +:+ ":" +:+
      encode_multibase (_ED25519_MULTICODEC_PREFIX ++ public_bytes)).

(** [raw.startswith(prefix)] and [raw[len(prefix):]] on bytes *)
Fixpoint strip_prefix (p raw : list Byte.byte) : option (list Byte.byte) :=
  match p, raw with
  | [], _ => Some raw
  | x :: p, y :: raw => if Byte.eqb x y then strip_prefix p raw else None
  | _ :: _, [] => None
  end.

Definition decode_did_key (did : string) : res did_error (list Byte.byte) :=
  parsed <~ parse_did did;
  raise_if (negb (String.eqb (method parsed) DID_METHOD_KEY)) MalformedDIDError ;!
  raw <~ decode_identifier (identifier parsed);
  match strip_prefix _ED25519_MULTICODEC_PREFIX raw with
  | None => Err MalformedDIDError
  | Some body =>
      raise_if (negb (length body =? 32)) MalformedDIDError ;! Ok body
  end.

Definition build_did_web (host : string) (path : option string)
    : res did_error string :=
  raise_if (str_empty host || str_mem "/" host || str_mem ":" host)
    MalformedDIDError ;!
  let ident :=
    match path with
    | None => host
    | Some p =>
        let cleaned := str_replace "/" ":" (str_strip "/" p) in
        if str_empty cleaned then host else host +:+ ":" +:+ cleaned
    end in
  Ok ("did:" +:+ DID_METHOD_WEB +:+ ":" +:+ ident).

Definition did_web_to_url (did : string) : res did_error string :=
  parsed <~ parse_did did;
  raise_if (negb (String.eqb (method parsed) DID_METHOD_WEB)) MalformedDIDError ;!
  match str_split ":" (identifier parsed) with
  | [] => Err MalformedDIDError
  | host :: rest =>
      raise_if (str_empty host) MalformedDIDError ;!
      match rest with
      | [] => Ok ("https://" +:+ host +:+ "/.well-known/did.json")
      | _ => Ok ("https://" +:+ host +:+ "/" +:+ str_join "/" rest +:+ "/did.json")
      end
  end.

Definition build_did_nanda (public_bytes : list Byte.byte) : res did_error string :=
  raise_if (negb (length public_bytes =? 32)) MalformedDIDError ;!
  Ok ("did:" +:+ DID_METHOD_NANDA_LEGACY +:+ ":" +:+ encode_multibase public_bytes).

Definition decode_did_nanda (did : string) : res did_error (list Byte.byte) :=
  parsed <~ parse_did did;
  raise_if (negb (String.eqb (method parsed) DID_METHOD_NANDA_LEGACY))
    MalformedDIDError ;!
  body <~ decode_identifier (identifier parsed);
  raise_if (negb (length body =? 32)) MalformedDIDError ;! Ok body.

Definition build_did_from_public_key (public_bytes : list Byte.byte)
    : res did_error string := build_did_key public_bytes.

Definition public_key_from_did (did : string) : res did_error (list Byte.byte) :=
  parsed <~ parse_did did;
  if String.eqb (method parsed) DID_METHOD_KEY then decode_did_key did
  else if String.eqb (method parsed) DID_METHOD_NANDA_LEGACY then decode_did_nanda did
  else Err MalformedDIDError.

Example parse_did_ex :
  parse_did "did:WEB:a.example:b" = Ok {| method := "web"; identifier := "a.example:b" |}.
Proof. reflexivity. Qed.
Example did_web_ex :
  (d <~ build_did_web "massclaw.example" (Some "/agents/scheduler/"); did_web_to_url d)
  = Ok "https://massclaw.example/agents/scheduler/did.json".
Proof. reflexivity. Qed.

(** ** Lemmas *)

Lemma str_cut_did r : str_cut ":" ("did:" +:+ r) = Some ("did", r).
Proof. reflexivity. Qed.

(** The parser, read backwards. *)
Lemma parse_did_Ok did p :
  parse_did did = Ok p ↔
  ∃ m, did = "did:" +:+ m +:+ ":" +:+ identifier p ∧ str_mem ":" m = false ∧
    method p = str_lower m ∧ m ≠ "" ∧ identifier p ≠ "".
Proof.
  unfold parse_did. rewrite res_bind_Ok. split.
  - intros ([]&Hs%raise_if_Ok&H). apply negb_false_iff, str_startswith_true in Hs as [r ->].
    cbn [str_split_max] in H. rewrite str_cut_did in H.
    destruct (str_cut ":" r) as [[m i]|] eqn:E; [|done].
    apply str_cut_Some in E as [-> Hm].
    destruct (str_empty m) eqn:Em; [done|]. destruct (str_empty i) eqn:Ei; [done|].
    cbn in H. simplify_eq. exists m. cbn.
    split_and!; [done|done|done|by intros ->|by intros ->].
  - intros (m&->&Hm&Hp&Hne&Hie). exists tt.
    rewrite str_startswith_app. split; [done|].
    cbn [str_split_max]. rewrite str_cut_did.
    change (":" +:+ identifier p) with (String ":" (identifier p)).
    rewrite str_cut_app by done.
    destruct p as [pm pi]. cbn in *.
    destruct (str_empty m) eqn:Em; [by apply str_empty_true in Em|].
    destruct (str_empty pi) eqn:Ei; [by apply str_empty_true in Ei|]. by subst.
Qed.

Lemma parse_did_as_str p :
  str_lower (method p) = method p → str_mem ":" (method p) = false →
  method p ≠ "" → identifier p ≠ "" → parse_did (as_str p) = Ok p.
Proof. intros. apply parse_did_Ok. by exists (method p). Qed.

Lemma decode_encode_multibase raw : decode_multibase (encode_multibase raw) = Ok raw.
Proof. apply b58decode_encode. Qed.

Lemma decode_identifier_Ok i raw :
  decode_identifier i = Ok raw ↔ i = encode_multibase raw.
Proof.
  unfold decode_identifier. split.
  - unfold encode_multibase. destruct i as [|c i]; [done|]. cbn.
    destruct (Ascii.eqb_spec c _MULTIBASE_BTC) as [->|]; [|done].
    destruct (b58decode i) eqn:E; [|done]. cbn. intros [= ->].
    by apply b58encode_decode in E as <-.
  - intros ->. by rewrite decode_encode_multibase.
Qed.

Lemma strip_prefix_Some p raw body : strip_prefix p raw = Some body ↔ raw = p ++ body.
Proof.
  revert raw. induction p as [|x p IH]; intros raw; cbn; [naive_solver|].
  destruct raw as [|y raw]; [naive_solver|].
  destruct (Byte.eqb x y) eqn:E.
  - apply Strings.Byte.byte_dec_bl in E as ->. rewrite IH. naive_solver.
  - split; [done|]. intros [= -> ->].
    by rewrite (Strings.Byte.byte_dec_lb eq_refl) in E.
Qed.

(** The guards the two decoders share, as facts about byte strings. *)
Lemma decode_did_key_Ok did pk :
  decode_did_key did = Ok pk ↔
  length pk = 32 ∧ ∃ p, parse_did did = Ok p ∧ method p = DID_METHOD_KEY ∧
    identifier p = encode_multibase (_ED25519_MULTICODEC_PREFIX ++ pk).
Proof.
  unfold decode_did_key. rewrite res_bind_Ok. setoid_rewrite res_bind_Ok.
  setoid_rewrite raise_if_Ok. setoid_rewrite res_bind_Ok.
  setoid_rewrite decode_identifier_Ok. setoid_rewrite negb_false_iff.
  setoid_rewrite String.eqb_eq. split.
  - intros (p&Hp&[]&Hm&raw&Hi&H).
    destruct (strip_prefix _ raw) as [body|] eqn:Eb; [|done].
    apply strip_prefix_Some in Eb as ->.
    apply res_bind_Ok in H as ([]&Hl%raise_if_Ok&[= ->]).
    apply negb_false_iff, Nat.eqb_eq in Hl. split; [done|]. by exists p.
  - intros (Hl&p&Hp&Hm&Hi). exists p. split; [done|]. exists tt. split; [done|].
    exists (_ED25519_MULTICODEC_PREFIX ++ pk). split; [done|].
    assert (strip_prefix _ED25519_MULTICODEC_PREFIX (_ED25519_MULTICODEC_PREFIX ++ pk)
            = Some pk) as -> by by apply strip_prefix_Some.
    by rewrite Hl.
Qed.

Lemma decode_did_nanda_Ok did pk :
  decode_did_nanda did = Ok pk ↔
  length pk = 32 ∧ ∃ p, parse_did did = Ok p ∧ method p = DID_METHOD_NANDA_LEGACY ∧
    identifier p = encode_multibase pk.
Proof.
  unfold decode_did_nanda. rewrite res_bind_Ok. setoid_rewrite res_bind_Ok.
  setoid_rewrite raise_if_Ok. setoid_rewrite res_bind_Ok.
  setoid_rewrite decode_identifier_Ok. setoid_rewrite negb_false_iff.
  setoid_rewrite String.eqb_eq. split.
  - intros (p&Hp&[]&Hm&raw&Hi&H).
    apply res_bind_Ok in H as ([]&Hl%raise_if_Ok&[= ->]).
    apply negb_false_iff, Nat.eqb_eq in Hl. split; [done|]. by exists p.
  - intros (Hl&p&Hp&Hm&Hi). exists p. split; [done|]. exists tt. split; [done|].
    exists pk. split; [done|]. by rewrite Hl.
Qed.

Lemma method_did_eq p did :
  parse_did did = Ok p → str_lower (method p) = method p ∧ str_mem ":" (method p) = false.
Proof.
  intros (m&_&Hm&->&_)%parse_did_Ok. by rewrite str_lower_idem, str_mem_lower_colon.
Qed.

Lemma as_str_inj p q :
  str_mem ":" (method p) = false → str_mem ":" (method q) = false →
  as_str p = as_str q → p = q.
Proof.
  destruct p as [m i], q as [m' i']. unfold as_str. cbn [method identifier].
  intros Hm Hm' E%str_app_inj_l. apply (f_equal (str_cut ":")) in E.
  change (":" +:+ i) with (String ":" i) in E.
  change (":" +:+ i') with (String ":" i') in E.
  rewrite !str_cut_app in E by done. by simplify_eq.
Qed.

Lemma build_did_key_Ok pk s :
  build_did_key pk = Ok s ↔ length pk = 32 ∧
    s = as_str {| method := DID_METHOD_KEY;
                  identifier := encode_multibase (_ED25519_MULTICODEC_PREFIX ++ pk) |}.
Proof.
  unfold build_did_key. rewrite res_bind_Ok. setoid_rewrite raise_if_Ok.
  setoid_rewrite negb_false_iff. setoid_rewrite Nat.eqb_eq.
  split; [by intros ([]&?&[= <-])|]. intros [? ->]. by exists tt.
Qed.

Lemma build_did_nanda_Ok pk s :
  build_did_nanda pk = Ok s ↔ length pk = 32 ∧
    s = as_str {| method := DID_METHOD_NANDA_LEGACY;
                  identifier := encode_multibase pk |}.
Proof.
  unfold build_did_nanda. rewrite res_bind_Ok. setoid_rewrite raise_if_Ok.
  setoid_rewrite negb_false_iff. setoid_rewrite Nat.eqb_eq.
  split; [by intros ([]&?&[= <-])|]. intros [? ->]. by exists tt.
Qed.

Lemma str_replace_twice a b s :
  str_replace b a (str_replace a b s) = str_replace b a s.
Proof.
  unfold str_replace. rewrite str_map_compose. apply str_map_ext. intros c.
  destruct (Ascii.eqb_spec c a) as [->|]; [|done]. rewrite Ascii.eqb_refl.
  by destruct (Ascii.eqb a b).
Qed.

(** ["/".join(s.split(":"))] is [s.replace(":", "/")]. *)
Lemma join_split_replace a b n s :
  String.length s ≤ n →
  str_join (String b "") (str_split_max a n s) = str_replace a b s.
Proof.
  revert s. induction n as [|n IH]; intros s Hn.
  { by destruct s; [|cbn in Hn; lia]. }
  cbn [str_split_max]. destruct (str_cut a s) as [[x y]|] eqn:E.
  - pose proof (str_length_cut _ _ _ _ E). rewrite str_join_cons by apply str_split_max_ne.
    rewrite IH by lia. apply str_cut_Some in E as [-> Hx].
    unfold str_replace. rewrite str_map_app. cbn [str_map]. rewrite Ascii.eqb_refl.
    f_equal. symmetry. clear -Hx. induction x as [|c x IHx]; [done|].
    cbn in Hx |- *. apply orb_false_iff in Hx as [-> Hx]. by rewrite IHx.
  - apply str_cut_None in E. cbn [str_join]. symmetry. clear -E.
    induction s as [|c s IHs]; [done|].
    cbn in E |- *. apply orb_false_iff in E as [-> E]. by rewrite IHs.
Qed.

Lemma parse_did_web i :
  i ≠ "" → parse_did ("did:" +:+ DID_METHOD_WEB +:+ ":" +:+ i)
           = Ok {| method := DID_METHOD_WEB; identifier := i |}.
Proof. intros Hi. apply parse_did_Ok. by exists DID_METHOD_WEB. Qed.

(** ** Theorems *)

Lemma public_key_from_did_iff did pk :
  public_key_from_did did = Ok pk ↔
  ∃ p, parse_did did = Ok p ∧
    (build_did_key pk = Ok (as_str p) ∨ build_did_nanda pk = Ok (as_str p)).
Proof.
  unfold public_key_from_did. rewrite res_bind_Ok.
  setoid_rewrite build_did_key_Ok. setoid_rewrite build_did_nanda_Ok.
  split; intros (p&Hp&H); exists p; (split; [done|]);
    destruct (method_did_eq _ _ Hp) as [_ Hm].
  - destruct (String.eqb_spec (method p) DID_METHOD_KEY) as [Hk|].
    + left. apply decode_did_key_Ok in H as (Hl&p'&Hp'&_&Hi). split; [done|].
      rewrite Hp in Hp'. injection Hp' as <-. unfold as_str. cbn. by rewrite Hk, Hi.
    + destruct (String.eqb_spec (method p) DID_METHOD_NANDA_LEGACY) as [Hk|]; [|done].
      right. apply decode_did_nanda_Ok in H as (Hl&p'&Hp'&_&Hi). split; [done|].
      rewrite Hp in Hp'. injection Hp' as <-. unfold as_str. cbn. by rewrite Hk, Hi.
  - destruct H as [[Hl E]|[Hl E]]; apply as_str_inj in E as ->; try done; cbn.
    + apply decode_did_key_Ok. split; [done|]. by eexists.
    + apply decode_did_nanda_Ok. split; [done|]. by eexists.
Qed.

(** [public_key_from_did] recovers a key from exactly two canonical
    spellings.  It returns [pk] precisely when [pk] has 32 bytes and the
    identifier, with its method name lowercased, is the string
    [build_did_key] or [build_did_nanda] produces for [pk]; in particular
    both builders round-trip, and two keys never share an identifier. *)
Theorem public_key_from_did_spec did pk :
  public_key_from_did did = Ok pk ↔
  ∃ p, parse_did did = Ok p ∧
    (build_did_key pk = Ok (as_str p) ∨ build_did_nanda pk = Ok (as_str p)).
Proof. exact (public_key_from_did_iff did pk). Qed.

(** On [did:web], building an identifier from a plain host and a path and
    resolving it again gives the [did.json] URL under that host: the
    well-known location when the path is empty, otherwise the path without
    its outer slashes (with [:] read as [/]). *)
Theorem did_web_url_spec host path :
  str_empty host = false → str_mem "/" host = false → str_mem ":" host = false →
  (did <~ build_did_web host path; did_web_to_url did) =
  Ok (match path with
      | Some p =>
          if str_empty (str_strip "/" p) then "https://" +:+ host +:+ "/.well-known/did.json"
          else "https://" +:+ host +:+ "/" +:+ str_replace ":" "/" (str_strip "/" p)
                 +:+ "/did.json"
      | None => "https://" +:+ host +:+ "/.well-known/did.json"
      end).
Proof.
  intros He Hs Hc.
  assert (host ≠ "") as Hne by (by intros ->).
  assert (Hplain : did_web_to_url ("did:" +:+ DID_METHOD_WEB +:+ ":" +:+ host)
    = Ok ("https://" +:+ host +:+ "/.well-known/did.json")).
  { unfold did_web_to_url. rewrite parse_did_web by done. cbn [res_bind].
    unfold str_split. rewrite str_split_max_plain by done. cbn. by rewrite He. }
  unfold build_did_web. rewrite He, Hs, Hc. cbn [orb raise_if res_bind].
  destruct path as [p|]; [|done].
  unfold str_replace at 1 2. rewrite str_empty_map. fold (str_replace "/" ":").
  destruct (str_empty (str_strip "/" p)) eqn:Ep; [done|].
  unfold did_web_to_url. rewrite parse_did_web by by destruct host.
  cbn [res_bind method identifier]. rewrite String.eqb_refl. cbn [negb raise_if res_bind].
  change (":" +:+ ?c) with (String ":" c). unfold str_split.
  rewrite str_length_app. cbn [String.length]. rewrite Nat.add_succ_r.
  rewrite str_split_max_cons by done. rewrite He. cbn [raise_if res_bind].
  set (cleaned := str_replace "/" ":" (str_strip "/" p)).
  set (n := String.length host + String.length cleaned).
  pose proof (join_split_replace ":" "/" n cleaned ltac:(lia)) as Hj.
  destruct (str_split_max ":" n cleaned) as [|r rs] eqn:Er;
    [by apply str_split_max_ne in Er|].
  rewrite Hj. subst cleaned. by rewrite str_replace_twice.
Qed.

Lemma did_web_url_witness :
  str_empty "massclaw.example" = false ∧
  (did <~ build_did_web "massclaw.example" (Some "/agents/a1/"); did_web_to_url did)
  = Ok "https://massclaw.example/agents/a1/did.json".
Proof.
  split; [reflexivity|].
  rewrite (did_web_url_spec "massclaw.example" (Some "/agents/a1/")); reflexivity.
Defined.
