(* ===== verification/Merkle.v ===== *)
(** * Merkle: content hashes and the bucketed Merkle summary

    Models [crdt/hashing.py] (the canonical body of a memory record and its
    content address) and [crdt/merkle.py] (the 256-bucket fingerprint two
    nodes compare).  SHA-256 is third-party code: it is the section variable
    [sha256], from byte strings to digests.  What the theorems rely on is
    stated where it is used: digests have 32 bytes, and the function has no
    collision among the finitely many byte strings hashed in the comparison
    at hand. *)

From Stdlib Require Import Ascii NArith ZArith Lia.
From stdpp Require Import base tactics strings pretty sorting gmap list.
From S2P Require Import Prelude PyStr Dict Base58 Json.

(** ** hashing.py *)

Definition HASH_MULTIBASE_PREFIX : ascii := "z"%char.

Record CanonicalBody := {
  cb_workflow_id : string;
  cb_memory_type : string;
  cb_content : string;
  cb_confidence : pyfloat;
  cb_metadata : list (pykey * json);
  cb_parent_hashes : list string;
  cb_author_did : option string;
  cb_source_agent_id : option string;
}.

Definition json_opt_str (o : option string) : json :=
  match o with Some s => JStr s | None => JNull end.

Definition as_jsonable (b : CanonicalBody) : json :=
  JObj [
    (KStr "author_did", json_opt_str (cb_author_did b));
    (KStr "confidence", JFloat (cb_confidence b));
    (KStr "content", JStr (cb_content b));
    (KStr "memory_type", JStr (cb_memory_type b));
    (KStr "metadata", _clone_jsonable (JObj (cb_metadata b)));
    (KStr "parent_hashes", JList (map JStr (str_sorted (cb_parent_hashes b))));
    (KStr "source_agent_id", json_opt_str (cb_source_agent_id b));
    (KStr "workflow_id", JStr (cb_workflow_id b))
  ].

Definition to_signable_bytes (b : CanonicalBody) : res canon_error string :=
  canonicalize (as_jsonable b).

(** [metadata or {}] and [parent_hashes or ()] for absent arguments *)
Definition build_canonical_body (workflow_id memory_type content : string)
    (confidence : pyfloat) (metadata : option (list (pykey * json)))
    (parent_hashes : option (list string)) (author_did source_agent_id : option string)
    : CanonicalBody := {|
  cb_workflow_id := workflow_id;
  cb_memory_type := memory_type;
  cb_content := content;
  cb_confidence := confidence;
  cb_metadata := default [] metadata;
  cb_parent_hashes := default [] parent_hashes;
  cb_author_did := author_did;
  cb_source_agent_id := source_agent_id;
|}.

(** ** merkle.py *)

Inductive merkle_error := MerkleValueError | BucketIndexError.

#[export] Instance merkle_error_eq_dec : EqDecision merkle_error.
Proof. solve_decision. Defined.

Definition BUCKET_COUNT : nat := 256.

Definition bucket_for_hash (content_hash : string) : res merkle_error nat :=
  match content_hash with
  | EmptyString => Err MerkleValueError
  | String c body =>
      raise_if (negb (Ascii.eqb c HASH_MULTIBASE_PREFIX)) MerkleValueError ;!
      decoded <~ res_catch (b58decode body) (λ _, Err MerkleValueError);
      match decoded with
      | [] => Err MerkleValueError
      | b :: _ => Ok (N.to_nat (Byte.to_N b))
      end
  end.

Record MerkleSummary := {
  root : string;
  buckets : list (option string);
  record_count : nat;
}.

(** [MerkleSummary.bucket] *)
Definition summary_bucket (s : MerkleSummary) (index : Z)
    : res merkle_error (option string) :=
  raise_if (negb ((0 <=? index)%Z && (index <? Z.of_nat BUCKET_COUNT)%Z))
    BucketIndexError ;!
  res_of_option BucketIndexError (buckets s !! Z.to_nat index).

(** [[i for i in range(BUCKET_COUNT) if self.buckets[i] != other.buckets[i]]] *)
Definition diverges_from (s other : MerkleSummary) : list nat :=
  filter (λ i, buckets s !! i ≠ buckets other !! i) (seq 0 BUCKET_COUNT).

(** The loop of [summarise_hashes] that fills the buckets *)
Definition add_hash (st : list (gset string) * nat) (h : string)
    : list (gset string) * nat :=
  match bucket_for_hash h with
  | Err _ => st
  | Ok idx =>
      if decide (h ∈ st.1 !!! idx) then st
      else (<[idx := {[h]} ∪ st.1 !!! idx]> st.1, S st.2)
  end.

Definition fill_buckets (hashes : list string) : list (gset string) * nat :=
  fold_left add_hash hashes (replicate BUCKET_COUNT ∅, 0).

Definition NL : ascii := ascii_of_N 10.

(** ["\n".join(sorted(bucket)).encode()] *)
Definition bucket_body (b : gset string) : string :=
  str_join (String NL "") (str_sorted (elements b)).

(** [digest.hex()] *)
Definition hex_byte (b : Byte.byte) : string :=
  let n := Byte.to_N b in
  String (hex_digit (n / 16)) (String (hex_digit (n mod 16)) "").

Fixpoint hex (l : list Byte.byte) : string :=
  match l with
  | [] => ""
  | b :: l => hex_byte b +:+ hex l
  end.

Fixpoint str_concat (l : list string) : string :=
  match l with
  | [] => ""
  | s :: l => s +:+ str_concat l
  end.

Section sha.
Context (sha256 : string → list Byte.byte).

Definition sha256_hex (m : string) : string := hex (sha256 m).

Definition compute_content_hash (b : CanonicalBody) : res canon_error string :=
  bytes <~ to_signable_bytes b;
  Ok (String HASH_MULTIBASE_PREFIX (b58encode (sha256 bytes))).

Definition bucket_digest (b : gset string) : option string :=
  if decide (b = ∅) then None else Some (sha256_hex (bucket_body b)).

Definition root_body (digests : list (option string)) : string :=
  str_concat (map (default "") digests).

Definition summarise_hashes (hashes : list string) : MerkleSummary :=
  let '(bs, total) := fill_buckets hashes in
  let bucket_digests := map bucket_digest bs in
  {| root := sha256_hex (root_body bucket_digests);
     buckets := bucket_digests;
     record_count := total |}.
End sha.

(** ** Content addresses *)

(** Two bodies a content address must not tell apart: equal fields, the same
    set-with-multiplicity of parents, and metadata equal up to presentation *)
Definition body_equiv (b1 b2 : CanonicalBody) : Prop :=
  cb_workflow_id b1 = cb_workflow_id b2 ∧ cb_memory_type b1 = cb_memory_type b2 ∧
  cb_content b1 = cb_content b2 ∧
  jnorm (JFloat (cb_confidence b1)) = jnorm (JFloat (cb_confidence b2)) ∧
  jnorm (_clone_jsonable (JObj (cb_metadata b1))) =
    jnorm (_clone_jsonable (JObj (cb_metadata b2))) ∧
  cb_parent_hashes b1 ≡ₚ cb_parent_hashes b2 ∧
  cb_author_did b1 = cb_author_did b2 ∧
  cb_source_agent_id b1 = cb_source_agent_id b2.

Definition wf_body (b : CanonicalBody) : Prop :=
  wf_val (JFloat (cb_confidence b)) ∧ wf_val (JObj (cb_metadata b)).

Lemma as_jsonable_norm b :
  jnorm (as_jsonable b) = JObj [
    (KStr "author_did", json_opt_str (cb_author_did b));
    (KStr "confidence", jnorm (JFloat (cb_confidence b)));
    (KStr "content", JStr (cb_content b));
    (KStr "memory_type", JStr (cb_memory_type b));
    (KStr "metadata", jnorm (_clone_jsonable (JObj (cb_metadata b))));
    (KStr "parent_hashes", JList (map JStr (str_sorted (cb_parent_hashes b))));
    (KStr "source_agent_id", json_opt_str (cb_source_agent_id b));
    (KStr "workflow_id", JStr (cb_workflow_id b))].
Proof.
  unfold as_jsonable. rewrite jnorm_obj.
  assert (∀ o, jnorm (json_opt_str o) = json_opt_str o) as Ho by by intros [].
  assert (jnorm (JList (map JStr (str_sorted (cb_parent_hashes b)))) =
    JList (map JStr (str_sorted (cb_parent_hashes b)))) as Hl.
  { cbn [jnorm]. by rewrite map_map. }
  assert (∀ a c d e f g h i : json,
    let l := [(KStr "author_did", a); (KStr "confidence", c); (KStr "content", d);
      (KStr "memory_type", e); (KStr "metadata", f); (KStr "parent_hashes", g);
      (KStr "source_agent_id", h); (KStr "workflow_id", i)] in
    kv_sort key_leb l = l) as -> by reflexivity.
  unfold norm_pair. cbn [map fst snd]. by rewrite !Ho, Hl.
Qed.

Lemma as_jsonable_wf b : wf_body b → wf_val (as_jsonable b).
Proof.
  intros [Hc Hm]. apply wf_obj. unfold as_jsonable.
  assert (∀ o, wf_val (json_opt_str o)) as Ho by by intros [].
  assert (wf_val (JList (map JStr (str_sorted (cb_parent_hashes b))))) as Hl.
  { apply wf_list, Forall_fmap. by apply Forall_true. }
  repeat constructor; try done; [apply Ho|by apply clone_wf|apply Ho].
Qed.

Lemma json_opt_str_inj o1 o2 : json_opt_str o1 = json_opt_str o2 → o1 = o2.
Proof. destruct o1, o2; cbn; congruence. Qed.

Lemma map_JStr_inj l1 l2 : map JStr l1 = map JStr l2 → l1 = l2.
Proof.
  revert l2. induction l1 as [|x l1 IH]; intros [|y l2] E; try done.
  injection E as -> E. by rewrite (IH _ E).
Qed.

Lemma as_jsonable_equiv b1 b2 :
  jnorm (as_jsonable b1) = jnorm (as_jsonable b2) ↔ body_equiv b1 b2.
Proof.
  rewrite !as_jsonable_norm. unfold body_equiv. split.
  - intros [= Ha%json_opt_str_inj Hc Hcont Hty Hm Hp Hs%json_opt_str_inj Hw].
    split_and!; try done; [cbn [_clone_jsonable jnorm]; by rewrite Hm|].
    etrans; [symmetry; apply str_sorted_perm|]. etrans; [|apply str_sorted_perm].
    by rewrite (map_JStr_inj _ _ Hp).
  - intros (->&->&->&->&->&Hp&->&->). by rewrite (str_sorted_proper _ _ Hp).
Qed.

(** A content address identifies the signable body of a record.  Two
    well-formed bodies get the same address, SHA-256 not colliding on their
    two serialisations, exactly when they agree on every field, up to the
    order of the parent hashes, the key order of the metadata and the printed
    form of numbers. *)
Theorem content_hash_identifies sha256 b1 b2 s1 s2 :
  wf_body b1 → wf_body b2 →
  to_signable_bytes b1 = Ok s1 → to_signable_bytes b2 = Ok s2 →
  (sha256 s1 = sha256 s2 → s1 = s2) →
  compute_content_hash sha256 b1 = compute_content_hash sha256 b2 ↔ body_equiv b1 b2.
Proof.
  intros Hw1 Hw2 H1 H2 Hcf. unfold compute_content_hash. rewrite H1, H2. cbn [res_bind].
  rewrite <-as_jsonable_equiv, <-(canonicalize_eq_iff _ _ s1 s2);
    [|by apply as_jsonable_wf..|done|done].
  split; [|by intros ->]. intros [= E]. apply Hcf.
  apply (f_equal b58decode) in E. rewrite !b58decode_encode in E. by injection E.
Qed.

(** ** Specification

    The content of a summary is the set of well-formed hashes it covers, split
    by bucket. *)

Definition bucket_set (hs : list string) (i : nat) : gset string :=
  filter (λ h, bucket_for_hash h = Ok i) (list_to_set hs).

Definition valid_hashes (hs : list string) : gset string :=
  filter (λ h, is_ok (bucket_for_hash h) = true) (list_to_set hs).

Lemma elem_of_bucket_set hs i h :
  h ∈ bucket_set hs i ↔ bucket_for_hash h = Ok i ∧ h ∈ hs.
Proof. unfold bucket_set. by rewrite elem_of_filter, elem_of_list_to_set. Qed.

Lemma elem_of_valid_hashes hs h :
  h ∈ valid_hashes hs ↔ (∃ i, bucket_for_hash h = Ok i) ∧ h ∈ hs.
Proof.
  unfold valid_hashes. rewrite elem_of_filter, elem_of_list_to_set.
  destruct (bucket_for_hash h); naive_solver.
Qed.

Lemma bucket_for_hash_Ok h i :
  bucket_for_hash h = Ok i →
  i < BUCKET_COUNT ∧ ∃ body b rest, h = String HASH_MULTIBASE_PREFIX body ∧
    b58decode body = Ok (b :: rest) ∧ i = N.to_nat (Byte.to_N b).
Proof.
  destruct h as [|c body]; [done|]. unfold bucket_for_hash.
  intros ([]&Hc%raise_if_Ok%negb_false_iff%Ascii.eqb_eq&H)%res_bind_Ok.
  destruct (b58decode body) as [[|b rest]|] eqn:E; cbn in H; [done| |done].
  injection H as <-. split; [|by exists body, b, rest; subst].
  pose proof (byte_to_N_lt b). unfold BUCKET_COUNT. lia.
Qed.

Lemma bucket_sets_lookup hs i :
  i < BUCKET_COUNT → map (bucket_set hs) (seq 0 BUCKET_COUNT) !! i = Some (bucket_set hs i).
Proof.
  intros Hi. change (bucket_set hs i) with (bucket_set hs (0 + i)).
  apply (list_lookup_fmap_Some_2 (bucket_set hs)), lookup_seq. lia.
Qed.

Lemma bucket_set_snoc hs h i :
  bucket_set (hs ++ [h]) i =
  if decide (bucket_for_hash h = Ok i) then {[h]} ∪ bucket_set hs i else bucket_set hs i.
Proof.
  apply set_eq. intros x. rewrite elem_of_bucket_set, elem_of_app, list_elem_of_singleton.
  case_decide; rewrite ?elem_of_union, ?elem_of_singleton, ?elem_of_bucket_set;
    naive_solver.
Qed.

Lemma valid_hashes_snoc hs h :
  valid_hashes (hs ++ [h]) =
  if is_ok (bucket_for_hash h) then {[h]} ∪ valid_hashes hs else valid_hashes hs.
Proof.
  apply set_eq. intros x. rewrite elem_of_valid_hashes, elem_of_app, list_elem_of_singleton.
  destruct (bucket_for_hash h) as [i|e] eqn:E; cbn [is_ok];
    rewrite ?elem_of_union, ?elem_of_singleton, elem_of_valid_hashes.
  - split.
    + intros [Hv [Hin| ->]]; [by right|by left].
    + intros [->|[Hv Hin]]; [split; [by exists i|by right]|split; [done|by left]].
  - split.
    + intros [Hv [Hin| ->]]; [done|]. destruct Hv. congruence.
    + intros [Hv Hin]. split; [done|by left].
Qed.

Lemma fill_buckets_nil :
  fill_buckets [] = (map (bucket_set []) (seq 0 BUCKET_COUNT), size (valid_hashes [])).
Proof.
  assert (∀ n k, replicate n ∅ = map (bucket_set []) (seq k n)) as Hmap.
  { intros n. induction n as [|n IH]; intros k; [done|].
    cbn [replicate seq map]. by rewrite (IH (S k)). }
  unfold fill_buckets. cbn [fold_left]. by rewrite (Hmap _ 0).
Qed.

(** The loop computes the split, whatever the order and the repetitions. *)
Lemma fill_buckets_spec hs :
  fill_buckets hs =
  (map (bucket_set hs) (seq 0 BUCKET_COUNT), size (valid_hashes hs)).
Proof.
  induction hs as [|h hs IH] using rev_ind.
  { apply fill_buckets_nil. }
  unfold fill_buckets in *. rewrite fold_left_app, IH. clear IH. cbn [fold_left].
  unfold add_hash. destruct (bucket_for_hash h) as [idx|] eqn:Eh; cbn [fst snd].
  - destruct (bucket_for_hash_Ok _ _ Eh) as [Hidx _].
    rewrite (list_lookup_total_correct _ _ _ (bucket_sets_lookup hs idx Hidx)).
    rewrite valid_hashes_snoc, Eh. cbn [is_ok].
    destruct (decide (h ∈ bucket_set hs idx)) as [Hin|Hin].
    + f_equal.
      * apply map_ext_in. intros i _. rewrite bucket_set_snoc.
        case_decide; [|done]. assert (i = idx) as -> by congruence. set_solver.
      * apply elem_of_bucket_set in Hin as [_ Hin]. f_equal.
        assert (h ∈ valid_hashes hs) by (apply elem_of_valid_hashes; eauto). set_solver.
    + f_equal.
      * apply list_eq. intros i. destruct (decide (i < BUCKET_COUNT)) as [Hi|Hi].
        -- rewrite (bucket_sets_lookup (hs ++ [h]) i Hi), bucket_set_snoc.
           destruct (decide (i = idx)) as [->|Hne].
           ++ rewrite decide_True by done. apply list_lookup_insert_eq.
              by rewrite length_map, length_seq.
           ++ rewrite decide_False by congruence.
              by rewrite list_lookup_insert_ne, bucket_sets_lookup.
        -- rewrite !lookup_ge_None_2; [done|rewrite length_map, length_seq; lia|].
           rewrite length_insert, length_map, length_seq. lia.
      * rewrite size_union, size_singleton; [done|].
        apply disjoint_singleton_l. intros [_ Hh]%elem_of_valid_hashes.
        apply Hin, elem_of_bucket_set. done.
  - rewrite valid_hashes_snoc, Eh. cbn [is_ok]. f_equal.
    apply map_ext_in. intros i _. rewrite bucket_set_snoc, decide_False; [done|congruence].
Qed.

(** ** Injectivity of the encodings on the way to a digest *)

Lemma NL_not_in_alphabet : NL ∉ _ALPHABET.
Proof. apply (bool_decide_eq_true_1 (NL ∉ _ALPHABET)). vm_compute. reflexivity. Qed.

Lemma str_mem_alphabet s :
  Forall (λ c, c ∈ _ALPHABET) (str_chars s) → str_mem NL s = false.
Proof.
  induction s as [|c s IH]; [done|]. intros Hf. cbn [str_chars] in Hf.
  apply Forall_cons_1 in Hf as [Hc Hs]. cbn [str_mem]. rewrite (IH Hs).
  destruct (Ascii.eqb_spec c NL) as [->|]; [by apply NL_not_in_alphabet in Hc|done].
Qed.

Lemma valid_hash_no_newline h i : bucket_for_hash h = Ok i → str_mem NL h = false.
Proof.
  intros (_&body&b&rest&->&Hd&_)%bucket_for_hash_Ok. cbn [str_mem]. cbn.
  apply str_mem_alphabet. destruct body as [|c body]; [done|].
  unfold b58decode in Hd. apply res_bind_Ok in Hd as (n&Hacc&_).
  destruct (b58_accumulate_total (String c body) 0) as [[? _]|[_ E]]; [done|congruence].
Qed.

Lemma bucket_body_inj (A B : gset string) :
  (∀ h, h ∈ A → str_mem NL h = false) → (∀ h, h ∈ B → str_mem NL h = false) →
  A ≠ ∅ → B ≠ ∅ → bucket_body A = bucket_body B → A = B.
Proof.
  intros HA HB HneA HneB E. unfold bucket_body in E.
  assert (Hne : ∀ C : gset string, C ≠ ∅ → str_sorted (elements C) ≠ []).
  { intros C HC Hnil. apply HC, leibniz_equiv, elements_empty_inv, Permutation_nil_r.
    by rewrite <-Hnil, str_sorted_perm. }
  assert (Hf : ∀ C : gset string, (∀ h, h ∈ C → str_mem NL h = false) →
    Forall (λ h, str_mem NL h = false) (str_sorted (elements C))).
  { intros C HC. apply Forall_forall. intros h.
    rewrite elem_of_str_sorted, elem_of_elements. apply HC. }
  apply str_join_inj in E; [|by auto..].
  apply set_eq. intros h. rewrite <-!elem_of_elements.
  rewrite <-(elem_of_str_sorted h (elements A)), <-(elem_of_str_sorted h (elements B)).
  by rewrite E.
Qed.

Definition unhex_byte (s : string) : option Byte.byte :=
  match s with
  | String h (String l _) => Some (byte_of_N (16 * hex_val h + hex_val l))
  | _ => None
  end.

Lemma unhex_hex_byte b r : unhex_byte (hex_byte b +:+ r) = Some b.
Proof. destruct b; reflexivity. Qed.

Lemma hex_length l : String.length (hex l) = 2 * length l.
Proof. induction l as [|b l IH]; [done|]. cbn [hex]. rewrite str_length_app, IH. cbn. lia. Qed.

Lemma hex_inj l1 l2 : hex l1 = hex l2 → l1 = l2.
Proof.
  revert l2. induction l1 as [|b l1 IH]; intros [|b' l2] E; cbn [hex] in E; try done.
  apply (f_equal unhex_byte) in E as Eb. rewrite !unhex_hex_byte in Eb.
  injection Eb as ->. apply str_app_inj_l in E. by rewrite (IH _ E).
Qed.

Lemma str_app_inj_length (a b r1 r2 : string) :
  String.length a = String.length b → a +:+ r1 = b +:+ r2 → a = b ∧ r1 = r2.
Proof.
  revert b. induction a as [|x a IH]; intros [|y b] Hl E; try done.
  rewrite !str_app_cons in E. injection E as -> E.
  destruct (IH b) as [-> ->]; [by injection Hl|done|done].
Qed.

(** A concatenation of equally long, non-empty pieces has one reading. *)
Lemma str_concat_inj k ps qs :
  0 < k → Forall (λ p, String.length p = k) ps → Forall (λ q, String.length q = k) qs →
  str_concat ps = str_concat qs → ps = qs.
Proof.
  intros Hk Hp. revert qs. induction Hp as [|p ps Hp Hps IH]; intros qs Hq E.
  - destruct Hq as [|q qs Hq _]; [done|]. apply (f_equal String.length) in E.
    cbn [str_concat] in E. rewrite str_length_app in E. cbn in E. lia.
  - destruct Hq as [|q qs Hq Hqs].
    + apply (f_equal String.length) in E. cbn [str_concat] in E.
      rewrite str_length_app in E. cbn in E. lia.
    + cbn [str_concat] in E. apply str_app_inj_length in E as [-> E]; [|congruence].
      f_equal. by apply IH.
Qed.

Lemma root_body_omap ds : root_body ds = str_concat (omap id ds).
Proof.
  unfold root_body. induction ds as [|[d|] ds IH]; [done| |].
  - cbn. by rewrite IH.
  - cbn. by rewrite IH.
Qed.

(** ** Summaries *)

Definition collision_free (sha256 : string → list Byte.byte) (ms : list string) : Prop :=
  ∀ x y, x ∈ ms → y ∈ ms → sha256 x = sha256 y → x = y.

(** The byte strings hashed while summarising [hs] *)
Definition bucket_inputs (hs : list string) : list string :=
  map (λ i, bucket_body (bucket_set hs i)) (seq 0 BUCKET_COUNT).

Definition summary_inputs (sha256 : string → list Byte.byte) (hs : list string)
    : list string :=
  root_body (buckets (summarise_hashes sha256 hs)) :: bucket_inputs hs.

Section summaries.
Context (sha256 : string → list Byte.byte).

Lemma summarise_spec hs :
  summarise_hashes sha256 hs =
  let ds := map (λ i, bucket_digest sha256 (bucket_set hs i)) (seq 0 BUCKET_COUNT) in
  {| root := sha256_hex sha256 (root_body ds); buckets := ds;
     record_count := size (valid_hashes hs) |}.
Proof. unfold summarise_hashes. by rewrite fill_buckets_spec, map_map. Qed.

Lemma summary_lookup hs i :
  i < BUCKET_COUNT →
  buckets (summarise_hashes sha256 hs) !! i = Some (bucket_digest sha256 (bucket_set hs i)).
Proof.
  intros Hi. rewrite summarise_spec. cbn [buckets].
  apply (list_lookup_fmap_Some_2 (λ i, bucket_digest sha256 (bucket_set hs i)) _ _ (0 + i)).
  apply lookup_seq_lt. done.
Qed.

Lemma bucket_set_valid hs1 hs2 i :
  valid_hashes hs1 = valid_hashes hs2 → bucket_set hs1 i = bucket_set hs2 i.
Proof.
  intros E. apply set_eq. intros h. rewrite !elem_of_bucket_set.
  assert (∀ hs, (bucket_for_hash h = Ok i ∧ h ∈ hs) ↔
                (bucket_for_hash h = Ok i ∧ h ∈ valid_hashes hs)) as Hv.
  { intros hs. rewrite elem_of_valid_hashes. naive_solver. }
  by rewrite !Hv, E.
Qed.

Lemma summarise_valid hs1 hs2 :
  valid_hashes hs1 = valid_hashes hs2 →
  summarise_hashes sha256 hs1 = summarise_hashes sha256 hs2.
Proof.
  intros E. rewrite !summarise_spec, E.
  by rewrite (map_ext (λ i, bucket_digest sha256 (bucket_set hs1 i))
    (λ i, bucket_digest sha256 (bucket_set hs2 i)))
    by (intros i; by rewrite (bucket_set_valid _ _ i E)).
Qed.

Lemma valid_hashes_bucket hs h i :
  bucket_for_hash h = Ok i → h ∈ valid_hashes hs ↔ h ∈ bucket_set hs i.
Proof. rewrite elem_of_valid_hashes, elem_of_bucket_set. naive_solver. Qed.

Lemma bucket_input hs i :
  i < BUCKET_COUNT → bucket_body (bucket_set hs i) ∈ bucket_inputs hs.
Proof.
  intros Hi. apply (list_elem_of_fmap_2 (λ i, bucket_body (bucket_set hs i))).
  apply elem_of_seq. lia.
Qed.

(** Two buckets with the same digest hold the same hashes. *)
Lemma bucket_digest_inj hs1 hs2 i j :
  collision_free sha256 (bucket_inputs hs1 ++ bucket_inputs hs2) →
  i < BUCKET_COUNT → j < BUCKET_COUNT →
  bucket_digest sha256 (bucket_set hs1 i) = bucket_digest sha256 (bucket_set hs2 j) →
  bucket_set hs1 i = bucket_set hs2 j.
Proof.
  intros Hcf Hi Hj E. unfold bucket_digest in E.
  destruct (decide (bucket_set hs1 i = ∅)) as [->|H1],
    (decide (bucket_set hs2 j = ∅)) as [->|H2]; try done.
  injection E as E%hex_inj.
  apply Hcf in E; [|apply elem_of_app; left; by apply bucket_input
                   |apply elem_of_app; right; by apply bucket_input].
  apply bucket_body_inj in E; [done| | |done|done];
    intros h [Hh _]%elem_of_bucket_set; by eapply valid_hash_no_newline.
Qed.

(** The non-empty digests, in bucket order, determine the hashes covered. *)
Lemma nonempty_digests_inj hs1 hs2 :
  collision_free sha256 (bucket_inputs hs1 ++ bucket_inputs hs2) →
  omap id (buckets (summarise_hashes sha256 hs1)) =
    omap id (buckets (summarise_hashes sha256 hs2)) →
  valid_hashes hs1 ⊆ valid_hashes hs2.
Proof.
  intros Hcf E h Hh. apply elem_of_valid_hashes in Hh as Hv.
  destruct Hv as [[i Hi] Hin]. destruct (bucket_for_hash_Ok _ _ Hi) as [Hlt _].
  assert (h ∈ bucket_set hs1 i) as Hb by by apply elem_of_bucket_set.
  assert (Hd : bucket_digest sha256 (bucket_set hs1 i) =
    Some (sha256_hex sha256 (bucket_body (bucket_set hs1 i)))).
  { unfold bucket_digest. rewrite decide_False; [done|].
    intros Hemp. rewrite Hemp in Hb. by apply not_elem_of_empty in Hb. }
  assert (sha256_hex sha256 (bucket_body (bucket_set hs1 i)) ∈
    omap id (buckets (summarise_hashes sha256 hs1))) as Hom.
  { apply list_elem_of_omap. eexists (Some _). split; [|done].
    apply list_elem_of_lookup. exists i. by rewrite summary_lookup, Hd. }
  rewrite E in Hom. apply list_elem_of_omap in Hom as (d&Hd2&Hdd). cbn in Hdd. subst d.
  apply list_elem_of_lookup in Hd2 as [j Hj].
  destruct (decide (j < BUCKET_COUNT)) as [Hjlt|Hge].
  - rewrite summary_lookup in Hj by done. injection Hj as Hj.
    rewrite <-Hd in Hj. symmetry in Hj. apply bucket_digest_inj in Hj; [|done..].
    rewrite Hj in Hb. apply elem_of_bucket_set in Hb as [Hbj Hb].
    apply elem_of_valid_hashes. eauto.
  - rewrite lookup_ge_None_2 in Hj; [done|].
    rewrite summarise_spec. cbn [buckets]. rewrite length_map, length_seq. lia.
Qed.

Lemma digest_lengths hs :
  (∀ m, length (sha256 m) = 32) →
  Forall (λ d, String.length d = 64) (omap id (buckets (summarise_hashes sha256 hs))).
Proof.
  intros Hlen. apply Forall_forall. intros d (o&Ho&Hid)%list_elem_of_omap.
  cbn in Hid. subst o.
  rewrite summarise_spec in Ho. cbn [buckets] in Ho.
  apply list_elem_of_fmap in Ho as (i&Ho&_). unfold bucket_digest in Ho.
  case_decide; [done|]. injection Ho as ->. unfold sha256_hex.
  by rewrite hex_length, Hlen.
Qed.

Lemma root_iff hs1 hs2 :
  (∀ m, length (sha256 m) = 32) →
  collision_free sha256 (summary_inputs sha256 hs1 ++ summary_inputs sha256 hs2) →
  root (summarise_hashes sha256 hs1) = root (summarise_hashes sha256 hs2) ↔
  valid_hashes hs1 = valid_hashes hs2.
Proof.
  intros Hlen Hcf. split; [|by intros E; rewrite (summarise_valid _ _ E)].
  intros E.
  assert (Hcf' : ∀ a b, a = hs1 ∧ b = hs2 ∨ a = hs2 ∧ b = hs1 →
    collision_free sha256 (bucket_inputs a ++ bucket_inputs b)).
  { assert (Hsub : ∀ a b x, a = hs1 ∧ b = hs2 ∨ a = hs2 ∧ b = hs1 →
      x ∈ bucket_inputs a ++ bucket_inputs b →
      x ∈ summary_inputs sha256 hs1 ++ summary_inputs sha256 hs2).
    { intros a b x Hab. unfold summary_inputs. rewrite !elem_of_app, !elem_of_cons.
      destruct Hab as [[-> ->]|[-> ->]]; tauto. }
    intros a b Hab x y Hx Hy. apply Hcf; by eapply Hsub. }
  assert (Ho : omap id (buckets (summarise_hashes sha256 hs1)) =
               omap id (buckets (summarise_hashes sha256 hs2))).
  { apply (str_concat_inj 64); [lia|by apply digest_lengths..|].
    rewrite <-!root_body_omap. apply Hcf;
      [apply elem_of_app; left; apply elem_of_cons; by left
      |apply elem_of_app; right; apply elem_of_cons; by left|].
    apply hex_inj. rewrite !summarise_spec in E |- *. exact E. }
  apply (anti_symm (⊆)); apply nonempty_digests_inj; try done; apply Hcf'; auto.
Qed.

Lemma diverges_filter hs1 hs2 :
  collision_free sha256 (bucket_inputs hs1 ++ bucket_inputs hs2) →
  diverges_from (summarise_hashes sha256 hs1) (summarise_hashes sha256 hs2) =
  filter (λ i, bucket_set hs1 i ≠ bucket_set hs2 i) (seq 0 BUCKET_COUNT).
Proof.
  intros Hcf. unfold diverges_from. apply list_filter_iff_in.
  intros i Hi%elem_of_seq. rewrite !summary_lookup by lia. split.
  - intros Hne E. by rewrite E in Hne.
  - intros Hne [= E]. apply Hne, bucket_digest_inj; [done|lia|lia|done].
Qed.

(** ** Theorems *)

(** The Merkle root identifies the replicated set.  The root concatenates
    the digests of the non-empty buckets without separators or positions, and
    still: provided SHA-256 has 32-byte digests and no collision among the
    inputs hashed for the two summaries, two nodes compute the same root
    exactly when they hold the same set of well-formed content hashes,
    whatever the order, the repetitions and the malformed entries. *)
Theorem merkle_root_identifies hs1 hs2 :
  (∀ m, length (sha256 m) = 32) →
  collision_free sha256 (summary_inputs sha256 hs1 ++ summary_inputs sha256 hs2) →
  root (summarise_hashes sha256 hs1) = root (summarise_hashes sha256 hs2) ↔
  valid_hashes hs1 = valid_hashes hs2.
Proof. exact (root_iff hs1 hs2). Qed.

(** [diverges_from] lists exactly the buckets whose contents differ, in
    increasing order; without a collision on the bucket bodies it misses no
    difference and reports no equal bucket. *)
Theorem diverges_from_spec hs1 hs2 :
  collision_free sha256 (bucket_inputs hs1 ++ bucket_inputs hs2) →
  diverges_from (summarise_hashes sha256 hs1) (summarise_hashes sha256 hs2) =
  filter (λ i, bucket_set hs1 i ≠ bucket_set hs2 i) (seq 0 BUCKET_COUNT).
Proof. exact (diverges_filter hs1 hs2). Qed.
End summaries.

(** ** Witnesses

    A concrete hash function for the witnesses: the bytes as a number, modulo
    a prime. *)

Lemma to_bytes_be_length len n : length (to_bytes_be len n) = len.
Proof.
  revert n. induction len as [|len IH]; intros n; [done|].
  cbn. rewrite length_app, IH. cbn. lia.
Qed.

Definition toy_sha (m : string) : list Byte.byte :=
  to_bytes_be 32 (int_from_bytes (String.list_byte_of_string m) mod (2 ^ 256 - 189))%N.

Definition collision_freeb (ms : list string) : bool :=
  let ms := remove_dups ms in
  forallb (λ x, forallb (λ y, bool_decide (toy_sha x = toy_sha y → x = y)) ms) ms.

Lemma collision_freeb_ok ms : collision_freeb ms = true → collision_free toy_sha ms.
Proof.
  unfold collision_freeb. intros H x y Hx Hy. rewrite forallb_forall in H.
  assert (forall z, z ∈ ms → List.In z (remove_dups ms)) as Hd.
  { intros z Hz. by apply list_elem_of_In, elem_of_remove_dups. }
  specialize (H x (Hd x Hx)). rewrite forallb_forall in H.
  specialize (H y (Hd y Hy)). by apply bool_decide_eq_true_1 in H.
Qed.

Lemma merkle_root_identifies_witness :
  let hs1 := ["z2g"; "z3h"] in
  let hs2 := ["z3h"; "not-a-hash"; "z2g"; "z3h"] in
  root (summarise_hashes toy_sha hs1) = root (summarise_hashes toy_sha hs2).
Proof.
  intros hs1 hs2. apply (merkle_root_identifies toy_sha hs1 hs2).
  - intros m. apply to_bytes_be_length.
  - apply collision_freeb_ok. vm_compute. reflexivity.
  - apply (bool_decide_eq_true_1 (valid_hashes hs1 = valid_hashes hs2)).
    vm_compute. reflexivity.
Defined.

Lemma diverges_from_witness :
  let hs1 := ["z2g"; "z3h"] in
  let hs2 := ["z3h"] in
  diverges_from (summarise_hashes toy_sha hs1) (summarise_hashes toy_sha hs2) = [97].
Proof.
  intros hs1 hs2. rewrite (diverges_from_spec toy_sha hs1 hs2).
  - vm_compute. reflexivity.
  - apply collision_freeb_ok. vm_compute. reflexivity.
Defined.

Lemma content_hash_identifies_witness :
  let b1 := build_canonical_body "wf" "MemoryType.FACT" "text" (FFrac "0.85")
    (Some [(KStr "k", JInt 1); (KStr "j", JNull)]) (Some ["zB"; "zA"]) None None in
  let b2 := build_canonical_body "wf" "MemoryType.FACT" "text" (FFrac "0.85")
    (Some [(KStr "j", JNull); (KStr "k", JInt 1)]) (Some ["zA"; "zB"]) None None in
  compute_content_hash toy_sha b1 = compute_content_hash toy_sha b2.
Proof.
  intros b1 b2. eapply (content_hash_identifies toy_sha b1 b2).
  - split; reflexivity.
  - split; reflexivity.
  - vm_compute. reflexivity.
  - vm_compute. reflexivity.
  - reflexivity.
  - split_and!; try reflexivity. apply Permutation_swap.
Defined.
