(* ===== verification/Uuid.v ===== *)
(** * Uuid: [uuid.UUID] values and their text

    A UUID is a 128-bit integer.  [uuid_str] is [str(u)], five groups of
    lowercase hexadecimal digits; [uuid_parse] is [uuid.UUID(s)] on strings of
    hexadecimal digits and dashes (the [urn:] and brace spellings the
    constructor also takes do not occur in the modelled code). *)

From Stdlib Require Import Ascii NArith Lia.
From stdpp Require Import base tactics countable strings numbers list.
From S2P Require Import Prelude PyStr Json.

#[local] Open Scope N_scope.

Record uuid := UUID { uuid_int : N }.

#[export] Instance uuid_eq_dec : EqDecision uuid.
Proof. solve_decision. Defined.
#[export] Instance uuid_countable : Countable uuid.
Proof. apply (inj_countable' uuid_int UUID). by intros []. Defined.

Definition uuid_ok (u : uuid) : Prop := uuid_int u < 2 ^ 128.

(** [n] as [len] hexadecimal digits *)
Fixpoint hex_digits (len : nat) (n : N) : list ascii :=
  match len with
  | O => []
  | S len => hex_digits len (n / 16) ++ [hex_digit (n mod 16)]
  end.

Definition uuid_groups (h : list ascii) : list (list ascii) :=
  [take 8 h; take 4 (drop 8 h); take 4 (drop 12 h); take 4 (drop 16 h); drop 20 h].

Definition uuid_str (u : uuid) : string :=
  str_join "-" (map String.string_of_list_ascii
                  (uuid_groups (hex_digits 32 (uuid_int u)))).

(** The value of one hexadecimal digit *)
Definition hex_value (c : ascii) : option N :=
  let n := N_of_ascii c in
  if (48 <=? n) && (n <=? 57) then Some (n - 48)
  else if (97 <=? n) && (n <=? 102) then Some (n - 87)
  else if (65 <=? n) && (n <=? 70) then Some (n - 55)
  else None.

Fixpoint hex_number (l : list ascii) (acc : N) : option N :=
  match l with
  | [] => Some acc
  | c :: l => match hex_value c with
              | Some d => hex_number l (acc * 16 + d)
              | None => None
              end
  end.

(** [hex.replace("-", "")], the length check, and [int(hex, 16)] *)
Definition uuid_parse (s : string) : option uuid :=
  let h := filter (λ c, c ≠ "-"%char) (str_chars s) in
  if (length h =? 32)%nat then UUID <$> hex_number h 0 else None.

Example uuid_str_ex :
  uuid_str (UUID 16) = "00000000-0000-0000-0000-000000000010".
Proof. reflexivity. Qed.
Example uuid_parse_ex :
  uuid_parse "00000000-0000-0000-0000-000000000010" = Some (UUID 16).
Proof. reflexivity. Qed.

Lemma hex_digits_length len n : length (hex_digits len n) = len.
Proof.
  revert n. induction len as [|len IH]; intros n; [done|].
  cbn. rewrite length_app, IH. cbn. lia.
Qed.

Lemma hex_digit_value d :
  d < 16 → hex_value (hex_digit d) = Some d ∧ hex_digit d ≠ "-"%char.
Proof.
  intros Hd. assert (forallb (λ i, bool_decide (hex_value (hex_digit (N.of_nat i))
    = Some (N.of_nat i) ∧ hex_digit (N.of_nat i) ≠ "-"%char)) (seq 0 16) = true)
    as Hall by by vm_compute.
  rewrite forallb_forall in Hall. specialize (Hall (N.to_nat d)).
  rewrite N2Nat.id, in_seq in Hall. apply (bool_decide_eq_true_1 _), Hall. lia.
Qed.

Lemma hex_number_app l1 l2 acc :
  hex_number (l1 ++ l2) acc = (hex_number l1 acc ≫= hex_number l2).
Proof.
  revert acc. induction l1 as [|c l1 IH]; intros acc; [done|]. cbn.
  destruct (hex_value c); [apply IH|done].
Qed.

Lemma hex_number_digits len n acc :
  n < 16 ^ N.of_nat len →
  hex_number (hex_digits len n) acc = Some (acc * 16 ^ N.of_nat len + n).
Proof.
  revert n. induction len as [|len IH]; intros n Hn.
  { cbn in *. f_equal. lia. }
  rewrite Nat2N.inj_succ, N.pow_succ_r' in Hn |- *. cbn [hex_digits].
  rewrite hex_number_app, IH by by apply N.Div0.div_lt_upper_bound.
  cbn [mbind option_bind hex_number].
  destruct (hex_digit_value (n mod 16)) as [-> _]; [by apply N.mod_lt|].
  f_equal. pose proof (N.div_mod n 16). nia.
Qed.

Lemma hex_digits_no_dash len n :
  filter (λ c, c ≠ "-"%char) (hex_digits len n) = hex_digits len n.
Proof.
  revert n. induction len as [|len IH]; intros n; [done|]. cbn [hex_digits].
  rewrite filter_app, IH. f_equal. rewrite filter_cons_True; [done|].
  apply hex_digit_value. by apply N.mod_lt.
Qed.

Lemma str_chars_app a b : str_chars (a +:+ b) = str_chars a ++ str_chars b.
Proof.
  induction a as [|x a IH]; [done|]. rewrite str_app_cons. cbn [str_chars]. by rewrite IH.
Qed.

Lemma str_chars_of l : str_chars (String.string_of_list_ascii l) = l.
Proof. apply String.list_ascii_of_string_of_list_ascii. Qed.

(** [uuid.UUID(str(u)) == u] *)
Lemma uuid_parse_str u : uuid_ok u → uuid_parse (uuid_str u) = Some u.
Proof.
  intros Hu. destruct u as [n]. unfold uuid_ok in Hu. cbn [uuid_int] in Hu.
  unfold uuid_parse, uuid_str. cbn [uuid_int].
  set (h := hex_digits 32 n).
  assert (filter (λ c, c ≠ "-"%char) (str_chars (str_join "-"
    (map String.string_of_list_ascii (uuid_groups h)))) = h) as ->.
  { cbn [uuid_groups map str_join]. rewrite !str_chars_app, !str_chars_of, !filter_app.
    assert (filter (λ c, c ≠ "-"%char) (str_chars "-") = []) as -> by done.
    cbn [app]. rewrite <-!filter_app.
    replace (take 8 h ++ take 4 (drop 8 h) ++ take 4 (drop 12 h) ++ take 4 (drop 16 h)
      ++ drop 20 h) with h; [apply hex_digits_no_dash|].
    rewrite <-(take_drop 8 h) at 1. f_equal. }
  subst h. rewrite hex_digits_length. cbn [Nat.eqb]. rewrite hex_number_digits by exact Hu.
  done.
Qed.

Lemma uuid_str_nonempty u : str_empty (uuid_str u) = false.
Proof. done. Qed.
