(* ===== verification/TaskFsm.v ===== *)
(** * TaskFsm: task statuses and their state machine

    Models [TaskStatus] of [models/base.py] and
    [orchestration/state_machine.py]: the transition table, its lookup, and
    the queries on it.  [step] is one accepted transition. *)

From Stdlib Require Import Lia.
From stdpp Require Import base tactics strings relations sorting list.
From S2P Require Import Prelude Dict.

(** ** Data *)

Inductive TaskStatus :=
  | TODO | PENDING | ASSIGNED | RUNNING | RETRYING | COMPLETED | FAILED
  | SKIPPED | BLOCKED | AWAITING_APPROVAL.

#[export] Instance TaskStatus_eq_dec : EqDecision TaskStatus.
Proof. solve_decision. Defined.

Definition all_statuses : list TaskStatus :=
  [TODO; PENDING; ASSIGNED; RUNNING; RETRYING; COMPLETED; FAILED; SKIPPED;
   BLOCKED; AWAITING_APPROVAL].

Definition status_value (s : TaskStatus) : string :=
  match s with
  | TODO => "todo" | PENDING => "pending" | ASSIGNED => "assigned"
  | RUNNING => "running" | RETRYING => "retrying" | COMPLETED => "completed"
  | FAILED => "failed" | SKIPPED => "skipped" | BLOCKED => "blocked"
  | AWAITING_APPROVAL => "awaiting_approval"
  end.

(** [TaskStatus(v)]: [None] is the [ValueError] *)
Definition status_of_value (v : string) : option TaskStatus :=
  list_find (λ s, status_value s = v) all_statuses ≫= λ p, Some p.2.

(** ** The table *)

Definition VALID_TRANSITIONS : list ((TaskStatus * string) * TaskStatus) := [
  ((TODO, "enqueue"), PENDING);
  ((PENDING, "assign"), ASSIGNED);
  ((ASSIGNED, "start"), RUNNING);
  ((PENDING, "start"), RUNNING);
  ((RUNNING, "complete"), COMPLETED);
  ((RUNNING, "fail"), FAILED);
  ((RUNNING, "retry"), RETRYING);
  ((RETRYING, "start"), RUNNING);
  ((RETRYING, "fail"), FAILED);
  ((PENDING, "skip"), SKIPPED);
  ((PENDING, "block"), BLOCKED);
  ((BLOCKED, "unblock"), PENDING);
  ((FAILED, "retry"), PENDING);
  ((BLOCKED, "retry"), PENDING);
  ((RUNNING, "skip"), SKIPPED);
  ((BLOCKED, "skip"), SKIPPED);
  ((TODO, "skip"), SKIPPED);
  ((RUNNING, "force_complete"), COMPLETED);
  ((FAILED, "force_complete"), COMPLETED);
  ((PENDING, "force_complete"), COMPLETED);
  ((BLOCKED, "force_complete"), COMPLETED);
  ((TODO, "force_complete"), COMPLETED);
  ((PENDING, "cancel"), FAILED);
  ((RUNNING, "cancel"), FAILED);
  ((BLOCKED, "cancel"), FAILED);
  ((TODO, "cancel"), FAILED);
  ((ASSIGNED, "cancel"), FAILED);
  ((PENDING, "dep_failed"), SKIPPED);
  ((TODO, "dep_failed"), SKIPPED);
  ((BLOCKED, "dep_failed"), SKIPPED)
].

Definition TERMINAL_STATES : list TaskStatus := [COMPLETED; FAILED; SKIPPED].
Definition OVERRIDE_ACTIONS : list string := ["retry"; "skip"; "force_complete"; "cancel"].

(** ** Operations *)

Inductive fsm_error := ValidationError.

Definition validate_transition (current : TaskStatus) (action : string)
    : res fsm_error TaskStatus :=
  res_of_option ValidationError (dict_get (current, action) VALID_TRANSITIONS).

Definition is_terminal (status : TaskStatus) : bool :=
  bool_decide (status ∈ TERMINAL_STATES).

(** The actions listed for a status, in table order *)
Definition actions_of (current : TaskStatus) : list string :=
  map (λ t, t.1.2) (filter (λ t, t.1.1 = current) VALID_TRANSITIONS).

(** [sorted({...})]: the set drops repetitions. *)
Definition get_valid_actions (current : TaskStatus) : list string :=
  str_sorted (remove_dups (actions_of current)).

Definition get_valid_override_actions (current : TaskStatus) : list string :=
  str_sorted (filter (λ a, a ∈ OVERRIDE_ACTIONS) (actions_of current)).

Definition step (s s' : TaskStatus) : Prop :=
  ∃ action, validate_transition s action = Ok s'.

Example get_valid_actions_ex :
  get_valid_actions FAILED = ["force_complete"; "retry"].
Proof. vm_compute. reflexivity. Qed.

(** ** Lemmas *)

Lemma status_of_value_value s : status_of_value (status_value s) = Some s.
Proof. by destruct s. Qed.

Lemma table_NoDup : NoDup (dict_keys VALID_TRANSITIONS).
Proof. apply (bool_decide_eq_true_1 (NoDup (dict_keys VALID_TRANSITIONS))). by vm_compute. Qed.

Lemma validate_transition_Ok s a s' :
  validate_transition s a = Ok s' ↔ ((s, a), s') ∈ VALID_TRANSITIONS.
Proof.
  unfold validate_transition. rewrite <-(dict_get_elem_of _ _ _ table_NoDup).
  destruct (dict_get (s, a) VALID_TRANSITIONS); cbn; naive_solver.
Qed.

(** Decide a statement about every row of the table. *)
Lemma table_forall (P : (TaskStatus * string) * TaskStatus → Prop)
    `{!∀ t, Decision (P t)} :
  forallb (λ t, bool_decide (P t)) VALID_TRANSITIONS = true →
  ∀ s a s', validate_transition s a = Ok s' → P ((s, a), s').
Proof.
  intros Hall s a s' Ht%validate_transition_Ok. rewrite forallb_forall in Hall.
  apply (bool_decide_eq_true_1 _), Hall. by apply list_elem_of_In.
Qed.

Lemma elem_of_actions s a : a ∈ actions_of s ↔ ∃ s', validate_transition s a = Ok s'.
Proof.
  unfold actions_of. rewrite list_elem_of_fmap. setoid_rewrite list_elem_of_filter.
  setoid_rewrite validate_transition_Ok. split.
  - intros ([[s1 a1] s']&->&<-&Hin). by exists s'.
  - intros (s'&Hin). by exists ((s, a), s').
Qed.

(** ** Theorems *)

(** Completed and skipped tasks are final: no sequence of accepted
    transitions leaves them.  The third terminal status, FAILED, is left only
    by the manual overrides [retry] (back to PENDING) and [force_complete]
    (to COMPLETED). *)
Theorem terminal_states_final s s' :
  is_terminal s = true → rtc step s s' →
  s' = s ∨ (s = FAILED ∧
    ∃ a s1, a ∈ OVERRIDE_ACTIONS ∧ validate_transition FAILED a = Ok s1 ∧
      (a = "retry" ∧ s1 = PENDING ∨ a = "force_complete" ∧ s1 = COMPLETED) ∧
      rtc step s1 s').
Proof.
  intros Ht Hr. destruct Hr as [s|s s1 s' [a Ha] Hr]; [by left|]. right.
  pose proof (table_forall (λ t, t.1.1 ∈ TERMINAL_STATES → t.1.1 = FAILED ∧
    t.1.2 ∈ OVERRIDE_ACTIONS ∧
    (t.1.2 = "retry" ∧ t.2 = PENDING ∨ t.1.2 = "force_complete" ∧ t.2 = COMPLETED))
    eq_refl _ _ _ Ha) as H. cbn in H.
  apply bool_decide_eq_true_1 in Ht. destruct (H Ht) as (->&Ho&Hs).
  split; [done|]. by exists a, s1.
Qed.

Lemma terminal_states_final_witness :
  is_terminal SKIPPED = true ∧
  (SKIPPED = SKIPPED ∨ (SKIPPED = FAILED ∧
    ∃ a s1, a ∈ OVERRIDE_ACTIONS ∧ validate_transition FAILED a = Ok s1 ∧
      (a = "retry" ∧ s1 = PENDING ∨ a = "force_complete" ∧ s1 = COMPLETED) ∧
      rtc step s1 SKIPPED)).
Proof.
  split; [reflexivity|]. apply (terminal_states_final SKIPPED SKIPPED); [reflexivity|].
  apply rtc_refl.
Defined.

(** Progress of the machine: from every status except AWAITING_APPROVAL a
    terminal status is reachable; AWAITING_APPROVAL has no outgoing and no
    incoming transition at all. *)
Theorem terminal_reachable s :
  (s ≠ AWAITING_APPROVAL ∧ ∃ s', rtc step s s' ∧ is_terminal s' = true) ∨
  (s = AWAITING_APPROVAL ∧
   ∀ a s', validate_transition s a = Err ValidationError ∧
           validate_transition s' a ≠ Ok s).
Proof.
  destruct s; [left|left|left|left|left|left|left|left|left|right];
    (split; [done|]).
  - exists SKIPPED. split; [apply rtc_once; by exists "skip"|done].
  - exists SKIPPED. split; [apply rtc_once; by exists "skip"|done].
  - exists FAILED. split; [apply rtc_once; by exists "cancel"|done].
  - exists COMPLETED. split; [apply rtc_once; by exists "complete"|done].
  - exists FAILED. split; [apply rtc_once; by exists "fail"|done].
  - by exists COMPLETED.
  - by exists FAILED.
  - by exists SKIPPED.
  - exists SKIPPED. split; [apply rtc_once; by exists "skip"|done].
  - intros a s'. split.
    + destruct (validate_transition AWAITING_APPROVAL a) as [s1|[]] eqn:E; [|done].
      by pose proof (table_forall (λ t, t.1.1 ≠ AWAITING_APPROVAL) eq_refl _ _ _ E).
    + intros E. by pose proof (table_forall (λ t, t.2 ≠ AWAITING_APPROVAL) eq_refl _ _ _ E).
Qed.

(** The two queries agree with the table: an action is offered exactly
    when [validate_transition] accepts it (and, for overrides, is an override
    action), and both answers are sorted without repetition. *)
Theorem valid_actions_spec s a :
  (a ∈ get_valid_actions s ↔ ∃ s', validate_transition s a = Ok s') ∧
  (a ∈ get_valid_override_actions s ↔
     a ∈ OVERRIDE_ACTIONS ∧ ∃ s', validate_transition s a = Ok s') ∧
  NoDup (get_valid_actions s) ∧ NoDup (get_valid_override_actions s) ∧
  StronglySorted String.le (get_valid_actions s).
Proof.
  unfold get_valid_actions, get_valid_override_actions. split_and!.
  - by rewrite elem_of_str_sorted, elem_of_remove_dups, elem_of_actions.
  - by rewrite elem_of_str_sorted, list_elem_of_filter, elem_of_actions.
  - rewrite str_sorted_perm. apply NoDup_remove_dups.
  - rewrite str_sorted_perm. apply NoDup_filter.
    destruct s; apply (bool_decide_eq_true_1 (NoDup _)); by vm_compute.
  - apply str_sorted_sorted.
Qed.
