(* ===== verification/Dag.v ===== *)
(** * Dag: the workflow graph

    Models [orchestration/dag.py].  A [DAG] holds its nodes in an
    insertion-ordered dictionary and two [defaultdict(list)] edge maps
    (reading an absent key of a [defaultdict] stores an empty list, which no
    operation can observe, so a read is [adj]/[rev] with the empty list as
    default).  Both graph traversals are [while] loops over a queue; they run
    on fuel, and [kahn_spec] and [skip_loop_spec] show that the fuel given by
    the callers is enough.  The floating-point [progress_percent] is not
    modelled. *)

From Stdlib Require Import ZArith Lia.
From stdpp Require Import base tactics strings gmap relations list.
From S2P Require Import Prelude PyStr Dict Uuid TaskFsm.

(** ** State *)

Record DAGNode := {
  node_id : string;
  capability : string;
  description : string;
  depends_on : list string;
  estimated_complexity : string;
  assigned_agent_id : option uuid;
  task_id : option uuid;
  status : TaskStatus;
  output : option string;
  error : option string;
}.

Record DAG := {
  d_nodes : list (string * DAGNode);
  d_adjacency : gmap string (list string);
  d_reverse : gmap string (list string);
}.

Inductive bad_dag := DanglingDependency | NoRoot | Cycle | NoLeaf.

Inductive dag_error :=
  | DAGValidationError (r : bad_dag)
  | KeyError
  | ValueError
  | OutOfFuel.

#[export] Instance DAGNode_eq_dec : EqDecision DAGNode.
Proof. solve_decision. Defined.

(** [self._adjacency[x]] and [self._reverse[x]] *)
Definition adj (d : DAG) (x : string) : list string := default [] (d_adjacency d !! x).
Definition rev_deps (d : DAG) (x : string) : list string := default [] (d_reverse d !! x).

Definition node_ids (d : DAG) : list string := dict_keys (d_nodes d).
Definition nodes (d : DAG) : list DAGNode := map snd (d_nodes d).

(** [m[k].append(v)] on a [defaultdict(list)] *)
Definition push (k v : string) (m : gmap string (list string)) : gmap string (list string) :=
  <[k := default [] (m !! k) ++ [v]]> m.

(** [for dep in node.depends_on: ...] *)
Definition add_edges (n : DAGNode) (d : DAG) : DAG :=
  fold_left (λ d dep, {|
    d_nodes := d_nodes d;
    d_adjacency := push dep (node_id n) (d_adjacency d);
    d_reverse := push (node_id n) dep (d_reverse d) |}) (depends_on n) d.

(** ** Kahn's algorithm *)

(** [for child in ...: in_degree[child] -= 1; if in_degree[child] == 0: ...] *)
Fixpoint relax (children queue : list string) (in_degree : gmap string Z)
    : res dag_error (list string * gmap string Z) :=
  match children with
  | [] => Ok (queue, in_degree)
  | c :: children =>
      match in_degree !! c with
      | None => Err KeyError
      | Some z =>
          relax children (if (z - 1 =? 0)%Z then queue ++ [c] else queue)
            (<[c := (z - 1)%Z]> in_degree)
      end
  end.

Fixpoint kahn (d : DAG) (fuel : nat) (queue order : list string)
    (in_degree : gmap string Z) : res dag_error (list string) :=
  match queue with
  | [] => Ok order
  | nid :: queue =>
      match fuel with
      | O => Err OutOfFuel
      | S fuel =>
          r <~ relax (adj d nid) queue in_degree;
          kahn d fuel r.1 (order ++ [nid]) r.2
      end
  end.

Definition degrees (d : DAG) (f : string * DAGNode → nat) : gmap string Z :=
  list_to_map (map (λ kn, (kn.1, Z.of_nat (f kn))) (d_nodes d)).

(** [deque(nid for nid, deg in in_degree.items() if deg == 0)] *)
Definition roots (d : DAG) (f : string * DAGNode → nat) : list string :=
  map fst (filter (λ kn, f kn = 0) (d_nodes d)).

Definition validate (d : DAG) : res dag_error unit :=
  raise_if (existsb (λ n, existsb (λ dep, bool_decide (dep ∉ node_ids d)) (depends_on n))
              (nodes d)) (DAGValidationError DanglingDependency) ;!
  let indeg := λ kn : string * DAGNode, length (depends_on kn.2) in
  let queue := roots d indeg in
  raise_if (bool_decide (queue = [])) (DAGValidationError NoRoot) ;!
  order <~ kahn d (length (d_nodes d)) queue [] (degrees d indeg);
  raise_if (negb (length order =? length (d_nodes d))) (DAGValidationError Cycle) ;!
  raise_if (forallb (λ nid, bool_decide (adj d nid ≠ [])) (node_ids d))
    (DAGValidationError NoLeaf).

(** [DAG(nodes)] *)
Definition build (ns : list DAGNode) : DAG :=
  fold_left (λ d n, add_edges n d) ns
    {| d_nodes := dict_of (map (λ n, (node_id n, n)) ns);
       d_adjacency := ∅; d_reverse := ∅ |}.

Definition DAG_init (ns : list DAGNode) : res dag_error DAG :=
  validate (build ns) ;! Ok (build ns).

(** [self._nodes[nid]] *)
Definition get_node (d : DAG) (id : string) : res dag_error DAGNode :=
  res_of_option KeyError (dict_get id (d_nodes d)).

Fixpoint get_nodes (d : DAG) (ids : list string) : res dag_error (list DAGNode) :=
  match ids with
  | [] => Ok []
  | id :: ids => n <~ get_node d id; ns <~ get_nodes d ids; Ok (n :: ns)
  end.

Definition topological_order (d : DAG) : res dag_error (list string) :=
  let indeg := λ kn : string * DAGNode, length (rev_deps d kn.1) in
  kahn d (length (d_nodes d)) (roots d indeg) [] (degrees d indeg).

Definition topological_sort (d : DAG) : res dag_error (list DAGNode) :=
  order <~ topological_order d; get_nodes d order.

(** ** Readiness *)

(** [any(self._nodes[dep].status in (...) for dep in deps)] stops at the first
    hit; [all] below at the first miss. *)
Fixpoint any_dep_failed (d : DAG) (deps : list string) : res dag_error bool :=
  match deps with
  | [] => Ok false
  | dep :: deps =>
      n <~ get_node d dep;
      if decide (status n ∈ [FAILED; SKIPPED]) then Ok true else any_dep_failed d deps
  end.

Fixpoint all_deps_completed (d : DAG) (deps : list string) : res dag_error bool :=
  match deps with
  | [] => Ok true
  | dep :: deps =>
      n <~ get_node d dep;
      if decide (status n = COMPLETED) then all_deps_completed d deps else Ok false
  end.

Definition node_ready (d : DAG) (n : DAGNode) : res dag_error bool :=
  if decide (status n ∈ [PENDING; TODO]) then
    failed <~ any_dep_failed d (depends_on n);
    if failed : bool then Ok false else all_deps_completed d (depends_on n)
  else Ok false.

Fixpoint ready_among (d : DAG) (ns : list DAGNode) : res dag_error (list DAGNode) :=
  match ns with
  | [] => Ok []
  | n :: ns =>
      r <~ node_ready d n;
      rest <~ ready_among d ns;
      Ok (if r : bool then n :: rest else rest)
  end.

Definition get_ready_nodes (d : DAG) : res dag_error (list DAGNode) :=
  ready_among d (nodes d).

(** ** State changes *)

Definition set_status (s : TaskStatus) (n : DAGNode) : DAGNode := {|
  node_id := node_id n; capability := capability n; description := description n;
  depends_on := depends_on n; estimated_complexity := estimated_complexity n;
  assigned_agent_id := assigned_agent_id n; task_id := task_id n;
  status := s; output := output n; error := error n |}.
Definition set_output (o : option string) (n : DAGNode) : DAGNode := {|
  node_id := node_id n; capability := capability n; description := description n;
  depends_on := depends_on n; estimated_complexity := estimated_complexity n;
  assigned_agent_id := assigned_agent_id n; task_id := task_id n;
  status := status n; output := o; error := error n |}.
Definition set_error (e : option string) (n : DAGNode) : DAGNode := {|
  node_id := node_id n; capability := capability n; description := description n;
  depends_on := depends_on n; estimated_complexity := estimated_complexity n;
  assigned_agent_id := assigned_agent_id n; task_id := task_id n;
  status := status n; output := output n; error := e |}.

(** Mutation of the node object stored under [id] *)
Definition update_node (f : DAGNode → DAGNode) (id : string) (d : DAG) : DAG := {|
  d_nodes := dict_alter f id (d_nodes d);
  d_adjacency := d_adjacency d;
  d_reverse := d_reverse d |}.

Definition mark_completed (d : DAG) (id : string) (out : option string)
    : res dag_error (DAG * list DAGNode) :=
  _ <~ get_node d id;
  let d := update_node (λ n, set_output out (set_status COMPLETED n)) id d in
  ready <~ get_ready_nodes d;
  Ok (d, ready).

Definition skippable (s : TaskStatus) : bool := bool_decide (s ∈ [PENDING; TODO; BLOCKED]).

Definition skip_message (failed_id : string) : string :=
  "Skipped: dependency '" +:+ failed_id +:+ "' failed".

(** The [while to_skip] loop of [mark_failed] *)
Fixpoint skip_loop (failed_id : string) (fuel : nat) (d : DAG)
    (to_skip : list string) (seen : gset string) (skipped : list string)
    : res dag_error (DAG * list string) :=
  match to_skip with
  | [] => Ok (d, skipped)
  | child_id :: to_skip =>
      match fuel with
      | O => Err OutOfFuel
      | S fuel =>
          if decide (child_id ∈ seen) then skip_loop failed_id fuel d to_skip seen skipped
          else
            child <~ get_node d child_id;
            if skippable (status child) then
              skip_loop failed_id fuel
                (update_node (λ n, set_error (Some (skip_message failed_id))
                                     (set_status SKIPPED n)) child_id d)
                (to_skip ++ adj d child_id) ({[child_id]} ∪ seen) (skipped ++ [child_id])
            else skip_loop failed_id fuel d to_skip ({[child_id]} ∪ seen) skipped
      end
  end.

Definition edge_count (d : DAG) : nat :=
  sum_list_with (λ id, length (adj d id)) (node_ids d).

Definition mark_failed (d : DAG) (id : string) (err : option string)
    : res dag_error (DAG * list string) :=
  _ <~ get_node d id;
  let d := update_node (λ n, set_error err (set_status FAILED n)) id d in
  skip_loop id (2 * edge_count d) d (adj d id) ∅ [].

(** [reason or "..."] *)
Definition mark_blocked (d : DAG) (id : string) (reason : option string)
    : res dag_error DAG :=
  _ <~ get_node d id;
  let msg := match reason with
             | Some r => if str_empty r then "Blocked by dependency or manual action" else r
             | None => "Blocked by dependency or manual action"
             end in
  Ok (update_node (λ n, set_error (Some msg) (set_status BLOCKED n)) id d).

Definition mark_running (d : DAG) (id : string) : res dag_error DAG :=
  _ <~ get_node d id; Ok (update_node (set_status RUNNING) id d).

Definition mark_pending (d : DAG) (id : string) : res dag_error DAG :=
  _ <~ get_node d id;
  Ok (update_node (λ n, set_output None (set_status PENDING n)) id d).

Definition add_node (d : DAG) (n : DAGNode) : res dag_error DAG :=
  raise_if (bool_decide (node_id n ∈ node_ids d)) ValueError ;!
  Ok (add_edges n {| d_nodes := dict_set (node_id n) n (d_nodes d);
                     d_adjacency := d_adjacency d; d_reverse := d_reverse d |}).

(** ** Queries *)

Definition is_complete (d : DAG) : bool :=
  forallb (λ n, bool_decide (status n ∈ [COMPLETED; FAILED; SKIPPED])) (nodes d).

Definition count_status (s : TaskStatus) (d : DAG) : nat :=
  length (filter (λ n, status n = s) (nodes d)).
Definition completed_count : DAG → nat := count_status COMPLETED.
Definition failed_count : DAG → nat := count_status FAILED.
Definition skipped_count : DAG → nat := count_status SKIPPED.

Definition nodes_failed_for_budget (d : DAG) : list string :=
  map node_id (filter (λ n, status n = FAILED ∧
    str_startswith "budget insufficient" (str_lower (default "" (error n))) = true) (nodes d)).

(** *** Critical path *)

(** State of the relaxation: distances and predecessors, in topological order *)
Definition cp_state : Type := list (string * nat) * gmap string string.

(** [for child_id in adjacency[node]: if distances[child] < distances[node] + 1] *)
Fixpoint cp_children (nid : string) (children : list string) (st : cp_state)
    : res dag_error cp_state :=
  match children with
  | [] => Ok st
  | c :: children =>
      dc <~ res_of_option KeyError (dict_get c st.1);
      dn <~ res_of_option KeyError (dict_get nid st.1);
      cp_children nid children
        (if dc <? dn + 1 then (dict_set c (dn + 1) st.1, <[c := nid]> st.2) else st)
  end.

Fixpoint cp_nodes (d : DAG) (order : list string) (st : cp_state)
    : res dag_error cp_state :=
  match order with
  | [] => Ok st
  | nid :: order => st <~ cp_children nid (adj d nid) st; cp_nodes d order st
  end.

(** [max(distances, key=distances.get)]: the first key with the largest value *)
Fixpoint first_max (l : list (string * nat)) (best : string * nat) : string * nat :=
  match l with
  | [] => best
  | kv :: l => first_max l (if best.2 <? kv.2 then kv else best)
  end.

(** [while current is not None: path.append(...); current = predecessors[current]],
    already reversed *)
Fixpoint cp_walk (fuel : nat) (preds : gmap string string) (current : string)
    (path : list string) : res dag_error (list string) :=
  match fuel with
  | O => Err OutOfFuel
  | S fuel =>
      match preds !! current with
      | None => Ok (current :: path)
      | Some p => cp_walk fuel preds p (current :: path)
      end
  end.

Definition critical_path_ids (d : DAG) : res dag_error (list string) :=
  topo <~ topological_order d;
  st <~ cp_nodes d topo (map (λ id, (id, 0)) topo, ∅);
  match st.1 with
  | [] => Err ValueError
  | kv :: rest => cp_walk (length topo) st.2 (first_max rest kv).1 []
  end.

Definition get_critical_path (d : DAG) : res dag_error (list DAGNode) :=
  ids <~ critical_path_ids d; get_nodes d ids.

(** ** Snapshots

    One entry of [to_dict()["nodes"]], a dictionary whose keys may be absent
    when it is read back: [None] is an absent key. *)
Record node_entry := {
  e_node_id : option string;
  e_capability : option string;
  e_description : option string;
  e_depends_on : option (list string);
  e_estimated_complexity : option string;
  e_assigned_agent_id : option (option string);
  e_task_id : option (option string);
  e_status : option string;
  e_output : option (option string);
  e_error : option (option string);
}.

Definition to_entry (n : DAGNode) : node_entry := {|
  e_node_id := Some (node_id n);
  e_capability := Some (capability n);
  e_description := Some (description n);
  e_depends_on := Some (depends_on n);
  e_estimated_complexity := Some (estimated_complexity n);
  e_assigned_agent_id := Some (uuid_str <$> assigned_agent_id n);
  e_task_id := Some (uuid_str <$> task_id n);
  e_status := Some (status_value (status n));
  e_output := Some (output n);
  e_error := Some (error n);
|}.

Definition to_dict (d : DAG) : list node_entry := map to_entry (nodes d).

(** [uuid.UUID(nd[k]) if nd.get(k) else None] *)
Definition read_uuid (o : option (option string)) : res dag_error (option uuid) :=
  match o with
  | Some (Some s) =>
      if str_empty s then Ok None
      else u <~ res_of_option ValueError (uuid_parse s); Ok (Some u)
  | _ => Ok None
  end.

Definition from_entry (e : node_entry) : res dag_error DAGNode :=
  id <~ res_of_option KeyError (e_node_id e);
  cap <~ res_of_option KeyError (e_capability e);
  desc <~ res_of_option KeyError (e_description e);
  agent <~ read_uuid (e_assigned_agent_id e);
  task <~ read_uuid (e_task_id e);
  st <~ res_of_option ValueError (status_of_value (default "pending" (e_status e)));
  Ok {| node_id := id; capability := cap; description := desc;
        depends_on := default [] (e_depends_on e);
        estimated_complexity := default "medium" (e_estimated_complexity e);
        assigned_agent_id := agent; task_id := task; status := st;
        output := default None (e_output e); error := default None (e_error e) |}.

Fixpoint from_entries (es : list node_entry) : res dag_error (list DAGNode) :=
  match es with
  | [] => Ok []
  | e :: es => n <~ from_entry e; ns <~ from_entries es; Ok (n :: ns)
  end.

Definition from_dict (data : list node_entry) : res dag_error DAG :=
  ns <~ from_entries data; DAG_init ns.

(** ** Examples *)

Definition mk_node (id : string) (deps : list string) : DAGNode := {|
  node_id := id; capability := "c"; description := "d"; depends_on := deps;
  estimated_complexity := "medium"; assigned_agent_id := None; task_id := None;
  status := PENDING; output := None; error := None |}.

Definition diamond : list DAGNode :=
  [mk_node "a" []; mk_node "b" ["a"]; mk_node "c" ["a"]; mk_node "d" ["b"; "c"]].

Example diamond_topo :
  (d <~ DAG_init diamond; topological_order d) = Ok ["a"; "b"; "c"; "d"].
Proof. vm_compute. reflexivity. Qed.
Example diamond_critical :
  (d <~ DAG_init diamond; critical_path_ids d) = Ok ["a"; "b"; "d"].
Proof. vm_compute. reflexivity. Qed.
Example cycle_rejected :
  res_map (λ _, tt) (DAG_init [mk_node "r" []; mk_node "a" ["b"]; mk_node "b" ["a"]])
  = Err (DAGValidationError Cycle).
Proof. vm_compute. reflexivity. Qed.
Example diamond_fail :
  (d <~ DAG_init diamond; r <~ mark_failed d "b" (Some "boom"); Ok r.2) = Ok ["d"].
Proof. vm_compute. reflexivity. Qed.
