(* ===== verification/DagTopo.v ===== *)
(** * DagTopo: well-formed workflow graphs and their topological order

    The representation invariant [wf_dag] of a [Dag.DAG] (the edge maps agree
    with the [depends_on] lists), and the correctness of Kahn's algorithm:
    [kahn_spec] is the loop invariant with the fuel bound; the theorems say
    when the constructor accepts a graph and what [topological_sort] returns. *)

From Stdlib Require Import ZArith Lia.
From stdpp Require Import base tactics strings gmap relations finite list.
From S2P Require Import Prelude PyStr Dict Uuid TaskFsm Dag.

Abbreviation occ x l := (count_occ (λ a b : string, decide (a = b)) l x).

(** The dependencies the stored node of [c] names *)
Definition deps (d : DAG) (c : string) : list string :=
  match dict_get c (d_nodes d) with
  | Some n => depends_on n
  | None => []
  end.

(** [p] must complete before [c] *)
Definition edge (d : DAG) (p c : string) : Prop := p ∈ deps d c.

Definition acyclic (d : DAG) : Prop := ∀ x, ¬ tc (edge d) x x.

(** Every dependency names a node. *)
Definition closed (d : DAG) : Prop := ∀ p c, edge d p c → p ∈ node_ids d.

Record wf_dag (d : DAG) : Prop := {
  wf_keys : NoDup (node_ids d);
  wf_id : ∀ id n, dict_get id (d_nodes d) = Some n → node_id n = id;
  wf_adj : ∀ p c, occ c (adj d p) = occ p (deps d c);
  wf_rev : ∀ c, rev_deps d c = deps d c;
}.

Definition valid_dag (d : DAG) : Prop := wf_dag d ∧ closed d ∧ acyclic d.

(** Every element comes after all its dependencies. *)
Definition deps_first (d : DAG) (order : list string) : Prop :=
  ∀ j c, order !! j = Some c → ∀ p, edge d p c → ∃ i, i < j ∧ order !! i = Some p.

(** ** Lists *)

Lemma occ_elem_of x l : x ∈ l ↔ 0 < occ x l.
Proof. rewrite list_elem_of_In. apply count_occ_In. Qed.

Lemma occ_0 x l : occ x l = 0 ↔ x ∉ l.
Proof. rewrite occ_elem_of. lia. Qed.

(** Walking backwards for ever inside a finite list runs into a cycle. *)
Lemma finite_cycle (R : string → string → Prop) (s : list string) :
  (∀ x, x ∈ s → ∃ y, y ∈ s ∧ R y x) → s ≠ [] → ∃ x, tc R x x.
Proof.
  intros Hback Hne.
  assert (∀ n, ∃ l : list string, length l = S n ∧ l ⊆ s ∧
    ∀ i j x y, i < j → l !! i = Some x → l !! j = Some y → tc R x y) as Hwalk.
  { intros n. induction n as [|n (l&Hlen&Hsub&Htc)].
    - destruct s as [|x s]; [done|]. exists [x]. split_and!; [done| |].
      + intros y ->%list_elem_of_singleton. by left.
      + intros i j y z Hij Hy Hz. apply lookup_lt_Some in Hz. cbn in Hz. lia.
    - destruct l as [|x l]; [done|]. destruct (Hback x) as (y&Hy&HR).
      { apply Hsub. by left. }
      exists (y :: x :: l). split_and!; [cbn in *; lia| |].
      + intros z [->|Hz]%elem_of_cons; [done|by apply Hsub].
      + intros [|i] [|j] z w Hij Hz Hw; [lia| |lia|].
        * cbn in Hz; injection Hz as <-. destruct j as [|j]; cbn in Hw.
          { injection Hw as <-. by apply tc_once. }
          eapply tc_l; [exact HR|]. by apply (Htc 0 (S j)); [lia| |].
        * apply (Htc i j); [lia| |]; done. }
  destruct (Hwalk (length s)) as (l&Hlen&Hsub&Htc).
  destruct (list_pigeonhole l s) as (i&j&x&Hij&Hi&Hj); [done|lia|].
  exists x. by apply (Htc i j).
Qed.

(** ** The representation invariant *)

Lemma deps_is_node d p c : edge d p c → c ∈ node_ids d.
Proof.
  unfold edge, deps. intros Hin. apply dict_get_is_Some.
  destruct (dict_get c (d_nodes d)) eqn:E; [by eexists|]. by apply elem_of_nil in Hin.
Qed.

Lemma tc_is_node d x y : tc (edge d) x y → y ∈ node_ids d.
Proof. induction 1; [by eapply deps_is_node|done]. Qed.

Lemma elem_of_adj d p c : wf_dag d → c ∈ adj d p ↔ edge d p c.
Proof. intros Hwf. unfold edge. by rewrite !occ_elem_of, (wf_adj d Hwf). Qed.

Lemma add_edges_nodes n d : d_nodes (add_edges n d) = d_nodes d.
Proof.
  unfold add_edges. revert d. induction (depends_on n) as [|p l IH]; intros d; [done|].
  cbn [fold_left]. by rewrite IH.
Qed.

Lemma push_lookup k v m k' :
  default [] (push k v m !! k') =
  default [] (m !! k') ++ (if decide (k = k') then [v] else []).
Proof.
  unfold push. destruct (decide (k = k')) as [->|Hne].
  - by rewrite lookup_insert_eq.
  - by rewrite lookup_insert_ne, app_nil_r.
Qed.

Lemma add_edges_rev n d c :
  rev_deps (add_edges n d) c =
  rev_deps d c ++ (if decide (node_id n = c) then depends_on n else []).
Proof.
  unfold add_edges. revert d. induction (depends_on n) as [|p l IH]; intros d; cbn [fold_left].
  { case_decide; by rewrite app_nil_r. }
  rewrite IH. unfold rev_deps at 1. cbn [d_reverse]. rewrite push_lookup.
  fold (rev_deps d c). rewrite <-app_assoc. by case_decide.
Qed.

Lemma add_edges_adj n d p c :
  occ c (adj (add_edges n d) p) =
  occ c (adj d p) + (if decide (node_id n = c) then occ p (depends_on n) else 0).
Proof.
  unfold add_edges. revert d. induction (depends_on n) as [|q l IH]; intros d; cbn [fold_left].
  { case_decide; cbn; lia. }
  rewrite IH. unfold adj at 1. cbn [d_adjacency]. rewrite push_lookup.
  fold (adj d p). rewrite count_occ_app. cbn [count_occ].
  repeat case_decide; cbn [count_occ]; repeat case_decide; subst; done || lia.
Qed.

(** Edges named by a list of nodes, whatever the identifiers *)
Definition deps_in (ns : list DAGNode) (c : string) : list string :=
  ns ≫= λ n, if decide (node_id n = c) then depends_on n else [].

Lemma fold_add_edges ns d p c :
  let d' := fold_left (λ d n, add_edges n d) ns d in
  d_nodes d' = d_nodes d ∧
  rev_deps d' c = rev_deps d c ++ deps_in ns c ∧
  occ c (adj d' p) = occ c (adj d p) + occ p (deps_in ns c).
Proof.
  revert d. induction ns as [|n ns IH]; intros d; cbn [fold_left].
  { cbn. rewrite app_nil_r. split_and!; [done..|lia]. }
  destruct (IH (add_edges n d)) as (H1&H2&H3). cbv zeta in *. split_and!.
  - by rewrite H1, add_edges_nodes.
  - rewrite H2, add_edges_rev, <-app_assoc. done.
  - rewrite H3, add_edges_adj. unfold deps_in. cbn. rewrite count_occ_app.
    case_decide; cbn; lia.
Qed.

Lemma build_spec ns p c :
  d_nodes (build ns) = dict_of (map (λ n, (node_id n, n)) ns) ∧
  rev_deps (build ns) c = deps_in ns c ∧
  occ c (adj (build ns) p) = occ p (deps_in ns c).
Proof. apply (fold_add_edges ns). Qed.

Lemma build_nodes_id ns :
  NoDup (map node_id ns) → d_nodes (build ns) = map (λ n, (node_id n, n)) ns.
Proof. intros Hnd. destruct (build_spec ns "" "") as (->&_). apply dict_of_id. by rewrite map_map. Qed.

Lemma deps_in_get ns c :
  NoDup (map node_id ns) →
  deps_in ns c = match dict_get c (map (λ n, (node_id n, n)) ns) with
                 | Some n => depends_on n | None => [] end.
Proof.
  induction ns as [|n ns IH]; [done|]. cbn. intros [Hn Hnd]%NoDup_cons.
  case_decide as Hc; [|by rewrite <-IH].
  unfold deps_in in *. cbn. rewrite (IH Hnd).
  assert (dict_get c (map (λ n, (node_id n, n)) ns) = None) as ->.
  { apply dict_get_None. rewrite map_map. cbn. by subst c. }
  by rewrite app_nil_r.
Qed.

Lemma build_wf ns : NoDup (map node_id ns) → wf_dag (build ns).
Proof.
  intros Hnd. pose proof (build_nodes_id ns Hnd) as Hn.
  assert (∀ c, deps (build ns) c = deps_in ns c) as Hd.
  { intros c. unfold deps. by rewrite Hn, deps_in_get. }
  split.
  - unfold node_ids. by rewrite Hn, map_map.
  - intros id n. rewrite Hn. intros Hg. apply dict_get_elem_of in Hg; [|by rewrite map_map].
    apply list_elem_of_fmap in Hg as (m&[= -> ->]&_). done.
  - intros p c. rewrite Hd. apply build_spec.
  - intros c. rewrite Hd. by apply (build_spec ns "").
Qed.

(** Changing stored nodes in place, but not their names or dependencies *)
Lemma update_node_deps f id d c :
  (∀ n, depends_on (f n) = depends_on n) → deps (update_node f id d) c = deps d c.
Proof.
  intros Hf. unfold deps, update_node. cbn. rewrite dict_get_alter.
  case_decide; [|done]. destruct (dict_get _ _); cbn; [by rewrite Hf|done].
Qed.

Lemma update_node_ids f id d : node_ids (update_node f id d) = node_ids d.
Proof. apply dict_keys_alter. Qed.

Lemma update_node_wf f id d :
  (∀ n, node_id (f n) = node_id n ∧ depends_on (f n) = depends_on n) →
  wf_dag d → wf_dag (update_node f id d).
Proof.
  intros Hf [H1 H2 H3 H4].
  assert (∀ c, deps (update_node f id d) c = deps d c) as Hd
    by (intros; apply update_node_deps; apply Hf).
  split.
  - by rewrite update_node_ids.
  - intros id' n. cbn. rewrite dict_get_alter. case_decide; [|apply H2].
    intros (m&Hm&->)%fmap_Some. destruct (Hf m) as [-> _]. by apply H2.
  - intros p c. rewrite Hd. apply H3.
  - intros c. rewrite Hd. apply H4.
Qed.

Lemma add_node_deps d n c :
  node_id n ∉ node_ids d →
  deps (add_edges n {| d_nodes := dict_set (node_id n) n (d_nodes d);
                       d_adjacency := d_adjacency d; d_reverse := d_reverse d |}) c =
  if decide (node_id n = c) then depends_on n else deps d c.
Proof.
  intros Hfresh. unfold deps. rewrite add_edges_nodes. cbn [d_nodes].
  rewrite dict_get_set. by case_decide.
Qed.

Lemma add_node_wf d n d' : wf_dag d → add_node d n = Ok d' → wf_dag d'.
Proof.
  intros [H1 H2 H3 H4] Hadd. unfold add_node in Hadd.
  apply res_bind_Ok in Hadd as (?&Hfr%raise_if_Ok%bool_decide_eq_false&[= <-]).
  assert (deps d (node_id n) = []) as Hnil.
  { unfold deps. by rewrite (proj2 (dict_get_None _ _) Hfr). }
  split.
  - unfold node_ids. rewrite add_edges_nodes. by apply dict_keys_set_NoDup.
  - intros id m. rewrite add_edges_nodes. cbn [d_nodes]. rewrite dict_get_set.
    case_decide; [naive_solver|apply H2].
  - intros p c. rewrite add_node_deps, add_edges_adj by done.
    change (adj {| d_nodes := _; d_adjacency := _; d_reverse := _ |} p) with (adj d p).
    rewrite H3. case_decide; subst; [by rewrite Hnil|lia].
  - intros c. rewrite add_node_deps, add_edges_rev by done.
    change (rev_deps {| d_nodes := _; d_adjacency := _; d_reverse := _ |} c) with (rev_deps d c).
    rewrite H4. case_decide; subst; [by rewrite Hnil|by rewrite app_nil_r].
Qed.

(** ** Kahn's algorithm *)

(** Dependencies of [c] that are not in [P] *)
Definition unmet (d : DAG) (P : list string) (c : string) : nat :=
  length (filter (λ p, p ∉ P) (deps d c)).

Lemma unmet_snoc d P x c : x ∉ P → unmet d P c = unmet d (P ++ [x]) c + occ x (deps d c).
Proof.
  intros Hx. unfold unmet. induction (deps d c) as [|p l IH]; [done|].
  rewrite !filter_cons. cbn [count_occ].
  assert ((p ∉ P ++ [x]) ↔ (p ∉ P) ∧ p ≠ x) as Hiff.
  { rewrite elem_of_app, list_elem_of_singleton. tauto. }
  repeat case_decide; cbn [length]; subst; try lia; tauto.
Qed.

Lemma unmet_0 d P c : unmet d P c = 0 ↔ ∀ p, edge d p c → p ∈ P.
Proof.
  unfold unmet, edge. rewrite length_zero_iff_nil. split.
  - intros Hf p Hp. destruct (decide (p ∈ P)) as [|Hn]; [done|].
    assert (p ∈ filter (λ p, p ∉ P) (deps d c)) as Hin by by apply list_elem_of_filter.
    rewrite Hf in Hin. by apply elem_of_nil in Hin.
  - intros Hall. destruct (filter _ _) as [|p l] eqn:E; [done|].
    assert (p ∈ filter (λ p, p ∉ P) (deps d c)) as Hin by (rewrite E; by left).
    apply list_elem_of_filter in Hin as [Hn Hin]. by apply Hall in Hin.
Qed.

Lemma relax_spec cs Q deg :
  (∀ c, c ∈ cs → ∃ k, deg !! c = Some k ∧ (Z.of_nat (occ c cs) ≤ k)%Z) →
  ∃ new deg', relax cs Q deg = Ok (Q ++ new, deg') ∧
    (∀ c, deg' !! c = (λ k, k - Z.of_nat (occ c cs))%Z <$> deg !! c) ∧
    NoDup new ∧ ∀ c, c ∈ new ↔ c ∈ cs ∧ deg !! c = Some (Z.of_nat (occ c cs)).
Proof.
  revert Q deg. induction cs as [|c cs IH]; intros Q deg Hk.
  { exists [], deg. cbn. rewrite app_nil_r. split_and!; [done| |constructor|].
    - intros c. destruct (deg !! c); cbn; [by rewrite Z.sub_0_r|done].
    - intros c. split; [by intros ?%elem_of_nil|by intros [?%elem_of_nil _]]. }
  destruct (Hk c) as (z&Hz&Hle); [by left|]. cbn [relax]. rewrite Hz.
  assert (occ c (c :: cs) = S (occ c cs)) as Hc by (cbn; by case_decide).
  assert (∀ x, c ≠ x → occ x (c :: cs) = occ x cs) as Hne
    by (intros x Hx; cbn; by case_decide).
  rewrite Hc in Hle.
  destruct (IH (if (z - 1 =? 0)%Z then Q ++ [c] else Q) (<[c := (z - 1)%Z]> deg))
    as (new&deg'&->&Hdeg&Hnd&Hnew).
  { intros x Hx. destruct (decide (c = x)) as [<-|Hcx].
    - exists (z - 1)%Z. rewrite lookup_insert_eq. split; [done|lia].
    - rewrite lookup_insert_ne by done. rewrite <-(Hne x Hcx). apply Hk. by right. }
  assert (∀ x, deg' !! x = (λ k, k - Z.of_nat (occ x (c :: cs)))%Z <$> deg !! x) as Hdeg'.
  { intros x. rewrite Hdeg. destruct (decide (c = x)) as [<-|Hcx].
    - rewrite lookup_insert_eq, Hz, Hc. cbn. f_equal. lia.
    - by rewrite lookup_insert_ne, Hne. }
  assert (∀ x, c ≠ x → x ∈ new ↔ x ∈ c :: cs ∧ deg !! x = Some (Z.of_nat (occ x (c :: cs))))
    as Hother.
  { intros x Hcx. rewrite Hnew, lookup_insert_ne, Hne, elem_of_cons by done. naive_solver. }
  assert (c ∈ new ↔ c ∈ cs ∧ z = Z.of_nat (S (occ c cs))) as Hself.
  { rewrite Hnew, lookup_insert_eq. split; intros [? Hq]; split; try done.
    - injection Hq. lia.
    - f_equal. lia. }
  pose proof (occ_elem_of c cs) as Hin.
  destruct (z - 1 =? 0)%Z eqn:E.
  - apply Z.eqb_eq in E. exists (c :: new), deg'. split_and!; [by rewrite <-app_assoc|done| |].
    + constructor; [|done]. rewrite Hself, Hin. lia.
    + intros x. rewrite elem_of_cons. destruct (decide (c = x)) as [<-|Hcx].
      * split; [|by left]. intros _. rewrite Hz, Hc, elem_of_cons.
        split; [by left|]. f_equal. lia.
      * rewrite <-Hother by done. naive_solver.
  - apply Z.eqb_neq in E. exists new, deg'. split_and!; [done|done|done|].
    intros x. destruct (decide (c = x)) as [<-|Hcx]; [|by apply Hother].
    rewrite Hself, Hz, Hc, elem_of_cons. split.
    + intros [? ->]. split; [by left|done].
    + intros [_ [= ->]]. split; [|done]. apply Hin. lia.
Qed.

(** Loop invariant of the [while queue] loops *)
Record kahn_inv (d : DAG) (order queue : list string) (deg : gmap string Z) : Prop := {
  ki_nodup : NoDup (order ++ queue);
  ki_mem : ∀ c, c ∈ order ++ queue ↔ c ∈ node_ids d ∧ unmet d order c = 0;
  ki_deg : ∀ c, c ∈ node_ids d → deg !! c = Some (Z.of_nat (unmet d order c));
  ki_first : deps_first d order;
}.

Lemma kahn_inv_step d order x queue deg :
  wf_dag d → kahn_inv d order (x :: queue) deg →
  ∃ queue' deg', relax (adj d x) queue deg = Ok (queue', deg') ∧
    kahn_inv d (order ++ [x]) queue' deg'.
Proof.
  intros Hwf [Hnd Hmem Hdeg Hfirst].
  assert (x ∉ order) as Hx.
  { apply NoDup_app in Hnd as (_&Hd&_). intros Hin. apply (Hd _ Hin). by left. }
  assert (∀ c, unmet d order c = unmet d (order ++ [x]) c + occ c (adj d x)) as Hun
    by (intros c; by rewrite (wf_adj d Hwf), <-unmet_snoc).
  destruct (relax_spec (adj d x) queue deg) as (new&deg'&Hr&Hdeg'&Hnew&Hin).
  { intros c Hc. exists (Z.of_nat (unmet d order c)). split; [|specialize (Hun c); lia].
    apply Hdeg. apply (deps_is_node d x). by apply elem_of_adj. }
  exists (queue ++ new), deg'. split; [done|].
  assert (∀ c, c ∈ new ↔ c ∈ node_ids d ∧ unmet d (order ++ [x]) c = 0 ∧
                         unmet d order c ≠ 0) as Hnew'.
  { intros c. rewrite Hin, occ_elem_of. specialize (Hun c). split.
    - intros [Hc Hs]. assert (c ∈ node_ids d) as HV.
      { apply (deps_is_node d x). apply elem_of_adj; [done|]. by apply occ_elem_of. }
      rewrite (Hdeg c HV) in Hs. injection Hs. intros. split; [done|lia].
    - intros (HV&H0&H1). rewrite (Hdeg c HV). split; [lia|]. f_equal. lia. }
  split.
  - rewrite app_assoc, <-(app_assoc order). apply NoDup_app. split_and!; [done| |done].
    intros c Hc Hn. apply Hnew' in Hn as (_&_&Hn). by apply Hmem in Hc as [_ ?].
  - intros c. rewrite app_assoc, <-(app_assoc order), elem_of_app, Hnew'. cbn [app].
    rewrite Hmem. specialize (Hun c). destruct (decide (unmet d order c = 0)); [|tauto].
    split; [|tauto]. intros [[? _]|?]; [|tauto]. split; [done|lia].
  - intros c HV. rewrite Hdeg', (Hdeg c HV). cbn. f_equal. specialize (Hun c). lia.
  - intros j c Hj p Hp. apply lookup_app_Some in Hj as [Hj|[Hge Hj]].
    + destruct (Hfirst j c Hj p Hp) as (i&Hi&Hl). exists i. split; [done|].
      by apply lookup_app_l_Some.
    + apply list_lookup_singleton_Some in Hj as [Hj ->].
      assert (p ∈ order) as (i&Hi)%list_elem_of_lookup.
      { apply (proj1 (unmet_0 d order c)); [|done]. apply Hmem, elem_of_app. right. by left. }
      exists i. pose proof (lookup_lt_Some _ _ _ Hi). split; [lia|by apply lookup_app_l_Some].
Qed.

(** The loop ends within one iteration per node not yet processed. *)
Lemma kahn_spec d fuel order queue deg :
  wf_dag d → kahn_inv d order queue deg →
  length (node_ids d) ≤ length order + fuel →
  ∃ order' deg', kahn d fuel queue order deg = Ok order' ∧ kahn_inv d order' [] deg'.
Proof.
  intros Hwf. revert order queue deg.
  induction fuel as [|fuel IH]; intros order [|x queue] deg Hinv Hlen; cbn;
    [by exists order, deg| |by exists order, deg|].
  - exfalso. destruct Hinv as [Hnd Hmem _ _].
    pose proof (submseteq_length _ _ (NoDup_submseteq _ _ Hnd
      (λ c Hc, proj1 (proj1 (Hmem c) Hc)))) as Hl.
    rewrite length_app in Hl. cbn in Hl. lia.
  - destruct (kahn_inv_step d order x queue deg Hwf Hinv) as (q&g&->&Hinv').
    cbn. apply IH; [done|]. rewrite length_app. cbn. lia.
Qed.

Lemma kahn_init d f :
  wf_dag d → (∀ kn, kn ∈ d_nodes d → f kn = length (deps d kn.1)) →
  kahn_inv d [] (roots d f) (degrees d f).
Proof.
  intros Hwf Hf. pose proof (wf_keys d Hwf) as Hkeys.
  assert (∀ c, unmet d [] c = length (deps d c)) as Hun.
  { intros c. unfold unmet. rewrite list_filter_all; [done|].
    intros. apply not_elem_of_nil. }
  split.
  - cbn. by apply NoDup_map_filter.
  - intros c. cbn [app]. unfold roots. rewrite Hun, list_elem_of_fmap. split.
    + intros ([k n]&->&[H0 Hin]%list_elem_of_filter). rewrite <-(Hf _ Hin).
      split; [|done]. unfold node_ids. by apply (list_elem_of_fmap_2 fst _ (k, n)).
    + intros [HV H0]. apply list_elem_of_fmap in HV as ([k n]&->&Hin).
      exists (k, n). split; [done|]. apply list_elem_of_filter. split; [|done].
      by rewrite Hf.
  - intros c HV. rewrite Hun. apply list_elem_of_fmap in HV as ([k n]&->&Hin).
    unfold degrees. apply elem_of_list_to_map_1.
    + unfold node_ids in Hkeys. rewrite map_map. done.
    + apply list_elem_of_fmap. exists (k, n). split; [|done]. cbn. by rewrite Hf.
  - intros j c. by rewrite lookup_nil.
Qed.

Lemma kahn_total d f :
  wf_dag d → (∀ kn, kn ∈ d_nodes d → f kn = length (deps d kn.1)) →
  ∃ order, kahn d (length (d_nodes d)) (roots d f) [] (degrees d f) = Ok order ∧
    NoDup order ∧ deps_first d order ∧
    ∀ c, c ∈ order ↔ c ∈ node_ids d ∧ ∀ p, edge d p c → p ∈ order.
Proof.
  intros Hwf Hf.
  destruct (kahn_spec d (length (d_nodes d)) [] (roots d f) (degrees d f)) as
    (order&deg&Hk&[Hnd Hmem Hdeg Hfirst]); [done|by apply kahn_init| |].
  { unfold node_ids. by rewrite length_map. }
  exists order. split; [done|]. rewrite app_nil_r in Hnd. split_and!; [done..|].
  intros c. rewrite <-unmet_0, <-Hmem. by rewrite app_nil_r.
Qed.

Lemma in_degree_node d :
  wf_dag d → ∀ kn, kn ∈ d_nodes d → length (depends_on kn.2) = length (deps d kn.1).
Proof.
  intros Hwf [k n] Hin. cbn. unfold deps.
  apply (dict_get_elem_of k n (d_nodes d) (wf_keys d Hwf)) in Hin. by rewrite Hin.
Qed.

Lemma deps_first_tc d order x y :
  deps_first d order → tc (edge d) x y → y ∈ order →
  ∃ i j, i < j ∧ order !! i = Some x ∧ order !! j = Some y.
Proof.
  intros Hfirst Htc. induction Htc as [x y Hxy|x y z Hxy Hyz IH]; intros Hin.
  - apply list_elem_of_lookup in Hin as (j&Hj).
    destruct (Hfirst j y Hj x Hxy) as (i&?&?). by exists i, j.
  - destruct (IH Hin) as (j&k&Hjk&Hj&Hk). destruct (Hfirst j y Hj x Hxy) as (i&Hij&Hi).
    exists i, k. split; [lia|done].
Qed.

(** Kahn's order is complete exactly on acyclic graphs. *)
Lemma kahn_complete d order :
  wf_dag d → closed d → NoDup order → deps_first d order →
  (∀ c, c ∈ order ↔ c ∈ node_ids d ∧ ∀ p, edge d p c → p ∈ order) →
  (order ≡ₚ node_ids d ↔ acyclic d) ∧ (order ≡ₚ node_ids d ↔ length order = length (d_nodes d)).
Proof.
  intros Hwf Hcl Hnd Hfirst Hmem. split; split.
  - intros Hp x Hx.
    assert (x ∈ order) as Hin.
    { rewrite Hp. by eapply tc_is_node. }
    destruct (deps_first_tc d order x x Hfirst Hx Hin) as (i&j&Hij&Hi&Hj).
    rewrite (NoDup_lookup _ _ _ _ Hnd Hi Hj) in Hij. lia.
  - intros Hac. apply NoDup_Permutation; [done|apply (wf_keys d Hwf)|].
    intros c. split; [intros Hc; by apply Hmem|]. intros Hc.
    destruct (decide (c ∈ order)) as [|Hn]; [done|]. exfalso.
    destruct (finite_cycle (edge d) (filter (λ c, c ∉ order) (node_ids d))) as (x&Hx).
    + intros x [Hx HxV]%list_elem_of_filter.
      destruct (decide (Exists (λ p, p ∉ order) (deps d x))) as [He|He].
      * apply Exists_exists in He as (p&Hp&Hpo). exists p. split; [|done].
        apply list_elem_of_filter. split; [done|]. by eapply Hcl.
      * exfalso. apply Hx, Hmem. split; [done|]. intros p Hp.
        destruct (decide (p ∈ order)) as [|Hpo]; [done|]. destruct He.
        apply Exists_exists. by exists p.
    + intros Hnil. by apply (filter_nil_not_elem_of _ _ _ Hnil Hn).
    + by apply (Hac x).
  - intros Hp. rewrite Hp. unfold node_ids. by rewrite length_map.
  - intros Hlen. apply submseteq_length_Permutation.
    + apply NoDup_submseteq; [done|]. intros c Hc. by apply Hmem.
    + unfold node_ids. rewrite length_map. lia.
Qed.

(** The last element of a complete order has no dependants. *)
Lemma last_is_leaf d order :
  wf_dag d → NoDup order → deps_first d order → order ≡ₚ node_ids d → order ≠ [] →
  ∃ x, x ∈ node_ids d ∧ adj d x = [].
Proof.
  intros Hwf Hnd Hfirst Hp Hne. destruct (last order) as [x|] eqn:Hl;
    [|by apply last_None in Hl].
  apply last_Some in Hl as (l&->). exists x. rewrite <-Hp. split.
  { apply elem_of_app. right. by left. }
  destruct (adj d x) as [|c cs] eqn:E; [done|]. exfalso.
  assert (edge d x c) as He by (apply elem_of_adj; [done|rewrite E; by left]).
  assert (c ∈ l ++ [x]) as (j&Hj)%list_elem_of_lookup by (rewrite Hp; by eapply deps_is_node).
  destruct (Hfirst j c Hj x He) as (i&Hij&Hi).
  assert (i = length l) as -> by (apply (NoDup_lookup _ _ _ _ Hnd Hi), list_lookup_middle; done).
  apply lookup_lt_Some in Hj. rewrite length_app in Hj. cbn in Hj. lia.
Qed.

(** ** The constructor *)

Lemma closedb_spec d :
  wf_dag d →
  existsb (λ n, existsb (λ dep, bool_decide (dep ∉ node_ids d)) (depends_on n)) (nodes d) = false
  ↔ closed d.
Proof.
  intros Hwf. rewrite <-not_true_iff_false, existsb_exists. split.
  - intros Hne p c He. destruct (decide (p ∈ node_ids d)) as [|Hp]; [done|]. exfalso.
    unfold edge, deps in He.
    destruct (dict_get c (d_nodes d)) as [n|] eqn:E; [|by apply elem_of_nil in He].
    apply (dict_get_elem_of _ _ _ (wf_keys d Hwf)) in E. apply Hne. exists n. split.
    + apply list_elem_of_In. by apply (list_elem_of_fmap_2 snd _ (c, n)).
    + apply existsb_exists. exists p. split; [by apply list_elem_of_In|].
      by apply bool_decide_eq_true.
  - intros Hcl (n&Hn&(p&Hp&Hpd%bool_decide_eq_true)%existsb_exists).
    apply list_elem_of_In, list_elem_of_fmap in Hn as ([k m]&->&Hin).
    apply Hpd, (Hcl p k). unfold edge, deps.
    apply (dict_get_elem_of _ _ _ (wf_keys d Hwf)) in Hin. rewrite Hin.
    by apply list_elem_of_In.
Qed.

(** What [validate] answers, in the order of its checks *)
Lemma validate_cases d :
  wf_dag d →
  (¬ closed d ∧ validate d = Err (DAGValidationError DanglingDependency)) ∨
  (closed d ∧ (d_nodes d = [] ∨ ¬ acyclic d) ∧
     (validate d = Err (DAGValidationError NoRoot) ∨ validate d = Err (DAGValidationError Cycle))) ∨
  (closed d ∧ acyclic d ∧ d_nodes d ≠ [] ∧ validate d = Ok tt).
Proof.
  intros Hwf. unfold validate. pose proof (closedb_spec d Hwf) as Hc.
  destruct (existsb _ (nodes d)); cbn [raise_if res_bind]; [left; naive_solver|right].
  assert (closed d) as Hcl by by apply Hc.
  destruct (kahn_total d (λ kn, length (depends_on kn.2)) Hwf (in_degree_node d Hwf))
    as (order&Hk&Hnd&Hfirst&Hmem).
  destruct (kahn_complete d order Hwf Hcl Hnd Hfirst Hmem) as [Hac Hlen]. rewrite Hk.
  case_bool_decide as Hroot; cbn [raise_if res_bind].
  { left. split; [done|]. split; [|by left].
    assert (order = []) as ->.
    { rewrite Hroot in Hk. destruct (length (d_nodes d)); cbn in Hk; congruence. }
    destruct (d_nodes d) eqn:E; [by left|right]. intros H%Hac%Hlen. done. }
  destruct (length order =? length (d_nodes d)) eqn:El; cbn [negb raise_if res_bind].
  - right. apply Nat.eqb_eq, Hlen in El. split; [done|]. split; [by apply Hac|].
    assert (d_nodes d ≠ []) as Hne by (intros Hnil; apply Hroot; unfold roots; by rewrite Hnil).
    split; [done|]. destruct (last_is_leaf d order Hwf Hnd Hfirst El) as (x&HxV&Hx).
    { intros ->. apply Permutation_nil_l in El. unfold node_ids in El.
      by destruct (d_nodes d). }
    destruct (forallb _ _) eqn:Ef; [|done]. exfalso. rewrite forallb_forall in Ef.
    specialize (Ef x (proj1 (list_elem_of_In _ _) HxV)). by apply bool_decide_eq_true in Ef.
  - left. apply Nat.eqb_neq in El. split; [done|]. split; [|by right]. right. tauto.
Qed.

(** [p] is a declared dependency of the node [c] of the list. *)
Definition declared (ns : list DAGNode) (p c : string) : Prop :=
  ∃ n, n ∈ ns ∧ node_id n = c ∧ p ∈ depends_on n.

Lemma build_edge ns p c : NoDup (map node_id ns) → edge (build ns) p c ↔ declared ns p c.
Proof.
  intros Hnd. unfold edge. rewrite <-(wf_rev _ (build_wf ns Hnd)).
  destruct (build_spec ns "" c) as (_&->&_). unfold deps_in, declared.
  rewrite list_elem_of_bind. split.
  - intros (n&Hp&Hn). case_decide as E; [|by apply elem_of_nil in Hp]. by exists n.
  - intros (n&Hn&<-&Hp). exists n. by rewrite decide_True.
Qed.

Lemma tc_iff {A} (R S : A → A → Prop) x y : (∀ x y, R x y ↔ S x y) → tc R x y ↔ tc S x y.
Proof.
  intros Hiff. split; induction 1; [apply tc_once|eapply tc_l|apply tc_once|eapply tc_l];
    try apply Hiff; done.
Qed.

Lemma build_node_ids ns : NoDup (map node_id ns) → node_ids (build ns) = map node_id ns.
Proof. intros Hnd. unfold node_ids. by rewrite build_nodes_id, map_map. Qed.

(** The constructor accepts a list of nodes with distinct identifiers
    exactly when the list is not empty, every declared dependency names a node
    of the list, and no node depends on itself through any chain of
    dependencies; otherwise it raises a validation error, for a dangling
    dependency before anything else.  It never raises any other exception, and
    the check for leaf nodes never fails. *)
Theorem DAG_init_spec ns :
  NoDup (map node_id ns) →
  let ok := ∀ p c, declared ns p c → p ∈ map node_id ns in
  let acyc := ∀ x, ¬ tc (declared ns) x x in
  (DAG_init ns = Ok (build ns) ↔ ns ≠ [] ∧ ok ∧ acyc) ∧
  (DAG_init ns = Err (DAGValidationError DanglingDependency) ↔ ¬ ok) ∧
  (∀ e, DAG_init ns = Err e → ∃ r, e = DAGValidationError r ∧ r ≠ NoLeaf).
Proof.
  intros Hnd ok acyc. pose proof (validate_cases (build ns) (build_wf ns Hnd)) as Hv.
  assert (closed (build ns) ↔ ok) as Hok.
  { unfold closed, ok. setoid_rewrite build_edge; [|done]. by rewrite build_node_ids. }
  assert (acyclic (build ns) ↔ acyc) as Hac.
  { unfold acyclic, acyc. split; intros H x Hx; apply (H x); revert Hx;
      apply tc_iff; intros; rewrite build_edge; done. }
  assert (d_nodes (build ns) = [] ↔ ns = []) as Hnil.
  { rewrite build_nodes_id by done. by destruct ns. }
  rewrite Hok, Hac, Hnil in Hv. clear Hok Hac Hnil. unfold DAG_init.
  destruct Hv as [(?&->)|[(?&?&[-> | ->])|(?&?&?&->)]]; cbn [res_bind];
    (split; [|split]); naive_solver.
Qed.

Lemma DAG_init_witness :
  NoDup (map node_id diamond) ∧
  (DAG_init diamond = Ok (build diamond) ↔
     diamond ≠ [] ∧ (∀ p c, declared diamond p c → p ∈ map node_id diamond) ∧
     ∀ x, ¬ tc (declared diamond) x x).
Proof.
  assert (NoDup (map node_id diamond)) as Hnd
    by (apply (bool_decide_eq_true_1 (NoDup (map node_id diamond))); reflexivity).
  split; [exact Hnd|]. apply (DAG_init_spec diamond Hnd).
Defined.

(** ** The invariant and [topological_sort] *)

Lemma DAG_init_valid ns d :
  NoDup (map node_id ns) → DAG_init ns = Ok d → d = build ns ∧ valid_dag d.
Proof.
  intros Hnd. pose proof (build_wf ns Hnd) as Hwf. unfold DAG_init.
  destruct (validate_cases (build ns) Hwf) as [(_&->)|[(_&_&[-> | ->])|(Hcl&Hac&_&->)]];
    cbn [res_bind]; [done..|]. by intros [= <-].
Qed.

Lemma validate_valid d : valid_dag d → d_nodes d ≠ [] → validate d = Ok tt.
Proof.
  intros (Hwf&Hcl&Hac) Hne. destruct (validate_cases d Hwf) as [[? _]|[(_&[?|?]&_)|?]]; naive_solver.
Qed.

Lemma diamond_valid : valid_dag (build diamond).
Proof.
  apply (DAG_init_valid diamond); [|vm_compute; reflexivity].
  apply (bool_decide_eq_true_1 (NoDup (map node_id diamond))). reflexivity.
Qed.

Lemma get_node_Ok d id n : get_node d id = Ok n ↔ dict_get id (d_nodes d) = Some n.
Proof. unfold get_node. destruct (dict_get _ _); cbn; naive_solver. Qed.

Lemma get_nodes_spec d ids :
  wf_dag d → ids ⊆ node_ids d → ∃ ns, get_nodes d ids = Ok ns ∧ map node_id ns = ids ∧
    ∀ n, n ∈ ns → dict_get (node_id n) (d_nodes d) = Some n.
Proof.
  intros Hwf. induction ids as [|id ids IH]; intros Hsub.
  { exists []. split_and!; [done..|]. intros n Hn. by apply elem_of_nil in Hn. }
  destruct (proj2 (dict_get_is_Some id (d_nodes d))) as [n Hn]; [apply Hsub; by left|].
  destruct IH as (ns&Hns&Hids&Hg); [intros x Hx; apply Hsub; by right|].
  pose proof (wf_id d Hwf id n Hn) as Hid.
  exists (n :: ns). cbn. rewrite (proj2 (get_node_Ok _ _ _) Hn). cbn. rewrite Hns. cbn.
  split_and!; [done|by rewrite Hids, Hid|].
  intros m [->|Hm]%elem_of_cons; [by rewrite Hid|by apply Hg].
Qed.

Lemma topological_order_spec d :
  valid_dag d → ∃ order, topological_order d = Ok order ∧ NoDup order ∧
    order ≡ₚ node_ids d ∧ deps_first d order.
Proof.
  intros (Hwf&Hcl&Hac).
  destruct (kahn_total d (λ kn, length (rev_deps d kn.1)) Hwf) as (order&Hk&Hnd&Hfirst&Hmem).
  { intros kn _. by rewrite (wf_rev d Hwf). }
  destruct (kahn_complete d order Hwf Hcl Hnd Hfirst Hmem) as [[_ Hp] _].
  exists order. split; [exact Hk|]. split; [done|]. split; [by apply Hp|done].
Qed.

Lemma map_node_id_nodes d : wf_dag d → map node_id (nodes d) = node_ids d.
Proof.
  intros Hwf. unfold nodes, node_ids. rewrite map_map. apply map_ext_in.
  intros [k n] Hin. apply (wf_id d Hwf). apply (dict_get_elem_of _ _ _ (wf_keys d Hwf)).
  by apply list_elem_of_In.
Qed.

Lemma topological_sort_spec' d :
  valid_dag d →
  ∃ ns, topological_sort d = Ok ns ∧ ns ≡ₚ nodes d ∧
    ∀ j n p, ns !! j = Some n → p ∈ depends_on n →
      ∃ i m, i < j ∧ ns !! i = Some m ∧ node_id m = p.
Proof.
  intros Hv. destruct (topological_order_spec d Hv) as (order&Ho&Hnd&Hp&Hfirst).
  destruct Hv as (Hwf&_&_).
  destruct (get_nodes_spec d order Hwf) as (ns&Hns&Hids&Hg).
  { intros x Hx. by rewrite <-Hp. }
  exists ns. unfold topological_sort. rewrite Ho. cbn. split; [done|].
  pose proof (wf_keys d Hwf) as Hk. split.
  - apply NoDup_Permutation.
    + apply (NoDup_fmap_1 node_id). change (NoDup (map node_id ns)). by rewrite Hids.
    + apply (NoDup_fmap_1 node_id). change (NoDup (map node_id (nodes d))).
      by rewrite map_node_id_nodes.
    + intros n. split.
      * intros Hn. apply Hg in Hn. apply (dict_get_elem_of _ _ _ Hk) in Hn.
        by apply (list_elem_of_fmap_2 snd _ (node_id n, n)).
      * intros ([k m]&->&Hin)%list_elem_of_fmap. cbn.
        assert (k ∈ map node_id ns) as Hkn.
        { rewrite Hids, Hp. by apply (list_elem_of_fmap_2 fst _ (k, m)). }
        apply list_elem_of_fmap in Hkn as (m'&->&Hm'). pose proof (Hg m' Hm') as Hgm.
        apply (dict_get_elem_of _ _ _ Hk) in Hin. congruence.
  - intros j n p Hj Hpn.
    assert (order !! j = Some (node_id n)) as Hoj
      by (rewrite <-Hids; apply list_lookup_fmap_Some; by exists n).
    assert (edge d p (node_id n)) as He.
    { unfold edge, deps. rewrite (Hg n); [done|]. by eapply list_elem_of_lookup_2. }
    destruct (Hfirst j _ Hoj p He) as (i&Hij&Hi). rewrite <-Hids in Hi.
    apply list_lookup_fmap_Some in Hi as (m&->&Hm). by exists i, m.
Qed.

(** C36: on an acyclic graph [topological_sort] returns every node exactly once,
    each one after all the nodes it depends on. *)
Theorem topological_sort_spec d :
  valid_dag d →
  ∃ ns, topological_sort d = Ok ns ∧ ns ≡ₚ nodes d ∧
    ∀ j n p, ns !! j = Some n → p ∈ depends_on n →
      ∃ i m, i < j ∧ ns !! i = Some m ∧ node_id m = p.
Proof. exact (topological_sort_spec' d). Qed.

Lemma topological_sort_witness :
  valid_dag (build diamond) ∧ ∃ ns, topological_sort (build diamond) = Ok ns ∧
    ns ≡ₚ nodes (build diamond) ∧
    ∀ j n p, ns !! j = Some n → p ∈ depends_on n →
      ∃ i m, i < j ∧ ns !! i = Some m ∧ node_id m = p.
Proof.
  split; [exact diamond_valid|]. exact (topological_sort_spec _ diamond_valid).
Defined.

(** Paths into old nodes do not use the new one. *)
Lemma add_node_tc d n d' x y :
  closed d → node_id n ∉ node_ids d → depends_on n ⊆ node_ids d →
  (∀ p c, edge d' p c ↔ if decide (node_id n = c) then p ∈ depends_on n else edge d p c) →
  tc (edge d') x y → x ≠ node_id n ∧ (y ≠ node_id n → tc (edge d) x y).
Proof.
  intros Hcl Hfr Hdeps He.
  assert (∀ p c, edge d' p c → p ≠ node_id n) as Hsrc.
  { intros p c Hpc ->. apply He in Hpc. case_decide; apply Hfr;
      [by apply Hdeps|by eapply Hcl]. }
  induction 1 as [x y Hxy|x y z Hxy Hyz [Hy IH]].
  - split; [by eapply Hsrc|]. intros Hy. apply He in Hxy.
    rewrite decide_False in Hxy by congruence. by apply tc_once.
  - split; [by eapply Hsrc|]. intros Hz. apply He in Hxy.
    rewrite decide_False in Hxy by congruence. eapply tc_l; [exact Hxy|by apply IH].
Qed.

Lemma add_node_cases d n :
  valid_dag d →
  (node_id n ∈ node_ids d ∧ add_node d n = Err ValueError) ∨
  ((node_id n ∉ node_ids d) ∧ ∃ d', add_node d n = Ok d' ∧
     d_nodes d' = d_nodes d ++ [(node_id n, n)] ∧
     (valid_dag d' ↔ depends_on n ⊆ node_ids d)).
Proof.
  intros (Hwf&Hcl&Hac). destruct (decide (node_id n ∈ node_ids d)) as [Hin|Hfr]; [left|right];
    (split; [done|]); unfold add_node; [by rewrite bool_decide_true by done|].
  rewrite bool_decide_false by done. cbn [raise_if res_bind].
  set (d' := add_edges _ _).
  assert (d_nodes d' = d_nodes d ++ [(node_id n, n)]) as Hn.
  { unfold d'. rewrite add_edges_nodes. cbn [d_nodes]. by apply dict_set_fresh. }
  exists d'. split; [done|]. split; [done|].
  assert (wf_dag d') as Hwf'.
  { apply (add_node_wf d n); [done|]. unfold add_node. by rewrite bool_decide_false by done. }
  assert (∀ p c, edge d' p c ↔ if decide (node_id n = c) then p ∈ depends_on n else edge d p c)
    as He.
  { intros p c. unfold edge at 1. unfold d'. rewrite add_node_deps by done. by case_decide. }
  assert (node_ids d' = node_ids d ++ [node_id n]) as Hids
    by (unfold node_ids; rewrite Hn; by rewrite map_app).
  split.
  - intros (_&Hcl'&Hac') p Hp.
    assert (edge d' p (node_id n)) as Hpn by (apply He; by rewrite decide_True).
    pose proof (Hcl' _ _ Hpn) as Hin. rewrite Hids in Hin.
    apply elem_of_app in Hin as [Hin| ->%list_elem_of_singleton]; [done|].
    destruct (Hac' (node_id n)). by apply tc_once.
  - intros Hdeps. split; [done|]. split.
    + intros p c Hpc. rewrite Hids, elem_of_app. left. apply He in Hpc.
      case_decide; [by apply Hdeps|by eapply Hcl].
    + intros x Hx. pose proof (add_node_tc d n d' x x Hcl Hfr Hdeps He Hx) as [Hne Htc].
      by apply (Hac x), Htc.
Qed.

(** [add_node] refuses an identifier in use and otherwise inserts the node
    without validating the graph again.  The graph stays closed and acyclic
    exactly when the dependencies of the new node already exist. *)
Theorem add_node_spec d n :
  valid_dag d →
  (node_id n ∈ node_ids d ∧ add_node d n = Err ValueError) ∨
  ((node_id n ∉ node_ids d) ∧ ∃ d', add_node d n = Ok d' ∧
     d_nodes d' = d_nodes d ++ [(node_id n, n)] ∧
     (valid_dag d' ↔ depends_on n ⊆ node_ids d)).
Proof. exact (add_node_cases d n). Qed.

Lemma add_node_witness :
  valid_dag (build diamond) ∧
  ((node_id (mk_node "e" ["d"]) ∈ node_ids (build diamond) ∧
    add_node (build diamond) (mk_node "e" ["d"]) = Err ValueError) ∨
   ((node_id (mk_node "e" ["d"]) ∉ node_ids (build diamond)) ∧
    ∃ d', add_node (build diamond) (mk_node "e" ["d"]) = Ok d' ∧
     d_nodes d' = d_nodes (build diamond) ++ [("e", mk_node "e" ["d"])] ∧
     (valid_dag d' ↔ ["d"] ⊆ node_ids (build diamond)))).
Proof.
  split; [exact diamond_valid|]. exact (add_node_spec _ (mk_node "e" ["d"]) diamond_valid).
Defined.
