(* ===== verification/DagOps.v ===== *)
(** * DagOps: readiness, failure propagation and snapshots of the graph

    What the state-changing operations of [Dag] do on a valid graph:
    [get_ready_nodes] against its specification, [mark_failed] against the
    inductive reachability [doomed] (with the fuel bound of its loop),
    preservation of the invariant by every operation, absence of deadlock, and
    the snapshot round trip. *)

From Stdlib Require Import ZArith Lia.
From stdpp Require Import base tactics strings gmap relations finite list.
From S2P Require Import Prelude PyStr Dict Uuid TaskFsm Dag DagTopo.

(** The status of the node stored under [id] *)
Definition status_of (d : DAG) (id : string) : option TaskStatus :=
  status <$> dict_get id (d_nodes d).

Definition waiting (s : TaskStatus) : Prop := s ∈ [PENDING; TODO].

(** What the documentation of [get_ready_nodes] says *)
Definition is_ready (d : DAG) (n : DAGNode) : Prop :=
  waiting (status n) ∧ Forall (λ p, status_of d p = Some COMPLETED) (depends_on n).

#[export] Instance is_ready_dec d n : Decision (is_ready d n).
Proof. unfold is_ready, waiting. apply _. Defined.

Lemma status_of_node d p : p ∈ node_ids d → ∃ n, get_node d p = Ok n ∧ status_of d p = Some (status n).
Proof.
  intros [n Hn]%dict_get_is_Some. exists n. split; [by apply get_node_Ok|].
  unfold status_of. by rewrite Hn.
Qed.

Lemma any_dep_failed_spec d ps :
  ps ⊆ node_ids d → ∃ b, any_dep_failed d ps = Ok b ∧
    (b = true → ¬ Forall (λ p, status_of d p = Some COMPLETED) ps).
Proof.
  induction ps as [|p ps IH]; intros Hsub; [by exists false|]. cbn.
  destruct (status_of_node d p) as (n&->&Hs); [apply Hsub; by left|]. cbn.
  case_decide as Hf.
  - exists true. split; [done|]. intros _ [Hc _]%Forall_cons_1. rewrite Hs in Hc.
    injection Hc as Hc. rewrite Hc in Hf. set_solver.
  - destruct IH as (b&->&Hb); [intros x Hx; apply Hsub; by right|]. exists b.
    split; [done|]. intros ->. intros [_ Hc]%Forall_cons_1. by apply Hb.
Qed.

Lemma all_deps_completed_spec d ps :
  ps ⊆ node_ids d → ∃ b, all_deps_completed d ps = Ok b ∧
    (b = true ↔ Forall (λ p, status_of d p = Some COMPLETED) ps).
Proof.
  induction ps as [|p ps IH]; intros Hsub; [by exists true|]. cbn.
  destruct (status_of_node d p) as (n&->&Hs); [apply Hsub; by left|]. cbn.
  case_decide as Hf.
  - destruct IH as (b&->&Hb); [intros x Hx; apply Hsub; by right|]. exists b.
    split; [done|]. rewrite Hb, Forall_cons, Hs, Hf. tauto.
  - exists false. split; [done|]. rewrite Forall_cons, Hs. split; [done|].
    by intros [[= ?] _].
Qed.

Lemma node_ready_spec d n :
  depends_on n ⊆ node_ids d → node_ready d n = Ok (bool_decide (is_ready d n)).
Proof.
  intros Hsub. unfold node_ready, is_ready, waiting. case_decide as Hw.
  - destruct (any_dep_failed_spec d _ Hsub) as ([]&->&Hf); cbn.
    + rewrite bool_decide_false; [done|]. naive_solver.
    + destruct (all_deps_completed_spec d _ Hsub) as ([]&->&Ha); f_equal; symmetry.
      * apply bool_decide_true. split; [done|by apply Ha].
      * apply bool_decide_false. intros [_ H]. by apply Ha in H.
  - rewrite bool_decide_false; [done|]. naive_solver.
Qed.

(** [cascaded]: nothing below a failed or skipped node is still waiting *)
Definition cascaded (d : DAG) : Prop :=
  ∀ p c s, edge d p c → status_of d p = Some FAILED ∨ status_of d p = Some SKIPPED →
    status_of d c = Some s → skippable s = false.

Lemma closed_depends_on d n : wf_dag d → closed d → n ∈ nodes d → depends_on n ⊆ node_ids d.
Proof.
  intros Hwf Hcl Hn p Hp. apply (Hcl p (node_id n)).
  apply list_elem_of_fmap in Hn as ([k m]&->&Hin). cbn in *.
  apply (dict_get_elem_of _ _ _ (wf_keys d Hwf)) in Hin.
  unfold edge, deps. by rewrite (wf_id d Hwf _ _ Hin), Hin.
Qed.

Lemma ready_among_spec d ns :
  (∀ n, n ∈ ns → depends_on n ⊆ node_ids d) →
  ready_among d ns = Ok (filter (is_ready d) ns).
Proof.
  induction ns as [|n ns IH]; intros Hsub; [done|]. cbn [ready_among].
  rewrite node_ready_spec by (apply Hsub; by left). cbn [res_bind].
  rewrite IH by (intros m Hm; apply Hsub; by right). cbn [res_bind]. rewrite filter_cons.
  by destruct (decide (is_ready d n)) as [H|H];
    [rewrite bool_decide_true by done|rewrite bool_decide_false by done].
Qed.

(** On a valid graph [get_ready_nodes] never raises, and returns, in the
    order of insertion, exactly the PENDING or TODO nodes all of whose
    dependencies are COMPLETED. *)
Theorem get_ready_nodes_spec d :
  valid_dag d → get_ready_nodes d = Ok (filter (is_ready d) (nodes d)).
Proof.
  intros (Hwf&Hcl&_). apply ready_among_spec. intros n. by apply closed_depends_on.
Qed.

Lemma get_ready_nodes_witness :
  valid_dag (build diamond) ∧
  get_ready_nodes (build diamond) =
    Ok (filter (is_ready (build diamond)) (nodes (build diamond))).
Proof. split; [exact diamond_valid|]. exact (get_ready_nodes_spec _ diamond_valid). Defined.

(** ** No deadlock *)

Lemma nodes_get d n : wf_dag d → n ∈ nodes d ↔ dict_get (node_id n) (d_nodes d) = Some n.
Proof.
  intros Hwf. rewrite (dict_get_elem_of _ _ _ (wf_keys d Hwf)). split.
  - intros ([k m]&->&Hin)%list_elem_of_fmap. cbn.
    assert (node_id m = k) as ->; [|done]. apply (wf_id d Hwf).
    by apply (dict_get_elem_of _ _ _ (wf_keys d Hwf)).
  - apply (list_elem_of_fmap_2 snd).
Qed.

Lemma find_first_waiting d order :
  (∀ c, c ∈ order → ∃ n, dict_get c (d_nodes d) = Some n ∧
     (waiting (status n) ∨ status n ∈ [COMPLETED; FAILED; SKIPPED])) →
  (∀ c s, c ∈ order → status_of d c = Some s → s ∈ [COMPLETED; FAILED; SKIPPED]) ∨
  ∃ l1 c l2, order = l1 ++ c :: l2 ∧
    (∃ n, dict_get c (d_nodes d) = Some n ∧ waiting (status n)) ∧
    ∀ p, p ∈ l1 → ∃ s, status_of d p = Some s ∧ s ∈ [COMPLETED; FAILED; SKIPPED].
Proof.
  induction order as [|x order IH]; intros Hst.
  { left. intros c s Hc. by apply elem_of_nil in Hc. }
  destruct (Hst x) as (n&Hn&[Hw|Ht]); [by left| |].
  { right. exists [], x, order. split_and!; [done|by exists n|].
    intros p Hp. by apply elem_of_nil in Hp. }
  destruct IH as [Hall|(l1&c&l2&->&Hc&Hl1)].
  { intros c Hc. apply Hst. by right. }
  - left. intros c s [->|Hc]%elem_of_cons Hs; [|by apply (Hall c)].
    unfold status_of in Hs. rewrite Hn in Hs. by injection Hs as <-.
  - right. exists (x :: l1), c, l2. split_and!; [done..|].
    intros p [->|Hp]%elem_of_cons; [|by apply Hl1]. exists (status n).
    unfold status_of. by rewrite Hn.
Qed.

Lemma ready_or_complete d :
  valid_dag d → cascaded d →
  (∀ n, n ∈ nodes d → waiting (status n) ∨ status n ∈ [COMPLETED; FAILED; SKIPPED]) →
  is_complete d = true ∨ ∃ n ns, get_ready_nodes d = Ok (n :: ns).
Proof.
  intros Hv Hcas Hst. destruct (topological_order_spec d Hv) as (order&_&_&Hp&Hfirst).
  destruct Hv as (Hwf&Hcl&_).
  assert (∀ c, c ∈ order → ∃ n, n ∈ nodes d ∧ dict_get c (d_nodes d) = Some n) as Hget.
  { intros c Hc. rewrite Hp in Hc. apply dict_get_is_Some in Hc as [n Hn].
    exists n. split; [|done]. apply nodes_get; [done|]. by rewrite (wf_id d Hwf _ _ Hn). }
  destruct (find_first_waiting d order) as [Hall|(l1&c&l2&->&(n&Hn&Hw)&Hl1)].
  - intros c Hc. destruct (Hget c Hc) as (n&Hn&Hg). exists n. by split; [|apply Hst].
  - left. unfold is_complete. apply forallb_forall. intros n Hn%list_elem_of_In.
    apply bool_decide_eq_true. apply nodes_get in Hn; [|done].
    apply (Hall (node_id n)); [|unfold status_of; by rewrite Hn].
    rewrite Hp. by apply dict_get_is_Some; eexists.
  - right. unfold get_ready_nodes.
    rewrite ready_among_spec by (intros m; by apply closed_depends_on).
    assert (n ∈ filter (is_ready d) (nodes d)) as Hin.
    { pose proof (wf_id d Hwf _ _ Hn) as Hid. apply list_elem_of_filter. split.
      - split; [done|]. apply Forall_forall. intros p Hpn.
        assert (edge d p c) as He by (unfold edge, deps; by rewrite Hn).
        destruct (Hfirst (length l1) c) with (p := p) as (i&Hi&Hpi);
          [by apply list_lookup_middle|done|].
        rewrite lookup_app_l in Hpi by done. apply list_elem_of_lookup_2 in Hpi.
        destruct (Hl1 p Hpi) as (s&Hs&Hterm).
        assert (s ≠ FAILED ∧ s ≠ SKIPPED) as [Hf Hsk].
        { assert (status_of d c = Some (status n)) as Hsn by (unfold status_of; by rewrite Hn).
          pose proof (λ H, Hcas p c _ He H Hsn) as Hcc. rewrite Hs in Hcc.
          split; intros ->; [specialize (Hcc (or_introl eq_refl))
                            |specialize (Hcc (or_intror eq_refl))];
            apply bool_decide_eq_false in Hcc; apply Hcc; unfold waiting in Hw;
            revert Hw; rewrite !elem_of_cons; naive_solver. }
        rewrite Hs. f_equal. revert Hterm. rewrite !elem_of_cons, elem_of_nil. naive_solver.
      - apply nodes_get; [done|]. by rewrite Hid. }
    destruct (filter _ _) as [|m ms]; [by apply elem_of_nil in Hin|]. by exists m, ms.
Qed.

(** No deadlock.  When failures have been cascaded and no node is in
    flight (every status is PENDING, TODO or terminal), the graph is complete
    or some node is ready to run. *)
Theorem ready_progress d :
  valid_dag d → cascaded d →
  (∀ n, n ∈ nodes d → waiting (status n) ∨ status n ∈ [COMPLETED; FAILED; SKIPPED]) →
  is_complete d = true ∨ ∃ n ns, get_ready_nodes d = Ok (n :: ns).
Proof. exact (ready_or_complete d). Qed.

Lemma ready_progress_witness :
  valid_dag (build diamond) ∧
  (is_complete (build diamond) = true ∨
   ∃ n ns, get_ready_nodes (build diamond) = Ok (n :: ns)).
Proof.
  split; [exact diamond_valid|].
  assert (∀ n, n ∈ nodes (build diamond) → status n = PENDING) as Hall.
  { apply Forall_forall. apply (bool_decide_eq_true_1 (Forall (λ n, status n = PENDING) _)).
    vm_compute. reflexivity. }
  apply (ready_progress (build diamond)).
  - exact diamond_valid.
  - intros p c s _ Hp _. exfalso. unfold status_of in Hp.
    destruct (dict_get p (d_nodes (build diamond))) as [n|] eqn:E; [|destruct Hp; discriminate].
    pose proof diamond_valid as (Hwf&_&_). pose proof (wf_id _ Hwf _ _ E) as Hid.
    rewrite <-Hid in E. apply nodes_get in E; [|exact Hwf].
    change (status <$> Some n) with (Some (status n)) in Hp. rewrite (Hall n E) in Hp.
    destruct Hp; discriminate.
  - intros n Hn. left. rewrite (Hall n Hn). by left.
Defined.

(** ** Failure propagation *)

(** The node may be skipped: it is waiting or blocked. *)
Definition skippable_at (d : DAG) (c : string) : Prop :=
  ∃ s, status_of d c = Some s ∧ skippable s = true.

(** Reached from the failed node through nodes that may be skipped *)
Inductive doomed (d : DAG) (failed : string) : string → Prop :=
  | doomed_child c :
      edge d failed c → c ≠ failed → skippable_at d c → doomed d failed c
  | doomed_step p c :
      doomed d failed p → edge d p c → c ≠ failed → skippable_at d c → doomed d failed c.

Definition mark_skipped (failed : string) (n : DAGNode) : DAGNode :=
  set_error (Some (skip_message failed)) (set_status SKIPPED n).

Definition mark_failed_node (err : option string) (n : DAGNode) : DAGNode :=
  set_error err (set_status FAILED n).

(** Loop invariant: [d] is [d0] with the nodes of [skipped] marked. *)
Record skip_inv (failed : string) (d0 d : DAG) (to_skip : list string)
    (seen : gset string) (skipped : list string) : Prop := {
  si_get : ∀ c, dict_get c (d_nodes d) =
    if decide (c ∈ skipped) then mark_skipped failed <$> dict_get c (d_nodes d0)
    else dict_get c (d_nodes d0);
  si_keys : node_ids d = node_ids d0;
  si_adj : d_adjacency d = d_adjacency d0;
  si_rev : d_reverse d = d_reverse d0;
  si_nodup : NoDup skipped;
  si_skipped : ∀ c, c ∈ skipped → c ∈ seen ∧ doomed d0 failed c;
  si_todo : ∀ c, c ∈ to_skip → edge d0 failed c ∨ ∃ p, p ∈ skipped ∧ edge d0 p c;
  si_next : ∀ p c, p = failed ∨ p ∈ skipped → edge d0 p c → c ∈ seen ∨ c ∈ to_skip;
  si_seen : ∀ c, c ∈ seen → c ∈ skipped ∨ ¬ skippable_at d0 c;
}.

(** Edges still to be queued: those out of nodes not yet skipped *)
Definition pending_edges (d0 : DAG) (skipped : list string) : nat :=
  sum_list_with (λ id, length (adj d0 id)) (filter (λ id, id ∉ skipped) (node_ids d0)).

Lemma pending_edges_snoc d0 skipped c :
  NoDup (node_ids d0) → c ∈ node_ids d0 → c ∉ skipped →
  pending_edges d0 skipped = length (adj d0 c) + pending_edges d0 (skipped ++ [c]).
Proof.
  unfold pending_edges. induction (node_ids d0) as [|x l IH]; intros Hnd Hc Hs;
    [by apply elem_of_nil in Hc|].
  apply NoDup_cons in Hnd as [Hx Hnd]. rewrite !filter_cons.
  assert (∀ y, y ≠ c → ((y ∉ skipped ++ [c]) ↔ (y ∉ skipped))) as Hiff.
  { intros y Hy. rewrite elem_of_app, list_elem_of_singleton. tauto. }
  apply elem_of_cons in Hc as [<-|Hc].
  - rewrite decide_True by done. rewrite decide_False.
    2:{ rewrite elem_of_app, list_elem_of_singleton. tauto. }
    cbn. f_equal. f_equal. apply list_filter_iff_in. intros y Hy.
    rewrite Hiff; [done|]. by intros ->.
  - assert (x ≠ c) as Hxc by (by intros ->). specialize (IH Hnd Hc Hs).
    destruct (decide (x ∈ skipped)) as [Hin|Hin].
    + rewrite !decide_False by (rewrite ?Hiff; tauto). done.
    + rewrite !decide_True by (rewrite ?Hiff; tauto). cbn. lia.
Qed.

Lemma skip_inv_mark failed d0 d child todo seen skipped :
  wf_dag d0 → child ∉ skipped → doomed d0 failed child →
  skip_inv failed d0 d (child :: todo) seen skipped →
  skip_inv failed d0 (update_node (mark_skipped failed) child d)
    (todo ++ adj d child) ({[child]} ∪ seen) (skipped ++ [child]).
Proof.
  intros Hwf Hns Hd [Hg Hk Ha Hr Hnd Hsk Htodo Hnext Hseen].
  assert (adj d child = adj d0 child) as Hadj by (unfold adj; by rewrite Ha).
  split; cbn [update_node d_nodes d_adjacency d_reverse]; [| |done|done|..].
  - intros c. rewrite dict_get_alter, Hg. destruct (decide (child = c)) as [<-|Hne].
    + rewrite !(decide_False (P := child ∈ skipped)) by done. rewrite decide_True; [done|].
      apply elem_of_app. right. by left.
    + destruct (decide (c ∈ skipped)) as [Hc|Hc].
      * rewrite decide_True; [done|]. apply elem_of_app. by left.
      * rewrite decide_False; [done|]. rewrite elem_of_app, list_elem_of_singleton.
        naive_solver.
  - by rewrite update_node_ids.
  - apply NoDup_app. split_and!; [done| |apply NoDup_singleton].
    by intros x Hx ->%list_elem_of_singleton.
  - intros c [Hc| ->%list_elem_of_singleton]%elem_of_app;
      [destruct (Hsk c Hc)|]; (split; [set_solver|done]).
  - intros c [Hc|Hc]%elem_of_app.
    + destruct (Htodo c) as [?|(p&Hp&?)]; [by right|by left|].
      right. exists p. split; [|done]. apply elem_of_app. by left.
    + right. exists child. split; [apply elem_of_app; right; by left|].
      apply elem_of_adj; [done|]. by rewrite <-Hadj.
  - intros p c Hp He. rewrite elem_of_union, elem_of_singleton, elem_of_app, Hadj.
    destruct (decide (p = child)) as [->|Hpc].
    { right. right. by apply elem_of_adj. }
    assert (p = failed ∨ p ∈ skipped) as Hp'.
    { destruct Hp as [?|[?|?%list_elem_of_singleton]%elem_of_app]; tauto. }
    destruct (Hnext p c Hp' He) as [?|[->|?]%elem_of_cons]; tauto.
  - intros c [->%elem_of_singleton|Hc]%elem_of_union.
    + left. apply elem_of_app. right. by left.
    + destruct (Hseen c Hc) as [?|?]; [left; apply elem_of_app; by left|by right].
Qed.

Lemma skip_inv_keep failed d0 d child todo seen skipped :
  (¬ skippable_at d0 child) →
  skip_inv failed d0 d (child :: todo) seen skipped →
  skip_inv failed d0 d todo ({[child]} ∪ seen) skipped.
Proof.
  intros Hn [Hg Hk Ha Hr Hnd Hsk Htodo Hnext Hseen]. split; [done..| | | |].
  - intros c Hc. destruct (Hsk c Hc). split; [set_solver|done].
  - intros c Hc. apply Htodo. by right.
  - intros p c Hp He. rewrite elem_of_union, elem_of_singleton.
    destruct (Hnext p c Hp He) as [?|[->|?]%elem_of_cons]; tauto.
  - intros c [->%elem_of_singleton|Hc]%elem_of_union; [by right|by apply Hseen].
Qed.

Lemma skip_loop_visit failed d0 d child todo seen skipped :
  wf_dag d0 → (¬ skippable_at d0 failed) →
  skip_inv failed d0 d (child :: todo) seen skipped → child ∉ seen →
  ∃ n, get_node d child = Ok n ∧
    if skippable (status n) then
      skip_inv failed d0 (update_node (mark_skipped failed) child d)
        (todo ++ adj d child) ({[child]} ∪ seen) (skipped ++ [child]) ∧
      child ∈ node_ids d0 ∧ (child ∉ skipped) ∧ adj d child = adj d0 child
    else skip_inv failed d0 d todo ({[child]} ∪ seen) skipped.
Proof.
  intros Hwf Hfailed Hinv Hnew. pose proof Hinv as [Hg Hk Ha _ _ Hsk Htodo _ _].
  assert (child ∉ skipped) as Hns by (intros Hin; by apply Hnew, Hsk).
  assert (edge d0 failed child ∨ ∃ p, p ∈ skipped ∧ edge d0 p child) as Hfrom
    by (apply Htodo; by left).
  assert (child ∈ node_ids d0) as HV
    by (destruct Hfrom as [?|(p&_&?)]; by eapply deps_is_node).
  pose proof (Hg child) as Hgc. rewrite decide_False in Hgc by done.
  apply dict_get_is_Some in HV as HS. destruct HS as [n Hn]. exists n.
  split; [apply get_node_Ok; by rewrite Hgc|].
  assert (skippable_at d0 child ↔ skippable (status n) = true) as Hskn.
  { unfold skippable_at, status_of. rewrite Hn. cbn. naive_solver. }
  destruct (skippable (status n)) eqn:E.
  - split; [|split_and!; [done..|unfold adj; by rewrite Ha]].
    apply skip_inv_mark; [done..| |done].
    assert (child ≠ failed) by (intros ->; by apply Hfailed, Hskn).
    destruct Hfrom as [Hf|(p&Hp&Hf)]; [by apply doomed_child; [| |apply Hskn]|].
    eapply doomed_step; [by apply Hsk in Hp as [_ Hp]|done|done|by apply Hskn].
  - apply skip_inv_keep; [|done]. by rewrite Hskn.
Qed.

Lemma skip_inv_seen failed d0 d child todo seen skipped :
  child ∈ seen → skip_inv failed d0 d (child :: todo) seen skipped →
  skip_inv failed d0 d todo seen skipped.
Proof.
  intros Hs [Hg Hk Ha Hr Hnd Hsk Htodo Hnext Hseen]. split; try done.
  - intros c Hc. apply Htodo. by right.
  - intros p c Hp He. destruct (Hnext p c Hp He) as [?|[->|?]%elem_of_cons]; tauto.
Qed.

(** The loop ends: each iteration consumes a queued edge, and a node's edges
    are queued once. *)
Lemma skip_loop_spec failed d0 fuel d todo seen skipped :
  wf_dag d0 → (¬ skippable_at d0 failed) →
  skip_inv failed d0 d todo seen skipped →
  length todo + pending_edges d0 skipped ≤ fuel →
  ∃ d' skipped' seen', skip_loop failed fuel d todo seen skipped = Ok (d', skipped') ∧
    skip_inv failed d0 d' [] seen' skipped'.
Proof.
  intros Hwf Hf. revert d todo seen skipped.
  induction fuel as [|fuel IH]; intros d [|child todo] seen skipped Hinv Hlen; cbn;
    [by exists d, skipped, seen|cbn in Hlen; lia|by exists d, skipped, seen|].
  cbn in Hlen. case_decide as Hs.
  - apply IH; [by eapply skip_inv_seen|lia].
  - destruct (skip_loop_visit _ _ _ _ _ _ _ Hwf Hf Hinv Hs) as (n&->&Hn). cbn.
    destruct (skippable (status n)).
    + destruct Hn as (Hinv'&HV&Hns&Hadj). apply IH; [exact Hinv'|].
      rewrite length_app, Hadj.
      rewrite (pending_edges_snoc d0 skipped child (wf_keys d0 Hwf) HV Hns) in Hlen. lia.
    + apply IH; [done|lia].
Qed.

Lemma skip_inv_init d0 failed :
  wf_dag d0 → (¬ skippable_at d0 failed) → skip_inv failed d0 d0 (adj d0 failed) ∅ [].
Proof.
  intros Hwf Hf. split; try done.
  - constructor.
  - intros c Hc. by apply elem_of_nil in Hc.
  - intros c Hc. left. by apply elem_of_adj.
  - intros p c [->|Hp] He; [right; by apply elem_of_adj|by apply elem_of_nil in Hp].
Qed.

(** When the queue is empty, exactly the doomed nodes have been skipped. *)
Lemma skip_inv_final failed d0 d seen skipped :
  skip_inv failed d0 d [] seen skipped → ∀ c, c ∈ skipped ↔ doomed d0 failed c.
Proof.
  intros [_ _ _ _ _ Hsk _ Hnext Hseen] c. split; [intros Hc; by apply Hsk|].
  assert (∀ p c, p = failed ∨ p ∈ skipped → edge d0 p c → skippable_at d0 c → c ∈ skipped)
    as Hclose.
  { intros p x Hp He Hx. destruct (Hnext p x Hp He) as [Hs|Hs]; [|by apply elem_of_nil in Hs].
    by destruct (Hseen x Hs). }
  induction 1 as [c He _ Hs|p c _ IH He _ Hs];
    [apply (Hclose failed c)|apply (Hclose p c)]; tauto.
Qed.

Lemma edge_count_fuel d id :
  wf_dag d → id ∈ node_ids d → length (adj d id) + pending_edges d [] ≤ 2 * edge_count d.
Proof.
  intros Hwf Hid. unfold pending_edges, edge_count. rewrite list_filter_all.
  2:{ intros. apply not_elem_of_nil. }
  enough (length (adj d id) ≤ sum_list_with (λ id, length (adj d id)) (node_ids d)) by lia.
  clear Hwf. induction (node_ids d) as [|x l IH]; [by apply elem_of_nil in Hid|].
  apply elem_of_cons in Hid as [->|Hid]; cbn; [lia|]. specialize (IH Hid). lia.
Qed.

Lemma mark_failed_unfold d id err n :
  valid_dag d → get_node d id = Ok n →
  ∃ d' skipped, mark_failed d id err = Ok (d', skipped) ∧ NoDup skipped ∧
    (∀ c, c ∈ skipped ↔ doomed d id c) ∧
    node_ids d' = node_ids d ∧ d_adjacency d' = d_adjacency d ∧ d_reverse d' = d_reverse d ∧
    ∀ c, dict_get c (d_nodes d') =
      (if decide (c = id) then mark_failed_node err
       else if decide (c ∈ skipped) then mark_skipped id else λ m, m)
      <$> dict_get c (d_nodes d).
Proof.
  intros (Hwf&_&_) Hn. unfold mark_failed. rewrite Hn. cbn [res_bind].
  set (d0 := update_node _ id d).
  assert (wf_dag d0) as Hwf0 by by apply update_node_wf.
  assert (∀ c, status_of d0 c = if decide (id = c) then Some FAILED else status_of d c) as Hst0.
  { intros c. unfold status_of, d0. cbn. rewrite dict_get_alter. case_decide; [|done].
    subst c. apply get_node_Ok in Hn. by rewrite Hn. }
  assert (¬ skippable_at d0 id) as Hid.
  { intros (s&Hs&Hsk). rewrite Hst0, decide_True in Hs by done. by injection Hs as <-. }
  assert (id ∈ node_ids d0) as HV.
  { unfold d0. rewrite update_node_ids. apply dict_get_is_Some. exists n.
    by apply get_node_Ok. }
  assert (∀ p c, edge d0 p c ↔ edge d p c) as He
    by (intros p c; unfold edge, d0; by rewrite update_node_deps).
  assert (∀ c, doomed d0 id c ↔ doomed d id c) as Hdoom.
  { intros c. assert (∀ c, c ≠ id → skippable_at d0 c ↔ skippable_at d c) as Hsk
      by (intros x Hx; unfold skippable_at; by rewrite Hst0, decide_False).
    split; induction 1 as [c Hc Hne Hs|p c _ IH Hc Hne Hs]; apply He in Hc; apply Hsk in Hs;
      try done; by econstructor. }
  destruct (skip_loop_spec id d0 (2 * edge_count d0) d0 (adj d0 id) ∅ [])
    as (d'&skipped&seen&Hrun&Hinv); [done|done|by apply skip_inv_init|by apply edge_count_fuel|].
  exists d', skipped. split; [exact Hrun|].
  pose proof (skip_inv_final _ _ _ _ _ Hinv) as Hfin.
  destruct Hinv as [Hg Hk Ha Hr Hnd Hsk _ _ _]. split_and!; [done| | |done|done|].
  - intros c. by rewrite Hfin.
  - rewrite Hk. apply update_node_ids.
  - intros c. rewrite Hg. unfold d0. cbn [update_node d_nodes]. rewrite dict_get_alter.
    destruct (decide (id = c)) as [->|Hne].
    + rewrite decide_False; [by rewrite decide_True|]. intros Hc%Hfin.
      by inversion Hc.
    + rewrite (decide_False (P := c = id)) by congruence.
      case_decide; [done|]. symmetry. apply option_fmap_id.
Qed.

(** C34: failure propagation.  [mark_failed] on a known node terminates within
    its fuel and never raises; it marks the node FAILED with the given error,
    marks SKIPPED exactly the nodes reached from it through waiting or blocked
    nodes, returns those identifiers once each, and leaves every other node
    and all edges as they were. *)
Theorem mark_failed_spec d id err n :
  valid_dag d → get_node d id = Ok n →
  ∃ d' skipped, mark_failed d id err = Ok (d', skipped) ∧ NoDup skipped ∧
    (∀ c, c ∈ skipped ↔ doomed d id c) ∧
    node_ids d' = node_ids d ∧ d_adjacency d' = d_adjacency d ∧ d_reverse d' = d_reverse d ∧
    ∀ c, dict_get c (d_nodes d') =
      (if decide (c = id) then mark_failed_node err
       else if decide (c ∈ skipped) then mark_skipped id else λ m, m)
      <$> dict_get c (d_nodes d).
Proof. exact (mark_failed_unfold d id err n). Qed.

Lemma mark_failed_witness :
  valid_dag (build diamond) ∧ get_node (build diamond) "b" = Ok (mk_node "b" ["a"]) ∧
  ∃ d' skipped, mark_failed (build diamond) "b" None = Ok (d', skipped) ∧ NoDup skipped ∧
    (∀ c, c ∈ skipped ↔ doomed (build diamond) "b" c) ∧
    node_ids d' = node_ids (build diamond) ∧
    d_adjacency d' = d_adjacency (build diamond) ∧ d_reverse d' = d_reverse (build diamond) ∧
    ∀ c, dict_get c (d_nodes d') =
      (if decide (c = "b") then mark_failed_node None
       else if decide (c ∈ skipped) then mark_skipped "b" else λ m, m)
      <$> dict_get c (d_nodes (build diamond)).
Proof.
  assert (get_node (build diamond) "b" = Ok (mk_node "b" ["a"])) as Hb
    by (vm_compute; reflexivity).
  split; [exact diamond_valid|]. split; [exact Hb|].
  exact (mark_failed_spec (build diamond) "b" None (mk_node "b" ["a"]) diamond_valid Hb).
Defined.

(** ** Preservation of the invariant *)

(** The graph of [d'] is that of [d]; the nodes may carry other states. *)
Record same_shape (d d' : DAG) : Prop := {
  ss_ids : node_ids d' = node_ids d;
  ss_adj : d_adjacency d' = d_adjacency d;
  ss_rev : d_reverse d' = d_reverse d;
  ss_deps : ∀ c, deps d' c = deps d c;
  ss_id : ∀ id n, dict_get id (d_nodes d') = Some n → node_id n = id;
}.

Lemma same_shape_valid d d' : same_shape d d' → valid_dag d → valid_dag d'.
Proof.
  intros [Hids Ha Hr Hd Hid] ([H1 H2 H3 H4]&Hcl&Hac).
  assert (∀ p c, edge d' p c ↔ edge d p c) as He by (intros p c; unfold edge; by rewrite Hd).
  split; [split|split].
  - by rewrite Hids.
  - done.
  - intros p c. unfold adj. rewrite Ha, Hd. apply H3.
  - intros c. unfold rev_deps. rewrite Hr, Hd. apply H4.
  - intros p c Hpc%He. rewrite Hids. by eapply Hcl.
  - intros x Hx. apply (Hac x). by apply (tc_iff _ _ x x He).
Qed.

Lemma update_same_shape f id d :
  (∀ n, node_id (f n) = node_id n ∧ depends_on (f n) = depends_on n) → wf_dag d →
  same_shape d (update_node f id d).
Proof.
  intros Hf Hwf. split; [apply update_node_ids|done|done| |].
  - intros c. apply update_node_deps. apply Hf.
  - by apply (update_node_wf f id d).
Qed.

Lemma fmap_same_shape d d' (g : string → DAGNode → DAGNode) :
  (∀ c n, node_id (g c n) = node_id n ∧ depends_on (g c n) = depends_on n) → wf_dag d →
  node_ids d' = node_ids d → d_adjacency d' = d_adjacency d → d_reverse d' = d_reverse d →
  (∀ c, dict_get c (d_nodes d') = g c <$> dict_get c (d_nodes d)) → same_shape d d'.
Proof.
  intros Hg Hwf Hids Ha Hr Hget. split; [done..| |].
  - intros c. unfold deps. rewrite Hget. destruct (dict_get c _); cbn; [apply Hg|done].
  - intros id n. rewrite Hget. intros (m&Hm&->)%fmap_Some.
    destruct (Hg id m) as [-> _]. by apply (wf_id d Hwf).
Qed.

(** The edge maps are those the constructor computes from the nodes. *)
Definition canonical (d : DAG) : Prop := build (nodes d) = d.

Definition edge_key (n : DAGNode) : string * list string := (node_id n, depends_on n).

Definition same_edges (d1 d2 : DAG) : Prop :=
  d_adjacency d1 = d_adjacency d2 ∧ d_reverse d1 = d_reverse d2.

#[export] Instance same_edges_equiv : Equivalence same_edges.
Proof. unfold same_edges. split; red; intuition congruence. Qed.

Lemma add_edges_ext n1 n2 d1 d2 :
  edge_key n1 = edge_key n2 → same_edges d1 d2 →
  same_edges (add_edges n1 d1) (add_edges n2 d2).
Proof.
  unfold add_edges. intros [= -> ->]. revert d1 d2.
  induction (depends_on n2) as [|p ps IH]; intros d1 d2 [Ha Hr]; cbn [fold_left]; [done|].
  apply IH. split; cbn; [by rewrite Ha|by rewrite Hr].
Qed.

Lemma fold_edges_ext ns1 ns2 d1 d2 :
  map edge_key ns1 = map edge_key ns2 → same_edges d1 d2 →
  same_edges (fold_left (λ d n, add_edges n d) ns1 d1)
             (fold_left (λ d n, add_edges n d) ns2 d2).
Proof.
  revert ns2 d1 d2. induction ns1 as [|n1 ns1 IH]; intros [|n2 ns2] d1 d2 Hk Hs; try done.
  change (edge_key n1 :: map edge_key ns1 = edge_key n2 :: map edge_key ns2) in Hk.
  injection Hk as Hk1 Hk2 Hk. cbn [fold_left]. apply IH; [done|].
  apply add_edges_ext; [|done]. unfold edge_key. by rewrite Hk1, Hk2.
Qed.

Lemma build_edges_ext ns1 ns2 :
  map edge_key ns1 = map edge_key ns2 → same_edges (build ns1) (build ns2).
Proof. intros Hk. by apply fold_edges_ext. Qed.

Lemma map_edge_key d : wf_dag d → map edge_key (nodes d) = map (λ k, (k, deps d k)) (node_ids d).
Proof.
  intros Hwf. unfold nodes, node_ids. rewrite !map_map. apply map_ext_in. intros [k n] Hin.
  apply list_elem_of_In, (dict_get_elem_of _ _ _ (wf_keys d Hwf)) in Hin. cbn.
  unfold edge_key, deps. rewrite Hin. by rewrite (wf_id d Hwf _ _ Hin).
Qed.

Lemma build_nodes_self d : wf_dag d → d_nodes (build (nodes d)) = d_nodes d.
Proof.
  intros Hwf. rewrite build_nodes_id by (rewrite map_node_id_nodes by done; apply (wf_keys d Hwf)).
  unfold nodes. rewrite map_map. transitivity (map id (d_nodes d)); [|apply map_id].
  apply map_ext_in. intros [k n] Hin.
  apply list_elem_of_In, (dict_get_elem_of _ _ _ (wf_keys d Hwf)) in Hin. cbn.
  by rewrite (wf_id d Hwf _ _ Hin).
Qed.

Lemma same_shape_canonical d d' :
  valid_dag d → same_shape d d' → canonical d → canonical d'.
Proof.
  intros Hv Hs Hc. pose proof (same_shape_valid _ _ Hs Hv) as (Hwf'&_&_).
  destruct Hv as (Hwf&_&_). unfold canonical in *.
  destruct (build_edges_ext (nodes d') (nodes d)) as [Ha Hr].
  { rewrite !map_edge_key by done. rewrite (ss_ids _ _ Hs). apply map_ext. intros k.
    by rewrite (ss_deps _ _ Hs). }
  pose proof (build_nodes_self d' Hwf') as Hn. rewrite Hc in Ha, Hr.
  rewrite <-(ss_adj _ _ Hs) in Ha. rewrite <-(ss_rev _ _ Hs) in Hr.
  destruct (build (nodes d')) as [n1 a1 r1], d' as [n2 a2 r2]. cbn in *. by subst.
Qed.

(** One state-changing operation that returned; [add_node] is called with
    dependencies that exist (see [add_node_spec]). *)
Inductive dag_step (d : DAG) : DAG → Prop :=
  | step_completed id out d' ready : mark_completed d id out = Ok (d', ready) → dag_step d d'
  | step_failed id err d' skipped : mark_failed d id err = Ok (d', skipped) → dag_step d d'
  | step_blocked id reason d' : mark_blocked d id reason = Ok d' → dag_step d d'
  | step_running id d' : mark_running d id = Ok d' → dag_step d d'
  | step_pending id d' : mark_pending d id = Ok d' → dag_step d d'
  | step_add n d' : add_node d n = Ok d' → depends_on n ⊆ node_ids d → dag_step d d'.

Definition dag_inv (d : DAG) : Prop := valid_dag d ∧ canonical d ∧ d_nodes d ≠ [].

Lemma same_shape_inv d d' : same_shape d d' → dag_inv d → dag_inv d'.
Proof.
  intros Hs (Hv&Hc&Hne). split; [by eapply same_shape_valid|].
  split; [by eapply same_shape_canonical|]. intros Hnil. apply Hne.
  pose proof (ss_ids _ _ Hs) as Hids. unfold node_ids in Hids. rewrite Hnil in Hids.
  by destruct (d_nodes d).
Qed.

Lemma get_node_bind {A} d id (k : DAGNode → res dag_error A) a :
  (n <~ get_node d id; k n) = Ok a → ∃ n, get_node d id = Ok n ∧ k n = Ok a.
Proof. apply res_bind_Ok. Qed.

Lemma mark_failed_shape d id err d' skipped :
  valid_dag d → mark_failed d id err = Ok (d', skipped) → same_shape d d'.
Proof.
  intros Hv Hm. pose proof Hm as (n&Hn&_)%get_node_bind.
  destruct (mark_failed_unfold d id err n Hv Hn) as (d1&sk&Hrun&_&_&Hids&Ha&Hr&Hget).
  rewrite Hm in Hrun. injection Hrun as <- <-.
  eapply (fmap_same_shape d d' (λ c, if decide (c = id) then _
    else if decide (c ∈ skipped) then _ else λ m, m)); try done; [|by destruct Hv].
  intros c m. by repeat case_decide.
Qed.

Lemma add_node_inv d n d' :
  dag_inv d → add_node d n = Ok d' → depends_on n ⊆ node_ids d → dag_inv d'.
Proof.
  intros (Hv&Hc&Hne) Hadd Hdeps. pose proof Hv as (Hwf&_).
  destruct (add_node_cases d n Hv) as [[_ Herr]|(Hfr&d1&Hok&Hnodes&Hval)]; [congruence|].
  rewrite Hadd in Hok. injection Hok as <-. split; [by apply Hval|]. split.
  - pose proof (proj2 Hval Hdeps) as (Hwf'&_). pose proof (build_nodes_self d' Hwf') as Hself.
    assert (nodes d' = nodes d ++ [n]) as Hns by (unfold nodes; by rewrite Hnodes, map_app).
    assert (same_edges (build (nodes d')) d') as [Ha Hr].
    { rewrite Hns. unfold add_node in Hadd. rewrite bool_decide_false in Hadd by done.
      injection Hadd as <-. unfold build. rewrite fold_left_app. cbn [fold_left].
      apply add_edges_ext; [done|].
      etrans; [by apply (fold_edges_ext (nodes d) (nodes d) _
        {| d_nodes := dict_of (map (λ n, (node_id n, n)) (nodes d));
           d_adjacency := ∅; d_reverse := ∅ |})|].
      change (same_edges (build (nodes d)) d). by rewrite Hc. }
    unfold canonical. destruct (build (nodes d')), d'. cbn in *. by subst.
  - rewrite Hnodes. by destruct (d_nodes d).
Qed.

Lemma DAG_init_inv ns d : NoDup (map node_id ns) → DAG_init ns = Ok d → dag_inv d.
Proof.
  intros Hnd Hi. pose proof (DAG_init_valid ns d Hnd Hi) as [-> Hv].
  pose proof (build_nodes_id ns Hnd) as Hn.
  assert (nodes (build ns) = ns) as Hns.
  { unfold nodes. rewrite Hn, map_map. apply map_id. }
  split; [done|]. unfold canonical. rewrite Hns. split; [done|].
  intros Hnil. rewrite Hn in Hnil. destruct ns; [|done]. done.
Qed.

Lemma dag_step_inv d d' : dag_step d d' → dag_inv d → dag_inv d'.
Proof.
  intros Hs Hinv. pose proof Hinv as ((Hwf&_)&_).
  destruct Hs as [id out d' ready Hm|id err d' sk Hm|id r d' Hm|id d' Hm|id d' Hm|n d' Hm Hd].
  - apply get_node_bind in Hm as (n&_&Hm). cbv zeta in Hm.
    apply res_bind_Ok in Hm as (r&_&[= <- _]).
    eapply same_shape_inv; [by apply update_same_shape|done].
  - eapply same_shape_inv; [eapply mark_failed_shape; [apply Hinv|exact Hm]|done].
  - apply get_node_bind in Hm as (n&_&[= <-]).
    eapply same_shape_inv; [by apply update_same_shape|done].
  - apply get_node_bind in Hm as (n&_&[= <-]).
    eapply same_shape_inv; [by apply update_same_shape|done].
  - apply get_node_bind in Hm as (n&_&[= <-]).
    eapply same_shape_inv; [by apply update_same_shape|done].
  - by eapply add_node_inv.
Qed.

Lemma rtc_dag_inv d0 d : rtc dag_step d0 d → dag_inv d0 → dag_inv d.
Proof.
  induction 1 as [d|d d1 d2 Hstep _ IH]; [done|]. intros Hd. apply IH.
  by eapply dag_step_inv.
Qed.

(** The invariant.  Every graph reached from an accepted constructor call
    by any sequence of operations (new nodes depending on existing ones) is
    closed, acyclic, keyed by its nodes' identifiers, and has the edge maps
    the constructor would compute from its nodes. *)
Theorem reachable_inv ns d0 d :
  NoDup (map node_id ns) → DAG_init ns = Ok d0 → rtc dag_step d0 d →
  valid_dag d ∧ canonical d ∧ d_nodes d ≠ [].
Proof.
  intros Hnd Hinit Hr. assert (dag_inv d0) as H0 by by eapply DAG_init_inv.
  by eapply rtc_dag_inv.
Qed.

Lemma reachable_inv_witness :
  NoDup (map node_id diamond) ∧ DAG_init diamond = Ok (build diamond) ∧
  valid_dag (build diamond) ∧ canonical (build diamond) ∧ d_nodes (build diamond) ≠ [].
Proof.
  assert (NoDup (map node_id diamond)) as Hnd
    by (apply (bool_decide_eq_true_1 (NoDup (map node_id diamond))); reflexivity).
  assert (DAG_init diamond = Ok (build diamond)) as Hi by (vm_compute; reflexivity).
  split; [exact Hnd|]. split; [exact Hi|].
  apply (reachable_inv diamond (build diamond) (build diamond) Hnd Hi). apply rtc_refl.
Defined.

Lemma status_of_update f id d c :
  status_of (update_node f id d) c =
  if decide (id = c) then (λ n, status (f n)) <$> dict_get c (d_nodes d) else status_of d c.
Proof.
  unfold status_of. cbn. rewrite dict_get_alter. case_decide; [|done].
  by destruct (dict_get _ _).
Qed.

Lemma update_cascaded f id d :
  (∀ n, depends_on (f n) = depends_on n) →
  (∀ n, status (f n) = COMPLETED ∨ status (f n) = RUNNING) →
  cascaded d → cascaded (update_node f id d).
Proof.
  intros Hf Hst Hcas p c s He Hp Hc. unfold edge in He.
  rewrite update_node_deps in He by done. rewrite !status_of_update in *.
  destruct (decide (id = p)).
  { exfalso. destruct (dict_get p _) as [n|]; [|naive_solver].
    cbn in Hp. destruct (Hst n) as [E|E]; rewrite E in Hp; naive_solver. }
  case_decide; [|by eapply Hcas].
  destruct (dict_get c _) as [m|]; [|done]. injection Hc as <-. by destruct (Hst m) as [-> | ->].
Qed.

Lemma mark_failed_cascaded d id err d' skipped :
  valid_dag d → cascaded d → mark_failed d id err = Ok (d', skipped) → cascaded d'.
Proof.
  intros Hv Hcas Hm. pose proof (mark_failed_shape _ _ _ _ _ Hv Hm) as Hsh.
  pose proof Hm as (n&Hn&_)%get_node_bind.
  destruct (mark_failed_unfold d id err n Hv Hn) as (d1&sk&Hrun&_&Hdoom&_&_&_&Hget).
  rewrite Hm in Hrun. injection Hrun as <- <-.
  assert (∀ c, status_of d' c = if decide (c = id) then (λ _, FAILED) <$> dict_get c (d_nodes d)
    else if decide (c ∈ skipped) then (λ _, SKIPPED) <$> dict_get c (d_nodes d) else status_of d c) as Hst.
  { intros c. unfold status_of. rewrite Hget. destruct (dict_get c _); cbn;
      by repeat case_decide. }
  intros p c s He Hp Hc. unfold edge in He. rewrite (ss_deps _ _ Hsh) in He.
  rewrite Hst in Hp, Hc.
  destruct (decide (c = id)) as [->|Hci]; [destruct (dict_get id _); cbn in Hc; naive_solver|].
  destruct (decide (c ∈ skipped)) as [Hcs|Hcs];
    [destruct (dict_get c _); cbn in Hc; naive_solver|].
  destruct (skippable s) eqn:E; [|done]. exfalso.
  assert (skippable_at d c) as Hsk by by exists s.
  destruct (decide (p = id)) as [->|Hpi].
  { apply Hcs, Hdoom. by apply doomed_child. }
  destruct (decide (p ∈ skipped)) as [Hps|Hps].
  { apply Hcs, Hdoom. eapply doomed_step; [by apply Hdoom|done..]. }
  rewrite (Hcas p c s He Hp Hc) in E. done.
Qed.

Lemma pending_cascaded d :
  forallb (λ kn, bool_decide (status kn.2 = PENDING)) (d_nodes d) = true → cascaded d.
Proof.
  intros Hall p c s _ Hp _. exfalso. unfold status_of in Hp.
  destruct (dict_get p (d_nodes d)) as [n|] eqn:E; [|naive_solver].
  apply dict_get_Some_elem in E. rewrite forallb_forall in Hall.
  specialize (Hall (p, n) (proj1 (list_elem_of_In _ _) E)).
  apply bool_decide_eq_true in Hall. cbn in *. rewrite Hall in Hp. naive_solver.
Qed.

(** Failures stay cascaded: after [mark_failed], [mark_completed] or
    [mark_running], still no waiting or blocked node lies directly below a
    failed or skipped one. *)
Theorem cascade_preserved d d' :
  valid_dag d → cascaded d →
  (∃ id err skipped, mark_failed d id err = Ok (d', skipped)) ∨
  (∃ id out ready, mark_completed d id out = Ok (d', ready)) ∨
  (∃ id, mark_running d id = Ok d') →
  cascaded d'.
Proof.
  intros Hv Hcas [(id&err&sk&Hm)|Hops].
  - by eapply mark_failed_cascaded.
  - assert (∃ id f, d' = update_node f id d ∧
      (∀ n, depends_on (f n) = depends_on n) ∧
      ∀ n, status (f n) = COMPLETED ∨ status (f n) = RUNNING) as (id&f&->&Hf&Hst).
    { destruct Hops as [(id&out&ready&Hm)|(id&Hm)].
      - apply get_node_bind in Hm as (n&_&Hm). cbv zeta in Hm.
        apply res_bind_Ok in Hm as (r&_&[= <- _]). eexists id, _. split_and!; [done|done|].
        by left.
      - apply get_node_bind in Hm as (n&_&[= <-]). eexists id, _. split_and!; [done|done|].
        by right. }
    by apply update_cascaded.
Qed.

Lemma cascade_preserved_witness :
  valid_dag (build diamond) ∧ cascaded (build diamond) ∧
  cascaded (update_node (set_status RUNNING) "a" (build diamond)).
Proof.
  assert (cascaded (build diamond)) as Hc by (apply pending_cascaded; vm_compute; reflexivity).
  split; [exact diamond_valid|]. split; [exact Hc|].
  apply (cascade_preserved (build diamond) _ diamond_valid Hc). right. right.
  exists "a". reflexivity.
Defined.

(** ** Snapshots *)

Definition uuids_ok (n : DAGNode) : Prop :=
  from_option uuid_ok True (assigned_agent_id n) ∧ from_option uuid_ok True (task_id n).

Lemma read_uuid_str o :
  from_option uuid_ok True o → read_uuid (Some (uuid_str <$> o)) = Ok o.
Proof.
  destruct o as [u|]; [|done]. cbn [from_option fmap option_fmap option_map read_uuid].
  intros Hu. rewrite uuid_parse_str by done. by rewrite uuid_str_nonempty.
Qed.

Lemma from_entry_to_entry n : uuids_ok n → from_entry (to_entry n) = Ok n.
Proof.
  intros [Ha Ht]. unfold from_entry, to_entry.
  cbn -[read_uuid status_of_value status_value uuid_str].
  rewrite (read_uuid_str _ Ha), (read_uuid_str _ Ht). cbn [res_bind].
  rewrite status_of_value_value. by destruct n.
Qed.

Lemma from_entries_map ns : Forall uuids_ok ns → from_entries (map to_entry ns) = Ok ns.
Proof.
  induction 1 as [|n ns Hn _ IH]; [done|]. cbn [map from_entries].
  rewrite from_entry_to_entry by done. cbn [res_bind]. by rewrite IH.
Qed.

(** Recovery.  For every reachable graph whose agent and task identifiers
    are 128-bit UUIDs, [from_dict] reads back from [to_dict] the very same
    graph: nodes, order, states and edges. *)
Theorem snapshot_roundtrip ns d0 d :
  NoDup (map node_id ns) → DAG_init ns = Ok d0 → rtc dag_step d0 d →
  Forall uuids_ok (nodes d) → from_dict (to_dict d) = Ok d.
Proof.
  intros Hnd Hinit Hr Hu.
  assert (dag_inv d) as (Hv&Hc&Hne).
  { eapply rtc_dag_inv; [exact Hr|]. by eapply DAG_init_inv. }
  unfold from_dict, to_dict. rewrite from_entries_map by done. cbn [res_bind].
  unfold DAG_init. rewrite Hc. by rewrite validate_valid.
Qed.

Lemma snapshot_roundtrip_witness :
  NoDup (map node_id diamond) ∧ from_dict (to_dict (build diamond)) = Ok (build diamond).
Proof.
  assert (NoDup (map node_id diamond)) as Hnd
    by (apply (bool_decide_eq_true_1 (NoDup (map node_id diamond))); reflexivity).
  split; [exact Hnd|].
  apply (snapshot_roundtrip diamond (build diamond) (build diamond) Hnd).
  - vm_compute. reflexivity.
  - apply rtc_refl.
  - apply Forall_forall. intros n Hn.
    destruct n as [i c de dp ec ag tk st ou er]. vm_compute in Hn.
    repeat (apply elem_of_cons in Hn as [Hn|Hn]; [injection Hn; intros; subst; split; exact I|]).
    by apply elem_of_nil in Hn.
Defined.
