(* ===== verification/DagPath.v ===== *)
(** * DagPath: the critical path

    [get_critical_path] relaxes longest distances along a topological order,
    then walks the predecessors back from the farthest node.  [cp_inv] is the
    invariant of the relaxation; the theorem says that the answer is a path of
    maximal length. *)

From Stdlib Require Import ZArith Lia.
From stdpp Require Import base tactics strings gmap relations finite list.
From S2P Require Import Prelude PyStr Dict Uuid TaskFsm Dag DagTopo.

(** Consecutive elements depend on one another. *)
Fixpoint is_path (d : DAG) (l : list string) : Prop :=
  match l with
  | p :: (c :: _) as l => edge d p c ∧ is_path d l
  | _ => True
  end.

Abbreviation dist st c := (default 0 (dict_get c (fst (st : cp_state)))).

(** [P]: the nodes processed so far *)
Record cp_inv (d : DAG) (topo P : list string) (st : cp_state) : Prop := {
  cp_keys : dict_keys st.1 = topo;
  cp_edges : ∀ p c, p ∈ P → edge d p c → dist st p + 1 ≤ dist st c;
  cp_pred : ∀ c, match st.2 !! c with
    | Some p => p ∈ P ∧ edge d p c ∧ dist st c = dist st p + 1
    | None => dist st c = 0
    end;
}.

(** Invariant of the inner loop on the edges out of [x] *)
Record cp_inner (d : DAG) (topo P : list string) (x : string) (done : list string)
    (st : cp_state) : Prop := {
  ci_keys : dict_keys st.1 = topo;
  ci_edges : ∀ p c, p ∈ P → edge d p c → dist st p + 1 ≤ dist st c;
  ci_x : ∀ c, c ∈ done → dist st x + 1 ≤ dist st c;
  ci_pred : ∀ c, match st.2 !! c with
    | Some p => p ∈ P ++ [x] ∧ edge d p c ∧ dist st c = dist st p + 1
    | None => dist st c = 0
    end;
}.

Lemma dist_set c v st preds x :
  dist (dict_set c v (fst (st : cp_state)), preds : gmap string string) x =
  if decide (c = x) then v else dist st x.
Proof. cbn. rewrite dict_get_set. by case_decide. Qed.

Lemma cp_children_spec d topo P x cs visited st :
  (∀ c, c ∈ cs → edge d x c ∧ c ∈ topo ∧ (c ∉ P ++ [x])) →
  x ∈ topo → (∀ p, p ∈ P → ¬ edge d x p) →
  cp_inner d topo P x visited st →
  ∃ st', cp_children x cs st = Ok st' ∧ cp_inner d topo P x (visited ++ cs) st'.
Proof.
  revert visited st. induction cs as [|c cs IH]; intros visited st Hcs Hx HxP Hinv.
  { exists st. rewrite app_nil_r. done. }
  destruct (Hcs c) as (Hxc&Hct&Hnc); [by left|].
  pose proof Hinv as [Hk He Hvis Hpred]. cbn [cp_children].
  destruct (proj2 (dict_get_is_Some c st.1)) as [dc Hdc]; [by rewrite Hk|].
  destruct (proj2 (dict_get_is_Some x st.1)) as [dx Hdx]; [by rewrite Hk|].
  rewrite Hdc, Hdx. cbn [res_of_option res_bind].
  replace (visited ++ c :: cs) with ((visited ++ [c]) ++ cs) by by rewrite <-app_assoc.
  apply IH; [intros y Hy; apply Hcs; by right|done|done|].
  assert (c ≠ x) as Hcx by (intros ->; apply Hnc, elem_of_app; right; by left).
  destruct (dc <? dx + 1) eqn:E.
  - apply Nat.ltb_lt in E. assert (∀ p, p ∈ P ++ [x] → c ≠ p) as Hne by (by intros p Hp ->).
    split.
    + cbn. rewrite dict_keys_set, decide_True; [done|by rewrite Hk].
    + intros p y Hp Hpy. rewrite !dist_set.
      rewrite decide_False by (apply Hne, elem_of_app; by left). specialize (He p y Hp Hpy).
      case_decide; [subst y; rewrite Hdc in He; cbn in He; lia|done].
    + intros y Hy. rewrite !dist_set. rewrite (decide_False (P := c = x)) by done.
      rewrite Hdx. cbn. case_decide; [lia|].
      apply elem_of_app in Hy as [Hy|Hy%list_elem_of_singleton]; [|congruence].
      specialize (Hvis y Hy). rewrite Hdx in Hvis. done.
    + intros y. cbn [snd]. rewrite dist_set. destruct (decide (c = y)) as [<-|Hcy].
      * rewrite lookup_insert_eq. split_and!; [apply elem_of_app; right; by left|done|].
        rewrite dist_set, decide_False by done. by rewrite Hdx.
      * rewrite lookup_insert_ne by done. specialize (Hpred y). destruct (st.2 !! y); [|done].
        destruct Hpred as (Hp&Hpy&->). split_and!; [done..|].
        by rewrite dist_set, decide_False by by apply Hne.
  - apply Nat.ltb_ge in E. split; [done..| |done].
    intros y [Hy| ->%list_elem_of_singleton]%elem_of_app; [by apply Hvis|].
    rewrite Hdc, Hdx. cbn. lia.
Qed.

Lemma cp_nodes_spec d order P st :
  valid_dag d → NoDup (P ++ order) → (P ++ order) ≡ₚ node_ids d → deps_first d (P ++ order) →
  cp_inv d (P ++ order) P st →
  ∃ st', cp_nodes d order st = Ok st' ∧ cp_inv d (P ++ order) (P ++ order) st'.
Proof.
  intros Hv. pose proof Hv as (Hwf&_). revert P st.
  induction order as [|x order IH]; intros P st Hnd Hp Hfirst Hinv.
  { exists st. rewrite app_nil_r in *. done. }
  assert (∀ c, edge d x c → c ∉ P ++ [x]) as Hlater.
  { intros c He Hc. apply list_elem_of_lookup in Hc as (j&Hj).
    pose proof (lookup_lt_Some _ _ _ Hj) as Hlt. rewrite length_app in Hlt. cbn in Hlt.
    assert ((P ++ x :: order) !! j = Some c) as Hj'.
    { replace (P ++ x :: order) with ((P ++ [x]) ++ order) by by rewrite <-app_assoc.
      by apply lookup_app_l_Some. }
    destruct (Hfirst j c Hj' x He) as (i&Hij&Hi).
    assert (i = length P) as -> by
      (apply (NoDup_lookup _ _ _ _ Hnd Hi), list_lookup_middle; done). lia. }
  destruct Hinv as [Hk He Hpred].
  destruct (cp_children_spec d (P ++ x :: order) P x (adj d x) [] st) as (st1&Hrun&Hin).
  - intros c Hc. apply elem_of_adj in Hc; [|done]. split_and!; [done| |by apply Hlater].
    rewrite Hp. by eapply deps_is_node.
  - apply elem_of_app. right. by left.
  - intros p Hpp Hpe. apply (Hlater _ Hpe), elem_of_app. by left.
  - split; [done|done|intros c Hc; by apply elem_of_nil in Hc|].
    intros c. specialize (Hpred c). destruct (st.2 !! c); [|done].
    destruct Hpred as (?&?&?). split_and!; [apply elem_of_app; by left|done|done].
  - cbn [cp_nodes]. rewrite Hrun. cbn [res_bind].
    replace (P ++ x :: order) with ((P ++ [x]) ++ order) in * by by rewrite <-app_assoc.
    apply (IH (P ++ [x])); [done..|]. destruct Hin as [Hk1 He1 Hx1 Hpred1]. split; [done| |done].
    intros p c [Hpp| ->%list_elem_of_singleton]%elem_of_app Hpc; [by apply He1|].
    apply Hx1. by apply elem_of_adj.
Qed.

Lemma cp_init d topo : cp_inv d topo [] (map (λ id, (id, 0)) topo, ∅).
Proof.
  split.
  - cbn. rewrite map_map. apply map_id.
  - intros p c Hp. by apply elem_of_nil in Hp.
  - intros c. cbn [snd fst]. rewrite lookup_empty.
    destruct (dict_get c _) as [n|] eqn:E; [|done]. apply dict_get_Some_elem in E.
    apply list_elem_of_fmap in E as (y&[= -> ->]&_). done.
Qed.

(** A distance bounds the paths that lead to its node. *)
Lemma path_dist d topo st p l :
  cp_inv d topo topo st → (∀ x, x ∈ p :: l → x ∈ topo) → is_path d (p :: l) →
  ∃ e, e ∈ topo ∧ dist st p + length l ≤ dist st e.
Proof.
  intros [_ He _]. revert p. induction l as [|c l IH]; intros p Hin Hp.
  - exists p. split; [apply Hin; by left|cbn; lia].
  - destruct Hp as [Hpc Hl].
    destruct (IH c) as (e&Het&Hle); [intros x Hx; apply Hin; by right|done|].
    exists e. split; [done|]. pose proof (He p c (Hin p ltac:(by left)) Hpc). cbn. lia.
Qed.

(** The distance of the node at place [i] of the order is at most [i]. *)
Lemma dist_index d topo st i c :
  cp_inv d topo topo st → NoDup topo → deps_first d topo → topo !! i = Some c → dist st c ≤ i.
Proof.
  intros [_ _ Hpred] Hnd Hfirst. revert c. induction (lt_wf i) as [i _ IH]; intros c Hi.
  specialize (Hpred c). destruct (st.2 !! c) as [p|]; [|lia].
  destruct Hpred as (_&Hpc&->). destruct (Hfirst i c Hi p Hpc) as (j&Hj&Hp).
  specialize (IH j Hj p Hp). lia.
Qed.

Lemma cp_walk_spec d topo st fuel c path :
  cp_inv d topo topo st → c ∈ topo → dist st c < fuel → is_path d (c :: path) →
  (∀ x, x ∈ path → x ∈ topo) →
  ∃ l, cp_walk fuel st.2 c path = Ok l ∧ length l = dist st c + S (length path) ∧
    is_path d l ∧ ∀ x, x ∈ l → x ∈ topo.
Proof.
  intros [_ _ Hpred]. revert c path. induction fuel as [|fuel IH]; intros c path Hc Hf Hp Hin;
    [lia|].
  assert (∀ x, x ∈ c :: path → x ∈ topo) as Hin'
    by (intros x [->|?]%elem_of_cons; [done|by apply Hin]).
  cbn. specialize (Hpred c). destruct (st.2 !! c) as [p|] eqn:E.
  - destruct Hpred as (Hpt&Hpc&Hd).
    destruct (IH p (c :: path)) as (l&Hl&Hlen&Hrest); [done|lia|done|done|].
    exists l. split_and!; [done| |apply Hrest..]. cbn in *. lia.
  - exists (c :: path). split_and!; [done|cbn; lia|done|done].
Qed.

Lemma first_max_spec l best :
  first_max l best ∈ best :: l ∧ ∀ kv, kv ∈ best :: l → kv.2 ≤ (first_max l best).2.
Proof.
  revert best. induction l as [|kv l IH]; intros best; cbn [first_max].
  { split; [by left|]. by intros kv ->%list_elem_of_singleton. }
  destruct (IH (if best.2 <? kv.2 then kv else best)) as [Hin Hmax]. split.
  - apply elem_of_cons in Hin as [Heq|Hin]; [rewrite Heq|rewrite !elem_of_cons; tauto].
    destruct (_ <? _); rewrite !elem_of_cons; tauto.
  - assert (best.2 ≤ (if best.2 <? kv.2 then kv else best).2 ∧
            kv.2 ≤ (if best.2 <? kv.2 then kv else best).2) as [H1 H2].
    { destruct (best.2 <? kv.2) eqn:E; [apply Nat.ltb_lt in E|apply Nat.ltb_ge in E]; lia. }
    pose proof (Hmax (if best.2 <? kv.2 then kv else best) ltac:(by left)) as H3.
    intros x [->|[->|Hx]%elem_of_cons]%elem_of_cons; [lia|lia|]. apply Hmax. by right.
Qed.

(** The critical path.  On a valid, non-empty graph [get_critical_path]
    never raises and its loop ends; it returns nodes of the graph that form a
    path along the dependencies, and no path of the graph has more nodes. *)
Theorem critical_path_longest d :
  valid_dag d → d_nodes d ≠ [] →
  ∃ ns, get_critical_path d = Ok ns ∧ ns ≠ [] ∧ is_path d (map node_id ns) ∧
    (∀ n, n ∈ ns → dict_get (node_id n) (d_nodes d) = Some n) ∧
    ∀ l, is_path d l → l ⊆ node_ids d → length l ≤ length ns.
Proof.
  intros Hv Hne. destruct (topological_order_spec d Hv) as (topo&Ht&Hnd&Hp&Hfirst).
  destruct (cp_nodes_spec d topo [] _ Hv Hnd Hp Hfirst (cp_init d topo)) as (st&Hst&Hinv).
  cbn [app] in Hinv. pose proof (cp_keys _ _ _ _ Hinv) as Hk.
  unfold get_critical_path, critical_path_ids. rewrite Ht. cbn [res_bind]. rewrite Hst.
  cbn [res_bind]. destruct (st.1) as [|kv rest] eqn:E.
  { cbn in Hk. subst topo. apply Permutation_nil_l in Hp. unfold node_ids in Hp.
    by destruct (d_nodes d). }
  destruct (first_max_spec rest kv) as [Hin Hmax]. set (best := first_max rest kv) in *.
  assert (NoDup (dict_keys st.1)) as Hnd1 by by rewrite E, Hk.
  assert (∀ k v, (k, v) ∈ st.1 → dist st k = v) as Hdist.
  { intros k v Hkv. apply (dict_get_elem_of _ _ _ Hnd1) in Hkv. by rewrite Hkv. }
  assert (best ∈ st.1) as Hb by by rewrite E.
  assert (dist st best.1 = best.2) as Hbd by (apply Hdist; by destruct best).
  assert (best.1 ∈ topo) as Hbt by (rewrite <-Hk, <-E; by apply list_elem_of_fmap_2).
  pose proof Hbt as (i&Hi)%list_elem_of_lookup.
  destruct (cp_walk_spec d topo st (length topo) best.1 []) as (l&Hl&Hlen&Hpath&Hlt);
    [done|done| |done|intros x Hx; by apply elem_of_nil in Hx|].
  { pose proof (dist_index _ _ _ _ _ Hinv Hnd Hfirst Hi). apply lookup_lt_Some in Hi. lia. }
  rewrite Hl. cbn [res_bind].
  destruct (get_nodes_spec d l (proj1 Hv)) as (ns&Hns&Hids&Hg);
    [intros x Hx; rewrite <-Hp; by apply Hlt|].
  assert (length ns = dist st best.1 + 1) as Hlns.
  { rewrite <-(length_map node_id), Hids, Hlen. done. }
  exists ns. split_and!; [done|by intros ->; cbn in Hlns; lia|by rewrite Hids|done|].
  intros [|p q] Hq Hsub; [cbn; lia|].
  destruct (path_dist d topo st p q Hinv) as (e&Het&Hle); [|done|].
  { intros x Hx. rewrite Hp. by apply Hsub. }
  rewrite <-Hk, <-E in Het. apply list_elem_of_fmap in Het as ([e' v]&->&He).
  cbn [fst] in Hle. rewrite E in He. specialize (Hmax _ He).
  rewrite (Hdist e' v) in Hle by by rewrite E. cbn in *. lia.
Qed.

Lemma critical_path_witness :
  valid_dag (build diamond) ∧
  ∃ ns, get_critical_path (build diamond) = Ok ns ∧ ns ≠ [] ∧
    is_path (build diamond) (map node_id ns) ∧
    (∀ n, n ∈ ns → dict_get (node_id n) (d_nodes (build diamond)) = Some n) ∧
    ∀ l, is_path (build diamond) l → l ⊆ node_ids (build diamond) → length l ≤ length ns.
Proof.
  split; [exact diamond_valid|]. apply (critical_path_longest (build diamond) diamond_valid).
  vm_compute. discriminate.
Defined.
