(* ===== verification/Decompose.v ===== *)
(** * Decompose: from an answer of the language model to a workflow graph

    Models [orchestration/decomposer.py]: the extraction of JSON from an answer,
    the constraints of the declared result, the match of capabilities, the graph
    and the attempts.  The language model is an oracle that answers by the number
    of the attempt; pydantic's coercion of a JSON value to the declared types,
    [str.lower] and [float(str)] are parameters.  The texts of prompts and errors
    are not modelled. *)

From Stdlib Require Import Ascii NArith ZArith Lia.
From stdpp Require Import base tactics strings list gmap.
From S2P Require Import Prelude PyStr Dict PyVal Regex Json JsonLoads Uuid TaskFsm Dag DagTopo DagOps.

#[local] Open Scope nat_scope.

Definition MAX_DECOMPOSITION_RETRIES : nat := 2.

(** ** The declared result *)

Record DecomposedTask := {
  t_id : string;
  t_capability : string;
  t_description : string;
  t_depends_on : list string;
  t_estimated_complexity : string;
}.

Record DecompositionResult := { domain : string; tasks : list DecomposedTask }.

Inductive decompose_exn := ExtractError | LoadsError (e : loads_exn) | ModelError | UnknownCapability | DagError (e : dag_error) | ProviderError.

Definition validate_complexity (v : string) : string :=
  if bool_decide (v ∈ ["low"; "medium"; "high"]) then v else "medium".

Definition validated_task (t : DecomposedTask) : DecomposedTask :=
  {| t_id := t_id t; t_capability := t_capability t; t_description := t_description t;
     t_depends_on := t_depends_on t; t_estimated_complexity := validate_complexity (t_estimated_complexity t) |}.

Section decomposer.
Context (lower : string → string) (float_of_text : string → pyfloat) (is_alnum : N → bool).

(** The fields with their declared types and defaults, before constraints and
    validators *)
Context (coerce : json → option DecompositionResult).

(** [min_length=10] of a description, [min_length=1] of the tasks *)
Definition model_validate (parsed : json) : res decompose_exn DecompositionResult :=
  match coerce parsed with
  | None => Err ModelError
  | Some r =>
      raise_if (bool_decide (tasks r = [])) ModelError ;!
      raise_if (existsb (λ t, length (py_chars (t_description t)) <? 10) (tasks r)) ModelError ;!
      Ok {| domain := domain r; tasks := map validated_task (tasks r) |}
  end.

(** ** _extract_json *)

(** [re.search(r"```(?:json)?\s*\n?(.*?)\n?\s*```", text, re.DOTALL)], the span of
    its group: the first place and the shortest group *)
Definition newline_re : regex := Class (N.eqb 10).
Definition fence_open : regex := cats [lit "```"; Opt (lit "json"); blanks; Opt newline_re].
Definition fence_close : regex := cats [Opt newline_re; blanks; lit "```"].

Definition fenced (s : text) : option (nat * nat) :=
  let n := length s in
  let re_ends := ends (λ _, false) s in
  head (flat_map (λ i, flat_map (λ j,
    map (λ k, (j, k)) (filter (λ k, re_ends fence_close k ≠ []) (seq j (S n - j)))) (re_ends fence_open i)) (seq 0 (S n))).

Definition slice (s : text) (span : nat * nat) : string := text_str (drop span.1 (take span.2 s)).

Fixpoint find_char (c : N) (s : text) : option nat :=
  match s with
  | [] => None
  | x :: s => if (x =? c)%N then Some 0 else S <$> find_char c s
  end.

(** [s.rfind(c)] *)
Definition rfind_char (c : N) (s : text) : option nat :=
  (λ i, length s - S i) <$> find_char c (rev s).

(** [json.loads] whose [JSONDecodeError] lets the next extraction be tried *)
Definition attempt_loads (s : string) (next : res decompose_exn json) : res decompose_exn json :=
  match loads float_of_text s with
  | Ok v => Ok v
  | Err JSONDecodeError => next
  | Err e => Err (LoadsError e)
  end.

Definition _extract_json (answer : string) : res decompose_exn json :=
  let stripped := py_strip answer in
  let s := str_text stripped in
  attempt_loads stripped
    (let braces :=
       match find_char 123 s, rfind_char 125 s with
       | Some first_brace, Some last_brace =>
           if first_brace <? last_brace then attempt_loads (slice s (first_brace, S last_brace)) (Err ExtractError)
           else Err ExtractError
       | _, _ => Err ExtractError
       end in
     match fenced s with
     | Some span => attempt_loads (py_strip (slice s span)) braces
     | None => braces
     end).

(** ** Capabilities *)

Definition normalize_capability (target : string) : string :=
  str_replace " " "-" (str_replace "_" "-" (lower target)).

Definition overlap (a b : list string) : nat := length (filter (λ w, w ∈ b) (remove_dups a)).

(** The first capability with the most words in common *)
Fixpoint best_overlap (words : list string) (best : option string) (best_n : nat) (available : list string) : option string :=
  match available with
  | [] => best
  | cap :: available =>
      let n := overlap words (str_split "-" cap) in
      if best_n <? n then best_overlap words (Some cap) n available else best_overlap words best best_n available
  end.

Definition _fuzzy_match_capability (target : string) (available : list string) : option string :=
  let target_lower := normalize_capability target in
  if bool_decide (target_lower ∈ available) then Some target_lower
  else match filter (λ cap, str_contains target_lower cap || str_contains cap target_lower = true) available with
  | cap :: _ => Some cap
  | [] => best_overlap (str_split "-" target_lower) None 0 available
  end.

Definition with_capability (c : string) (t : DecomposedTask) : DecomposedTask :=
  {| t_id := t_id t; t_capability := c; t_description := t_description t; t_depends_on := t_depends_on t;
     t_estimated_complexity := t_estimated_complexity t |}.

Definition match_capability (available : list string) (t : DecomposedTask) : res decompose_exn DecomposedTask :=
  if bool_decide (t_capability t ∈ available) then Ok t
  else match _fuzzy_match_capability (t_capability t) available with
  | Some c => if str_empty c then Err UnknownCapability else Ok (with_capability c t)
  | None => Err UnknownCapability
  end.

Fixpoint match_capabilities (available : list string) (ts : list DecomposedTask) : res decompose_exn (list DecomposedTask) :=
  match ts with
  | [] => Ok []
  | t :: ts => t <~ match_capability available t; ts <~ match_capabilities available ts; Ok (t :: ts)
  end.

(** ** The attempts *)

Definition node_of (t : DecomposedTask) : DAGNode :=
  {| node_id := t_id t; capability := t_capability t; description := t_description t; depends_on := t_depends_on t;
     estimated_complexity := t_estimated_complexity t; assigned_agent_id := None; task_id := None; status := PENDING;
     output := None; error := None |}.

Definition first_truthy (a b : string) (c : option string) : string :=
  if negb (str_empty a) then a else match c with Some d => if str_empty d then b else d | None => b end.

(** One round of the loop after the model has answered *)
Definition interpret (available_capabilities : list string) (domain_hint : option string) (answer : string)
    : res decompose_exn (DAG * string) :=
  parsed <~ _extract_json answer;
  result <~ model_validate parsed;
  ts <~ match_capabilities available_capabilities (tasks result);
  dag <~ match DAG_init (map node_of ts) with Ok d => Ok d | Err e => Err (DagError e) end;
  Ok (dag, first_truthy (domain result) "general" domain_hint).

(** The remaining attempts from number [i]; the result with the number of calls
    of the language model *)
Fixpoint attempts (llm : nat → option string) (available : list string) (hint : option string) (remaining i : nat)
    : res unit (DAG * string) * nat :=
  match remaining with
  | 0 => (Err tt, i)
  | S remaining =>
      match (match llm i with Some answer => interpret available hint answer | None => Err ProviderError end) with
      | Ok r => (Ok r, S i)
      | Err _ => attempts llm available hint remaining (S i)
      end
  end.

(** [Err tt] is [OrchestrationError]. *)
Definition decompose (llm : nat → option string) (available : list string) (hint : option string)
    : res unit (DAG * string) * nat :=
  attempts llm available hint (1 + MAX_DECOMPOSITION_RETRIES) 0.
End decomposer.

(** ** What comes out *)

Section sound.
Context (lower : string → string) (float_of_text : string → pyfloat) (coerce : json → option DecompositionResult).

Lemma fuzzy_available target available c :
  _fuzzy_match_capability lower target available = Some c → c ∈ available.
Proof.
  unfold _fuzzy_match_capability. case_bool_decide; [by intros [= <-]|].
  destruct (filter _ available) as [|cap l] eqn:E.
  - assert (∀ av best n, (∀ b, best = Some b → b ∈ available) → (∀ x, x ∈ av → x ∈ available) →
      best_overlap (str_split "-" (normalize_capability lower target)) best n av = Some c → c ∈ available) as Hb.
    { clear. induction av as [|x av IH]; intros best n Hbest Hav; cbn [best_overlap]; [by apply Hbest|].
      destruct (n <? _); apply IH; try (intros y Hy; apply Hav; by right); [|done].
      intros b [= <-]. apply Hav. by left. }
    by apply Hb.
  - intros [= <-]. assert (cap ∈ cap :: l) as Hin by by left. rewrite <-E in Hin. by apply list_elem_of_filter in Hin as [_ ?].
Qed.

Lemma match_capability_Ok available t t' :
  match_capability lower available t = Ok t' →
  t_capability t' ∈ available ∧ t' = with_capability (t_capability t') t ∧
  (t_capability t ∈ available → t' = t).
Proof.
  unfold match_capability. case_bool_decide as Hin; [intros [= <-]; by destruct t|].
  destruct (_fuzzy_match_capability lower (t_capability t) available) as [c|] eqn:E; [|done].
  destruct (str_empty c); [done|]. intros [= <-]. apply fuzzy_available in E. by destruct t.
Qed.

Lemma match_capabilities_Ok available ts ts' :
  match_capabilities lower available ts = Ok ts' →
  Forall2 (λ t t', t_capability t' ∈ available ∧ t' = with_capability (t_capability t') t ∧
                   (t_capability t ∈ available → t' = t)) ts ts'.
Proof.
  revert ts'. induction ts as [|t ts IH]; intros ts'; cbn [match_capabilities]; [by intros [= <-]; constructor|].
  intros (t'&Ht%match_capability_Ok&(ts2&Hts%IH&[= <-])%res_bind_Ok)%res_bind_Ok. by constructor.
Qed.

(** What one accepted answer amounts to, with the tasks after the match of
    capabilities *)
Definition accepted (available : list string) (hint : option string) (answer : string) (ts : list DecomposedTask)
    (dag : DAG) (dom : string) : Prop :=
  ∃ parsed r, _extract_json float_of_text answer = Ok parsed ∧ coerce parsed = Some r ∧ ts ≠ [] ∧
    Forall2 (λ t t', t_capability t' ∈ available ∧ 10 ≤ length (py_chars (t_description t')) ∧
                     t' = with_capability (t_capability t') (validated_task t) ∧
                     (t_capability t ∈ available → t_capability t' = t_capability t)) (tasks r) ts ∧
    DAG_init (map node_of ts) = Ok dag ∧ dom = first_truthy (domain r) "general" hint.

Lemma Forall2_with_Forall {A B} (P : A → Prop) (R : A → B → Prop) l k :
  Forall P l → Forall2 R l k → Forall2 (λ a b, P a ∧ R a b) l k.
Proof. intros HP HR. induction HR; [constructor|]. apply Forall_cons in HP as []. constructor; auto. Qed.

Lemma interpret_Ok available hint answer dag dom :
  interpret lower float_of_text coerce available hint answer = Ok (dag, dom) →
  ∃ ts, accepted available hint answer ts dag dom.
Proof.
  unfold interpret.
  intros (parsed&Hp&(result&Hv&(ts&Ht&(d&Hd&[= -> <-])%res_bind_Ok)%res_bind_Ok)%res_bind_Ok)%res_bind_Ok.
  unfold model_validate in Hv. destruct (coerce parsed) as [r|] eqn:Ec; [|done].
  apply res_bind_Ok in Hv as (u1&Hne%raise_if_Ok%bool_decide_eq_false&(u2&Hlen%raise_if_Ok&[= <-])%res_bind_Ok).
  apply match_capabilities_Ok in Ht. cbn [tasks domain] in *. change (map validated_task) with (fmap (M := list) validated_task) in Ht.
  apply Forall2_fmap_l in Ht. exists ts, parsed, r. split_and!; try done.
  - intros ->. by apply Forall2_nil_inv_r in Ht.
  - apply (Forall2_with_Forall (λ t, 10 ≤ length (py_chars (t_description t)))) in Ht.
    + eapply Forall2_impl; [exact Ht|]. intros t t' (Hd10&Hc&He&Hs). split_and!; [done|by rewrite He|done|].
      intros Hin. by rewrite Hs.
    + apply Forall_forall. intros t Hin. apply Nat.nlt_ge. intros Hlt. apply not_true_iff_false in Hlen. apply Hlen.
      apply existsb_exists. exists t. split; [by apply list_elem_of_In|by apply Nat.ltb_lt].
  - by destruct (DAG_init (map node_of ts)); [injection Hd as ->|].
Qed.

(** The nodes of an accepted graph *)
Lemma accepted_nodes available hint answer ts dag dom :
  accepted available hint answer ts dag dom →
  (∀ n, n ∈ nodes dag → capability n ∈ available ∧ 10 ≤ length (py_chars (description n))) ∧
  (∀ id, dict_get id (d_nodes dag) = node_of <$> last (filter (λ t, t_id t = id) ts)) ∧
  (NoDup (map t_id ts) → nodes dag = map node_of ts ∧ valid_dag dag).
Proof.
  intros (parsed&r&_&_&_&Hts&Hd&_). split_and!.
  - assert (dag = build (map node_of ts)) as ->.
    { unfold DAG_init in Hd. apply res_bind_Ok in Hd as (?&_&[= <-]). done. }
    set (P := λ n, capability n ∈ available ∧ 10 ≤ length (py_chars (description n))).
    assert (Forall (λ kv, P kv.2) (d_nodes (build (map node_of ts)))) as HP.
    { destruct (build_spec (map node_of ts) "" "") as (->&_). apply (Forall_dict_of P). rewrite map_map.
      apply Forall_map. clear -Hts. induction Hts as [|t t' l l' (Hc&Hl&_) _ IH]; constructor; [by split|done]. }
    intros n (kv&->&Hkv)%list_elem_of_fmap. rewrite Forall_forall in HP. by apply HP.
  - intros id. unfold DAG_init in Hd. apply res_bind_Ok in Hd as (?&_&[= <-]).
    destruct (build_spec (map node_of ts) "" "") as (->&_). rewrite dict_of_get, map_map. clear.
    induction ts as [|t ts IH] using rev_ind; [done|]. rewrite map_app, !filter_app. cbn [map].
    destruct (decide (t_id t = id)) as [Ht|Ht].
    + by rewrite !filter_cons_True, !filter_nil, !last_snoc by done.
    + by rewrite !filter_cons_False, !filter_nil, !app_nil_r by done.
  - intros Hnd. assert (NoDup (map node_id (map node_of ts))) as Hnd' by by rewrite map_map.
    pose proof (DAG_init_valid _ _ Hnd' Hd) as [-> Hv]. split; [|done]. unfold nodes.
    rewrite build_nodes_id by done. rewrite !map_map. by apply map_ext.
Qed.

Definition attempt_fails (llm : nat → option string) (available : list string) (hint : option string) (i : nat) : Prop :=
  ∀ answer, llm i = Some answer → ∃ e, interpret lower float_of_text coerce available hint answer = Err e.

Lemma attempts_spec llm available hint n i :
  match attempts lower float_of_text coerce llm available hint n i with
  | (Ok (dag, dom), k) =>
      ∃ j, k = S j ∧ i ≤ j < i + n ∧ (∀ a, i ≤ a < j → attempt_fails llm available hint a) ∧
      ∃ answer ts, llm j = Some answer ∧ accepted available hint answer ts dag dom
  | (Err _, k) => k = i + n ∧ ∀ a, i ≤ a < i + n → attempt_fails llm available hint a
  end.
Proof.
  revert i. induction n as [|n IH]; intros i; cbn [attempts]; [split; lia|].
  set (m := match llm i with Some answer => _ | None => _ end).
  destruct m as [[dag dom]|e] eqn:Em; subst m.
  - exists i. split_and!; [done|lia|lia|intros; lia|]. destruct (llm i) as [answer|] eqn:E; [|done].
    apply interpret_Ok in Em as [ts Hts]. by exists answer, ts.
  - assert (attempt_fails llm available hint i) as Hi.
    { intros answer E. rewrite E in Em. by exists e. }
    specialize (IH (S i)). destruct (attempts _ _ _ _ _ _ _ _) as [[[dag dom]|u] k].
    + destruct IH as (j&->&Hj&Hf&H). exists j. split_and!; [done|lia|lia| |done].
      intros a Ha. destruct (decide (a = i)) as [->|]; [done|apply Hf; lia].
    + destruct IH as [-> Hf]. split; [lia|]. intros a Ha. destruct (decide (a = i)) as [->|]; [done|apply Hf; lia].
Qed.
End sound.

(** ** Samples *)

Definition str_field (k : string) (dflt : string) (items : list (pykey * json)) : option string :=
  match dict_get (KStr k) items with Some (JStr s) => Some s | Some _ => None | None => Some dflt end.

(** A coercion for the samples: the declared fields, all others ignored *)
Definition sample_task (v : json) : option DecomposedTask :=
  match v with
  | JObj items =>
      id ← str_field "id" "" items; c ← str_field "capability" "" items; d ← str_field "description" "" items;
      x ← str_field "estimated_complexity" "medium" items;
      deps ← match dict_get (KStr "depends_on") items with
             | Some (JList l) => mapM (λ v, match v with JStr s => Some s | _ => None end) l
             | Some _ => None
             | None => Some []
             end;
      Some {| t_id := id; t_capability := c; t_description := d; t_depends_on := deps; t_estimated_complexity := x |}
  | _ => None
  end.

Definition sample_coerce (v : json) : option DecompositionResult :=
  match v with
  | JObj items =>
      d ← str_field "domain" "" items;
      match dict_get (KStr "tasks") items with
      | Some (JList l) => ts ← mapM sample_task l; Some {| domain := d; tasks := ts |}
      | _ => None
      end
  | _ => None
  end.

Definition sample_answer (tasks : string) : string :=
  quoted ("Here you are:" +:+ String "010" ("```json" +:+ String "010" ("{'tasks': [" +:+ tasks +:+ "]}" +:+ String "010" "```"))).

Definition sample_tasks : string :=
  "{'id': 't1', 'capability': 'Data_Retrieval', 'description': 'fetch the data', 'estimated_complexity': 'huge'}," +:+
  "{'id': 't2', 'capability': 'report-writer', 'description': 'write it all up', 'depends_on': ['t1']}".

Definition sample_decompose (llm : nat → option string) : res unit (DAG * string) * nat :=
  decompose str_lower (λ _, FNonFinite) sample_coerce llm ["data-retrieval"; "report-generation"] (Some "law").

(** The second attempt succeeds; capabilities are matched to those available. *)
Example second_attempt :
  let '(r, calls) := sample_decompose (λ i, if i =? 0 then Some "sorry" else Some (sample_answer sample_tasks)) in
  (res_map (λ p, (map capability (nodes p.1), map estimated_complexity (nodes p.1), p.2)) r, calls) =
  (Ok (["data-retrieval"; "report-generation"], ["medium"; "medium"], "law"), 2).
Proof. vm_compute. reflexivity. Qed.

(** Ids are not checked to be distinct: of two tasks with one id the last is
    kept, with the edges of both. *)
Definition repeated_tasks : string :=
  "{'id': 'a', 'capability': 'data-retrieval', 'description': 'fetch the data'}," +:+
  "{'id': 'b', 'capability': 'data-retrieval', 'description': 'fetch some more', 'depends_on': ['a']}," +:+
  "{'id': 'b', 'capability': 'report-generation', 'description': 'write it all up', 'depends_on': ['a']}".

Example task_lost :
  res_map (λ p, (map description (nodes p.1), adj p.1 "a")) (sample_decompose (λ _, Some (sample_answer repeated_tasks))).1 =
  Ok (["fetch the data"; "write it all up"], ["b"; "b"]).
Proof. vm_compute. reflexivity. Qed.

(** An empty capability is part of every name and becomes the first of them. *)
Example empty_capability : _fuzzy_match_capability str_lower "" ["data-retrieval"; "report-generation"] = Some "data-retrieval".
Proof. reflexivity. Qed.

(** ** Correctness *)

(** C24: a decomposition asks the language model at most three times and returns
    the first answer that is a well-formed decomposition: JSON found in the
    answer, at least one task, descriptions of ten characters, every capability
    one of those available and kept where it was.  The graph has one node for
    each id that a task has, that of the last task with the id; if the ids are
    distinct it has exactly the tasks, in their order, and is closed and acyclic.
    It raises only if all three answers fail. *)
Theorem decompose_sound lower float_of_text coerce llm available hint :
  let fails := attempt_fails lower float_of_text coerce llm available hint in
  match decompose lower float_of_text coerce llm available hint with
  | (Ok (dag, dom), calls) =>
      1 ≤ calls ≤ 3 ∧ (∀ i, i < calls - 1 → fails i) ∧
      ∃ answer ts, llm (calls - 1) = Some answer ∧ accepted float_of_text coerce available hint answer ts dag dom ∧
        (∀ n, n ∈ nodes dag → capability n ∈ available ∧ 10 ≤ length (py_chars (description n))) ∧
        (∀ id, dict_get id (d_nodes dag) = node_of <$> last (filter (λ t, t_id t = id) ts)) ∧
        (NoDup (map t_id ts) → nodes dag = map node_of ts ∧ valid_dag dag)
  | (Err _, calls) => calls = 3 ∧ ∀ i, i < 3 → fails i
  end.
Proof.
  intros fails. unfold decompose. pose proof (attempts_spec lower float_of_text coerce llm available hint (1 + MAX_DECOMPOSITION_RETRIES) 0) as H.
  destruct (attempts _ _ _ _ _ _ _ _) as [[[dag dom]|u] k].
  - destruct H as (j&->&Hj&Hf&answer&ts&Ha&Hacc). unfold MAX_DECOMPOSITION_RETRIES in Hj. split_and!; [lia|lia|intros i Hi; apply Hf; lia|].
    replace (S j - 1) with j by lia. destruct (accepted_nodes _ _ _ _ _ _ _ _ Hacc) as (Hn&Hl&Hv). by exists answer, ts.
  - destruct H as [-> Hf]. split; [done|]. intros i Hi. apply Hf. unfold MAX_DECOMPOSITION_RETRIES. lia.
Qed.
