(* ===== verification/Tasks.v ===== *)
(** * Tasks: manual overrides and tests of task outputs

    Models [services/task_service.py] and [services/task_test_service.py] on the
    rows of [models/task.py] and [models/task_test.py].  An override runs with its
    row locked, so the table is the state.  [str.lower], [str(v)] of a value that
    is not a string, [re.search], [float(str)] and the answer of the language
    model are parameters; ids and the clock are arguments. *)

From Stdlib Require Import Ascii ZArith Lia SpecFloat.
From stdpp Require Import base tactics strings list pretty relations.
From S2P Require Import Prelude PyStr Dict PyVal PyFloat Regex Json JsonLoads Uuid TaskFsm ToolExec.

#[local] Open Scope nat_scope.

(** ** Task rows *)

Record Task := {
  task_id : uuid;
  workflow_id : uuid;
  status : TaskStatus;
  output : option pyval;
  confidence : option spec_float;
  retry_count : nat;
  error_message : option string;
  blocked_reason : option string;
  blocked_by_task_id : option uuid;
  completed_at : option Z;
}.

Inductive task_exn := InvalidAction | TaskNotFound | ActionNotAllowed.

Definition find_task (id : uuid) (ts : list Task) : option Task := snd <$> list_find (λ t, task_id t = id) ts.

Definition put_task (t : Task) (ts : list Task) : list Task := map (λ x, if bool_decide (task_id x = task_id t) then t else x) ts.

Definition get_task (id : uuid) (ts : list Task) : res task_exn Task := res_of_option TaskNotFound (find_task id ts).

Definition get_override_actions (id : uuid) (ts : list Task) : res task_exn (list string) :=
  t <~ get_task id ts;
  Ok (get_valid_override_actions (status t)).

(** [reason or text] *)
Definition reason_or (reason : option string) (text : string) : string :=
  match reason with Some r => if str_empty r then text else r | None => text end.

(** What an accepted action writes besides the status *)
Definition applied (now : Z) (action : string) (reason : option string) (force_output : option (list (string * pyval)))
    (s : TaskStatus) (t : Task) : Task :=
  let upd out conf retries err why by_task done := {|
    task_id := task_id t; workflow_id := workflow_id t; status := s; output := out; confidence := conf; retry_count := retries;
    error_message := err; blocked_reason := why; blocked_by_task_id := by_task; completed_at := done |} in
  if String.eqb action "retry" then
    upd (output t) (confidence t) (S (retry_count t)) None None None (completed_at t)
  else if String.eqb action "skip" then
    upd (output t) (confidence t) (retry_count t) (Some (reason_or reason "Manually skipped")) (blocked_reason t)
      (blocked_by_task_id t) (completed_at t)
  else if String.eqb action "force_complete" then
    upd (match force_output with Some (p :: l) => Some (VDict (p :: l)) | _ => output t end) (Some (f_of_Z 1)) (retry_count t)
      None (blocked_reason t) (blocked_by_task_id t) (Some now)
  else
    upd (output t) (confidence t) (retry_count t) (Some (reason_or reason "Manually cancelled")) (blocked_reason t)
      (blocked_by_task_id t) (completed_at t).

Definition override_task (now : Z) (id : uuid) (action : string) (reason : option string)
    (force_output : option (list (string * pyval))) (ts : list Task) : res task_exn (Task * list Task) :=
  raise_if (negb (bool_decide (action ∈ OVERRIDE_ACTIONS))) InvalidAction ;!
  t <~ get_task id ts;
  raise_if (negb (bool_decide (action ∈ get_valid_override_actions (status t)))) ActionNotAllowed ;!
  s <~ res_catch (validate_transition (status t) action) (λ _, Err ActionNotAllowed);
  let t := applied now action reason force_output s t in
  Ok (t, put_task t ts).

(** ** Tests of outputs *)

Inductive test_status := pass | fail | error | skipped.

Record TaskTest := {
  tt_task_id : uuid;
  test_name : string;
  test_type : string;
  tt_status : test_status;
  assertion : list (string * pyval);
  actual_value : option string;
  tt_error_message : option string;
}.

(** The answer of the judge: [None] where the call fails *)
Section tests.
Context (lower : string → string) (py_str : pyval → string) (re_search_i : string → string → option bool).
Context (float_of_text : string → pyfloat) (judge : option string).

Definition get (k : string) (d : pyval) (m : list (string * pyval)) : pyval := default d (dict_get k m).

Definition to_str (v : pyval) : string := match v with VStr s => s | v => py_str v end.

Definition as_string (v : pyval) : res py_exn string := match v with VStr s => Ok s | _ => Err AttributeError end.

(** [len(v)] *)
Definition py_len (v : pyval) : res py_exn Z :=
  match v with
  | VStr s => Ok (Z.of_nat (length (py_chars s)))
  | VList l => Ok (Z.of_nat (length l))
  | VDict m => Ok (Z.of_nat (length m))
  | _ => Err TypeError
  end.

Definition verdict (b : bool) : test_status := if b then pass else fail.

Definition str_bool (b : bool) : string := if b then "True" else "False".

Definition _eval_assertion (content : pyval) (a : list (string * pyval)) : res py_exn (test_status * string) :=
  let assert_type := get "type" (VStr "contains") a in
  let expected := get "expected" (VStr "") a in
  let is_type s := py_eq assert_type (VStr s) in
  let found :=
    e <~ as_string expected; c <~ as_string content;
    Ok (str_contains (lower e) (lower c)) in
  if is_type "contains" then
    found <~ found;
    Ok (verdict found, "contains '" +:+ to_str expected +:+ "': " +:+ str_bool found)
  else if is_type "not_contains" then
    found <~ found;
    Ok (verdict (negb found), "not_contains '" +:+ to_str expected +:+ "': " +:+ str_bool (negb found))
  else if is_type "equals" then
    c <~ as_string content; e <~ as_string expected;
    let equal := String.eqb (py_strip c) (py_strip e) in
    Ok (verdict equal, "equals: " +:+ str_bool equal)
  else if is_type "min_length" then
    limit <~ py_int expected; n <~ py_len content;
    Ok (verdict (limit <=? n)%Z, "length=" +:+ pretty n +:+ ", min=" +:+ pretty limit)
  else if is_type "max_length" then
    limit <~ py_int expected; n <~ py_len content;
    Ok (verdict (n <=? limit)%Z, "length=" +:+ pretty n +:+ ", max=" +:+ pretty limit)
  else Ok (error, "Unknown assertion type: " +:+ to_str assert_type).

Definition _eval_regex (content : pyval) (a : list (string * pyval)) : res py_exn (test_status * string) :=
  match get "pattern" (VStr "") a, content with
  | VStr p, VStr c =>
      found <~ res_of_option ValueError (re_search_i p c);
      Ok (verdict found, "regex '" +:+ p +:+ "': " +:+ (if found : bool then "matched" else "no match"))
  | _, _ => Err TypeError
  end.

(** The elements a [for] loop takes from a value *)
Definition py_iter (v : pyval) : res py_exn (list pyval) :=
  match v with
  | VList l => Ok l
  | VStr s => Ok (map VStr (py_chars s))
  | VDict m => Ok (map (λ p, VStr p.1) m)
  | _ => Err TypeError
  end.

Fixpoint missing_keys (keys : list pyval) (out : pyval) : res py_exn (list pyval) :=
  match keys with
  | [] => Ok []
  | k :: keys =>
      found <~ py_in k out;
      rest <~ missing_keys keys out;
      Ok (if found : bool then rest else k :: rest)
  end.

Definition _eval_schema (out : pyval) (a : list (string * pyval)) : res py_exn (test_status * string) :=
  let required := get "required_keys" (VList []) a in
  keys <~ py_iter required;
  missing <~ missing_keys keys out;
  match missing with
  | [] => n <~ py_len required; Ok (pass, "all " +:+ pretty n +:+ " required keys present")
  | _ => Ok (fail, "missing keys: " +:+ py_str (VList missing))
  end.

(** [raw] without the fence around it *)
Definition unfence (raw : string) : string :=
  let raw := if str_startswith "```" raw then snd (default ("", raw) (str_cut "010" raw)) else raw in
  let chars := py_chars raw in
  let n := length chars - 3 in
  let raw := if bool_decide (drop n chars = ["`"; "`"; "`"]) then str_join "" (take n chars) else raw in
  py_strip raw.

(** The reasoning is stored as it is: [None] where it is not a string, which the
    column refuses. *)
Definition _eval_llm (content : pyval) (a : list (string * pyval)) : res py_exn (test_status * option string) :=
  let criteria := get "expected_value" (get "criteria" (VStr "") a) a in
  if negb (py_truth criteria) then Ok (error, Some "No evaluation criteria provided in assertion (expected_value)")
  else match content with
  | VStr _ | VList _ =>
      match judge with
      | None => Ok (skipped, Some "LLM evaluation unavailable")
      | Some answer =>
          match loads float_of_text (unfence (py_strip answer)) with
          | Ok (JObj items) =>
              let passed := default (JBool false) (dict_get (KStr "passed") items) in
              let reasoning := default (JStr "No reasoning provided") (dict_get (KStr "reasoning") items) in
              Ok (verdict (json_truth passed), match reasoning with JStr s => Some s | _ => None end)
          | Err JSONDecodeError => Ok (fail, Some ("LLM returned invalid JSON: " +:+ str_take 200 answer))
          | _ => Ok (skipped, Some "LLM evaluation failed")
          end
      end
  | _ => Err TypeError
  end.

(** [task.output or {}], and the content of it *)
Definition output_of (t : Task) : pyval :=
  match output t with Some v => if py_truth v then v else VDict [] | None => VDict [] end.

Definition content_of (out : pyval) : pyval :=
  match out with VDict m => get "content" (VStr "") m | v => VStr (to_str v) end.

Definition evaluate (t : Task) (type : string) (a : list (string * pyval)) : res py_exn (test_status * option string) :=
  let out := output_of t in
  let content := content_of out in
  let text m := res_map (λ p : test_status * string, (p.1, Some p.2)) m in
  if String.eqb type "assertion" then text (_eval_assertion content a)
  else if String.eqb type "regex" then text (_eval_regex content a)
  else if String.eqb type "schema" then text (_eval_schema out a)
  else if String.eqb type "llm_eval" then _eval_llm content a
  else Ok (error, None).

Inductive test_exn := TestTaskNotFound | FlushError.

(** An exception of the evaluation is recorded; its text is [exn_text]. *)
Definition run_test (exn_text : py_exn → string) (id : uuid) (name type : string) (a : list (string * pyval))
    (ts : list Task) (tests : list TaskTest) : res test_exn (TaskTest * list TaskTest) :=
  t <~ res_of_option TestTaskNotFound (find_task id ts);
  let row s v e := {| tt_task_id := id; test_name := name; test_type := type; tt_status := s; assertion := a;
                      actual_value := v; tt_error_message := e |} in
  let known := bool_decide (type ∈ ["assertion"; "regex"; "schema"; "llm_eval"]) in
  match evaluate t type a with
  | Err e => let r := row error None (Some (exn_text e)) in Ok (r, tests ++ [r])
  | Ok (s, v) =>
      if negb known then
        let r := row error None (Some ("Unknown test type: " +:+ type)) in Ok (r, tests ++ [r])
      else match v with
      | None => Err FlushError
      | Some v => let r := row s (Some v) None in Ok (r, tests ++ [r])
      end
  end.

Definition test_status_eqb (a b : test_status) : bool :=
  match a, b with pass, pass | fail, fail | error, error | skipped, skipped => true | _, _ => false end.

Definition count_status (s : test_status) (rows : list TaskTest) : nat :=
  length (List.filter (λ r, test_status_eqb (tt_status r) s) rows).

(** [get_summary]: total, passed, failed, errors, skipped *)
Definition get_summary (id : uuid) (tests : list TaskTest) : nat * nat * nat * nat * nat :=
  let rows := filter (λ r, tt_task_id r = id) tests in
  (length rows, count_status pass rows, count_status fail rows, count_status error rows, count_status skipped rows).
End tests.

(** A test of a task that exists is recorded in one row whatever its evaluation
    raises; only a judge that explains itself in something else than a string
    makes the insertion fail. *)
Lemma run_test_total lower py_str re_search_i float_of_text judge exn_text id name type a ts tests :
  match run_test lower py_str re_search_i float_of_text judge exn_text id name type a ts tests with
  | Ok (r, tests') => tests' = tests ++ [r] ∧ tt_task_id r = id ∧ test_name r = name ∧ assertion r = a
  | Err TestTaskNotFound => find_task id ts = None
  | Err FlushError => type = "llm_eval"
  end.
Proof.
  unfold run_test. destruct (find_task id ts) as [t|] eqn:Hf; [|done]. cbn [res_of_option res_bind].
  destruct (evaluate _ _ _ _ _ _ _ _) as [[s v]|e] eqn:E; [|by split_and!]. case_bool_decide as Hk; cbn [negb]; [|by split_and!].
  destruct v as [v|]; [by split_and!|]. unfold evaluate in E. cbv zeta in E. revert E.
  assert (∀ m : res py_exn (test_status * string), res_map (λ p : test_status * string, (p.1, Some p.2)) m = Ok (s, None) →
    type = "llm_eval") as Htext by by intros [[]|].
  destruct (String.eqb_spec type "assertion"); [apply Htext|]. destruct (String.eqb_spec type "regex"); [apply Htext|].
  destruct (String.eqb_spec type "schema"); [apply Htext|]. destruct (String.eqb_spec type "llm_eval") as [->|Hne]; [done|].
  rewrite !elem_of_cons, elem_of_nil in Hk. tauto.
Qed.

(** ** Histories of overrides *)

Record override := {
  o_now : Z;
  o_task : uuid;
  o_action : string;
  o_reason : option string;
  o_force_output : option (list (string * pyval));
}.

Definition override_result (o : override) (ts : list Task) : res task_exn (Task * list Task) :=
  override_task (o_now o) (o_task o) (o_action o) (o_reason o) (o_force_output o) ts.

(** A refused request changes nothing. *)
Definition after (o : override) (ts : list Task) : list Task :=
  match override_result o ts with Ok (_, ts) => ts | Err _ => ts end.

Definition overridden (os : list override) (ts : list Task) : list Task := foldl (λ ts o, after o ts) ts os.

Definition is_retry_of (id : uuid) (o : override) (ts : list Task) : bool :=
  is_ok (override_result o ts) && bool_decide (o_task o = id) && String.eqb (o_action o) "retry".

Fixpoint accepted_retries (id : uuid) (os : list override) (ts : list Task) : nat :=
  match os with
  | [] => 0
  | o :: os => (if is_retry_of id o ts then 1 else 0) + accepted_retries id os (after o ts)
  end.

(** One request seen from one row *)
Definition moved (retries : nat) (t t' : Task) : Prop :=
  task_id t' = task_id t ∧ workflow_id t' = workflow_id t ∧ rtc step (status t) (status t') ∧
  retry_count t' = retry_count t + retries ∧ (status t ∈ [COMPLETED; SKIPPED] → t' = t).

Lemma moved_refl t : moved 0 t t.
Proof. split_and!; [done..|by rewrite Nat.add_0_r|done]. Qed.

Lemma moved_trans a b t1 t2 t3 : moved a t1 t2 → moved b t2 t3 → moved (a + b) t1 t3.
Proof.
  intros (Hi1&Hw1&Hs1&Hr1&Hf1) (Hi2&Hw2&Hs2&Hr2&Hf2). split_and!; [congruence|congruence|by etrans|lia|].
  intros Hc. pose proof (Hf1 Hc) as ->. by apply Hf2.
Qed.

(** What a request does to the row of its task, field by field *)
Definition granted (o : override) (s : TaskStatus) (t : Task) : Task :=
  let is_action := String.eqb (o_action o) in {|
  task_id := task_id t;
  workflow_id := workflow_id t;
  status := s;
  output := if is_action "force_complete"
            then match o_force_output o with Some (p :: l) => Some (VDict (p :: l)) | _ => output t end else output t;
  confidence := if is_action "force_complete" then Some (f_of_Z 1) else confidence t;
  retry_count := if is_action "retry" then S (retry_count t) else retry_count t;
  error_message := if is_action "skip" then Some (reason_or (o_reason o) "Manually skipped")
                   else if is_action "cancel" then Some (reason_or (o_reason o) "Manually cancelled") else None;
  blocked_reason := if is_action "retry" then None else blocked_reason t;
  blocked_by_task_id := if is_action "retry" then None else blocked_by_task_id t;
  completed_at := if is_action "force_complete" then Some (o_now o) else completed_at t |}.

Definition override_row (t : Task) (o : override) : Task :=
  match validate_transition (status t) (o_action o) with
  | Ok s =>
      if bool_decide (o_action o ∈ OVERRIDE_ACTIONS) && bool_decide (o_action o ∈ get_valid_override_actions (status t))
      then granted o s t else t
  | Err _ => t
  end.

Definition about (id : uuid) (os : list override) : list override := filter (λ o, o_task o = id) os.

Lemma applied_granted o s t :
  o_action o ∈ OVERRIDE_ACTIONS → applied (o_now o) (o_action o) (o_reason o) (o_force_output o) s t = granted o s t.
Proof.
  unfold OVERRIDE_ACTIONS, applied, granted. rewrite !elem_of_cons, elem_of_nil.
  by intros [-> | [-> | [-> | [-> | []]]]].
Qed.

Lemma find_task_Some id ts t : find_task id ts = Some t → t ∈ ts ∧ task_id t = id.
Proof.
  unfold find_task. intros ([i x]&(Hl&Hx&_)%list_find_Some&->)%fmap_Some. by apply list_elem_of_lookup_2 in Hl.
Qed.

Lemma final_refuses s : s ∈ [COMPLETED; SKIPPED] → get_valid_override_actions s = [].
Proof. rewrite !elem_of_cons, elem_of_nil. by intros [-> | [-> | []]]. Qed.

Lemma applied_moves now action reason force s t :
  action ∈ get_valid_override_actions (status t) → validate_transition (status t) action = Ok s →
  moved (if String.eqb action "retry" then 1 else 0) t (applied now action reason force s t).
Proof.
  intros Ha Hs. unfold applied.
  destruct (String.eqb action "retry") eqn:E1; [|destruct (String.eqb action "skip"); [|destruct (String.eqb action "force_complete")]];
    (split_and!; cbn; [done..|apply rtc_once; by exists action|lia|]); intros Hf;
    by rewrite (final_refuses _ Hf) in Ha; apply elem_of_nil in Ha.
Qed.

Lemma override_Ok o ts t' ts' :
  override_result o ts = Ok (t', ts') →
  ∃ t, t ∈ ts ∧ task_id t = o_task o ∧ moved (if String.eqb (o_action o) "retry" then 1 else 0) t t' ∧ ts' = put_task t' ts.
Proof.
  unfold override_result, override_task. intros ([]&_&(t&Ht&H)%res_bind_Ok)%res_bind_Ok.
  apply res_bind_Ok in H as ([]&Ha%raise_if_Ok&H). apply res_bind_Ok in H as (s&Hs%catch_const_Ok&[= <- <-]).
  apply negb_false_iff, bool_decide_eq_true in Ha. unfold get_task in Ht.
  destruct (find_task (o_task o) ts) as [t0|] eqn:Hf; [|done]. injection Ht as ->.
  apply find_task_Some in Hf as [Hin Hid]. exists t. split_and!; [done|done|by apply applied_moves|done].
Qed.

Lemma after_moves o ts :
  NoDup (map task_id ts) →
  Forall2 (λ t t', moved (if is_retry_of (task_id t) o ts then 1 else 0) t t') ts (after o ts).
Proof.
  intros Hnd. unfold after, is_retry_of. destruct (override_result o ts) as [[t' ts']|e] eqn:E; cbn [is_ok andb].
  - apply override_Ok in E as (t&Hin&Hid&Hm&->). unfold put_task. apply Forall2_fmap_r, Forall_Forall2_diag, Forall_forall.
    intros x Hx. unfold compose. assert (task_id t' = o_task o) as Hid' by (by destruct Hm as [-> _]). rewrite Hid'.
    destruct (decide (task_id x = o_task o)) as [Hxi|Hxi].
    + rewrite !bool_decide_true by done. cbn [andb]. assert (x = t) as -> by (eapply (NoDup_map_inj task_id ts); [done..|congruence]). exact Hm.
    + rewrite !bool_decide_false by congruence. apply moved_refl.
  - apply Forall_Forall2_diag, Forall_forall. intros x _. apply moved_refl.
Qed.

Lemma moves_ids n ts ts' : Forall2 (λ t t', moved (n t) t t') ts ts' → map task_id ts' = map task_id ts.
Proof. induction 1 as [|t t' ts ts' [Hi _] _ IH]; [done|]. cbn. by rewrite Hi, IH. Qed.

Lemma overridden_moves os ts :
  NoDup (map task_id ts) → Forall2 (λ t t', moved (accepted_retries (task_id t) os ts) t t') ts (overridden os ts).
Proof.
  unfold overridden. revert ts. induction os as [|o os IH]; intros ts Hnd; cbn [foldl accepted_retries].
  { apply Forall_Forall2_diag, Forall_forall. intros t _. apply moved_refl. }
  pose proof (after_moves o ts Hnd) as H1. pose proof (moves_ids _ _ _ H1) as Hids.
  assert (NoDup (map task_id (after o ts))) as Hnd' by (by rewrite Hids).
  eapply Forall2_compose; [exact H1|exact (IH _ Hnd')|]. intros t1 t2 t3 H12 H23.
  cbn beta in H12, H23. assert (task_id t2 = task_id t1) as E by by destruct H12. rewrite E in H23. by eapply moved_trans.
Qed.

Lemma NoDup_find ts t : NoDup (map task_id ts) → t ∈ ts → find_task (task_id t) ts = Some t.
Proof.
  intros Hnd Hin. unfold find_task. destruct (list_find (λ x, task_id x = task_id t) ts) as [[i x]|] eqn:E.
  - apply list_find_Some in E as (Hl&Hx&_). apply list_elem_of_lookup_2 in Hl. cbn. f_equal.
    by eapply (NoDup_map_inj task_id ts).
  - rewrite list_find_None, Forall_forall in E. by destruct (E t Hin).
Qed.

(** A request changes the row of its task alone. *)
Lemma after_rows o ts :
  NoDup (map task_id ts) → after o ts = map (λ t, if bool_decide (o_task o = task_id t) then override_row t o else t) ts.
Proof.
  intros Hnd. unfold after, override_result, override_task, get_task.
  assert (∀ ts', (∀ t, t ∈ ts → o_task o = task_id t → override_row t o = t) → ts' = ts →
    ts' = map (λ t, if bool_decide (o_task o = task_id t) then override_row t o else t) ts) as Hsame.
  { intros ts' H ->. symmetry. rewrite <-(map_id ts) at 2. apply map_ext_in. intros t Hin%list_elem_of_In.
    case_bool_decide; [by apply H|done]. }
  destruct (bool_decide (o_action o ∈ OVERRIDE_ACTIONS)) eqn:Ha; cbn [negb raise_if res_bind];
    [|apply Hsame; [|done]; intros t _ _; unfold override_row; rewrite Ha; by destruct (validate_transition _ _)].
  destruct (find_task (o_task o) ts) as [t|] eqn:Hf; cbn [res_of_option res_bind].
  - apply find_task_Some in Hf as [Hin Hid].
    destruct (bool_decide (o_action o ∈ get_valid_override_actions (status t))) eqn:Hv; cbn [negb raise_if res_bind].
    + destruct (validate_transition (status t) (o_action o)) as [s|e] eqn:Hs; cbn [res_catch res_bind].
      * unfold put_task. apply map_ext_in. intros x Hx%list_elem_of_In.
        rewrite applied_granted by by apply bool_decide_eq_true in Ha. cbn [granted task_id].
        destruct (decide (task_id x = task_id t)) as [Hxt|Hxt].
        -- assert (x = t) as -> by by eapply (NoDup_map_inj task_id ts). rewrite !bool_decide_true by done.
           unfold override_row. by rewrite Hs, Ha, Hv.
        -- by rewrite !bool_decide_false by congruence.
      * apply Hsame; [|done]. intros x Hx Hxi. assert (x = t) as -> by (eapply (NoDup_map_inj task_id ts); [done..|congruence]).
        unfold override_row. by rewrite Hs.
    + apply Hsame; [|done]. intros x Hx Hxi. assert (x = t) as -> by (eapply (NoDup_map_inj task_id ts); [done..|congruence]).
      unfold override_row. rewrite Hv, andb_false_r. by destruct (validate_transition _ _).
  - apply Hsame; [|done]. intros x Hx Hxi. pose proof (NoDup_find ts x Hnd Hx) as H. rewrite <-Hxi in H. congruence.
Qed.

Lemma override_row_id t o : task_id (override_row t o) = task_id t.
Proof. unfold override_row. destruct (validate_transition _ _); [|done]. by destruct (_ && _). Qed.

Lemma overridden_rows os ts :
  NoDup (map task_id ts) → overridden os ts = map (λ t, foldl override_row t (about (task_id t) os)) ts.
Proof.
  unfold overridden. revert ts. induction os as [|o os IH]; intros ts Hnd; cbn [foldl]; [by rewrite map_id|].
  assert (map task_id (after o ts) = map task_id ts) as Hids by by eapply moves_ids, after_moves.
  rewrite IH by by rewrite Hids. rewrite after_rows, List.map_map by done. apply List.map_ext. intros t.
  unfold about. case_bool_decide as Ho.
  - rewrite filter_cons_True by done. rewrite override_row_id. done.
  - rewrite filter_cons_False by done. done.
Qed.

(** ** Correctness *)

(** C17: whatever overrides are requested, in any order, the table keeps its rows
    and their order, and each row is what the requests for its own task make of
    it, one after the other: a request that is no override or not allowed in the
    task's status changes nothing, and an accepted one writes exactly the fields
    of its action.  So each status follows the table of transitions, the retry
    counter counts exactly the accepted retries of the task, and a task that is
    completed or skipped is never touched again. *)
Theorem override_history os ts (Hids : NoDup (map task_id ts)) :
  overridden os ts = map (λ t, foldl override_row t (about (task_id t) os)) ts ∧
  Forall2 (λ t t', task_id t' = task_id t ∧ workflow_id t' = workflow_id t ∧ rtc step (status t) (status t') ∧
                   retry_count t' = retry_count t + accepted_retries (task_id t) os ts ∧
                   (status t ∈ [COMPLETED; SKIPPED] → t' = t))
    ts (overridden os ts).
Proof. split; [by apply overridden_rows|apply overridden_moves, Hids]. Qed.

Definition sample_uuid (n : N) : uuid := {| uuid_int := n |}.

Definition sample_task (n : N) (s : TaskStatus) : Task := {|
  task_id := sample_uuid n; workflow_id := sample_uuid 9; status := s; output := Some (VDict [("content", VStr "Total: 7")]);
  confidence := None; retry_count := 0; error_message := Some "timeout"; blocked_reason := None; blocked_by_task_id := None;
  completed_at := None |}.

Definition sample_request (n : N) (action : string) : override :=
  {| o_now := 5; o_task := sample_uuid n; o_action := action; o_reason := None; o_force_output := None |}.

Definition sample_requests : list override :=
  [sample_request 1 "retry"; sample_request 1 "retry"; sample_request 2 "retry"; sample_request 1 "force_complete";
   sample_request 1 "cancel"].

Example sample_overridden :
  map (λ t, (status t, retry_count t, error_message t)) (overridden sample_requests [sample_task 1 FAILED; sample_task 2 SKIPPED])
    = [(COMPLETED, 1, None); (SKIPPED, 0, Some "timeout")].
Proof. vm_compute. reflexivity. Qed.

Lemma override_history_witness :
  let ts := [sample_task 1 FAILED; sample_task 2 SKIPPED] in
  overridden sample_requests ts = map (λ t, foldl override_row t (about (task_id t) sample_requests)) ts ∧
  Forall2 (λ t t', task_id t' = task_id t ∧ workflow_id t' = workflow_id t ∧ rtc step (status t) (status t') ∧
                   retry_count t' = retry_count t + accepted_retries (task_id t) sample_requests ts ∧
                   (status t ∈ [COMPLETED; SKIPPED] → t' = t))
    ts (overridden sample_requests ts).
Proof.
  apply (override_history sample_requests [sample_task 1 FAILED; sample_task 2 SKIPPED]).
  apply (bool_decide_eq_true_1 (NoDup _)). vm_compute. reflexivity.
Defined.
