(* ===== verification/Engine.v ===== *)
(** * Engine: the stored-rule policy engine

    Models [safety/policy_engine.py]: validation and evaluation of condition
    trees, the decision over the active rules, the rule store with its Redis
    cache, and the listing.  Conditions and contexts are [pyval]s, so that
    ill-formed ones behave as the code does.  Attribute access on values that
    are not dictionaries is the parameter [py_getattr].  The database session
    is the table of rules; rows that [ORDER BY] leaves tied come in table
    order.  The cached JSON text stands for the rules it was written from.  An
    operation and its commit are one step of [engine_step]; [policy_event] takes
    them apart, with other writers of the table and Redis failing, and bounds how
    old the rules of a decision can be. *)

From Stdlib Require Import Ascii ZArith Lia.
From stdpp Require Import base tactics strings sorting relations list.
From S2P Require Import Prelude PyStr Dict PyVal.

(** ** Condition trees *)

Definition _SUPPORTED_OPS : list string :=
  ["eq"; "ne"; "lt"; "le"; "gt"; "ge"; "in"; "not_in"; "contains"; "exists"].

(** [_OP_DISPATCH[op](v, ref)] *)
Definition _OP_DISPATCH (op : string) (v ref : pyval) : res py_exn bool :=
  if String.eqb op "eq" then Ok (py_eq v ref)
  else if String.eqb op "ne" then Ok (negb (py_eq v ref))
  else if String.eqb op "lt" then py_rich op_lt v ref
  else if String.eqb op "le" then py_rich op_le v ref
  else if String.eqb op "gt" then py_rich op_gt v ref
  else if String.eqb op "ge" then py_rich op_ge v ref
  else if String.eqb op "in" then py_in v ref
  else if String.eqb op "not_in" then res_map negb (py_in v ref)
  else py_in ref v.

(** [all(...)] and [any(...)] over a generator: evaluation stops at the first
    element that decides, so a later exception is not raised. *)
Fixpoint res_all {E} (l : list (res E bool)) : res E bool :=
  match l with
  | [] => Ok true
  | m :: l => b <~ m; if b : bool then res_all l else Ok false
  end.

Fixpoint res_any {E} (l : list (res E bool)) : res E bool :=
  match l with
  | [] => Ok false
  | m :: l => b <~ m; if b : bool then Ok true else res_any l
  end.

(** [op not in _SUPPORTED_OPS]: lists and dictionaries cannot be hashed. *)
Definition check_op (op : pyval) : res py_exn string :=
  match op with
  | VStr s => if bool_decide (s ∈ _SUPPORTED_OPS) then Ok s else Err ValidationError
  | VList _ | VDict _ => Err TypeError
  | _ => Err ValidationError
  end.

(** What the key tests [k in condition] and the accesses that follow do when
    the condition is not a dictionary *)
Definition not_a_dict (condition : pyval) : py_exn :=
  match condition with
  | VStr s =>
      if str_contains "all" s || str_contains "any" s || str_contains "not" s
      then TypeError else AttributeError
  | VList l =>
      if existsb (λ k, existsb (py_eq (VStr k)) l) ["all"; "any"; "not"]
      then TypeError else AttributeError
  | _ => TypeError
  end.

Section conditions.
Context (py_getattr : pyval → string → option pyval).

Fixpoint resolve_parts (parts : list string) (current : pyval) : option pyval :=
  match parts with
  | [] => Some current
  | part :: parts =>
      match current with
      | VDict items => dict_get part items ≫= resolve_parts parts
      | _ => py_getattr current part ≫= resolve_parts parts
      end
  end.

(** [_resolve_field]: [None] is [(False, None)]; a path that is not a string
    has no [split]. *)
Definition _resolve_field (context field_path : pyval) : res py_exn (option pyval) :=
  match field_path with
  | VStr path => Ok (resolve_parts (str_split "."%char path) context)
  | _ => Err AttributeError
  end.

(** The leaf part of [_evaluate_condition] *)
Definition evaluate_leaf (condition : list (string * pyval)) (context : pyval)
    : res py_exn bool :=
  match dict_get "field" condition, dict_get "op" condition with
  | None, _ | _, None | Some VNone, _ | _, Some VNone => Err ValidationError
  | Some field_path, Some op =>
      op <~ check_op op;
      resolved <~ _resolve_field context field_path;
      if String.eqb op "exists" then
        Ok (Bool.eqb (match resolved with Some _ => true | None => false end)
              (py_truth (default (VBool true) (dict_get "value" condition))))
      else
        match resolved with
        | None => Ok false
        | Some v =>
            res_catch (_OP_DISPATCH op v (default VNone (dict_get "value" condition)))
              (λ e, if decide (e = TypeError) then Ok false else Err e)
        end
  end.

(** The value under a combinator key, with the results of evaluating it and
    (if it is a list) its elements *)
Fixpoint _evaluate_condition (condition context : pyval) {struct condition}
    : res py_exn bool :=
  match condition with
  | VDict items =>
      let sub := map (λ '(k, v), (k, (v, _evaluate_condition v context,
        match v with
        | VList l => Some (map (λ c, _evaluate_condition c context) l)
        | _ => None
        end))) items in
      match dict_get "all" sub with
      | Some (_, _, Some children) => res_all children
      | Some (_, _, None) => Err ValidationError
      | None =>
      match dict_get "any" sub with
      | Some (_, _, Some children) => res_any children
      | Some (_, _, None) => Err ValidationError
      | None =>
      match dict_get "not" sub with
      | Some (child, r, _) =>
          if is_dict child then res_map negb r else Err ValidationError
      | None => evaluate_leaf items context
      end end end
  | _ => Err (not_a_dict condition)
  end.
End conditions.

(** Run checks in order until one raises. *)
Fixpoint res_each {E} (l : list (res E unit)) : res E unit :=
  match l with
  | [] => Ok tt
  | m :: l => m ;! res_each l
  end.

Definition validate_leaf (condition : list (string * pyval)) : res py_exn unit :=
  match dict_get "field" condition, dict_get "op" condition with
  | Some _, Some op =>
      op <~ check_op op;
      raise_if (negb (String.eqb op "exists") &&
                match dict_get "value" condition with None => true | Some _ => false end)
        ValidationError
  | _, _ => Err ValidationError
  end.

Fixpoint _validate_condition (condition : pyval) : res py_exn unit :=
  match condition with
  | VDict items =>
      let sub := map (λ '(k, v), (k, (v, _validate_condition v,
        match v with
        | VList ((_ :: _) as l) => Some (map _validate_condition l)
        | _ => None
        end))) items in
      match dict_get "all" sub with
      | Some (_, _, Some children) => res_each children
      | Some (_, _, None) => Err ValidationError
      | None =>
      match dict_get "any" sub with
      | Some (_, _, Some children) => res_each children
      | Some (_, _, None) => Err ValidationError
      | None =>
      match dict_get "not" sub with
      | Some (child, r, _) => if is_dict child then r else Err ValidationError
      | None => validate_leaf items
      end end end
  | _ => Err ValidationError
  end.

(** ** Rules *)

Inductive PolicyAction := ALLOW | DENY | REQUIRE_APPROVAL | FLAG | LOG.
Inductive PolicyRuleType := CONTENT | ACCESS | RESOURCE | WORKFLOW.

#[export] Instance PolicyAction_eq_dec : EqDecision PolicyAction.
Proof. solve_decision. Defined.
#[export] Instance PolicyRuleType_eq_dec : EqDecision PolicyRuleType.
Proof. solve_decision. Defined.

Definition rule_type_value (t : PolicyRuleType) : string :=
  match t with
  | CONTENT => "content" | ACCESS => "access"
  | RESOURCE => "resource" | WORKFLOW => "workflow"
  end.

(** A row of [policy_rules]; [rule_id] is the text of its UUID. *)
Record PolicyRule := {
  rule_id : string;
  rule_name : string;
  rule_description : option string;
  rule_type : PolicyRuleType;
  condition : pyval;
  action : PolicyAction;
  priority : Z;
  enabled : bool;
  created_at : Z;
}.

Definition blocking (a : PolicyAction) : bool := bool_decide (a ∈ [DENY; REQUIRE_APPROVAL]).

(** [order_by(PolicyRule.priority.asc())] and [sort(key=...)] *)
Definition by_priority (rules : list PolicyRule) : list PolicyRule :=
  map snd (kv_sort Z.leb (map (λ r, (priority r, r)) rules)).

(** ** Evaluation *)

Record PolicyViolationDetail := {
  v_rule_name : string;
  v_rule_id : string;
  v_action : PolicyAction;
  v_reason : string;
}.

Record PolicyDecision := {
  approved : bool;
  dec_action : PolicyAction;
  matched_rule : option string;
  dec_reason : string;
  violations : list PolicyViolationDetail;
}.

(** [description or default] *)
Definition desc_or (r : PolicyRule) (text : string) : string :=
  match rule_description r with
  | Some d => if str_empty d then text else d
  | None => text
  end.

(** [action == rule_type or action.startswith(rule_type + ".")] *)
Definition rule_applies (act : string) (r : PolicyRule) : bool :=
  let t := rule_type_value (rule_type r) in
  String.eqb act t || str_startswith (t +:+ ".") act.

Section evaluate.
Context (py_getattr : pyval → string → option pyval).

(** The rule's condition holds; one that raises is logged and skipped. *)
Definition rule_triggers (context : pyval) (r : PolicyRule) : bool :=
  match _evaluate_condition py_getattr (condition r) context with
  | Ok b => b
  | Err _ => false
  end.

Definition violation_of (r : PolicyRule) : PolicyViolationDetail := {|
  v_rule_name := rule_name r;
  v_rule_id := rule_id r;
  v_action := action r;
  v_reason := desc_or r ("Rule '" +:+ rule_name r +:+ "' triggered.") |}.

(** The [for rule in matching_rules] loop, from the violations so far *)
Fixpoint evaluate_rules (context : pyval) (rules : list PolicyRule)
    (violations : list PolicyViolationDetail) : PolicyDecision :=
  match rules with
  | [] => {| approved := true; dec_action := ALLOW; matched_rule := None;
             dec_reason := "No matching policy rules triggered; action allowed by default.";
             violations := violations |}
  | r :: rules =>
      if rule_triggers context r then
        let violations := violations ++ [violation_of r] in
        if blocking (action r) then
          {| approved := bool_decide (action r ∈ [ALLOW; FLAG; LOG]);
             dec_action := action r; matched_rule := Some (rule_name r);
             dec_reason := desc_or r ("Action blocked by policy rule '" +:+ rule_name r +:+ "'.");
             violations := violations |}
        else evaluate_rules context rules violations
      else evaluate_rules context rules violations
  end.

Definition decide_rules (rules : list PolicyRule) (act : string) (context : pyval)
    : PolicyDecision :=
  evaluate_rules context (by_priority (filter (λ r, rule_applies act r = true) rules)) [].

(** ** The store and its cache *)

Record engine := { rows : list PolicyRule; cache : option (list PolicyRule) }.

Inductive engine_error := NotFoundError | Validation (e : py_exn) | IntegrityError.

Definition active_rules (rows : list PolicyRule) : list PolicyRule :=
  by_priority (filter (λ r, enabled r = true) rows).

(** [redis]: whether Redis answers; its failures are logged and ignored. *)
Definition _load_active_rules (redis : bool) (e : engine) : list PolicyRule * engine :=
  match (if redis then cache e else None) with
  | Some rules => (rules, e)
  | None =>
      let rules := active_rules (rows e) in
      (rules, {| rows := rows e; cache := if redis then Some rules else cache e |})
  end.

Definition _invalidate_cache (redis : bool) (e : engine) : engine :=
  {| rows := rows e; cache := if redis then None else cache e |}.

Definition evaluate (redis : bool) (act : string) (context : pyval) (e : engine)
    : PolicyDecision * engine :=
  let '(rules, e) := _load_active_rules redis e in (decide_rules rules act context, e).

Definition check_condition (c : pyval) : res engine_error unit :=
  res_catch (_validate_condition c) (λ x, Err (Validation x)).

(** The unique constraint on [name] *)
Definition name_taken (n : string) (rows : list PolicyRule) : bool :=
  existsb (λ r, String.eqb (rule_name r) n) rows.

(** [data] with the identifier and time the database gives the row *)
Definition create_rule (redis : bool) (data : PolicyRule) (e : engine)
    : res engine_error engine :=
  check_condition (condition data) ;!
  raise_if (name_taken (rule_name data) (rows e)) IntegrityError ;!
  Ok (_invalidate_cache redis {| rows := rows e ++ [data]; cache := cache e |}).

Fixpoint find_rule (id : string) (rows : list PolicyRule) : option PolicyRule :=
  match rows with
  | [] => None
  | r :: rows => if String.eqb (rule_id r) id then Some r else find_rule id rows
  end.

Definition _get_rule_or_raise (id : string) (e : engine) : res engine_error PolicyRule :=
  res_of_option NotFoundError (find_rule id (rows e)).

(** [PolicyRuleUpdate] with its unset fields left out; [Some None] is an
    explicit null. *)
Record PolicyRuleUpdate := {
  u_name : option (option string);
  u_description : option (option string);
  u_rule_type : option (option PolicyRuleType);
  u_condition : option (option pyval);
  u_action : option (option PolicyAction);
  u_priority : option (option Z);
  u_enabled : option (option bool);
}.

Definition no_fields (u : PolicyRuleUpdate) : bool :=
  match u with
  | {| u_name := None; u_description := None; u_rule_type := None; u_condition := None;
       u_action := None; u_priority := None; u_enabled := None |} => true
  | _ => false
  end.

(** [setattr] on a column that is NOT NULL *)
Definition set_col {A} (u : option (option A)) (old : A) : res engine_error A :=
  match u with
  | None => Ok old
  | Some (Some a) => Ok a
  | Some None => Err IntegrityError
  end.

Definition apply_update (u : PolicyRuleUpdate) (r : PolicyRule) : res engine_error PolicyRule :=
  n <~ set_col (u_name u) (rule_name r);
  t <~ set_col (u_rule_type u) (rule_type r);
  c <~ set_col (u_condition u) (condition r);
  a <~ set_col (u_action u) (action r);
  p <~ set_col (u_priority u) (priority r);
  en <~ set_col (u_enabled u) (enabled r);
  Ok {| rule_id := rule_id r; rule_name := n;
        rule_description := default (rule_description r) (u_description u);
        rule_type := t; condition := c; action := a; priority := p; enabled := en;
        created_at := created_at r |}.

Definition replace_rule (r' : PolicyRule) (rows : list PolicyRule) : list PolicyRule :=
  map (λ r, if String.eqb (rule_id r) (rule_id r') then r' else r) rows.

Definition update_rule (redis : bool) (id : string) (u : PolicyRuleUpdate) (e : engine)
    : res engine_error engine :=
  r <~ _get_rule_or_raise id e;
  if no_fields u then Ok e else
    match u_condition u with
    | Some c => check_condition (default VNone c)
    | None => Ok tt
    end ;!
    r' <~ apply_update u r;
    raise_if (name_taken (rule_name r')
      (filter (λ x, rule_id x ≠ rule_id r) (rows e))) IntegrityError ;!
    Ok (_invalidate_cache redis
          {| rows := replace_rule r' (rows e); cache := cache e |}).

Definition set_enabled (b : bool) (r : PolicyRule) : PolicyRule := {|
  rule_id := rule_id r; rule_name := rule_name r; rule_description := rule_description r;
  rule_type := rule_type r; condition := condition r; action := action r;
  priority := priority r; enabled := b; created_at := created_at r |}.

Definition toggle_rule (redis : bool) (id : string) (b : bool) (e : engine)
    : res engine_error engine :=
  r <~ _get_rule_or_raise id e;
  Ok (_invalidate_cache redis
        {| rows := replace_rule (set_enabled b r) (rows e); cache := cache e |}).

(** [ORDER BY priority ASC, created_at DESC] *)
Definition listing_leb (a b : Z * Z) : bool :=
  (a.1 <? b.1)%Z || (a.1 =? b.1)%Z && (b.2 <=? a.2)%Z.

Definition listing_filter (t : option PolicyRuleType) (en : option bool) (r : PolicyRule) : Prop :=
  from_option (λ t, rule_type r = t) True t ∧ from_option (λ b, enabled r = b) True en.

#[export] Instance listing_filter_dec t en r : Decision (listing_filter t en r).
Proof. unfold listing_filter. destruct t, en; simpl; apply _. Defined.

(** The page's items and the total *)
Definition list_rules (page page_size : nat) (t : option PolicyRuleType) (en : option bool)
    (e : engine) : list PolicyRule * nat :=
  let found := filter (listing_filter t en) (rows e) in
  let sorted := map snd (kv_sort listing_leb
                  (map (λ r, ((priority r, created_at r), r)) found)) in
  (take page_size (drop ((page - 1) * page_size) sorted), length found).
End evaluate.

(** ** Lemmas *)

Lemma res_all_ok {E} (l : list (res E bool)) :
  Forall (λ m, ∃ b, m = Ok b) l → ∃ b, res_all l = Ok b.
Proof. induction 1 as [|m l [[] ->] _ IH]; cbn; [by exists true|exact IH|by exists false]. Qed.

Lemma res_any_ok {E} (l : list (res E bool)) :
  Forall (λ m, ∃ b, m = Ok b) l → ∃ b, res_any l = Ok b.
Proof. induction 1 as [|m l [[] ->] _ IH]; cbn; [by exists false|by exists true|exact IH]. Qed.

Lemma res_each_ok {E} (l : list (res E unit)) : res_each l = Ok tt ↔ Forall (λ m, m = Ok tt) l.
Proof.
  induction l as [|[[]|e] l IH]; cbn; [done| |].
  - rewrite IH, Forall_cons. naive_solver.
  - rewrite Forall_cons. naive_solver.
Qed.

Lemma dispatch_err op v ref e : _OP_DISPATCH op v ref = Err e → e = TypeError.
Proof.
  unfold _OP_DISPATCH. repeat (destruct (String.eqb op _); [|]); intros H;
    try done; try (by eapply py_rich_err); try (by eapply py_in_err).
  destruct (py_in v ref) eqn:E; [done|]. cbn in H. injection H as <-. by eapply py_in_err.
Qed.

(** Every leaf that is evaluated names its field by a string. *)
Fixpoint string_fields (c : pyval) : bool :=
  match c with
  | VDict items =>
      let sub := map (λ '(k, v), (k, (string_fields v,
        match v with VList l => forallb string_fields l | _ => true end))) items in
      match dict_get "all" sub with
      | Some (_, b) => b
      | None =>
      match dict_get "any" sub with
      | Some (_, b) => b
      | None =>
      match dict_get "not" sub with
      | Some (b, _) => b
      | None => match dict_get "field" items with Some (VStr _) => true | _ => false end
      end end end
  | _ => true
  end.

Lemma evaluate_leaf_ok ga items ctx :
  validate_leaf items = Ok tt →
  (∃ s, dict_get "field" items = Some (VStr s)) → ∃ b, evaluate_leaf ga items ctx = Ok b.
Proof.
  unfold validate_leaf, evaluate_leaf. intros Hv [s Hs]. rewrite Hs in *.
  destruct (dict_get "op" items) as [op|]; [|done].
  apply res_bind_Ok in Hv as (o&Ho&_). rewrite Ho. cbn [res_bind].
  assert (op ≠ VNone) as Hn by by intros ->.
  destruct (String.eqb o "exists"); cbn [_resolve_field res_bind];
    [destruct op; try done; by eexists|].
  destruct op; try done; (destruct (resolve_parts _ _ _) as [v|]; [|by eexists]);
  match goal with |- ∃ b, res_catch ?m _ = _ => destruct m eqn:E; cbn; [by eexists|] end;
  apply dispatch_err in E as ->; by eexists.
Qed.

Lemma validated_ok ga c ctx :
  _validate_condition c = Ok tt → string_fields c = true →
  ∃ b, _evaluate_condition ga c ctx = Ok b.
Proof.
  induction c as [v Hv|l _|items IH] using pyval_ind'; [by destruct v|done|].
  assert (∀ k v, dict_get k items = Some v → with_elems (λ c, _validate_condition c = Ok tt →
    string_fields c = true → ∃ b, _evaluate_condition ga c ctx = Ok b) v) as HIH.
  { intros k v Hk. apply dict_get_Some_elem in Hk.
    by apply (proj1 (Forall_forall _ _) IH (k, v)). }
  clear IH. cbn [_validate_condition string_fields _evaluate_condition]. cbv zeta.
  rewrite !(dict_get_map (λ v, (_, _))).
  assert (∀ v (l : list pyval), v = VList l → with_elems (λ c, _validate_condition c = Ok tt →
    string_fields c = true → ∃ b, _evaluate_condition ga c ctx = Ok b) v →
    Forall (λ m, m = Ok tt) (map _validate_condition l) → forallb string_fields l = true →
    Forall (λ m, ∃ b, m = Ok b) (map (λ c, _evaluate_condition ga c ctx) l)) as Hlist.
  { intros v l -> [_ Hl] Hv Hs. apply List.Forall_map in Hv. apply List.Forall_map. rewrite forallb_forall in Hs.
    rewrite Forall_forall in *. intros c Hc. apply Hl; [done|by apply Hv|].
    by apply Hs, list_elem_of_In. }
  destruct (dict_get "all" items) as [v|] eqn:Eall; cbn [fmap option_fmap option_map].
  { destruct v as [| | | | |[|x l]| |]; try done. rewrite res_each_ok.
    intros Hv Hs. apply res_all_ok. apply (Hlist _ (x :: l) eq_refl (HIH _ _ Eall));
      [exact Hv|exact Hs]. }
  destruct (dict_get "any" items) as [v|] eqn:Eany; cbn [fmap option_fmap option_map].
  { destruct v as [| | | | |[|x l]| |]; try done. rewrite res_each_ok.
    intros Hv Hs. apply res_any_ok. apply (Hlist _ (x :: l) eq_refl (HIH _ _ Eany));
      [exact Hv|exact Hs]. }
  destruct (dict_get "not" items) as [v|] eqn:Enot; cbn [fmap option_fmap option_map].
  { destruct (is_dict v); [|done]. intros Hv Hs.
    destruct (HIH _ _ Enot) as [Hok _]. destruct (Hok Hv Hs) as [b ->]. by eexists. }
  intros Hv Hs. apply evaluate_leaf_ok; [done|].
  destruct (dict_get "field" items) as [[]|]; try done. by eexists.
Qed.

Lemma by_priority_perm l : by_priority l ≡ₚ l.
Proof.
  unfold by_priority. rewrite kv_sort_perm, map_map. cbn. by rewrite map_id.
Qed.

Lemma by_priority_sorted l :
  StronglySorted (λ r r', (priority r <= priority r')%Z) (by_priority l).
Proof.
  unfold by_priority.
  pose proof (kv_sort_sorted Z.leb ltac:(intros; rewrite !Z.leb_le; lia)
    ltac:(intros ???; rewrite !Z.leb_le; lia) (map (λ r, (priority r, r)) l)) as Hs.
  assert (Forall (λ p, p.1 = priority p.2) (kv_sort Z.leb (map (λ r, (priority r, r)) l))) as Hp.
  { rewrite kv_sort_perm. apply List.Forall_map. by apply Forall_true. }
  induction Hs as [|p ps Hs IH Hle]; [constructor|].
  apply Forall_cons in Hp as [Hp0 Hp]. cbn. constructor; [by apply IH|].
  apply List.Forall_map. rewrite Forall_forall in *. intros q Hq.
  specialize (Hle q Hq). specialize (Hp q Hq). unfold kv_le in Hle.
  apply Z.leb_le in Hle. congruence.
Qed.

Lemma blocking_not_allowed a : blocking a = true → bool_decide (a ∈ [ALLOW; FLAG; LOG]) = false.
Proof. by destruct a. Qed.

Lemma evaluate_rules_spec ga ctx rules vs :
  let d := evaluate_rules ga ctx rules vs in
  (approved d = true ∧ dec_action d = ALLOW ∧ matched_rule d = None ∧
    (∀ r, r ∈ rules → rule_triggers ga ctx r = true → blocking (action r) = false) ∧
    violations d = vs ++ map violation_of (filter (λ r, rule_triggers ga ctx r = true) rules)) ∨
  ∃ l1 r l2, rules = l1 ++ r :: l2 ∧ rule_triggers ga ctx r = true ∧
    blocking (action r) = true ∧
    (∀ r', r' ∈ l1 → rule_triggers ga ctx r' = true → blocking (action r') = false) ∧
    approved d = false ∧ dec_action d = action r ∧ matched_rule d = Some (rule_name r) ∧
    violations d = vs ++ map violation_of (filter (λ r, rule_triggers ga ctx r = true) l1)
                      ++ [violation_of r].
Proof.
  revert vs. induction rules as [|r rules IH]; intros vs; cbn [evaluate_rules].
  { left. cbn. rewrite app_nil_r. split_and!; [done..| |done].
    intros r Hr. by apply elem_of_nil in Hr. }
  destruct (rule_triggers ga ctx r) eqn:Et.
  - destruct (blocking (action r)) eqn:Eb.
    + right. exists [], r, rules. cbn. split_and!; try done.
      * intros r' Hr'. by apply elem_of_nil in Hr'.
      * by apply blocking_not_allowed.
    + destruct (IH (vs ++ [violation_of r])) as [(H1&H2&H3&H4&H5)|(l1&r1&l2&->&H)].
      * left. rewrite filter_cons_True, H5, <-app_assoc by done. split_and!; try done.
        intros r' [->|Hr']%elem_of_cons; [done|by apply H4].
      * right. destruct H as (H1&H2&H3&H4&H5&H6&H7). exists (r :: l1), r1, l2.
        rewrite filter_cons_True, H7, <-app_assoc by done. split_and!; try done.
        intros r' [->|Hr']%elem_of_cons; [done|by apply H3].
  - destruct (IH vs) as [(H1&H2&H3&H4&H5)|(l1&r1&l2&->&H)].
    + left. rewrite filter_cons_False by congruence. split_and!; try done.
      intros r' [->|Hr']%elem_of_cons; [congruence|by apply H4].
    + right. destruct H as (H1&H2&H3&H4&H5&H6&H7). exists (r :: l1), r1, l2.
      rewrite filter_cons_False by congruence. split_and!; try done.
      intros r' [->|Hr']%elem_of_cons; [congruence|by apply H3].
Qed.

(** The rule takes part in the decision on the action and its condition holds. *)
Definition fires ga (act : string) (ctx : pyval) (r : PolicyRule) : Prop :=
  rule_applies act r = true ∧ rule_triggers ga ctx r = true.

Lemma decide_blocked ga rules act ctx :
  let d := decide_rules ga rules act ctx in
  (approved d = true ∧ ∀ r, r ∈ rules → fires ga act ctx r → blocking (action r) = false) ∨
  (approved d = false ∧ ∃ r, r ∈ rules ∧ fires ga act ctx r ∧ blocking (action r) = true ∧
    dec_action d = action r ∧ matched_rule d = Some (rule_name r) ∧
    ∀ r', r' ∈ rules → fires ga act ctx r' → blocking (action r') = true →
      (priority r <= priority r')%Z).
Proof.
  set (l := by_priority (filter (λ r, rule_applies act r = true) rules)).
  assert (∀ r, r ∈ l ↔ rule_applies act r = true ∧ r ∈ rules) as Hl.
  { intros r. unfold l. by rewrite by_priority_perm, list_elem_of_filter. }
  pose proof (by_priority_sorted (filter (λ r, rule_applies act r = true) rules)) as Hs.
  fold l in Hs. unfold decide_rules. fold l. cbv zeta.
  destruct (evaluate_rules_spec ga ctx l []) as [(Ha&_&_&Hall&_)|(l1&r&l2&E&Ht&Hb&Hl1&Ha&Hd&Hm&_)].
  - left. split; [done|]. intros r Hr [Hap Ht]. apply Hall; [by apply Hl|done].
  - right. split; [done|]. exists r.
    assert (r ∈ l) as Hr by (rewrite E; apply elem_of_app; right; by left).
    apply Hl in Hr as [Hap Hr]. split_and!; try done.
    intros r' Hr' [Hap' Ht'] Hb'. assert (r' ∈ l) as Hin by by apply Hl.
    rewrite E in Hin, Hs. apply elem_of_app in Hin as [Hin|[->|Hin]%elem_of_cons]; [|done|].
    { rewrite (Hl1 r' Hin Ht') in Hb'. done. }
    clear -Hs Hin. induction l1 as [|x l1 IH]; cbn in Hs.
    + apply StronglySorted_inv in Hs as [_ Hs]. by apply (proj1 (Forall_forall _ _) Hs).
    + apply StronglySorted_inv in Hs as [Hs _]. by apply IH.
Qed.

(** ** The store *)

(** What Redis holds is what the table gives. *)
Definition coherent (e : engine) : Prop :=
  ∀ rules, cache e = Some rules → rules = active_rules (rows e).

Definition conditions_ok (rs : list PolicyRule) : Prop :=
  Forall (λ r, _validate_condition (condition r) = Ok tt) rs.

(** One call while Redis answers, or the cache entry expiring *)
Inductive engine_step (ga : pyval → string → option pyval) (e : engine) : engine → Prop :=
  | step_evaluate act ctx : engine_step ga e (evaluate ga true act ctx e).2
  | step_create data e' : create_rule true data e = Ok e' → engine_step ga e e'
  | step_update id u e' : update_rule true id u e = Ok e' → engine_step ga e e'
  | step_toggle id b e' : toggle_rule true id b e = Ok e' → engine_step ga e e'
  | step_expire : engine_step ga e {| rows := rows e; cache := None |}.

Lemma load_active redis e : coherent e →
  (_load_active_rules redis e).1 = active_rules (rows e) ∧
  rows (_load_active_rules redis e).2 = rows e ∧ coherent (_load_active_rules redis e).2.
Proof.
  intros Hc. unfold _load_active_rules. destruct redis.
  - destruct (cache e) as [rules|] eqn:E; cbn; [split_and!; [by apply Hc|done|done]|].
    split_and!; [done..|]. intros rules [= <-]. done.
  - split_and!; [done..|]. intros rules. apply Hc.
Qed.

Lemma find_rule_elem id rs r : find_rule id rs = Some r → r ∈ rs ∧ rule_id r = id.
Proof.
  induction rs as [|r' rs IH]; cbn; [done|].
  destruct (String.eqb_spec (rule_id r') id).
  - intros [= ->]. split; [by left|done].
  - intros H. destruct (IH H). split; [by right|done].
Qed.

Lemma set_col_Ok {A} (u : option (option A)) old a :
  set_col u old = Ok a → (u = None ∧ a = old) ∨ u = Some (Some a).
Proof. destruct u as [[]|]; cbn; intros; simplify_eq; [by right|by left]. Qed.

Lemma replace_rule_ok r rs :
  conditions_ok rs → _validate_condition (condition r) = Ok tt →
  conditions_ok (replace_rule r rs).
Proof.
  intros Hrs Hr. apply List.Forall_map. eapply Forall_impl; [exact Hrs|].
  intros r' Hr'. by destruct (String.eqb _ _).
Qed.

Lemma apply_update_condition u r r' :
  apply_update u r = Ok r' →
  (u_condition u = None ∧ condition r' = condition r) ∨ u_condition u = Some (Some (condition r')).
Proof.
  unfold apply_update. intros H.
  repeat (apply res_bind_Ok in H as (?&?&H)). injection H as <-. cbn.
  by apply set_col_Ok.
Qed.

Lemma check_condition_Ok c u : check_condition c = Ok u → _validate_condition c = Ok tt.
Proof. unfold check_condition. destruct (_validate_condition c) as [[]|]; done. Qed.

Lemma engine_step_inv ga e e' :
  engine_step ga e e' → coherent e ∧ conditions_ok (rows e) →
  coherent e' ∧ conditions_ok (rows e').
Proof.
  intros Hs [Hc Hok]. destruct Hs as [act ctx|data e' H|id u e' H|id b e' H|].
  - unfold evaluate. pose proof (load_active true e Hc) as (_&Hr&Hc').
    destruct (_load_active_rules true e) as [rules e1]. cbn in *. by rewrite Hr.
  - apply res_bind_Ok in H as (?&Hv%check_condition_Ok&H).
    apply res_bind_Ok in H as (?&_&[= <-]). split; [done|]. cbn.
    apply Forall_app. split; [done|]. by constructor.
  - apply res_bind_Ok in H as (r&Hr&H). destruct (no_fields u); [by injection H as <-|].
    apply res_bind_Ok in H as (?&Hv&H). apply res_bind_Ok in H as (r'&Hu&H).
    apply res_bind_Ok in H as (?&_&[= <-]). split; [done|]. cbn.
    apply replace_rule_ok; [done|].
    unfold _get_rule_or_raise in Hr. destruct (find_rule id (rows e)) eqn:E; [|done].
    injection Hr as ->. apply find_rule_elem in E as [Hin _].
    destruct (apply_update_condition u r r' Hu) as [[_ ->]|Hc'].
    + by apply (proj1 (Forall_forall _ _) Hok).
    + rewrite Hc' in Hv. by apply check_condition_Ok in Hv.
  - apply res_bind_Ok in H as (r&Hr&[= <-]). split; [done|]. cbn.
    apply replace_rule_ok; [done|]. cbn.
    unfold _get_rule_or_raise in Hr. destruct (find_rule id (rows e)) eqn:E; [|done].
    injection Hr as ->. apply find_rule_elem in E as [Hin _].
    by apply (proj1 (Forall_forall _ _) Hok).
  - by split.
Qed.

Lemma engine_reach_inv ga e e' :
  rtc (engine_step ga) e e' → coherent e ∧ conditions_ok (rows e) →
  coherent e' ∧ conditions_ok (rows e').
Proof. induction 1 as [|e e1 e2 Hs _ IH]; [done|]. intros H. by eapply IH, engine_step_inv. Qed.

(** ** Everybody at once

    What the processes share: the committed table and what it was before, with the
    time each version was replaced, the key in Redis with its deadline, and the rules
    that loads in flight have read, with the time they read them.  Times are
    milliseconds. *)
Record shared := {
  now : Z;
  table : list PolicyRule;
  past : list (Z * list PolicyRule);
  key : option (list PolicyRule * Z);
  loads : list (list PolicyRule * Z);
}.

Definition _CACHE_TTL : Z := 300000.

(** What an engine finds there *)
Definition view (s : shared) : engine := {|
  rows := table s;
  cache := match key s with Some (rules, deadline) => if (now s <? deadline)%Z then Some rules else None | None => None end |}.

(** What can happen.  Anybody may commit any change of the table, an engine or the
    service of PolicyService.v, which leaves the key alone.  An engine deletes the key
    when it flushes its change, before it commits, or not at all where Redis fails.  A
    load reads the committed table and writes the key later, at most [gap] later, or
    fails to. *)
Inductive policy_event (gap : Z) (s : shared) : shared → Prop :=
  | ev_time d : (0 <= d)%Z → Forall (λ l, (now s + d <= l.2 + gap)%Z) (loads s) →
      policy_event gap s {| now := now s + d; table := table s; past := past s; key := key s; loads := loads s |}
  | ev_commit rows' :
      policy_event gap s {| now := now s; table := rows'; past := (now s, table s) :: past s; key := key s; loads := loads s |}
  | ev_invalidate :
      policy_event gap s {| now := now s; table := table s; past := past s; key := None; loads := loads s |}
  | ev_read :
      policy_event gap s {| now := now s; table := table s; past := past s; key := key s;
                            loads := (active_rules (table s), now s) :: loads s |}
  | ev_write rules t ls : loads s ≡ₚ (rules, t) :: ls →
      policy_event gap s {| now := now s; table := table s; past := past s;
                            key := Some (rules, now s + _CACHE_TTL)%Z; loads := ls |}
  | ev_give_up l ls : loads s ≡ₚ l :: ls →
      policy_event gap s {| now := now s; table := table s; past := past s; key := key s; loads := ls |}.

(** [rs] is the table, or was until [t] or later. *)
Definition current_since (t : Z) (rs : list PolicyRule) (s : shared) : Prop :=
  rs = table s ∨ ∃ u, (u, rs) ∈ past s ∧ (t <= u)%Z.

Definition rules_since (t : Z) (rules : list PolicyRule) (s : shared) : Prop :=
  ∃ rs, rules = active_rules rs ∧ current_since t rs s.

(** Nothing in Redis or on its way there is older than it may be. *)
Definition fresh_key (gap : Z) (s : shared) (k : list PolicyRule * Z) : Prop :=
  (k.2 - _CACHE_TTL - gap <= now s)%Z ∧ rules_since (k.2 - _CACHE_TTL - gap) k.1 s.

Definition fresh_load (gap : Z) (s : shared) (l : list PolicyRule * Z) : Prop :=
  (l.2 <= now s <= l.2 + gap)%Z ∧ rules_since l.2 l.1 s.

Definition fresh_cache (gap : Z) (s : shared) : Prop :=
  from_option (fresh_key gap s) True (key s) ∧ Forall (fresh_load gap s) (loads s).

Lemma rules_since_commit t rules s rows' :
  (t <= now s)%Z → rules_since t rules s →
  rules_since t rules {| now := now s; table := rows'; past := (now s, table s) :: past s; key := key s; loads := loads s |}.
Proof.
  intros Ht (rs&->&[->|(u&Hu&Hle)]); [exists (table s)|exists rs]; (split; [done|right]).
  - exists (now s). split; [left|done].
  - exists u. split; [by right|done].
Qed.

Lemma rules_since_weaken t t' rules s : (t' <= t)%Z → rules_since t rules s → rules_since t' rules s.
Proof. intros Ht (rs&?&[?|(u&?&?)]); exists rs; (split; [done|]); [by left|right; exists u; split; [done|lia]]. Qed.

Lemma policy_event_fresh gap s s' : (0 <= gap)%Z → policy_event gap s s' → fresh_cache gap s → fresh_cache gap s'.
Proof.
  intros Hg Hs [Hk Hl]. destruct Hs as [d Hd Hls|rows'| | |rules t ls Hp|l ls Hp]; split; cbn [key loads] in *.
  - destruct (key s) as [k|]; [|done]. destruct Hk. split; [cbn; lia|done].
  - apply Forall_forall. intros l Hin. rewrite Forall_forall in Hl, Hls. specialize (Hls l Hin).
    destruct (Hl l Hin). split; [cbn; lia|done].
  - destruct (key s) as [k|]; [|done]. destruct Hk. split; [done|by apply rules_since_commit].
  - eapply Forall_impl; [exact Hl|]. intros l [? ?]. split; [done|]. apply rules_since_commit; [lia|done].
  - done.
  - done.
  - done.
  - constructor; [|done]. split; [cbn; lia|]. exists (table s). split; [done|by left].
  - rewrite Hp in Hl. apply Forall_cons in Hl as [[? Ht] _]. cbn [fst snd] in *. split; cbn [now fst snd]; [lia|].
    eapply rules_since_weaken; [|exact Ht]. lia.
  - rewrite Hp in Hl. by apply Forall_cons in Hl as [_ Hl].
  - done.
  - rewrite Hp in Hl. by apply Forall_cons in Hl as [_ Hl].
Qed.

Lemma fresh_evaluate ga gap s redis act ctx :
  (0 <= gap)%Z → fresh_cache gap s →
  ∃ rs, current_since (now s - _CACHE_TTL - gap) rs s ∧
    (evaluate ga redis act ctx (view s)).1 = decide_rules ga (active_rules rs) act ctx.
Proof.
  intros Hg [Hk _]. unfold evaluate, _load_active_rules, view. cbn [cache rows].
  destruct redis; [|exists (table s); split; [by left|done]].
  destruct (key s) as [[rules deadline]|]; [|exists (table s); split; [by left|done]].
  destruct (Z.ltb_spec (now s) deadline); [|exists (table s); split; [by left|done]].
  destruct Hk as [_ (rs&Hrs&Hc)]. cbn [fst snd] in *. subst rules. exists rs. split; [|done].
  destruct Hc as [?|(u&?&?)]; [by left|right; exists u; split; [done|lia]].
Qed.

(** ** Theorems *)

(** C38: validation is sound: a condition accepted when a rule is stored, whose
    leaves name their field by a string, never raises when it is evaluated,
    whatever the context: the rule is never silently skipped. *)
Theorem validated_never_raises ga c ctx :
  _validate_condition c = Ok tt → string_fields c = true →
  ∃ b, _evaluate_condition ga c ctx = Ok b.
Proof. exact (validated_ok ga c ctx). Qed.

(** The two example conditions of the module's documentation *)
Definition low_trust : pyval :=
  VDict [("field", VStr "agent.trust_score"); ("op", VStr "lt"); ("value", VFloat float_half)].
Definition sample_condition : pyval :=
  VDict [("all", VList [low_trust;
    VDict [("any", VList [VDict [("field", VStr "action_type"); ("op", VStr "eq"); ("value", VStr "write")];
                          VDict [("not", VDict [("field", VStr "x"); ("op", VStr "exists")])]])]])].

Lemma validated_witness :
  _validate_condition sample_condition = Ok tt ∧ string_fields sample_condition = true ∧
  ∃ b, _evaluate_condition (λ _ _, None) sample_condition (VDict []) = Ok b.
Proof.
  split; [reflexivity|]. split; [reflexivity|].
  apply (validated_never_raises (λ _ _, None) sample_condition (VDict [])); reflexivity.
Defined.

(** The gap: a null field passes validation and then always raises, so that a
    DENY rule with this condition never denies. *)
Definition null_field : pyval :=
  VDict [("field", VNone); ("op", VStr "eq"); ("value", VInt 1)].

Example null_field_gap ga ctx :
  _validate_condition null_field = Ok tt ∧
  _evaluate_condition ga null_field ctx = Err ValidationError.
Proof. split; reflexivity. Qed.

(** The decision.  The engine approves exactly when no applicable rule
    whose condition holds is a DENY or REQUIRE_APPROVAL rule; otherwise it
    answers with the action and the name of such a rule of the smallest
    priority number. *)
Theorem decide_rules_spec ga rules act ctx :
  let d := decide_rules ga rules act ctx in
  (approved d = true ↔ ∀ r, r ∈ rules → fires ga act ctx r → blocking (action r) = false) ∧
  (approved d = false → ∃ r, r ∈ rules ∧ fires ga act ctx r ∧ blocking (action r) = true ∧
    dec_action d = action r ∧ matched_rule d = Some (rule_name r) ∧
    ∀ r', r' ∈ rules → fires ga act ctx r' → blocking (action r') = true →
      (priority r <= priority r')%Z).
Proof.
  cbv zeta. destruct (decide_blocked ga rules act ctx) as [[-> Hall]|[-> Hex]]; split; try done.
  split; [done|]. intros Hall. destruct Hex as (r&Hr&Hf&Hb&_).
  by rewrite (Hall r Hr Hf) in Hb.
Qed.

(** C37: what the cache can change.  When only the engine's own operations change
    the table, each together with its commit and with Redis answering, an evaluation
    after any sequence of evaluations, changes and expiries of the key decides (with
    Redis up or down) over the enabled rules of the table, all of whose conditions
    are structurally valid.  In general, when anybody changes the table, the service
    that never deletes the key included, when a change is committed after its
    deletion of the key, when Redis fails, and when loads take up to [gap] between
    the database and Redis, an evaluation decides over the enabled rules of a table
    that is current or was replaced no longer than five minutes and [gap] ago. *)
Theorem cache_transparent ga :
  (∀ e e' redis act ctx,
     coherent e → conditions_ok (rows e) → rtc (engine_step ga) e e' →
     (evaluate ga redis act ctx e').1 = decide_rules ga (active_rules (rows e')) act ctx ∧
     conditions_ok (rows e')) ∧
  (∀ gap s s' redis act ctx,
     (0 <= gap)%Z → key s = None → loads s = [] → rtc (policy_event gap) s s' →
     ∃ rs, current_since (now s' - _CACHE_TTL - gap) rs s' ∧
       (evaluate ga redis act ctx (view s')).1 = decide_rules ga (active_rules rs) act ctx).
Proof.
  split.
  - intros e e' redis act ctx Hc Hok Hr. destruct (engine_reach_inv ga e e' Hr (conj Hc Hok)) as [Hc' Hok'].
    split; [|done]. unfold evaluate. destruct (load_active redis e' Hc') as (Hl&_).
    destruct (_load_active_rules redis e') as [rules e1]. cbn in *. by rewrite Hl.
  - intros gap s s' redis act ctx Hg Hk Hl Hr. apply fresh_evaluate; [done|].
    assert (fresh_cache gap s) as Hs by (split; [by rewrite Hk|rewrite Hl; constructor]).
    clear Hk Hl. induction Hr as [|s s1 s2 Hst _ IH]; [done|]. by eapply IH, policy_event_fresh.
Qed.

Definition sample_rule : PolicyRule := {|
  rule_id := "r1"; rule_name := "low trust"; rule_description := None; rule_type := ACCESS;
  condition := low_trust; action := DENY; priority := 10; enabled := true; created_at := 0 |}.

(** The service creates the rule after an engine has cached the empty table. *)
Definition untrusted : pyval := VDict [("agent", VDict [("trust_score", VInt 0)])].

Definition at_first : shared := {| now := 0; table := []; past := []; key := None; loads := [] |}.
Definition rule_unseen (t : Z) : shared :=
  {| now := t; table := [sample_rule]; past := [(0%Z, [])]; key := Some ([], _CACHE_TTL); loads := [] |}.

Lemma rule_unseen_run t : (0 <= t)%Z → rtc (policy_event 0) at_first (rule_unseen t).
Proof.
  intros Ht. eapply rtc_l; [apply (ev_read 0)|]. eapply rtc_l; [apply (ev_write 0 _ [] 0 []); done|].
  eapply rtc_l; [apply (ev_commit 0 _ [sample_rule])|]. apply rtc_once.
  refine (ev_time 0 (rule_unseen 0) t Ht _). constructor.
Qed.

Definition decides (s : shared) : bool := approved (evaluate (λ _ _, None) true "access.read" untrusted (view s)).1.

Example unseen_for_five_minutes :
  (decides (rule_unseen 299999), decides (rule_unseen 300000)) = (true, false).
Proof. vm_compute. reflexivity. Qed.

Lemma cache_transparent_witness :
  let e := {| rows := []; cache := None |} in
  let e1 := {| rows := [sample_rule]; cache := None |} in
  ((evaluate (λ _ _, None) true "access.read" untrusted e1).1 =
     decide_rules (λ _ _, None) [sample_rule] "access.read" untrusted ∧ conditions_ok [sample_rule]) ∧
  ∃ rs, current_since (-300000) rs (rule_unseen 0) ∧
    (evaluate (λ _ _, None) true "access.read" untrusted (view (rule_unseen 0))).1 =
    decide_rules (λ _ _, None) (active_rules rs) "access.read" untrusted.
Proof.
  intros e e1. destruct (cache_transparent (λ _ _, None)) as [Hexact Hstale].
  assert (rtc (engine_step (λ _ _, None)) e e1) as Hr.
  { apply rtc_once. apply (step_create (λ _ _, None) e sample_rule). reflexivity. }
  split.
  - apply (Hexact e e1 true "access.read" untrusted); [| |exact Hr].
    + intros rules Hn. discriminate Hn.
    + constructor.
  - apply (Hstale 0%Z at_first (rule_unseen 0) true "access.read" untrusted);
      [lia|reflexivity|reflexivity|apply rule_unseen_run; lia].
Defined.

(** The deny rule of the sample fires on an untrusted agent. *)
Example sample_denied :
  approved (evaluate (λ _ _, None) true "access.read"
    (VDict [("agent", VDict [("trust_score", VInt 0)])])
    {| rows := [sample_rule]; cache := None |}).1 = false.
Proof. vm_compute. reflexivity. Qed.
