(* ===== verification/Policy.v ===== *)
(** * Policy: decisions and the rule registry

    Models [safety/decision.py] and [safety/registry.py]: a rule's verdict, the
    aggregation of verdicts, the registry of rules, and the evaluation loop.
    A rule is a function of the context and of the state it can reach (Redis,
    the clock), which it may change.  [created_at] of a decision, the time of
    its construction, is not modelled; the text of an exception is the
    parameter [exn_text]. *)

From Stdlib Require Import ZArith Lia.
From stdpp Require Import base tactics strings sorting list.
From S2P Require Import Prelude PyStr Dict PyVal.

(** ** Decisions *)

Inductive DecisionAction := ALLOW | DENY | ESCALATE_HUMAN | ABSTAIN.

#[export] Instance DecisionAction_eq_dec : EqDecision DecisionAction.
Proof. solve_decision. Defined.

Record Decision := {
  act : DecisionAction;
  rule_id : option string;
  reason : string;
  metadata : list (string * pyval);
  contributing_rule_ids : list string;
}.

Definition mk_decision (a : DecisionAction) (id : string) (why : string)
    (md : list (string * pyval)) : Decision :=
  {| act := a; rule_id := Some id; reason := why; metadata := md;
     contributing_rule_ids := [] |}.

Definition allow := mk_decision ALLOW.
Definition deny := mk_decision DENY.
Definition escalate_human := mk_decision ESCALATE_HUMAN.
Definition abstain (id : string) (why : string) : Decision := mk_decision ABSTAIN id why [].

(** [d.rule_id] when it is true *)
Definition truthy_id (d : Decision) : option string :=
  match rule_id d with
  | Some id => if str_empty id then None else Some id
  | None => None
  end.

(** One iteration of [_merged_metadata] on the dictionaries under ["by_rule"]
    and ["unattributed"]; [out] keeps the order of first use of the two keys. *)
Definition merge_one (out : list (string * pyval)) (d : Decision) : list (string * pyval) :=
  match metadata d with
  | [] => out
  | md =>
      match truthy_id d with
      | Some id =>
          let by_rule := match dict_get "by_rule" out with Some (VDict m) => m | _ => [] end in
          dict_set "by_rule" (VDict (dict_set id (VDict md) by_rule)) out
      | None =>
          let un := match dict_get "unattributed" out with Some (VList l) => l | _ => [] end in
          dict_set "unattributed" (VList (un ++ [VDict md])) out
      end
  end.

Definition _merged_metadata (ds : list Decision) : list (string * pyval) :=
  fold_left merge_one ds [].

Definition of_action (a : DecisionAction) (ds : list Decision) : list Decision :=
  filter (λ d, act d = a) ds.

Definition contributors (ds : list Decision) : list string := omap truthy_id ds.

(** The decision built from the winning class and all non-abstaining votes *)
Definition won (a : DecisionAction) (primary : Decision) (winners non_abstain : list Decision)
    : Decision := {|
  act := a; rule_id := rule_id primary; reason := reason primary;
  metadata := _merged_metadata winners;
  contributing_rule_ids := contributors non_abstain |}.

Definition unanimous (why : string) : Decision := {|
  act := ABSTAIN; rule_id := None; reason := why; metadata := []; contributing_rule_ids := [] |}.

Inductive policy_error := IndexError.

Definition aggregate (decisions : list Decision) : res policy_error Decision :=
  match decisions with
  | [] => Ok (unanimous "no rules registered")
  | _ =>
      let non_abstain := filter (λ d, act d ≠ ABSTAIN) decisions in
      match non_abstain with
      | [] => Ok (unanimous "all rules abstained")
      | _ =>
          match of_action DENY non_abstain with
          | (primary :: _) as denies => Ok (won DENY primary denies non_abstain)
          | [] =>
              match of_action ESCALATE_HUMAN non_abstain with
              | (primary :: _) as escalations =>
                  Ok (won ESCALATE_HUMAN primary escalations non_abstain)
              | [] =>
                  match of_action ALLOW non_abstain with
                  | (primary :: _) as allows => Ok (won ALLOW primary allows non_abstain)
                  | [] => Err IndexError
                  end
              end
          end
      end
  end.

(** ** The registry *)

(** What awaiting the rule's function gives *)
Inductive outcome :=
  | Returned (d : Decision)
  | ReturnedOther
  | Raised (e : py_exn).

Section registry.
Context {Ctx St : Type} (exn_text : py_exn → string).

Record PolicyRuleEntry := {
  entry_id : string;
  description : string;
  function : Ctx → St → outcome * St;
  priority : Z;
  enabled : bool;
  tags : list string;
}.

(** [PolicyRegistry._rules] *)
Definition registry : Type := list (string * PolicyRuleEntry).

Definition register (e : PolicyRuleEntry) (reg : registry) : registry :=
  dict_set (entry_id e) e reg.

(** [_rules.pop(rule_id, None) is not None] *)
Definition unregister (id : string) (reg : registry) : bool * registry :=
  (match dict_get id reg with Some _ => true | None => false end,
   filter (λ ke, ke.1 ≠ id) reg).

Definition get (id : string) (reg : registry) : option PolicyRuleEntry := dict_get id reg.

(** Sort key [(priority, rule_id)] *)
Definition order_leb (a b : Z * string) : bool :=
  (a.1 <? b.1)%Z || (a.1 =? b.1)%Z && String.leb a.2 b.2.

Definition sort_entries (es : list PolicyRuleEntry) : list PolicyRuleEntry :=
  map snd (kv_sort order_leb (map (λ e, ((priority e, entry_id e), e)) es)).

Definition all (include_disabled : bool) (reg : registry) : list PolicyRuleEntry :=
  sort_entries (filter (λ e, include_disabled || enabled e = true) (map snd reg)).

Definition clear (_ : registry) : registry := [].

Definition with_enabled (b : bool) (e : PolicyRuleEntry) : PolicyRuleEntry := {|
  entry_id := entry_id e; description := description e; function := function e;
  priority := priority e; enabled := b; tags := tags e |}.

Definition set_enabled (id : string) (b : bool) (reg : registry) : bool * registry :=
  match dict_get id reg with
  | None => (false, reg)
  | Some _ => (true, dict_alter (with_enabled b) id reg)
  end.

(** [@policy_rule(...)] over the rules in import order *)
Definition load_rules (es : list PolicyRuleEntry) (reg : registry) : registry :=
  fold_left (λ reg e, register e reg) es reg.

(** ** Evaluation *)

(** The decision one rule contributes *)
Definition verdict (e : PolicyRuleEntry) (o : outcome) : Decision :=
  match o with
  | Returned d => d
  | ReturnedOther => abstain (entry_id e) "rule returned non-Decision"
  | Raised x => abstain (entry_id e) ("rule crashed: " +:+ exn_text x)
  end.

(** The [for rule in rules] loop; only a returned DENY stops it. *)
Fixpoint run_rules (ctx : Ctx) (rules : list PolicyRuleEntry) (st : St) (decisions : list Decision)
    : list Decision * St :=
  match rules with
  | [] => (decisions, st)
  | e :: rules =>
      let '(o, st) := function e ctx st in
      let decisions := decisions ++ [verdict e o] in
      match o with
      | Returned d => if decide (act d = DENY) then (decisions, st)
                      else run_rules ctx rules st decisions
      | _ => run_rules ctx rules st decisions
      end
  end.

Definition selected (reg : registry) (rule_ids : option (list string)) : list PolicyRuleEntry :=
  match rule_ids with
  | None => all false reg
  | Some ids => filter (λ e, entry_id e ∈ ids) (all true reg)
  end.

Definition evaluate (reg : registry) (ctx : Ctx) (rule_ids : option (list string)) (st : St)
    : res policy_error Decision * St :=
  let '(decisions, st) := run_rules ctx (selected reg rule_ids) st [] in
  (aggregate decisions, st).

(** ** Specification *)

(** The votes of all the rules, without stopping at a denial *)
Fixpoint votes (ctx : Ctx) (rules : list PolicyRuleEntry) (st : St) : list Decision :=
  match rules with
  | [] => []
  | e :: rules => let '(o, st) := function e ctx st in verdict e o :: votes ctx rules st
  end.
End registry.

Arguments PolicyRuleEntry : clear implicits.
Arguments registry : clear implicits.

(** Precedence of the actions *)
Definition strength (a : DecisionAction) : nat :=
  match a with ABSTAIN => 0 | ALLOW => 1 | ESCALATE_HUMAN => 2 | DENY => 3 end.

(** [a] is the strongest vote, and [d] reports the first rule that cast it. *)
Definition outcome_of (ds : list Decision) (d : Decision) : Prop :=
  (∀ x, x ∈ ds → strength (act x) ≤ strength (act d)) ∧
  (act d = ABSTAIN ∨ ∃ l1 x l2, ds = l1 ++ x :: l2 ∧ act x = act d ∧
     (∀ y, y ∈ l1 → act y ≠ act d) ∧ rule_id d = rule_id x ∧ reason d = reason x).

(** ** Lemmas *)

Lemma of_action_nil a ds : of_action a ds = [] → ∀ x, x ∈ ds → act x ≠ a.
Proof.
  intros Hn x Hx Ha.
  assert (x ∈ of_action a ds) as H by by apply list_elem_of_filter.
  rewrite Hn in H. by apply elem_of_nil in H.
Qed.

Lemma of_action_filter a ds :
  a ≠ ABSTAIN → of_action a (filter (λ d, act d ≠ ABSTAIN) ds) = of_action a ds.
Proof.
  intros Ha. unfold of_action. rewrite list_filter_filter.
  apply list_filter_iff. naive_solver.
Qed.

Lemma won_outcome a ds x l winners na :
  a ≠ ABSTAIN → of_action a ds = x :: l →
  (∀ y, y ∈ ds → strength (act y) ≤ strength a) → outcome_of ds (won a x winners na).
Proof.
  intros Ha Hw Hmax. split; [done|]. right.
  destruct (filter_first _ _ _ _ Hw) as (l1&l2&->&Hx&Hl1). by exists l1, x, l2.
Qed.

(** The aggregate never raises, reports the strongest vote, and lists every
    voter. *)
Lemma aggregate_outcome ds :
  ∃ d, aggregate ds = Ok d ∧ outcome_of ds d ∧
    (act d ≠ ABSTAIN → contributing_rule_ids d = contributors (filter (λ d, act d ≠ ABSTAIN) ds)).
Proof.
  destruct ds as [|d0 ds']; [eexists; split; [done|]; split; [|done]; split;
    [intros x Hx; by apply elem_of_nil in Hx|by left]|].
  unfold aggregate. set (ds := d0 :: ds').
  assert (∀ a, a ≠ ABSTAIN → of_action a (filter (λ d, act d ≠ ABSTAIN) ds) = of_action a ds)
    as Hof by (intros; by apply of_action_filter).
  assert (∀ x, x ∈ ds → act x ≠ ABSTAIN → x ∈ filter (λ d, act d ≠ ABSTAIN) ds) as Hin
    by (intros; by apply list_elem_of_filter).
  destruct (filter (λ d, act d ≠ ABSTAIN) ds) as [|na nas] eqn:En.
  { eexists; split; [done|]. split; [|done]. split; [|by left]. intros x Hx.
    destruct (decide (act x = ABSTAIN)) as [->|Hx']; [done|].
    specialize (Hin x Hx Hx'). by apply elem_of_nil in Hin. }
  rewrite !Hof by done.
  destruct (of_action DENY ds) as [|x l] eqn:E1.
  2:{ eexists; split; [done|]. split; [|done]. eapply won_outcome; [done|exact E1|].
      intros y _. by destruct (act y); cbn; lia. }
  pose proof (of_action_nil _ _ E1) as Hno1.
  destruct (of_action ESCALATE_HUMAN ds) as [|x l] eqn:E2.
  2:{ eexists; split; [done|]. split; [|done]. eapply won_outcome; [done|exact E2|].
      intros y Hy. specialize (Hno1 y Hy). destruct (act y); cbn; try done; lia. }
  pose proof (of_action_nil _ _ E2) as Hno2.
  destruct (of_action ALLOW ds) as [|x l] eqn:E3.
  2:{ eexists; split; [done|]. split; [|done]. eapply won_outcome; [done|exact E3|].
      intros y Hy. specialize (Hno1 y Hy). specialize (Hno2 y Hy).
      destruct (act y); cbn; try done; lia. }
  pose proof (of_action_nil _ _ E3) as Hno3. exfalso.
  assert (na ∈ filter (λ d, act d ≠ ABSTAIN) ds) as Hna by (rewrite En; by left).
  apply list_elem_of_filter in Hna as [Ha Hna].
  specialize (Hno1 na Hna). specialize (Hno2 na Hna). specialize (Hno3 na Hna).
  by destruct (act na).
Qed.

Lemma outcome_unique ds d1 d2 :
  outcome_of ds d1 → outcome_of ds d2 → act d1 = act d2 ∧
  (act d1 ≠ ABSTAIN → rule_id d1 = rule_id d2 ∧ reason d1 = reason d2).
Proof.
  intros [Hm1 H1] [Hm2 H2].
  assert (act d1 = act d2) as Heq.
  { assert (∀ d d', outcome_of ds d → (act d' = ABSTAIN ∨ ∃ x, x ∈ ds ∧ act x = act d') →
      strength (act d') ≤ strength (act d)) as Hle.
    { intros d d' [Hm _] [->|(x&Hx&<-)]; [cbn; lia|by apply Hm]. }
    assert (∀ d, outcome_of ds d → act d = ABSTAIN ∨ ∃ x, x ∈ ds ∧ act x = act d) as Hex.
    { intros d [_ [?|(l1&x&l2&->&Hx&_)]]; [by left|right]. exists x. split; [|done].
      apply elem_of_app. right. by left. }
    pose proof (Hle d1 d2 (conj Hm1 H1) (Hex d2 (conj Hm2 H2))).
    pose proof (Hle d2 d1 (conj Hm2 H2) (Hex d1 (conj Hm1 H1))).
    destruct (act d1), (act d2); cbn in *; try done; lia. }
  split; [done|]. intros Hna.
  destruct H1 as [?|(l1&x&l2&->&Hx&Hl1&Hr1&Hw1)]; [done|].
  destruct H2 as [?|(l3&y&l4&Heqs&Hy&Hl3&Hr2&Hw2)]; [congruence|].
  enough (x = y) as -> by (split; congruence).
  clear Hm1 Hm2 Hr1 Hr2 Hw1 Hw2. revert l3 Heqs Hl3.
  induction l1 as [|z l1 IH]; intros [|w l3] Heqs Hl3; injection Heqs as -> Heqs; try done.
  - exfalso. apply (Hl3 w); [by left|congruence].
  - exfalso. apply (Hl1 y); [by left|congruence].
  - apply (IH ltac:(intros v Hv; apply Hl1; by right) l3); [done|].
    intros v Hv. apply Hl3. by right.
Qed.

Section evaluate_spec.
Context {Ctx St : Type} (exn_text : py_exn → string).

(** The loop's decisions: all the votes, cut after the first denial that a
    rule returned *)
Lemma run_rules_votes (ctx : Ctx) rules (st : St) ds :
  ∃ l rest, (run_rules exn_text ctx rules st ds).1 = ds ++ l ∧
    votes exn_text ctx rules st = l ++ rest ∧
    (rest = [] ∨ ∃ l' x, l = l' ++ [x] ∧ act x = DENY).
Proof.
  revert st ds. induction rules as [|e rules IH]; intros st ds; cbn.
  { exists [], []. rewrite app_nil_r. split_and!; [done..|by left]. }
  destruct (function e ctx st) as [o st'].
  assert (∃ l rest, (run_rules exn_text ctx rules st' (ds ++ [verdict exn_text e o])).1 = ds ++ l ∧
    verdict exn_text e o :: votes exn_text ctx rules st' = l ++ rest ∧
    (rest = [] ∨ ∃ l' x, l = l' ++ [x] ∧ act x = DENY)) as Hrec.
  { destruct (IH st' (ds ++ [verdict exn_text e o])) as (l&rest&->&->&Hl).
    exists (verdict exn_text e o :: l), rest. rewrite <-app_assoc. split_and!; [done..|].
    destruct Hl as [->|(l'&x&->&Hx)]; [by left|right].
    by exists (verdict exn_text e o :: l'), x. }
  destruct o as [d| |x]; try exact Hrec. case_decide as Hd; [|exact Hrec].
  exists [d], (votes exn_text ctx rules st'). cbn. split_and!; [done..|right].
  by exists [], d.
Qed.

(** Stopping at a denial does not change the outcome. *)
Lemma evaluate_outcome reg (ctx : Ctx) ids (st : St) :
  ∃ d, (evaluate exn_text reg ctx ids st).1 = Ok d ∧
    outcome_of (votes exn_text ctx (selected reg ids) st) d.
Proof.
  unfold evaluate.
  destruct (run_rules_votes ctx (selected reg ids) st []) as (l&rest&Hrun&->&Hcut).
  destruct (run_rules _ _ _ _ _) as [ds st']. cbn in *. subst ds.
  destruct (aggregate_outcome l) as (d&->&Hout&_). exists d. split; [done|].
  destruct Hcut as [->|(l'&x&->&Hx)]; [by rewrite app_nil_r|].
  destruct Hout as [Hmax Hfirst].
  assert (act d = DENY) as Hd.
  { assert (strength (act x) ≤ strength (act d)) as Hs
      by (apply Hmax, elem_of_app; right; by left).
    rewrite Hx in Hs. destruct (act d); cbn in Hs; done || lia. }
  split; [intros y _; rewrite Hd; by destruct (act y); cbn; lia|].
  destruct Hfirst as [?|(l1&y&l2&Heq&Hy)]; [congruence|]. right.
  exists l1, y, (l2 ++ rest). split; [|done]. by rewrite Heq, <-app_assoc.
Qed.
End evaluate_spec.

Lemma order_leb_total a b : order_leb a b = true ∨ order_leb b a = true.
Proof.
  unfold order_leb. rewrite !orb_true_iff, !andb_true_iff, !Z.ltb_lt, !Z.eqb_eq.
  destruct (Z.lt_trichotomy a.1 b.1) as [?|[?|?]]; [tauto| |tauto].
  destruct (String.leb_total a.2 b.2); [left|right]; right; split; congruence.
Qed.

Lemma order_leb_trans a b c :
  order_leb a b = true → order_leb b c = true → order_leb a c = true.
Proof.
  unfold order_leb. rewrite !orb_true_iff, !andb_true_iff, !Z.ltb_lt, !Z.eqb_eq.
  intros [?|[? Hab]] [?|[? Hbc]]; [left; lia|left; lia|left; lia|right].
  split; [lia|]. by eapply str_leb_trans.
Qed.

(** ** Theorems *)

(** Aggregation.  For any list of votes [aggregate] never raises; its
    action is the strongest vote (DENY over ESCALATE_HUMAN over ALLOW over
    ABSTAIN), its identifier and reason are those of the first vote of that
    action, and its contributors are all the non-abstaining voters in order. *)
Theorem aggregate_spec ds :
  ∃ d, aggregate ds = Ok d ∧ outcome_of ds d ∧
    (act d ≠ ABSTAIN → contributing_rule_ids d = contributors (filter (λ d, act d ≠ ABSTAIN) ds)).
Proof. exact (aggregate_outcome ds). Qed.

(** Evaluation.  Whatever the rules do (return another type, raise, change
    the state they can reach), evaluating them never raises, and stopping at
    the first denial reports the same action, rule and reason as aggregating
    the votes of all the rules would. *)
Theorem evaluate_short_circuit {Ctx St} exn_text reg (ctx : Ctx) ids (st : St) :
  ∃ d full, (evaluate exn_text reg ctx ids st).1 = Ok d ∧
    aggregate (votes exn_text ctx (selected reg ids) st) = Ok full ∧
    act d = act full ∧ (act d ≠ ABSTAIN → rule_id d = rule_id full ∧ reason d = reason full) ∧
    (act d = DENY ↔ ∃ x, x ∈ votes exn_text ctx (selected reg ids) st ∧ act x = DENY).
Proof.
  destruct (evaluate_outcome exn_text reg ctx ids st) as (d&Hd&Hout).
  destruct (aggregate_outcome (votes exn_text ctx (selected reg ids) st)) as (full&Hf&Hout'&_).
  exists d, full. destruct (outcome_unique _ _ _ Hout Hout') as [Ha Hrest].
  split_and!; [done..|]. destruct Hout as [Hmax Hex]. split.
  - intros Hdeny. destruct Hex as [?|(l1&x&l2&->&Hx&_)]; [congruence|].
    exists x. split; [|congruence]. apply elem_of_app. right. by left.
  - intros (x&Hx&Hdeny). specialize (Hmax x Hx). rewrite Hdeny in Hmax.
    by destruct (act d); cbn in Hmax; try lia.
Qed.

(** [all] lists exactly the enabled rules (or all of them), ordered by
    priority and then identifier. *)
Theorem all_spec {Ctx St} b (reg : registry Ctx St) :
  all b reg ≡ₚ filter (λ e, b || enabled e = true) (map snd reg) ∧
  StronglySorted (λ e e', order_leb (priority e, entry_id e) (priority e', entry_id e') = true)
    (all b reg).
Proof.
  split.
  - unfold all, sort_entries. rewrite kv_sort_perm, map_map. cbn. by rewrite map_id.
  - unfold all. generalize (filter (λ e, b || enabled e = true) (map snd reg)). intros es.
    unfold sort_entries.
    pose proof (kv_sort_sorted order_leb order_leb_total order_leb_trans
      (map (λ e, ((priority e, entry_id e), e)) es)) as Hs.
    assert (Forall (λ p, p.1 = (priority p.2, entry_id p.2))
      (kv_sort order_leb (map (λ e, ((priority e, entry_id e), e)) es))) as Hp.
    { rewrite kv_sort_perm. apply List.Forall_map. by apply Forall_true. }
    induction Hs as [|p ps Hs IH Hle]; [constructor|].
    apply Forall_cons in Hp as [Hp0 Hp]. cbn. constructor; [by apply IH|].
    apply List.Forall_map. rewrite Forall_forall in *. intros q Hq.
    specialize (Hle q Hq). specialize (Hp q Hq). unfold kv_le in Hle. congruence.
Qed.
