(* ===== verification/Rules.v ===== *)
(** * Rules: the built-in policy rules

    Models [safety/context.py] and the ten modules of [safety/rules/].  Each
    rule is a function of the [PolicyContext] and of the [world] it can reach:
    the clock and the sorted sets of Redis.  A rule that raises gives the
    exception, which the evaluation loop of [Policy] turns into an abstention.

    Instants are seconds since the epoch (a naive time is read as UTC).  The
    parameters are [datetime.fromisoformat] (the instant and its [isoformat]
    text), [float(str)], and [repr], which occurs in reasons only. *)

From Stdlib Require Import Ascii ZArith Lia SpecFloat.
From stdpp Require Import base tactics strings pretty gmap list.
From S2P Require Import Prelude PyStr Dict PyVal Policy.

Record PolicyContext := {
  agent_did : option string;
  agent_trust_score : option spec_float;
  agent_id : option string;
  action : string;
  action_category : option string;
  tool_name : option string;
  amount : option spec_float;
  estimated_cost : option spec_float;
  task_id : option string;
  now : Z;
  redis : bool;
  extra : list (string * pyval);
}.

Record world := {
  clock_ms : Z;
  redis_up : bool;
  zsets : gmap string (list (string * Z));
}.

(** The [Some]s of an optional string, as a value *)
Definition v_opt_str (o : option string) : pyval :=
  match o with Some s => VStr s | None => VNone end.
Definition v_opt_float (o : option spec_float) : pyval :=
  match o with Some f => VFloat f | None => VNone end.

Definition hashable (v : pyval) : bool :=
  match v with VList _ | VDict _ => false | _ => true end.

(** [set(v)], as the list of its members *)
Definition py_set (v : pyval) : res py_exn (list pyval) :=
  match v with
  | VList l => if forallb hashable l then Ok l else Err TypeError
  | VStr s => Ok (map VStr (py_chars s))
  | VDict d => Ok (map (λ kv, VStr kv.1) d)
  | _ => Err TypeError
  end.

Definition in_set (s : string) (members : list pyval) : bool := existsb (py_eq (VStr s)) members.

(** [len] of the set: equal members count once. *)
Fixpoint set_size (members : list pyval) : nat :=
  match members with
  | [] => 0
  | v :: rest => if existsb (py_eq v) rest then set_size rest else S (set_size rest)
  end.

Definition extra_get (ctx : PolicyContext) (k : string) (d : pyval) : pyval :=
  default d (dict_get k (extra ctx)).

Definition str_list (l : list string) : pyval := VList (map VStr l).

Definition category_is (ctx : PolicyContext) (c : string) : bool :=
  bool_decide (action_category ctx = Some c).

Definition category_in (ctx : PolicyContext) (members : list pyval) : bool :=
  match action_category ctx with Some c => in_set c members | None => false end.

Definition is_memory_write (ctx : PolicyContext) : bool :=
  String.eqb (action ctx) "write_memory" || category_is ctx "memory_write".

Definition DEFAULT_SENSITIVE : pyval := str_list ["payment"; "deploy"; "destructive"].

(** The hour of an instant, UTC *)
Definition hour_utc (t : Z) : Z := (t / 3600) mod 24.

Definition two_digits (z : Z) : string := if (z <? 10)%Z then "0" +:+ pretty z else pretty z.

Section rules.
Context (float_of_str : string → option spec_float).
Context (fromisoformat : string → option (Z * string)).
Context (repr_str : string → string) (repr_float : spec_float → string).

Definition repr_opt (o : option string) : string :=
  match o with Some s => repr_str s | None => "None" end.

Definition float_or (ctx : PolicyContext) (k : string) (d : spec_float) : res py_exn spec_float :=
  py_float float_of_str (extra_get ctx k (VFloat d)).

(** *** cost_caps *)

Definition cost_caps (ctx : PolicyContext) : res py_exn Decision :=
  match estimated_cost ctx with
  | None => Ok (abstain "cost_caps" "")
  | Some cost =>
      escalate_at <~ float_or ctx "cost_escalate_at" (f_of_nat 10);
      deny_at <~ float_or ctx "cost_deny_at" (f_of_nat 50);
      Ok (if f_ge cost deny_at then
            deny "cost_caps" ("estimated cost " +:+ repr_float cost +:+ " >= hard cap "
                              +:+ repr_float deny_at)
              [("estimated_cost", VFloat cost); ("deny_at", VFloat deny_at)]
          else if f_ge cost escalate_at then
            escalate_human "cost_caps"
              ("estimated cost " +:+ repr_float cost +:+ " crossed escalation threshold "
               +:+ repr_float escalate_at)
              [("estimated_cost", VFloat cost); ("escalate_at", VFloat escalate_at)]
          else
            allow "cost_caps" ("estimated cost " +:+ repr_float cost
                               +:+ " within free-flow band")
              [("estimated_cost", VFloat cost)])
  end.

(** *** credential_requires *)

(** [_credential_is_valid]: the reason when it is not *)
Definition _credential_is_valid (cred : option (list (string * pyval))) (now : Z)
    : option string :=
  match cred with
  | None => Some "credential missing"
  | Some cred =>
      match dict_get "expires_at" cred with
      | Some (VStr raw) =>
          match fromisoformat raw with
          | None => Some ("credential.expires_at is unparseable: " +:+ repr_str raw)
          | Some (expires_at, text) =>
              if (expires_at <=? now)%Z then Some ("credential expired at " +:+ text) else None
          end
      | _ => Some "credential has no expires_at"
      end
  end.

Definition credential_requires (ctx : PolicyContext) : res py_exn Decision :=
  sensitive <~ py_set (extra_get ctx "sensitive_categories" DEFAULT_SENSITIVE);
  Ok (if py_truth (extra_get ctx "require_credential" VNone) &&
         existsb (py_eq (v_opt_str (action_category ctx))) sensitive then
        let cred := match dict_get "credential" (extra ctx) with
                    | Some (VDict d) => Some d
                    | _ => None
                    end in
        match _credential_is_valid cred (now ctx) with
        | Some why =>
            deny "credential_requires" ("sensitive action requires valid credential: " +:+ why)
              [("category", v_opt_str (action_category ctx)); ("credential_issue", VStr why)]
        | None =>
            allow "credential_requires" "valid credential presented"
              [("credential_expires_at", default VNone (cred ≫= dict_get "expires_at"))]
        end
      else abstain "credential_requires" "").

(** *** cross_agent_delegation *)

Definition cross_agent_delegation (ctx : PolicyContext) : res py_exn Decision :=
  if String.eqb (action ctx) "delegate_task" || category_is ctx "delegation" then
    max_depth <~ py_int (extra_get ctx "delegation_max_depth" (VInt 2));
    depth <~ py_int (extra_get ctx "delegation_depth" (VInt 0));
    let md := [("delegation_depth", VInt depth); ("max_depth", VInt max_depth)] in
    Ok (if (max_depth <? depth)%Z then
          escalate_human "cross_agent_delegation"
            ("delegation chain depth " +:+ pretty depth +:+ " exceeds max " +:+ pretty max_depth) md
        else
          allow "cross_agent_delegation"
            ("delegation chain depth " +:+ pretty depth +:+ " within max " +:+ pretty max_depth) md)
  else Ok (abstain "cross_agent_delegation" "").

(** *** default_deny_unknown_tool *)

Definition default_deny_unknown_tool (ctx : PolicyContext) : res py_exn Decision :=
  let silent := abstain "default_deny_unknown_tool" "" in
  Ok match tool_name ctx with
     | None => silent
     | Some tool =>
         match extra_get ctx "known_tools" VNone with
         | VNone => silent
         | known =>
             match py_set known with
             | Err _ => silent
             | Ok allowlist =>
                 if in_set tool allowlist then silent
                 else deny "default_deny_unknown_tool"
                        ("tool " +:+ repr_str tool +:+ " is not on the known-tools allowlist")
                        [("tool_name", VStr tool);
                         ("allowlist_size", VInt (Z.of_nat (set_size allowlist)))]
             end
         end
     end.

(** *** memory_write_attribution *)

Definition SUPPORTED_DID_METHODS : list string := ["did:key:"; "did:web:"; "did:nanda:"].

Definition _looks_like_did (value : string) : bool :=
  existsb (λ prefix, str_startswith prefix value) SUPPORTED_DID_METHODS.

Definition memory_write_attribution (ctx : PolicyContext) : res py_exn Decision :=
  Ok (if is_memory_write ctx then
        match agent_did ctx with
        | None | Some EmptyString =>
            deny "memory_write_attribution" "memory write attempted without an agent_did"
              [("agent_did", VNone)]
        | Some did =>
            if _looks_like_did did then
              allow "memory_write_attribution" ("memory write signed by " +:+ did)
                [("agent_did", VStr did)]
            else
              deny "memory_write_attribution"
                ("agent_did " +:+ repr_str did +:+ " does not use a supported DID method")
                [("agent_did", VStr did); ("supported", str_list SUPPORTED_DID_METHODS)]
        end
      else abstain "memory_write_attribution" "").

(** *** pii_tool_guards *)

Definition DEFAULT_PII_TOOLS : list string :=
  ["lookup_ssn"; "lookup_address"; "lookup_phone"; "lookup_email"; "lookup_dob";
   "lookup_ip_geolocation"; "export_user_data"; "query_user_profile"; "dump_contacts"].

Definition pii_tool_guards (ctx : PolicyContext) : res py_exn Decision :=
  pii_tools <~ py_set (extra_get ctx "pii_tools" (str_list DEFAULT_PII_TOOLS));
  let tool_hits := match tool_name ctx with Some t => in_set t pii_tools | None => false end in
  Ok (if tool_hits || category_is ctx "pii_access" then
        escalate_human "pii_tool_guards"
          ("PII access via tool=" +:+ repr_opt (tool_name ctx) +:+ ", category="
           +:+ repr_opt (action_category ctx) +:+ " always requires a human reviewer")
          [("tool_name", v_opt_str (tool_name ctx));
           ("action_category", v_opt_str (action_category ctx));
           ("agent_did", v_opt_str (agent_did ctx))]
      else abstain "pii_tool_guards" "").

(** *** signature_requires *)

Definition signature_requires (ctx : PolicyContext) : res py_exn Decision :=
  let refuse := deny "signature_requires" "memory write action has no signature payload"
                  [("signature_present", VBool false)] in
  Ok (if is_memory_write ctx then
        match extra_get ctx "signature" VNone with
        | VStr s =>
            if str_empty (py_strip s) then refuse
            else allow "signature_requires" "signature payload present"
                   [("signature_present", VBool true);
                    ("signature_length", VInt (Z.of_nat (length (py_chars s))))]
        | _ => refuse
        end
      else abstain "signature_requires" "").

(** *** time_of_day_restrictions *)

Definition time_of_day_restrictions (ctx : PolicyContext) : res py_exn Decision :=
  sensitive <~ py_set (extra_get ctx "sensitive_categories" DEFAULT_SENSITIVE);
  if category_in ctx sensitive then
    start_hour <~ py_int (extra_get ctx "business_hours_start" (VInt 8));
    end_hour <~ py_int (extra_get ctx "business_hours_end" (VInt 20));
    let hour := hour_utc (now ctx) in
    let md := [("hour_utc", VInt hour); ("window", VList [VInt start_hour; VInt end_hour])] in
    let what := "action " +:+ repr_opt (action_category ctx) in
    Ok (if (start_hour <=? hour)%Z && (hour <? end_hour)%Z then
          allow "time_of_day_restrictions"
            (what +:+ " within business hours (" +:+ two_digits hour +:+ ":XX UTC)") md
        else
          escalate_human "time_of_day_restrictions"
            (what +:+ " submitted at " +:+ two_digits hour +:+ ":XX UTC — outside business hours ["
             +:+ pretty start_hour +:+ ":00, " +:+ pretty end_hour +:+ ":00)") md)
  else Ok (abstain "time_of_day_restrictions" "").

(** *** trust_floor_for_payments *)

Definition _is_payment (ctx : PolicyContext) : bool :=
  category_is ctx "payment" || str_startswith "pay_" (action ctx).

Definition trust_floor_for_payments (ctx : PolicyContext) : res py_exn Decision :=
  let silent := abstain "trust_floor_for_payments" "" in
  let why score := "agent trust score " +:+ score in
  Ok (if _is_payment ctx then
        match amount ctx with
        | None => silent
        | Some amount =>
            if f_ge (f_of_nat 0) amount then silent
            else match agent_trust_score ctx with
                 | None =>
                     deny "trust_floor_for_payments" (why "None" +:+ " below hard floor 0.4")
                       [("trust_score", VNone); ("floor", VFloat f0_4); ("amount", VFloat amount)]
                 | Some score =>
                     if f_lt score f0_4 then
                       deny "trust_floor_for_payments"
                         (why (repr_float score) +:+ " below hard floor 0.4")
                         [("trust_score", VFloat score); ("floor", VFloat f0_4);
                          ("amount", VFloat amount)]
                     else if f_lt score f0_6 then
                       escalate_human "trust_floor_for_payments"
                         (why (repr_float score) +:+ " in escalation band (0.4–0.6)")
                         [("trust_score", VFloat score); ("amount", VFloat amount)]
                     else
                       allow "trust_floor_for_payments"
                         (why (repr_float score) +:+ " meets allow floor 0.6")
                         [("trust_score", VFloat score); ("amount", VFloat amount)]
                 end
        end
      else silent).

(** *** rate_limit_per_tool *)

Definition _key (agent_id tool_name : string) : string :=
  "policy:rate_limit:" +:+ agent_id +:+ ":" +:+ tool_name.

(** [zremrangebyscore(key, 0, hi)] *)
Definition prune (hi : Z) (z : list (string * Z)) : list (string * Z) :=
  filter (λ ms, ¬ (0 <= ms.2 <= hi)%Z) z.

(** [f"{now_ms}-{ctx.task_id or 'na'}"]; a UUID is never false. *)
Definition marker (now_ms : Z) (ctx : PolicyContext) : string :=
  pretty now_ms +:+ "-" +:+ default "na" (task_id ctx).

Definition rate_limit_per_tool (ctx : PolicyContext) (w : world)
    : res py_exn Decision * world :=
  let id := "rate_limit_per_tool" in
  match tool_name ctx, agent_id ctx, redis ctx with
  | Some tool, Some agent, true =>
      match py_int (extra_get ctx "rate_limit_capacity" (VInt 20)),
            py_int (extra_get ctx "rate_limit_window_seconds" (VInt 60)) with
      | Err e, _ | Ok _, Err e => (Err e, w)
      | Ok capacity, Ok window_s =>
          if (capacity <=? 0)%Z || (window_s <=? 0)%Z then (Ok (abstain id ""), w)
          else if redis_up w then
            let now_ms := clock_ms w in
            let key := _key agent tool in
            let live := prune (now_ms - window_s * 1000) (default [] (zsets w !! key)) in
            let count_after := (Z.of_nat (length live) + 1)%Z in
            let w' := {| clock_ms := clock_ms w; redis_up := redis_up w;
                         zsets := <[key := dict_set (marker now_ms ctx) now_ms live]> (zsets w) |} in
            (Ok (if (capacity <? count_after)%Z then
                   deny id
                     ("agent " +:+ agent +:+ " exceeded " +:+ pretty capacity +:+ " calls to "
                      +:+ repr_str tool +:+ " in " +:+ pretty window_s +:+ "s window (observed "
                      +:+ pretty count_after +:+ ")")
                     [("count_in_window", VInt count_after); ("capacity", VInt capacity);
                      ("window_seconds", VInt window_s)]
                 else
                   allow id (pretty count_after +:+ "/" +:+ pretty capacity +:+ " calls in "
                             +:+ pretty window_s +:+ "s window")
                     [("count_in_window", VInt count_after); ("capacity", VInt capacity)]), w')
          else (Ok (abstain id ""), w)
      end
  | _, _, _ => (Ok (abstain id ""), w)
  end.

(** *** The built-in registry *)

Definition outcome_of_res (m : res py_exn Decision) : outcome :=
  match m with Ok d => Returned d | Err e => Raised e end.

Definition pure_rule (f : PolicyContext → res py_exn Decision) (ctx : PolicyContext) (w : world)
    : outcome * world := (outcome_of_res (f ctx), w).

Definition entry (id : string) (prio : Z) (desc : string) (tags : list string)
    (f : PolicyContext → world → outcome * world) : PolicyRuleEntry PolicyContext world :=
  {| Policy.entry_id := id; description := desc; function := f; priority := prio;
     enabled := true; tags := tags |}.

(** The decorated rules, in import order *)
Definition builtin_rules : list (PolicyRuleEntry PolicyContext world) := [
  entry "cost_caps" 30
    "Escalate or deny tasks whose estimated cost crosses configured thresholds."
    ["cost"; "budget"] (pure_rule cost_caps);
  entry "credential_requires" 35
    "Sensitive actions require a fresh, non-expired robustness credential."
    ["credential"; "security"] (pure_rule credential_requires);
  entry "cross_agent_delegation" 50
    "Escalate delegation chains that exceed the configured depth."
    ["delegation"; "accountability"] (pure_rule cross_agent_delegation);
  entry "default_deny_unknown_tool" 999
    "Deny tool calls whose tool_name isn't on the operator-provided allowlist."
    ["tool"; "allowlist"; "defense-in-depth"] (pure_rule default_deny_unknown_tool);
  entry "memory_write_attribution" 25
    "Block memory writes without a valid author DID."
    ["memory"; "provenance"] (pure_rule memory_write_attribution);
  entry "pii_tool_guards" 15
    "Route every PII tool invocation through a human reviewer."
    ["pii"; "compliance"] (pure_rule pii_tool_guards);
  entry "rate_limit_per_tool" 20
    "Deny tool calls that exceed a sliding-window per-(agent, tool) rate limit."
    ["rate_limit"; "tool"]
    (λ ctx w, let '(m, w) := rate_limit_per_tool ctx w in (outcome_of_res m, w));
  entry "signature_requires" 26
    "Memory writes must carry a signature blob in the action context."
    ["memory"; "signature"; "provenance"] (pure_rule signature_requires);
  entry "time_of_day_restrictions" 40
    "Escalate sensitive actions submitted outside business hours."
    ["time"; "business_hours"] (pure_rule time_of_day_restrictions);
  entry "trust_floor_for_payments" 10
    "Allow payments only when the agent's trust score clears the floor."
    ["payment"; "trust"] (pure_rule trust_floor_for_payments)].

Definition builtin_registry : registry PolicyContext world := load_rules builtin_rules [].

Context (exn_text : py_exn → string).

(** [evaluate(ctx)] with the built-in rules *)
Definition evaluate_builtin (ctx : PolicyContext) (w : world)
    : res policy_error Decision * world :=
  evaluate exn_text builtin_registry ctx None w.
End rules.

(** ** Lemmas *)

Lemma pure_rule_vote exn_text f ctx rules w e d :
  e ∈ rules → function e = pure_rule f → f ctx = Ok d → d ∈ votes exn_text ctx rules w.
Proof.
  intros He Hf Hd. revert w. induction rules as [|e' rules IH]; intros w;
    [by apply elem_of_nil in He|].
  cbn [votes]. destruct (function e' ctx w) as [o w'] eqn:E.
  apply elem_of_cons in He as [->|He].
  - rewrite Hf in E. unfold pure_rule in E. rewrite Hd in E. injection E as <- _. by left.
  - right. by apply IH.
Qed.

Section builtin.
Context (float_of_str : string → option spec_float) (fromisoformat : string → option (Z * string)).
Context (repr_str : string → string) (repr_float : spec_float → string).
Context (exn_text : py_exn → string).

Abbreviation rules := (builtin_rules float_of_str fromisoformat repr_str repr_float).
Abbreviation eval :=
  (evaluate_builtin float_of_str fromisoformat repr_str repr_float exn_text).

(** All ten rules are enabled and take part. *)
Lemma builtin_selected :
  selected (builtin_registry float_of_str fromisoformat repr_str repr_float) None ≡ₚ rules.
Proof.
  unfold selected, all, sort_entries. rewrite kv_sort_perm, map_map. cbn [snd].
  rewrite map_id. reflexivity.
Qed.

Lemma builtin_vote e f d ctx w :
  e ∈ rules → function e = pure_rule f → f ctx = Ok d →
  d ∈ votes exn_text ctx
    (selected (builtin_registry float_of_str fromisoformat repr_str repr_float) None) w.
Proof.
  intros He. apply pure_rule_vote. by rewrite builtin_selected.
Qed.

(** A vote of a built-in rule bounds the decision from below. *)
Lemma builtin_at_least e f x ctx w :
  e ∈ rules → function e = pure_rule f → f ctx = Ok x →
  ∃ d, (eval ctx w).1 = Ok d ∧ strength (act x) ≤ strength (act d).
Proof.
  intros He Hf Hx. unfold evaluate_builtin.
  destruct (evaluate_outcome exn_text
    (builtin_registry float_of_str fromisoformat repr_str repr_float) ctx None w)
    as (d&Hd&Hmax&_).
  exists d. split; [exact Hd|]. apply Hmax. by apply (builtin_vote e f).
Qed.

Lemma strength_deny a : strength DENY ≤ strength a → a = DENY.
Proof. destruct a; cbn; intros; done || lia. Qed.

Lemma strength_escalate a : strength ESCALATE_HUMAN ≤ strength a → a = DENY ∨ a = ESCALATE_HUMAN.
Proof. destruct a; cbn; intros; auto; lia. Qed.
End builtin.

(** Contexts the built-in rules must refuse, in the words of their headers *)
Inductive must_deny (fromisoformat : string → option (Z * string)) (ctx : PolicyContext) : Prop :=
  | payment_untrusted a :
      category_is ctx "payment" = true ∨ str_startswith "pay_" (action ctx) = true →
      amount ctx = Some a → f_ge (f_of_nat 0) a = false →
      (∀ score, agent_trust_score ctx = Some score → f_lt score f0_4 = true) →
      must_deny fromisoformat ctx
  | write_unattributed :
      is_memory_write ctx = true →
      (∀ did, agent_did ctx = Some did → _looks_like_did did = false) →
      must_deny fromisoformat ctx
  | write_unsigned :
      is_memory_write ctx = true →
      (∀ s, dict_get "signature" (extra ctx) = Some (VStr s) → py_strip s = "") →
      must_deny fromisoformat ctx
  | cost_over_cap cost :
      estimated_cost ctx = Some cost →
      dict_get "cost_deny_at" (extra ctx) = None →
      dict_get "cost_escalate_at" (extra ctx) = None → f_ge cost (f_of_nat 50) = true →
      must_deny fromisoformat ctx
  | credential_expired c raw t text cred :
      dict_get "sensitive_categories" (extra ctx) = None →
      action_category ctx = Some c → c ∈ ["payment"; "deploy"; "destructive"] →
      py_truth (extra_get ctx "require_credential" VNone) = true →
      dict_get "credential" (extra ctx) = Some (VDict cred) →
      dict_get "expires_at" cred = Some (VStr raw) → fromisoformat raw = Some (t, text) →
      (t <= now ctx)%Z → must_deny fromisoformat ctx
  | tool_unknown tool known :
      tool_name ctx = Some tool → dict_get "known_tools" (extra ctx) = Some (str_list known) →
      tool ∉ known → must_deny fromisoformat ctx.

Lemma in_set_strs s l : in_set s (map VStr l) = bool_decide (s ∈ l).
Proof.
  unfold in_set. induction l as [|x l IH]; [done|].
  change (existsb (py_eq (VStr s)) (map VStr (x :: l)))
    with (String.eqb s x || existsb (py_eq (VStr s)) (map VStr l)). rewrite IH.
  destruct (String.eqb_spec s x) as [->|Hne]; cbn [orb].
  - symmetry. apply bool_decide_true. by left.
  - apply bool_decide_ext. rewrite elem_of_cons. naive_solver.
Qed.

Lemma hashable_strs l : forallb hashable (map VStr l) = true.
Proof. by induction l. Qed.

Section builtin_theorems.
Context (float_of_str : string → option spec_float) (fromisoformat : string → option (Z * string)).
Context (repr_str : string → string) (repr_float : spec_float → string).
Context (exn_text : py_exn → string).

Abbreviation rules := (builtin_rules float_of_str fromisoformat repr_str repr_float).
Abbreviation eval :=
  (evaluate_builtin float_of_str fromisoformat repr_str repr_float exn_text).

(** Some built-in rule casts the denial. *)
Lemma must_deny_vote ctx :
  must_deny fromisoformat ctx →
  ∃ e f d, e ∈ rules ∧ function e = pure_rule f ∧ f ctx = Ok d ∧ act d = DENY.
Proof.
  assert (∀ i e, rules !! i = Some e → e ∈ rules) as Hin
    by (intros i e; apply list_elem_of_lookup_2).
  intros [a Hp Ha Hpos Hs|Hw Hd|Hw Hs|cost Hc Hd He Hge
         |c raw t text cred Hsens Hcat Hc Hreq Hcred Hexp Hiso Ht|tool known Ht Hk Hn].
  - eexists _, (trust_floor_for_payments repr_float), _.
    split; [by apply (Hin 9)|]. split; [done|]. unfold trust_floor_for_payments, _is_payment.
    replace (category_is ctx "payment" || str_startswith "pay_" (action ctx)) with true
      by (symmetry; by apply orb_true_iff).
    rewrite Ha, Hpos. split; [reflexivity|].
    destruct (agent_trust_score ctx) as [score|]; [by rewrite (Hs score)|done].
  - eexists _, (memory_write_attribution repr_str), _.
    split; [by apply (Hin 4)|]. split; [done|]. unfold memory_write_attribution.
    rewrite Hw. split; [reflexivity|].
    destruct (agent_did ctx) as [[|x did]|] eqn:E; [done| |done]. by rewrite (Hd _ eq_refl).
  - eexists _, signature_requires, _.
    split; [by apply (Hin 7)|]. split; [done|]. unfold signature_requires, extra_get.
    rewrite Hw. split; [reflexivity|].
    destruct (dict_get "signature" (extra ctx)) as [[| | | |s| | |]|] eqn:E; try done.
    cbn [default from_option id]. by rewrite (Hs s eq_refl).
  - eexists _, (cost_caps float_of_str repr_float), _.
    split; [by apply (Hin 0)|]. split; [done|]. unfold cost_caps, float_or, extra_get.
    rewrite Hc, Hd, He. split; [reflexivity|]. by rewrite Hge.
  - eexists _, (credential_requires fromisoformat repr_str), _.
    split; [by apply (Hin 1)|]. split; [done|]. unfold credential_requires.
    unfold extra_get at 1. rewrite Hsens. cbn [default from_option id py_set DEFAULT_SENSITIVE str_list].
    rewrite hashable_strs. cbn [res_bind]. rewrite Hreq, Hcat.
    change (existsb (py_eq (v_opt_str (Some c)))) with (in_set c).
    rewrite in_set_strs, bool_decide_true by done. split; [reflexivity|].
    rewrite Hcred. unfold _credential_is_valid. rewrite Hexp, Hiso.
    by rewrite (proj2 (Z.leb_le _ _) Ht).
  - eexists _, (default_deny_unknown_tool repr_str), _.
    split; [by apply (Hin 3)|]. split; [done|]. unfold default_deny_unknown_tool, extra_get.
    rewrite Ht, Hk. split; [reflexivity|]. cbn [default from_option id str_list py_set].
    by rewrite hashable_strs, in_set_strs, bool_decide_false.
Qed.

(** The guard of personal data asks for a human at least. *)
Lemma pii_vote ctx :
  dict_get "pii_tools" (extra ctx) = None →
  action_category ctx = Some "pii_access" ∨ (∃ t, tool_name ctx = Some t ∧ t ∈ DEFAULT_PII_TOOLS) →
  ∃ e f d, e ∈ rules ∧ function e = pure_rule f ∧ f ctx = Ok d ∧ act d = ESCALATE_HUMAN.
Proof.
  intros Hx Hp. eexists _, (pii_tool_guards repr_str), _.
  split; [by apply (list_elem_of_lookup_2 _ 5)|]. split; [done|].
  unfold pii_tool_guards, extra_get. rewrite Hx. cbn [default from_option id str_list py_set].
  rewrite hashable_strs. cbn [res_bind]. split; [reflexivity|].
  destruct Hp as [Hc|(t&Ht&Hin)].
  - unfold category_is. rewrite Hc, bool_decide_true by done. by rewrite orb_true_r.
  - rewrite Ht, in_set_strs, bool_decide_true by done. done.
Qed.
End builtin_theorems.

(** ** Theorems *)

(** The built-in rules together deny every action their headers promise
    to deny: payments by an agent of unknown or low trust, memory writes
    without a supported author identifier or without a signature, costs over
    the hard cap, sensitive actions with an expired credential where one is
    required, and tools missing from the operator's list; in any state of
    Redis, and whatever the other rules answer or raise. *)
Theorem builtin_denies fos iso repr_s repr_f exn_text ctx w :
  must_deny iso ctx →
  ∃ d, (evaluate_builtin fos iso repr_s repr_f exn_text ctx w).1 = Ok d ∧ act d = DENY.
Proof.
  intros Hm. destruct (must_deny_vote fos iso repr_s repr_f ctx Hm) as (e&f&x&He&Hf&Hx&Ha).
  destruct (builtin_at_least fos iso repr_s repr_f exn_text e f x ctx w He Hf Hx) as (d&Hd&Hs).
  exists d. split; [done|]. rewrite Ha in Hs. by apply strength_deny.
Qed.

Definition sample_ctx : PolicyContext := {|
  agent_did := Some "did:key:z6Mk"; agent_trust_score := Some float_half; agent_id := None;
  action := "pay_invoice"; action_category := Some "payment"; tool_name := Some "lookup_ssn";
  amount := Some (f_of_nat 3); estimated_cost := None; task_id := None; now := 0; redis := false;
  extra := [] |}.

Definition untrusted_ctx : PolicyContext := {|
  agent_did := None; agent_trust_score := None; agent_id := None;
  action := "pay_invoice"; action_category := None; tool_name := None;
  amount := Some (f_of_nat 3); estimated_cost := None; task_id := None; now := 0; redis := false;
  extra := [] |}.

Definition idle_world : world := {| clock_ms := 0; redis_up := true; zsets := ∅ |}.

Lemma builtin_denies_witness :
  must_deny (λ _, None) untrusted_ctx ∧
  ∃ d, (evaluate_builtin (λ _, None) (λ _, None) (λ s, s) (λ _, "x") (λ _, "exc")
          untrusted_ctx idle_world).1 = Ok d ∧ act d = DENY.
Proof.
  assert (must_deny (λ _, None) untrusted_ctx) as Hm.
  { apply (payment_untrusted _ _ (f_of_nat 3)).
    - right. reflexivity.
    - reflexivity.
    - vm_compute. reflexivity.
    - intros score Hs. discriminate Hs. }
  split; [exact Hm|]. exact (builtin_denies _ _ _ _ _ untrusted_ctx idle_world Hm).
Defined.

(** Access to personal data, by category or by one of the default tools,
    is never decided automatically: with the default tool list the built-in
    rules escalate it to a human or deny it. *)
Theorem pii_never_allowed fos iso repr_s repr_f exn_text ctx w :
  dict_get "pii_tools" (extra ctx) = None →
  action_category ctx = Some "pii_access" ∨ (∃ t, tool_name ctx = Some t ∧ t ∈ DEFAULT_PII_TOOLS) →
  ∃ d, (evaluate_builtin fos iso repr_s repr_f exn_text ctx w).1 = Ok d ∧
    (act d = DENY ∨ act d = ESCALATE_HUMAN).
Proof.
  intros Hx Hp. destruct (pii_vote fos iso repr_s repr_f ctx Hx Hp) as (e&f&x&He&Hf&Hfx&Ha).
  destruct (builtin_at_least fos iso repr_s repr_f exn_text e f x ctx w He Hf Hfx) as (d&Hd&Hs).
  exists d. split; [done|]. rewrite Ha in Hs. by apply strength_escalate.
Qed.

Lemma pii_witness :
  dict_get "pii_tools" (extra sample_ctx) = None ∧
  ∃ d, (evaluate_builtin (λ _, None) (λ _, None) (λ s, s) (λ _, "x") (λ _, "exc")
          sample_ctx idle_world).1 = Ok d ∧ (act d = DENY ∨ act d = ESCALATE_HUMAN).
Proof.
  split; [reflexivity|].
  apply (pii_never_allowed (λ _, None) (λ _, None) (λ s, s) (λ _, "x") (λ _, "exc")
    sample_ctx idle_world); [reflexivity|].
  right. exists "lookup_ssn". split; [reflexivity|]. left.
Defined.

(** The rate limit.  With Redis answering, the rule denies exactly when
    the window already holds [capacity] calls of the agent to the tool; either
    way the call is recorded, calls older than the window are dropped, and no
    other counter changes. *)
Theorem rate_limit_spec repr_s ctx w tool agent capacity window_s :
  tool_name ctx = Some tool → agent_id ctx = Some agent → redis ctx = true → redis_up w = true →
  py_int (extra_get ctx "rate_limit_capacity" (VInt 20)) = Ok capacity →
  py_int (extra_get ctx "rate_limit_window_seconds" (VInt 60)) = Ok window_s →
  (0 < capacity)%Z → (0 < window_s)%Z →
  let key := _key agent tool in
  let live := prune (clock_ms w - window_s * 1000) (default [] (zsets w !! key)) in
  ∃ d w', rate_limit_per_tool repr_s ctx w = (Ok d, w') ∧
    (act d = DENY ↔ (capacity <= Z.of_nat (length live))%Z) ∧ (act d = DENY ∨ act d = ALLOW) ∧
    (∀ k, zsets w' !! k = if decide (k = key) then Some (dict_set (marker (clock_ms w) ctx) (clock_ms w) live)
                          else zsets w !! k) ∧
    (marker (clock_ms w) ctx ∉ dict_keys live →
      length (dict_set (marker (clock_ms w) ctx) (clock_ms w) live) = S (length live)).
Proof.
  intros Ht Ha Hr Hu Hc Hw Hcp Hwp key live. unfold rate_limit_per_tool.
  rewrite Ht, Ha, Hr, Hc, Hw, Hu.
  rewrite (proj2 (Z.leb_gt _ _) Hcp), (proj2 (Z.leb_gt _ _) Hwp). cbn [orb].
  fold key. fold live. eexists _, _. split; [reflexivity|]. split_and!.
  - destruct (Z.ltb_spec capacity (Z.of_nat (length live) + 1)); cbn; split; try done; lia.
  - destruct (_ <? _)%Z; [by left|by right].
  - intros k. cbn [zsets]. case_decide as E; [subst k; apply lookup_insert_eq|].
    by apply lookup_insert_ne.
  - intros Hfresh. rewrite dict_set_fresh by done. rewrite length_app. cbn. lia.
Qed.

Lemma rate_limit_witness :
  let ctx := {| agent_did := None; agent_trust_score := None; agent_id := Some "a1";
    action := ""; action_category := None; tool_name := Some "t1"; amount := None;
    estimated_cost := None; task_id := None; now := 0; redis := true;
    extra := [("rate_limit_capacity", VInt 1)] |} in
  ∃ d w', rate_limit_per_tool (λ s, s) ctx idle_world = (Ok d, w') ∧
    (act d = DENY ↔ (1 <= 0)%Z).
Proof.
  intros ctx.
  destruct (rate_limit_spec (λ s, s) ctx idle_world "t1" "a1" 1 60) as (d&w'&H&Hd&_);
    [reflexivity|reflexivity|reflexivity|reflexivity|reflexivity|reflexivity|lia|lia|].
  exists d, w'. split; [exact H|exact Hd].
Defined.

(** Two calls of one task in the same millisecond share a marker and count
    once. *)
Example rate_limit_collision :
  let ctx := {| agent_did := None; agent_trust_score := None; agent_id := Some "a1";
    action := ""; action_category := None; tool_name := Some "t1"; amount := None;
    estimated_cost := None; task_id := None; now := 0; redis := true;
    extra := [("rate_limit_capacity", VInt 2)] |} in
  let step (w : world) := (rate_limit_per_tool (λ s, s) ctx w).2 in
  act <$> (match (rate_limit_per_tool (λ s, s) ctx (step (step (step idle_world)))).1 with
           | Ok d => Some d | Err _ => None end) = Some ALLOW.
Proof. vm_compute. reflexivity. Qed.
