(* ===== verification/Wallet.v ===== *)
(** * Wallet: the event-sourced budget ledger

    Models [services/wallet_service.py] and the tables of [models/wallet.py].
    The database keeps amounts as [Numeric(12, 4)], here integers of
    1/10000, its units; the service computes with floats.  The arithmetic is the
    interface [Arith]: [IEEE] implements it with doubles, [Exact] with the
    ledger's own units.  [TightArith] states how far an implementation may be from
    exact arithmetic, and both satisfy it (for doubles by the bounds of
    Rounding.v).  A float is stored through [Decimal(str(x))] rounded to the
    column's scale, which the double instance takes as a parameter.
    Identifiers that the database generates are arguments.  Log records and
    bus events are not modelled; [created_at] is the order of the list. *)

From Stdlib Require Import ZArith Lia SpecFloat.
From stdpp Require Import base tactics strings gmap relations list.
From S2P Require Import Prelude PyStr Dict PyVal PyFloat Rounding.

(** ** Arithmetic *)

Class Arith (F : Type) := {
  f_of_units : Z → F;
  f_to_units : F → Z;
  f_plus : F → F → F;
  f_minus : F → F → F;
  f_opp : F → F;
  f_absolute : F → F;
  f_less : F → F → bool;
  f_lesseq : F → F → bool;
  f_round4 : F → F;
}.

(** A hundred million credits, the range of the columns, in units *)
Definition BOUND : Z := 1000000000000.

(** An implementation that is nearly exact: a number has the exact value
    [worth / grain], in units, and within the range of the ledger every operation
    is off by at most [slack], a hundredth of a unit.  Storing rounds to the
    nearest unit. *)
Class TightArith (F : Type) `{Arith F} := {
  proper : F → Prop;
  worth : F → Z;
  grain : Z;
  slack : Z;
  slack_small : (0 <= slack ∧ 100 * slack <= grain ∧ 0 < grain)%Z;
  of_units_tight k : (Z.abs k <= BOUND)%Z →
    proper (f_of_units k) ∧ (Z.abs (worth (f_of_units k) - k * grain) <= slack)%Z;
  plus_tight a b : proper a → proper b → (Z.abs (worth a + worth b) <= 10 * BOUND * grain)%Z →
    proper (f_plus a b) ∧ (Z.abs (worth (f_plus a b) - (worth a + worth b)) <= slack)%Z;
  minus_tight a b : proper a → proper b → (Z.abs (worth a - worth b) <= 10 * BOUND * grain)%Z →
    proper (f_minus a b) ∧ (Z.abs (worth (f_minus a b) - (worth a - worth b)) <= slack)%Z;
  opp_tight a : proper a → proper (f_opp a) ∧ worth (f_opp a) = (- worth a)%Z;
  abs_tight a : proper a → proper (f_absolute a) ∧ worth (f_absolute a) = Z.abs (worth a);
  less_tight a b : proper a → proper b → f_less a b = (worth a <? worth b)%Z;
  lesseq_tight a b : proper a → proper b → f_lesseq a b = (worth a <=? worth b)%Z;
  stored_tight a : proper a →
    (Z.abs (worth a) <= 10 * BOUND * grain ∨ Z.abs (f_to_units a) <= BOUND)%Z →
    (2 * Z.abs (f_to_units a * grain - worth a) <= grain + 2 * slack)%Z;
}.

(** [max(a, b)]: the first unless the second is larger *)
Definition f_greater `{Arith F} (a b : F) : F := if f_less a b then b else a.
Definition f_nought `{Arith F} : F := f_of_units 0.

#[export] Instance Exact : Arith Z := {|
  f_of_units k := k; f_to_units k := k; f_plus := Z.add; f_minus := Z.sub; f_opp := Z.opp;
  f_absolute := Z.abs; f_less := Z.ltb; f_lesseq := Z.leb; f_round4 k := k |}.

#[export] Instance Exact_tight : TightArith Z.
Proof.
  refine {| proper _ := True; worth k := k; grain := 1%Z; slack := 0%Z |}; cbn; intros; try done; lia.
Defined.

(** Doubles; [stored] is [Decimal(str(x))] at scale 4. *)
Definition IEEE (stored : spec_float → Z) : Arith spec_float := {|
  f_of_units k := f_div (binary_normalize 53 1024 k 0 false) (binary_normalize 53 1024 10000 0 false);
  f_to_units := stored;
  f_plus := SFadd 53 1024; f_minus := SFsub 53 1024; f_opp := SFopp; f_absolute := SFabs;
  f_less := f_lt; f_lesseq x y := f_ge y x;
  f_round4 x :=
    match num_of_float x with
    | NFin m e =>
        let k := if (0 <=? e)%Z then (m * 2 ^ e * 10000)%Z
                 else round_half_even (m * 10000) (2 ^ (- e)) in
        f_div (binary_normalize 53 1024 k 0 false) (binary_normalize 53 1024 10000 0 false)
    | _ => x
    end |}.

(** What [Decimal(str(x))] and the column promise: [str] gives a decimal that reads
    back as [x], so that it is less than a last bit away, and the database rounds it
    to the nearest unit. *)
Definition faithful_store (stored : spec_float → Z) : Prop :=
  ∀ x, is_number x →
    (2 * Z.abs (stored x * 2 ^ 1074 - 10000 * ticks x) <= 2 ^ 1074 + Z.abs (10000 * ticks x) / 2 ^ 50)%Z.

(** The nearest unit of the exact value *)
Definition nearest_store (x : spec_float) : Z :=
  ((2 * (10000 * ticks x) + 2 ^ 1074) / (2 * 2 ^ 1074))%Z.

Lemma nearest_store_faithful : faithful_store nearest_store.
Proof.
  intros x _. unfold nearest_store. set (W := (10000 * ticks x)%Z).
  assert (0 <= Z.abs W / 2 ^ 50)%Z by (apply Z.div_pos; lia).
  assert (0 < 2 ^ 1074)%Z as HG by by apply pow2_pos. set (G := (2 ^ 1074)%Z) in *.
  pose proof (Z.mul_div_le (2 * W + G) (2 * G) ltac:(lia)).
  pose proof (Z.mul_succ_div_gt (2 * W + G) (2 * G) ltac:(lia)). lia.
Qed.

Lemma double_slack :
  (10000 * (2 ^ (-26 + 1074) + last_bits 30) + last_bits 40 <= 2 ^ 1074 / 100 ∧
   10 * BOUND * 2 ^ 1074 <= 10000 * 2 ^ (30 + 1074) ∧
   10 * BOUND * 2 ^ 1074 <= 2 ^ 50 * (2 * (2 ^ 1074 / 100)) ∧ 100 * (2 ^ 1074 / 100) <= 2 ^ 1074)%Z.
Proof. vm_compute. repeat split; discriminate. Qed.

Section doubles.
Context (stored : spec_float → Z) (Hstored : faithful_store stored).
#[local] Instance double_arith : Arith spec_float := IEEE stored.

Lemma double_of_units k :
  (Z.abs k <= BOUND)%Z →
  is_number (f_of_units k) ∧ (Z.abs (10000 * ticks (f_of_units k) - k * 2 ^ 1074) <= 2 ^ 1074 / 100)%Z.
Proof.
  intros Hk. assert (BOUND <= 2 ^ 40 - 1)%Z as HB by (by vm_compute).
  assert (Z.abs k * 2 ^ (0 + 1074) <= 2 ^ (40 + 1074))%Z as Hn.
  { rewrite (Z.pow_add_r 2 40) by lia. apply Z.mul_le_mono_nonneg_r; [by apply Z.lt_le_incl, pow2_pos|lia]. }
  destruct (normalize_near k 0 false 40 ltac:(lia) ltac:(lia) Hn) as [Hx Hxe].
  change (0 + 1074)%Z with 1074%Z in *. fold (last_bits 40) in Hxe.
  pose proof double_slack as (Hs&_). set (x := binary_normalize 53 1024 k 0 false) in *.
  change (f_of_units k) with (f_div x (f_of_Z 10000)).
  destruct (div_10000_near x) as [Hy Hye]; [done| |split; [done|lia]].
  assert (last_bits 40 <= 2 ^ 1074)%Z by (by vm_compute).
  rewrite (Z.pow_add_r 2 40) by lia. assert (0 < 2 ^ 1074)%Z by by apply pow2_pos.
  assert (Z.abs (k * 2 ^ 1074) <= (2 ^ 40 - 1) * 2 ^ 1074)%Z; [|lia].
  rewrite Z.abs_mul, (Z.abs_eq (2 ^ 1074)) by lia. apply Z.mul_le_mono_nonneg_r; lia.
Qed.

Lemma double_stored x :
  is_number x → (Z.abs (10000 * ticks x) <= 10 * BOUND * 2 ^ 1074 ∨ Z.abs (stored x) <= BOUND)%Z →
  (2 * Z.abs (stored x * 2 ^ 1074 - 10000 * ticks x) <= 2 ^ 1074 + 2 * (2 ^ 1074 / 100))%Z.
Proof.
  intros Hx Hor. pose proof (Hstored x Hx) as Hs. pose proof double_slack as (_&_&Hb&_).
  pose proof (Z.mul_div_le (Z.abs (10000 * ticks x)) (2 ^ 50) ltac:(lia)) as Hd.
  assert (0 < 2 ^ 1074)%Z as HG by by apply pow2_pos. set (G := (2 ^ 1074)%Z) in *.
  set (W := (10000 * ticks x)%Z) in *. set (d := (Z.abs W / 2 ^ 50)%Z) in *. change (2 ^ 50)%Z with 1125899906842624%Z in *.
  assert (Z.abs W <= 10 * BOUND * G)%Z; [|lia].
  destruct Hor as [?|Hst]; [done|].
  assert (Z.abs (stored x * G) <= BOUND * G)%Z.
  { rewrite Z.abs_mul, (Z.abs_eq G) by lia. apply Z.mul_le_mono_nonneg_r; lia. }
  unfold BOUND in *. lia.
Qed.

#[local] Instance double_tight : TightArith spec_float.
Proof.
  refine {| proper := is_number; worth x := (10000 * ticks x)%Z; grain := (2 ^ 1074)%Z; slack := (2 ^ 1074 / 100)%Z |};
    pose proof double_slack as (Hs&Hr&_&Hg); pose proof (last_bits_pos 40 ltac:(lia));
    (assert (0 < 2 ^ 1074 ∧ 0 < 2 ^ (-26 + 1074))%Z as [HG HG2] by by split; apply pow2_pos).
  - split_and!; [by apply Z.div_pos|done|done].
  - exact double_of_units.
  - intros a b Ha Hb Hab. destruct (add_near a b 30 ltac:(lia) Ha Hb ltac:(lia)) as [Hn He].
    change (f_plus a b) with (f_add a b). split; [done|]. lia.
  - intros a b Ha Hb Hab. destruct (sub_near a b 30 ltac:(lia) Ha Hb ltac:(lia)) as [Hn He].
    change (f_minus a b) with (f_sub a b). split; [done|]. lia.
  - intros a Ha. change (f_opp a) with (f_neg a). rewrite neg_ticks. split; [by apply neg_number|lia].
  - intros a Ha. change (f_absolute a) with (f_abs a). rewrite abs_ticks. split; [by apply abs_number|lia].
  - intros a b Ha Hb. change (f_less a b) with (f_lt a b). rewrite lt_ticks by done. apply eq_true_iff_eq.
    rewrite !Z.ltb_lt. lia.
  - intros a b Ha Hb. change (f_lesseq a b) with (f_le a b). rewrite le_ticks by done. apply eq_true_iff_eq.
    rewrite !Z.leb_le. lia.
  - exact double_stored.
Defined.
End doubles.

(** ** State *)

Inductive WalletActionType := CREDIT | DEBIT | RESERVE | RELEASE.

#[export] Instance WalletActionType_eq_dec : EqDecision WalletActionType.
Proof. solve_decision. Defined.

(** [reservation_of] is the entry [reservation_event_id] of the metadata. *)
Record WalletEvent := {
  wallet_event_id : string;
  workflow_id : string;
  agent_id : option string;
  action_type : WalletActionType;
  credit_delta : Z;
  balance_after : Z;
  reason : string;
  reservation_of : option string;
  idempotency_key : option string;
}.

Record Workflow := { budget_limit : Z; budget_used : Z }.

Record wallet (F : Type) := {
  workflows : gmap string Workflow;
  events : list WalletEvent;
  balance_cache : gmap string F;
}.
Arguments workflows {F}.
Arguments events {F}.
Arguments balance_cache {F}.

Inductive wallet_error :=
  ValidationError | NotFoundError | BudgetExhaustedError | IntegrityError.

#[export] Instance wallet_error_eq_dec : EqDecision wallet_error.
Proof. solve_decision. Defined.

Record WalletBalanceResponse (F : Type) := {
  r_budget_limit : F;
  r_budget_used : F;
  r_budget_remaining : F;
  r_reserved : F;
  r_available : F;
}.
Arguments r_budget_used {F}.
Arguments r_available {F}.

Definition of_type (t : WalletActionType) (wid : string) (evs : list WalletEvent)
    : list WalletEvent :=
  filter (λ e, workflow_id e = wid ∧ action_type e = t) evs.

(** [coalesce(sum(f) FILTER (WHERE action_type = t), 0)] *)
Definition sum_of (f : Z → Z) (t : WalletActionType) (wid : string) (evs : list WalletEvent) : Z :=
  foldr (λ e acc, f (credit_delta e) + acc)%Z 0%Z (of_type t wid evs).

Definition _find_by_idempotency_key (key : string) (evs : list WalletEvent)
    : option WalletEvent :=
  snd <$> list_find (λ e, idempotency_key e = Some key) evs.

Definition find_reservation (id : string) (evs : list WalletEvent) : option WalletEvent :=
  snd <$> list_find (λ e, wallet_event_id e = id ∧ action_type e = RESERVE) evs.

(** [if idempotency_key: existing = ...] *)
Definition existing_event (key : option string) (evs : list WalletEvent) : option WalletEvent :=
  match key with
  | Some k => if str_empty k then None else _find_by_idempotency_key k evs
  | None => None
  end.

(** ** The service *)

Section service.
Context {F : Type} `{Arith F}.

Abbreviation wallet := (wallet F).

Definition _compute_balance_from_events (wid : string) (w : wallet) : F :=
  let total_debits := f_of_units (sum_of (λ d, d) DEBIT wid (events w)) in
  let total_credits := f_of_units (sum_of (λ d, d) CREDIT wid (events w)) in
  f_greater f_nought (f_minus (f_absolute total_debits) total_credits).

Definition _compute_reserved (wid : string) (w : wallet) : F :=
  let total_reserved := f_of_units (sum_of Z.abs RESERVE wid (events w)) in
  let total_released := f_of_units (sum_of (λ d, d) RELEASE wid (events w)) in
  f_greater f_nought (f_minus total_reserved total_released).

Definition _get_workflow (wid : string) (w : wallet) : res wallet_error Workflow :=
  res_of_option NotFoundError (workflows w !! wid).

Definition _invalidate_cache (wid : string) (w : wallet) : wallet :=
  {| workflows := workflows w; events := events w; balance_cache := delete wid (balance_cache w) |}.

Definition cache_expire (wid : string) (w : wallet) : wallet := _invalidate_cache wid w.

(** [session.add(event); flush()]: the workflow must exist, and the key column
    is unique, nulls apart. *)
Definition insert_event (e : WalletEvent) (w : wallet) : res wallet_error wallet :=
  _ <~ res_of_option IntegrityError (workflows w !! workflow_id e);
  raise_if match idempotency_key e with
           | Some k => match _find_by_idempotency_key k (events w) with
                       | Some _ => true | None => false end
           | None => false
           end IntegrityError ;!
  Ok {| workflows := workflows w; events := events w ++ [e]; balance_cache := balance_cache w |}.

(** [UPDATE workflows SET budget_used = ...] *)
Definition set_budget_used (wid : string) (used : F) (w : wallet) : wallet := {|
  workflows := alter (λ wf, {| budget_limit := budget_limit wf; budget_used := f_to_units used |})
                 wid (workflows w);
  events := events w; balance_cache := balance_cache w |}.

Definition mk_event (id wid : string) (agent : option string) (t : WalletActionType)
    (delta after : F) (why : string) (resv key : option string) : WalletEvent := {|
  wallet_event_id := id; workflow_id := wid; agent_id := agent; action_type := t;
  credit_delta := f_to_units delta; balance_after := f_to_units after; reason := why;
  reservation_of := resv; idempotency_key := key |}.

Definition get_balance (wid : string) (w : wallet)
    : res wallet_error (WalletBalanceResponse F * wallet) :=
  workflow <~ _get_workflow wid w;
  let '(ledger_used, w) :=
    match balance_cache w !! wid with
    | Some cached => (cached, w)
    | None =>
        let used := _compute_balance_from_events wid w in
        (used, {| workflows := workflows w; events := events w;
                  balance_cache := <[wid := used]> (balance_cache w) |})
    end in
  let used := f_greater ledger_used (f_of_units (budget_used workflow)) in
  let reserved := _compute_reserved wid w in
  let limit := f_of_units (budget_limit workflow) in
  let remaining := f_minus limit used in
  let available := f_minus remaining reserved in
  Ok ({| r_budget_limit := limit; r_budget_used := f_round4 used;
         r_budget_remaining := f_round4 (f_greater f_nought remaining);
         r_reserved := f_round4 reserved;
         r_available := f_round4 (f_greater f_nought available) |}, w).

(** The flush of a keyed event: [race] is what other sessions committed since
    the lookup of the key.  On a conflict the transaction is rolled back and
    the key looked up again. *)
Definition flush_keyed (event : WalletEvent) (race : list WalletEvent) (w : wallet)
    : res wallet_error (WalletEvent * wallet) :=
  let w := {| workflows := workflows w; events := events w ++ race;
              balance_cache := balance_cache w |} in
  match insert_event event w with
  | Ok w' => Ok (event, _invalidate_cache (workflow_id event) w')
  | Err IntegrityError =>
      match existing_event (idempotency_key event) (events w) with
      | Some e => Ok (e, w)
      | None => Err IntegrityError
      end
  | Err err => Err err
  end.

Definition reserve_budget (new_id wid agent : string) (estimated_cost : F) (why : string)
    (key : option string) (race : list WalletEvent) (w : wallet) : res wallet_error (WalletEvent * wallet) :=
  raise_if (f_lesseq estimated_cost f_nought) ValidationError ;!
  match existing_event key (events w) with
  | Some e => Ok (e, w)
  | None =>
      workflow <~ _get_workflow wid w;
      let used := _compute_balance_from_events wid w in
      let reserved := _compute_reserved wid w in
      let available := f_minus (f_minus (f_of_units (budget_limit workflow)) used) reserved in
      raise_if (f_less available estimated_cost) BudgetExhaustedError ;!
      let event := mk_event new_id wid (Some agent) RESERVE (f_opp estimated_cost)
                     (f_plus used estimated_cost) why None key in
      flush_keyed event race w
  end.

Definition charge (release_id new_id wid agent : string) (actual_cost : F) (reservation_id : string)
    (why : string) (key : option string) (w : wallet) : res wallet_error (WalletEvent * wallet) :=
  match existing_event key (events w) with
  | Some e => Ok (e, w)
  | None =>
      reservation <~ res_of_option NotFoundError (find_reservation reservation_id (events w));
      let reserved_amount := f_absolute (f_of_units (credit_delta reservation)) in
      w <~ insert_event (mk_event release_id wid (Some agent) RELEASE reserved_amount f_nought
                           ("Release reservation " +:+ reservation_id) (Some reservation_id) None) w;
      let used := _compute_balance_from_events wid w in
      let new_balance := f_plus used actual_cost in
      let event := mk_event new_id wid (Some agent) DEBIT (f_opp actual_cost) new_balance why
                     (Some reservation_id) key in
      w <~ insert_event event w;
      Ok (event, _invalidate_cache wid (set_budget_used wid new_balance w))
  end.

Definition release_reservation (new_id wid reservation_id why : string) (key : option string)
    (race : list WalletEvent) (w : wallet) : res wallet_error (WalletEvent * wallet) :=
  match existing_event key (events w) with
  | Some e => Ok (e, w)
  | None =>
      reservation <~ res_of_option NotFoundError (find_reservation reservation_id (events w));
      let reserved_amount := f_absolute (f_of_units (credit_delta reservation)) in
      let event := mk_event new_id wid (agent_id reservation) RELEASE reserved_amount f_nought why
                     (Some reservation_id) key in
      flush_keyed event race w
  end.

Definition _get_noop (wid : string) : WalletEvent :=
  mk_event "" wid None DEBIT f_nought f_nought "noop" None None.

Definition record_internal_cost (new_id wid : string) (amount : F) (why : string)
    (agent : option string) (w : wallet) : res wallet_error (WalletEvent * wallet) :=
  if f_lesseq amount f_nought then Ok (_get_noop wid, w)
  else
    workflow <~ _get_workflow wid w;
    let new_balance := f_plus (_compute_balance_from_events wid w) amount in
    raise_if (f_less (f_of_units (budget_limit workflow)) new_balance) BudgetExhaustedError ;!
    let event := mk_event new_id wid agent DEBIT (f_opp amount) new_balance why None None in
    w <~ insert_event event w;
    Ok (event, _invalidate_cache wid (set_budget_used wid new_balance w)).

Definition credit (new_id wid : string) (amount : F) (why : string) (w : wallet)
    : res wallet_error (WalletEvent * wallet) :=
  _ <~ _get_workflow wid w;
  let new_balance := f_greater f_nought (f_minus (_compute_balance_from_events wid w) amount) in
  let event := mk_event new_id wid None CREDIT amount new_balance why None None in
  w <~ insert_event event w;
  Ok (event, _invalidate_cache wid w).

Definition shown (wid : string) (t : option WalletActionType) (e : WalletEvent) : Prop :=
  workflow_id e = wid ∧ match t with Some t => action_type e = t | None => True end.

#[export] Instance shown_dec wid t e : Decision (shown wid t e).
Proof. unfold shown. destruct t; apply _. Defined.

(** Newest first *)
Definition get_events (wid : string) (page page_size : nat) (t : option WalletActionType)
    (w : wallet) : list WalletEvent * nat :=
  let found := filter (shown wid t) (events w) in
  (take page_size (drop ((page - 1) * page_size) (reverse found)), length found).
End service.

(** ** Examples *)

Definition fresh_wallet (limit : Z) : wallet Z :=
  {| workflows := {["w" := {| budget_limit := limit; budget_used := 0 |}]};
     events := []; balance_cache := ∅ |}.

(** Releasing one reservation twice gives back the hold of another: the third
    reservation is accepted although 10 are still held out of 10. *)
Example double_release :
  (r1 <~ reserve_budget "r1" "w" "a" 10%Z "" None [] (fresh_wallet 20);
   r2 <~ reserve_budget "r2" "w" "a" 10%Z "" None [] r1.2;
   x1 <~ release_reservation "x1" "w" "r1" "" None [] r2.2;
   x2 <~ release_reservation "x2" "w" "r1" "" None [] x1.2;
   r3 <~ reserve_budget "r3" "w" "a" 20%Z "" None [] x2.2;
   Ok (_compute_reserved "w" r3.2)) = Ok 20%Z.
Proof. vm_compute. reflexivity. Qed.

(** A direct debit ignores what is held. *)
Example internal_cost_ignores_holds :
  (r1 <~ reserve_budget "r1" "w" "a" 20%Z "" None [] (fresh_wallet 20);
   x <~ record_internal_cost "d" "w" 20%Z "" None r1.2;
   Ok (_compute_balance_from_events "w" x.2, _compute_reserved "w" x.2)) = Ok (20%Z, 20%Z).
Proof. vm_compute. reflexivity. Qed.

(** Doubles: 0.1 + 0.2 exceeds a budget of 0.3. *)
Example ieee_reserve :
  f_less (Arith := IEEE (λ _, 0%Z))
    (f_of_units (Arith := IEEE (λ _, 0%Z)) 3000)
    (f_plus (Arith := IEEE (λ _, 0%Z)) (f_of_units (Arith := IEEE (λ _, 0%Z)) 1000)
       (f_of_units (Arith := IEEE (λ _, 0%Z)) 2000)) = true.
Proof. vm_compute. reflexivity. Qed.

(** ** Lemmas *)

Lemma sum_of_app f t wid evs e :
  sum_of f t wid (evs ++ [e]) =
  (sum_of f t wid evs +
   (if decide (workflow_id e = wid ∧ action_type e = t) then f (credit_delta e) else 0))%Z.
Proof.
  unfold sum_of, of_type. rewrite filter_app, filter_cons, filter_nil.
  generalize (filter (λ e, workflow_id e = wid ∧ action_type e = t) evs). intros l.
  rewrite foldr_app. destruct (decide _); cbn [foldr].
  - induction l as [|x l IH]; cbn [foldr]; lia.
  - induction l as [|x l IH]; cbn [foldr]; lia.
Qed.

Lemma sum_of_other f t wid evs es :
  Forall (λ e, workflow_id e ≠ wid) es → sum_of f t wid (evs ++ es) = sum_of f t wid evs.
Proof.
  intros Hes. unfold sum_of, of_type. rewrite filter_app.
  assert (filter (λ e, workflow_id e = wid ∧ action_type e = t) es = []) as ->.
  { induction Hes as [|e es He _ IH]; [done|]. rewrite filter_cons_False; [done|]. naive_solver. }
  by rewrite app_nil_r.
Qed.

Definition used_units (wid : string) (evs : list WalletEvent) : Z :=
  Z.max 0 (Z.abs (sum_of (λ d, d) DEBIT wid evs) - sum_of (λ d, d) CREDIT wid evs).
Definition held_units (wid : string) (evs : list WalletEvent) : Z :=
  (sum_of Z.abs RESERVE wid evs - sum_of (λ d, d) RELEASE wid evs)%Z.

(** All that was ever entered for the workflow, whatever its kind *)
Definition turnover (wid : string) (evs : list WalletEvent) : Z :=
  foldr (λ e acc, Z.abs (credit_delta e) + acc)%Z 0%Z (filter (λ e, workflow_id e = wid) evs).

Lemma turnover_app wid evs es : turnover wid (evs ++ es) = (turnover wid evs + turnover wid es)%Z.
Proof.
  unfold turnover. rewrite filter_app. induction (filter _ evs) as [|e l IH]; cbn [app foldr]; lia.
Qed.

Lemma turnover_nonneg wid evs : (0 <= turnover wid evs)%Z.
Proof. unfold turnover. induction (filter _ evs) as [|e l IH]; cbn [foldr]; lia. Qed.

Lemma sum_turnover f t wid evs :
  (∀ d, Z.abs (f d) <= Z.abs d)%Z → (Z.abs (sum_of f t wid evs) <= turnover wid evs)%Z.
Proof.
  intros Hf. induction evs as [|e evs IH]; [done|]. unfold sum_of, of_type, turnover in *. rewrite !filter_cons.
  pose proof (Hf (credit_delta e)). repeat case_decide; cbn [foldr]; try lia. naive_solver.
Qed.

Lemma entry_turnover wid e evs :
  e ∈ evs → workflow_id e = wid → (Z.abs (credit_delta e) <= turnover wid evs)%Z.
Proof.
  intros (l1&l2&->)%list_elem_of_split Hw. rewrite turnover_app. pose proof (turnover_nonneg wid l1).
  pose proof (turnover_nonneg wid l2) as H2. unfold turnover in *. rewrite filter_cons_True by done. cbn [foldr]. lia.
Qed.

Section laws.
Context {F : Type} `{TightArith F}.
#[local] Open Scope Z_scope.

Lemma scaled_bound k b : Z.abs k <= b → Z.abs (k * grain) <= b * grain.
Proof. pose proof slack_small. intros. rewrite Z.abs_mul, (Z.abs_eq grain) by lia. apply Z.mul_le_mono_nonneg_r; lia. Qed.

Lemma units_le a b : a * grain < b * grain + grain → a <= b.
Proof. pose proof slack_small. intros. nia. Qed.

(** [x] is a number less than [n] roundings away from [k] units. *)
Definition near (n : Z) (x : F) (k : Z) : Prop := proper x ∧ Z.abs (worth x - k * grain) <= n * slack.

Lemma near_units k : Z.abs k <= BOUND → near 1 (f_of_units k) k.
Proof. intros Hk. destruct (of_units_tight k Hk) as [? ?]. split; [done|lia]. Qed.

Lemma near_minus n m x y a b :
  near n x a → near m y b → 0 <= n <= 20 → 0 <= m <= 20 → Z.abs (a - b) <= 9 * BOUND →
  near (n + m + 1) (f_minus x y) (a - b).
Proof.
  intros [Hx Hxe] [Hy Hye] Hn Hm Hab. pose proof slack_small as (?&?&?).
  apply scaled_bound in Hab. rewrite Z.mul_sub_distr_r in Hab.
  assert (n * slack <= 20 * slack ∧ m * slack <= 20 * slack) as [? ?] by nia.
  destruct (minus_tight x y Hx Hy) as [? ?]; [unfold BOUND in *; lia|]. split; [done|]. lia.
Qed.

Lemma near_abs n x a : near n x a → near n (f_absolute x) (Z.abs a).
Proof.
  intros [Hx He]. pose proof slack_small as (?&?&?). destruct (abs_tight x Hx) as [? Hw]. split; [done|]. rewrite Hw.
  replace (Z.abs a * grain) with (Z.abs (a * grain)) by (rewrite Z.abs_mul; lia). lia.
Qed.

Lemma near_nought_max n x a : near n x a → 1 <= n → near n (f_greater f_nought x) (Z.max 0 a).
Proof.
  intros [Hx He] Hn. pose proof slack_small as (?&?&?).
  destruct (near_units 0) as [Hz Hze]; [by vm_compute|]. unfold f_greater, f_nought.
  rewrite less_tight by done. assert (1 * slack <= n * slack) by nia.
  assert (Z.max 0 a * grain = Z.max 0 (a * grain)) as Hmax by nia.
  destruct (Z.ltb_spec (worth (f_of_units 0)) (worth x)); (split; [done|]); rewrite Hmax; lia.
Qed.

(** What is nearly a whole number of units is stored as that number. *)
Lemma near_stored n x k : near n x k → 0 <= n <= 20 → Z.abs k <= 9 * BOUND → f_to_units x = k.
Proof.
  intros [Hx He] Hn Hk. pose proof slack_small as (?&?&?). apply scaled_bound in Hk.
  assert (n * slack <= 20 * slack) by nia. pose proof (stored_tight x Hx ltac:(left; unfold BOUND in *; lia)) as Hs.
  apply Z.le_antisymm; apply units_le; lia.
Qed.

Lemma balance_near wid (w : wallet F) :
  turnover wid (events w) <= BOUND → near 3 (_compute_balance_from_events wid w) (used_units wid (events w)).
Proof.
  intros Ht. pose proof (sum_turnover (λ d, d) DEBIT wid (events w) ltac:(cbn; lia)).
  pose proof (sum_turnover (λ d, d) CREDIT wid (events w) ltac:(cbn; lia)).
  apply near_nought_max; [|done]. apply (near_minus 1 1); [apply near_abs, near_units; lia|apply near_units; lia|lia..].
Qed.

Lemma reserved_near wid (w : wallet F) :
  turnover wid (events w) <= BOUND → near 3 (_compute_reserved wid w) (Z.max 0 (held_units wid (events w))).
Proof.
  intros Ht. pose proof (sum_turnover Z.abs RESERVE wid (events w) ltac:(cbn; lia)).
  pose proof (sum_turnover (λ d, d) RELEASE wid (events w) ltac:(cbn; lia)).
  apply near_nought_max; [|done]. apply (near_minus 1 1); [apply near_units; lia|apply near_units; lia|lia..].
Qed.

(** The amount of a debit or a hold, as it is stored, is within what is left when the
    float was. *)
Lemma stored_within x c k :
  near 9 x k → proper c → f_less x c = false → f_lesseq c f_nought = false → Z.abs k <= 9 * BOUND →
  f_to_units (f_opp c) <= 0 ∧ - f_to_units (f_opp c) <= k.
Proof.
  intros [Hx He] Hc Hlt Hpos Hk. pose proof slack_small as (?&?&?). apply scaled_bound in Hk.
  destruct (near_units 0) as [Hz Hze]; [by vm_compute|]. unfold f_nought in Hpos.
  rewrite less_tight in Hlt by done. rewrite lesseq_tight in Hpos by done.
  apply Z.ltb_ge in Hlt. apply Z.leb_gt in Hpos. destruct (opp_tight c Hc) as [Ho Hw].
  pose proof (stored_tight (f_opp c) Ho ltac:(left; rewrite Hw; unfold BOUND in *; lia)) as Hs.
  rewrite Hw in Hs. split; apply units_le; lia.
Qed.

Lemma insert_event_Ok e (w w' : wallet F) :
  insert_event e w = Ok w' →
  w' = {| workflows := workflows w; events := events w ++ [e]; balance_cache := balance_cache w |} ∧
  ∀ k, idempotency_key e = Some k → _find_by_idempotency_key k (events w) = None.
Proof.
  unfold insert_event. intros (?&_&(?&Hr%raise_if_Ok&[= <-])%res_bind_Ok)%res_bind_Ok.
  split; [done|]. intros k Hk. rewrite Hk in Hr. by destruct (_find_by_idempotency_key k _).
Qed.

Lemma flush_keyed_Ok e (w w' : wallet F) e' :
  flush_keyed e [] w = Ok (e', w') → existing_event (idempotency_key e) (events w) = None →
  e' = e ∧ workflows w' = workflows w ∧ events w' = events w ++ [e] ∧
  ∀ k, idempotency_key e = Some k → _find_by_idempotency_key k (events w) = None.
Proof.
  unfold flush_keyed. rewrite app_nil_r. intros Hf Hk. cbn [events] in Hf. rewrite Hk in Hf.
  destruct (insert_event e _) as [w1|[]] eqn:Hi; try done. injection Hf as <- <-.
  apply insert_event_Ok in Hi as [-> Hu]. done.
Qed.

Lemma used_bound wid evs : turnover wid evs <= BOUND → 0 <= used_units wid evs <= 2 * BOUND.
Proof.
  intros Ht. pose proof (sum_turnover (λ d, d) DEBIT wid evs ltac:(cbn; lia)).
  pose proof (sum_turnover (λ d, d) CREDIT wid evs ltac:(cbn; lia)). unfold used_units. lia.
Qed.

Lemma held_bound wid evs : turnover wid evs <= BOUND → Z.abs (held_units wid evs) <= 2 * BOUND.
Proof.
  intros Ht. pose proof (sum_turnover Z.abs RESERVE wid evs ltac:(cbn; lia)).
  pose proof (sum_turnover (λ d, d) RELEASE wid evs ltac:(cbn; lia)). unfold held_units. lia.
Qed.

(** What a successful new reservation did: the amount stored is within the limit
    less what is used and held. *)
Lemma reserve_Ok nid wid agent c why key (w w' : wallet F) e limit :
  reserve_budget nid wid agent c why key [] w = Ok (e, w') →
  existing_event key (events w) = None → proper c →
  budget_limit <$> workflows w !! wid = Some limit → 0 <= limit <= BOUND → turnover wid (events w) <= BOUND →
  credit_delta e <= 0 ∧
  used_units wid (events w) + Z.max 0 (held_units wid (events w)) - credit_delta e <= limit ∧
  workflows w' = workflows w ∧ events w' = events w ++ [e] ∧
  wallet_event_id e = nid ∧ workflow_id e = wid ∧ action_type e = RESERVE.
Proof.
  unfold reserve_budget. intros Hr Hk Hc Hl Hlim Ht. apply res_bind_Ok in Hr as (?&Hpos%raise_if_Ok&Hr).
  rewrite Hk in Hr. apply res_bind_Ok in Hr as (wf&Hwf&Hr). apply res_bind_Ok in Hr as (?&Hless%raise_if_Ok&Hr).
  apply flush_keyed_Ok in Hr as (->&Hws&Hev&_); [|done].
  unfold _get_workflow in Hwf. destruct (workflows w !! wid); [|done]. injection Hwf as ->. injection Hl as Hl.
  pose proof (used_bound wid (events w) Ht). pose proof (held_bound wid (events w) Ht).
  assert (near 9 (f_minus (f_minus (f_of_units (budget_limit wf)) (_compute_balance_from_events wid w))
            (_compute_reserved wid w)) (limit - used_units wid (events w) - Z.max 0 (held_units wid (events w)))) as Hav.
  { rewrite Hl. apply (near_minus 5 3); [apply (near_minus 1 3)|by apply reserved_near|unfold BOUND in *; lia..];
      [apply near_units; lia|by apply balance_near|unfold BOUND in *; lia..]. }
  destruct (stored_within _ c _ Hav Hc Hless Hpos) as [? ?]; [unfold BOUND in *; lia|].
  cbn. split_and!; try done; lia.
Qed.

(** What a release stores is what was reserved. *)
Lemma released_amount d : Z.abs d <= BOUND → f_to_units (f_absolute (f_of_units d : F)) = Z.abs d.
Proof.
  intros Hd. apply (near_stored 1); [by apply near_abs, near_units|lia|]. unfold BOUND in *. lia.
Qed.

(** What a new charge on a reservation did *)
Lemma charge_Ok rlid nid wid agent c rid why key (w w' : wallet F) e r :
  charge rlid nid wid agent c rid why key w = Ok (e, w') →
  existing_event key (events w) = None → find_reservation rid (events w) = Some r →
  Z.abs (credit_delta r) <= BOUND →
  ∃ rl, events w' = events w ++ [rl; e] ∧
    workflow_id rl = wid ∧ action_type rl = RELEASE ∧ credit_delta rl = Z.abs (credit_delta r) ∧
    workflow_id e = wid ∧ action_type e = DEBIT ∧
    ∀ x, budget_limit <$> workflows w' !! x = budget_limit <$> workflows w !! x.
Proof.
  unfold charge. intros Hc Hk Hr Hb. rewrite Hk, Hr in Hc. cbn [res_of_option res_bind] in Hc.
  apply res_bind_Ok in Hc as (w1&Hi1&Hc). apply insert_event_Ok in Hi1 as [-> _].
  apply res_bind_Ok in Hc as (w2&Hi2&[= <- <-]). apply insert_event_Ok in Hi2 as [-> _].
  eexists. cbn. rewrite <-app_assoc. split; [reflexivity|]. cbn. split_and!; try done; [by apply released_amount|].
  intros x. destruct (decide (x = wid)) as [->|Hne].
  - rewrite lookup_alter_eq. by destruct (workflows w !! wid).
  - by rewrite lookup_alter_ne.
Qed.

(** What a new release did *)
Lemma release_Ok nid wid rid why key (w w' : wallet F) e r :
  release_reservation nid wid rid why key [] w = Ok (e, w') →
  existing_event key (events w) = None → find_reservation rid (events w) = Some r →
  Z.abs (credit_delta r) <= BOUND →
  events w' = events w ++ [e] ∧ workflows w' = workflows w ∧
    workflow_id e = wid ∧ action_type e = RELEASE ∧ credit_delta e = Z.abs (credit_delta r).
Proof.
  unfold release_reservation. intros Hc Hk Hr Hb. rewrite Hk, Hr in Hc.
  cbn [res_of_option res_bind] in Hc.
  apply flush_keyed_Ok in Hc as (->&Hws&Hev&_); [|done].
  rewrite Hws, Hev. cbn. rewrite released_amount by done. by split_and!.
Qed.

Lemma credit_Ok nid wid c why (w w' : wallet F) e :
  credit nid wid c why w = Ok (e, w') →
  events w' = events w ++ [e] ∧ workflows w' = workflows w ∧ workflow_id e = wid ∧ action_type e = CREDIT.
Proof.
  unfold credit. intros (wf&_&(w1&Hi&[= <- <-])%res_bind_Ok)%res_bind_Ok.
  by apply insert_event_Ok in Hi as [-> _].
Qed.

(** What a direct debit did: it is within the limit less what is used, whatever is
    held. *)
Lemma internal_cost_Ok nid wid c why agent (w w' : wallet F) e limit :
  record_internal_cost nid wid c why agent w = Ok (e, w') → f_lesseq c f_nought = false → proper c →
  budget_limit <$> workflows w !! wid = Some limit → 0 <= limit <= BOUND → turnover wid (events w') <= BOUND →
  credit_delta e <= 0 ∧ used_units wid (events w) - credit_delta e <= limit ∧
  events w' = events w ++ [e] ∧ workflow_id e = wid ∧ action_type e = DEBIT ∧
  ∀ x, budget_limit <$> workflows w' !! x = budget_limit <$> workflows w !! x.
Proof.
  unfold record_internal_cost. intros Hr Hpos Hc Hl Hlim Ht. rewrite Hpos in Hr.
  apply res_bind_Ok in Hr as (wf&Hwf&(?&Hless%raise_if_Ok&(w1&Hi&[= <- <-])%res_bind_Ok)%res_bind_Ok).
  unfold _get_workflow in Hwf. destruct (workflows w !! wid); [|done]. injection Hwf as ->. injection Hl as Hl.
  apply insert_event_Ok in Hi as [-> _]. cbn [events _invalidate_cache set_budget_used] in Ht.
  rewrite turnover_app in Ht. pose proof (turnover_nonneg wid (events w)).
  set (e := mk_event _ _ _ _ _ _ _ _ _) in *. pose proof (entry_turnover wid e [e] ltac:(left) eq_refl) as Hde.
  pose proof (turnover_nonneg wid [e]). assert (turnover wid (events w) <= BOUND) as Ht0 by lia.
  pose proof (balance_near wid w Ht0) as [Hb Hbe]. pose proof (used_bound wid (events w) Ht0) as Hu.
  destruct (opp_tight c Hc) as [Ho Hw]. change (f_to_units (f_opp c)) with (credit_delta e) in *.
  pose proof (stored_tight (f_opp c) Ho ltac:(right; change (f_to_units (f_opp c)) with (credit_delta e); lia)) as Hs.
  rewrite Hw in Hs. change (f_to_units (f_opp c)) with (credit_delta e) in Hs.
  pose proof slack_small as (?&?&?). pose proof (scaled_bound (credit_delta e) BOUND ltac:(lia)) as Hd.
  pose proof (scaled_bound (used_units wid (events w)) (2 * BOUND) ltac:(lia)) as Hug.
  destruct (plus_tight _ c Hb Hc) as [Hp Hpe]; [unfold BOUND in *; lia|].
  destruct (of_units_tight (budget_limit wf)) as [Hlp Hle]; [lia|].
  rewrite less_tight in Hless by done. apply Z.ltb_ge in Hless.
  unfold f_nought in Hpos. destruct (of_units_tight 0) as [Hz Hze]; [by vm_compute|].
  rewrite lesseq_tight in Hpos by done. apply Z.leb_gt in Hpos.
  split_and!; [apply units_le; lia|apply units_le; lia|done|done|done|].
  intros y. cbn. destruct (decide (y = wid)) as [->|Hne].
  - rewrite lookup_alter_eq. by destruct (workflows w !! wid).
  - by rewrite lookup_alter_ne.
Qed.
End laws.

(** ** The budget account: abstract specification

    [held] maps the open reservations of one workflow to their amounts. *)

Definition held_total (held : gmap string Z) : Z := map_fold (λ _ a s, a + s)%Z 0%Z held.

Lemma held_insert held id a :
  held !! id = None → held_total (<[id := a]> held) = (a + held_total held)%Z.
Proof. intros Hn. unfold held_total. rewrite map_fold_insert_L; [done|intros; lia|done]. Qed.

Lemma held_delete held id a :
  held !! id = Some a → held_total held = (a + held_total (delete id held))%Z.
Proof. intros Hs. unfold held_total. rewrite (map_fold_delete_L _ _ id a); [done|intros; lia|done]. Qed.

Lemma held_nonneg held : map_Forall (λ _ a, (0 <= a)%Z) held → (0 <= held_total held)%Z.
Proof.
  unfold held_total. apply (map_fold_weak_ind (λ s m, map_Forall (λ _ a, (0 <= a)%Z) m → (0 <= s)%Z));
    [lia|].
  intros i a m s Hm IH Hall. apply map_Forall_insert in Hall as [Ha Hall]; [|done].
  specialize (IH Hall). lia.
Qed.

Lemma held_nonneg_le held id a :
  map_Forall (λ _ a, (0 <= a)%Z) held → held !! id = Some a → (a <= held_total held)%Z.
Proof.
  intros Hall Hl. rewrite (held_delete held id a Hl).
  assert (0 <= held_total (delete id held))%Z; [|lia]. apply held_nonneg. intros i x Hx.
  apply lookup_delete_Some in Hx as [_ Hx]. by apply (Hall i).
Qed.

(** Each open reservation is in the ledger with its amount. *)
Definition open_in (evs : list WalletEvent) (held : gmap string Z) : Prop :=
  map_Forall (λ id a, (0 <= a)%Z ∧
    ∃ e, find_reservation id evs = Some e ∧ Z.abs (credit_delta e) = a) held.

(** The ledger represents the account, which is within its limit up to the direct
    debits, and within twice its limit in any case. *)
Record represents {F} (wid : string) (limit : Z) (w : wallet F) (held : gmap string Z) (direct : Z) : Prop := {
  rp_limit : budget_limit <$> workflows w !! wid = Some limit;
  rp_debits : (sum_of (λ d, d) DEBIT wid (events w) <= 0)%Z;
  rp_held : held_units wid (events w) = held_total held;
  rp_open : open_in (events w) held;
  rp_direct : (0 <= direct)%Z;
  rp_held_limit : (held_total held <= limit)%Z;
  rp_within : (used_units wid (events w) + held_total held <= limit + Z.min direct limit)%Z;
}.

Definition fresh_id (id : string) (evs : list WalletEvent) : Prop :=
  Forall (λ e, wallet_event_id e ≠ id) evs.

(** One operation of a disciplined client of the workflow: it charges or
    releases only an open reservation, at most once, and charges no more than
    was reserved, in stored amounts; costs are numbers.  [direct] is a debit
    without a reservation, [other] any operation of other workflows, [replay] a
    repeated call that finds its idempotency key, or a call that does nothing.  The
    state is the wallet, the open reservations and the sum of the direct debits. *)
Inductive account_step {F} `{TightArith F} (wid : string)
    : wallet F * gmap string Z * Z → wallet F * gmap string Z * Z → Prop :=
  | step_reserve w held direct nid agent c why key e w' :
      reserve_budget nid wid agent c why key [] w = Ok (e, w') → proper c →
      existing_event key (events w) = None → fresh_id nid (events w) →
      account_step wid (w, held, direct) (w', <[nid := Z.abs (credit_delta e)]> held, direct)
  | step_charge w held direct rlid nid agent c a rid why key e w' :
      charge rlid nid wid agent c rid why key w = Ok (e, w') →
      existing_event key (events w) = None → held !! rid = Some a → (0 <= - credit_delta e <= a)%Z →
      account_step wid (w, held, direct) (w', delete rid held, direct)
  | step_release w held direct nid a rid why key e w' :
      release_reservation nid wid rid why key [] w = Ok (e, w') →
      existing_event key (events w) = None → held !! rid = Some a →
      account_step wid (w, held, direct) (w', delete rid held, direct)
  | step_direct w held direct nid c why agent e w' :
      record_internal_cost nid wid c why agent w = Ok (e, w') → proper c → f_lesseq c f_nought = false →
      account_step wid (w, held, direct) (w', held, (direct + Z.abs (credit_delta e))%Z)
  | step_credit w held direct nid c why e w' :
      credit nid wid c why w = Ok (e, w') → (0 <= credit_delta e)%Z →
      account_step wid (w, held, direct) (w', held, direct)
  | step_other w held direct w' es :
      events w' = events w ++ es → Forall (λ e, workflow_id e ≠ wid) es →
      workflows w' !! wid = workflows w !! wid →
      account_step wid (w, held, direct) (w', held, direct)
  | step_replay w held direct : account_step wid (w, held, direct) (w, held, direct).

Lemma find_app {P : WalletEvent → Prop} `{!∀ x, Decision (P x)} evs es e :
  snd <$> list_find P evs = Some e → snd <$> list_find P (evs ++ es) = Some e.
Proof.
  intros ([i x]&Hf&->)%fmap_Some. by rewrite (list_find_app_l _ _ _ _ _ Hf).
Qed.

Lemma find_reservation_new id evs e :
  fresh_id id evs → wallet_event_id e = id → action_type e = RESERVE →
  find_reservation id (evs ++ [e]) = Some e.
Proof.
  intros Hf Hid Ht. unfold find_reservation. rewrite list_find_app_r.
  - cbn. by rewrite decide_True.
  - apply list_find_None. eapply Forall_impl; [exact Hf|]. naive_solver.
Qed.

Lemma open_app held evs es : open_in evs held → open_in (evs ++ es) held.
Proof.
  intros Ho. eapply map_Forall_impl; [exact Ho|]. intros id a (Ha&e&He&Hd).
  split; [done|]. exists e. split; [|done]. by apply find_app.
Qed.

Section refinement.
Context {F : Type} `{TightArith F} (wid : string) (limit : Z).
Hypothesis limit_range : (0 <= limit <= BOUND)%Z.
#[local] Open Scope Z_scope.

Lemma sums_app evs e (t : WalletActionType) :
  workflow_id e = wid → action_type e = t →
  used_units wid (evs ++ [e]) = Z.max 0
    (Z.abs (sum_of (λ d, d) DEBIT wid evs + match t with DEBIT => credit_delta e | _ => 0 end)
     - (sum_of (λ d, d) CREDIT wid evs + match t with CREDIT => credit_delta e | _ => 0 end)) ∧
  held_units wid (evs ++ [e]) =
    (held_units wid evs + match t with RESERVE => Z.abs (credit_delta e) | _ => 0 end
     - match t with RELEASE => credit_delta e | _ => 0 end)%Z ∧
  sum_of (λ d, d) DEBIT wid (evs ++ [e]) =
    (sum_of (λ d, d) DEBIT wid evs + match t with DEBIT => credit_delta e | _ => 0 end)%Z.
Proof.
  intros Hw Ht. unfold used_units, held_units. rewrite !sum_of_app.
  assert (∀ u (x : Z), (if decide (workflow_id e = wid ∧ action_type e = u) then x else 0)%Z
    = if decide (t = u) then x else 0%Z) as Hd.
  { intros u x. rewrite Hw, Ht. repeat case_decide; naive_solver. }
  rewrite !Hd. destruct t; repeat first [rewrite decide_True by done|rewrite decide_False by done];
    split_and!; lia.
Qed.

Lemma open_fresh held evs id : open_in evs held → fresh_id id evs → held !! id = None.
Proof.
  intros Ho Hf. destruct (held !! id) as [a|] eqn:E; [|done].
  apply Ho in E as (_&e&He&_). unfold find_reservation in He.
  apply fmap_Some in He as ([i x]&Hl&->). apply list_find_Some in Hl as (Hx&[Hid _]&_).
  apply list_elem_of_lookup_2 in Hx. by apply (proj1 (Forall_forall _ _) Hf) in Hx.
Qed.

Lemma open_delete held evs id : open_in evs held → open_in evs (delete id held).
Proof. intros Ho id' a Hl. apply lookup_delete_Some in Hl as [_ Hl]. by apply Ho. Qed.

Lemma open_nonneg held evs : open_in evs held → map_Forall (λ _ a, 0 <= a) held.
Proof. intros Ho. eapply map_Forall_impl; [exact Ho|]. by intros id a [Ha _]. Qed.

(** Every step only appends to the ledger. *)
Lemma step_appends s s' : account_step wid s s' → ∃ es, events s'.1.1 = events s.1.1 ++ es.
Proof.
  destruct 1 as [w held d nid agent c why key e w' Hr Hc Hk Hfr|w held d rlid nid agent c a rid why key e w' Hr Hk Hh Hc
    |w held d nid a rid why key e w' Hr Hk Hh|w held d nid c why ag e w' Hr Hc Hp|w held d nid c why e w' Hr Ha
    |w held d w' es Hev Hes Hwf|w held d]; cbn [fst snd].
  - unfold reserve_budget in Hr. rewrite Hk in Hr. repeat (apply res_bind_Ok in Hr as (?&_&Hr)).
    apply flush_keyed_Ok in Hr as (->&_&->&_); [by eexists|done].
  - unfold charge in Hr. rewrite Hk in Hr. apply res_bind_Ok in Hr as (?&_&(?&Hi1&(?&Hi2&[= <- <-])%res_bind_Ok)%res_bind_Ok).
    apply insert_event_Ok in Hi1 as [-> _]. apply insert_event_Ok in Hi2 as [-> _]. cbn. rewrite <-app_assoc. by eexists.
  - unfold release_reservation in Hr. rewrite Hk in Hr. apply res_bind_Ok in Hr as (?&_&Hr).
    apply flush_keyed_Ok in Hr as (->&_&->&_); [by eexists|done].
  - unfold record_internal_cost in Hr. rewrite Hp in Hr.
    apply res_bind_Ok in Hr as (?&_&(?&_&(?&Hi&[= <- <-])%res_bind_Ok)%res_bind_Ok).
    apply insert_event_Ok in Hi as [-> _]. by eexists.
  - apply credit_Ok in Hr as (->&_). by eexists.
  - rewrite Hev. by eexists.
  - exists []. by rewrite app_nil_r.
Qed.

Abbreviation account s := (represents wid limit s.1.1 s.1.2 s.2).

Section operations.
Context (w : wallet F) (held : gmap string Z) (direct : Z).
Hypothesis before : represents wid limit w held direct.

Lemma reserve_step nid agent c why key e w' :
  reserve_budget nid wid agent c why key [] w = Ok (e, w') → proper c →
  existing_event key (events w) = None → fresh_id nid (events w) → turnover wid (events w) <= BOUND →
  represents wid limit w' (<[nid := Z.abs (credit_delta e)]> held) direct.
Proof.
  intros Hr Hc Hk Hfr Ht. destruct before as [Hlim Hdeb Hheld Hopen Hdir Hhl Hwithin].
  destruct (reserve_Ok _ _ _ _ _ _ _ _ _ _ Hr Hk Hc Hlim limit_range Ht) as (Ha&Hav&Hws&Hev&Hid&Hwid&Hty).
  destruct (sums_app (events w) e RESERVE Hwid Hty) as (Hu&Hh&Hdb).
  pose proof (open_fresh held _ _ Hopen Hfr) as Hnone. pose proof (held_nonneg _ (open_nonneg _ _ Hopen)).
  pose proof (used_bound wid (events w) Ht).
  split; rewrite ?Hev, ?Hws, ?held_insert by done; try done.
  - lia.
  - rewrite Hh. cbn. lia.
  - apply map_Forall_insert; [done|]. split; [|by apply open_app]. split; [lia|]. exists e.
    split; [by apply find_reservation_new|done].
  - lia.
  - rewrite Hu. unfold used_units in Hav. cbn. lia.
Qed.

Lemma open_bound rid a :
  held !! rid = Some a → ∃ r, find_reservation rid (events w) = Some r ∧ Z.abs (credit_delta r) = a ∧
    Z.abs (credit_delta r) <= BOUND ∧ held_total held = a + held_total (delete rid held).
Proof.
  intros Hh. destruct before as [Hlim Hdeb Hheld Hopen Hdir Hhl Hwithin].
  destruct (Hopen rid a Hh) as (Hpos&r&Hfind&Hra).
  pose proof (held_nonneg_le held rid a (open_nonneg _ _ Hopen) Hh). exists r. split_and!; [done|done|lia|by apply held_delete].
Qed.

Lemma charge_step rlid nid agent c a rid why key e w' :
  charge rlid nid wid agent c rid why key w = Ok (e, w') → existing_event key (events w) = None →
  held !! rid = Some a → 0 <= - credit_delta e <= a → represents wid limit w' (delete rid held) direct.
Proof.
  intros Hr Hk Hh Hc. destruct (open_bound rid a Hh) as (r&Hfind&Hra&Hb&Hdel).
  destruct before as [Hlim Hdeb Hheld Hopen Hdir Hhl Hwithin].
  destruct (charge_Ok _ _ _ _ _ _ _ _ _ _ _ _ Hr Hk Hfind Hb) as (rl&Hev&Hw1&Ht1&Hd1&Hw2&Ht2&Hlims).
  assert (events w ++ [rl; e] = (events w ++ [rl]) ++ [e]) as Happ by by rewrite <-app_assoc.
  destruct (sums_app (events w) rl RELEASE Hw1 Ht1) as (Hu1&Hh1&Hdb1).
  destruct (sums_app (events w ++ [rl]) e DEBIT Hw2 Ht2) as (Hu2&Hh2&Hdb2).
  assert (sum_of (λ d, d) CREDIT wid (events w ++ [rl]) = sum_of (λ d, d) CREDIT wid (events w)) as Hcr
    by (rewrite sum_of_app, decide_False; [lia|rewrite Ht1; naive_solver]).
  cbn in *. rewrite Hd1, Hra in Hh1. rewrite Hdb1 in Hu2, Hdb2. rewrite Hcr in Hu2. unfold used_units in Hwithin.
  split; rewrite ?Hev, ?Happ; [by rewrite Hlims|lia|lia| |done|lia|lia].
  apply open_delete. rewrite <-Happ. by apply open_app.
Qed.

Lemma release_step nid a rid why key e w' :
  release_reservation nid wid rid why key [] w = Ok (e, w') → existing_event key (events w) = None →
  held !! rid = Some a → represents wid limit w' (delete rid held) direct.
Proof.
  intros Hr Hk Hh. destruct (open_bound rid a Hh) as (r&Hfind&Hra&Hb&Hdel).
  destruct before as [Hlim Hdeb Hheld Hopen Hdir Hhl Hwithin].
  destruct (release_Ok _ _ _ _ _ _ _ _ _ Hr Hk Hfind Hb) as (Hev&Hws&Hw1&Ht1&Hd1).
  destruct (sums_app (events w) e RELEASE Hw1 Ht1) as (Hu1&Hh1&Hdb1).
  cbn in *. rewrite Hd1, Hra in Hh1. unfold used_units in Hwithin.
  split; rewrite ?Hev, ?Hws; [done|lia|lia| |done|lia|lia]. apply open_delete. by apply open_app.
Qed.

Lemma direct_step nid c why agent e w' :
  record_internal_cost nid wid c why agent w = Ok (e, w') → proper c → f_lesseq c f_nought = false →
  turnover wid (events w') <= BOUND → represents wid limit w' held (direct + Z.abs (credit_delta e)).
Proof.
  intros Hr Hc Hp Ht. destruct before as [Hlim Hdeb Hheld Hopen Hdir Hhl Hwithin].
  destruct (internal_cost_Ok _ _ _ _ _ _ _ _ _ Hr Hp Hc Hlim limit_range Ht) as (Ha&Hav&Hev&Hw1&Ht1&Hlims).
  destruct (sums_app (events w) e DEBIT Hw1 Ht1) as (Hu1&Hh1&Hdb1). cbn in *. unfold used_units in Hwithin, Hav.
  split; rewrite ?Hev; [by rewrite Hlims|lia|lia|by apply open_app|lia|lia|lia].
Qed.

Lemma credit_step nid c why e w' :
  credit nid wid c why w = Ok (e, w') → 0 <= credit_delta e → represents wid limit w' held direct.
Proof.
  intros Hr Ha. destruct before as [Hlim Hdeb Hheld Hopen Hdir Hhl Hwithin].
  destruct (credit_Ok _ _ _ _ _ _ _ Hr) as (Hev&Hws&Hw1&Ht1).
  destruct (sums_app (events w) e CREDIT Hw1 Ht1) as (Hu1&Hh1&Hdb1). cbn in *. unfold used_units in Hwithin.
  split; rewrite ?Hev; [by rewrite Hws|lia|lia|by apply open_app|done|done|lia].
Qed.

Lemma other_step w' es :
  events w' = events w ++ es → Forall (λ e, workflow_id e ≠ wid) es → workflows w' !! wid = workflows w !! wid →
  represents (F := F) wid limit w' held direct.
Proof.
  intros Hev Hes Hwf. destruct before as [Hlim Hdeb Hheld Hopen Hdir Hhl Hwithin].
  assert (∀ f t, sum_of f t wid (events w') = sum_of f t wid (events w)) as Hsum
    by (intros; rewrite Hev; by apply sum_of_other).
  unfold used_units, held_units in *.
  split; unfold used_units, held_units; rewrite ?Hsum; try done; [by rewrite Hwf|rewrite Hev; by apply open_app].
Qed.
End operations.

Lemma steps_represent s s' :
  rtc (account_step wid) s s' → account s → turnover wid (events s'.1.1) <= BOUND → account s'.
Proof.
  intros Hr Hs. revert s' Hr. apply (rtc_ind_r (λ s', turnover wid (events s'.1.1) <= BOUND → account s')); [done|].
  intros s1 s2 _ Hst IH Ht. assert (turnover wid (events s1.1.1) <= BOUND) as Ht1.
  { destruct (step_appends _ _ Hst) as [es E]. rewrite E, turnover_app in Ht. pose proof (turnover_nonneg wid es). lia. }
  specialize (IH Ht1). destruct Hst; cbn [fst snd] in *;
    eauto using reserve_step, charge_step, release_step, direct_step, credit_step, other_step.
Qed.

Lemma fresh_represents (w : wallet F) :
  budget_limit <$> workflows w !! wid = Some limit → Forall (λ e, workflow_id e ≠ wid) (events w) →
  represents wid limit w ∅ 0.
Proof.
  intros Hl Hes.
  assert (∀ f t, sum_of f t wid (events w) = 0) as Hz
    by (intros; rewrite <-(app_nil_l (events w)); by rewrite sum_of_other).
  split; unfold used_units, held_units; rewrite ?Hz; try done; change (held_total ∅) with 0; lia.
Qed.
End refinement.

Section replay.
Context {F : Type} `{Arith F}.

Lemma existing_key k evs : k ≠ "" → existing_event (Some k) evs = _find_by_idempotency_key k evs.
Proof. intros Hk. cbn. by destruct k. Qed.

Lemma find_key_new k evs es e :
  _find_by_idempotency_key k (evs ++ es) = None → idempotency_key e = Some k →
  _find_by_idempotency_key k (evs ++ es ++ [e]) = Some e.
Proof.
  unfold _find_by_idempotency_key. rewrite app_assoc. generalize (evs ++ es). intros l Hn Hk.
  rewrite list_find_app_r; [cbn; by rewrite decide_True|].
  by destruct (list_find _ l) as [[]|].
Qed.

Lemma flush_keyed_found k e race (w w1 : wallet F) e' :
  k ≠ "" → idempotency_key e = Some k → flush_keyed e race w = Ok (e', w1) →
  _find_by_idempotency_key k (events w1) = Some e'.
Proof.
  unfold flush_keyed. intros Hk He. rewrite He. intros Hf. cbn [events] in Hf.
  rewrite existing_key in Hf by done.
  destruct (insert_event e _) as [w2|[]] eqn:Hi; try done.
  - injection Hf as <- <-. apply insert_event_Ok in Hi as [-> Hu]. cbn in *.
    apply (find_key_new k _ []); [|done]. rewrite app_nil_r. by apply Hu.
  - destruct (_find_by_idempotency_key k _) eqn:E; [|done]. by injection Hf as <- <-.
Qed.

Lemma reserve_keyed nid wid agent c why k race (w w1 : wallet F) e :
  k ≠ "" → reserve_budget nid wid agent c why (Some k) race w = Ok (e, w1) →
  _find_by_idempotency_key k (events w1) = Some e.
Proof.
  intros Hk Hr. unfold reserve_budget in Hr. rewrite existing_key in Hr by done.
  apply res_bind_Ok in Hr as (?&_&Hr).
  destruct (_find_by_idempotency_key k (events w)) eqn:E; [congruence|].
  apply res_bind_Ok in Hr as (wf&_&(?&_&Hf)%res_bind_Ok). eapply flush_keyed_found; [exact Hk| |exact Hf]; reflexivity.
Qed.

Lemma charge_keyed rlid nid wid agent c rid why k (w w1 : wallet F) e :
  k ≠ "" → charge rlid nid wid agent c rid why (Some k) w = Ok (e, w1) →
  _find_by_idempotency_key k (events w1) = Some e.
Proof.
  intros Hk Hr. unfold charge in Hr. rewrite existing_key in Hr by done.
  destruct (_find_by_idempotency_key k (events w)) eqn:E; [congruence|].
  apply res_bind_Ok in Hr as (r&_&(w2&Hi1&(w3&Hi2&[= <- <-])%res_bind_Ok)%res_bind_Ok).
  apply insert_event_Ok in Hi1 as [-> _]. apply insert_event_Ok in Hi2 as [-> Hu].
  cbn in *. rewrite <-app_assoc. apply find_key_new; [by apply Hu|done].
Qed.

Lemma release_keyed nid wid rid why k race (w w1 : wallet F) e :
  k ≠ "" → release_reservation nid wid rid why (Some k) race w = Ok (e, w1) →
  _find_by_idempotency_key k (events w1) = Some e.
Proof.
  intros Hk Hr. unfold release_reservation in Hr. rewrite existing_key in Hr by done.
  destruct (_find_by_idempotency_key k (events w)) eqn:E; [congruence|].
  apply res_bind_Ok in Hr as (r&_&Hf). eapply flush_keyed_found; [exact Hk| |exact Hf]; reflexivity.
Qed.
End replay.

(** ** Theorems *)

(** C7: no overspending, in doubles.  Starting from a workflow without events whose
    limit is in the range of its column, let its clients perform any disciplined
    operations: reservations of any cost, charges and releases that settle each
    reservation at most once and for no more than was reserved (in the amounts the
    ledger stores), direct debits, credits and replays, interleaved with operations
    of other workflows, as long as no more than a hundred million credits are entered
    in all.  Then the service still computes and stores exactly what the ledger
    adds up to: what was used, and as reserved the sum of the open reservations.
    The two together stay within the limit when there were no direct debits; these
    ignore what is held, so that with them the limit is exceeded by at most their
    sum, and by at most the limit itself.  Rounding never adds to this. *)
Theorem no_overspend {F} `{TightArith F} wid limit (w w' : wallet F) held direct :
  budget_limit <$> workflows w !! wid = Some limit → (0 <= limit <= BOUND)%Z →
  Forall (λ e, workflow_id e ≠ wid) (events w) →
  rtc (account_step wid) (w, ∅, 0%Z) (w', held, direct) → (turnover wid (events w') <= BOUND)%Z →
  let used := used_units wid (events w') in
  let reserved := held_total held in
  f_to_units (_compute_balance_from_events wid w') = used ∧
  f_to_units (_compute_reserved wid w') = reserved ∧
  (0 <= used ∧ 0 <= reserved ∧ used + reserved <= limit + Z.min direct limit)%Z.
Proof.
  intros Hl Hpos Hes Hr Ht used reserved.
  destruct (steps_represent wid limit Hpos _ _ Hr (fresh_represents wid limit Hpos w Hl Hes) Ht)
    as [_ _ Hheld Hopen _ _ Hwithin]; cbn [fst snd] in *. fold used in Hwithin. fold reserved in Hheld, Hwithin.
  assert (0 <= reserved)%Z as Hnn by (apply held_nonneg; by eapply open_nonneg).
  pose proof (used_bound wid (events w') Ht) as Hu. fold used in Hu.
  pose proof (reserved_near wid w' Ht) as Hrn. rewrite Hheld, Z.max_r in Hrn by done.
  split_and!; try lia; [eapply near_stored; [by apply balance_near|lia|unfold BOUND in *; lia]
    |eapply near_stored; [exact Hrn|lia|unfold BOUND in *; lia]].
Qed.

#[local] Instance nearest_arith : Arith spec_float := IEEE nearest_store.
#[local] Instance nearest_tight : TightArith spec_float := double_tight nearest_store nearest_store_faithful.

Definition double_wallet : wallet spec_float :=
  {| workflows := {["w" := {| budget_limit := 3000; budget_used := 0 |}]};
     events := []; balance_cache := ∅ |}.

Definition tenths (n : Z) : spec_float := f_div (f_of_Z n) (f_of_Z 10).

(** A budget of 0.3 credits does not take 0.1 and 0.2: in doubles what is left after
    either is less than the other. *)
Example tight_budget_refused :
  (r1 <~ reserve_budget "r1" "w" "a" (tenths 1) "" None [] double_wallet;
   reserve_budget "r2" "w" "a" (tenths 2) "" None [] r1.2) = Err BudgetExhaustedError ∧
  (r1 <~ reserve_budget "r1" "w" "a" (tenths 2) "" None [] double_wallet;
   reserve_budget "r2" "w" "a" (tenths 1) "" None [] r1.2) = Err BudgetExhaustedError.
Proof. vm_compute. by split. Qed.

(** A run in doubles: 0.2 credits are reserved, 0.15 charged, and 0.1 debited directly. *)
Definition ok_or (p : WalletEvent * wallet spec_float) (r : res wallet_error (WalletEvent * wallet spec_float))
    : WalletEvent * wallet spec_float := match r with Ok q => q | Err _ => p end.
Definition run1 := ok_or (_get_noop "", double_wallet) (reserve_budget "r1" "w" "a" (tenths 2) "" None [] double_wallet).
Definition run2 := ok_or run1 (charge "x" "c" "w" "a" (f_div (f_of_Z 15) (f_of_Z 100)) "r1" "" None run1.2).
Definition run3 := ok_or run2 (record_internal_cost "d" "w" (tenths 1) "" None run2.2).

Lemma double_run : rtc (account_step "w") (double_wallet, ∅, 0%Z) (run3.2, ∅, 1000%Z).
Proof.
  assert (reserve_budget "r1" "w" "a" (tenths 2) "" None [] double_wallet = Ok (run1.1, run1.2)) as H1
    by (vm_compute; reflexivity).
  assert (charge "x" "c" "w" "a" (f_div (f_of_Z 15) (f_of_Z 100)) "r1" "" None run1.2 = Ok (run2.1, run2.2)) as H2
    by (vm_compute; reflexivity).
  assert (record_internal_cost "d" "w" (tenths 1) "" None run2.2 = Ok (run3.1, run3.2)) as H3
    by (vm_compute; reflexivity).
  assert (Z.abs (credit_delta run1.1) = 2000 ∧ credit_delta run2.1 = -1500 ∧ credit_delta run3.1 = -1000)%Z as (Hd1&Hd2&Hd3)
    by (repeat split; vm_compute; reflexivity).
  eapply rtc_l; [eapply step_reserve; [exact H1|vm_compute; discriminate|reflexivity|constructor]|]. rewrite Hd1.
  eapply rtc_l; [eapply (step_charge "w" _ _ _ _ _ _ _ 2000 "r1"); [exact H2|reflexivity|reflexivity|rewrite Hd2; lia]|].
  eapply rtc_l; [eapply step_direct; [exact H3|vm_compute; discriminate|vm_compute; reflexivity]|]. rewrite Hd3.
  change (delete "r1" (<["r1":=2000%Z]> ∅)) with (∅ : gmap string Z). apply rtc_refl.
Qed.

Lemma no_overspend_witness :
  f_to_units (_compute_balance_from_events "w" run3.2) = 2500%Z ∧
  f_to_units (_compute_reserved "w" run3.2) = 0%Z ∧ (2500 + 0 <= 3000 + Z.min 1000 3000)%Z.
Proof.
  destruct (no_overspend "w" 3000 double_wallet run3.2 ∅ 1000) as (Hu&Hr&_&_&Hw);
    [reflexivity|vm_compute; split; discriminate|constructor|exact double_run|vm_compute; discriminate|].
  assert (used_units "w" (events run3.2) = 2500%Z) as E by (vm_compute; reflexivity).
  rewrite E in *. split; [exact Hu|]. split; [exact Hr|exact Hw].
Defined.

(** Idempotency.  Once a call of [reserve_budget], [charge] or
    [release_reservation] with a non-empty key has returned an event, any later
    call of any of the three with this key returns the same event and changes
    nothing, whatever was appended to the ledger in between; also when the
    first call lost a race for the key and returned the event of the winner. *)
Theorem idempotent_replay {F} `{Arith F} k (w w1 w2 : wallet F) e more :
  k ≠ "" →
  (∃ nid wid agent c why race, reserve_budget nid wid agent c why (Some k) race w = Ok (e, w1)) ∨
  (∃ rlid nid wid agent c rid why, charge rlid nid wid agent c rid why (Some k) w = Ok (e, w1)) ∨
  (∃ nid wid rid why race, release_reservation nid wid rid why (Some k) race w = Ok (e, w1)) →
  events w2 = events w1 ++ more →
  (∀ nid wid agent c why race, f_lesseq c f_nought = false →
     reserve_budget nid wid agent c why (Some k) race w2 = Ok (e, w2)) ∧
  (∀ rlid nid wid agent c rid why, charge rlid nid wid agent c rid why (Some k) w2 = Ok (e, w2)) ∧
  (∀ nid wid rid why race, release_reservation nid wid rid why (Some k) race w2 = Ok (e, w2)).
Proof.
  intros Hk Hop Hev. assert (existing_event (Some k) (events w2) = Some e) as Hfound.
  { rewrite existing_key, Hev by done. apply find_app.
    destruct Hop as [(?&?&?&?&?&?&Hr)|[(?&?&?&?&?&?&?&Hr)|(?&?&?&?&?&Hr)]];
      [by eapply reserve_keyed|by eapply charge_keyed|by eapply release_keyed]. }
  split_and!; intros; [unfold reserve_budget|unfold charge|unfold release_reservation];
    rewrite Hfound; [|done..]. by match goal with Hc : f_lesseq _ _ = false |- _ => rewrite Hc end.
Qed.

Lemma idempotent_replay_witness :
  let w := fresh_wallet 20 in
  ∃ e w1, reserve_budget "r1" "w" "a" 10%Z "" (Some "k") [] w = Ok (e, w1) ∧
    reserve_budget "r2" "w" "b" 5%Z "again" (Some "k") [] w1 = Ok (e, w1).
Proof.
  intros w.
  destruct (reserve_budget "r1" "w" "a" 10%Z "" (Some "k") [] w) as [[e1 w1]|] eqn:E1;
    [|vm_compute in E1; discriminate E1].
  exists e1, w1. split; [reflexivity|].
  assert ("k" ≠ "") as Hk by discriminate.
  destruct (idempotent_replay "k" w w1 w1 e1 [] Hk) as (Hres&_).
  - left. exists "r1", "w", "a", 10%Z, "", []. exact E1.
  - rewrite app_nil_r. reflexivity.
  - apply Hres. reflexivity.
Defined.

Lemma exact_balance wid (w : wallet Z) :
  _compute_balance_from_events wid w = used_units wid (events w) ∧
  _compute_reserved wid w = Z.max 0 (held_units wid (events w)).
Proof.
  unfold _compute_balance_from_events, _compute_reserved, used_units, held_units, f_greater, f_nought. cbn.
  split; case_match eqn:E; lia.
Qed.

(** With exact arithmetic a new reservation is accepted exactly when its cost is
    positive, the workflow exists, and the cost is at most the limit less what is used
    and reserved (and its key, if any, is not in use); it then appends one RESERVE
    event of that amount. *)
Theorem reserve_budget_spec nid wid agent a why key (w : wallet Z) :
  existing_event key (events w) = None →
  (∀ k, key = Some k → _find_by_idempotency_key k (events w) = None) →
  let outcome := reserve_budget nid wid agent a why key [] w in
  let used := used_units wid (events w) in
  let reserved := Z.max 0 (held_units wid (events w)) in
  ((a <= 0)%Z → outcome = Err ValidationError) ∧
  ((0 < a)%Z → workflows w !! wid = None → outcome = Err NotFoundError) ∧
  (∀ wf, (0 < a)%Z → workflows w !! wid = Some wf →
     if decide (used + reserved + a <= budget_limit wf)%Z
     then ∃ e w', outcome = Ok (e, w') ∧ events w' = events w ++ [e] ∧
            workflow_id e = wid ∧ action_type e = RESERVE ∧ credit_delta e = (- a)%Z ∧
            balance_after e = (used + a)%Z
     else outcome = Err BudgetExhaustedError).
Proof.
  intros Hk Hu outcome used reserved. subst outcome. unfold reserve_budget.
  destruct (exact_balance wid w) as [-> ->]. rewrite Hk. fold used. fold reserved.
  change (f_lesseq a f_nought) with (a <=? 0)%Z. split_and!.
  - intros Ha%Z.leb_le. by rewrite Ha.
  - intros Ha%Z.leb_gt Hwf. rewrite Ha. unfold _get_workflow. by rewrite Hwf.
  - intros wf Ha%Z.leb_gt Hwf. rewrite Ha. unfold _get_workflow. rewrite Hwf.
    cbn [raise_if res_bind res_of_option].
    change (f_less (f_minus (f_minus (f_of_units (budget_limit wf)) used) reserved) a)
      with (budget_limit wf - used - reserved <? a)%Z.
    case_decide as Hd; destruct (Z.ltb_spec (budget_limit wf - used - reserved) a); try lia;
      cbn [raise_if res_bind]; [|done].
    unfold flush_keyed, insert_event. rewrite app_nil_r.
    cbn [workflow_id mk_event idempotency_key workflows events]. rewrite Hwf.
    cbn [res_of_option res_bind].
    assert (match key with Some k => match _find_by_idempotency_key k (events w) with
      | Some _ => true | None => false end | None => false end = false) as ->
      by (destruct key as [k|]; [by rewrite (Hu k)|done]).
    cbn [raise_if res_bind]. eexists _, _. split; [reflexivity|]. by cbn.
Qed.

Lemma reserve_budget_witness :
  ∃ e w', reserve_budget "r" "w" "a" 20%Z "" None [] (fresh_wallet 20) = Ok (e, w') ∧
    events w' = [e].
Proof.
  destruct (reserve_budget_spec "r" "w" "a" 20 "" None (fresh_wallet 20)) as (_&_&Hs).
  - reflexivity.
  - intros k Hk. discriminate Hk.
  - specialize (Hs {| budget_limit := 20; budget_used := 0 |} ltac:(lia) eq_refl).
    rewrite decide_True in Hs by (vm_compute; discriminate).
    destruct Hs as (e&w'&Hr&Hev&_). exists e, w'. split; [exact Hr|exact Hev].
Defined.
