(* ===== verification/Signer.v ===== *)
(** * Signer: Ed25519 keys and signatures

    Models [identity/signer.py].  The curve is third-party code: the class
    [Ed25519] has its primitives on raw bytes, [LawfulEd25519] what the code
    relies on.  Messages are byte strings, keys and signatures lists of
    bytes. *)

From Stdlib Require Import NArith Lia.
From stdpp Require Import base tactics strings list.
From S2P Require Import Prelude Base58.

(** [ed_point pk]: [from_public_bytes] accepts the 32 bytes *)
Class Ed25519 := {
  ed_public : list Byte.byte → list Byte.byte;
  ed_sign : list Byte.byte → string → list Byte.byte;
  ed_verify : list Byte.byte → string → list Byte.byte → bool;
  ed_point : list Byte.byte → bool;
}.

Class LawfulEd25519 `{Ed25519} := {
  ed_public_length seed : length seed = 32 → length (ed_public seed) = 32;
  ed_public_point seed : length seed = 32 → ed_point (ed_public seed) = true;
  ed_verify_sign seed m :
    length seed = 32 → ed_verify (ed_public seed) m (ed_sign seed m) = true;
}.

Record KeyPair := { private_seed : list Byte.byte; public_bytes : list Byte.byte }.

Definition make_keypair (seed pk : list Byte.byte) : res codec_error KeyPair :=
  raise_if (negb (length seed =? 32)) SignatureError ;!
  raise_if (negb (length pk =? 32)) SignatureError ;!
  Ok {| private_seed := seed; public_bytes := pk |}.

Section ed25519.
Context `{Ed25519}.

(** [entropy] is the seed that the library draws. *)
Definition generate_keypair (entropy : list Byte.byte) : res codec_error KeyPair :=
  make_keypair entropy (ed_public entropy).

Definition load_private_key (seed : list Byte.byte) : res codec_error (list Byte.byte) :=
  raise_if (negb (length seed =? 32)) SignatureError ;! Ok seed.

Definition load_public_key (pub : list Byte.byte) : res codec_error (list Byte.byte) :=
  raise_if (negb (length pub =? 32)) SignatureError ;!
  raise_if (negb (ed_point pub)) SignatureError ;! Ok pub.

Definition sign_bytes (message : string) (seed : list Byte.byte)
    : res codec_error (list Byte.byte) :=
  sk <~ load_private_key seed; Ok (ed_sign sk message).

Definition verify_bytes (message : string) (signature pub : list Byte.byte)
    : res codec_error bool :=
  pk <~ load_public_key pub; Ok (ed_verify pk message signature).

Definition public_key_multibase (pub : list Byte.byte) : res codec_error string :=
  raise_if (negb (length pub =? 32)) SignatureError ;! Ok (encode_multibase pub).

(** A pair whose halves belong together, as [generate_keypair] makes them *)
Definition proper_keypair (kp : KeyPair) : Prop :=
  length (private_seed kp) = 32 ∧ public_bytes kp = ed_public (private_seed kp).

Lemma generate_proper entropy kp : generate_keypair entropy = Ok kp → proper_keypair kp.
Proof.
  unfold generate_keypair, make_keypair.
  intros (?&Hl%raise_if_Ok&(?&_&[= <-])%res_bind_Ok)%res_bind_Ok.
  apply negb_false_iff, Nat.eqb_eq in Hl. by split.
Qed.

Lemma sign_verify `{!LawfulEd25519} kp m s :
  proper_keypair kp → sign_bytes m (private_seed kp) = Ok s →
  verify_bytes m s (public_bytes kp) = Ok true.
Proof.
  intros [Hl ->]. unfold sign_bytes, load_private_key, verify_bytes, load_public_key.
  rewrite Hl. cbn. intros [= <-]. rewrite ed_public_length, ed_public_point by done. cbn.
  by rewrite ed_verify_sign.
Qed.

Lemma sign_bytes_Ok kp m :
  proper_keypair kp → sign_bytes m (private_seed kp) = Ok (ed_sign (private_seed kp) m).
Proof. intros [Hl _]. unfold sign_bytes, load_private_key. by rewrite Hl. Qed.
End ed25519.

(** A signature scheme to evaluate the definitions with; it has no security. *)
Definition toy_public (seed : list Byte.byte) : list Byte.byte := seed.
Definition toy_sign (seed : list Byte.byte) (m : string) : list Byte.byte :=
  seed ++ String.list_byte_of_string m.

#[export] Instance toy_ed25519 : Ed25519 := {|
  ed_public := toy_public; ed_sign := toy_sign;
  ed_verify pk m s := bool_decide (s = toy_sign pk m);
  ed_point _ := true |}.

#[export] Instance toy_lawful : LawfulEd25519.
Proof. split; cbn; [done..|]. intros. by apply bool_decide_eq_true_2. Qed.
