(* ===== verification/RateLimit.v ===== *)
(** * RateLimit: the sliding window of the HTTP front

    Models [middleware/rate_limit.py].  A reading of the clock is a whole number
    of ticks of 2^-22 s, the spacing of doubles between 2^30 and 2^31 seconds
    (until 2038), so that [now - window] is exact; the member [str(now)] and the
    score [now] of a sorted set say the same thing, so a sorted set is a set of
    ticks.  A pipeline runs as one transaction. *)

From Stdlib Require Import ZArith Lia.
From stdpp Require Import base tactics strings gmap sets sorting list.
From S2P Require Import Prelude PyStr.

#[local] Open Scope Z_scope.

Definition EXEMPT_PATHS : list string := [
  "/health"; "/metrics"; "/ready"; "/api/v1/workflows/{id}/stream"; "/.well-known/agent-facts.json"].

Definition EXEMPT_PREFIXES : list string := [
  "/api/v1/workflows/"; "/api/v1/tasks/"; "/api/v1/wallet/"; "/api/v1/memory/sync/"; "/api/v1/demo/"].

Record rate_settings := {
  rate_limit_requests : Z;
  rate_limit_window_seconds : Z;
  rate_limit_fail_open : bool;
}.

Record request := {
  path : string;
  http_method : string;
  client_host : option string;
  x_api_key : option string;
}.

Inductive limiter_answer := CallNext | RateLimited (retry_after : Z) | ServiceUnavailable.

#[export] Instance limiter_answer_eq_dec : EqDecision limiter_answer.
Proof. solve_decision. Defined.

Definition ticks_per_second : Z := 2 ^ 22.

Definition window_ticks (s : rate_settings) : Z := rate_limit_window_seconds s * ticks_per_second.

(** A sorted set and the time at which its key expires *)
Abbreviation redis := (gmap string (gset Z * Z)).

Definition exempt (r : request) : bool :=
  bool_decide (path r ∈ EXEMPT_PATHS) || String.eqb (http_method r) "OPTIONS" ||
  existsb (λ p, str_startswith p (path r)) EXEMPT_PREFIXES.

Fixpoint str_take (n : nat) (s : string) : string :=
  match n, s with S n, String c s => String c (str_take n s) | _, _ => "" end.

(** [api_key[:16]] counts characters, which are bytes for the headers' ASCII. *)
Definition rate_key (r : request) : string :=
  "rate_limit:" +:+ match x_api_key r with
                    | Some (String c s) => str_take 16 (String c s)
                    | _ => default "unknown" (client_host r)
                    end.

(** The pipeline: the count before the request, and the set after it *)
Definition slide (window now : Z) (entry : option (gset Z * Z)) : Z * (gset Z * Z) :=
  let entries := match entry with Some (z, until) => if now <? until then z else ∅ | None => ∅ end in
  let kept := filter (λ t, ¬ (0 ≤ t ≤ now - window)) entries in
  (Z.of_nat (size kept), ({[now]} ∪ kept, now + window)).

(** [up]: Redis answers. *)
Definition dispatch (s : rate_settings) (r : request) (up : bool) (now : Z) (st : redis) : limiter_answer * redis :=
  if exempt r then (CallNext, st)
  else if up then
    let '(request_count, entry) := slide (window_ticks s) now (st !! rate_key r) in
    (if rate_limit_requests s <=? request_count then RateLimited (rate_limit_window_seconds s) else CallNext,
     <[rate_key r := entry]> st)
  else (if rate_limit_fail_open s then CallNext else ServiceUnavailable, st).

(** Requests at the given times, with the verdicts in order *)
Fixpoint serve_all (s : rate_settings) (l : list (request * Z)) (st : redis) : list (request * Z * limiter_answer) :=
  match l with
  | [] => []
  | (r, now) :: l => let '(v, st) := dispatch s r true now st in (r, now, v) :: serve_all s l st
  end.

(** ** One key *)

Section window.
Context (s : rate_settings) (k : string).

Local Abbreviation window := (window_ticks s).

Definition limited (r : request) : bool := negb (exempt r) && String.eqb (rate_key r) k.

(** The limited requests of the key that were let through within a window of
    [t] *)
Definition admitted (t : Z) (out : list (request * Z * limiter_answer)) : list (request * Z * limiter_answer) :=
  filter (λ x, limited x.1.1 = true ∧ x.2 = CallNext ∧ t - window < x.1.2 ≤ t) out.

(** The times at which the key was used so far *)
Definition uses (l : list (request * Z)) : list Z := map snd (filter (λ x, limited x.1 = true) l).

(** What Redis keeps of the key after the last use at [last] *)
Definition remembers (past : list Z) (st : redis) : Prop :=
  match st !! k with
  | None => past = []
  | Some (z, until) => ∃ last, until = last + window ∧ last ∈ past ∧ (∀ t, t ∈ past → t ≤ last) ∧ ∀ t, t ∈ past → last - window < t → t ∈ z
  end.

Lemma slide_remembers past st now :
  0 < window → remembers past st → (∀ t, t ∈ past → t < now) → NoDup past →
  let '(n, entry) := slide window now (st !! k) in
  Z.of_nat (length (filter (λ t, now - window < t) past)) ≤ n ∧ remembers (past ++ [now]) (<[k := entry]> st).
Proof.
  intros Hw Hr Hlt Hnd. unfold slide. cbv zeta.
  set (z := match st !! k with Some (z, until) => if now <? until then z else ∅ | None => ∅ end).
  assert (∀ t, t ∈ past → now - window < t → t ∈ z) as Hz.
  { intros t Ht Hnow. unfold remembers in Hr. subst z. destruct (st !! k) as [[z until]|]; [|subst past; by apply elem_of_nil in Ht].
    destruct Hr as (last & -> & Hlast & Hle & Hin). specialize (Hle t Ht). apply Hlt in Hlast.
    destruct (Z.ltb_spec now (last + window)); [|lia].
    apply Hin; [done|lia]. }
  split.
  - apply inj_le. set (fl := filter (λ t, now - window < t) past).
    rewrite <-(size_list_to_set (C := gset Z) fl) by (by apply NoDup_filter).
    apply subseteq_size. intros t Ht. apply elem_of_list_to_set, list_elem_of_filter in Ht as [Ht Hp].
    apply elem_of_filter. split; [lia|]. by apply Hz.
  - unfold remembers. rewrite lookup_insert_eq. exists now. split_and!; [done| | |].
    + apply elem_of_app. right. by left.
    + intros t [Ht%Hlt| ->%list_elem_of_singleton]%elem_of_app; lia.
    + intros t [Ht| ->%list_elem_of_singleton]%elem_of_app Hnow; apply elem_of_union; [right|left; set_solver].
      apply elem_of_filter. split; [lia|]. by apply Hz.
Qed.

Lemma limited_key r : limited r = true ↔ exempt r = false ∧ rate_key r = k.
Proof. unfold limited. rewrite andb_true_iff, negb_true_iff, String.eqb_eq. done. Qed.

(** Requests of other keys and exempt ones leave the key alone. *)
Lemma dispatch_other r now st : limited r = false → (dispatch s r true now st).2 !! k = st !! k.
Proof.
  unfold limited, dispatch. destruct (exempt r); [done|]. cbn [negb andb]. intros Hk%String.eqb_neq.
  destruct (slide _ _ _) as [n e]. cbn [snd]. by rewrite lookup_insert_ne.
Qed.

Lemma uses_snoc l r now :
  uses (l ++ [(r, now)]) = if limited r then uses l ++ [now] else uses l.
Proof.
  unfold uses. rewrite filter_app, map_app, filter_cons, filter_nil. cbn [fst].
  destruct (limited r); [by rewrite decide_True|by rewrite decide_False, app_nil_r].
Qed.

(** The verdicts of the past [l], whose requests left [st] *)
Definition sound_past (l : list (request * Z)) (out : list (request * Z * limiter_answer)) (st : redis) : Prop :=
  map fst out = l ∧ remembers (uses l) st ∧ ∀ t, Z.of_nat (length (admitted t out)) ≤ Z.max 0 (rate_limit_requests s).

Lemma admitted_uses t l out :
  map fst out = l → map (λ x, x.1.2) (admitted t out) `sublist_of` filter (λ x, t - window < x) (uses l).
Proof.
  intros <-. unfold admitted, uses. induction out as [|[[r x] v] out IH]; [done|]. cbn [map fst].
  destruct (limited r) eqn:Hc.
  - rewrite (filter_cons_True (λ x, limited x.1 = true)) by done. cbn [map snd].
    destruct (decide (v = CallNext ∧ t - window < x ≤ t)) as [[Hv Hx]|Hx].
    + rewrite filter_cons_True by done. rewrite filter_cons_True by lia. by constructor.
    + rewrite filter_cons_False by (cbn; naive_solver).
      destruct (decide (t - window < x)); [rewrite filter_cons_True by done; by constructor|by rewrite filter_cons_False].
  - rewrite (filter_cons_False (λ x, limited x.1 = true)) by (cbn; congruence).
    rewrite filter_cons_False by (cbn; naive_solver congruence). done.
Qed.

Lemma length_filter_impl {A} (P Q : A → Prop) `{!∀ x, Decision (P x), !∀ x, Decision (Q x)} (l : list A) :
  (∀ x, P x → Q x) → (length (filter P l) ≤ length (filter Q l))%nat.
Proof.
  intros HPQ. induction l as [|x l IH]; [done|]. rewrite !filter_cons. repeat case_decide; cbn; try lia. naive_solver.
Qed.

Lemma sound_past_snoc l out st r now :
  0 < window → sound_past l out st → (limited r = true → ∀ t, t ∈ uses l → t < now) → NoDup (uses l) →
  let '(v, st') := dispatch s r true now st in sound_past (l ++ [(r, now)]) (out ++ [(r, now, v)]) st'.
Proof.
  intros Hw (Hl & Hr & Hb) Hlt Hnd. destruct (limited r) eqn:Hc.
  - pose proof Hc as Hc'. apply limited_key in Hc' as [Hx Hk]. unfold dispatch. rewrite Hx, Hk.
    pose proof (slide_remembers (uses l) st now Hw Hr (Hlt eq_refl) Hnd) as Hs. destruct (slide window now (st !! k)) as [n e].
    destruct Hs as [Hn Hrem]. split_and!; [by rewrite map_app, Hl|by rewrite uses_snoc, Hc|].
    intros t. unfold admitted. rewrite filter_app, length_app, Nat2Z.inj_add. fold (admitted t out).
    rewrite filter_cons, filter_nil. cbn [fst snd]. destruct (decide _) as [(_ & Hv & Ht)|_]; [|rewrite Z.add_0_r; apply Hb].
    destruct (Z.leb_spec (rate_limit_requests s) n); [done|]. cbn [length]. 
    assert (length (admitted t out) ≤ length (filter (λ x, (now - window < x)%Z) (uses l)))%nat as Hle.
    { rewrite <-(length_map (λ x, x.1.2) (admitted t out)).
      transitivity (length (filter (λ x : Z, t - window < x) (uses l))); [by apply sublist_length, admitted_uses|].
      apply (length_filter_impl (λ x : Z, t - window < x) (λ x : Z, now - window < x)). intros x Hx'. lia. }
    lia.
  - pose proof (dispatch_other r now st Hc) as Hd. destruct (dispatch s r true now st) as [v st'] eqn:E. cbn [snd] in Hd.
    split_and!; [by rewrite map_app, Hl|rewrite uses_snoc, Hc; unfold remembers; by rewrite Hd|].
    intros t. unfold admitted. rewrite filter_app, length_app, Nat2Z.inj_add, filter_cons, filter_nil. cbn [fst snd].
    rewrite decide_False by (rewrite Hc; naive_solver). rewrite Z.add_0_r. apply Hb.
Qed.

Lemma uses_app l l' : uses (l ++ l') = uses l ++ uses l'.
Proof. unfold uses. by rewrite filter_app, map_app. Qed.

Lemma sorted_app_lt (l : list Z) x l' :
  StronglySorted Z.lt (l ++ x :: l') → ∀ y, y ∈ l → y < x.
Proof.
  intros Hs y Hy. apply StronglySorted_app in Hs as (H & _). apply H; [done|left].
Qed.

Lemma sorted_NoDup (l : list Z) : StronglySorted Z.lt l → NoDup l.
Proof.
  induction 1 as [|x l Hs IH Hx]; constructor; [|done]. intros Hin. rewrite Forall_forall in Hx. specialize (Hx _ Hin). lia.
Qed.

Lemma serve_all_bound l2 l1 out st :
  0 < window → sound_past l1 out st → StronglySorted Z.lt (uses (l1 ++ l2)) →
  ∀ t, Z.of_nat (length (admitted t (out ++ serve_all s l2 st))) ≤ Z.max 0 (rate_limit_requests s).
Proof.
  intros Hw. revert l1 out st. induction l2 as [|[r now] l2 IH]; intros l1 out st Hp Hs t.
  { cbn [serve_all]. rewrite app_nil_r. by apply Hp. }
  assert (Hs' := Hs). rewrite (app_assoc l1 [(r, now)] l2 : l1 ++ (r, now) :: l2 = _), uses_app in Hs'.
  apply StronglySorted_app in Hs' as (_ & Hs1 & _). rewrite uses_snoc in Hs1.
  assert (limited r = true → ∀ t, t ∈ uses l1 → t < now) as Hlt.
  { intros Hc. rewrite Hc in Hs1. by apply (sorted_app_lt _ _ []). }
  assert (StronglySorted Z.lt (uses l1)) as Hs0.
  { rewrite uses_app in Hs. by apply StronglySorted_app in Hs as (_ & ? & _). }
  cbn [serve_all]. destruct (dispatch s r true now st) as [v st'] eqn:E.
  rewrite (app_assoc out [(r, now, v)] (serve_all s l2 st') : out ++ (r, now, v) :: serve_all s l2 st' = _).
  apply (IH (l1 ++ [(r, now)])); [|by rewrite <-app_assoc].
  pose proof (sound_past_snoc l1 out st r now Hw Hp Hlt (sorted_NoDup _ Hs0)) as Hn. by rewrite E in Hn.
Qed.
End window.

(** ** Theorems *)

(** C20: the limiter keeps its promise.  While Redis answers, and the requests of
    a key come at distinct, increasing times, any window of the configured
    length contains at most the configured number of requests of that key that
    were let through, whatever other keys and exempt requests come between. *)
Theorem window_bound s k l t :
  0 < window_ticks s → StronglySorted Z.lt (uses k l) →
  Z.of_nat (length (admitted s k t (serve_all s l ∅))) ≤ Z.max 0 (rate_limit_requests s).
Proof.
  intros Hw Hs. apply (serve_all_bound s k l [] []); [done| |done]. split_and!; [done|done|]. intros t'. cbn. lia.
Qed.

(** ** Concrete runs *)

Definition seconds (n : Z) : Z := n * ticks_per_second.

Definition two_a_minute : rate_settings :=
  {| rate_limit_requests := 2; rate_limit_window_seconds := 60; rate_limit_fail_open := false |}.

Definition get_request (key : option string) : request :=
  {| path := "/api/v1/memory"; http_method := "GET"; client_host := Some "10.0.0.1"; x_api_key := key |}.

Definition verdicts (l : list (request * Z)) : list bool :=
  map (λ x, bool_decide (x.2 = CallNext)) (serve_all two_a_minute l ∅).

Example third_refused :
  verdicts [(get_request None, seconds 100); (get_request None, seconds 110); (get_request None, seconds 120); (get_request None, seconds 200)] =
  [true; true; false; true].
Proof. vm_compute. reflexivity. Qed.

(** A refused request is counted too, so a client that keeps asking every
    twenty seconds is never let in again. *)
Example refused_forever :
  verdicts (map (λ n, (get_request None, seconds (100 + 20 * n))) [0; 1; 2; 3; 4; 5; 6; 7; 8; 9]) =
  [true; true; false; false; false; false; false; false; false; false].
Proof. vm_compute. reflexivity. Qed.

(** The header chooses the counter, and nothing checks that the key exists. *)
Example any_header_resets :
  verdicts [(get_request (Some "a"), seconds 100); (get_request (Some "a"), seconds 101); (get_request (Some "b"), seconds 102); (get_request (Some "c"), seconds 103)] =
  [true; true; true; true].
Proof. vm_compute. reflexivity. Qed.

(** Requests at the same reading of the clock share a member of the set. *)
Example same_tick_counts_once :
  verdicts [(get_request None, seconds 100); (get_request None, seconds 100); (get_request None, seconds 100)] = [true; true; true].
Proof. vm_compute. reflexivity. Qed.

Lemma window_bound_witness :
  Z.of_nat (length (admitted two_a_minute "rate_limit:10.0.0.1" (seconds 120)
    (serve_all two_a_minute [(get_request None, seconds 100); (get_request None, seconds 110); (get_request None, seconds 120)] ∅))) ≤ 2.
Proof.
  apply (window_bound two_a_minute); [vm_compute; reflexivity|].
  assert (uses "rate_limit:10.0.0.1" [(get_request None, seconds 100); (get_request None, seconds 110); (get_request None, seconds 120)] =
    [seconds 100; seconds 110; seconds 120]) as -> by (vm_compute; reflexivity).
  repeat constructor; vm_compute; reflexivity.
Defined.
