(* ===== verification/PeerAuth.v ===== *)
(** * PeerAuth: authentication of sync requests between nodes

    Models [crdt/peer_auth.py] and the signing side of [crdt/peer_client.py]
    ([_sign_headers]).  A header that is absent is [None].  The allowlist is
    the text of the setting; [now] is the server's clock in whole seconds.
    HTTP methods are ASCII.  The refusals are one HTTP error 401 with different
    messages, and are told apart here; [KeyExn] is the exception of the
    signature library for a malformed key, which is not caught. *)

From Stdlib Require Import Ascii NArith ZArith Lia.
From stdpp Require Import base tactics strings pretty gmap list.
From S2P Require Import Prelude PyStr Dict Base58 Json Did PyVal Signer.

#[local] Open Scope Z_scope.

(** ** The code *)

Definition PEER_AUTH_WINDOW_SECONDS : Z := 60.
Definition ANONYMOUS_DEMO_DID : string := "did:demo:anonymous-read".

Record VerifiedPeer := { peer_did : string; timestamp : Z }.

Inductive auth_error :=
  | MissingHeaders | NotATimestamp | OutsideWindow | NotInAllowlist | BadPeerDID
  | BadEncoding | DidNotVerify | BadShape
  | KeyExn (e : codec_error).

Definition char_upper (c : ascii) : ascii :=
  let n := N_of_ascii c in if ((97 <=? n) && (n <=? 122))%N then ascii_of_N (n - 32) else c.

(** The signed text [<timestamp>|<METHOD>|<path>] *)
Definition _canonical_bytes (method path : string) (ts : Z) : string :=
  pretty ts +:+ "|" +:+ str_map char_upper method +:+ "|" +:+ path.

Definition _allowed_peer_dids (setting : string) : gset string :=
  list_to_set (filter (λ e, str_empty e = false) (map py_strip (str_split "," setting))).

(** [not h] *)
Definition falsy (h : option string) : bool :=
  match h with Some s => str_empty s | None => true end.

Section auth.
Context `{Ed25519} (setting : string).

Definition verify_peer_request (method path : string) (did ts signature : option string) (now : Z)
    : res auth_error VerifiedPeer :=
  raise_if (falsy did || falsy ts || falsy signature) MissingHeaders ;!
  let did := default "" did in
  let signature := default "" signature in
  ts <~ res_catch (int_of_str (default "" ts)) (λ _, Err NotATimestamp);
  raise_if (PEER_AUTH_WINDOW_SECONDS <? Z.abs (now - ts)) OutsideWindow ;!
  let allowed := _allowed_peer_dids setting in
  raise_if (negb (bool_decide (allowed = ∅)) && negb (bool_decide (did ∈ allowed))) NotInAllowlist ;!
  public_bytes <~ res_catch (public_key_from_did did) (λ _, Err BadPeerDID);
  sig_bytes <~ res_catch (decode_multibase signature) (λ _, Err BadEncoding);
  valid <~ res_catch (verify_bytes (_canonical_bytes method path ts) sig_bytes public_bytes)
             (λ e, Err (KeyExn e));
  raise_if (negb valid) DidNotVerify ;!
  _parsed <~ res_catch (parse_did did) (λ _, Err BadShape);
  Ok {| peer_did := did; timestamp := ts |}.

(** [request.method], [request.url.path] and the three headers *)
Definition require_verified_peer := verify_peer_request.

Definition require_verified_peer_or_demo (demo_mode : bool) (method path : string)
    (did ts signature : option string) (now : Z) : res auth_error VerifiedPeer :=
  let no_headers := falsy did && falsy ts && falsy signature in
  if demo_mode && no_headers then Ok {| peer_did := ANONYMOUS_DEMO_DID; timestamp := now |}
  else verify_peer_request method path did ts signature now.

(** The client: the three headers, for the identifier it was given *)
Definition _sign_headers (kp : KeyPair) (did : string) (method path : string) (ts : Z)
    : res codec_error (string * string * string) :=
  sig <~ sign_bytes (_canonical_bytes method path ts) (private_seed kp);
  Ok (did, pretty ts, encode_multibase sig).
End auth.

(** ** The signed text is unambiguous. *)

Lemma int_char_not_bar s : forallb int_char (str_chars s) = true → str_mem "|" s = false.
Proof.
  induction s as [|c s IH]; [done|]. cbn. intros [Hc Hs]%andb_true_iff. rewrite IH by done.
  rewrite orb_false_r. destruct (Ascii.eqb_spec c "|"); [by subst|done].
Qed.

Lemma pretty_Z_inj (a b : Z) : pretty a = pretty b → a = b.
Proof. apply (inj pretty). Qed.

Lemma canonical_bytes_inj m1 p1 t1 m2 p2 t2 :
  str_mem "|" (str_map char_upper m1) = false → str_mem "|" (str_map char_upper m2) = false →
  _canonical_bytes m1 p1 t1 = _canonical_bytes m2 p2 t2 →
  t1 = t2 ∧ str_map char_upper m1 = str_map char_upper m2 ∧ p1 = p2.
Proof.
  unfold _canonical_bytes. intros H1 H2 E. rewrite !(str_app_cons "|" ""), !str_app_nil_l in E.
  pose proof (f_equal (str_cut "|") E) as Ec.
  rewrite !str_cut_app in Ec by apply int_char_not_bar, pretty_Z_chars.
  injection Ec as Et Er. pose proof (f_equal (str_cut "|") Er) as Ec2.
  rewrite !str_cut_app in Ec2 by done. injection Ec2 as Em Ep.
  split_and!; [by apply pretty_Z_inj|done..].
Qed.

(** ** The timestamp header reads back. *)

Definition digit_char (c : ascii) : bool := (48 <=? N_of_ascii c)%N && (N_of_ascii c <=? 57)%N.

Lemma pretty_N_digits n s :
  forallb digit_char (str_chars s) = true → forallb digit_char (str_chars (pretty_N_go n s)) = true.
Proof.
  revert s. induction (N.lt_wf_0 n) as [n _ IH]; intros s Hs.
  destruct (decide (n = 0)%N) as [->|Hn]; [done|].
  rewrite pretty_N_go_step by lia. apply IH; [by apply N.div_lt; lia|].
  cbn [str_chars forallb]. rewrite Hs, andb_true_r. unfold pretty_N_char. by repeat case_match.
Qed.

Lemma pretty_N_char_value n : (n < 10)%N → Z.of_N (N_of_ascii (pretty_N_char n)) = 48 + Z.of_N n.
Proof.
  intros Hn. destruct n as [|p]; [done|].
  do 4 (destruct p as [p|p|]; try done; try (exfalso; lia)).
Qed.

Lemma int_digits_step n s b acc :
  (n < 10)%N → int_digits (String (pretty_N_char n) s) b acc = int_digits s true (acc * 10 + Z.of_N n).
Proof.
  intros Hn. cbn [int_digits]. rewrite pretty_N_char_value by done.
  assert ((48 <=? 48 + Z.of_N n) && (48 + Z.of_N n <=? 57) = true) as -> by lia.
  f_equal. lia.
Qed.

Lemma int_digits_pretty n s b :
  n ≠ 0%N → int_digits (pretty_N_go n s) b 0 = int_digits s true (Z.of_N n).
Proof.
  revert s b. induction (N.lt_wf_0 n) as [n _ IH]; intros s b Hn.
  rewrite pretty_N_go_step by lia. pose proof (N.mod_lt n 10 ltac:(done)) as Hm.
  pose proof (N.div_mod n 10 ltac:(done)) as Hdm.
  destruct (decide (n / 10 = 0)%N) as [E|E].
  - rewrite E, pretty_N_go_0, int_digits_step by done. f_equal. lia.
  - rewrite IH by (done || by apply N.div_lt; lia). rewrite int_digits_step by done. f_equal. lia.
Qed.

Lemma digit_chars s :
  forallb digit_char (str_chars s) = true → py_chars s = map (λ c, String c "") (str_chars s).
Proof.
  induction s as [|c s IH]; [done|]. cbn [str_chars forallb map]. intros [Hc Hs]%andb_true_iff.
  cbn [py_chars]. rewrite IH by done. destruct s as [|d s]; [done|]. cbn [str_chars map].
  cbn [str_chars forallb] in Hs. apply andb_true_iff in Hs as [Hd _].
  assert (continues d = false) as ->; [|done]. unfold continues, digit_char in *.
  apply andb_true_iff in Hd as [_ Hd%N.leb_le]. apply andb_false_iff. left. apply N.leb_gt. lia.
Qed.

Lemma drop_spaces_digit l :
  Forall (λ c, digit_char c = true) l → drop_spaces (map (λ c, String c "") l) = map (λ c, String c "") l.
Proof.
  destruct 1 as [|c l Hc _]; [done|]. cbn [map drop_spaces].
  assert (is_space (String c "") = false) as ->; [|done].
  unfold is_space. cbn. unfold digit_char in Hc. destruct (N_of_ascii c) as [|p]; [done|].
  apply andb_true_iff in Hc as [Hc%N.leb_le _].
  assert (((9 <=? N.pos p) && (N.pos p <=? 13) || (28 <=? N.pos p) && (N.pos p <=? 32))%N = false) as ->
    by (apply orb_false_iff; split; apply andb_false_iff; right; apply N.leb_gt; lia).
  by repeat case_match.
Qed.

Lemma str_join_chars s : str_join "" (map (λ c, String c "") (str_chars s)) = s.
Proof.
  induction s as [|c s IH]; [done|]. cbn [str_chars map]. destruct s as [|d s]; [done|].
  cbn [str_chars map] in *. change (String c (str_join "" (String d "" :: map (λ c, String c "") (str_chars s))) = String c (String d s)).
  by rewrite IH.
Qed.

Lemma strip_digits s : forallb digit_char (str_chars s) = true → py_strip s = s.
Proof.
  intros Hs. unfold py_strip. rewrite digit_chars by done.
  assert (Forall (λ c, digit_char c = true) (str_chars s)) as Hf.
  { apply Forall_forall. intros c Hc. rewrite forallb_forall in Hs. by apply Hs, list_elem_of_In. }
  rewrite drop_spaces_digit, <-map_rev, drop_spaces_digit by (try apply Forall_rev; done).
  rewrite <-map_rev, rev_involutive. apply str_join_chars.
Qed.

Lemma timestamp_reads_back ts : 0 ≤ ts → int_of_str (pretty ts) = Ok ts.
Proof.
  intros Hts. destruct ts as [|p|p]; [done| |lia].
  assert (forallb digit_char (str_chars (pretty (Z.pos p))) = true) as Hd.
  { unfold pretty, pretty_Z, pretty, pretty_positive, pretty, pretty_N. rewrite decide_False by done.
    by apply pretty_N_digits. }
  unfold int_of_str. rewrite strip_digits by done.
  assert (int_digits (pretty (Z.pos p)) false 0 = Some (Z.pos p)) as E.
  { unfold pretty, pretty_Z, pretty, pretty_positive, pretty, pretty_N. rewrite decide_False by done.
    by rewrite int_digits_pretty. }
  destruct (pretty (Z.pos p)) as [|c s] eqn:Ep; [by destruct (pretty_Z_ne (Z.pos p))|].
  cbn [str_chars forallb] in Hd. apply andb_true_iff in Hd as [Hc _].
  destruct (Ascii.eqb_spec c "-"); [by subst|]. destruct (Ascii.eqb_spec c "+"); [by subst|].
  by rewrite E.
Qed.

(** ** Who is let in *)

Lemma falsy_false h : falsy h = false ↔ ∃ s, h = Some s ∧ s ≠ "".
Proof.
  destruct h as [s|]; cbn; [|split; [done|]; by intros (?&[=]&_)].
  rewrite <-not_true_iff_false, str_empty_true. naive_solver.
Qed.

Section who.
Context `{Ed25519} (setting : string).

(** What the server asks of the three headers: it knows the key of the named
    peer, and that key signed this method and path at a recent time. *)
Record admitted (method path : string) (did ts signature : string) (now : Z) (p : VerifiedPeer) : Prop := {
  ad_peer : p = {| peer_did := did; timestamp := timestamp p |};
  ad_time : int_of_str ts = Ok (timestamp p);
  ad_window : now - 60 ≤ timestamp p ≤ now + 60;
  ad_allowed : _allowed_peer_dids setting = ∅ ∨ did ∈ _allowed_peer_dids setting;
  ad_signed : ∃ pk raw, public_key_from_did did = Ok pk ∧ decode_multibase signature = Ok raw ∧
    verify_bytes (_canonical_bytes method path (timestamp p)) raw pk = Ok true;
}.

Lemma known_key_parses did pk : public_key_from_did did = Ok pk → ∃ p, parse_did did = Ok p ∧ did ≠ "".
Proof.
  unfold public_key_from_did. intros (p&Hp&_)%res_bind_Ok. exists p. split; [done|]. by intros ->.
Qed.

Lemma res_catch_Ok {E1 E2 A} (m : res E1 A) (h : E1 → res E2 A) a :
  (∀ e a, h e ≠ Ok a) → res_catch m h = Ok a → m = Ok a.
Proof. intros Hh. destruct m as [x|e]; cbn; [by intros [= ->]|]. intros E. by destruct (Hh e a). Qed.

Lemma verify_peer_request_iff method path did ts signature now p :
  verify_peer_request setting method path did ts signature now = Ok p ↔
  ∃ d t s, did = Some d ∧ ts = Some t ∧ signature = Some s ∧ admitted method path d t s now p.
Proof.
  unfold verify_peer_request. split.
  - intros ([]&Hh%raise_if_Ok&E)%res_bind_Ok. apply orb_false_iff in Hh as [[Hd Ht]%orb_false_iff Hs].
    apply falsy_false in Hd as (d&->&_), Ht as (t&->&_), Hs as (s&->&_). cbn [default] in E.
    apply res_bind_Ok in E as (z&Hz%res_catch_Ok&E); [|done].
    apply res_bind_Ok in E as ([]&Hw%raise_if_Ok&E). apply res_bind_Ok in E as ([]&Ha%raise_if_Ok&E).
    apply res_bind_Ok in E as (pk&Hpk%res_catch_Ok&E); [|done].
    apply res_bind_Ok in E as (raw&Hraw%res_catch_Ok&E); [|done].
    apply res_bind_Ok in E as (b&Hb%res_catch_Ok&E); [|done]. apply res_bind_Ok in E as ([]&Hn%raise_if_Ok&E).
    apply res_bind_Ok in E as (pd&_&[= <-]). rewrite negb_false_iff in Hn.
    subst b. exists d, t, s. do 3 (split; [done|]). split; cbn [timestamp]; [done|done| | |by exists pk, raw].
    + unfold PEER_AUTH_WINDOW_SECONDS in Hw. lia.
    + apply andb_false_iff in Ha as [Ha|Ha]; apply negb_false_iff, bool_decide_eq_true in Ha; [by left|by right].
  - intros (d&t&s&->&->&->&[Hp Hz Hw Ha (pk&raw&Hpk&Hraw&Hv)]).
    destruct (known_key_parses d pk Hpk) as (pd&Hpd&Hd).
    assert (t ≠ "") as Ht by by intros ->.
    assert (s ≠ "") as Hs by by intros ->.
    assert (falsy (Some d) || falsy (Some t) || falsy (Some s) = false) as ->.
    { rewrite (proj2 (falsy_false (Some d))), (proj2 (falsy_false (Some t))), (proj2 (falsy_false (Some s))) by eauto.
      done. }
    cbn [raise_if res_bind]. change (default "" (Some t)) with t. change (default "" (Some d)) with d.
    change (default "" (Some s)) with s. rewrite Hz. cbn [res_catch res_bind].
    unfold PEER_AUTH_WINDOW_SECONDS. assert (60 <? Z.abs (now - timestamp p) = false) as -> by lia.
    cbn [raise_if res_bind].
    assert (negb (bool_decide (_allowed_peer_dids setting = ∅)) &&
      negb (bool_decide (d ∈ _allowed_peer_dids setting)) = false) as ->.
    { destruct Ha as [Ha|Ha]; rewrite (bool_decide_eq_true_2 _ Ha); [done|apply andb_false_r]. }
    cbn [raise_if res_bind]. rewrite Hpk. cbn [res_catch res_bind]. rewrite Hraw. cbn [res_catch res_bind].
    rewrite Hv. cbn [res_catch res_bind negb raise_if]. rewrite Hpd. cbn [res_catch res_bind]. by rewrite Hp at 2.
Qed.

(** A request is let in exactly when all checks hold: the header names an
    allowed peer, its timestamp is within 60 seconds of the server's clock, and
    the key in the peer's own identifier verifies the signature over this
    timestamp, method and path.  Headers that are absent are never let in. *)
Theorem verify_peer_request_spec method path did ts signature now p :
  verify_peer_request setting method path did ts signature now = Ok p ↔
  ∃ d t s, did = Some d ∧ ts = Some t ∧ signature = Some s ∧ admitted method path d t s now p.
Proof. exact (verify_peer_request_iff method path did ts signature now p). Qed.

(** ** What a client signs is let in. *)

(** The two sides agree: the headers that a node makes with its own key
    pair and [did:key] identifier are let in by every server whose allowlist is
    empty or names the node, for the request they were made for, as long as the
    two clocks differ by at most 60 seconds. *)
Theorem signed_request_admitted `{!LawfulEd25519} kp did method path ts now hd ht hs :
  proper_keypair kp → build_did_key (public_bytes kp) = Ok did → 0 ≤ ts → now - 60 ≤ ts ≤ now + 60 →
  _allowed_peer_dids setting = ∅ ∨ did ∈ _allowed_peer_dids setting →
  _sign_headers kp did method path ts = Ok (hd, ht, hs) →
  verify_peer_request setting method path (Some hd) (Some ht) (Some hs) now =
    Ok {| peer_did := did; timestamp := ts |}.
Proof.
  intros Hkp Hdid Hts Hw Ha. unfold _sign_headers. intros (sig&Hsig&[= <- <- <-])%res_bind_Ok.
  apply verify_peer_request_iff. exists did, (pretty ts), (encode_multibase sig).
  do 3 (split; [done|]). split; cbn [timestamp]; [done|by apply timestamp_reads_back|done|done|].
  exists (public_bytes kp), sig. split_and!.
  - apply public_key_from_did_iff. apply build_did_key_Ok in Hdid as Hd. destruct Hd as [_ Hd].
    eexists. split; [|left; rewrite Hdid, Hd; reflexivity]. rewrite Hd. apply parse_did_Ok. cbn.
    exists DID_METHOD_KEY. done.
  - apply decode_encode_multibase.
  - by eapply sign_verify.
Qed.
(** ** Replays *)

(** No second text has this signature under this key. *)
Definition binding (signature did : string) : Prop :=
  ∀ pk raw m1 m2, public_key_from_did did = Ok pk → decode_multibase signature = Ok raw →
    verify_bytes m1 raw pk = Ok true → verify_bytes m2 raw pk = Ok true → m1 = m2.

(** C19: captured headers are of little use.  If the same three headers are let
    in for two requests, and the signature is not one for two texts, then the
    two requests have the same method and path and are at most two minutes
    apart. *)
Theorem replay_bounded m1 p1 now1 v1 m2 p2 now2 v2 did ts signature :
  str_mem "|" (str_map char_upper m1) = false → str_mem "|" (str_map char_upper m2) = false →
  binding signature did →
  verify_peer_request setting m1 p1 (Some did) (Some ts) (Some signature) now1 = Ok v1 →
  verify_peer_request setting m2 p2 (Some did) (Some ts) (Some signature) now2 = Ok v2 →
  str_map char_upper m1 = str_map char_upper m2 ∧ p1 = p2 ∧ Z.abs (now1 - now2) ≤ 120.
Proof.
  intros H1 H2 Hb E1 E2. apply verify_peer_request_iff in E1 as (?&?&?&[= <-]&[= <-]&[= <-]&[_ Ht1 Hw1 _ Hs1]).
  apply verify_peer_request_iff in E2 as (?&?&?&[= <-]&[= <-]&[= <-]&[_ Ht2 Hw2 _ Hs2]).
  destruct Hs1 as (pk&raw&Hpk&Hraw&Hv1). destruct Hs2 as (pk2&raw2&Hpk2&Hraw2&Hv2).
  rewrite Hpk in Hpk2. injection Hpk2 as <-. rewrite Hraw in Hraw2. injection Hraw2 as <-.
  pose proof (Hb pk raw _ _ Hpk Hraw Hv1 Hv2) as E. apply canonical_bytes_inj in E as (Et&Em&Ep); [|done..].
  split_and!; [done|done|]. rewrite Et in Hw1. lia.
Qed.
End who.

Definition demo_seed : list Byte.byte := repeat Byte.x07 32.
Lemma toy_signature_binds m1 m2 raw pk :
  verify_bytes m1 raw pk = Ok true → verify_bytes m2 raw pk = Ok true → m1 = m2.
Proof.
  unfold verify_bytes, load_public_key. destruct (negb (length pk =? 32)%nat); [done|]. cbn.
  intros [= H1%bool_decide_eq_true] [= H2%bool_decide_eq_true]. rewrite H1 in H2. unfold toy_sign in H2.
  apply (inj (app pk)) in H2. rewrite <-(String.string_of_list_byte_of_string m1), H2.
  apply String.string_of_list_byte_of_string.
Qed.

Definition demo_pair : KeyPair := {| private_seed := demo_seed; public_bytes := toy_public demo_seed |}.

Lemma signed_request_witness :
  proper_keypair demo_pair ∧
  ∃ did hs, build_did_key (public_bytes demo_pair) = Ok did ∧
    verify_peer_request "" "get" "/x" (Some did) (Some "1000") (Some hs) 1030 =
      Ok {| peer_did := did; timestamp := 1000 |}.
Proof.
  split; [done|]. eexists _, _. split; [reflexivity|].
  apply (signed_request_admitted "" demo_pair _ "get" "/x" 1000 1030 _ "1000").
  - done.
  - reflexivity.
  - done.
  - done.
  - left. apply (bool_decide_eq_true_1 (_allowed_peer_dids "" = ∅)). vm_compute. reflexivity.
  - reflexivity.
Defined.

Definition demo_did : string := match build_did_key demo_seed with Ok d => d | Err _ => "" end.
Definition demo_signature : string := encode_multibase (toy_sign demo_seed "1000|GET|/x").

Lemma replay_bounded_witness :
  verify_peer_request "" "get" "/x" (Some demo_did) (Some "1000") (Some demo_signature) 950 =
    Ok {| peer_did := demo_did; timestamp := 1000 |} ∧
  verify_peer_request "" "GET" "/x" (Some demo_did) (Some "1000") (Some demo_signature) 1050 =
    Ok {| peer_did := demo_did; timestamp := 1000 |} ∧
  Z.abs (950 - 1050) ≤ 120.
Proof.
  assert (verify_peer_request "" "get" "/x" (Some demo_did) (Some "1000") (Some demo_signature) 950 =
    Ok {| peer_did := demo_did; timestamp := 1000 |}) as E1 by (vm_compute; reflexivity).
  assert (verify_peer_request "" "GET" "/x" (Some demo_did) (Some "1000") (Some demo_signature) 1050 =
    Ok {| peer_did := demo_did; timestamp := 1000 |}) as E2 by (vm_compute; reflexivity).
  assert (binding demo_signature demo_did) as Hb.
  { intros pk raw m1 m2 _ _. apply toy_signature_binds. }
  split; [exact E1|]. split; [exact E2|].
  apply (replay_bounded "" "get" "/x" 950 _ "GET" "/x" 1050 _ demo_did "1000" demo_signature eq_refl eq_refl Hb E1 E2).
Defined.

(** A request outside of the window, and a name that is not on the list *)
Example late_request :
  verify_peer_request "" "GET" "/x" (Some "did:key:z1") (Some "1000") (Some "z1") 1061 = Err OutsideWindow.
Proof. vm_compute. reflexivity. Qed.
Example not_listed :
  verify_peer_request " did:key:z2 , did:key:z3" "GET" "/x" (Some "did:key:z1") (Some "1000") (Some "z1") 1060 =
    Err NotInAllowlist.
Proof. vm_compute. reflexivity. Qed.
