(* ===== verification/Crdt.v ===== *)
(** * Crdt: the signed, content-addressed memory store

    Models the write path [crdt/store.py] on the table of [models/memory.py].
    A node's database is a [node]: the workflows and agents that rows may
    refer to, and the rows in order of insertion.  [race] are rows that other
    sessions commit between the duplicate check and the flush; the flush
    checks the foreign keys and the unique hash, and a failed flush leaves the
    rest of the transaction usable, which is what the savepoint is for.
    Embeddings are opaque and not modelled. *)

From Stdlib Require Import Ascii NArith ZArith Lia.
From stdpp Require Import base tactics strings gmap list.
From S2P Require Import Prelude PyStr Dict Base58 Json Did Merkle Uuid Signer.

(** ** Data *)

Inductive MemoryType := FACT | CONTEXT | RESULT | REASONING | META | CACHE.

#[export] Instance MemoryType_eq_dec : EqDecision MemoryType.
Proof. solve_decision. Defined.

(** [str(t)] of a [(str, Enum)] member is its qualified name. *)
Definition str_memory_type (t : MemoryType) : string :=
  match t with
  | FACT => "MemoryType.FACT" | CONTEXT => "MemoryType.CONTEXT"
  | RESULT => "MemoryType.RESULT" | REASONING => "MemoryType.REASONING"
  | META => "MemoryType.META" | CACHE => "MemoryType.CACHE"
  end.

Inductive RecordState := ACTIVE | SUPERSEDED | HISTORICAL | TOMBSTONED.

#[export] Instance RecordState_eq_dec : EqDecision RecordState.
Proof. solve_decision. Defined.

Record MemoryRecord := {
  memory_id : uuid;
  workflow_id : option uuid;
  source_agent_id : option uuid;
  memory_type : MemoryType;
  content : string;
  metadata_ : list (pykey * json);
  confidence : pyfloat;
  version : Z;
  parent_version_id : option uuid;
  author_did : option string;
  parent_hashes : list string;
  signature : option string;
  content_hash : option string;
  record_state : RecordState;
  expires_at : option Z;
}.

Record node := {
  workflows : gset uuid;
  agents : gset uuid;
  records : list MemoryRecord;
  summaries : gmap (option uuid) MerkleSummary;
}.

Inductive crdt_error :=
  | SignatureMismatchError
  | UnknownAuthorError
  | CRDTStoreError
  | CanonError (e : canon_error)
  | DIDError (e : did_error)
  | KeyError (e : codec_error).

#[export] Instance did_error_eq_dec : EqDecision did_error.
Proof. solve_decision. Defined.
#[export] Instance canon_error_eq_dec : EqDecision canon_error.
Proof. solve_decision. Defined.
#[export] Instance codec_error_eq_dec : EqDecision codec_error.
Proof. solve_decision. Defined.
#[export] Instance crdt_error_eq_dec : EqDecision crdt_error.
Proof. solve_decision. Defined.

(** [except CRDTStoreError]: the class and its two subclasses *)
Definition is_CRDTStoreError (e : crdt_error) : bool :=
  match e with SignatureMismatchError | UnknownAuthorError | CRDTStoreError => true | _ => false end.

(** The keyword arguments of [put] *)
Record write := {
  w_workflow_id : option uuid;
  w_memory_type : MemoryType;
  w_content : string;
  w_confidence : pyfloat;
  w_metadata : option (list (pykey * json));
  w_parent_hashes : option (list string);
  w_author_did : option string;
  w_source_agent_id : option uuid;
  w_keypair : option KeyPair;
  w_precomputed_hash : option string;
  w_precomputed_signature : option string;
  w_version : Z;
  w_parent_version_id : option uuid;
  w_expires_at : option Z;
  w_record_state : RecordState;
}.

(** [str(u)] where [u] may be [None] *)
Definition str_opt_uuid (u : option uuid) : string :=
  match u with Some u => uuid_str u | None => "None" end.

Definition body_of_write (w : write) : CanonicalBody :=
  build_canonical_body (str_opt_uuid (w_workflow_id w)) (str_memory_type (w_memory_type w))
    (w_content w) (w_confidence w) (w_metadata w) (w_parent_hashes w) (w_author_did w)
    (uuid_str <$> w_source_agent_id w).

(** The body that the columns of a stored row describe *)
Definition row_body (r : MemoryRecord) : CanonicalBody :=
  build_canonical_body (str_opt_uuid (workflow_id r)) (str_memory_type (memory_type r))
    (content r) (confidence r) (Some (metadata_ r)) (Some (parent_hashes r)) (author_did r)
    (uuid_str <$> source_agent_id r).

Definition record_of_write (new_id : uuid) (w : write) (hash sig : option string)
    : MemoryRecord := {|
  memory_id := new_id;
  workflow_id := w_workflow_id w;
  source_agent_id := w_source_agent_id w;
  memory_type := w_memory_type w;
  content := w_content w;
  metadata_ := default [] (w_metadata w);
  confidence := w_confidence w;
  version := w_version w;
  parent_version_id := w_parent_version_id w;
  author_did := w_author_did w;
  parent_hashes := cb_parent_hashes (body_of_write w);
  signature := sig;
  content_hash := hash;
  record_state := w_record_state w;
  expires_at := w_expires_at w |}.

Definition has_hash (h : string) (r : MemoryRecord) : Prop := content_hash r = Some h.
#[export] Instance has_hash_dec h r : Decision (has_hash h r).
Proof. unfold has_hash. apply _. Defined.

Definition _fetch_by_hash (h : string) (n : node) : option MemoryRecord :=
  snd <$> list_find (has_hash h) (records n).

Definition set_records (rs : list MemoryRecord) (n : node) : node := {|
  workflows := workflows n; agents := agents n; records := rs; summaries := summaries n |}.

(** A reference column that is null or resolves *)
Definition fk_ok (u : option uuid) (ids : gset uuid) : bool :=
  match u with Some u => bool_decide (u ∈ ids) | None => true end.

(** [session.add(record); flush()] *)
Definition flush_record (r : MemoryRecord) (n : node) : option node :=
  if fk_ok (workflow_id r) (workflows n) && fk_ok (source_agent_id r) (agents n) &&
     fk_ok (parent_version_id r) (list_to_set (map memory_id (records n))) &&
     match content_hash r with
     | Some h => match _fetch_by_hash h n with Some _ => false | None => true end
     | None => true
     end
  then Some (set_records (records n ++ [r]) n) else None.

Definition lift_canon {A} (m : res canon_error A) : res crdt_error A :=
  res_catch m (λ e, Err (CanonError e)).
Definition lift_did {A} (m : res did_error A) : res crdt_error A :=
  res_catch m (λ e, Err (DIDError e)).
Definition lift_key {A} (m : res codec_error A) : res crdt_error A :=
  res_catch m (λ e, Err (KeyError e)).

Definition _public_key_for_did (did : string) : res crdt_error (list Byte.byte) :=
  parsed <~ lift_did (parse_did did);
  if String.eqb (method parsed) "key" then lift_did (decode_did_key did)
  else if String.eqb (method parsed) "nanda" then lift_did (decode_did_nanda did)
  else Err UnknownAuthorError.

Section store.
Context (sha256 : string → list Byte.byte) `{Ed25519}.

Definition _resolve_hash_and_signature (body : CanonicalBody) (keypair : option KeyPair)
    (precomputed_hash precomputed_signature : option string)
    : res crdt_error (option string * option string) :=
  match keypair, precomputed_signature with
  | None, None =>
      match precomputed_hash, cb_author_did body with
      | None, None => Ok (None, None)
      | Some given, _ =>
          expected <~ lift_canon (compute_content_hash sha256 body);
          raise_if (negb (String.eqb given expected)) SignatureMismatchError ;!
          Ok (Some given, None)
      | None, Some _ =>
          computed <~ lift_canon (compute_content_hash sha256 body);
          Ok (Some computed, None)
      end
  | _, _ =>
      computed_hash <~ lift_canon (compute_content_hash sha256 body);
      raise_if match precomputed_hash with
               | Some given => negb (String.eqb given computed_hash)
               | None => false
               end SignatureMismatchError ;!
      match keypair with
      | Some kp =>
          message <~ lift_canon (to_signable_bytes body);
          signature_bytes <~ lift_key (sign_bytes message (private_seed kp));
          let signature := encode_multibase signature_bytes in
          raise_if match precomputed_signature with
                   | Some given => negb (String.eqb given signature)
                   | None => false
                   end SignatureMismatchError ;!
          Ok (Some computed_hash, Some signature)
      | None =>
          let given := default "" precomputed_signature in
          did <~ res_of_option UnknownAuthorError (cb_author_did body);
          pk <~ _public_key_for_did did;
          signature_bytes <~ res_catch (decode_multibase given) (λ _, Err SignatureMismatchError);
          message <~ lift_canon (to_signable_bytes body);
          valid <~ lift_key (verify_bytes message signature_bytes pk);
          raise_if (negb valid) SignatureMismatchError ;!
          Ok (Some computed_hash, Some given)
      end
  end.

Definition put (new_id : uuid) (race : list MemoryRecord) (w : write) (n : node)
    : res crdt_error (MemoryRecord * node) :=
  resolved <~ _resolve_hash_and_signature (body_of_write w) (w_keypair w)
                (w_precomputed_hash w) (w_precomputed_signature w);
  let '(hash, sig) := resolved in
  let record := record_of_write new_id w hash sig in
  match hash ≫= λ h, _fetch_by_hash h n with
  | Some existing => Ok (existing, n)
  | None =>
      let n := set_records (records n ++ race) n in
      match flush_record record n with
      | Some n' => Ok (record, n')
      | None =>
          match hash ≫= λ h, _fetch_by_hash h n with
          | Some existing => Ok (existing, n)
          | None => Err CRDTStoreError
          end
      end
  end.
End store.

(** ** Integrity of the store *)

Section integrity.
Context (sha256 : string → list Byte.byte) `{Ed25519}.

(** The signature of [body] by the declared author's key *)
Definition signed_by_author (body : CanonicalBody) (s : string) : Prop :=
  ∃ did pk raw m, cb_author_did body = Some did ∧ _public_key_for_did did = Ok pk ∧
    decode_multibase s = Ok raw ∧ to_signable_bytes body = Ok m ∧
    verify_bytes m raw pk = Ok true.

(** What a hash and a signature attached to a body must satisfy *)
Definition attested (body : CanonicalBody) (hash sig : option string) : Prop :=
  (∀ h, hash = Some h → compute_content_hash sha256 body = Ok h) ∧
  (∀ s, sig = Some s → is_Some hash ∧ signed_by_author body s).

Definition intact (r : MemoryRecord) : Prop :=
  attested (row_body r) (content_hash r) (signature r).

Definition store_ok (rs : list MemoryRecord) : Prop :=
  Forall intact rs ∧ NoDup (omap content_hash rs).

(** A write that is signed locally names the signer as its author, the way
    the callers pass [build_did_key(keypair.public_bytes)]. *)
Definition keyed_write (w : write) : Prop :=
  ∀ kp, w_keypair w = Some kp → proper_keypair kp ∧
    ∃ did, build_did_key (public_bytes kp) = Ok did ∧ w_author_did w = Some did.

Lemma row_body_of_write id w h s : row_body (record_of_write id w h s) = body_of_write w.
Proof. reflexivity. Qed.

Lemma lift_canon_Ok {A} (m : res canon_error A) a : lift_canon m = Ok a ↔ m = Ok a.
Proof. unfold lift_canon. destruct m; cbn; naive_solver. Qed.
Lemma lift_did_Ok {A} (m : res did_error A) a : lift_did m = Ok a ↔ m = Ok a.
Proof. unfold lift_did. destruct m; cbn; naive_solver. Qed.
Lemma lift_key_Ok {A} (m : res codec_error A) a : lift_key m = Ok a ↔ m = Ok a.
Proof. unfold lift_key. destruct m; cbn; naive_solver. Qed.

Lemma public_key_of_built pk did :
  build_did_key pk = Ok did → _public_key_for_did did = Ok pk.
Proof.
  intros [Hl ->]%build_did_key_Ok. unfold _public_key_for_did.
  set (p := {| method := DID_METHOD_KEY; identifier := _ |}).
  assert (parse_did (as_str p) = Ok p) as Hp by (apply parse_did_as_str; subst p; first [reflexivity|discriminate]).
  rewrite Hp. cbn [lift_did res_catch res_bind]. change (method p =? "key")%string with true.
  cbn iota. apply lift_did_Ok. apply decode_did_key_Ok. split; [done|]. by exists p.
Qed.

Lemma resolve_keyed `{!LawfulEd25519} body kp ph ps hash sig did :
  proper_keypair kp → build_did_key (public_bytes kp) = Ok did → cb_author_did body = Some did →
  _resolve_hash_and_signature sha256 body (Some kp) ph ps = Ok (hash, sig) →
  attested body hash sig.
Proof.
  intros Hkp Hdid Hau. cbn [_resolve_hash_and_signature].
  intros (ch&Hc%lift_canon_Ok&(?&_&Hr)%res_bind_Ok)%res_bind_Ok.
  apply res_bind_Ok in Hr as (m&Hm%lift_canon_Ok&Hr).
  apply res_bind_Ok in Hr as (raw&Hs%lift_key_Ok&(?&_&[= <- <-])%res_bind_Ok).
  split; [by intros h [= <-]|]. intros s [= <-]. split; [done|].
  exists did, (public_bytes kp), raw, m. split_and!; try done.
  - by apply public_key_of_built.
  - apply decode_encode_multibase.
  - by apply sign_verify.
Qed.

Lemma resolve_unkeyed body ph ps hash sig :
  _resolve_hash_and_signature sha256 body None ph ps = Ok (hash, sig) → attested body hash sig.
Proof.
  destruct ps as [ps|]; cbn [_resolve_hash_and_signature].
  - intros (ch&Hc%lift_canon_Ok&(?&_&Hr)%res_bind_Ok)%res_bind_Ok.
    apply res_bind_Ok in Hr as (did&Hd&Hr). apply res_bind_Ok in Hr as (pk&Hpk&Hr).
    apply res_bind_Ok in Hr as (raw&Hraw&Hr). apply res_bind_Ok in Hr as (m&Hm%lift_canon_Ok&Hr).
    apply res_bind_Ok in Hr as (v&Hv%lift_key_Ok&(?&Hvt%raise_if_Ok&[= <- <-])%res_bind_Ok).
    apply negb_false_iff in Hvt as ->. split; [by intros h [= <-]|].
    intros s [= <-]. split; [done|]. exists did, pk, raw, m. split_and!; try done.
    + by destruct (cb_author_did body); [injection Hd as <-|].
    + by apply catch_const_Ok in Hraw.
  - destruct ph as [given|].
    + intros (ch&Hc%lift_canon_Ok&(?&He%raise_if_Ok&[= <- <-])%res_bind_Ok)%res_bind_Ok.
      apply negb_false_iff, String.eqb_eq in He as <-. by split; [intros h [= <-]|].
    + destruct (cb_author_did body).
      * intros (ch&Hc%lift_canon_Ok&[= <- <-])%res_bind_Ok. by split; [intros h [= <-]|].
      * by intros [= <- <-].
Qed.

Lemma resolve_attested `{!LawfulEd25519} w hash sig :
  keyed_write w →
  _resolve_hash_and_signature sha256 (body_of_write w) (w_keypair w) (w_precomputed_hash w)
    (w_precomputed_signature w) = Ok (hash, sig) →
  attested (body_of_write w) hash sig.
Proof.
  intros Hk Hr. destruct (w_keypair w) as [kp|] eqn:E.
  - destruct (Hk kp E) as (Hkp&did&Hdid&Hau). by eapply resolve_keyed.
  - by eapply resolve_unkeyed.
Qed.

Lemma fetch_Some h n r :
  _fetch_by_hash h n = Some r → content_hash r = Some h ∧ r ∈ records n.
Proof.
  unfold _fetch_by_hash. intros ([i x]&(Hl&Hh&_)%list_find_Some&->)%fmap_Some.
  split; [done|]. by apply list_elem_of_lookup_2 in Hl.
Qed.

Lemma fetch_None h n :
  _fetch_by_hash h n = None ↔ h ∉ omap content_hash (records n).
Proof.
  unfold _fetch_by_hash. rewrite fmap_None, list_find_None, Forall_forall.
  setoid_rewrite list_elem_of_omap. unfold has_hash. naive_solver.
Qed.

Lemma fetch_app h n n' more r :
  records n' = records n ++ more → _fetch_by_hash h n = Some r → _fetch_by_hash h n' = Some r.
Proof.
  unfold _fetch_by_hash. intros -> ([i x]&Hf&->)%fmap_Some.
  by rewrite (list_find_app_l _ _ _ _ _ Hf).
Qed.

Lemma flush_Some r n n' :
  flush_record r n = Some n' →
  n' = set_records (records n ++ [r]) n ∧
  ∀ h, content_hash r = Some h → _fetch_by_hash h n = None.
Proof.
  unfold flush_record. destruct (_ && _) eqn:E; [|done]. intros [= <-]. split; [done|].
  apply andb_true_iff in E as [_ E]. intros h Hh. rewrite Hh in E. by destruct (_fetch_by_hash h n).
Qed.

(** The three ways [put] returns: the address is taken, or taken in the
    meantime, or the row is new. *)
Lemma put_Ok new_id race w n r n' :
  put sha256 new_id race w n = Ok (r, n') →
  ∃ hash sig, _resolve_hash_and_signature sha256 (body_of_write w) (w_keypair w)
      (w_precomputed_hash w) (w_precomputed_signature w) = Ok (hash, sig) ∧
  ((∃ h, hash = Some h ∧ content_hash r = Some h ∧ _fetch_by_hash h n' = Some r ∧
      (n' = n ∨ n' = set_records (records n ++ race) n)) ∨
   (r = record_of_write new_id w hash sig ∧ n' = set_records ((records n ++ race) ++ [r]) n ∧
      ∀ h, hash = Some h → h ∉ omap content_hash (records n ++ race))).
Proof.
  unfold put. intros ([hash sig]&Hr&Hp)%res_bind_Ok. exists hash, sig. split; [done|].
  assert (∀ n1, (hash ≫= λ h, _fetch_by_hash h n1) = Some r →
    ∃ h, hash = Some h ∧ content_hash r = Some h ∧ _fetch_by_hash h n1 = Some r) as Hfound.
  { intros n1 (h&Hh&Hf)%bind_Some. exists h. split_and!; [done| |done]. by apply fetch_Some in Hf as [? _]. }
  destruct (hash ≫= λ h, _fetch_by_hash h n) eqn:E1.
  { injection Hp as -> ->. left. destruct (Hfound _ E1) as (h&?&?&?). exists h. split_and!; [done..|by left]. }
  destruct (flush_record _ _) eqn:E2.
  - injection Hp as <- <-. right. apply flush_Some in E2 as [-> Hu]. split_and!; try done.
    intros h ->. by apply (fetch_None h (set_records (records n ++ race) n)), Hu.
  - destruct (hash ≫= λ h, _fetch_by_hash h (set_records _ _)) eqn:E3; [|done].
    injection Hp as -> <-. left. destruct (Hfound _ E3) as (h&?&?&?). exists h. split_and!; [done..|by right].
Qed.

Lemma store_ok_snoc rs r :
  store_ok rs → intact r → (∀ h, content_hash r = Some h → h ∉ omap content_hash rs) →
  store_ok (rs ++ [r]).
Proof.
  intros [Hall Hnd] Hr Hu. split; [by apply Forall_app_2; [|constructor]|].
  rewrite omap_app. apply NoDup_app. split_and!; [done| |].
  - intros h Hh Hin. cbn in Hin. destruct (content_hash r); [|by apply elem_of_nil in Hin].
    apply list_elem_of_singleton in Hin as ->. by apply (Hu s).
  - cbn. destruct (content_hash r); [apply NoDup_singleton|constructor].
Qed.

Lemma put_attested_ok new_id race w n r n' :
  (∀ hash sig, _resolve_hash_and_signature sha256 (body_of_write w) (w_keypair w)
     (w_precomputed_hash w) (w_precomputed_signature w) = Ok (hash, sig) →
   attested (body_of_write w) hash sig) →
  store_ok (records n ++ race) →
  put sha256 new_id race w n = Ok (r, n') → store_ok (records n').
Proof.
  intros Hk Hok (hash&sig&Hres&Hcase)%put_Ok.
  destruct Hcase as [(h&_&_&_&[->| ->])|(->&->&Hu)]; cbn [records set_records].
  - destruct Hok as [Hall Hnd]. rewrite omap_app in Hnd. split.
    + by apply Forall_app in Hall as [??].
    + by apply NoDup_app in Hnd as [??].
  - done.
  - apply store_ok_snoc; [done| |done]. unfold intact. rewrite row_body_of_write.
    by apply Hk.
Qed.

Lemma put_store_ok `{!LawfulEd25519} new_id race w n r n' :
  keyed_write w → store_ok (records n ++ race) →
  put sha256 new_id race w n = Ok (r, n') → store_ok (records n').
Proof. intros Hk. apply put_attested_ok. intros hash sig. by apply resolve_attested. Qed.

(** A foreign write carries no key. *)
Lemma put_foreign_ok new_id race w n r n' :
  w_keypair w = None → store_ok (records n ++ race) →
  put sha256 new_id race w n = Ok (r, n') → store_ok (records n').
Proof. intros Hk. apply put_attested_ok. intros hash sig. rewrite Hk. apply resolve_unkeyed. Qed.
End integrity.

Section put_facts.
Context (sha256 : string → list Byte.byte) `{Ed25519}.

Lemma put_found new_id race w n r n' h :
  put sha256 new_id race w n = Ok (r, n') → content_hash r = Some h →
  _fetch_by_hash h n' = Some r ∧
  ∃ sig, _resolve_hash_and_signature sha256 (body_of_write w) (w_keypair w) (w_precomputed_hash w)
           (w_precomputed_signature w) = Ok (Some h, sig).
Proof.
  intros (hash&sig&Hres&Hcase)%put_Ok Hh.
  destruct Hcase as [(h'&->&Hh'&Hf&_)|(->&->&Hu)].
  - rewrite Hh in Hh'. injection Hh' as <-. split; [done|]. by exists sig.
  - cbn in Hh. subst hash. split; [|by exists sig]. unfold _fetch_by_hash. cbn [records set_records].
    rewrite list_find_app_r.
    + cbn. rewrite decide_True by done. done.
    + apply list_find_None, Forall_forall. intros x Hx Hxh. apply (Hu h eq_refl), list_elem_of_omap.
      by exists x.
Qed.

Lemma put_prefix new_id race w n r n' :
  put sha256 new_id race w n = Ok (r, n') →
  r ∈ records n' ∧ workflows n' = workflows n ∧ agents n' = agents n ∧
  summaries n' = summaries n ∧
  ∃ l, records n' = records n ++ l ∧ (l = [] ∨ l = race ∨ l = race ++ [r]).
Proof.
  intros (hash&sig&_&Hcase)%put_Ok.
  destruct Hcase as [(h&_&_&Hf&Hn)|(_&->&_)].
  - apply fetch_Some in Hf as [_ Hin]. split; [done|].
    destruct Hn as [->| ->]; (split_and!; [done..|]).
    + exists []. rewrite app_nil_r. naive_solver.
    + exists race. naive_solver.
  - split_and!; try done; cbn [records set_records].
    + apply elem_of_app. right. by apply list_elem_of_singleton.
    + exists (race ++ [r]). rewrite app_assoc. naive_solver.
Qed.

Lemma put_again new_id race w n r n' h id2 race2 n2 more :
  put sha256 new_id race w n = Ok (r, n') → content_hash r = Some h →
  records n2 = records n' ++ more → put sha256 id2 race2 w n2 = Ok (r, n2).
Proof.
  intros Hp Hh Hn2. destruct (put_found _ _ _ _ _ _ _ Hp Hh) as (Hf&sig&Hres).
  unfold put. rewrite Hres. cbn [res_bind mbind option_bind].
  by rewrite (fetch_app _ _ _ _ _ Hn2 Hf).
Qed.
End put_facts.

(** ** Theorems *)

(** The store holds only attested rows.  Every successful [put], of a local
    signed write or of a foreign one with its hash and signature, keeps the
    invariant that each row's hash is the content address of its own columns,
    that each signature verifies over them under its author's key, and that
    hashes are unique; it never changes an existing row, and returns a row
    that is in the store and has the address of the write. *)
Theorem put_authentic sha256 `{LawfulEd25519} new_id race w n r n' :
  keyed_write w → store_ok sha256 (records n ++ race) →
  put sha256 new_id race w n = Ok (r, n') →
  store_ok sha256 (records n') ∧ records n `prefix_of` records n' ∧ r ∈ records n' ∧
  ∀ h, content_hash r = Some h → compute_content_hash sha256 (body_of_write w) = Ok h.
Proof.
  intros Hk Hok Hp. destruct (put_prefix _ _ _ _ _ _ _ Hp) as (Hin&_&_&_&l&Hl&_).
  split_and!; [by eapply put_store_ok|by exists l|done|].
  intros h Hh. destruct (put_found _ _ _ _ _ _ _ _ Hp Hh) as (_&sig&Hres).
  destruct (resolve_attested _ _ _ _ Hk Hres) as [Ha _]. by apply Ha.
Qed.

(** Writes are idempotent.  Repeating a hashed write, at any later time and
    whatever other rows and races come in between, returns the row of the
    first write and changes nothing. *)
Theorem put_idempotent sha256 `{Ed25519} new_id race w n r n' h id2 race2 n2 more :
  put sha256 new_id race w n = Ok (r, n') → content_hash r = Some h →
  records n2 = records n' ++ more → put sha256 id2 race2 w n2 = Ok (r, n2).
Proof. exact (put_again sha256 new_id race w n r n' h id2 race2 n2 more). Qed.

(** ** Examples *)

Definition toy_seed : list Byte.byte := replicate 32 Byte.x07.
Definition toy_kp : KeyPair := {| private_seed := toy_seed; public_bytes := toy_public toy_seed |}.
Definition toy_did : string :=
  match build_did_key (toy_public toy_seed) with Ok d => d | Err _ => "" end.

Definition toy_write (author : option string) (kp : option KeyPair) (hash sig : option string)
    : write := {|
  w_workflow_id := Some (UUID 1); w_memory_type := FACT; w_content := "text";
  w_confidence := FFrac "0.9"; w_metadata := None; w_parent_hashes := None;
  w_author_did := author; w_source_agent_id := None; w_keypair := kp;
  w_precomputed_hash := hash; w_precomputed_signature := sig; w_version := 1;
  w_parent_version_id := None; w_expires_at := None; w_record_state := ACTIVE |}.

Definition toy_node : node :=
  {| workflows := {[UUID 1]}; agents := ∅; records := []; summaries := ∅ |}.

Definition toy_signed : write := toy_write (Some toy_did) (Some toy_kp) None None.

Lemma toy_keyed : keyed_write toy_signed.
Proof. intros kp [= <-]. split; [by split|]. exists toy_did. by split. Qed.

Lemma toy_put_ok : is_ok (put toy_sha (UUID 9) [] toy_signed toy_node) = true.
Proof. vm_compute. reflexivity. Qed.

Definition toy_hash : string :=
  match compute_content_hash toy_sha (body_of_write toy_signed) with Ok h => h | Err _ => "" end.

Lemma toy_put_hash :
  match put toy_sha (UUID 9) [] toy_signed toy_node with
  | Ok (r, _) => content_hash r | Err _ => None
  end = Some toy_hash.
Proof. vm_compute. reflexivity. Qed.

Lemma put_authentic_witness :
  ∃ r n', put toy_sha (UUID 9) [] toy_signed toy_node = Ok (r, n') ∧
    store_ok toy_sha (records n') ∧ r ∈ records n'.
Proof.
  destruct (is_ok_Ok _ toy_put_ok) as [[r n'] E]. exists r, n'. split; [exact E|].
  destruct (put_authentic toy_sha (UUID 9) [] toy_signed toy_node r n' toy_keyed) as (Hs&_&Hin&_).
  - split; constructor.
  - exact E.
  - split; [exact Hs|exact Hin].
Defined.

Lemma put_idempotent_witness :
  ∃ r n', put toy_sha (UUID 9) [] toy_signed toy_node = Ok (r, n') ∧
    put toy_sha (UUID 10) [] toy_signed n' = Ok (r, n').
Proof.
  pose proof toy_put_hash as Hh. destruct (is_ok_Ok _ toy_put_ok) as [[r n'] E].
  rewrite E in Hh. exists r, n'. split; [exact E|].
  apply (put_idempotent toy_sha (UUID 9) [] toy_signed toy_node r n' toy_hash (UUID 10) [] n' [] E Hh).
  rewrite app_nil_r. reflexivity.
Defined.

(** A record that names a foreign author and carries no signature is accepted
    as soon as its hash is right: the unsigned branch never looks at the
    author. *)
Example forged_unsigned :
  (h <~ lift_canon (compute_content_hash toy_sha (body_of_write (toy_write (Some toy_did) None None None)));
   p <~ put toy_sha (UUID 9) [] (toy_write (Some toy_did) None (Some h) None) toy_node;
   Ok (author_did p.1, signature p.1, length (records p.2)))
  = Ok (Some toy_did, None, 1).
Proof. vm_compute. reflexivity. Qed.
