(* ===== verification/Sync.v ===== *)
(** * Sync: what a node serves to its peers

    Models [crdt/sync.py] on the node of Crdt.v, and what [crdt/peer_client.py]
    makes of the answers of [api/memory_sync.py]: [Peer] is the
    interface a gossip round uses, [node_peer] its implementation by an honest
    node.  The Redis summary cache is the [summaries] of the node, by scope;
    [summary_expire] is the end of an entry's lifetime.  HTTP and its signatures are
    those of SyncApi.v: here a peer answers with parsed data or with an error. *)

From Stdlib Require Import Ascii NArith ZArith Lia.
From stdpp Require Import base tactics strings gmap list.
From S2P Require Import Prelude PyStr Dict Base58 Json Did Merkle Uuid Signer Crdt.

(** ** sync.py *)

Inductive sync_error := TooManyHashesRequested | SyncValueError.

Definition _MAX_FETCH_HASHES : nat := 100.

Definition in_scope (wid : option uuid) (r : MemoryRecord) : Prop :=
  record_state r = ACTIVE ∧ match wid with Some u => workflow_id r = Some u | None => True end.

#[export] Instance in_scope_dec wid r : Decision (in_scope wid r).
Proof. unfold in_scope. destruct wid; apply _. Defined.

(** [if row: yield row] *)
Definition truthy_hash (o : option string) : option string :=
  match o with Some h => if str_empty h then None else Some h | None => None end.

Definition _iter_hashes (wid : option uuid) (n : node) : list string :=
  omap (λ r, truthy_hash (content_hash r)) (filter (in_scope wid) (records n)).

Definition set_summaries (s : gmap (option uuid) MerkleSummary) (n : node) : node := {|
  workflows := workflows n; agents := agents n; records := records n; summaries := s |}.

Definition summary_expire (wid : option uuid) (n : node) : node :=
  set_summaries (delete wid (summaries n)) n.

Definition invalidate_summary_cache (wid : option uuid) (n : node) : node :=
  match wid with
  | None => summary_expire None n
  | Some u => summary_expire (Some u) (summary_expire None n)
  end.

Definition _bucket_for_hash_safe (content_hash : string) : Z :=
  match bucket_for_hash content_hash with
  | Ok i => Z.of_nat i
  | Err _ => -1
  end.

Definition bucket_hashes (bucket_index : Z) (wid : option uuid) (n : node)
    : res sync_error (list string) :=
  raise_if (negb ((0 <=? bucket_index)%Z && (bucket_index <? Z.of_nat BUCKET_COUNT)%Z))
    SyncValueError ;!
  let hashes : gset string :=
    list_to_set (filter (λ h, _bucket_for_hash_safe h = bucket_index) (_iter_hashes wid n)) in
  Ok (str_sorted (elements hashes)).

Definition served (hashes : list string) (r : MemoryRecord) : Prop :=
  match content_hash r with Some h => h ∈ hashes | None => False end ∧ record_state r ≠ TOMBSTONED.

#[export] Instance served_dec hashes r : Decision (served hashes r).
Proof. unfold served. destruct (content_hash r); apply _. Defined.

Definition fetch_records (hashes : list string) (n : node) : res sync_error (list MemoryRecord) :=
  match hashes with
  | [] => Ok []
  | _ =>
      raise_if (_MAX_FETCH_HASHES <? length hashes) TooManyHashesRequested ;!
      Ok (filter (served hashes) (records n))
  end.

Section sha.
Context (sha256 : string → list Byte.byte).

Definition summarise (wid : option uuid) (n : node) : MerkleSummary * node :=
  match summaries n !! wid with
  | Some cached => (cached, n)
  | None =>
      let summary := summarise_hashes sha256 (_iter_hashes wid n) in
      (summary, set_summaries (<[wid := summary]> (summaries n)) n)
  end.
End sha.

(** ** The peer interface *)

Record PeerRecord := {
  p_content_hash : string;
  p_workflow_id : string;
  p_source_agent_id : option string;
  p_memory_type : string;
  p_content : string;
  p_confidence : pyfloat;
  p_metadata : list (pykey * json);
  p_author_did : option string;
  p_parent_hashes : list string;
  p_signature : option string;
  p_record_state : string;
}.

Inductive peer_error :=
  | PeerUnavailableError
  | PeerUnauthorizedError
  | PeerInvalidResponseError
  | PeerValueError.

(** [except PeerClientError]; the [ValueError] of a bad argument is not one *)
Definition is_PeerClientError (e : peer_error) : bool :=
  match e with PeerValueError => false | _ => true end.

(** One round's answers.  A round asks for the summary once, for each bucket at most
    once and for each batch of missing hashes once, so that a function of the
    question covers a peer with a state of its own, adversaries included; only
    two equal batches, which take a peer that lists the same hashes twice, get
    equal answers.  In another round the same node may be a different peer. *)
Record Peer := {
  fetch_summary : option uuid → res peer_error MerkleSummary;
  fetch_bucket_hashes : nat → option uuid → res peer_error (list string);
  peer_fetch_records : list string → res peer_error (list PeerRecord);
}.

(** The values of the enums, as the API serialises them *)
Definition memory_type_value (t : MemoryType) : string :=
  match t with
  | FACT => "fact" | CONTEXT => "context" | RESULT => "result"
  | REASONING => "reasoning" | META => "meta" | CACHE => "cache"
  end.

Definition record_state_value (s : RecordState) : string :=
  match s with
  | ACTIVE => "active" | SUPERSEDED => "superseded" | HISTORICAL => "historical"
  | TOMBSTONED => "tombstoned"
  end.

(** [x or None] on strings *)
Definition or_None (o : option string) : option string := truthy_hash o.

(** [MemoryResponse] on the wire, read back by [_coerce_record].  A row without
    a workflow does not fit the response model, one without a hash is refused
    by the reader. *)
Definition _coerce_record (r : MemoryRecord) : res peer_error PeerRecord :=
  wid <~ res_of_option PeerUnavailableError (workflow_id r);
  h <~ res_of_option PeerInvalidResponseError (truthy_hash (content_hash r));
  Ok {| p_content_hash := h;
        p_workflow_id := uuid_str wid;
        p_source_agent_id := uuid_str <$> source_agent_id r;
        p_memory_type := memory_type_value (memory_type r);
        p_content := content r;
        p_confidence := confidence r;
        p_metadata := metadata_ r;
        p_author_did := or_None (author_did r);
        p_parent_hashes := parent_hashes r;
        p_signature := or_None (signature r);
        p_record_state := record_state_value (record_state r) |}.

(** A 4xx answer is an invalid response for the client. *)
Definition serve {A} (m : res sync_error A) : res peer_error A :=
  res_catch m (λ _, Err PeerInvalidResponseError).

Definition starts_with_prefix (h : string) : bool :=
  match h with String c _ => Ascii.eqb c HASH_MULTIBASE_PREFIX | EmptyString => false end.

Definition node_peer (sha256 : string → list Byte.byte) (n : node) : Peer := {|
  fetch_summary wid := Ok (summarise sha256 wid n).1;
  fetch_bucket_hashes index wid :=
    raise_if (negb (index <? BUCKET_COUNT)) PeerValueError ;!
    hashes <~ serve (bucket_hashes (Z.of_nat index) wid n);
    Ok (filter (λ h, starts_with_prefix h = true) hashes);
  peer_fetch_records hashes :=
    match hashes with
    | [] => Ok []
    | _ =>
        raise_if (_MAX_FETCH_HASHES <? length hashes) PeerValueError ;!
        rows <~ serve (fetch_records hashes n);
        res_seq (map _coerce_record rows)
    end |}.

(** ** Lemmas *)

Lemma truthy_hash_Some o h : truthy_hash o = Some h ↔ o = Some h ∧ h ≠ "".
Proof. unfold truthy_hash. destruct o as [[|c s]|]; cbn; naive_solver. Qed.

Lemma elem_of_iter wid n h :
  h ∈ _iter_hashes wid n ↔
  h ≠ "" ∧ ∃ r, r ∈ records n ∧ in_scope wid r ∧ content_hash r = Some h.
Proof.
  unfold _iter_hashes. rewrite list_elem_of_omap. setoid_rewrite list_elem_of_filter.
  setoid_rewrite truthy_hash_Some. naive_solver.
Qed.

Lemma iter_app wid n l :
  _iter_hashes wid (set_records (records n ++ l) n) =
  _iter_hashes wid n ++ omap (λ r, truthy_hash (content_hash r)) (filter (in_scope wid) l).
Proof. unfold _iter_hashes. cbn [records set_records]. by rewrite filter_app, omap_app. Qed.

Lemma bucket_safe h i : _bucket_for_hash_safe h = Z.of_nat i ↔ bucket_for_hash h = Ok i.
Proof.
  unfold _bucket_for_hash_safe. destruct (bucket_for_hash h) as [j|e].
  - split; [intros E; f_equal; lia|intros [= ->]; done].
  - split; [lia|done].
Qed.

Lemma bucket_hashes_Ok wid n i :
  i < BUCKET_COUNT →
  ∃ l, bucket_hashes (Z.of_nat i) wid n = Ok l ∧
    ∀ h, h ∈ l ↔ h ∈ bucket_set (_iter_hashes wid n) i.
Proof.
  intros Hi. unfold bucket_hashes.
  assert (((0 <=? Z.of_nat i)%Z && (Z.of_nat i <? Z.of_nat BUCKET_COUNT)%Z) = true) as ->.
  { apply andb_true_iff. split; [apply Z.leb_le|apply Z.ltb_lt]; lia. }
  eexists. split; [reflexivity|]. intros h.
  rewrite elem_of_str_sorted, elem_of_elements, elem_of_list_to_set, list_elem_of_filter,
    bucket_safe, elem_of_bucket_set. done.
Qed.

Lemma valid_prefix h i : bucket_for_hash h = Ok i → starts_with_prefix h = true ∧ h ≠ "".
Proof. intros (_&body&_&_&->&_)%bucket_for_hash_Ok. done. Qed.

(** An honest node lists exactly the content of a bucket. *)
Lemma node_peer_bucket sha256 wid n i :
  i < BUCKET_COUNT →
  ∃ l, fetch_bucket_hashes (node_peer sha256 n) i wid = Ok l ∧
    ∀ h, h ∈ l ↔ h ∈ bucket_set (_iter_hashes wid n) i.
Proof.
  intros Hi. destruct (bucket_hashes_Ok wid n i Hi) as (l&Hl&Hin).
  cbn [fetch_bucket_hashes node_peer]. rewrite Hl.
  assert ((i <? BUCKET_COUNT) = true) as -> by by apply Nat.ltb_lt.
  cbn [negb raise_if res_bind serve res_catch]. eexists. split; [reflexivity|].
  intros h. rewrite list_elem_of_filter, Hin. split; [naive_solver|].
  intros Hb. split; [|done]. apply elem_of_bucket_set in Hb as [Hb _]. by apply valid_prefix in Hb as [? _].
Qed.

Lemma res_seq_map_Ok {E A B} (f : A → res E B) (l : list A) :
  (∀ x, x ∈ l → is_ok (f x) = true) →
  ∃ l', res_seq (map f l) = Ok l' ∧ Forall2 (λ x y, f x = Ok y) l l'.
Proof.
  induction l as [|x l IH]; intros Hall; [by exists []|].
  destruct (is_ok_Ok _ (Hall x ltac:(by left))) as [y Hy].
  destruct IH as (l'&Hl&Hf); [intros z Hz; apply Hall; by right|].
  exists (y :: l'). cbn. rewrite Hy, Hl. split; [done|by constructor].
Qed.

(** The part of [fetch_records] that does not depend on the request size *)
Lemma node_peer_fetch sha256 n hashes :
  length hashes <= _MAX_FETCH_HASHES →
  (∀ r, r ∈ records n → served hashes r → is_ok (_coerce_record r) = true) →
  ∃ prs, peer_fetch_records (node_peer sha256 n) hashes = Ok prs ∧
    (∀ pr, pr ∈ prs ↔ ∃ r, r ∈ records n ∧ served hashes r ∧ _coerce_record r = Ok pr).
Proof.
  intros Hlen Hok. destruct hashes as [|h0 hashes].
  { exists []. split; [done|]. intros pr. split; [intros Hpr; by apply elem_of_nil in Hpr|].
    intros (r&_&[Hs _]&_). destruct (content_hash r); [by apply elem_of_nil in Hs|done]. }
  set (hs := h0 :: hashes) in *. unfold peer_fetch_records, node_peer.
  assert ((_MAX_FETCH_HASHES <? length hs) = false) as Hle by by apply Nat.ltb_ge.
  destruct (res_seq_map_Ok _coerce_record (filter (served hs) (records n))) as (prs&Hprs&Hf).
  { intros r [Hs Hr]%list_elem_of_filter. by apply Hok. }
  exists prs. subst hs. cbv iota. rewrite Hle. unfold fetch_records. rewrite Hle.
  cbn [raise_if res_bind serve res_catch]. split; [done|]. intros pr. split.
  - intros (i&Hi)%list_elem_of_lookup_1.
    destruct (Forall2_lookup_r _ _ _ _ _ Hf Hi) as (r&Hr&Hc). exists r.
    apply list_elem_of_lookup_2, list_elem_of_filter in Hr as [Hs Hr]. done.
  - intros (r&Hr&Hs&Hc). assert (r ∈ filter (served (h0 :: hashes)) (records n)) as Hin
      by (apply list_elem_of_filter; by split).
    apply list_elem_of_lookup_1 in Hin as (i&Hi).
    destruct (Forall2_lookup_l _ _ _ _ _ Hf Hi) as (pr'&Hpr&Hc').
    rewrite Hc in Hc'. injection Hc' as <-. by apply list_elem_of_lookup_2 in Hpr.
Qed.
