(* ===== verification/SyncApi.v ===== *)
(** * SyncApi: the sync endpoints of a node and their client

    Models [api/memory_sync.py] over Sync.v and PeerAuth.v, and the requests of
    [crdt/peer_client.py] (parameters, signed headers, status codes, the checks of
    a body).  Routing, query strings and the JSON text of bodies are the
    frameworks': an endpoint gets the parameters of its route, and a body arrives
    as it was sent.  A body that is not JSON is refused before an endpoint runs. *)

From Stdlib Require Import Ascii NArith ZArith Lia.
From stdpp Require Import base tactics strings pretty gmap list.
From S2P Require Import Prelude PyStr Dict Base58 Json Did Merkle PyVal Uuid Signer PeerAuth Crdt Sync.

(** ** The endpoints *)

(** What an endpoint sees of a request besides its parameters *)
Record Request := {
  method : string;
  url_path : string;
  x_peer_did : option string;
  x_peer_timestamp : option string;
  x_peer_signature : option string;
}.

(** The refusals with their status codes; [ServerError] is an exception nobody
    handles. *)
Inductive http_error :=
  | Unauthorized (e : auth_error)
  | InvalidBucketIndex
  | InvalidRequest
  | UnprocessableBody
  | TooManyHashes
  | ServerError.

Definition status_code (e : http_error) : Z :=
  match e with
  | Unauthorized _ => 401 | InvalidBucketIndex => 400 | InvalidRequest => 400
  | UnprocessableBody => 422 | TooManyHashes => 413 | ServerError => 500
  end.

Definition peer_auth_failed (e : auth_error) : http_error :=
  match e with KeyExn _ => ServerError | _ => Unauthorized e end.

Definition scope_text (wid : option uuid) : string := match wid with Some _ => "workflow" | None => "instance" end.

Record BucketAnswer := { bucket_index : Z; bucket_scope : string; hashes : list string }.

(** The fields of [MemoryResponse] that the client reads *)
Record MemoryResponse := {
  mr_workflow_id : uuid;
  mr_source_agent_id : option uuid;
  mr_memory_type : MemoryType;
  mr_content : string;
  mr_metadata : list (pykey * json);
  mr_confidence : pyfloat;
  mr_author_did : option string;
  mr_parent_hashes : list string;
  mr_signature : option string;
  mr_hash : option string;
  mr_record_state : RecordState;
}.

(** Every row fits but one without a workflow. *)
Definition model_validate (r : MemoryRecord) : res http_error MemoryResponse :=
  wid <~ res_of_option ServerError (workflow_id r);
  Ok {| mr_workflow_id := wid; mr_source_agent_id := source_agent_id r; mr_memory_type := memory_type r;
        mr_content := content r; mr_metadata := metadata_ r; mr_confidence := confidence r;
        mr_author_did := author_did r; mr_parent_hashes := parent_hashes r; mr_signature := signature r;
        mr_hash := content_hash r; mr_record_state := record_state r |}.

Record FetchAnswer := { requested : nat; found : nat; fetched : list MemoryResponse }.

Definition str_item (v : json) : option string := match v with JStr s => Some s | _ => None end.

(** [isinstance(raw_hashes, list) and all(isinstance(h, str) for h in raw_hashes)] *)
Definition hash_list (raw_hashes : option json) : option (list string) :=
  match raw_hashes with Some (JList l) => mapM str_item l | _ => None end.

Section endpoints.
Context `{Ed25519} (sha256 : string → list Byte.byte) (allowlist : string) (demo_mode : bool).

Definition verified_peer (rq : Request) (now : Z) : res http_error VerifiedPeer :=
  res_catch (require_verified_peer allowlist (method rq) (url_path rq) (x_peer_did rq) (x_peer_timestamp rq)
    (x_peer_signature rq) now) (λ e, Err (peer_auth_failed e)).

Definition verified_peer_or_demo (rq : Request) (now : Z) : res http_error VerifiedPeer :=
  res_catch (require_verified_peer_or_demo allowlist demo_mode (method rq) (url_path rq) (x_peer_did rq)
    (x_peer_timestamp rq) (x_peer_signature rq) now) (λ e, Err (peer_auth_failed e)).

Definition get_sync_summary (wid : option uuid) (rq : Request) (now : Z) (n : node)
    : res http_error (MerkleSummary * string) * node :=
  match verified_peer_or_demo rq now with
  | Err e => (Err e, n)
  | Ok _ => let '(summary, n) := summarise sha256 wid n in (Ok (summary, scope_text wid), n)
  end.

Definition get_sync_bucket (index : Z) (wid : option uuid) (rq : Request) (now : Z) (n : node) : res http_error BucketAnswer :=
  _ <~ verified_peer rq now;
  hs <~ res_catch (bucket_hashes index wid n) (λ _, Err InvalidBucketIndex);
  Ok {| bucket_index := index; bucket_scope := scope_text wid; hashes := hs |}.

Definition fetch_records_by_hash (body : json) (rq : Request) (now : Z) (n : node) : res http_error FetchAnswer :=
  _ <~ verified_peer rq now;
  payload <~ match body with JObj d => Ok d | _ => Err UnprocessableBody end;
  raw_hashes <~ res_of_option InvalidRequest (hash_list (dict_get (KStr "hashes") payload));
  records <~ res_catch (fetch_records raw_hashes n) (λ _, Err TooManyHashes);
  rs <~ res_seq (map model_validate records);
  Ok {| requested := length raw_hashes; found := length records; fetched := rs |}.
End endpoints.

(** ** The client *)

(** An exception of the client, or of the signer under it *)
Inductive client_exn := Peer_exn (e : peer_error) | Signer_exn (e : codec_error).

Definition of_status (e : http_error) : peer_error :=
  let code := status_code e in
  if ((code =? 401) || (code =? 403))%Z then PeerUnauthorizedError
  else if ((500 <=? code) && (code <? 600))%Z then PeerUnavailableError
  else PeerInvalidResponseError.

(** [_coerce_record] on the dump of a [MemoryResponse] *)
Definition coerce_response (r : MemoryResponse) : res client_exn PeerRecord :=
  h <~ res_of_option (Peer_exn PeerInvalidResponseError) (truthy_hash (mr_hash r));
  Ok {| p_content_hash := h;
        p_workflow_id := uuid_str (mr_workflow_id r);
        p_source_agent_id := uuid_str <$> mr_source_agent_id r;
        p_memory_type := memory_type_value (mr_memory_type r);
        p_content := mr_content r;
        p_confidence := mr_confidence r;
        p_metadata := mr_metadata r;
        p_author_did := or_None (mr_author_did r);
        p_parent_hashes := mr_parent_hashes r;
        p_signature := or_None (mr_signature r);
        p_record_state := record_state_value (mr_record_state r) |}.

Section client.
Context `{Ed25519} (keypair : KeyPair) (our_did : string).

(** [transport] is the way to the other node and its answer, [None] where it is
    not reached; [ts] is the clock of the client. *)
Definition _request {A} (transport : Request → option (res http_error A)) (m path : string) (ts : Z) : res client_exn A :=
  headers <~ res_catch (_sign_headers keypair our_did m path ts) (λ e, Err (Signer_exn e));
  let '(d, t, s) := headers in
  let rq := {| method := m; url_path := path; x_peer_did := Some d; x_peer_timestamp := Some t; x_peer_signature := Some s |} in
  response <~ res_of_option (Peer_exn PeerUnavailableError) (transport rq);
  res_catch response (λ e, Err (Peer_exn (of_status e))).

Definition client_fetch_summary (transport : option uuid → Request → option (res http_error (MerkleSummary * string)))
    (wid : option uuid) (ts : Z) : res client_exn MerkleSummary :=
  body <~ _request (transport wid) "GET" "/api/v1/memory/sync/summary" ts;
  raise_if (negb (length (buckets body.1) =? BUCKET_COUNT)%nat) (Peer_exn PeerInvalidResponseError) ;!
  Ok body.1.

Definition client_fetch_bucket_hashes (transport : Z → option uuid → Request → option (res http_error BucketAnswer))
    (index : nat) (wid : option uuid) (ts : Z) : res client_exn (list string) :=
  raise_if (negb (index <? BUCKET_COUNT)%nat) (Peer_exn PeerValueError) ;!
  body <~ _request (transport (Z.of_nat index) wid) "GET" ("/api/v1/memory/sync/buckets/" +:+ pretty (Z.of_nat index)) ts;
  Ok (filter (λ h, starts_with_prefix h = true) (hashes body)).

Definition client_fetch_records (transport : json → Request → option (res http_error FetchAnswer))
    (hs : list string) (ts : Z) : res client_exn (list PeerRecord) :=
  match hs with
  | [] => Ok []
  | _ =>
      raise_if (_MAX_FETCH_HASHES <? length hs)%nat (Peer_exn PeerValueError) ;!
      body <~ _request (transport (JObj [(KStr "hashes", JList (map JStr hs))])) "POST" "/api/v1/memory/sync/fetch" ts;
      res_seq (map coerce_response (fetched body))
  end.
End client.

(** ** Who is served *)

Section served.
Context `{Ed25519} (allowlist : string) (demo_mode : bool).

(** The headers are a recent signature of this method and path by an allowed peer. *)
Definition signed_by_peer (rq : Request) (now : Z) : Prop :=
  ∃ d t s p, x_peer_did rq = Some d ∧ x_peer_timestamp rq = Some t ∧ x_peer_signature rq = Some s ∧
    admitted allowlist (method rq) (url_path rq) d t s now p.

Definition anonymous (rq : Request) : Prop :=
  falsy (x_peer_did rq) = true ∧ falsy (x_peer_timestamp rq) = true ∧ falsy (x_peer_signature rq) = true.

Lemma verified_peer_iff rq now : is_ok (verified_peer allowlist rq now) = true ↔ signed_by_peer rq now.
Proof.
  unfold verified_peer, require_verified_peer, signed_by_peer. split.
  - intros [p Hp]%is_ok_Ok. apply res_catch_Ok in Hp; [|by intros []].
    apply verify_peer_request_iff in Hp as (d&t&s&?&?&?&?). by exists d, t, s, p.
  - intros (d&t&s&p&Hd&Ht&Hs&Ha).
    assert (verify_peer_request allowlist (method rq) (url_path rq) (x_peer_did rq) (x_peer_timestamp rq)
      (x_peer_signature rq) now = Ok p) as -> by (apply verify_peer_request_iff; by exists d, t, s). done.
Qed.

Lemma verified_or_demo_iff rq now :
  is_ok (verified_peer_or_demo allowlist demo_mode rq now) = true ↔
  demo_mode = true ∧ anonymous rq ∨ signed_by_peer rq now.
Proof.
  rewrite <-verified_peer_iff. unfold verified_peer_or_demo, verified_peer, require_verified_peer, require_verified_peer_or_demo, anonymous.
  destruct demo_mode, (falsy (x_peer_did rq)) eqn:E1, (falsy (x_peer_timestamp rq)) eqn:E2, (falsy (x_peer_signature rq)) eqn:E3;
    cbn [andb]; naive_solver.
Qed.

Context (sha256 : string → list Byte.byte).

Lemma records_summarise wid n : records (summarise sha256 wid n).2 = records n.
Proof. unfold summarise. by destruct (summaries n !! wid). Qed.

Lemma validated_rows rows rs : res_seq (map model_validate rows) = Ok rs → Forall2 (λ r a, model_validate r = Ok a) rows rs.
Proof.
  revert rs. induction rows as [|r rows IH]; cbn [map res_seq]; [by intros ? [= <-]|].
  intros rs (a&Ha&(l&Hl&[= <-])%res_bind_Ok)%res_bind_Ok. constructor; [done|by apply IH].
Qed.

(** The content of records is served only to peers that signed the request, and
    so is the summary unless the node is in demo mode and the request carries no
    header; nothing is written but the cache of summaries.  An answer to a fetch
    was asked for with at most one hundred hashes and holds exactly the rows under
    them that are not tombstoned. *)
Theorem sync_guarded index wid body rq now n :
  (is_ok (get_sync_bucket allowlist index wid rq now n) = true → signed_by_peer rq now ∧ (0 ≤ index < 256)%Z) ∧
  (is_ok (get_sync_summary sha256 allowlist demo_mode wid rq now n).1 = true ↔
     demo_mode = true ∧ anonymous rq ∨ signed_by_peer rq now) ∧
  records (get_sync_summary sha256 allowlist demo_mode wid rq now n).2 = records n ∧
  (∀ a, fetch_records_by_hash allowlist body rq now n = Ok a →
     signed_by_peer rq now ∧
     ∃ payload hs, body = JObj payload ∧ dict_get (KStr "hashes") payload = Some (JList (map JStr hs)) ∧ length hs ≤ 100 ∧
       requested a = length hs ∧ found a = length (fetched a) ∧
       Forall2 (λ r m, model_validate r = Ok m) (filter (served hs) (records n)) (fetched a)).
Proof.
  split_and!.
  - unfold get_sync_bucket. intros [a (p&Hp&(hs&Hb&_)%res_bind_Ok)%res_bind_Ok]%is_ok_Ok. split.
    + apply verified_peer_iff. by rewrite Hp.
    + apply res_catch_Ok in Hb; [|by intros []]. unfold bucket_hashes in Hb.
      apply res_bind_Ok in Hb as ([]&Hr%raise_if_Ok&_). rewrite negb_false_iff in Hr. change (Z.of_nat BUCKET_COUNT) with 256%Z in Hr. lia.
  - rewrite <-verified_or_demo_iff. unfold get_sync_summary.
    destruct (verified_peer_or_demo _ _ _ _); [|done]. by destruct (summarise _ _ _).
  - unfold get_sync_summary. destruct (verified_peer_or_demo _ _ _ _); [|done].
    pose proof (records_summarise wid n) as E. by destruct (summarise _ _ _).
  - unfold fetch_records_by_hash. intros a (p&Hp&H1)%res_bind_Ok. apply res_bind_Ok in H1 as (d&Hd&H1).
    apply res_bind_Ok in H1 as (hs&Hh&H1). apply res_bind_Ok in H1 as (rows&Hf&H1).
    apply res_bind_Ok in H1 as (rs&Hv%validated_rows&[= <-]). split; [apply verified_peer_iff; by rewrite Hp|].
    destruct body; try done. injection Hd as ->. exists d, hs. split; [done|].
    apply res_catch_Ok in Hf; [|by intros []]. cbn [requested found fetched].
    assert (dict_get (KStr "hashes") d = Some (JList (map JStr hs))) as E.
    { unfold hash_list in Hh. destruct (dict_get _ d) as [[]|]; try done. cbn [res_of_option] in Hh.
      destruct (mapM str_item _) as [hs'|] eqn:Em; [|done]. injection Hh as ->. do 2 f_equal.
      apply mapM_Some_1 in Em. clear -Em. induction Em as [|v s ? ? Hv _ IH]; [done|].
      cbn [map]. rewrite <-IH. destruct v; try done. by injection Hv as ->. }
    split; [done|]. unfold fetch_records in Hf. destruct hs as [|h hs].
    + injection Hf as <-. split_and!; [cbn; lia|done|by apply Forall2_length in Hv|].
      destruct (filter (served []) (records n)) as [|r l] eqn:El; [done|].
      assert (r ∈ filter (served []) (records n)) as [[Hs _] _]%list_elem_of_filter by (rewrite El; left).
      by destruct (content_hash r); [apply elem_of_nil in Hs|].
    + apply res_bind_Ok in Hf as ([]&Hl%raise_if_Ok&[= <-]). apply Nat.ltb_ge in Hl. unfold _MAX_FETCH_HASHES in Hl.
      split_and!; [done|done|by apply Forall2_length in Hv|done].
Qed.
End served.

(** ** An honest client at an honest node *)

Section honest.
Context `{LawfulEd25519} (sha256 : string → list Byte.byte) (allowlist : string) (demo_mode : bool).
Context (kp : KeyPair) (did : string).
Hypotheses (Hkp : proper_keypair kp) (Hdid : build_did_key (public_bytes kp) = Ok did).
Hypothesis Hallowed : _allowed_peer_dids allowlist = ∅ ∨ did ∈ _allowed_peer_dids allowlist.

(** An answer of the peer interface, as the client gives it *)
Definition to_client {A} (m : res peer_error A) : res client_exn A := res_catch m (λ e, Err (Peer_exn e)).

(** The row can be put on the wire. *)
Definition has_workflow (r : MemoryRecord) : Prop := is_Some (workflow_id r).

(** A cached summary has as many buckets as one that is computed. *)
Definition cache_shaped (n : node) : Prop :=
  ∀ wid s, summaries n !! wid = Some s → length (buckets s) = BUCKET_COUNT.

Definition clocks_agree (ts now : Z) : Prop := (0 ≤ ts ∧ now - 60 ≤ ts ≤ now + 60)%Z.

(** A request of the client reaches the endpoint behind the check of the headers. *)
Lemma request_reaches {A} (transport : Request → option (res http_error A)) m path ts now :
  clocks_agree ts now →
  ∃ rq, method rq = m ∧ url_path rq = path ∧ is_ok (verified_peer allowlist rq now) = true ∧
    _request kp did transport m path ts =
      (response <~ res_of_option (Peer_exn PeerUnavailableError) (transport rq);
       res_catch response (λ e, Err (Peer_exn (of_status e)))).
Proof.
  intros [Hts Hw]. unfold _request.
  destruct (_sign_headers kp did m path ts) as [[[d t] s]|e] eqn:Es.
  - exists {| method := m; url_path := path; x_peer_did := Some d; x_peer_timestamp := Some t; x_peer_signature := Some s |}.
    split_and!; [done..| |done]. unfold verified_peer, require_verified_peer. cbn [method url_path x_peer_did x_peer_timestamp x_peer_signature].
    assert (Es2 := Es). unfold _sign_headers in Es2. apply res_bind_Ok in Es2 as (sig&_&[= <- <- <-]).
    by rewrite (signed_request_admitted allowlist kp did m path ts now _ _ _ Hkp Hdid Hts Hw Hallowed Es).
  - exfalso. unfold _sign_headers in Es. by rewrite sign_bytes_Ok in Es.
Qed.

Lemma summarise_length wid n : cache_shaped n → length (buckets (summarise sha256 wid n).1) = BUCKET_COUNT.
Proof.
  intros Hn. unfold summarise. destruct (summaries n !! wid) as [s|] eqn:E; [by eapply Hn|]. cbn [fst].
  rewrite summarise_spec. cbn [buckets]. by rewrite length_map, length_seq.
Qed.

Lemma coerce_validated r m : model_validate r = Ok m → coerce_response m = to_client (_coerce_record r).
Proof.
  unfold model_validate, coerce_response, _coerce_record, to_client. destruct (workflow_id r); [|done]. intros [= <-].
  cbn [mr_hash res_of_option res_bind]. by destruct (truthy_hash (content_hash r)).
Qed.

Lemma res_seq_to_client {A} (l : list (res peer_error A)) : res_seq (map to_client l) = to_client (res_seq l).
Proof.
  induction l as [|m l IH]; [done|]. cbn [map res_seq]. destruct m as [x|e]; [|done]. cbn.
  rewrite IH. by destruct (res_seq l).
Qed.

Lemma wire_rows rows :
  Forall has_workflow rows →
  (rs <~ res_seq (map model_validate rows); Ok (res_seq (map coerce_response rs))) =
    (Ok (to_client (res_seq (map _coerce_record rows))) : res http_error _).
Proof.
  intros Hw. assert (∃ rs, res_seq (map model_validate rows) = Ok rs) as [rs Hrs].
  { destruct (res_seq_map_Ok model_validate rows) as (rs&Hrs&_); [|by exists rs].
    intros r Hr. rewrite Forall_forall in Hw. destruct (Hw r Hr) as [u Hu]. unfold model_validate. by rewrite Hu. }
  rewrite Hrs. cbn [res_bind]. f_equal. apply validated_rows in Hrs. rewrite <-res_seq_to_client, map_map. f_equal.
  clear Hw. induction Hrs as [|r m rows rs Hm _ IH]; [done|]. cbn [map]. by rewrite IH, (coerce_validated r m Hm).
Qed.
Lemma summary_served wid ts now n :
  clocks_agree ts now → cache_shaped n →
  client_fetch_summary kp did (λ wid rq, Some (get_sync_summary sha256 allowlist demo_mode wid rq now n).1) wid ts =
    to_client (fetch_summary (node_peer sha256 n) wid).
Proof.
  intros Hc Hn. unfold client_fetch_summary.
  destruct (request_reaches (λ rq, Some (get_sync_summary sha256 allowlist demo_mode wid rq now n).1) "GET"
    "/api/v1/memory/sync/summary" ts now Hc) as (rq&_&_&Hv&->).
  assert (is_ok (verified_peer_or_demo allowlist demo_mode rq now) = true) as [p Hp]%is_ok_Ok
    by (apply (verified_or_demo_iff allowlist demo_mode rq now); right; by apply (verified_peer_iff allowlist rq now)).
  cbn [res_of_option res_bind]. unfold get_sync_summary. rewrite Hp. pose proof (summarise_length wid n Hn) as El.
  cbn [fetch_summary node_peer]. destruct (summarise sha256 wid n) as [summary n']. cbn [fst res_catch res_bind] in *.
  by rewrite El.
Qed.

Lemma bucket_served index wid ts now n :
  clocks_agree ts now →
  client_fetch_bucket_hashes kp did (λ i wid rq, Some (get_sync_bucket allowlist i wid rq now n)) index wid ts =
    to_client (fetch_bucket_hashes (node_peer sha256 n) index wid).
Proof.
  intros Hc. unfold client_fetch_bucket_hashes. cbn [fetch_bucket_hashes node_peer].
  destruct (index <? BUCKET_COUNT); [|done]. cbn [negb raise_if res_bind].
  destruct (request_reaches (λ rq, Some (get_sync_bucket allowlist (Z.of_nat index) wid rq now n)) "GET"
    ("/api/v1/memory/sync/buckets/" +:+ pretty (Z.of_nat index)) ts now Hc) as (rq&_&_&[p Hp]%is_ok_Ok&->).
  cbn [res_of_option res_bind]. unfold get_sync_bucket. rewrite Hp. cbn [res_bind].
  by destruct (bucket_hashes (Z.of_nat index) wid n).
Qed.

Lemma hash_list_sent hs : hash_list (Some (JList (map JStr hs))) = Some hs.
Proof.
  unfold hash_list. apply mapM_Some_2. induction hs as [|h hs IH]; cbn [map]; by constructor.
Qed.

Lemma records_served hs ts now n :
  clocks_agree ts now → Forall has_workflow (filter (served hs) (records n)) →
  client_fetch_records kp did (λ body rq, Some (fetch_records_by_hash allowlist body rq now n)) hs ts =
    to_client (peer_fetch_records (node_peer sha256 n) hs).
Proof.
  intros Hc Hw. unfold client_fetch_records. cbn [peer_fetch_records node_peer]. destruct hs as [|h hs']; [done|].
  set (hs := h :: hs') in *. destruct (_MAX_FETCH_HASHES <? length hs) eqn:El; [done|]. cbn [raise_if res_bind].
  set (body := JObj _).
  destruct (request_reaches (λ rq, Some (fetch_records_by_hash allowlist body rq now n)) "POST"
    "/api/v1/memory/sync/fetch" ts now Hc) as (rq&_&_&[p Hp]%is_ok_Ok&->).
  cbn [res_of_option res_bind]. unfold fetch_records_by_hash. rewrite Hp. unfold body. cbn [res_bind dict_get].
  rewrite decide_True by done. rewrite hash_list_sent. cbn [res_of_option res_bind].
  assert (fetch_records hs n = Ok (filter (served hs) (records n))) as ->.
  { unfold fetch_records. subst hs. cbv iota. by rewrite El. }
  cbn [res_catch serve res_bind]. pose proof (wire_rows _ Hw) as E.
  destruct (res_seq (map model_validate _)) as [rs|e]; [|done]. cbn [res_bind res_catch fetched] in *. by injection E.
Qed.

(** C39: over HTTP an honest node is the peer that the gossip rounds assume.  A client
    that signs with its own key, whose identifier the node allows (or that has no
    allowlist) and whose clock is within a minute of the node's, gets exactly the
    answers of [node_peer] to all three requests, whatever the demo mode; the cached
    summaries have the shape of computed ones and the rows served have a workflow. *)
Theorem signed_client_served index wid hs ts now n :
  clocks_agree ts now → cache_shaped n → Forall has_workflow (filter (served hs) (records n)) →
  client_fetch_summary kp did (λ wid rq, Some (get_sync_summary sha256 allowlist demo_mode wid rq now n).1) wid ts =
    to_client (fetch_summary (node_peer sha256 n) wid) ∧
  client_fetch_bucket_hashes kp did (λ i wid rq, Some (get_sync_bucket allowlist i wid rq now n)) index wid ts =
    to_client (fetch_bucket_hashes (node_peer sha256 n) index wid) ∧
  client_fetch_records kp did (λ body rq, Some (fetch_records_by_hash allowlist body rq now n)) hs ts =
    to_client (peer_fetch_records (node_peer sha256 n) hs).
Proof. intros. split_and!; [by apply summary_served|by apply bucket_served|by apply records_served]. Qed.
End honest.

Definition served_node : node :=
  match put toy_sha (UUID 9) [] toy_signed toy_node with Ok (_, n) => n | Err _ => toy_node end.

Lemma signed_client_served_witness :
  client_fetch_records toy_kp toy_did (λ body rq, Some (fetch_records_by_hash "" body rq 1030 served_node)) [toy_hash] 1000 =
    to_client (peer_fetch_records (node_peer toy_sha served_node) [toy_hash]) ∧
  is_ok (peer_fetch_records (node_peer toy_sha served_node) [toy_hash]) = true.
Proof.
  assert (clocks_agree 1000 1030) as Hc by (unfold clocks_agree; lia).
  assert (_allowed_peer_dids "" = ∅ ∨ toy_did ∈ _allowed_peer_dids "") as Ha
    by (left; apply (bool_decide_eq_true_1 (_allowed_peer_dids "" = ∅)); vm_compute; reflexivity).
  assert (cache_shaped served_node) as Hn.
  { assert (summaries served_node = ∅) as E by (vm_compute; reflexivity). intros wid s. rewrite E, lookup_empty. intros [=]. }
  assert (Forall has_workflow (filter (served [toy_hash]) (records served_node))) as Hw.
  { apply (bool_decide_eq_true_1 (Forall (λ r, is_Some (workflow_id r)) _)). vm_compute. reflexivity. }
  assert (proper_keypair toy_kp) as Hk by (by split).
  split; [|vm_compute; reflexivity].
  apply (signed_client_served toy_sha "" false toy_kp toy_did Hk eq_refl Ha 0 None [toy_hash] 1000 1030
    served_node Hc Hn Hw).
Defined.

(** The other cases of the endpoints on the same node *)
Definition empty_request (m path : string) : Request :=
  {| method := m; url_path := path; x_peer_did := None; x_peer_timestamp := None; x_peer_signature := None |}.

Example summary_for_anyone_in_demo :
  is_ok (get_sync_summary toy_sha "" true None (empty_request "GET" "/api/v1/memory/sync/summary") 1000 served_node).1 = true ∧
  (get_sync_summary toy_sha "" false None (empty_request "GET" "/api/v1/memory/sync/summary") 1000 served_node).1 =
    Err (Unauthorized MissingHeaders).
Proof. vm_compute. done. Qed.

Example late_client :
  client_fetch_bucket_hashes toy_kp toy_did (λ i wid rq, Some (get_sync_bucket "" i wid rq 1100 served_node)) 0 None 1000 =
    Err (Peer_exn PeerUnauthorizedError).
Proof. vm_compute. reflexivity. Qed.

Example unreachable_node :
  client_fetch_bucket_hashes toy_kp toy_did (λ _ _ _, None) 0 None 1000 = Err (Peer_exn PeerUnavailableError).
Proof. vm_compute. reflexivity. Qed.
