(* ===== verification/Gossip.v ===== *)
(** * Gossip: one reconciliation round with a peer

    Models [crdt/gossip.py]: summary, difference, missing hashes, batched
    fetch, verification and insertion.  The peer is any implementation of the
    interface [Peer], an adversary included.  The round keeps its node,
    report and [_Known] also when an exception ends it.  [fresh] is the row
    id the database generates; [race] says which workflows other sessions
    create between the round's check and its insertion, when the insertion fails
    and the session is rolled back.  Times, URLs and log records are not
    modelled. *)

From Stdlib Require Import Ascii NArith ZArith Lia.
From stdpp Require Import base tactics strings gmap list.
From S2P Require Import Prelude PyStr Dict Base58 Json Did Merkle Uuid Signer Crdt Sync.

(** ** Data *)

Inductive gossip_exn :=
  | PeerExn (e : peer_error)
  | StoreExn (e : crdt_error)
  | SyncExn (e : sync_error).

(** The two handlers: [peer_client_error] and [unexpected_error] *)
Inductive report_error := peer_client_error | unexpected_error (e : gossip_exn).

Record GossipRoundReport := {
  buckets_compared : nat;
  buckets_divergent : nat;
  hashes_missing_locally : nat;
  records_fetched : nat;
  records_persisted : nat;
  records_skipped_unknown_workflow : nat;
  records_skipped_invalid : nat;
  records_skipped_duplicate : nat;
  error : option report_error;
  in_sync_before : bool;
}.

Definition empty_report : GossipRoundReport := {|
  buckets_compared := 0; buckets_divergent := 0; hashes_missing_locally := 0;
  records_fetched := 0; records_persisted := 0; records_skipped_unknown_workflow := 0;
  records_skipped_invalid := 0; records_skipped_duplicate := 0; error := None;
  in_sync_before := false |}.

Record _Known := { known_workflow_ids : gset uuid; known_content_hashes : gset string }.

(** The state of a round; [rd_base] is what a rollback of its transaction leaves. *)
Record round := { rd_base : node; rd_node : node; rd_known : _Known; rd_report : GossipRoundReport }.

Definition _FETCH_BATCH_SIZE : nat := 100.

(** [items[i : i + size]]; [fuel] bounds the number of chunks *)
Fixpoint chunks_loop (fuel size : nat) (items : list string) : list (list string) :=
  match fuel, items with
  | S fuel, _ :: _ => take size items :: chunks_loop fuel size (drop size items)
  | _, _ => []
  end.

Definition _chunks (items : list string) (size : nat) : list (list string) :=
  chunks_loop (length items) size items.

(** The values of the enums, as their constructors read them *)
Definition memory_type_of (s : string) : option MemoryType :=
  snd <$> list_find (λ t, memory_type_value t = s) [FACT; CONTEXT; RESULT; REASONING; META; CACHE].

Definition record_state_of (s : string) : RecordState :=
  default ACTIVE (snd <$> list_find (λ t, record_state_value t = s)
    [ACTIVE; SUPERSEDED; HISTORICAL; TOMBSTONED]).

(** [report.records_skipped_... += 1] and the other counters *)
Definition count_fetched (k : nat) (r : GossipRoundReport) : GossipRoundReport := {|
  buckets_compared := buckets_compared r; buckets_divergent := buckets_divergent r;
  hashes_missing_locally := hashes_missing_locally r;
  records_fetched := records_fetched r + k; records_persisted := records_persisted r;
  records_skipped_unknown_workflow := records_skipped_unknown_workflow r;
  records_skipped_invalid := records_skipped_invalid r;
  records_skipped_duplicate := records_skipped_duplicate r; error := error r;
  in_sync_before := in_sync_before r |}.

Inductive outcome := Persisted | SkippedUnknown | SkippedInvalid | SkippedDuplicate.

Definition count_outcome (o : outcome) (r : GossipRoundReport) : GossipRoundReport :=
  let one (b : bool) := if b then 1 else 0 in {|
  buckets_compared := buckets_compared r; buckets_divergent := buckets_divergent r;
  hashes_missing_locally := hashes_missing_locally r; records_fetched := records_fetched r;
  records_persisted := records_persisted r + one (match o with Persisted => true | _ => false end);
  records_skipped_unknown_workflow := records_skipped_unknown_workflow r +
    one (match o with SkippedUnknown => true | _ => false end);
  records_skipped_invalid := records_skipped_invalid r +
    one (match o with SkippedInvalid => true | _ => false end);
  records_skipped_duplicate := records_skipped_duplicate r +
    one (match o with SkippedDuplicate => true | _ => false end);
  error := error r; in_sync_before := in_sync_before r |}.

(** ** The round *)

(** The workflow a record names: [inl] when the text is not a UUID *)
Definition named_workflow (record : PeerRecord) : option (option uuid) :=
  if str_empty (p_workflow_id record) then Some None
  else Some <$> uuid_parse (p_workflow_id record).

(** Adds what the batch needs: the hashes already in the table, in any state,
    and the workflows that exist. *)
Definition _extend_known (rs : list PeerRecord) (n : node) (known : _Known) : _Known :=
  let unseen_hashes : gset string :=
    list_to_set (filter (λ h, str_empty h = false) (map p_content_hash rs))
      ∖ known_content_hashes known in
  let stored : gset string := list_to_set (omap content_hash (records n)) in
  let unseen_workflows : gset uuid :=
    list_to_set (omap (λ r, mjoin (named_workflow r)) rs) ∖ known_workflow_ids known in
  {| known_workflow_ids := known_workflow_ids known ∪ (unseen_workflows ∩ workflows n);
     known_content_hashes := known_content_hashes known ∪ (unseen_hashes ∩ stored) |}.

Definition with_workflow (u : uuid) (n : node) : node := {|
  workflows := {[u]} ∪ workflows n; agents := agents n; records := records n;
  summaries := summaries n |}.

(** Inserts a placeholder workflow, unless it exists.  [raced] says whether another
    session commits the workflow between the lookup and the insertion: then the
    [IntegrityError] is answered with [session.rollback()], which undoes not the
    insertion alone but all that the transaction has flushed, and what is left
    is [base], with the other session's row.  The base and the node: *)
Definition _auto_shadow_workflow (raced : bool) (u : uuid) (base n : node) : node * node :=
  if decide (u ∈ workflows n) then (base, n)
  else if raced then (with_workflow u base, with_workflow u base)
  else (base, with_workflow u n).

Definition write_of_peer (record : PeerRecord) (u : uuid) (agent : option uuid) (t : MemoryType)
    : write := {|
  w_workflow_id := Some u;
  w_memory_type := t;
  w_content := p_content record;
  w_confidence := p_confidence record;
  w_metadata := Some (p_metadata record);
  w_parent_hashes := Some (p_parent_hashes record);
  w_author_did := p_author_did record;
  w_source_agent_id := agent;
  w_keypair := None;
  w_precomputed_hash := Some (p_content_hash record);
  w_precomputed_signature := p_signature record;
  w_version := 1;
  w_parent_version_id := None;
  w_expires_at := None;
  w_record_state := record_state_of (p_record_state record) |}.

(** The agent a record names: [None] when the text is not a UUID *)
Definition named_agent (record : PeerRecord) : option (option uuid) :=
  match truthy_hash (p_source_agent_id record) with
  | None => Some None
  | Some s => Some <$> uuid_parse s
  end.

(** Which workflows other sessions commit at the wrong moment; none, where rounds do
    not overlap with other writers *)
Definition races := uuid → node → bool.
Definition no_race : races := λ _ _, false.

Section gossip.
Context (sha256 : string → list Byte.byte) `{Ed25519} (fresh : node → uuid) (race : races).

(** [set(await self._sync.bucket_hashes(...))] and the subtraction *)
Fixpoint _collect_missing_hashes (peer : Peer) (wid : option uuid) (n : node)
    (bucket_indices : list nat) : res gossip_exn (list string) :=
  match bucket_indices with
  | [] => Ok []
  | idx :: bucket_indices =>
      peer_hashes <~ res_catch (fetch_bucket_hashes peer idx wid) (λ e, Err (PeerExn e));
      here <~ match peer_hashes with
              | [] => Ok []
              | _ =>
                  local_hashes <~ res_catch (bucket_hashes (Z.of_nat idx) wid n)
                                    (λ e, Err (SyncExn e));
                  Ok (filter (λ h, h ∉ local_hashes) peer_hashes)
              end;
      rest <~ _collect_missing_hashes peer wid n bucket_indices;
      Ok (here ++ rest)
  end.

(** The base, the node and the known set change before the record is verified, so
    they are returned in every case. *)
Definition _persist_peer_record (record : PeerRecord) (known : _Known) (base n : node)
    : node * node * _Known * res gossip_exn outcome :=
  match named_workflow record with
  | None => (base, n, known, Ok SkippedInvalid)
  | Some None => (base, n, known, Ok SkippedUnknown)
  | Some (Some workflow_uuid) =>
      let '(base, n, known) :=
        if decide (workflow_uuid ∈ known_workflow_ids known) then (base, n, known)
        else (_auto_shadow_workflow (race workflow_uuid n) workflow_uuid base n,
              {| known_workflow_ids := {[workflow_uuid]} ∪ known_workflow_ids known;
                 known_content_hashes := known_content_hashes known |}) in
      if decide (p_content_hash record ∈ known_content_hashes known) then
        (base, n, known, Ok SkippedDuplicate)
      else
        match named_agent record, memory_type_of (p_memory_type record) with
        | None, _ | _, None => (base, n, known, Ok SkippedInvalid)
        | Some agent, Some memory_type =>
            match put sha256 (fresh n) [] (write_of_peer record workflow_uuid agent memory_type) n with
            | Ok (_, n) =>
                (base, n, {| known_workflow_ids := known_workflow_ids known;
                       known_content_hashes :=
                         {[p_content_hash record]} ∪ known_content_hashes known |}, Ok Persisted)
            | Err e =>
                if is_CRDTStoreError e then (base, n, known, Ok SkippedInvalid)
                else (base, n, known, Err (StoreExn e))
            end
        end
  end.

Fixpoint persist_records (rs : list PeerRecord) (s : round) : round * option gossip_exn :=
  match rs with
  | [] => (s, None)
  | record :: rs =>
      let '(base, n, known, r) := _persist_peer_record record (rd_known s) (rd_base s) (rd_node s) in
      match r with
      | Ok o =>
          persist_records rs
            {| rd_base := base; rd_node := n; rd_known := known; rd_report := count_outcome o (rd_report s) |}
      | Err e => ({| rd_base := base; rd_node := n; rd_known := known; rd_report := rd_report s |}, Some e)
      end
  end.

Fixpoint fetch_batches (peer : Peer) (batches : list (list string)) (s : round)
    : round * option gossip_exn :=
  match batches with
  | [] => (s, None)
  | batch :: batches =>
      match peer_fetch_records peer batch with
      | Err e => (s, Some (PeerExn e))
      | Ok rs =>
          let s := {| rd_base := rd_base s; rd_node := rd_node s; rd_known := _extend_known rs (rd_node s) (rd_known s);
                      rd_report := count_fetched (length rs) (rd_report s) |} in
          match persist_records rs s with
          | (s, None) => fetch_batches peer batches s
          | (s, Some e) => (s, Some e)
          end
      end
  end.

(** The two [except] clauses around the round *)
Definition report_error_of (e : gossip_exn) : report_error :=
  match e with
  | PeerExn e' => if is_PeerClientError e' then peer_client_error else unexpected_error e
  | _ => unexpected_error e
  end.

Definition finish (compared divergent missing : nat) (in_sync : bool) (e : option gossip_exn)
    (r : GossipRoundReport) : GossipRoundReport := {|
  buckets_compared := compared; buckets_divergent := divergent;
  hashes_missing_locally := missing; records_fetched := records_fetched r;
  records_persisted := records_persisted r;
  records_skipped_unknown_workflow := records_skipped_unknown_workflow r;
  records_skipped_invalid := records_skipped_invalid r;
  records_skipped_duplicate := records_skipped_duplicate r;
  error := report_error_of <$> e; in_sync_before := in_sync |}.

(** The transaction of a round begins with it. *)
Definition reconcile_with (peer : Peer) (wid : option uuid) (n : node)
    : GossipRoundReport * node :=
  let base := n in
  let '(local_summary, n) := summarise sha256 wid n in
  match fetch_summary peer wid with
  | Err e => (finish 0 0 0 false (Some (PeerExn e)) empty_report, n)
  | Ok peer_summary =>
      let compared := length (buckets local_summary) in
      if decide (root local_summary = root peer_summary) then
        (finish compared 0 0 true None empty_report, n)
      else
        let divergent := diverges_from local_summary peer_summary in
        match divergent with
        | [] => (finish compared 0 0 true None empty_report, n)
        | _ =>
            match _collect_missing_hashes peer wid n divergent with
            | Err e => (finish compared (length divergent) 0 false (Some e) empty_report, n)
            | Ok missing_hashes =>
                let known := {| known_workflow_ids := ∅; known_content_hashes := ∅ |} in
                let '(s, e) := fetch_batches peer (_chunks missing_hashes _FETCH_BATCH_SIZE)
                  {| rd_base := base; rd_node := n; rd_known := known; rd_report := empty_report |} in
                (finish compared (length divergent) (length missing_hashes) false e (rd_report s),
                 rd_node s)
            end
        end
  end.
End gossip.

(** ** Rounds with any peer *)

Definition accounted (r : GossipRoundReport) : nat :=
  records_persisted r + records_skipped_unknown_workflow r + records_skipped_invalid r +
  records_skipped_duplicate r.

Section extension.
Context (sha256 : string → list Byte.byte) `{Ed25519}.

(** What no step of a round breaks: rows are only appended, agents are not
    touched, workflows are only added, and the store stays attested. *)
Record extends (n n' : node) : Prop := {
  ext_records : records n `prefix_of` records n';
  ext_agents : agents n' = agents n;
  ext_workflows : workflows n ⊆ workflows n';
  ext_ok : store_ok sha256 (records n) → store_ok sha256 (records n');
}.

#[export] Instance extends_preorder : PreOrder extends.
Proof.
  split; [by split|]. intros n1 n2 n3 [P1 A1 W1 O1] [P2 A2 W2 O2].
  split; [by etrans|congruence|set_solver|auto].
Qed.

Lemma put_extends id w n r n' :
  w_keypair w = None → put sha256 id [] w n = Ok (r, n') → extends n n'.
Proof.
  intros Hk Hp. destruct (put_prefix _ _ _ _ _ _ _ Hp) as (_&Hw&Ha&_&l&Hl&_). split.
  - by exists l.
  - done.
  - by rewrite Hw.
  - intros Hok. eapply put_foreign_ok; [exact Hk| |exact Hp]. by rewrite app_nil_r.
Qed.

Lemma with_workflow_extends u n : extends n (with_workflow u n).
Proof. split; cbn; [done|done|set_solver|done]. Qed.

Lemma summarise_extends wid n : extends n (summarise sha256 wid n).2.
Proof. unfold summarise. destruct (summaries n !! wid); by split. Qed.

End extension.

Section safety.
Context (sha256 : string → list Byte.byte) `{Ed25519} (fresh : node → uuid) (race : races).
Abbreviation extends := (extends sha256).

(** A state of a round is an extension of the node [n0] it began with, and every row
    that is new has a content hash. *)
Definition hashed_since (n0 n : node) : Prop :=
  ∀ r, r ∈ records n → r ∈ records n0 ∨ is_Some (content_hash r).

Record grows (n0 n : node) : Prop := { gr_extends : extends n0 n; gr_hashed : hashed_since n0 n }.

Lemma grows_refl n : grows n n.
Proof. split; [done|]. intros r Hr. by left. Qed.

Lemma grows_records n0 n n' : extends n0 n' → records n' = records n → grows n0 n → grows n0 n'.
Proof. intros He Hr [_ Hh]. split; [done|]. intros r. rewrite Hr. apply Hh. Qed.

Lemma shadow_grows raced u n0 base n :
  grows n0 base → grows n0 n →
  let st := _auto_shadow_workflow raced u base n in grows n0 st.1 ∧ grows n0 st.2.
Proof.
  intros Hb Hn st. assert (∀ m, grows n0 m → grows n0 (with_workflow u m)) as Hw.
  { intros m Hm. apply (grows_records n0 m); [|done|done]. etrans; [apply (gr_extends _ _ Hm)|apply with_workflow_extends]. }
  subst st. unfold _auto_shadow_workflow. destruct (decide _); [by split|].
  destruct raced; cbn [fst snd]; split; by try apply Hw.
Qed.

Lemma put_grows id h n0 w n r n' :
  w_keypair w = None → w_precomputed_hash w = Some h → put sha256 id [] w n = Ok (r, n') → grows n0 n → grows n0 n'.
Proof.
  intros Hk Hh Hp [He Hs]. split; [etrans; [exact He|by eapply put_extends]|].
  apply put_Ok in Hp as (hash&sig&Hr&Hcase). intros x Hx.
  assert (is_Some hash) as Hhash.
  { unfold _resolve_hash_and_signature in Hr. rewrite Hk, Hh in Hr. destruct (w_precomputed_signature w).
    - repeat (apply res_bind_Ok in Hr as (?&_&Hr)). injection Hr as <- _. by eexists.
    - repeat (apply res_bind_Ok in Hr as (?&_&Hr)). injection Hr as <- _. by eexists. }
  destruct Hcase as [(?&_&_&_&[->| ->])|(->&->&_)]; [by apply Hs|cbn in Hx; rewrite app_nil_r in Hx; by apply Hs|].
  cbn in Hx. rewrite app_nil_r in Hx. apply elem_of_app in Hx as [Hx|Hx%list_elem_of_singleton]; [by apply Hs|right; by subst].
Qed.

Lemma persist_grows record known n0 base n base' n' known' o :
  grows n0 base → grows n0 n →
  _persist_peer_record sha256 fresh race record known base n = (base', n', known', o) → grows n0 base' ∧ grows n0 n'.
Proof.
  intros Hb Hn. unfold _persist_peer_record.
  destruct (named_workflow record) as [[u|]|]; [|by intros [= <- <- _ _]..].
  set (st := if decide _ then _ else _).
  assert (grows n0 st.1.1 ∧ grows n0 st.1.2) as [Hst1 Hst2] by (subst st; case_decide; [done|by apply shadow_grows]).
  destruct st as [[base1 n1] known1]. cbn [fst snd] in *.
  case_decide; [by intros [= <- <- _ _]|].
  destruct (named_agent record) as [agent|]; [|by intros [= <- <- _ _]].
  destruct (memory_type_of _) as [t|]; [|by intros [= <- <- _ _]].
  destruct (put _ _ _ _ _) as [[r n2]|e] eqn:Hp.
  - intros [= <- <- _ _]. split; [done|].
    exact (put_grows (fresh n1) _ n0 (write_of_peer record u agent t) n1 r n2 eq_refl eq_refl Hp Hst2).
  - destruct (is_CRDTStoreError e); by intros [= <- <- _ _].
Qed.

Lemma accounted_outcome o r : accounted (count_outcome o r) = S (accounted r).
Proof. unfold accounted. destruct o; cbn; lia. Qed.

Lemma persist_records_grows n0 rs s s' e :
  persist_records sha256 fresh race rs s = (s', e) → grows n0 (rd_base s) → grows n0 (rd_node s) →
  (grows n0 (rd_base s') ∧ grows n0 (rd_node s')) ∧
  records_fetched (rd_report s') = records_fetched (rd_report s) ∧
  accounted (rd_report s') <= accounted (rd_report s) + length rs ∧
  (e = None → accounted (rd_report s') = accounted (rd_report s) + length rs).
Proof.
  revert s. induction rs as [|record rs IH]; intros s; cbn [persist_records].
  { intros [= <- <-] Hb Hn. cbn. split_and!; [done..|lia|intros _; lia]. }
  destruct (_persist_peer_record _ _ _ _ _ _ _) as [[[base n] known] [o|ex]] eqn:Ep; intros Hr Hb Hn;
    destruct (persist_grows _ _ n0 _ _ _ _ _ _ Hb Hn Ep) as [Hb1 Hn1].
  - apply IH in Hr as (He&Hf&Hle&Heq); [|done..]. cbn [rd_node rd_report] in *.
    rewrite accounted_outcome in *. cbn [length]. split_and!; [by apply He..| | |].
    + rewrite Hf. by destruct o.
    + lia.
    + intros ->. specialize (Heq eq_refl). lia.
  - injection Hr as <- <-. cbn. split_and!; [done..|lia|done].
Qed.

Lemma fetch_batches_grows n0 peer batches s s' e :
  fetch_batches sha256 fresh race peer batches s = (s', e) → grows n0 (rd_base s) → grows n0 (rd_node s) →
  accounted (rd_report s) = records_fetched (rd_report s) →
  grows n0 (rd_node s') ∧
  accounted (rd_report s') <= records_fetched (rd_report s') ∧
  (e = None → accounted (rd_report s') = records_fetched (rd_report s')).
Proof.
  revert s. induction batches as [|batch batches IH]; intros s; cbn [fetch_batches].
  { intros [= <- <-] Hb Hn Ha. split_and!; [done|lia|done]. }
  destruct (peer_fetch_records peer batch) as [rs|ex].
  2:{ intros [= <- <-] Hb Hn Ha. split_and!; [done|lia|done]. }
  destruct (persist_records _ _ _ _ _) as [s1 [ex|]] eqn:Ep; intros Hr Hb Hn Ha;
    apply (persist_records_grows n0) in Ep as ((Hb1&Hn1)&Hf&Hle&Heq); try done;
    cbn [rd_node rd_report] in *; unfold accounted in *; cbn in Hf, Hle, Heq.
  - injection Hr as <- <-. split_and!; [done|lia|done].
  - specialize (Heq eq_refl). apply IH in Hr as (He'&Hle'&Heq'); [|done|done|lia]. split_and!; done.
Qed.

Lemma reconcile_grows peer wid n rep n' :
  reconcile_with sha256 fresh race peer wid n = (rep, n') →
  grows n n' ∧ accounted rep <= records_fetched rep ∧
  (error rep = None → accounted rep = records_fetched rep).
Proof.
  unfold reconcile_with. pose proof (summarise_extends sha256 wid n) as Hs.
  assert (records (summarise sha256 wid n).2 = records n) as Hrec by (unfold summarise; by destruct (summaries n !! wid)).
  pose proof (grows_refl n) as Hn0. destruct (summarise _ _ _) as [local n1]. cbn [snd] in *.
  assert (grows n n1) as Hg by by apply (grows_records n n).
  destruct (fetch_summary peer wid) as [peer_summary|ex].
  2:{ intros [= <- <-]. cbn. split_and!; [done|lia|done]. }
  case_decide. { intros [= <- <-]. cbn. split_and!; [done|lia|done]. }
  destruct (diverges_from local peer_summary) as [|i idxs] eqn:Ed.
  { intros [= <- <-]. cbn. split_and!; [done|lia|done]. }
  destruct (_collect_missing_hashes _ _ _ _) as [missing|ex].
  2:{ intros [= <- <-]. cbn. split_and!; [done|lia|done]. }
  destruct (fetch_batches _ _ _ _ _ _) as [s e] eqn:Ef.
  apply (fetch_batches_grows n) in Ef as (He&Hle&Heq); [|done..]. cbn [rd_node] in He.
  intros [= <- <-]. unfold accounted in *. cbn. split_and!; [done|lia|].
  intros Hn. apply Heq. by destruct e.
Qed.
End safety.

(** ** Theorems *)

(** C35: a peer cannot corrupt the store.  Whatever a peer answers, an
    adversarial one included, and whatever workflows other sessions commit in
    between, a round ends with a report; it only appends rows, the store keeps its
    invariant, and the report accounts for every fetched record, exactly so when no
    error ended the round.  An appended row carries a content hash, which is the
    content address of its body; a signature it carries verifies under the key of
    its author, and a row may carry none, whatever author it names. *)
Theorem gossip_authentic sha256 `{Ed25519} fresh race peer wid n rep n' :
  store_ok sha256 (records n) →
  reconcile_with sha256 fresh race peer wid n = (rep, n') →
  store_ok sha256 (records n') ∧ records n `prefix_of` records n' ∧
  (∀ r, r ∈ records n' → r ∉ records n →
     (∃ h, content_hash r = Some h ∧ compute_content_hash sha256 (row_body r) = Ok h) ∧
     ∀ s, signature r = Some s → signed_by_author (row_body r) s) ∧
  accounted rep <= records_fetched rep ∧
  (error rep = None → accounted rep = records_fetched rep).
Proof.
  intros Hok Hr. destruct (reconcile_grows _ _ _ _ _ _ _ _ Hr) as ([[Hp _ _ Ho] Hh]&Hle&Heq).
  specialize (Ho Hok). split_and!; [done..| |done|done]. intros r Hin Hnew.
  destruct Ho as [Hint _]. rewrite Forall_forall in Hint. destruct (Hint r Hin) as [Hhash Hsig].
  destruct (Hh r Hin) as [?|[h Eh]]; [done|]. split; [exists h; split; [done|by apply Hhash]|].
  intros s Hs. by apply Hsig.
Qed.

(** ** Examples and witnesses *)

Definition toy_fresh (n : node) : uuid := UUID (100 + N.of_nat (length (records n))).

Definition other_write : write := {|
  w_workflow_id := Some (UUID 2); w_memory_type := RESULT; w_content := "other";
  w_confidence := FFrac "0.5"; w_metadata := None; w_parent_hashes := None;
  w_author_did := Some toy_did; w_source_agent_id := None; w_keypair := Some toy_kp;
  w_precomputed_hash := None; w_precomputed_signature := None; w_version := 1;
  w_parent_version_id := None; w_expires_at := None; w_record_state := ACTIVE |}.

Definition other_node : node :=
  {| workflows := {[UUID 2]}; agents := ∅; records := []; summaries := ∅ |}.

Definition written (id : uuid) (w : write) (n : node) : node :=
  match put toy_sha id [] w n with Ok (_, n) => n | Err _ => n end.

Definition toy_A : node := written (UUID 9) toy_signed toy_node.
Definition toy_P : node := written (UUID 8) other_write other_node.

Lemma other_keyed : keyed_write other_write.
Proof. intros kp [= <-]. split; [by split|]. exists toy_did. by split. Qed.

Lemma written_ok id w n :
  keyed_write w → store_ok toy_sha (records n) → store_ok toy_sha (records (written id w n)).
Proof.
  intros Hk Hok. unfold written. destruct (put _ _ _ _ _) as [[r n']|e] eqn:E; [|done].
  apply (put_store_ok toy_sha id [] w n r n' Hk); [by rewrite app_nil_r|exact E].
Qed.

(** A peer record with the hash of its body and the given author and
    signature *)
Definition peer_record_of (wf : uuid) (author sig : option string) (text : string) : PeerRecord :=
  let w hash := {|
    w_workflow_id := Some wf; w_memory_type := FACT; w_content := text;
    w_confidence := FFrac "0.9"; w_metadata := None; w_parent_hashes := None;
    w_author_did := author; w_source_agent_id := None; w_keypair := None;
    w_precomputed_hash := hash; w_precomputed_signature := None; w_version := 1;
    w_parent_version_id := None; w_expires_at := None; w_record_state := ACTIVE |} in
  {| p_content_hash :=
       match compute_content_hash toy_sha (body_of_write (w None)) with Ok h => h | Err _ => "" end;
     p_workflow_id := uuid_str wf; p_source_agent_id := None; p_memory_type := "fact";
     p_content := text; p_confidence := FFrac "0.9"; p_metadata := []; p_author_did := author;
     p_parent_hashes := []; p_signature := sig; p_record_state := "active" |}.

Abbreviation peer_record := (peer_record_of (UUID 3)).

Definition start_round (n : node) : round := {|
  rd_base := n; rd_node := n; rd_known := {| known_workflow_ids := ∅; known_content_hashes := ∅ |};
  rd_report := empty_report |}.

(** A peer whose buckets all differ and that serves two records, one with a signature
    that does not verify *)
Definition lying_peer : Peer :=
  let rs := [peer_record (Some toy_did) (Some (encode_multibase [Byte.x01])) "a";
             peer_record None None "b"] in
  {| fetch_summary _ := Ok {| root := "different"; buckets := replicate 256 (Some "x"); record_count := 2 |};
     fetch_bucket_hashes i _ := Ok (filter (λ h, bucket_for_hash h = Ok i) (map p_content_hash rs));
     peer_fetch_records hashes := Ok rs |}.

Lemma gossip_authentic_witness :
  let '(rep, n') := reconcile_with toy_sha toy_fresh no_race lying_peer None toy_A in
  store_ok toy_sha (records n') ∧ records toy_A `prefix_of` records n' ∧
  (∀ r, r ∈ records n' → r ∉ records toy_A →
     (∃ h, content_hash r = Some h ∧ compute_content_hash toy_sha (row_body r) = Ok h) ∧
     ∀ s, signature r = Some s → signed_by_author (row_body r) s) ∧
  accounted rep <= records_fetched rep ∧
  (error rep = None → accounted rep = records_fetched rep).
Proof.
  destruct (reconcile_with toy_sha toy_fresh no_race lying_peer None toy_A) as [rep n'] eqn:E.
  apply (gossip_authentic toy_sha toy_fresh no_race lying_peer None toy_A rep n'); [|exact E].
  apply written_ok; [exact toy_keyed|split; constructor].
Defined.

(** The record whose signature does not verify is skipped. *)
Example bad_signature_skipped :
  let s := (persist_records toy_sha toy_fresh no_race
    [peer_record (Some toy_did) (Some (encode_multibase [Byte.x01])) "a"; peer_record None None "b"]
    (start_round toy_node)) in
  (records_skipped_invalid (rd_report s.1), records_persisted (rd_report s.1), s.2) = (1, 1, None).
Proof. vm_compute. reflexivity. Qed.

(** A signed record whose author is not a DID raises [MalformedDIDError], which
    is not a [CRDTStoreError]: it ends the round, and the good record behind
    it is not stored. *)
Example malformed_author_blocks :
  let s := (persist_records toy_sha toy_fresh no_race
    [peer_record (Some "nobody") (Some (encode_multibase [Byte.x01])) "a"; peer_record None None "b"]
    (start_round toy_node)) in
  (length (records (rd_node s.1)), s.2) = (0, Some (StoreExn (DIDError MalformedDIDError))).
Proof. vm_compute. reflexivity. Qed.

(** Another session commits the workflow of the second record at the wrong moment:
    the rollback takes the first record with it, which the report counts as
    persisted and the known set keeps as stored. *)
Example shadow_race_loses_records :
  let race : races := λ u _, bool_decide (u = UUID 4) in
  let first := peer_record None None "a" in
  let s := (persist_records toy_sha toy_fresh race [first; peer_record_of (UUID 4) None None "b"] (start_round toy_node)).1 in
  (records_persisted (rd_report s), map content (records (rd_node s)),
   bool_decide (p_content_hash first ∈ known_content_hashes (rd_known s))) = (2, ["b"], true).
Proof. vm_compute. reflexivity. Qed.
