(* ===== verification/Convergence.v ===== *)
(** * Convergence: gossip between honest nodes

    The rounds of Gossip.v against the interface implementation [node_peer] of
    Sync.v: an honest node's rows are replicated as they are, a round leaves
    the puller with the union of the two listings, and two rounds leave both
    nodes with the same Merkle root. *)

From Stdlib Require Import Ascii NArith ZArith Lia.
From stdpp Require Import base tactics strings gmap list.
From S2P Require Import Prelude PyStr Dict Base58 Json Did Merkle Uuid Signer Crdt Sync Gossip.

(** ** Rounds with an honest peer *)

Lemma chunks_loop_concat size fuel items :
  0 < size → length items <= fuel →
  concat (chunks_loop fuel size items) = items ∧
  Forall (λ c, length c <= size) (chunks_loop fuel size items).
Proof.
  intros Hs. revert items. induction fuel as [|fuel IH]; intros items Hl.
  { destruct items; [by split|cbn in Hl; lia]. }
  destruct items as [|x items]; [by split|]. cbn [chunks_loop concat].
  destruct (IH (drop size (x :: items))) as [Hc Hf].
  { rewrite length_drop. cbn in *. lia. }
  rewrite Hc. split; [apply take_drop|]. constructor; [rewrite length_take; lia|done].
Qed.

(** The chunks cover the list, and none is over the server's cap. *)
Lemma chunks_cover items :
  concat (_chunks items _FETCH_BATCH_SIZE) = items ∧
  Forall (λ c, length c <= _MAX_FETCH_HASHES) (_chunks items _FETCH_BATCH_SIZE).
Proof.
  destruct (chunks_loop_concat _FETCH_BATCH_SIZE (length items) items) as [Hc Hf];
    [unfold _FETCH_BATCH_SIZE; lia|done|]. by split.
Qed.

Lemma memory_type_of_value t : memory_type_of (memory_type_value t) = Some t.
Proof. by destruct t. Qed.
Lemma record_state_of_value s : record_state_of (record_state_value s) = s.
Proof. by destruct s. Qed.

(** What node [n] needs to accept a row: identifiers it can read, an agent it
    knows, and an author that survives the wire. *)
Record replicable (n : node) (r : MemoryRecord) : Prop := {
  rep_workflow : ∃ u, workflow_id r = Some u ∧ uuid_ok u;
  rep_agent : ∀ a, source_agent_id r = Some a → uuid_ok a ∧ a ∈ agents n;
  rep_author : author_did r ≠ Some "";
}.

(** The columns that replication carries over *)
Record copy_of (r r' : MemoryRecord) : Prop := {
  copy_body : row_body r' = row_body r;
  copy_hash : content_hash r' = content_hash r;
  copy_signature : signature r' = signature r;
  copy_state : record_state r' = record_state r;
  copy_workflow : workflow_id r' = workflow_id r;
  copy_agent : source_agent_id r' = source_agent_id r;
  copy_author : author_did r' = author_did r;
}.

Definition known_ok (known : _Known) (n : node) : Prop :=
  known_workflow_ids known ⊆ workflows n ∧
  ∀ h, h ∈ known_content_hashes known → h ∈ omap content_hash (records n).

Lemma extend_known_ok rs n known : known_ok known n → known_ok (_extend_known rs n known) n.
Proof.
  intros [Hw Hh]. unfold _extend_known. split; cbn; [set_solver|].
  intros h [Hin|[_ Hin]%elem_of_intersection]%elem_of_union; [by apply Hh|].
  by apply elem_of_list_to_set in Hin.
Qed.

Section honest.
Context (sha256 : string → list Byte.byte) `{Ed25519}.

Lemma attested_signature body h s : attested sha256 body h (Some s) → s ≠ "".
Proof. intros [_ Hs] ->. destruct (Hs "" eq_refl) as (_&?&?&raw&?&_&_&Hd&_). done. Qed.

Lemma resolve_intact r h :
  intact sha256 r → content_hash r = Some h →
  _resolve_hash_and_signature sha256 (row_body r) None (Some h) (signature r) =
  Ok (Some h, signature r).
Proof.
  intros [Hh Hs] Hc. specialize (Hh h Hc). unfold _resolve_hash_and_signature.
  destruct (signature r) as [s|].
  - destruct (Hs s eq_refl) as (_&did&pk&raw&m&Hau&Hpk&Hraw&Hm&Hv).
    rewrite Hh. cbn [lift_canon res_catch res_bind]. rewrite String.eqb_refl, Hau.
    cbn [negb raise_if res_bind res_of_option]. rewrite Hpk. cbn [res_bind].
    change (default "" (Some s)) with s. rewrite Hraw, Hm. cbn [res_catch lift_canon res_bind].
    rewrite Hv. done.
  - rewrite Hh. cbn [lift_canon res_catch res_bind]. by rewrite String.eqb_refl.
Qed.

(** The wire carries a replicable row faithfully. *)
Lemma coerce_spec n r h :
  intact sha256 r → replicable n r → content_hash r = Some h → h ≠ "" →
  ∃ pr u, _coerce_record r = Ok pr ∧ p_content_hash pr = h ∧
    workflow_id r = Some u ∧ named_workflow pr = Some (Some u) ∧
    named_agent pr = Some (source_agent_id r) ∧
    memory_type_of (p_memory_type pr) = Some (memory_type r) ∧
    let w := write_of_peer pr u (source_agent_id r) (memory_type r) in
    body_of_write w = row_body r ∧ w_precomputed_hash w = Some h ∧
    w_precomputed_signature w = signature r ∧
    ∀ id, copy_of r (record_of_write id w (Some h) (signature r)).
Proof.
  intros Hi [(u&Hw&Hu) Ha Hau] Hc Hne.
  assert (truthy_hash (content_hash r) = Some h) as Hth by by apply truthy_hash_Some.
  assert (or_None (author_did r) = author_did r) as Hor.
  { unfold or_None, truthy_hash. destruct (author_did r) as [[|c s]|]; done. }
  assert (or_None (signature r) = signature r) as Hos.
  { unfold or_None, truthy_hash. destruct (signature r) as [[|c s]|] eqn:E; try done.
    unfold intact in Hi. rewrite E in Hi. by apply attested_signature in Hi. }
  assert (uuid_str u ≠ "") as Hus by (intros E; pose proof (uuid_str_nonempty u) as Hn; by rewrite E in Hn).
  eexists _, u. unfold _coerce_record. rewrite Hw, Hth. cbn [res_of_option res_bind].
  split; [reflexivity|]. cbn [p_content_hash p_memory_type].
  assert (body_of_write (write_of_peer {| p_content_hash := h; p_workflow_id := uuid_str u;
    p_source_agent_id := uuid_str <$> source_agent_id r;
    p_memory_type := memory_type_value (memory_type r); p_content := content r;
    p_confidence := confidence r; p_metadata := metadata_ r;
    p_author_did := or_None (author_did r); p_parent_hashes := parent_hashes r;
    p_signature := or_None (signature r); p_record_state := record_state_value (record_state r) |}
    u (source_agent_id r) (memory_type r)) = row_body r) as Hbody.
  { unfold row_body. rewrite Hw, Hor. reflexivity. }
  split_and!; try done.
  - unfold named_workflow. cbn [p_workflow_id]. by rewrite uuid_str_nonempty, uuid_parse_str.
  - unfold named_agent. cbn [p_source_agent_id].
    destruct (source_agent_id r) as [a|] eqn:Ea; [|done]. cbn [fmap option_fmap option_map].
    destruct (Ha a eq_refl) as [Hok _].
    assert (truthy_hash (Some (uuid_str a)) = Some (uuid_str a)) as ->.
    { unfold truthy_hash. by rewrite uuid_str_nonempty. }
    by rewrite uuid_parse_str.
  - apply memory_type_of_value.
  - intros id. split; try done.
    cbn [record_of_write record_state write_of_peer w_record_state p_record_state].
    apply record_state_of_value.
Qed.

(** The write of a replicable row succeeds, by insertion or because its
    address is taken. *)
Lemma put_copy id r h n w :
  intact sha256 r → content_hash r = Some h → body_of_write w = row_body r →
  w_keypair w = None → w_precomputed_hash w = Some h → w_precomputed_signature w = signature r →
  w_parent_version_id w = None → fk_ok (w_workflow_id w) (workflows n) = true →
  fk_ok (w_source_agent_id w) (agents n) = true →
  ∃ r' n', put sha256 id [] w n = Ok (r', n') ∧ h ∈ omap content_hash (records n') ∧
    workflows n' = workflows n ∧ agents n' = agents n ∧
    (records n' = records n ∨
     records n' = records n ++ [record_of_write id w (Some h) (signature r)]).
Proof.
  intros Hi Hc Hb Hk Hph Hps Hpv Hfw Hfa.
  assert (_resolve_hash_and_signature sha256 (body_of_write w) (w_keypair w)
    (w_precomputed_hash w) (w_precomputed_signature w) = Ok (Some h, signature r)) as Hres.
  { rewrite Hk, Hph, Hps, Hb. by apply resolve_intact. }
  assert (∀ n1 r', _fetch_by_hash h n1 = Some r' → h ∈ omap content_hash (records n1)) as Hin.
  { intros n1 r' [Hh Hr]%fetch_Some. apply list_elem_of_omap. by exists r'. }
  unfold put. rewrite Hres. cbn [res_bind mbind option_bind].
  destruct (_fetch_by_hash h n) as [r'|] eqn:Ef.
  { exists r', n. split_and!; try done; [by eapply Hin|by left]. }
  rewrite app_nil_r. unfold flush_record.
  assert (_fetch_by_hash h (set_records (records n) n) = None) as Ef' by exact Ef.
  cbn [workflow_id source_agent_id parent_version_id content_hash record_of_write
    workflows agents set_records]. rewrite Hfw, Hfa, Hpv, Ef'. cbn [fk_ok andb].
  eexists _, _. split_and!; [reflexivity| |done|done|by right].
  cbn [records set_records]. rewrite omap_app. apply elem_of_app. right. cbn. by left.
Qed.

Lemma known_ok_extends known n n' : extends sha256 n n' → known_ok known n → known_ok known n'.
Proof.
  intros [[l Hl] _ Hw _] [Hkw Hkh]. split; [set_solver|].
  intros h Hh. rewrite Hl, omap_app. apply elem_of_app. left. by apply Hkh.
Qed.

(** Rows of the list [src] were copied in. *)
Record grown (src : list MemoryRecord) (n n' : node) : Prop := {
  grown_agents : agents n' = agents n;
  grown_rows : ∃ l, records n' = records n ++ l ∧
    Forall (λ r', ∃ r, r ∈ src ∧ copy_of r r') l;
}.

#[export] Instance grown_preorder src : PreOrder (grown src).
Proof.
  split.
  - intros n. split; [done|]. exists []. by rewrite app_nil_r.
  - intros n1 n2 n3 [A1 (l1&L1&F1)] [A2 (l2&L2&F2)]. split; [congruence|].
    exists (l1 ++ l2). rewrite L2, L1, app_assoc. split; [done|by apply Forall_app].
Qed.

Lemma grown_stored src n n' h :
  grown src n n' → h ∈ omap content_hash (records n) → h ∈ omap content_hash (records n').
Proof. intros [_ (l&->&_)] Hh. rewrite omap_app. apply elem_of_app. by left. Qed.

Lemma replicable_agents n n' r : agents n' = agents n → replicable n r → replicable n' r.
Proof. intros Ha [Hw Hag Hau]. split; [done| |done]. by rewrite Ha. Qed.

End honest.

Section honest_rounds.
Context (sha256 : string → list Byte.byte) `{Ed25519} (fresh : node → uuid).

(** One record of an honest peer, in a known-consistent round *)
Lemma persist_copy src r h pr known base n :
  r ∈ src → intact sha256 r → replicable n r → content_hash r = Some h → h ≠ "" →
  _coerce_record r = Ok pr → known_ok known n →
  ∃ n' known' o, _persist_peer_record sha256 fresh no_race pr known base n = (base, n', known', Ok o) ∧
    known_ok known' n' ∧ grown src n n' ∧ h ∈ omap content_hash (records n').
Proof.
  intros Hsrc Hi Hrep Hc Hne Hpr Hk.
  destruct (coerce_spec sha256 n r h Hi Hrep Hc Hne)
    as (pr'&u&Hpr'&Hph&Hwf&Hnw&Hna&Hmt&Hb&Hwh&Hws&Hcopy).
  rewrite Hpr in Hpr'. injection Hpr' as <-. unfold _persist_peer_record. rewrite Hnw.
  set (st := if decide (u ∈ _) then _ else _).
  assert (st.1.1 = base ∧ extends sha256 n st.1.2 ∧ records st.1.2 = records n ∧ u ∈ workflows st.1.2 ∧ known_ok st.2 st.1.2)
    as (Hbase&Hext&Hrs&Hu&Hk1).
  { subst st. destruct (decide (u ∈ known_workflow_ids known)) as [Hd|Hd]; cbn.
    { split_and!; try done. by apply Hk. }
    unfold _auto_shadow_workflow, no_race. destruct Hk as [Hkw Hkh]. destruct (decide (u ∈ workflows n)); cbn.
    - split_and!; try done. split; cbn; [set_solver|done].
    - split_and!; [done|apply with_workflow_extends|done|set_solver|]. split; cbn; [set_solver|done]. }
  destruct st as [[base1 n1] known1]. cbn [fst snd] in *. subst base1. rewrite Hph.
  destruct Hext as [_ Hag _ _]. assert (grown src n n1) as Hg1.
  { split; [done|]. exists []. by rewrite app_nil_r. }
  case_decide as Hdup.
  { exists n1, known1, SkippedDuplicate. split_and!; try done. by apply Hk1. }
  rewrite Hna, Hmt.
  destruct (put_copy sha256 (fresh n1) r h n1 (write_of_peer pr u (source_agent_id r) (memory_type r)))
    as (r'&n2&Hput&Hin&Hw2&Ha2&Hrs2); try done.
  { cbn. by apply bool_decide_eq_true_2. }
  { cbn. unfold fk_ok. destruct (source_agent_id r) as [a|] eqn:Ea; [|done].
    apply bool_decide_eq_true_2. rewrite Hag. by apply (rep_agent n r Hrep a Ea). }
  rewrite Hput. eexists n2, _, Persisted. split; [reflexivity|].
  assert (grown src n1 n2) as Hg2.
  { split; [done|]. destruct Hrs2 as [->| ->].
    - exists []. by rewrite app_nil_r.
    - eexists. split; [reflexivity|]. constructor; [|done]. exists r. by split. }
  split_and!; [|by etrans|done]. destruct Hk1 as [Hkw Hkh]. split; cbn; [by rewrite Hw2|].
  intros h' [->%elem_of_singleton|Hh]%elem_of_union; [done|].
  eapply grown_stored; [exact Hg2|]. by apply Hkh.
Qed.

(** ** A whole round: node [A] pulls from the honest node [P] *)

Lemma coerce_hash r pr :
  _coerce_record r = Ok pr → content_hash r = Some (p_content_hash pr) ∧ p_content_hash pr ≠ "".
Proof.
  unfold _coerce_record. intros (u&_&(h&Hh&[= <-])%res_bind_Ok)%res_bind_Ok. cbn.
  destruct (truthy_hash (content_hash r)) as [h'|] eqn:E; [|done]. injection Hh as ->.
  by apply truthy_hash_Some in E.
Qed.

(** The rows that [P] lists *)
Definition listed (P : node) : list MemoryRecord := filter (in_scope None) (records P).

Record pullable (A P : node) : Prop := {
  pull_ok : store_ok sha256 (records P);
  pull_rows : ∀ r, r ∈ listed P → replicable A r;
}.

Lemma listed_unique P r r' h :
  store_ok sha256 (records P) → r ∈ records P → r' ∈ listed P →
  content_hash r = Some h → content_hash r' = Some h → r = r'.
Proof.
  intros [_ Hnd] Hr [_ Hr']%list_elem_of_filter. by apply (NoDup_omap_inj content_hash (records P)).
Qed.

Lemma pullable_agents A A' P : agents A' = agents A → pullable A P → pullable A' P.
Proof. intros Ha [Hok Hr]. split; [done|]. intros r Hin. by eapply replicable_agents, Hr. Qed.

Lemma persist_all P prs s :
  pullable (rd_node s) P → known_ok (rd_known s) (rd_node s) →
  (∀ pr, pr ∈ prs → ∃ r, r ∈ listed P ∧ _coerce_record r = Ok pr) →
  ∃ s', persist_records sha256 fresh no_race prs s = (s', None) ∧
    known_ok (rd_known s') (rd_node s') ∧ grown (listed P) (rd_node s) (rd_node s') ∧
    ∀ pr, pr ∈ prs → p_content_hash pr ∈ omap content_hash (records (rd_node s')).
Proof.
  revert s. induction prs as [|pr prs IH]; intros s Hp Hk Hall.
  { exists s. split_and!; try done. intros pr Hpr. by apply elem_of_nil in Hpr. }
  destruct (Hall pr) as (r&Hr&Hc); [by left|].
  destruct (coerce_hash _ _ Hc) as [Hh Hne]. destruct (pull_ok _ _ Hp) as [Hint _].
  destruct (persist_copy (listed P) r (p_content_hash pr) pr (rd_known s) (rd_base s) (rd_node s))
    as (n'&known'&o&Hpers&Hk'&Hg&Hin); try done.
  { apply list_elem_of_filter in Hr as [_ Hr]. by apply (proj1 (Forall_forall _ _) Hint). }
  { by apply (pull_rows _ _ Hp). }
  cbn [persist_records]. rewrite Hpers.
  destruct (IH {| rd_base := rd_base s; rd_node := n'; rd_known := known'; rd_report := count_outcome o (rd_report s) |})
    as (s'&Hs&Hks&Hgs&Hins).
  { cbn. eapply pullable_agents, Hp. apply Hg. }
  { done. }
  { intros pr' Hpr'. apply Hall. by right. }
  exists s'. cbn [rd_node] in Hgs. split_and!; [done|done|by etrans|].
  intros pr' [->|Hpr']%elem_of_cons; [by eapply grown_stored|by apply Hins].
Qed.

Lemma fetch_all P batches s :
  pullable (rd_node s) P → known_ok (rd_known s) (rd_node s) →
  Forall (λ b, length b <= _MAX_FETCH_HASHES) batches →
  (∀ h, h ∈ concat batches → h ∈ _iter_hashes None P) →
  ∃ s', fetch_batches sha256 fresh no_race (node_peer sha256 P) batches s = (s', None) ∧
    grown (listed P) (rd_node s) (rd_node s') ∧
    ∀ h, h ∈ concat batches → h ∈ omap content_hash (records (rd_node s')).
Proof.
  revert s. induction batches as [|batch batches IH]; intros s Hp Hk Hlen Hin.
  { exists s. split_and!; try done. intros h Hh. by apply elem_of_nil in Hh. }
  apply Forall_cons_1 in Hlen as [Hb Hlen]. cbn [concat] in Hin.
  pose proof (pull_ok _ _ Hp) as Hok.
  assert (∀ r, r ∈ records P → served batch r → r ∈ listed P) as Hserved.
  { intros r Hr [Hh _]. destruct (content_hash r) as [h|] eqn:Eh; [|done].
    assert (h ∈ _iter_hashes None P) as (_&r'&Hr'&Hsc&Hh')%elem_of_iter
      by (apply Hin, elem_of_app; by left).
    assert (r' ∈ listed P) as Hl by (apply list_elem_of_filter; by split).
    by rewrite (listed_unique P r r' h Hok Hr Hl Eh Hh'). }
  assert (∀ r h, r ∈ listed P → content_hash r = Some h → h ≠ "" →
    is_ok (_coerce_record r) = true) as Hcoerce.
  { intros r h Hr Hh Hne. destruct Hok as [Hint _].
    apply list_elem_of_filter in Hr as Hr'. destruct Hr' as [_ Hr'].
    destruct (coerce_spec sha256 (rd_node s) r h) as (pr&u&->&_); try done.
    - by apply (proj1 (Forall_forall _ _) Hint).
    - by apply (pull_rows _ _ Hp). }
  destruct (node_peer_fetch sha256 P batch Hb) as (prs&Hf&Hprs).
  { intros r Hr Hs. pose proof (Hserved r Hr Hs) as Hl. destruct Hs as [Hh _].
    destruct (content_hash r) as [h|] eqn:Eh; [|done]. eapply Hcoerce; [done..|].
    assert (h ∈ _iter_hashes None P) as [Hne _]%elem_of_iter; [|done].
    apply Hin, elem_of_app. by left. }
  cbn [fetch_batches]. rewrite Hf.
  destruct (persist_all P prs {| rd_base := rd_base s; rd_node := rd_node s;
    rd_known := _extend_known prs (rd_node s) (rd_known s);
    rd_report := count_fetched (length prs) (rd_report s) |}) as (s1&Hs1&Hk1&Hg1&Hin1);
    [done|by apply extend_known_ok| |].
  { intros pr (r&Hr&Hs&Hc)%Hprs. exists r. split; [by apply Hserved|done]. }
  rewrite Hs1. cbn [rd_node] in Hg1.
  destruct (IH s1) as (s'&Hs'&Hg'&Hin'); try done.
  { eapply pullable_agents, Hp. apply Hg1. }
  { intros h Hh. apply Hin, elem_of_app. by right. }
  exists s'. split_and!; [done|by etrans|].
  intros h [Hh|Hh]%elem_of_app; [|by apply Hin'].
  assert (h ∈ _iter_hashes None P) as (Hne&r&Hr&Hsc&Eh)%elem_of_iter
    by (apply Hin, elem_of_app; by left).
  assert (r ∈ listed P) as Hl by (apply list_elem_of_filter; by split).
  destruct (is_ok_Ok _ (Hcoerce r h Hl Eh Hne)) as [pr Hpr].
  destruct (coerce_hash r pr Hpr) as [Hph _]. rewrite Eh in Hph. injection Hph as ->.
  eapply grown_stored; [exact Hg'|]. apply Hin1, Hprs. exists r. split_and!; [done| |done].
  split; [by rewrite Eh|]. destruct Hsc as [-> _]. done.
Qed.

Lemma collect_spec P n idxs :
  Forall (λ i, i < BUCKET_COUNT) idxs →
  ∃ missing, _collect_missing_hashes (node_peer sha256 P) None n idxs = Ok missing ∧
    ∀ h, h ∈ missing ↔ ∃ i, i ∈ idxs ∧ h ∈ bucket_set (_iter_hashes None P) i ∧
                         h ∉ bucket_set (_iter_hashes None n) i.
Proof.
  induction 1 as [|i idxs Hi _ (rest&Hrest&Hin)].
  { exists []. split; [done|]. intros h. split; [intros Hh; by apply elem_of_nil in Hh|].
    intros (i&Hi&_). by apply elem_of_nil in Hi. }
  destruct (node_peer_bucket sha256 None P i Hi) as (ph&Hph&Hpin).
  destruct (bucket_hashes_Ok None n i Hi) as (lh&Hlh&Hlin).
  cbn [_collect_missing_hashes]. rewrite Hph, Hrest, Hlh. cbn [res_catch res_bind].
  assert (match ph with [] => Ok [] | _ => Ok (filter (λ h, (h ∉ lh)) ph) end
    = (Ok (filter (λ h, (h ∉ lh)) ph) : res gossip_exn (list string))) as -> by by destruct ph.
  cbn [res_bind]. eexists. split; [reflexivity|]. intros h.
  rewrite elem_of_app, list_elem_of_filter, Hpin, Hlin, Hin. split.
  - intros [[Hn Hp]|(j&Hj&Hr)]; [exists i; split; [by left|done]|exists j; split; [by right|done]].
  - intros (j&[->|Hj]%elem_of_cons&Hp&Hn); [by left|right; by exists j].
Qed.
End honest_rounds.

(** ** Convergence *)

Section convergence.
Context (sha256 : string → list Byte.byte) `{Ed25519} (fresh : node → uuid).

Definition hashes_of (n : node) : list string := _iter_hashes None n.

(** A cached summary, if there is one, is that of the rows. *)
Definition fresh_cache (n : node) : Prop :=
  ∀ s, summaries n !! None = Some s → s = summarise_hashes sha256 (hashes_of n).

Lemma summarise_fresh n :
  fresh_cache n → (summarise sha256 None n).1 = summarise_hashes sha256 (hashes_of n).
Proof.
  intros Hf. unfold summarise. destruct (summaries n !! None) as [s|] eqn:E; [|done].
  by apply Hf.
Qed.

Lemma intact_valid r h :
  (∀ m, length (sha256 m) = 32) → intact sha256 r → content_hash r = Some h →
  ∃ i, i < BUCKET_COUNT ∧ bucket_for_hash h = Ok i.
Proof.
  intros Hlen [Hh _] Hc. specialize (Hh h Hc). unfold compute_content_hash in Hh.
  apply res_bind_Ok in Hh as (m&_&[= <-]).
  assert (∃ i, bucket_for_hash (String HASH_MULTIBASE_PREFIX (b58encode (sha256 m))) = Ok i) as [i Hi].
  { unfold bucket_for_hash. rewrite Ascii.eqb_refl. cbn [negb raise_if res_bind].
    rewrite b58decode_encode. cbn [res_catch res_bind].
    destruct (sha256 m) as [|b l] eqn:E; [|by eexists].
    pose proof (Hlen m) as Hl. rewrite E in Hl. done. }
  exists i. split; [|done]. by apply bucket_for_hash_Ok in Hi as [? _].
Qed.

Lemma listed_valid P h :
  (∀ m, length (sha256 m) = 32) → store_ok sha256 (records P) → h ∈ hashes_of P →
  ∃ i, i < BUCKET_COUNT ∧ bucket_for_hash h = Ok i.
Proof.
  intros Hlen [Hint _] (_&r&Hr&_&Hh)%elem_of_iter. apply (intact_valid r); [done| |done].
  by apply (proj1 (Forall_forall _ _) Hint).
Qed.

Lemma summary_collisions hs1 hs2 :
  collision_free sha256 (summary_inputs sha256 hs1 ++ summary_inputs sha256 hs2) →
  collision_free sha256 (bucket_inputs hs1 ++ bucket_inputs hs2).
Proof.
  intros Hcf x y Hx Hy. apply Hcf; unfold summary_inputs;
    rewrite elem_of_app, !elem_of_cons; rewrite elem_of_app in Hx, Hy; tauto.
Qed.

Definition may_pull (A P : node) : Prop :=
  collision_free sha256 (summary_inputs sha256 (hashes_of A) ++ summary_inputs sha256 (hashes_of P)) ∧
  fresh_cache A ∧ fresh_cache P ∧ pullable sha256 A P ∧
  ∀ r h, r ∈ records A → content_hash r = Some h → h ∈ hashes_of P → record_state r = ACTIVE.

(** What a round that may stop early and one that runs through have in
    common: every hash of the peer ends up stored. *)
Lemma stored_union A P A' :
  may_pull A P → grown (listed P) A A' →
  (∀ h, h ∈ hashes_of P → h ∈ omap content_hash (records A')) →
  ∀ h, h ∈ hashes_of A' ↔ h ∈ hashes_of A ∨ h ∈ hashes_of P.
Proof.
  intros (_&_&_&_&Hact) [_ (l&Hl&Hcopies)] Hst h.
  assert (∀ r', r' ∈ l → ∃ r, r ∈ records P ∧ in_scope None r ∧ copy_of r r') as Hcp.
  { intros r' Hr'. destruct (proj1 (Forall_forall _ _) Hcopies r' Hr') as (r&Hr&Hc).
    exists r. apply list_elem_of_filter in Hr as [??]. done. }
  unfold hashes_of in *. split.
  - intros (Hne&r&Hr&Hs&Hh)%elem_of_iter. rewrite Hl in Hr. apply elem_of_app in Hr as [Hr|Hr].
    + left. apply elem_of_iter. split; [done|]. by exists r.
    + right. destruct (Hcp r Hr) as (r0&Hr0&Hs0&Hc). apply elem_of_iter. split; [done|].
      exists r0. split_and!; [done|done|]. by rewrite <-(copy_hash _ _ Hc).
  - intros Hor. assert (h ≠ "") as Hne by (by destruct Hor as [[? _]%elem_of_iter|[? _]%elem_of_iter]).
    destruct Hor as [(_&r&Hr&Hs&Hh)%elem_of_iter|HP].
    + apply elem_of_iter. split; [done|]. exists r. rewrite Hl. split_and!; try done.
      apply elem_of_app. by left.
    + apply elem_of_iter. split; [done|].
      pose proof (Hst h HP) as Hin. apply list_elem_of_omap in Hin as (r&Hr&Hh). exists r.
      split_and!; [done| |done]. split; [|done]. rewrite Hl in Hr.
      apply elem_of_app in Hr as [Hr|Hr]; [by eapply Hact|].
      destruct (Hcp r Hr) as (r0&_&[Hs0 _]&Hc). by rewrite (copy_state _ _ Hc).
Qed.

Lemma same_hashes_stored A P h :
  h ∈ hashes_of A → h ∈ hashes_of P → h ∈ omap content_hash (records A).
Proof. intros (_&r&Hr&_&Hh)%elem_of_iter _. apply list_elem_of_omap. by exists r. Qed.

(** Every hash that [P] lists and [A] does not is found missing. *)
Lemma divergent_missing A P h :
  (∀ m, length (sha256 m) = 32) → may_pull A P → h ∈ hashes_of P → (h ∉ hashes_of A) →
  root (summarise_hashes sha256 (hashes_of A)) ≠ root (summarise_hashes sha256 (hashes_of P)) ∧
  ∃ i, i ∈ diverges_from (summarise_hashes sha256 (hashes_of A)) (summarise_hashes sha256 (hashes_of P))
    ∧ h ∈ bucket_set (hashes_of P) i ∧ h ∉ bucket_set (hashes_of A) i.
Proof.
  intros Hlen (Hcf&_&_&Hp&_) HP HA.
  destruct (listed_valid P h Hlen (pull_ok _ _ _ Hp) HP) as (i&Hi&Hb).
  assert (h ∈ bucket_set (hashes_of P) i) as HPb by by apply elem_of_bucket_set.
  assert (h ∉ bucket_set (hashes_of A) i) as HAb by (intros [_ Hin]%elem_of_bucket_set; done).
  split.
  - intros E. apply root_iff in E; [|done|done].
    by rewrite (bucket_set_valid sha256 _ _ i E) in HAb.
  - exists i. split_and!; [|done|done]. rewrite diverges_filter by by apply summary_collisions.
    apply list_elem_of_filter. split; [by intros E; rewrite E in HAb|]. apply elem_of_seq. lia.
Qed.

Lemma divergent_bounded s1 s2 : Forall (λ i, i < BUCKET_COUNT) (diverges_from s1 s2).
Proof.
  apply Forall_forall. unfold diverges_from. intros i [_ Hi]%list_elem_of_filter.
  apply elem_of_seq in Hi. lia.
Qed.

(** The state at the end of a round, whichever way it went *)
Lemma pull_stored A P rep A' :
  (∀ m, length (sha256 m) = 32) → may_pull A P →
  reconcile_with sha256 fresh no_race (node_peer sha256 P) None A = (rep, A') →
  error rep = None ∧ grown (listed P) A A' ∧
  ∀ h, h ∈ hashes_of P → h ∈ omap content_hash (records A').
Proof.
  intros Hlen Hm. pose proof Hm as (Hcf&HfA&HfP&Hp&Hact). unfold reconcile_with.
  pose proof (summarise_fresh A HfA) as HsA.
  assert (records (summarise sha256 None A).2 = records A ∧
    agents (summarise sha256 None A).2 = agents A) as [Hrec Hag]
    by (unfold summarise; by destruct (summaries A !! None)).
  destruct (summarise sha256 None A) as [local A1]. cbn [fst snd] in *. subst local.
  assert (grown (listed P) A A1) as Hg1.
  { split; [done|]. exists []. by rewrite app_nil_r. }
  assert (hashes_of A1 = hashes_of A) as HhA1 by (unfold hashes_of, _iter_hashes; by rewrite Hrec).
  cbn [fetch_summary node_peer]. rewrite (summarise_fresh P HfP).
  assert ((∀ h, h ∈ hashes_of P → h ∈ hashes_of A) →
    ∀ h, h ∈ hashes_of P → h ∈ omap content_hash (records A1)) as Hall.
  { intros Hsub h Hh. rewrite Hrec. apply (same_hashes_stored A P); [by apply Hsub|done]. }
  case_decide as Hroot.
  { intros [= <- <-]. split_and!; [done|done|]. apply Hall. intros h Hh.
    destruct (decide (h ∈ hashes_of A)) as [|HA]; [done|].
    by destruct (divergent_missing A P h Hlen Hm Hh HA). }
  pose proof (divergent_bounded (summarise_hashes sha256 (hashes_of A))
    (summarise_hashes sha256 (hashes_of P))) as Hbd.
  pose proof (divergent_missing A P) as Hdm.
  destruct (diverges_from _ _) as [|i0 idxs].
  { intros [= <- <-]. split_and!; [done|done|]. apply Hall. intros h Hh.
    destruct (decide (h ∈ hashes_of A)) as [|HA]; [done|].
    destruct (Hdm h Hlen Hm Hh HA) as [_ (i&Hi&_)]. by apply elem_of_nil in Hi. }
  destruct (collect_spec sha256 P A1 (i0 :: idxs) Hbd) as (missing&Hc&Hin). rewrite Hc.
  destruct (chunks_cover missing) as [Hcat Hsize].
  set (s0 := {| rd_base := A; rd_node := A1; rd_known := _; rd_report := _ |}).
  destruct (fetch_all sha256 fresh P (_chunks missing _FETCH_BATCH_SIZE) s0) as (s'&Hs'&Hg'&Hst).
  { cbn. by eapply pullable_agents, Hp. }
  { split; cbn; [apply empty_subseteq|]. intros h Hh. by apply elem_of_empty in Hh. }
  { done. }
  { rewrite Hcat. intros h (i&_&Hh&_)%Hin. by apply elem_of_bucket_set in Hh as [_ ?]. }
  rewrite Hs'. intros [= <- <-]. split_and!; [done|by etrans|].
  intros h Hh. destruct (decide (h ∈ hashes_of A)) as [HA|HA].
  - eapply grown_stored; [etrans; [exact Hg1|exact Hg']|]. by apply (same_hashes_stored A P).
  - apply Hst. rewrite Hcat. apply Hin.
    destruct (Hdm h Hlen Hm Hh HA) as [_ (i&Hi&HiP&HiA)]. exists i.
    fold (hashes_of A1). by rewrite HhA1.
Qed.

Lemma pull_union A P rep A' :
  (∀ m, length (sha256 m) = 32) → may_pull A P →
  reconcile_with sha256 fresh no_race (node_peer sha256 P) None A = (rep, A') →
  error rep = None ∧ ∀ h, h ∈ hashes_of A' ↔ h ∈ hashes_of A ∨ h ∈ hashes_of P.
Proof.
  intros Hlen Hm Hr. destruct (pull_stored A P rep A' Hlen Hm Hr) as (He&Hg&Hst).
  split; [done|]. by eapply stored_union.
Qed.

(** ** Two nodes *)

Lemma bucket_set_ext hs1 hs2 i : (∀ h, h ∈ hs1 ↔ h ∈ hs2) → bucket_set hs1 i = bucket_set hs2 i.
Proof. intros E. apply set_eq. intros h. by rewrite !elem_of_bucket_set, E. Qed.

Lemma valid_hashes_ext hs1 hs2 : (∀ h, h ∈ hs1 ↔ h ∈ hs2) → valid_hashes hs1 = valid_hashes hs2.
Proof. intros E. apply set_eq. intros h. by rewrite !elem_of_valid_hashes, E. Qed.

Lemma summary_inputs_ext hs1 hs2 :
  (∀ h, h ∈ hs1 ↔ h ∈ hs2) → summary_inputs sha256 hs1 = summary_inputs sha256 hs2.
Proof.
  intros E. unfold summary_inputs. f_equal.
  - by rewrite (summarise_valid sha256 hs1 hs2 (valid_hashes_ext _ _ E)).
  - unfold bucket_inputs. apply map_ext. intros i. by rewrite (bucket_set_ext _ _ i E).
Qed.

(** Two nodes that can replicate to each other: caches up to date or expired,
    rows that either side accepts, and no row that one of them has retired
    while the other lists it. *)
Record compatible (A P : node) : Prop := {
  cmp_ok_l : store_ok sha256 (records A);
  cmp_ok_r : store_ok sha256 (records P);
  cmp_fresh_l : fresh_cache A;
  cmp_fresh_r : fresh_cache P;
  cmp_rows : ∀ r, r ∈ listed A ++ listed P → replicable A r ∧ replicable P r;
  cmp_active_l : ∀ r h, r ∈ records A → content_hash r = Some h → h ∈ hashes_of P →
    record_state r = ACTIVE;
  cmp_active_r : ∀ r h, r ∈ records P → content_hash r = Some h → h ∈ hashes_of A →
    record_state r = ACTIVE;
  cmp_collisions : collision_free sha256 (summary_inputs sha256 (hashes_of A) ++
    summary_inputs sha256 (hashes_of P) ++
    summary_inputs sha256 (hashes_of A ++ hashes_of P));
}.

Lemma compatible_first A P : compatible A P → may_pull A P.
Proof.
  intros [HA HP HfA HfP Hrows HaA HaP Hcf]. split_and!; [|done|done| |done].
  - intros x y Hx Hy. apply Hcf; rewrite !elem_of_app; rewrite elem_of_app in Hx, Hy; tauto.
  - split; [done|]. intros r Hr. apply Hrows, elem_of_app. by right.
Qed.

Lemma replicable_copy n r r' : copy_of r r' → replicable n r → replicable n r'.
Proof.
  intros [_ _ _ _ Hw Ha Hau] [Rw Ra Ru]. split; by rewrite ?Hw, ?Ha, ?Hau.
Qed.

Lemma hashes_of_expire wid n : hashes_of (summary_expire wid n) = hashes_of n.
Proof. done. Qed.

Lemma compatible_second A P A' :
  compatible A P → grown (listed P) A A' → store_ok sha256 (records A') →
  (∀ h, h ∈ hashes_of A' ↔ h ∈ hashes_of A ∨ h ∈ hashes_of P) →
  may_pull P (summary_expire None A').
Proof.
  intros [HA HP HfA HfP Hrows HaA HaP Hcf] [_ (l&Hl&Hcopies)] HokA' Hunion.
  unfold may_pull. rewrite hashes_of_expire. split_and!.
  - rewrite (summary_inputs_ext (hashes_of A') (hashes_of A ++ hashes_of P))
      by (intros h; by rewrite Hunion, elem_of_app).
    intros x y Hx Hy. apply Hcf; rewrite !elem_of_app; rewrite elem_of_app in Hx, Hy; tauto.
  - done.
  - intros s Hs. cbn in Hs. by rewrite lookup_delete_eq in Hs.
  - split; [done|]. intros r [Hs Hr]%list_elem_of_filter. cbn [records summary_expire set_summaries] in Hr.
    rewrite Hl in Hr. apply elem_of_app in Hr as [Hr|Hr].
    + apply Hrows, elem_of_app. left. apply list_elem_of_filter. by split.
    + destruct (proj1 (Forall_forall _ _) Hcopies r Hr) as (r0&Hr0&Hc).
      eapply replicable_copy; [exact Hc|]. apply Hrows, elem_of_app. by right.
  - intros r h Hr Hh [HhA|(_&r0&Hr0&[Hs0 _]&Hh0)%elem_of_iter]%Hunion; [by eapply HaP|].
    destruct HP as [_ Hnd]. by rewrite (NoDup_omap_inj _ _ _ _ _ Hnd Hr Hr0 Hh Hh0).
Qed.

Lemma two_rounds A P rep1 A' rep2 P' :
  (∀ m, length (sha256 m) = 32) → compatible A P →
  reconcile_with sha256 fresh no_race (node_peer sha256 P) None A = (rep1, A') →
  reconcile_with sha256 fresh no_race (node_peer sha256 (summary_expire None A')) None P = (rep2, P') →
  error rep1 = None ∧ error rep2 = None ∧
  (∀ h, h ∈ hashes_of A' ↔ h ∈ hashes_of A ∨ h ∈ hashes_of P) ∧
  (∀ h, h ∈ hashes_of P' ↔ h ∈ hashes_of A').
Proof.
  intros Hlen Hc H1 H2. pose proof (compatible_first A P Hc) as Hm.
  destruct (pull_stored A P rep1 A' Hlen Hm H1) as (He1&Hg&Hst).
  pose proof (stored_union A P A' Hm Hg Hst) as Hunion.
  assert (store_ok sha256 (records A')) as HokA'.
  { apply reconcile_grows in H1 as [[[_ _ _ Hok] _] _]. by apply Hok, cmp_ok_l with P. }
  pose proof (compatible_second A P A' Hc Hg HokA' Hunion) as Hm2.
  destruct (pull_union P _ rep2 P' Hlen Hm2 H2) as [He2 Hunion2].
  split_and!; [done|done|done|]. intros h. rewrite Hunion2, hashes_of_expire, Hunion. tauto.
Qed.
End convergence.

(** ** Theorem *)

(** C1: gossip converges.  Two compatible nodes that each pull once from the
    other end with the same set of listed hashes, the union of what they
    listed before, and hence with the same Merkle root; neither round ends in
    an error.  (The first node's cached summary has expired by the time it is
    asked, and no other writer races with the rounds.) *)
Theorem gossip_converges sha256 `{Ed25519} fresh A P :
  (∀ m, length (sha256 m) = 32) → compatible sha256 A P →
  let '(rep1, A') := reconcile_with sha256 fresh no_race (node_peer sha256 P) None A in
  let '(rep2, P') :=
    reconcile_with sha256 fresh no_race (node_peer sha256 (summary_expire None A')) None P in
  error rep1 = None ∧ error rep2 = None ∧
  (∀ h, h ∈ hashes_of A' ↔ h ∈ hashes_of A ∨ h ∈ hashes_of P) ∧
  (∀ h, h ∈ hashes_of P' ↔ h ∈ hashes_of A') ∧
  root (summarise_hashes sha256 (hashes_of P')) = root (summarise_hashes sha256 (hashes_of A')).
Proof.
  intros Hlen Hc. destruct (reconcile_with _ _ _ _ _ A) as [rep1 A'] eqn:H1.
  destruct (reconcile_with _ _ _ _ _ P) as [rep2 P'] eqn:H2.
  destruct (two_rounds sha256 fresh A P rep1 A' rep2 P' Hlen Hc H1 H2) as (He1&He2&Hu&Hs).
  split_and!; try done. by rewrite (summarise_valid sha256 _ _ (valid_hashes_ext _ _ Hs)).
Qed.

(** Decidable forms of the conditions, to evaluate on concrete nodes *)
Definition simple_row (r : MemoryRecord) : bool :=
  match workflow_id r, source_agent_id r, author_did r with
  | Some u, None, Some (String _ _) => bool_decide (uuid_int u < 2 ^ 128)%N
  | _, _, _ => false
  end && bool_decide (record_state r = ACTIVE).

Lemma simple_replicable n r : simple_row r = true → replicable n r ∧ record_state r = ACTIVE.
Proof.
  unfold simple_row. intros [Hs Ha%bool_decide_eq_true_1]%andb_true_iff. split; [|done].
  destruct (workflow_id r) as [u|] eqn:Ew; [|done].
  destruct (source_agent_id r) eqn:Ea; [done|].
  destruct (author_did r) as [[|c s]|] eqn:Eau; try done.
  apply bool_decide_eq_true_1 in Hs. split; [by exists u|by rewrite Ea|by rewrite Eau].
Qed.

Lemma simple_compatible A P :
  store_ok toy_sha (records A) → store_ok toy_sha (records P) →
  summaries A = ∅ → summaries P = ∅ →
  forallb simple_row (records A) = true → forallb simple_row (records P) = true →
  collision_freeb (summary_inputs toy_sha (hashes_of A) ++ summary_inputs toy_sha (hashes_of P) ++
    summary_inputs toy_sha (hashes_of A ++ hashes_of P)) = true →
  compatible toy_sha A P.
Proof.
  intros HA HP HsA HsP HrA HrP Hcf.
  assert (∀ r, r ∈ records A ∨ r ∈ records P → simple_row r = true) as Hsimple.
  { rewrite forallb_forall in HrA, HrP.
    intros r [Hr|Hr]; [apply HrA|apply HrP]; by apply list_elem_of_In. }
  split; try done.
  - intros s Hs. by rewrite HsA in Hs.
  - intros s Hs. by rewrite HsP in Hs.
  - intros r [[_ Hr]%list_elem_of_filter|[_ Hr]%list_elem_of_filter]%elem_of_app;
      (split; apply simple_replicable, Hsimple; tauto).
  - intros r h Hr _ _. apply (simple_replicable A), Hsimple. by left.
  - intros r h Hr _ _. apply (simple_replicable P), Hsimple. by right.
  - by apply collision_freeb_ok.
Qed.

Lemma toy_compatible : compatible toy_sha toy_A toy_P.
Proof.
  apply simple_compatible.
  - apply written_ok; [exact toy_keyed|split; constructor].
  - apply written_ok; [exact other_keyed|split; constructor].
  - vm_compute. reflexivity.
  - vm_compute. reflexivity.
  - vm_compute. reflexivity.
  - vm_compute. reflexivity.
  - vm_compute. reflexivity.
Qed.

Lemma gossip_converges_witness :
  let '(rep1, A') := reconcile_with toy_sha toy_fresh no_race (node_peer toy_sha toy_P) None toy_A in
  let '(rep2, P') :=
    reconcile_with toy_sha toy_fresh no_race (node_peer toy_sha (summary_expire None A')) None toy_P in
  error rep1 = None ∧ error rep2 = None ∧
  (∀ h, h ∈ hashes_of A' ↔ h ∈ hashes_of toy_A ∨ h ∈ hashes_of toy_P) ∧
  (∀ h, h ∈ hashes_of P' ↔ h ∈ hashes_of A') ∧
  root (summarise_hashes toy_sha (hashes_of P')) = root (summarise_hashes toy_sha (hashes_of A')).
Proof.
  apply (gossip_converges toy_sha toy_fresh toy_A toy_P).
  - intros m. apply to_bytes_be_length.
  - exact toy_compatible.
Defined.
