(* ===== verification/Lifecycle.v ===== *)
(** * Lifecycle: states of memory records

    Models [services/memory_lifecycle.py] and the operations of
    [services/memory_service.py] that write records or change their state, with
    the endpoints [tombstone_memory_record] and [get_memory_by_hash] of
    [api/memory.py].  Time is in microseconds.  A row's [created_at] is set by
    the database and never changes: it is a function of the row's identifier.
    [trust] is the trust column of the agents, [float_of] the number that a
    stored confidence denotes, [embeds] says whether the embedding service
    answers.  A query without an order returns rows in order of insertion.  The
    Redis cache of query results and published events are not modelled. *)

From Stdlib Require Import Ascii NArith ZArith Lia Floats.SpecFloat.
From stdpp Require Import base tactics strings gmap relations list.
From S2P Require Gossip.
From S2P Require Import Prelude PyStr Dict Base58 Json Did PyVal PyFloat Merkle Uuid Signer Crdt Sync.

#[local] Open Scope nat_scope.

(** ** Decisions *)

Definition _DEFAULT_HISTORICAL_AFTER_HOURS : Z := 2160.
Definition _DEFAULT_TOMBSTONE_GRACE_HOURS : Z := 24.
Definition _TOMBSTONE_METADATA_MARKER : string := "tombstone".

(** The doubles nearest to 0.05 and 0.01 *)
Definition _DEFAULT_SUPERSEDE_TRUST_DELTA : spec_float := S754_finite false 7205759403792794 (-57).
Definition f0_01 : spec_float := S754_finite false 5764607523034235 (-59).

Record SupersedeDecision := { supersede : bool; target_hashes : list string }.

Definition neutral (t : option spec_float) : spec_float := default float_half t.

Definition outranks (new_trust trust_delta : spec_float) (trusts : gmap string (option spec_float)) (h : string) : bool :=
  f_ge new_trust (f_add (neutral (default None (trusts !! h))) trust_delta).

Definition decide_supersede (new_author_trust : option spec_float) (new_parent_hashes : list string)
    (parent_author_trusts : gmap string (option spec_float)) (trust_delta : spec_float) : SupersedeDecision :=
  match new_parent_hashes with
  | [] => {| supersede := false; target_hashes := [] |}
  | _ =>
      let target := filter (λ h, outranks (neutral new_author_trust) trust_delta parent_author_trusts h = true)
                      new_parent_hashes in
      match target with
      | [] => {| supersede := false; target_hashes := [] |}
      | _ => {| supersede := true; target_hashes := target |}
      end
  end.

Definition HOUR : Z := 3600000000.

(** [(reference - created).total_seconds() / 3600.0] *)
Definition age_hours (now created : Z) : spec_float :=
  f_div (f_div (f_of_Z (now - created)) (f_of_Z 1000000)) (f_of_Z 3600).

Definition live (s : RecordState) : bool := match s with ACTIVE | SUPERSEDED => true | _ => false end.

Definition is_archive_candidate (s : RecordState) (created_at now archive_after_hours : Z) : bool :=
  live s && f_ge (age_hours now created_at) (f_of_Z archive_after_hours).

Definition is_tombstone_gc_eligible (s : RecordState) (created_at now grace_hours : Z) : bool :=
  bool_decide (s = TOMBSTONED) && f_ge (age_hours now created_at) (f_of_Z grace_hours).

Inductive memory_exn :=
  | TombstoneAuthError
  | NotFoundError
  | EmbeddingError
  | StoreExn (e : crdt_error).

Definition assert_can_tombstone (requesting_did target_author_did : option string) (target_state : RecordState)
    : res memory_exn unit :=
  raise_if (bool_decide (target_state = TOMBSTONED)) TombstoneAuthError ;!
  raise_if (bool_decide (target_author_did = None)) TombstoneAuthError ;!
  raise_if (bool_decide (requesting_did = None)) TombstoneAuthError ;!
  raise_if (negb (bool_decide (requesting_did = target_author_did))) TombstoneAuthError.

Definition build_tombstone_metadata (target_hash : string) (reason : option string)
    (extra : option (list (pykey * json))) : list (pykey * json) :=
  let meta := default [] extra in
  let meta := dict_set (KStr _TOMBSTONE_METADATA_MARKER) (JBool true) meta in
  let meta := dict_set (KStr "tombstone_target") (JStr target_hash) meta in
  match reason with
  | Some r => if str_empty r then meta else dict_set (KStr "tombstone_reason") (JStr r) meta
  | None => meta
  end.

Definition is_tombstone_record (metadata : option (list (pykey * json))) : bool :=
  match metadata with
  | Some m => match dict_get (KStr _TOMBSTONE_METADATA_MARKER) m with Some (JBool true) => true | _ => false end
  | None => false
  end.

Definition tombstone_target_hash (metadata : option (list (pykey * json))) : option string :=
  if is_tombstone_record metadata then
    match dict_get (KStr "tombstone_target") (default [] metadata) with
    | Some (JStr s) => if str_empty s then None else Some s
    | _ => None
    end
  else None.

Definition tombstone_memory_type : MemoryType := META.

Record GCRunPolicy := {
  tombstone_grace_hours : Z;
  archive_active_after_hours : Z;
  low_confidence_threshold : spec_float;
  hard_delete_max_age_hours : option Z;
  cache_max_entries : option Z;
}.

Definition default_policy (max_age_hours : option Z) (min_confidence : spec_float) : GCRunPolicy := {|
  tombstone_grace_hours := _DEFAULT_TOMBSTONE_GRACE_HOURS;
  archive_active_after_hours := _DEFAULT_HISTORICAL_AFTER_HOURS;
  low_confidence_threshold := min_confidence; hard_delete_max_age_hours := max_age_hours;
  cache_max_entries := None |}.

Definition archive_cutoff (p : GCRunPolicy) (now : Z) : Z := (now - archive_active_after_hours p * HOUR)%Z.
Definition tombstone_cutoff (p : GCRunPolicy) (now : Z) : Z := (now - tombstone_grace_hours p * HOUR)%Z.

(** ** Rows *)

Definition is_signed (r : MemoryRecord) : bool :=
  bool_decide (is_Some (content_hash r)) && bool_decide (is_Some (signature r)).

(** [row.record_state = s] *)
Definition set_state (s : RecordState) (r : MemoryRecord) : MemoryRecord := {|
  memory_id := memory_id r; workflow_id := workflow_id r; source_agent_id := source_agent_id r;
  memory_type := memory_type r; content := content r; metadata_ := metadata_ r; confidence := confidence r;
  version := version r; parent_version_id := parent_version_id r; author_did := author_did r;
  parent_hashes := parent_hashes r; signature := signature r; content_hash := content_hash r;
  record_state := s; expires_at := expires_at r |}.

Definition set_confidence (c : pyfloat) (r : MemoryRecord) : MemoryRecord := {|
  memory_id := memory_id r; workflow_id := workflow_id r; source_agent_id := source_agent_id r;
  memory_type := memory_type r; content := content r; metadata_ := metadata_ r; confidence := c;
  version := version r; parent_version_id := parent_version_id r; author_did := author_did r;
  parent_hashes := parent_hashes r; signature := signature r; content_hash := content_hash r;
  record_state := record_state r; expires_at := expires_at r |}.

Definition set_parent (p : option uuid) (r : MemoryRecord) : MemoryRecord := {|
  memory_id := memory_id r; workflow_id := workflow_id r; source_agent_id := source_agent_id r;
  memory_type := memory_type r; content := content r; metadata_ := metadata_ r; confidence := confidence r;
  version := version r; parent_version_id := p; author_did := author_did r;
  parent_hashes := parent_hashes r; signature := signature r; content_hash := content_hash r;
  record_state := record_state r; expires_at := expires_at r |}.

(** Assignments to the rows that satisfy [P] *)
Definition update (P : MemoryRecord → bool) (f : MemoryRecord → MemoryRecord) (n : node) : node :=
  set_records (map (λ r, if P r then f r else r) (records n)) n.

(** The same for the first [k] of them: a query with a limit *)
Fixpoint update_first (k : nat) (P : MemoryRecord → bool) (f : MemoryRecord → MemoryRecord)
    (rs : list MemoryRecord) : list MemoryRecord :=
  match rs with
  | [] => []
  | r :: rs =>
      if P r then match k with O => r :: rs | S k => f r :: update_first k P f rs end
      else r :: update_first k P f rs
  end.

(** The foreign key of a row whose parent is deleted becomes null. *)
Definition orphan (gone : list uuid) (r : MemoryRecord) : MemoryRecord :=
  match parent_version_id r with
  | Some p => if decide (p ∈ gone) then set_parent None r else r
  | None => r
  end.

(** [DELETE ... RETURNING] *)
Definition delete_rows (P : MemoryRecord → bool) (n : node) : node * nat :=
  let gone := map memory_id (filter (λ r, P r = true) (records n)) in
  (set_records (map (orphan gone) (filter (λ r, P r = false) (records n))) n, length gone).

Record MemoryWriteRequest := {
  mw_workflow_id : uuid;
  mw_source_agent_id : option uuid;
  mw_memory_type : MemoryType;
  mw_content : string;
  mw_confidence : pyfloat;
  mw_metadata : option (list (pykey * json));
  mw_parent_version_id : option uuid;
  mw_ttl_hours : option Z;
  mw_author_did : option string;
  mw_parent_hashes : option (list string);
  mw_content_hash : option string;
  mw_signature : option string;
}.

Section service.
Context (sha256 : string → list Byte.byte) `{Ed25519}.
Context (created_at : uuid → Z) (trust : uuid → option spec_float) (float_of : pyfloat → spec_float).

Definition created (r : MemoryRecord) : Z := created_at (memory_id r).

Definition _load_by_hash : string → node → option MemoryRecord := _fetch_by_hash.

Definition _get_memory (id : uuid) (n : node) : res memory_exn MemoryRecord :=
  res_of_option NotFoundError (snd <$> list_find (λ r, memory_id r = id) (records n)).

Definition _author_trust (agent : option uuid) : option spec_float := agent ≫= trust.

(** ** Writing *)

Definition CONFLICT_WINDOW : Z := 5000000.

Definition conflicting (wid agent : uuid) (t : MemoryType) (now : Z) (r : MemoryRecord) : bool :=
  bool_decide (workflow_id r = Some wid) && bool_decide (source_agent_id r = Some agent) &&
  bool_decide (memory_type r = t) && (now - CONFLICT_WINDOW <=? created r)%Z.

(** [ORDER BY created_at DESC LIMIT 1] *)
Definition newest (rs : list MemoryRecord) : option MemoryRecord :=
  foldl (λ best r, match best with
                   | Some b => if (created b <=? created r)%Z then Some r else best
                   | None => Some r
                   end) None rs.

Definition _check_conflict (wid agent : uuid) (t : MemoryType) (now : Z) (n : node) : option MemoryRecord :=
  newest (filter (λ r, conflicting wid agent t now r = true) (records n)).

Definition parent_rows (new_record : MemoryRecord) (n : node) : list MemoryRecord :=
  filter (λ r, from_option (λ h, bool_decide (h ∈ parent_hashes new_record)) false (content_hash r) = true) (records n).

Definition parent_trusts (rows : list MemoryRecord) : gmap string (option spec_float) :=
  foldl (λ m r, match content_hash r with Some h => <[h := _author_trust (source_agent_id r)]> m | None => m end) ∅ rows.

(** [parent.content_hash in target_hashes and parent.record_state == ACTIVE] *)
Definition flips (targets : list string) (r : MemoryRecord) : bool :=
  from_option (λ h, bool_decide (h ∈ targets)) false (content_hash r) && bool_decide (record_state r = ACTIVE).

Definition apply_supersede_rules (new_record : MemoryRecord) (n : node) : node * list MemoryRecord :=
  match parent_hashes new_record with
  | [] => (n, [])
  | _ =>
      if from_option str_empty true (author_did new_record) then (n, [])
      else
        let decision := decide_supersede (_author_trust (source_agent_id new_record)) (parent_hashes new_record)
                          (parent_trusts (parent_rows new_record n)) _DEFAULT_SUPERSEDE_TRUST_DELTA in
        match parent_rows new_record n with
        | [] => (n, [])
        | rows =>
            if supersede decision then
              (update (flips (target_hashes decision)) (set_state SUPERSEDED) n,
               map (set_state SUPERSEDED) (filter (λ r, flips (target_hashes decision) r = true) rows))
            else (n, [])
        end
  end.

Definition write_of_request (data : MemoryWriteRequest) (v : Z) (expiry : option Z) : write := {|
  w_workflow_id := Some (mw_workflow_id data); w_memory_type := mw_memory_type data; w_content := mw_content data;
  w_confidence := mw_confidence data; w_metadata := mw_metadata data; w_parent_hashes := mw_parent_hashes data;
  w_author_did := mw_author_did data; w_source_agent_id := mw_source_agent_id data; w_keypair := None;
  w_precomputed_hash := mw_content_hash data; w_precomputed_signature := mw_signature data; w_version := v;
  w_parent_version_id := mw_parent_version_id data; w_expires_at := expiry; w_record_state := ACTIVE |}.

(** The record is put; a signed one may supersede its parents. *)
Definition write_new (new_id : uuid) (race : list MemoryRecord) (data : MemoryWriteRequest) (v now : Z) (n : node)
    : res memory_exn (MemoryRecord * node) :=
  let expiry := mw_ttl_hours data ≫= λ h, if (h =? 0)%Z then None else Some (now + h * HOUR)%Z in
  p <~ res_catch (put sha256 new_id race (write_of_request data v expiry) n) (λ e, Err (StoreExn e));
  Ok (p.1, if is_signed p.1 then (apply_supersede_rules p.1 p.2).1 else p.2).

Definition write_memory (embeds : bool) (new_id : uuid) (race : list MemoryRecord) (data : MemoryWriteRequest)
    (now : Z) (n : node) : res memory_exn (MemoryRecord * node) :=
  raise_if (negb embeds) EmbeddingError ;!
  v <~ match mw_parent_version_id data with
       | Some p => parent <~ _get_memory p n; Ok (version parent + 1)%Z
       | None => Ok 1%Z
       end;
  let conflict := mw_source_agent_id data ≫= λ agent,
        _check_conflict (mw_workflow_id data) agent (mw_memory_type data) now n in
  match conflict with
  | Some existing =>
      if f_le (float_of (mw_confidence data)) (float_of (confidence existing)) then Ok (existing, n)
      else write_new new_id race data v now n
  | None => write_new new_id race data v now n
  end.
(** ** Deleting *)

(** The reference to a row that was loaded is its primary key. *)
Definition same_row (r x : MemoryRecord) : bool := bool_decide (memory_id x = memory_id r).

Definition delete_memory (id : uuid) (n : node) : res memory_exn node :=
  record <~ _get_memory id n;
  Ok (update (same_row record)
        (λ r, set_state TOMBSTONED (if is_signed r then r else set_confidence (FInt 0) r)) n).

Definition tombstone_write (target : MemoryRecord) (target_hash requesting_did signature content_hash : string)
    (reason : option string) : write := {|
  w_workflow_id := workflow_id target; w_memory_type := tombstone_memory_type; w_content := default "" reason;
  w_confidence := FInt 1; w_metadata := Some (build_tombstone_metadata target_hash reason None);
  w_parent_hashes := Some [target_hash]; w_author_did := Some requesting_did;
  w_source_agent_id := source_agent_id target; w_keypair := None; w_precomputed_hash := Some content_hash;
  w_precomputed_signature := Some signature; w_version := 1; w_parent_version_id := None; w_expires_at := None;
  w_record_state := ACTIVE |}.

Definition tombstone_memory (new_id : uuid) (race : list MemoryRecord)
    (target_hash requesting_did signature content_hash : string) (reason : option string) (n : node)
    : res memory_exn (MemoryRecord * node) :=
  target <~ res_of_option NotFoundError (_load_by_hash target_hash n);
  assert_can_tombstone (Some requesting_did) (author_did target) (record_state target) ;!
  p <~ res_catch (put sha256 new_id race
                    (tombstone_write target target_hash requesting_did signature content_hash reason) n)
         (λ e, Err (StoreExn e));
  Ok (p.1, update (same_row target) (set_state TOMBSTONED) p.2).

(** The endpoint: [inl] is the status code of an answer it makes itself. *)
Definition tombstone_memory_record (new_id : uuid) (race : list MemoryRecord)
    (target_hash requesting_did signature content_hash : string) (reason : option string) (n : node)
    : res (Z + memory_exn) (MemoryRecord * node) :=
  res_catch (tombstone_memory new_id race target_hash requesting_did signature content_hash reason n)
    (λ e, match e with TombstoneAuthError => Err (inl 403%Z) | e => Err (inr e) end).

Definition get_memory_by_hash (h : string) (n : node) : res Z MemoryRecord :=
  raise_if (str_empty h || (128 <? length (py_chars h))) 400%Z ;!
  record <~ res_of_option 404%Z (_fetch_by_hash h n);
  raise_if (bool_decide (record_state record = TOMBSTONED)) 404%Z ;!
  Ok record.

(** ** Garbage collection *)

Record gc_counts := {
  expired_to_tombstone : nat;
  tombstone_hard_deleted : nat;
  archived_to_historical : nat;
  legacy_hard_deleted : nat;
  old_hard_deleted : nat;
  cache_expired_deleted : nat;
  cache_trimmed : nat;
  total_hard_deleted : nat;
}.

Definition _GC_BATCH : nat := Z.to_nat 10000.

Definition expired (now : Z) (r : MemoryRecord) : bool :=
  from_option (λ e, e <? now)%Z false (expires_at r).

(** [ORDER BY created_at DESC OFFSET cap LIMIT 10000]; [by_age] is the order
    that the database chooses, ties included. *)
Definition surplus (by_age : list MemoryRecord → list MemoryRecord) (cap : Z) (n : node) : list uuid :=
  map memory_id (take _GC_BATCH (drop (Z.to_nat cap)
    (by_age (filter (λ r, memory_type r = CACHE) (records n))))).

Definition dead_cache (now : Z) (r : MemoryRecord) : bool :=
  bool_decide (memory_type r = CACHE) &&
  (bool_decide (expires_at r = None) || expired now r || negb (bool_decide (record_state r = ACTIVE))).

Definition _collect_semantic_cache (by_age : list MemoryRecord → list MemoryRecord) (semantic_cache_max_entries : Z)
    (p : GCRunPolicy) (now : Z) (n : node) : node * (nat * nat) :=
  let '(n, deleted) := delete_rows (dead_cache now) n in
  let cap := default semantic_cache_max_entries (cache_max_entries p) in
  if (cap <=? 0)%Z then (n, (deleted, 0))
  else
    let ids := surplus by_age cap n in
    let '(n, trimmed) := delete_rows (λ r, bool_decide (memory_id r ∈ ids)) n in
    (n, (deleted, trimmed)).

Definition expires_now (now : Z) (r : MemoryRecord) : bool := expired now r && live (record_state r).

Definition past_grace (p : GCRunPolicy) (now : Z) (r : MemoryRecord) : bool :=
  bool_decide (record_state r = TOMBSTONED) && (created r <? tombstone_cutoff p now)%Z.

Definition archivable (p : GCRunPolicy) (now : Z) (r : MemoryRecord) : bool :=
  live (record_state r) && (created r <? archive_cutoff p now)%Z &&
  f_lt (float_of (confidence r)) (low_confidence_threshold p).

Definition archive (p : GCRunPolicy) (now : Z) (r : MemoryRecord) : MemoryRecord :=
  if is_archive_candidate (record_state r) (created r) now (archive_active_after_hours p)
  then set_state HISTORICAL r else r.

Definition legacy (p : GCRunPolicy) (r : MemoryRecord) : bool :=
  f_lt (float_of (confidence r)) (low_confidence_threshold p) && bool_decide (content_hash r = None) &&
  negb (bool_decide (record_state r = TOMBSTONED)).

Definition too_old (hours now : Z) (r : MemoryRecord) : bool :=
  (created r <? now - hours * HOUR)%Z && bool_decide (content_hash r = None).

Definition counted (P : MemoryRecord → bool) (n : node) : nat :=
  Nat.min _GC_BATCH (length (filter (λ r, P r = true) (records n))).

Definition garbage_collect (by_age : list MemoryRecord → list MemoryRecord) (semantic_cache_max_entries : Z)
    (policy : option GCRunPolicy) (max_age_hours : option Z) (min_confidence : spec_float) (now : Z) (n : node)
    : node * gc_counts :=
  let p := default (default_policy max_age_hours min_confidence) policy in
  let '(n0, (cache_expired, cache_trim)) := _collect_semantic_cache by_age semantic_cache_max_entries p now n in
  let n1 := set_records (update_first _GC_BATCH (expires_now now) (set_state TOMBSTONED) (records n0)) n0 in
  let '(n2, tomb) := delete_rows (past_grace p now) n1 in
  let n3 := set_records (update_first _GC_BATCH (archivable p now) (archive p now) (records n2)) n2 in
  let '(n4, leg) := delete_rows (legacy p) n3 in
  let '(n5, old) := match hard_delete_max_age_hours p with
                    | Some hours => if (hours =? 0)%Z then (n4, 0) else delete_rows (too_old hours now) n4
                    | None => (n4, 0)
                    end in
  (n5, {| expired_to_tombstone := counted (expires_now now) n0; tombstone_hard_deleted := tomb;
          archived_to_historical := length (filter (λ r, is_archive_candidate (record_state r) (created r) now
            (archive_active_after_hours p) = true) (take _GC_BATCH (filter (λ r, archivable p now r = true) (records n2))));
          legacy_hard_deleted := leg; old_hard_deleted := old; cache_expired_deleted := cache_expired;
          cache_trimmed := cache_trim; total_hard_deleted := tomb + leg + old + cache_expired + cache_trim |}).
End service.

(** ** What happens to a row *)

Definition rank (s : RecordState) : nat :=
  match s with ACTIVE => 0 | SUPERSEDED => 1 | HISTORICAL => 2 | TOMBSTONED => 3 end.

(** The same row, later: its state has not gone back, its parent may be gone,
    and the confidence of an unsigned row may have been overwritten. *)
Definition evolves (r r' : MemoryRecord) : Prop :=
  ∃ s p c, r' = set_confidence c (set_parent p (set_state s r)) ∧ rank (record_state r) ≤ rank s ∧
    (is_signed r = true → c = confidence r).

Lemma evolves_refl r : evolves r r.
Proof. exists (record_state r), (parent_version_id r), (confidence r). by destruct r. Qed.

Lemma evolves_trans r1 r2 r3 : evolves r1 r2 → evolves r2 r3 → evolves r1 r3.
Proof.
  intros (s&p&c&->&Hs&Hc) (s'&p'&c'&->&Hs'&Hc'). exists s', p', c'. split; [by destruct r1|]. cbn in Hs'.
  split; [lia|]. intros Hg. by rewrite (Hc' Hg), <-(Hc Hg).
Qed.

#[export] Instance evolves_preorder : PreOrder evolves.
Proof. split; [exact evolves_refl|exact evolves_trans]. Qed.

Lemma evolves_state s r : rank (record_state r) ≤ rank s → evolves r (set_state s r).
Proof. intros Hs. exists s, (parent_version_id r), (confidence r). by destruct r. Qed.

Lemma evolves_tombstoned r : evolves r (set_state TOMBSTONED r).
Proof. apply evolves_state. by destruct (record_state r); cbn; lia. Qed.

Lemma evolves_orphan gone r : evolves r (orphan gone r).
Proof.
  unfold orphan. destruct (parent_version_id r) eqn:E; [case_decide|]; try done.
  exists (record_state r), None, (confidence r). by destruct r.
Qed.

Lemma evolves_id r r' : evolves r r' → memory_id r' = memory_id r.
Proof. by intros (s&p&c&->&_). Qed.

(** What the signature covers does not change. *)
Lemma evolves_signed r r' :
  evolves r r' → is_signed r = true →
  row_body r' = row_body r ∧ content_hash r' = content_hash r ∧ signature r' = signature r.
Proof. intros (s&p&c&->&_&Hc) Hg. rewrite (Hc Hg). by destruct r. Qed.

Lemma evolves_rank r r' : evolves r r' → rank (record_state r) ≤ rank (record_state r').
Proof. by intros (s&p&c&->&Hs&_). Qed.

(** Every row is an old row, evolved, or has one of the identifiers [new]. *)
Definition changes (new : list uuid) (rs rs' : list MemoryRecord) : Prop :=
  ∀ r', r' ∈ rs' → (∃ r, r ∈ rs ∧ evolves r r') ∨ memory_id r' ∈ new.

Lemma changes_trans new new' rs1 rs2 rs3 :
  changes new rs1 rs2 → changes new' rs2 rs3 → changes (new ++ new') rs1 rs3.
Proof.
  intros H1 H2 r3 Hr3. destruct (H2 r3 Hr3) as [(r2&Hr2&He)|Hid]; [|right; set_solver].
  destruct (H1 r2 Hr2) as [(r1&Hr1&He')|Hid].
  - left. exists r1. split; [done|]. by etrans.
  - right. rewrite (evolves_id _ _ He). set_solver.
Qed.

Lemma changes_map f rs : (∀ r, r ∈ rs → evolves r (f r)) → changes [] rs (map f rs).
Proof. intros Hf r' (r&->&Hr)%list_elem_of_fmap. left. exists r. by split; [|apply Hf]. Qed.

Lemma changes_refl rs : changes [] rs rs.
Proof. intros r Hr. left. by exists r. Qed.

Lemma changes_update P f n :
  (∀ r, P r = true → evolves r (f r)) → changes [] (records n) (records (update P f n)).
Proof. intros Hf. apply changes_map. intros r _. destruct (P r) eqn:E; [by apply Hf|done]. Qed.

Lemma changes_update_first k P f rs :
  (∀ r, P r = true → evolves r (f r)) → changes [] rs (update_first k P f rs).
Proof.
  intros Hf. revert k. induction rs as [|r rs IH]; intros k; [apply changes_refl|]. cbn [update_first].
  assert (∀ k x, evolves r x → changes [] (r :: rs) (x :: update_first k P f rs)) as Hcons.
  { intros k' x Hx r' [->|Hr']%elem_of_cons; [left; exists r; split; [by left|done]|].
    destruct (IH k' r' Hr') as [(y&Hy&He)|Hn]; [|by right]. left. exists y. split; [by right|done]. }
  destruct (P r) eqn:E; [|by apply Hcons].
  destruct k; [apply changes_refl|]. apply Hcons. by apply Hf.
Qed.

Lemma changes_delete P n : changes [] (records n) (records (delete_rows P n).1).
Proof.
  cbn. intros r' (r&->&[_ Hr]%list_elem_of_filter)%list_elem_of_fmap. left. exists r. by split; [|apply evolves_orphan].
Qed.

Lemma changes_put sha256 `{Ed25519} id race w n r n' :
  put sha256 id race w n = Ok (r, n') → changes (id :: map memory_id race) (records n) (records n').
Proof.
  intros (hash&sig&_&Hcase)%put_Ok.
  assert (changes (map memory_id race) (records n) (records n ++ race)) as Hrace.
  { intros x [Hx|Hx]%elem_of_app; [left; by exists x|]. right. by apply list_elem_of_fmap_2. }
  destruct Hcase as [(h&_&_&_&[->| ->])|(->&->&_)]; cbn [records set_records].
  - intros x Hx. left. by exists x.
  - intros x Hx. destruct (Hrace x Hx); [by left|]. right. by right.
  - intros x [Hx|Hx]%elem_of_app; [|apply list_elem_of_singleton in Hx as ->; right; by left].
    destruct (Hrace x Hx); [by left|]. right. by right.
Qed.

Section operations.
Context (sha256 : string → list Byte.byte) `{Ed25519}.
Context (created_at : uuid → Z) (trust : uuid → option spec_float) (float_of : pyfloat → spec_float).

Lemma flips_active targets r : flips targets r = true → record_state r = ACTIVE.
Proof. unfold flips. by intros [_ Ha%bool_decide_eq_true]%andb_true_iff. Qed.

Lemma live_rank r : live (record_state r) = true → rank (record_state r) ≤ 1.
Proof. by destruct (record_state r); cbn; try lia. Qed.

Lemma changes_supersede r n : changes [] (records n) (records (apply_supersede_rules trust r n).1).
Proof.
  unfold apply_supersede_rules. destruct (parent_hashes r); [apply changes_refl|].
  destruct (from_option _ _ _); [apply changes_refl|]. destruct (parent_rows r n); [apply changes_refl|].
  destruct (supersede _); [|apply changes_refl]. cbn [fst]. apply changes_update. intros x Hx%flips_active.
  apply evolves_state. rewrite Hx. cbn. lia.
Qed.

Lemma changes_write embeds id race data now n r n' :
  write_memory sha256 created_at trust float_of embeds id race data now n = Ok (r, n') →
  changes (id :: map memory_id race) (records n) (records n').
Proof.
  unfold write_memory. intros (u&_&(v&_&E)%res_bind_Ok)%res_bind_Ok.
  assert (write_new sha256 trust id race data v now n = Ok (r, n') →
    changes (id :: map memory_id race) (records n) (records n')) as Hnew.
  { unfold write_new. intros ([r1 n1]&Hp&[= <- <-])%res_bind_Ok. destruct (put _ _ _ _ _) as [x|e] eqn:Ep; [|done].
    injection Hp as ->. apply changes_put in Ep. cbn [fst snd]. destruct (is_signed r1); [|done].
    rewrite <-(app_nil_r (id :: _)). by eapply changes_trans, changes_supersede. }
  destruct (_ ≫= _) as [old|]; [|by apply Hnew]. destruct (f_le _ _); [|by apply Hnew].
  injection E as <- <-. intros x Hx. left. by exists x.
Qed.

Lemma changes_tombstone id race h did sig ch why n r n' :
  tombstone_memory sha256 id race h did sig ch why n = Ok (r, n') →
  changes (id :: map memory_id race) (records n) (records n').
Proof.
  unfold tombstone_memory. intros (t&_&(u&_&([r1 n1]&Hp&[= <- <-])%res_bind_Ok)%res_bind_Ok)%res_bind_Ok.
  destruct (put _ _ _ _ _) as [x|e] eqn:Ep; [|done]. injection Hp as ->. apply changes_put in Ep.
  rewrite <-(app_nil_r (id :: _)). eapply changes_trans; [exact Ep|]. apply changes_update.
  intros x _. apply evolves_tombstoned.
Qed.

Lemma changes_delete_memory id n n' : delete_memory id n = Ok n' → changes [] (records n) (records n').
Proof.
  unfold delete_memory. intros (r&_&[= <-])%res_bind_Ok. apply changes_update. intros x _.
  destruct (is_signed x) eqn:E; [apply evolves_tombstoned|].
  exists TOMBSTONED, (parent_version_id x), (FInt 0). split; [by destruct x|].
  split; [by destruct (record_state x); cbn; lia|]. by rewrite E.
Qed.

Lemma changes_then rs1 rs2 rs3 : changes [] rs1 rs2 → changes [] rs2 rs3 → changes [] rs1 rs3.
Proof. apply (changes_trans [] []). Qed.

Lemma archive_evolves p now r : archivable created_at float_of p now r = true → evolves r (archive created_at p now r).
Proof.
  unfold archivable, archive. intros [[Hl _]%andb_true_iff _]%andb_true_iff. destruct (is_archive_candidate _ _ _ _); [|done].
  apply evolves_state. apply live_rank in Hl. cbn. lia.
Qed.

Lemma changes_cache by_age cap p now n :
  changes [] (records n) (records (_collect_semantic_cache by_age cap p now n).1).
Proof.
  unfold _collect_semantic_cache. pose proof (changes_delete (dead_cache now) n) as H1.
  destruct (delete_rows (dead_cache now) n) as [n1 k]. destruct (_ <=? 0)%Z; [done|].
  set (P := λ r, bool_decide _). pose proof (changes_delete P n1) as H2.
  destruct (delete_rows P n1) as [n2 k2]. by eapply changes_then.
Qed.

Lemma changes_gc by_age cap policy age conf now n :
  changes [] (records n) (records (garbage_collect created_at float_of by_age cap policy age conf now n).1).
Proof.
  unfold garbage_collect. set (p := default _ policy). pose proof (changes_cache by_age cap p now n) as H0.
  destruct (_collect_semantic_cache _ _ _ _ _) as [n0 [c1 c2]]. cbn [fst] in H0.
  set (n1 := set_records _ n0).
  assert (changes [] (records n0) (records n1)) as H1.
  { apply changes_update_first. intros r _. apply evolves_tombstoned. }
  pose proof (changes_delete (past_grace created_at p now) n1) as H2.
  destruct (delete_rows (past_grace _ _ _) n1) as [n2 k2]. cbn [fst] in H2. set (n3 := set_records _ n2).
  assert (changes [] (records n2) (records n3)) as H3.
  { apply changes_update_first. intros r. apply archive_evolves. }
  pose proof (changes_delete (legacy float_of p) n3) as H4.
  destruct (delete_rows (legacy float_of p) n3) as [n4 k4]. cbn [fst] in H4.
  assert (changes [] (records n) (records n4)) as Hn4.
  { eapply changes_then; [exact H0|]. eapply changes_then; [exact H1|]. eapply changes_then; [exact H2|].
    by eapply changes_then. }
  destruct (hard_delete_max_age_hours p) as [hours|]; [|done]. destruct (hours =? 0)%Z; [done|].
  pose proof (changes_delete (too_old created_at hours now) n4) as H5.
  destruct (delete_rows (too_old _ _ _) n4) as [n5 k5]. by eapply changes_then.
Qed.

(** ** What garbage collection keeps *)

Lemma orphan_same gone r :
  record_state (orphan gone r) = record_state r ∧ expires_at (orphan gone r) = expires_at r ∧
  memory_type (orphan gone r) = memory_type r ∧ memory_id (orphan gone r) = memory_id r.
Proof. unfold orphan. destruct (parent_version_id r); [case_decide|]; done. Qed.

Lemma delete_records P n :
  records (delete_rows P n).1 =
    map (orphan (map memory_id (filter (λ r, P r = true) (records n)))) (filter (λ r, P r = false) (records n)).
Proof. done. Qed.

Lemma survive_delete P n r :
  r ∈ records n → P r = false → ∃ gone, orphan gone r ∈ records (delete_rows P n).1.
Proof.
  intros Hr Hp. eexists. rewrite delete_records. apply list_elem_of_fmap_2. by apply list_elem_of_filter.
Qed.

Lemma survive_update_first k P f rs r :
  r ∈ rs → r ∈ update_first k P f rs ∨ (P r = true ∧ f r ∈ update_first k P f rs).
Proof.
  intros Hr. revert k. induction rs as [|x rs IH]; intros k; [by apply elem_of_nil in Hr|]. cbn [update_first].
  apply elem_of_cons in Hr as [->|Hr].
  - destruct (P x); [|left; by left]. destruct k; [left; by left|]. right. split; [done|]. by left.
  - destruct (P x); [destruct k; [left; by right|]|].
    + destruct (IH Hr k) as [?|[??]]; [left; by right|right; split; [done|by right]].
    + destruct (IH Hr k) as [?|[??]]; [left; by right|right; split; [done|by right]].
Qed.

Lemma delete_ids_NoDup P n :
  NoDup (map memory_id (records n)) → NoDup (map memory_id (records (delete_rows P n).1)).
Proof.
  intros Hnd. rewrite delete_records. set (gone := map memory_id (filter (λ r, P r = true) (records n))).
  assert (map memory_id (map (orphan gone) (filter (λ r, P r = false) (records n))) =
          map memory_id (filter (λ r, P r = false) (records n))) as ->.
  { rewrite List.map_map. apply List.map_ext. intros r. by destruct (orphan_same gone r) as (_&_&_&->). }
  by apply NoDup_map_filter.
Qed.

Lemma survive_cache by_age cap p now n r :
  (∀ l, by_age l ⊆ l) → NoDup (map memory_id (records n)) → r ∈ records n → memory_type r ≠ CACHE →
  ∃ r', r' ∈ records (_collect_semantic_cache by_age cap p now n).1 ∧ evolves r r' ∧
    record_state r' = record_state r ∧ expires_at r' = expires_at r.
Proof.
  intros Hby Hnd Hr Ht. unfold _collect_semantic_cache.
  assert (dead_cache now r = false) as Hd by (unfold dead_cache; by rewrite bool_decide_eq_false_2).
  destruct (survive_delete _ n r Hr Hd) as (g1&H1). pose proof (delete_ids_NoDup (dead_cache now) n Hnd) as Hnd1.
  destruct (delete_rows (dead_cache now) n) as [n1 k1]. cbn [fst] in *.
  destruct (orphan_same g1 r) as (Hs1&He1&Ht1&Hi1). pose proof (evolves_orphan g1 r) as Hev1.
  set (x := orphan g1 r) in *. destruct (_ <=? 0)%Z; [by exists x|].
  set (P := λ y, bool_decide _).
  assert (P x = false) as Hp.
  { apply bool_decide_eq_false_2. intros (y&Hid&Hy)%list_elem_of_fmap. apply Ht. rewrite <-Ht1.
    apply subseteq_take, subseteq_drop, Hby, list_elem_of_filter in Hy as [Hyc Hy].
    by rewrite <-(NoDup_map_inj memory_id (records n1) y x Hnd1 Hy H1). }
  destruct (survive_delete P n1 x H1 Hp) as (g2&H2). destruct (delete_rows P n1) as [n2 k2]. cbn [fst] in *.
  destruct (orphan_same g2 x) as (Hs2&He2&_). exists (orphan g2 x). split; [done|].
  split; [etrans; [exact Hev1|apply evolves_orphan]|]. by rewrite Hs2, Hs1, He2, He1.
Qed.

Lemma survive_gc by_age cap policy age conf now n r :
  (∀ l, by_age l ⊆ l) → NoDup (map memory_id (records n)) →
  r ∈ records n → is_Some (content_hash r) → memory_type r ≠ CACHE →
  (∃ r', r' ∈ records (garbage_collect created_at float_of by_age cap policy age conf now n).1 ∧ evolves r r') ∨
  ((created created_at r < tombstone_cutoff (default (default_policy age conf) policy) now)%Z ∧
   (record_state r = TOMBSTONED ∨ expires_now now r = true)).
Proof.
  intros Hby Hnd Hr Hh Ht. unfold garbage_collect. set (p := default _ policy).
  destruct (survive_cache by_age cap p now n r Hby Hnd Hr Ht) as (x0&Hx0&He0&Hs0&Hex0).
  destruct (_collect_semantic_cache _ _ _ _ _) as [n0 [c1 c2]]. cbn [fst] in Hx0. set (n1 := set_records _ n0).
  assert (∃ x1, x1 ∈ records n1 ∧ evolves r x1 ∧
    (record_state x1 = TOMBSTONED → record_state r = TOMBSTONED ∨ expires_now now r = true)) as (x1&Hx1&He1&Hs1).
  { destruct (survive_update_first _GC_BATCH (expires_now now) (set_state TOMBSTONED) (records n0) x0 Hx0) as [Hx|[Hp Hx]].
    - exists x0. split; [done|]. split; [done|]. rewrite Hs0. by left.
    - exists (set_state TOMBSTONED x0). split; [done|]. split; [etrans; [exact He0|apply evolves_tombstoned]|].
      intros _. right. unfold expires_now, expired in *. by rewrite <-Hs0, <-Hex0. }
  destruct (past_grace created_at p now x1) eqn:Eg.
  { right. apply andb_true_iff in Eg as [Est%bool_decide_eq_true Ec%Z.ltb_lt]. split; [|by apply Hs1].
    unfold created in *. by rewrite <-(evolves_id _ _ He1). }
  left. destruct (survive_delete _ n1 x1 Hx1 Eg) as (g2&Hx2).
  destruct (delete_rows (past_grace _ _ _) n1) as [n2 k2]. cbn [fst] in Hx2. set (n3 := set_records _ n2).
  assert (evolves r (orphan g2 x1)) as He2 by (etrans; [exact He1|apply evolves_orphan]).
  assert (∃ x3, x3 ∈ records n3 ∧ evolves r x3) as (x3&Hx3&He3).
  { destruct (survive_update_first _GC_BATCH (archivable created_at float_of p now) (archive created_at p now) (records n2) _ Hx2)
      as [Hx|[Hp Hx]]; [by eexists|]. eexists. split; [exact Hx|]. etrans; [exact He2|]. by apply archive_evolves. }
  assert (∀ P m x, (∀ y, P y = true → content_hash y = None) → x ∈ records m → evolves r x →
    ∃ y, y ∈ records (delete_rows P m).1 ∧ evolves r y) as Hkeep.
  { intros P m x HP Hx He. destruct (P x) eqn:E.
    - apply HP in E. destruct He as (s&q&c&->&_). destruct Hh as [h Hh]. cbn in E. congruence.
    - destruct (survive_delete P m x Hx E) as (g&Hy). eexists. split; [exact Hy|]. etrans; [exact He|apply evolves_orphan]. }
  destruct (Hkeep (legacy float_of p) n3 x3) as (x4&Hx4&He4); [|done..|].
  { intros y. unfold legacy. by intros [[_ Hy%bool_decide_eq_true]%andb_true_iff _]%andb_true_iff. }
  destruct (delete_rows (legacy float_of p) n3) as [n4 k4]. cbn [fst] in Hx4.
  destruct (hard_delete_max_age_hours p) as [hours|]; [|by exists x4]. destruct (hours =? 0)%Z; [by exists x4|].
  destruct (Hkeep (too_old created_at hours now) n4 x4) as (x5&Hx5&He5); [|done..|].
  { intros y. unfold too_old. by intros [_ Hy%bool_decide_eq_true]%andb_true_iff. }
  destruct (delete_rows (too_old _ _ _) n4) as [n5 k5]. by exists x5.
Qed.

(** One operation on the table.  The identifiers that a writer draws, for its
    own row or for rows of other sessions, were never used before. *)
Inductive mem_step : gset uuid * node → gset uuid * node → Prop :=
  | step_write used n embeds id race data now r n' :
      write_memory sha256 created_at trust float_of embeds id race data now n = Ok (r, n') →
      Forall (λ u, u ∉ used) (id :: map memory_id race) →
      mem_step (used, n) (list_to_set (id :: map memory_id race) ∪ used, n')
  | step_put used n id race w r n' :
      put sha256 id race w n = Ok (r, n') → Forall (λ u, u ∉ used) (id :: map memory_id race) →
      mem_step (used, n) (list_to_set (id :: map memory_id race) ∪ used, n')
  | step_tombstone used n id race h did sig ch why r n' :
      tombstone_memory sha256 id race h did sig ch why n = Ok (r, n') →
      Forall (λ u, u ∉ used) (id :: map memory_id race) →
      mem_step (used, n) (list_to_set (id :: map memory_id race) ∪ used, n')
  | step_delete used n id n' : delete_memory id n = Ok n' → mem_step (used, n) (used, n')
  | step_gc used n by_age cap policy age conf now :
      mem_step (used, n) (used, (garbage_collect created_at float_of by_age cap policy age conf now n).1).

Lemma mem_step_changes s1 s2 :
  mem_step s1 s2 → ∃ new, changes new (records s1.2) (records s2.2) ∧
    Forall (λ u, u ∉ s1.1) new ∧ s2.1 = list_to_set new ∪ s1.1.
Proof.
  destruct 1 as [used n embeds id race data now r n' Hw Hu|used n id race w r n' Hp Hu
    |used n id race h did sig ch why r n' Ht Hu|used n id n' Hd|used n by_age cap policy age conf now].
  - exists (id :: map memory_id race). split; [by eapply changes_write|by split].
  - exists (id :: map memory_id race). split; [by eapply changes_put|by split].
  - exists (id :: map memory_id race). split; [by eapply changes_tombstone|by split].
  - exists []. split; [by eapply changes_delete_memory|]. split; [constructor|cbn; set_solver].
  - exists []. split; [apply changes_gc|]. split; [constructor|cbn; set_solver].
Qed.

Lemma mem_run_changes s1 s2 :
  rtc mem_step s1 s2 → ∃ new, changes new (records s1.2) (records s2.2) ∧
    Forall (λ u, u ∉ s1.1) new ∧ s2.1 = list_to_set new ∪ s1.1.
Proof.
  induction 1 as [s|s1 s2 s3 Hs _ (new'&Hc'&Hn'&Hu')].
  - exists []. split; [apply changes_refl|]. split; [constructor|cbn; set_solver].
  - apply mem_step_changes in Hs as (new&Hc&Hn&Hu). exists (new ++ new'). split; [by eapply changes_trans|]. split.
    + apply Forall_app. split; [done|]. eapply Forall_impl; [exact Hn'|]. cbn. rewrite Hu. set_solver.
    + rewrite Hu', Hu, list_to_set_app_L. set_solver.
Qed.
End operations.

Lemma fetch_update h n t P f :
  _fetch_by_hash h n = Some t → (∀ r, content_hash (f r) = content_hash r) → P t = true →
  _fetch_by_hash h (update P f n) = Some (f t).
Proof.
  unfold _fetch_by_hash. intros ([i y]&Hf&->)%fmap_Some Hh HP. cbn [snd] in *.
  apply list_find_Some in Hf as (Hi&Hhas&Hbefore). cbn [update records set_records].
  change (map (λ r, if P r then f r else r) (records n)) with ((λ r, if P r then f r else r) <$> records n).
  assert (list_find (has_hash h) ((λ r, if P r then f r else r) <$> records n) = Some (i, f y)) as ->; [|done].
  apply list_find_Some. rewrite list_lookup_fmap, Hi. cbn [fmap option_fmap option_map]. rewrite HP.
  split; [done|]. split; [by unfold has_hash; rewrite Hh|].
  intros j z Hj Hlt. rewrite list_lookup_fmap in Hj. apply fmap_Some in Hj as (x&Hx&->). intros Hz.
  apply (Hbefore j x Hx Hlt). unfold has_hash in *. destruct (P x); [by rewrite Hh in Hz|done].
Qed.

(** ** What a new record supersedes *)

Section supersede.
Context (trust : uuid → option spec_float).

Lemma parent_trusts_spec rows (m : gmap string (option spec_float)) h :
  foldl (λ (m : gmap string (option spec_float)) r, match content_hash r with Some h => <[h := _author_trust trust (source_agent_id r)]> m | None => m end)
    m rows !! h =
  match list_find (has_hash h) (reverse rows) with
  | Some (_, r) => Some (_author_trust trust (source_agent_id r))
  | None => m !! h
  end.
Proof.
  revert m. induction rows as [|r rows IH]; intros m; [done|]. cbn [foldl]. rewrite IH, reverse_cons.
  destruct (list_find (has_hash h) (reverse rows)) as [[i x]|] eqn:E; [by rewrite (list_find_app_l _ _ _ _ _ E)|].
  rewrite (list_find_app_r _ _ _ E). cbn [list_find]. unfold has_hash at 1. destruct (decide (content_hash r = Some h)) as [Hh|Hh].
  - rewrite Hh. cbn. by rewrite lookup_insert_eq.
  - destruct (content_hash r) as [h'|]; [|done]. by rewrite lookup_insert_ne by congruence.
Qed.

(** The rule: an active parent whose agent is trusted less, by the delta *)
Definition outranked (new_record r : MemoryRecord) : bool :=
  flips (parent_hashes new_record) r &&
  f_ge (neutral (_author_trust trust (source_agent_id new_record)))
    (f_add (neutral (_author_trust trust (source_agent_id r))) _DEFAULT_SUPERSEDE_TRUST_DELTA).

Lemma elem_of_parents new_record n r h :
  r ∈ records n → content_hash r = Some h → h ∈ parent_hashes new_record → r ∈ parent_rows new_record n.
Proof.
  intros Hr Hh Hp. apply list_elem_of_filter. split; [|done]. rewrite Hh. by apply bool_decide_eq_true.
Qed.

Lemma parent_trust new_record n r h :
  NoDup (omap content_hash (records n)) → r ∈ records n → content_hash r = Some h → h ∈ parent_hashes new_record →
  parent_trusts trust (parent_rows new_record n) !! h = Some (_author_trust trust (source_agent_id r)).
Proof.
  intros Hnd Hr Hh Hp. unfold parent_trusts. rewrite parent_trusts_spec.
  destruct (list_find (has_hash h) (reverse (parent_rows new_record n))) as [[i x]|] eqn:E.
  - apply list_find_Some in E as (Hx&Hxh&_). apply list_elem_of_lookup_2, elem_of_reverse, list_elem_of_filter in Hx as [_ Hx].
    by rewrite (NoDup_omap_inj content_hash (records n) x r h).
  - apply list_find_None in E. rewrite Forall_forall in E. destruct (E r); [|done]. apply elem_of_reverse.
    by eapply elem_of_parents.
Qed.

Lemma flips_decision new_record n r targets :
  NoDup (omap content_hash (records n)) → r ∈ records n →
  targets = filter (λ h, outranks (neutral (_author_trust trust (source_agent_id new_record))) _DEFAULT_SUPERSEDE_TRUST_DELTA
    (parent_trusts trust (parent_rows new_record n)) h = true) (parent_hashes new_record) →
  flips targets r = outranked new_record r.
Proof.
  intros Hnd Hr ->. unfold outranked, flips. destruct (content_hash r) as [h|] eqn:Eh; [|done]. cbn [from_option].
  destruct (decide (h ∈ parent_hashes new_record)) as [Hp|Hp].
  - rewrite (bool_decide_eq_true_2 (h ∈ parent_hashes new_record)) by done. rewrite andb_true_l, andb_comm. f_equal.
    apply eq_true_iff_eq. rewrite bool_decide_eq_true, list_elem_of_filter. unfold outranks.
    rewrite (parent_trust new_record n r h Hnd Hr Eh Hp). cbn [default]. naive_solver.
  - rewrite (bool_decide_eq_false_2 (h ∈ parent_hashes new_record)) by done.
    rewrite bool_decide_eq_false_2; [done|]. by intros [_ ?]%list_elem_of_filter.
Qed.

Lemma decide_targets t ps m δ :
  let d := decide_supersede t ps m δ in
  target_hashes d = filter (λ h, outranks (neutral t) δ m h = true) ps ∧ (supersede d = false → target_hashes d = []).
Proof.
  cbv zeta. unfold decide_supersede. destruct ps as [|p ps]; [done|].
  destruct (filter _ (p :: ps)) eqn:E; by split.
Qed.

Lemma supersede_records new_record n :
  NoDup (omap content_hash (records n)) → author_did new_record ≠ None → author_did new_record ≠ Some "" →
  records (apply_supersede_rules trust new_record n).1 =
    map (λ r, if outranked new_record r then set_state SUPERSEDED r else r) (records n).
Proof.
  intros Hnd Hn He. assert ((∀ r, r ∈ records n → outranked new_record r = false) →
    records n = map (λ r, if outranked new_record r then set_state SUPERSEDED r else r) (records n)) as Hid.
  { intros Hall. rewrite <-(List.map_id (records n)) at 1. apply List.map_ext_in. intros r Hr%list_elem_of_In.
    by rewrite (Hall r Hr). }
  unfold apply_supersede_rules. destruct (parent_hashes new_record) as [|p0 ps] eqn:Ep.
  { apply Hid. intros r _. unfold outranked, flips. rewrite Ep. by destruct (content_hash r). }
  rewrite <-Ep. destruct (author_did new_record) as [a|]; [|done]. cbn [from_option].
  assert (str_empty a = false) as -> by (by destruct a).
  set (d := decide_supersede _ _ _ _).
  destruct (decide_targets (_author_trust trust (source_agent_id new_record)) (parent_hashes new_record)
    (parent_trusts trust (parent_rows new_record n)) _DEFAULT_SUPERSEDE_TRUST_DELTA) as [Ht Hf]. fold d in Ht, Hf.
  destruct (parent_rows new_record n) as [|x rows] eqn:Er.
  { apply Hid. intros r Hr. unfold outranked, flips. destruct (content_hash r) as [h|] eqn:Eh; [|done]. cbn [from_option].
    rewrite bool_decide_eq_false_2; [done|]. intros Hp. pose proof (elem_of_parents _ _ _ _ Hr Eh Hp) as Hin.
    rewrite Er in Hin. by apply elem_of_nil in Hin. }
  rewrite <-Er in Ht. destruct (supersede d) eqn:Es; cbn [fst].
  - cbn [update records set_records]. apply List.map_ext_in. intros r Hr%list_elem_of_In.
    by rewrite (flips_decision new_record n r _ Hnd Hr Ht).
  - apply Hid. intros r Hr. rewrite <-(flips_decision new_record n r _ Hnd Hr Ht), (Hf eq_refl).
    unfold flips. destruct (content_hash r); [cbn|done]. done.
Qed.
End supersede.

(** ** Theorems *)

Section claims.
Context (sha256 : string → list Byte.byte) `{Ed25519}.
Context (created_at : uuid → Z) (trust : uuid → option spec_float) (float_of : pyfloat → spec_float).

(** C8: records only age.  However writes, tombstones, deletions, collections
    and records from peers follow each other, a row that is still there has
    the same identifier as before and a state that is not earlier in the order
    active, superseded, historical, tombstoned; what its signature covers, the
    signature and the hash are unchanged if it is signed; and no row that was
    collected comes back under its identifier. *)
Theorem records_age used n used' n' :
  rtc (mem_step sha256 created_at trust float_of) (used, n) (used', n') →
  (∀ r, r ∈ records n → memory_id r ∈ used) →
  ∀ r', r' ∈ records n' → memory_id r' ∈ used →
    ∃ r, r ∈ records n ∧ memory_id r = memory_id r' ∧ rank (record_state r) ≤ rank (record_state r') ∧
      (is_signed r = true →
         row_body r' = row_body r ∧ content_hash r' = content_hash r ∧ signature r' = signature r).
Proof.
  intros (new&Hc&Hn&_)%mem_run_changes Hids r' Hr' Hu. destruct (Hc r' Hr') as [(r&Hr&He)|Hnew].
  - exists r. split; [done|]. split; [symmetry; by apply evolves_id|].
    split; [by apply evolves_rank|by apply evolves_signed].
  - rewrite Forall_forall in Hn. by destruct (Hn _ Hnew).
Qed.

(** C25: a collection removes a content-addressed row, other than an entry of
    the semantic cache, only if it was created before the grace period and is
    tombstoned or expires in this very run. *)
Theorem gc_keeps by_age cap policy age conf now n r :
  (∀ l, by_age l ⊆ l) → NoDup (map memory_id (records n)) →
  r ∈ records n → is_Some (content_hash r) → memory_type r ≠ CACHE →
  (∃ r', r' ∈ records (garbage_collect created_at float_of by_age cap policy age conf now n).1 ∧
     memory_id r' = memory_id r ∧ content_hash r' = content_hash r ∧
     rank (record_state r) ≤ rank (record_state r')) ∨
  ((created created_at r < tombstone_cutoff (default (default_policy age conf) policy) now)%Z ∧
   (record_state r = TOMBSTONED ∨ expires_now now r = true)).
Proof.
  intros Hby Hnd Hr Hh Ht.
  destruct (survive_gc created_at float_of by_age cap policy age conf now n r Hby Hnd Hr Hh Ht) as [(r'&Hr'&He)|?];
    [|by right].
  left. exists r'. split; [done|]. split; [by apply evolves_id|]. split; [|by apply evolves_rank].
  by destruct He as (s&p&c&->&_).
Qed.

(** C26: only the author deletes.  A tombstone is accepted only for a record
    that is there and not yet tombstoned, in the name of its author, with a
    signature that verifies under the author's key over a META record which
    names the target as its parent and carries the marker; from then on the
    node does not serve the target. *)
Theorem tombstone_authorised id race h did sig ch why n r n' :
  tombstone_memory sha256 id race h did sig ch why n = Ok (r, n') →
  ∃ target, _fetch_by_hash h n = Some target ∧ author_did target = Some did ∧ record_state target ≠ TOMBSTONED ∧
    let w := tombstone_write target h did sig ch why in
    signed_by_author (body_of_write w) sig ∧
    w_parent_hashes w = Some [h] ∧ tombstone_target_hash (w_metadata w) = (if str_empty h then None else Some h) ∧
    is_ok (get_memory_by_hash h n') = false.
Proof.
  unfold tombstone_memory. intros (t&Ht&(u&Ha&([r1 n1]&Hp&[= <- <-])%res_bind_Ok)%res_bind_Ok)%res_bind_Ok.
  unfold _load_by_hash in Ht. destruct (_fetch_by_hash h n) as [t'|] eqn:Ef; [|done]. injection Ht as ->.
  exists t. split; [done|]. unfold assert_can_tombstone in Ha.
  apply res_bind_Ok in Ha as (u1&Hs%raise_if_Ok&Ha). apply res_bind_Ok in Ha as (u2&Hau%raise_if_Ok&Ha).
  apply res_bind_Ok in Ha as (u3&_&Ha%raise_if_Ok). apply negb_false_iff, bool_decide_eq_true in Ha.
  split; [done|]. split; [by apply bool_decide_eq_false in Hs|]. cbv zeta.
  destruct (put _ _ _ _ _) as [x|e] eqn:Ep; [|done]. injection Hp as ->.
  pose proof Ep as (hash&s&Hres&_)%put_Ok. apply resolve_unkeyed in Hres as Hat.
  assert (s = Some sig) as ->.
  { cbn [tombstone_write w_keypair w_precomputed_signature w_precomputed_hash _resolve_hash_and_signature] in Hres.
    apply res_bind_Ok in Hres as (ch'&_&Hres). apply res_bind_Ok in Hres as (?&_&Hres).
    apply res_bind_Ok in Hres as (?&_&Hres). apply res_bind_Ok in Hres as (?&_&Hres).
    apply res_bind_Ok in Hres as (?&_&Hres). apply res_bind_Ok in Hres as (?&_&Hres).
    apply res_bind_Ok in Hres as (?&_&Hres). apply res_bind_Ok in Hres as (?&_&Hres). by injection Hres. }
  split; [by apply (proj2 Hat)|]. split; [done|]. split.
  { unfold tombstone_target_hash. cbn. unfold build_tombstone_metadata. destruct why as [[|c why]|]; by destruct h. }
  destruct (put_prefix _ _ _ _ _ _ _ Ep) as (_&_&_&_&l&Hl&_).
  pose proof (fetch_app h n n1 l t Hl Ef) as Hf1. unfold get_memory_by_hash.
  destruct (raise_if _ 400%Z); [|done]. cbn [res_bind].
  rewrite (fetch_update h n1 t); [done|done|done|]. by apply bool_decide_eq_true.
Qed.

(** A signed record supersedes exactly the active records it cites whose
    agent is trusted less than its own agent by the delta, agents without a
    score counting as one half; no other row changes. *)
Theorem supersede_spec new_record n :
  NoDup (omap content_hash (records n)) → author_did new_record ≠ None → author_did new_record ≠ Some "" →
  records (apply_supersede_rules trust new_record n).1 =
    map (λ r, if outranked trust new_record r then set_state SUPERSEDED r else r) (records n).
Proof. apply supersede_records. Qed.
End claims.

(** ** A day in the life of a record *)

Definition day_one : uuid → Z := λ _, 0%Z.
Definition no_trust : uuid → option spec_float := λ _, None.
Definition whole_floats (f : pyfloat) : spec_float := match f with FInt z => f_of_Z z | _ => float_half end.
Definition in_order : list MemoryRecord → list MemoryRecord := λ l, l.
Definition hours (h : Z) : Z := (h * HOUR)%Z.

Definition node_of {E} (m : res E node) : node := match m with Ok n => n | Err _ => Crdt.toy_node end.
Definition result_of {E} (m : res E (MemoryRecord * node)) : node := node_of (res_map snd m).
Definition state_of (h : string) (n : node) : option RecordState := record_state <$> _fetch_by_hash h n.

(** The shortest signatures to evaluate the operations with *)
Definition blank_ed25519 : Ed25519 :=
  {| ed_public seed := seed; ed_sign _ _ := [Byte.x01]; ed_verify _ _ _ := true; ed_point _ := true |}.
Definition blank_signature : string := "z2".
Definition did_a : string := "did:key:z6Mkevh7bMWWUda468bFjfFGtDxLXgkG8L46bsaXEwHD9Z3L".
Definition hash_a : string := "zCndjsMGXmp4SM3XD2G7DFka8nYJAzFRiUiqGVLS2ddoS".
Definition tomb_hash : string := "z7A7gr6szfC24BL3J9YJcAEsf5rYx94rsAUXSUbx7cvs7".

Definition row_a : MemoryRecord := {|
  memory_id := UUID 9; workflow_id := Some (UUID 1); source_agent_id := None; memory_type := FACT; content := "text";
  metadata_ := []; confidence := FFrac "0.9"; version := 1; parent_version_id := None; author_did := Some did_a;
  parent_hashes := []; signature := Some blank_signature; content_hash := Some hash_a; record_state := ACTIVE;
  expires_at := None |}.
Definition node_a : node := set_records [row_a] Crdt.toy_node.

Definition collect_at (h : Z) (n : node) : node :=
  (garbage_collect day_one whole_floats in_order 100 None None f0_01 (hours h) n).1.

(** What a round of gossip does with a row that a peer serves *)
Definition receive (r : MemoryRecord) (n : node) : node :=
  match _coerce_record r with
  | Ok record =>
      (Gossip._persist_peer_record (H := blank_ed25519) toy_sha Gossip.toy_fresh Gossip.no_race record
         {| Gossip.known_workflow_ids := ∅; Gossip.known_content_hashes := ∅ |} n n).1.1.2
  | Err _ => n
  end.

Definition deleted_a : node := node_of (delete_memory (UUID 9) node_a).

(** A deleted record is collected after a day; nothing keeps it from being
    taken in again, active, from a peer that still serves it. *)
Example deleted_comes_back :
  (let collected := collect_at 25 deleted_a in
   (state_of hash_a deleted_a, state_of hash_a collected, state_of hash_a (receive row_a collected))) =
  (Some TOMBSTONED, None, Some ACTIVE).
Proof. vm_compute. reflexivity. Qed.

Definition tombed : res memory_exn (MemoryRecord * node) :=
  tombstone_memory (H := blank_ed25519) toy_sha (UUID 20) [] hash_a did_a blank_signature tomb_hash None node_a.

(** A peer that holds the record takes in its tombstone and goes on serving
    the record. *)
Example tombstone_not_applied :
  match tombed with
  | Ok (tombstone, n) =>
      let peer := receive tombstone node_a in
      (state_of hash_a n, state_of tomb_hash peer, state_of hash_a peer) = (Some TOMBSTONED, Some ACTIVE, Some ACTIVE)
  | Err _ => False
  end.
Proof. vm_compute. reflexivity. Qed.

Definition with_expiry (e : Z) (r : MemoryRecord) : MemoryRecord := {|
  memory_id := memory_id r; workflow_id := workflow_id r; source_agent_id := source_agent_id r;
  memory_type := memory_type r; content := content r; metadata_ := metadata_ r; confidence := confidence r;
  version := version r; parent_version_id := parent_version_id r; author_did := author_did r;
  parent_hashes := parent_hashes r; signature := signature r; content_hash := content_hash r;
  record_state := record_state r; expires_at := Some e |}.

(** The grace period counts from the creation of the record: one that expires
    after more than a day is tombstoned and deleted in the same run. *)
Example no_grace_after_a_day :
  records (collect_at 26 (update (λ _, true) (with_expiry (hours 25)) node_a)) = [].
Proof. vm_compute. reflexivity. Qed.

Definition as_cache (r : MemoryRecord) : MemoryRecord := {|
  memory_id := memory_id r; workflow_id := workflow_id r; source_agent_id := source_agent_id r;
  memory_type := CACHE; content := content r; metadata_ := metadata_ r; confidence := confidence r;
  version := version r; parent_version_id := parent_version_id r; author_did := author_did r;
  parent_hashes := parent_hashes r; signature := signature r; content_hash := content_hash r;
  record_state := record_state r; expires_at := expires_at r |}.

(** A signed record of the type cache is deleted at once. *)
Example signed_cache_deleted :
  forallb is_signed (records node_a) = true ∧ records (collect_at 0 (update (λ _, true) as_cache node_a)) = [].
Proof. apply conj; vm_compute; reflexivity. Qed.

(** ** Witnesses *)

Lemma deleted_row : ∃ r, r ∈ records deleted_a ∧ memory_id r = UUID 9.
Proof.
  assert (memory_id <$> head (records deleted_a) = Some (UUID 9)) as (r&Hr&Hid)%fmap_Some by (vm_compute; reflexivity).
  exists r. split; [by apply head_Some_elem_of|done].
Qed.

Lemma all_rows (P : MemoryRecord → Prop) `{∀ r, Decision (P r)} n :
  bool_decide (Forall P (records n)) = true → ∀ r, r ∈ records n → P r.
Proof. intros Hf%bool_decide_eq_true_1. by apply Forall_forall. Qed.

Lemma rows_signed r : r ∈ records node_a → is_signed r = true.
Proof. apply (all_rows (λ r, is_signed r = true)). vm_compute. reflexivity. Qed.

Lemma records_age_witness :
  ∃ r, r ∈ records node_a ∧ is_signed r = true ∧
    ∃ r', r' ∈ records deleted_a ∧ memory_id r = memory_id r' ∧ row_body r' = row_body r.
Proof.
  assert (delete_memory (UUID 9) node_a = Ok deleted_a) as Hd by (vm_compute; reflexivity).
  destruct deleted_row as (r'&Hr'&Hid).
  destruct (records_age toy_sha day_one no_trust whole_floats {[UUID 9]} node_a {[UUID 9]} deleted_a) with (r' := r')
    as (r&Hr&Hi&_&Hb).
  - apply rtc_once. exact (step_delete toy_sha day_one no_trust whole_floats {[UUID 9]} node_a (UUID 9) deleted_a Hd).
  - intros r Hr. apply elem_of_singleton. revert r Hr. apply (all_rows (λ r, memory_id r = UUID 9)). vm_compute. reflexivity.
  - exact Hr'.
  - rewrite Hid. by apply elem_of_singleton.
  - pose proof (rows_signed r Hr) as Hs. exists r. split; [exact Hr|]. split; [exact Hs|]. exists r'. split; [exact Hr'|].
    split; [exact Hi|]. exact (proj1 (Hb Hs)).
Defined.

(** The record of [node_a] has no expiry, so a collection cannot remove it. *)
Lemma gc_keeps_witness :
  ∃ r r', r ∈ records node_a ∧ r' ∈ records (collect_at 1000 node_a) ∧ memory_id r' = memory_id r.
Proof.
  assert (is_Some (head (records node_a))) as (r&Hr%head_Some_elem_of) by (eexists; vm_compute; reflexivity).
  destruct (gc_keeps day_one whole_floats in_order 100 None None f0_01 (hours 1000) node_a r) as [(r'&Hr'&Hid&_)|[_ Hc]].
  - intros l. done.
  - apply (bool_decide_eq_true_1 (NoDup (map memory_id (records node_a)))). vm_compute. reflexivity.
  - exact Hr.
  - pose proof (rows_signed r Hr) as Hs. apply andb_true_iff in Hs as [Hs _]. by apply bool_decide_eq_true in Hs.
  - revert r Hr. apply (all_rows (λ r, memory_type r ≠ CACHE)). vm_compute. reflexivity.
  - exists r, r'. split; [exact Hr|]. split; [exact Hr'|exact Hid].
  - exfalso. assert (¬ (record_state r = TOMBSTONED ∨ expires_now (hours 1000) r = true)) as Hn; [|exact (Hn Hc)].
    clear Hc. revert r Hr. apply (all_rows (λ r, ¬ (record_state r = TOMBSTONED ∨ expires_now (hours 1000) r = true))).
    vm_compute. reflexivity.
Defined.

Lemma tombstone_authorised_witness :
  ∃ r n', tombed = Ok (r, n') ∧ ∃ target, _fetch_by_hash hash_a node_a = Some target ∧ author_did target = Some toy_did.
Proof.
  assert (is_ok tombed = true) as Hok by (vm_compute; reflexivity).
  apply is_ok_Ok in Hok as [[r n'] E]. exists r, n'. split; [exact E|]. unfold tombed in E.
  apply tombstone_authorised in E as (t&Ht&Ha&_). exists t. exact (conj Ht Ha).
Defined.

Lemma supersede_spec_witness :
  ∃ new_record, records (apply_supersede_rules no_trust new_record node_a).1 =
    map (λ r, if outranked no_trust new_record r then set_state SUPERSEDED r else r) (records node_a).
Proof.
  assert (is_Some (head (records node_a))) as (r&Hr%head_Some_elem_of) by (eexists; vm_compute; reflexivity).
  exists r. apply (supersede_spec no_trust r node_a).
  - apply (bool_decide_eq_true_1 (NoDup (omap content_hash (records node_a)))). vm_compute. reflexivity.
  - revert r Hr. apply (all_rows (λ r, author_did r ≠ None)). vm_compute. reflexivity.
  - revert r Hr. apply (all_rows (λ r, author_did r ≠ Some "")). vm_compute. reflexivity.
Defined.
