(* ===== verification/Facts.v ===== *)
(** * Facts: resolving a fact among records that disagree

    Models [services/memory_fact_resolver.py] and what [resolve_fact] of
    [services/memory_service.py] makes of search results.  [exp] is the C
    library's exponential; times are aware, in microseconds, and their text is
    not needed.  [list.sort] is [sort_by] of Prelude.v; its keys are totally
    ordered as long as there is no NaN among the ranks. *)

From Stdlib Require Import Ascii NArith ZArith Lia Floats.SpecFloat.
From stdpp Require Import base tactics strings gmap sorting list.
From S2P Require Import Prelude PyStr Dict Json PyVal PyFloat Merkle Uuid Signer Crdt.

#[local] Open Scope nat_scope.

Inductive ReadMode := PLANNING | AUDIT | SENSITIVE.

#[export] Instance ReadMode_eq_dec : EqDecision ReadMode.
Proof. solve_decision. Defined.

(** The doubles nearest to 0.01, 0.7 and 0.15 *)
Definition _DEFAULT_FRESHNESS_LAMBDA : spec_float := f_div (f_of_Z 1) (f_of_Z 100).
Definition _DEFAULT_AUTHOR_TRUST : spec_float := float_half.
Definition _DEFAULT_SENSITIVE_MIN_CONFIDENCE : spec_float := f_div (f_of_Z 7) (f_of_Z 10).
Definition _DEFAULT_SENSITIVE_RANK_DELTA : spec_float := f_div (f_of_Z 15) (f_of_Z 100).

Record FactCandidate := {
  fc_memory_id : uuid;
  fc_content : string;
  fc_confidence : spec_float;
  fc_author_did : option string;
  fc_author_trust : option spec_float;
  fc_record_state : RecordState;
  fc_content_hash : option string;
  fc_created_at : Z;
  fc_similarity : spec_float;
}.

Record RankedCandidate := {
  candidate : FactCandidate;
  rank : spec_float;
  rc_freshness_factor : spec_float;
  effective_author_trust : spec_float;
}.

Record FactResolution := {
  fr_mode : ReadMode;
  chosen : option FactCandidate;
  fr_candidates : list RankedCandidate;
  requires_hitl : bool;
  conflict_detected : bool;
}.

(** The tunable arguments of a call *)
Record knobs := {
  decay_lambda : spec_float;
  default_author_trust : spec_float;
  sensitive_min_confidence : spec_float;
  sensitive_rank_delta : spec_float;
}.

Section resolver.
Context (exp : spec_float → spec_float).

Definition freshness_factor (now : Z) (lambda : spec_float) (c : FactCandidate) : spec_float :=
  let hours_since := f_max (f_of_Z 0)
        (f_div (f_div (f_of_Z (now - fc_created_at c)) (f_of_Z 1000000)) (f_of_Z 3600)) in
  exp (f_mul (f_neg lambda) hours_since).

Definition score (now : Z) (k : knobs) (c : FactCandidate) : RankedCandidate :=
  let trust := default (default_author_trust k) (fc_author_trust c) in
  let freshness := freshness_factor now (decay_lambda k) c in
  {| candidate := c; rank := f_round 6 (f_mul (f_mul (fc_confidence c) freshness) trust);
     rc_freshness_factor := f_round 6 freshness; effective_author_trust := f_round 6 trust |}.

Definition hash_key (r : RankedCandidate) : string := default "" (fc_content_hash (candidate r)).

(** [key(a) < key(b)]: rank and time descending, then the hash *)
Definition key_lt (a b : RankedCandidate) : bool :=
  if f_lt (rank b) (rank a) then true
  else if f_lt (rank a) (rank b) then false
  else if (fc_created_at (candidate b) <? fc_created_at (candidate a))%Z then true
  else if (fc_created_at (candidate a) <? fc_created_at (candidate b))%Z then false
  else String.ltb (hash_key a) (hash_key b).

Definition sort_by_key : list RankedCandidate → list RankedCandidate := sort_by key_lt.

Definition _rank_candidates (now : Z) (k : knobs) (cs : list FactCandidate) : list RankedCandidate :=
  sort_by_key (map (score now k) cs).

(** One turn of the loop over the rivals of the top candidate *)
Definition rivals (k : knobs) (top other : RankedCandidate) : bool :=
  negb (f_lt (fc_confidence (candidate other)) (sensitive_min_confidence k)) &&
  negb (String.eqb (fc_content (candidate other)) (fc_content (candidate top))) &&
  f_le (f_abs (f_sub (rank top) (rank other))) (sensitive_rank_delta k).

Definition _has_high_confidence_conflict (k : knobs) (ranked : list RankedCandidate) : bool :=
  match ranked with
  | top :: ((_ :: _) as others) =>
      if f_lt (fc_confidence (candidate top)) (sensitive_min_confidence k) then false
      else existsb (rivals k top) others
  | _ => false
  end.

Definition is_active (c : FactCandidate) : bool := bool_decide (fc_record_state c = ACTIVE).

Definition resolve_fact (mode : ReadMode) (now : Z) (k : knobs) (candidates : list FactCandidate) : FactResolution :=
  let ranked := _rank_candidates now k (filter (λ c, is_active c = true) candidates) in
  let conflict := _has_high_confidence_conflict k ranked in
  match mode, ranked with
  | AUDIT, _ =>
      {| fr_mode := mode; chosen := None; fr_candidates := _rank_candidates now k candidates;
         requires_hitl := false; conflict_detected := conflict |}
  | _, [] =>
      {| fr_mode := mode; chosen := None; fr_candidates := []; requires_hitl := false; conflict_detected := false |}
  | _, winner :: _ =>
      if bool_decide (mode = SENSITIVE) && conflict then
        {| fr_mode := mode; chosen := None; fr_candidates := ranked; requires_hitl := true; conflict_detected := true |}
      else
        {| fr_mode := mode; chosen := Some (candidate winner); fr_candidates := ranked; requires_hitl := false;
           conflict_detected := conflict |}
  end.

(** ** The service *)

Record FactResolutionRequest := {
  fq_mode : ReadMode;
  fq_include_states : list RecordState;
  fq_sensitive_min_confidence : spec_float;
  fq_sensitive_rank_delta : spec_float;
}.

Record RankedCandidateOut := {
  ro_memory : MemoryRecord;
  ro_rank : spec_float;
  ro_similarity : spec_float;
  ro_freshness_factor : spec_float;
  ro_effective_author_trust : spec_float;
}.

Record FactResolutionResponse := {
  fp_mode : ReadMode;
  fp_chosen : option MemoryRecord;
  fp_candidates : list RankedCandidateOut;
  fp_requires_hitl : bool;
  fp_conflict_detected : bool;
}.

(** The lifecycle states that the search is asked for *)
Definition search_states (q : FactResolutionRequest) : list RecordState :=
  match fq_mode q, fq_include_states q with
  | AUDIT, [] => [ACTIVE; SUPERSEDED; HISTORICAL]
  | _, states => states
  end.

Context (float_of : pyfloat → spec_float) (created_at : uuid → Z) (trust_by_agent : uuid → option spec_float).

Definition candidate_of (r : MemoryRecord * spec_float) : FactCandidate := {|
  fc_memory_id := memory_id r.1; fc_content := content r.1; fc_confidence := float_of (confidence r.1);
  fc_author_did := author_did r.1; fc_author_trust := source_agent_id r.1 ≫= trust_by_agent;
  fc_record_state := record_state r.1; fc_content_hash := content_hash r.1;
  fc_created_at := created_at (memory_id r.1); fc_similarity := r.2 |}.

(** [{r.memory.memory_id: ... for r in search_results}]: the last one counts. *)
Definition by_id (results : list (MemoryRecord * spec_float)) (id : uuid) : option (MemoryRecord * spec_float) :=
  snd <$> list_find (λ r, memory_id r.1 = id) (reverse results).

Definition ranked_out (results : list (MemoryRecord * spec_float)) (c : RankedCandidate) : option RankedCandidateOut :=
  r ← by_id results (fc_memory_id (candidate c));
  Some {| ro_memory := r.1; ro_rank := rank c; ro_similarity := r.2; ro_freshness_factor := rc_freshness_factor c;
          ro_effective_author_trust := effective_author_trust c |}.

(** [results] is what the search found for the request, [now] the clock. *)
Definition service_resolve_fact (q : FactResolutionRequest) (results : list (MemoryRecord * spec_float)) (now : Z)
    : FactResolutionResponse :=
  match results with
  | [] => {| fp_mode := fq_mode q; fp_chosen := None; fp_candidates := []; fp_requires_hitl := false;
             fp_conflict_detected := false |}
  | _ =>
      let k := {| decay_lambda := _DEFAULT_FRESHNESS_LAMBDA; default_author_trust := _DEFAULT_AUTHOR_TRUST;
                  sensitive_min_confidence := fq_sensitive_min_confidence q;
                  sensitive_rank_delta := fq_sensitive_rank_delta q |} in
      let resolution := resolve_fact (fq_mode q) now k (map candidate_of results) in
      {| fp_mode := fr_mode resolution;
         fp_chosen := chosen resolution ≫= λ c, fst <$> by_id results (fc_memory_id c);
         fp_candidates := omap (ranked_out results) (fr_candidates resolution);
         fp_requires_hitl := requires_hitl resolution; fp_conflict_detected := conflict_detected resolution |}
  end.
End resolver.

(** ** The order of the candidates *)

Definition key_le (a b : RankedCandidate) : Prop := key_lt b a = false.

Definition comparable (r : RankedCandidate) : Prop := is_nan (rank r) = false.

(** Lexicographically: the rank decides, then the time, then the hash. *)
Lemma key_le_iff a b :
  comparable a → comparable b →
  key_le a b ↔
  f_le (rank b) (rank a) = true ∧
  (f_le (rank a) (rank b) = true →
   (fc_created_at (candidate b) ≤ fc_created_at (candidate a))%Z ∧
   ((fc_created_at (candidate a) ≤ fc_created_at (candidate b))%Z → String.leb (hash_key a) (hash_key b) = true)).
Proof.
  unfold key_le, key_lt, comparable. intros Ha Hb. rewrite !f_lt_le, str_ltb_leb by done.
  destruct (f_le (rank b) (rank a)), (f_le (rank a) (rank b)); cbn; try naive_solver.
  destruct (Z.ltb_spec (fc_created_at (candidate a)) (fc_created_at (candidate b))),
    (Z.ltb_spec (fc_created_at (candidate b)) (fc_created_at (candidate a))); try lia; try naive_solver lia.
  rewrite negb_false_iff. naive_solver lia.
Qed.

Lemma key_lt_le a b : comparable a → comparable b → key_lt a b = true → key_le a b.
Proof.
  intros Ha Hb H. apply key_le_iff; [done..|]. revert H. unfold key_lt. rewrite !f_lt_le, str_ltb_leb by done.
  destruct (f_le_total (rank a) (rank b) Ha Hb) as [E|E]; rewrite E;
    [destruct (f_le (rank b) (rank a)) eqn:E2|destruct (f_le (rank a) (rank b)) eqn:E2]; cbn; try done.
  all: destruct (Z.ltb_spec (fc_created_at (candidate b)) (fc_created_at (candidate a)));
    [intros _; split_and!; [done|lia..]|].
  all: destruct (Z.ltb_spec (fc_created_at (candidate a)) (fc_created_at (candidate b))); [done|].
  all: rewrite negb_true_iff; intros Hs; destruct (String.leb_total (hash_key a) (hash_key b)); [|congruence].
  all: split_and!; [done|]; intros _; split; [lia|done].
Qed.

Lemma key_le_trans a b c :
  comparable a → comparable b → comparable c → key_le a b → key_le b c → key_le a c.
Proof.
  intros Ha Hb Hc. rewrite !key_le_iff by done. intros [H1 H2] [H3 H4]. split; [by eapply f_le_trans|].
  intros H5. assert (f_le (rank a) (rank b) = true) as E1 by (by eapply f_le_trans).
  assert (f_le (rank b) (rank c) = true) as E2 by (by eapply f_le_trans).
  specialize (H2 E1) as [? H2]. specialize (H4 E2) as [? H4]. split; [lia|]. intros ?.
  eapply str_leb_trans; [apply H2|apply H4]; lia.
Qed.

(** Neither precedes the other: equal ranks, times and hashes, where a missing hash
    counts as the empty one *)
Definition same_key (a b : RankedCandidate) : Prop :=
  f_le (rank a) (rank b) = true ∧ f_le (rank b) (rank a) = true ∧
  fc_created_at (candidate a) = fc_created_at (candidate b) ∧ hash_key a = hash_key b.

Lemma key_le_antisym a b : comparable a → comparable b → key_le a b → key_le b a → same_key a b.
Proof.
  intros Ha Hb. rewrite !key_le_iff by done. intros [H1 H2] [H3 H4].
  destruct (H2 H3) as [? H5], (H4 H1) as [? H6]. split_and!; [done..|lia|].
  apply String.leb_antisym; [apply H5|apply H6]; lia.
Qed.

(** ** Sorting *)

Lemma sort_by_key_perm l : sort_by_key l ≡ₚ l.
Proof. apply sort_by_perm. Qed.

Lemma sort_by_key_sorted l : Forall comparable l → StronglySorted key_le (sort_by_key l).
Proof. apply sort_by_sorted; [exact key_lt_le|exact key_le_trans]. Qed.

Lemma sort_by_key_proper l l' :
  Forall comparable l → (∀ x y, x ∈ l → y ∈ l → same_key x y → x = y) →
  l ≡ₚ l' → sort_by_key l = sort_by_key l'.
Proof.
  intros Hc Hinj Hp. apply (StronglySorted_unique_strong key_le).
  - intros x y Hx Hy H1 H2. rewrite sort_by_key_perm in Hx, Hy. rewrite <-Hp in Hy.
    rewrite Forall_forall in Hc. apply Hinj; [done..|]. apply key_le_antisym; auto.
  - by apply sort_by_key_sorted.
  - apply sort_by_key_sorted. by rewrite <-Hp.
  - by rewrite !sort_by_key_perm.
Qed.

Section theorems.
Context (exp : spec_float → spec_float).

Local Abbreviation scored := (score exp).

(** The arguments at which the ranking is an order *)
Definition ranked_ok (now : Z) (k : knobs) (cs : list FactCandidate) : Prop :=
  ∀ c, c ∈ cs → is_nan (rank (scored now k c)) = false.

Definition active_only (cs : list FactCandidate) : list FactCandidate := filter (λ c, is_active c = true) cs.

#[local] Instance active_proper : Proper ((≡ₚ) ==> (≡ₚ)) active_only.
Proof. intros l l' Hp. unfold active_only. by rewrite Hp. Qed.

Lemma ranked_ok_comparable now k cs : ranked_ok now k cs → Forall comparable (map (scored now k) cs).
Proof. intros H. apply Forall_forall. intros r (c & -> & Hc)%list_elem_of_fmap. by apply H. Qed.

Lemma ranked_ok_active now k cs : ranked_ok now k cs → ranked_ok now k (active_only cs).
Proof. intros H c [_ Hc]%list_elem_of_filter. by apply H. Qed.

(** No two candidates have the same key. *)
Definition told_apart (now : Z) (k : knobs) (cs : list FactCandidate) : Prop :=
  ∀ c c', c ∈ cs → c' ∈ cs → same_key (scored now k c) (scored now k c') → c = c'.

Lemma rank_candidates_proper now k cs cs' :
  ranked_ok now k cs →
  told_apart now k cs →
  cs ≡ₚ cs' → _rank_candidates exp now k cs = _rank_candidates exp now k cs'.
Proof.
  intros Hok Hinj Hp. apply sort_by_key_proper; [by apply ranked_ok_comparable| |by rewrite Hp].
  intros r r' (c & -> & Hc)%list_elem_of_fmap (c' & -> & Hc')%list_elem_of_fmap E. by rewrite (Hinj c c').
Qed.

Lemma resolve_perm' mode now k cs cs' :
  cs ≡ₚ cs' → ranked_ok now k cs →
  told_apart now k cs →
  resolve_fact exp mode now k cs = resolve_fact exp mode now k cs'.
Proof.
  intros Hp Hok Hinj. unfold resolve_fact. fold (active_only cs) (active_only cs').
  rewrite (rank_candidates_proper now k (active_only cs) (active_only cs')); [|by apply ranked_ok_active| |by rewrite Hp].
  - by rewrite (rank_candidates_proper now k cs cs').
  - intros c c' [_ Hc]%list_elem_of_filter [_ Hc']%list_elem_of_filter. by apply Hinj.
Qed.

(** The head of the ranking is a candidate of maximal rank. *)
Lemma rank_candidates_head now k cs w rest :
  ranked_ok now k cs → _rank_candidates exp now k cs = w :: rest →
  candidate w ∈ cs ∧ w = scored now k (candidate w) ∧ w :: rest ≡ₚ map (scored now k) cs ∧
  ∀ c, c ∈ cs → f_le (rank (scored now k c)) (rank w) = true.
Proof.
  intros Hok E. assert (w :: rest ≡ₚ map (scored now k) cs) as Hp by (by rewrite <-E; apply sort_by_key_perm).
  assert (w ∈ map (scored now k) cs) as Hw by (rewrite <-Hp; left).
  pose proof (sort_by_key_sorted _ (ranked_ok_comparable now k cs Hok)) as Hs.
  unfold _rank_candidates in E. rewrite E in Hs. inversion Hs as [|? ? _ Hall]; subst.
  apply list_elem_of_fmap in Hw as (c & -> & Hc). split_and!; [done..|].
  intros c' Hc'. assert (scored now k c' ∈ scored now k c :: rest) as [->|Hr]%elem_of_cons
    by (rewrite Hp; by apply list_elem_of_fmap_2); [by apply f_le_refl, Hok|].
  rewrite Forall_forall in Hall. apply Hall, key_le_iff in Hr as [H _]; [done|by apply Hok..].
Qed.

(** Whether the leading candidate [top] has a rival *)
Definition contested (now : Z) (k : knobs) (cs : list FactCandidate) (top : FactCandidate) : Prop :=
  f_lt (fc_confidence top) (sensitive_min_confidence k) = false ∧
  ∃ c, c ∈ active_only cs ∧ f_lt (fc_confidence c) (sensitive_min_confidence k) = false ∧ fc_content c ≠ fc_content top ∧
    f_le (f_abs (f_sub (rank (scored now k top)) (rank (scored now k c)))) (sensitive_rank_delta k) = true.

Lemma conflict_iff now k cs w rest :
  ranked_ok now k cs → _rank_candidates exp now k (active_only cs) = w :: rest →
  _has_high_confidence_conflict k (w :: rest) = true ↔ contested now k cs (candidate w).
Proof.
  intros Hok E. destruct (rank_candidates_head now k _ w rest (ranked_ok_active _ _ _ Hok) E) as (Hw & Ew & Hp & _).
  unfold contested. rewrite <-Ew. transitivity
    (f_lt (fc_confidence (candidate w)) (sensitive_min_confidence k) = false ∧ existsb (rivals k w) rest = true).
  { destruct rest; cbn -[f_lt]; [naive_solver|]. destruct (f_lt _ _); naive_solver. }
  apply and_iff_compat_l. rewrite existsb_exists. unfold rivals. split.
  - intros (r & Hr & H). rewrite !andb_true_iff, !negb_true_iff, String.eqb_neq in H. destruct H as [[H1 H2] H3].
    assert (r ∈ w :: rest) as Hin by (right; by apply list_elem_of_In).
    rewrite Hp in Hin. apply list_elem_of_fmap in Hin as (c & -> & Hc). eauto.
  - intros (c & Hc & H1 & H2 & H3). exists (scored now k c). cbn. rewrite !andb_true_iff, !negb_true_iff, String.eqb_neq.
    split_and!; try done. assert (scored now k c ∈ w :: rest) as [E2|Hr]%elem_of_cons
      by (rewrite Hp; by apply list_elem_of_fmap_2); [by rewrite <-E2 in H2|by apply list_elem_of_In].
Qed.

(** What the three modes answer, in terms of the candidates *)
Lemma resolve_spec' mode now k cs :
  ranked_ok now k cs →
  let r := resolve_fact exp mode now k cs in
  fr_candidates r ≡ₚ map (scored now k) (if bool_decide (mode = AUDIT) then cs else active_only cs) ∧
  (requires_hitl r = true ↔ mode = SENSITIVE ∧ conflict_detected r = true) ∧
  match chosen r with
  | Some c => mode ≠ AUDIT ∧ requires_hitl r = false ∧ c ∈ active_only cs ∧
              (∀ c', c' ∈ active_only cs → f_le (rank (scored now k c')) (rank (scored now k c)) = true) ∧
              (conflict_detected r = true ↔ contested now k cs c)
  | None => mode = AUDIT ∨ active_only cs = [] ∨ requires_hitl r = true
  end.
Proof.
  intros Hok. unfold resolve_fact. fold (active_only cs).
  pose proof (sort_by_key_perm (map (scored now k) cs)) as Hall.
  pose proof (sort_by_key_perm (map (scored now k) (active_only cs))) as Hact.
  fold (_rank_candidates exp now k cs) in Hall. fold (_rank_candidates exp now k (active_only cs)) in Hact.
  destruct (_rank_candidates exp now k (active_only cs)) as [|w rest] eqn:E.
  { apply Permutation_nil_l in Hact. assert (active_only cs = []) as Hn by (by destruct (active_only cs)).
    destruct mode; cbn; rewrite ?Hn; split_and!; try done; naive_solver. }
  destruct (rank_candidates_head now k _ w rest (ranked_ok_active _ _ _ Hok) E) as (Hw & Ew & _ & Hmax).
  pose proof (conflict_iff now k cs w rest Hok E) as Hc. rewrite Ew in Hmax.
  destruct mode, (_has_high_confidence_conflict k (w :: rest));
    cbn [bool_decide decide decide_rel andb]; cbn -[score f_le]; split_and!; try done; try naive_solver.
Qed.
End theorems.

(** ** The service's answer *)

Section service.
Context (exp : spec_float → spec_float) (float_of : pyfloat → spec_float).
Context (created_at : uuid → Z) (trust_by_agent : uuid → option spec_float).

Local Abbreviation to_candidate := (candidate_of float_of created_at trust_by_agent).
Local Abbreviation service := (service_resolve_fact exp float_of created_at trust_by_agent).

(** The settings that the service passes on *)
Definition knobs_of (q : FactResolutionRequest) : knobs := {|
  decay_lambda := _DEFAULT_FRESHNESS_LAMBDA; default_author_trust := _DEFAULT_AUTHOR_TRUST;
  sensitive_min_confidence := fq_sensitive_min_confidence q;
  sensitive_rank_delta := fq_sensitive_rank_delta q |}.

Definition active_results (results : list (MemoryRecord * spec_float)) : list (MemoryRecord * spec_float) :=
  filter (λ r, record_state r.1 = ACTIVE) results.

Lemma by_id_spec results r :
  NoDup (map (λ r, memory_id r.1) results) → r ∈ results → by_id results (memory_id r.1) = Some r.
Proof.
  intros Hnd Hr. unfold by_id. destruct (list_find _ (reverse results)) as [[i r']|] eqn:E; cbn.
  - apply list_find_Some in E as (Hi & Eid & _). apply list_elem_of_lookup_2 in Hi. rewrite elem_of_reverse in Hi.
    f_equal. by apply (NoDup_map_inj (λ r : MemoryRecord * spec_float, memory_id r.1) results r' r Hnd Hi Hr).
  - apply list_find_None in E. rewrite Forall_forall in E. destruct (E r); [by apply elem_of_reverse|done].
Qed.

Lemma omap_map_Some {A B C} (f : B → option C) (g : A → B) (h : A → C) (l : list A) :
  (∀ x, x ∈ l → f (g x) = Some (h x)) → omap f (map g l) = map h l.
Proof.
  induction l as [|x l IH]; intros H; cbn; [done|]. rewrite H by left. f_equal. apply IH. intros y Hy. apply H. by right.
Qed.

Lemma active_candidates results : active_only (map to_candidate results) = map to_candidate (active_results results).
Proof.
  unfold active_only, active_results. induction results as [|r l IH]; [done|]. cbn [map]. rewrite !filter_cons, IH.
  unfold is_active at 1. cbn [fc_record_state candidate_of]. by repeat case_decide; try case_bool_decide.
Qed.

Lemma service_resolve_fact_eq q results now :
  results ≠ [] →
  let r := resolve_fact exp (fq_mode q) now (knobs_of q) (map to_candidate results) in
  service q results now = {|
    fp_mode := fr_mode r; fp_chosen := chosen r ≫= λ c, fst <$> by_id results (fc_memory_id c);
    fp_candidates := omap (ranked_out results) (fr_candidates r);
    fp_requires_hitl := requires_hitl r; fp_conflict_detected := conflict_detected r |}.
Proof. by destruct results. Qed.

Lemma service_resolve_spec q results now :
  NoDup (map (λ r, memory_id r.1) results) →
  ranked_ok exp now (knobs_of q) (map to_candidate results) →
  map ro_memory (fp_candidates (service q results now)) ≡ₚ
    map fst (if bool_decide (fq_mode q = AUDIT) then results else active_results results) ∧
  match fp_chosen (service q results now) with
  | Some m => fq_mode q ≠ AUDIT ∧ fp_requires_hitl (service q results now) = false ∧ m ∈ map fst (active_results results)
  | None => fq_mode q = AUDIT ∨ active_results results = [] ∨ fp_requires_hitl (service q results now) = true
  end.
Proof.
  intros Hnd Hok. destruct (decide (results = [])) as [->|Hne]; [cbn; case_bool_decide; split; auto|].
  rewrite (service_resolve_fact_eq q results now Hne). cbn [fp_candidates fp_chosen fp_requires_hitl].
  destruct (resolve_spec' exp (fq_mode q) now (knobs_of q) _ Hok) as (Hcs & _ & Hch). rewrite active_candidates in *.
  assert (∀ l, l ⊆ results → omap (ranked_out results) (map (score exp now (knobs_of q)) (map to_candidate l)) =
    map (λ r, let s := score exp now (knobs_of q) (to_candidate r) in
      {| ro_memory := r.1; ro_rank := rank s; ro_similarity := r.2; ro_freshness_factor := rc_freshness_factor s;
         ro_effective_author_trust := effective_author_trust s |}) l) as Homap.
  { intros l Hl. rewrite map_map. apply omap_map_Some. intros r Hr. unfold ranked_out. cbn [candidate score fc_memory_id candidate_of].
    by rewrite (by_id_spec results r Hnd (Hl r Hr)). }
  assert (active_results results ⊆ results) as Hsub by (intros r [_ ?]%list_elem_of_filter; done).
  split.
  - rewrite Hcs. case_bool_decide; rewrite Homap by done; by rewrite map_map.
  - destruct (chosen _) as [c|]; cbn -[by_id]; [|destruct Hch as [?|[?|?]]; [by left|right; left|by right; right]].
    + destruct Hch as (Hm & Hq & Hc & _). apply list_elem_of_fmap in Hc as (r & -> & Hr). cbn [fc_memory_id candidate_of].
      rewrite (by_id_spec results r Hnd (Hsub r Hr)). cbn. split_and!; [done..|]. by apply list_elem_of_fmap_2.
    + by destruct (active_results results).
Qed.
End service.

(** ** Theorems *)

(** C28: the outcome does not depend on the order in which the search found the
    candidates, as long as no rank is NaN and no two different candidates agree in
    rank, time of creation and content hash, where a record without hash counts as
    one with the empty hash: permuted inputs then give the same resolution, with
    the same choice, the same ranking and the same flags, in each mode. *)
Theorem resolve_perm exp mode now k cs cs' :
  cs ≡ₚ cs' → ranked_ok exp now k cs → told_apart exp now k cs →
  resolve_fact exp mode now k cs = resolve_fact exp mode now k cs'.
Proof. exact (resolve_perm' exp mode now k cs cs'). Qed.

(** What each mode answers.  The listed candidates are exactly the active
    ones with their scores (all of them for an audit); a human is asked exactly
    when a sensitive query meets a conflict; a candidate is chosen in no other
    case than an audit, no active candidate or a question to a human, and then
    it is active, no active candidate outranks it, and the conflict flag says
    whether it is confident and has an equally confident rival of other content
    within the rank band. *)
Theorem resolve_spec exp mode now k cs :
  ranked_ok exp now k cs →
  let r := resolve_fact exp mode now k cs in
  fr_candidates r ≡ₚ map (score exp now k) (if bool_decide (mode = AUDIT) then cs else active_only cs) ∧
  (requires_hitl r = true ↔ mode = SENSITIVE ∧ conflict_detected r = true) ∧
  match chosen r with
  | Some c => mode ≠ AUDIT ∧ requires_hitl r = false ∧ c ∈ active_only cs ∧
              (∀ c', c' ∈ active_only cs → f_le (rank (score exp now k c')) (rank (score exp now k c)) = true) ∧
              (conflict_detected r = true ↔ contested exp now k cs c)
  | None => mode = AUDIT ∨ active_only cs = [] ∨ requires_hitl r = true
  end.
Proof. exact (resolve_spec' exp mode now k cs). Qed.

(** ** Concrete runs *)

Definition defaults : knobs := {|
  decay_lambda := _DEFAULT_FRESHNESS_LAMBDA; default_author_trust := _DEFAULT_AUTHOR_TRUST;
  sensitive_min_confidence := _DEFAULT_SENSITIVE_MIN_CONFIDENCE;
  sensitive_rank_delta := _DEFAULT_SENSITIVE_RANK_DELTA |}.

(** A record claiming [text] with confidence and trust in tenths *)
Definition fact (n : Z) (text hash : string) (confidence trust : Z) : FactCandidate := {|
  fc_memory_id := UUID 0; fc_content := text; fc_confidence := f_div (f_of_Z confidence) (f_of_Z 10);
  fc_author_did := None; fc_author_trust := Some (f_div (f_of_Z trust) (f_of_Z 10));
  fc_record_state := ACTIVE; fc_content_hash := Some hash; fc_created_at := n; fc_similarity := f_of_Z 1 |}.

Definition monday := fact 1 "Monday" "aa" 8 5.
Definition friday := fact 2 "Friday" "bb" 8 5.
Definition unsure := fact 3 "Sunday" "cc" 6 10.

Definition no_decay (_ : spec_float) : spec_float := f_of_Z 1.

Definition pick (r : FactResolution) : option string * bool := (fc_content <$> chosen r, requires_hitl r).

Example planning_takes_newest :
  pick (resolve_fact no_decay PLANNING 10 defaults [monday; friday]) = (Some "Friday", false).
Proof. vm_compute. reflexivity. Qed.

Example sensitive_asks :
  pick (resolve_fact no_decay SENSITIVE 10 defaults [monday; friday]) = (None, true).
Proof. vm_compute. reflexivity. Qed.

(** The same two confident records that disagree are no conflict once a less
    confident one of a more trusted author ranks above them: only pairs with
    the leading candidate are compared. *)
Example unsure_leader_hides_conflict :
  pick (resolve_fact no_decay SENSITIVE 10 defaults [monday; friday; unsure]) = (Some "Sunday", false).
Proof. vm_compute. reflexivity. Qed.

(** Two records without hash, of one instant and one rank: the first that the
    search finds is chosen. *)
Definition unsigned (text : string) : FactCandidate := {|
  fc_memory_id := UUID 0; fc_content := text; fc_confidence := f_div (f_of_Z 8) (f_of_Z 10); fc_author_did := None;
  fc_author_trust := None; fc_record_state := ACTIVE; fc_content_hash := None; fc_created_at := 1; fc_similarity := f_of_Z 1 |}.

Example order_decides :
  pick (resolve_fact no_decay PLANNING 10 defaults [unsigned "Monday"; unsigned "Friday"]) = (Some "Monday", false) ∧
  pick (resolve_fact no_decay PLANNING 10 defaults [unsigned "Friday"; unsigned "Monday"]) = (Some "Friday", false).
Proof. split; vm_compute; reflexivity. Qed.

Lemma resolve_perm_witness :
  resolve_fact no_decay SENSITIVE 10 defaults [monday; friday] =
  resolve_fact no_decay SENSITIVE 10 defaults [friday; monday].
Proof.
  apply resolve_perm.
  - apply Permutation_swap.
  - intros c Hc. apply elem_of_cons in Hc as [->|Hc]; [vm_compute; reflexivity|].
    apply list_elem_of_singleton in Hc as ->. vm_compute. reflexivity.
  - intros c c' Hc Hc' (_&_&E&_). cbn in E. apply elem_of_cons in Hc as [->|Hc], Hc' as [->|Hc']; try done;
      apply list_elem_of_singleton in Hc || apply list_elem_of_singleton in Hc'; subst; try done;
      apply list_elem_of_singleton in Hc'; by subst.
Defined.

Lemma resolve_spec_witness :
  let r := resolve_fact no_decay PLANNING 10 defaults [monday] in
  chosen r = Some monday ∧ requires_hitl r = false ∧
  fr_candidates r ≡ₚ map (score no_decay 10 defaults) (active_only [monday]).
Proof.
  assert (ranked_ok no_decay 10 defaults [monday]) as Hok
    by (intros c ->%list_elem_of_singleton; vm_compute; reflexivity).
  apply conj; [vm_compute; reflexivity|]. apply conj; [vm_compute; reflexivity|].
  exact (proj1 (resolve_spec no_decay PLANNING 10 defaults [monday] Hok)).
Defined.
