(* ===== verification/Agents.v ===== *)
(** * Agents: the registry of agents and their health

    Models [models/agent.py] and create, get, update, delete and
    [health_check] of [services/agent_service.py].  The table is the list of
    its rows; columns that nothing here reads (endpoint, schemas, protocol) are
    left out.  The outcome of the health probe is an argument: [Some ok] when
    the agent answered (with status 200 or not), [None] when the request
    raised.  Redis counts failures under a key that expires. *)

From Stdlib Require Import ZArith Lia Floats.SpecFloat.
From stdpp Require Import base tactics strings gmap list.
From S2P Require Import Prelude PyStr Dict Json PyVal PyFloat Uuid.

#[local] Open Scope Z_scope.

Module AgentStatus.
Inductive t := ACTIVE | INACTIVE | SUSPENDED | DEGRADED.
End AgentStatus.

#[export] Instance AgentStatus_eq_dec : EqDecision AgentStatus.t.
Proof. solve_decision. Defined.

Record Agent := {
  agent_id : uuid;
  name : string;
  description : string;
  capabilities : list string;
  supported_tools : list string;
  cost_profile : list (string * pyval);
  latency_profile : list (string * pyval);
  trust_score : spec_float;
  version : string;
  safety_level : Z;
  status : AgentStatus.t;
  health_check_url : option string;
  last_health_check : option Z;
  metadata_ : list (pykey * json);
}.

(** What the request may carry; the columns' server defaults are [0.5] and
    [active]. *)
Record AgentCreate := {
  ac_name : string;
  ac_description : string;
  ac_capabilities : list string;
  ac_supported_tools : list string;
  ac_cost_profile : list (string * pyval);
  ac_latency_profile : list (string * pyval);
  ac_version : string;
  ac_safety_level : Z;
  ac_health_check_url : option string;
  ac_metadata : list (pykey * json);
}.

(** One field that [model_dump(exclude_unset=True)] contains; [None] is a
    [null] the caller sent. *)
Inductive agent_field :=
  | F_name (v : option string)
  | F_description (v : option string)
  | F_capabilities (v : option (list string))
  | F_supported_tools (v : option (list string))
  | F_cost_profile (v : option (list (string * pyval)))
  | F_latency_profile (v : option (list (string * pyval)))
  | F_version (v : option string)
  | F_safety_level (v : option Z)
  | F_status (v : option AgentStatus.t)
  | F_health_check_url (v : option string)
  | F_metadata (v : option (list (pykey * json))).

(** [IntegrityError]: the database refuses a NULL or a second agent of the name *)
Inductive agent_exn := NotFoundError | ConflictError | IntegrityError.

Record HealthCheckResponse := {
  hc_agent_id : uuid;
  hc_healthy : bool;
  hc_status : AgentStatus.t;
  hc_checked_at : Z;
  hc_failed : bool;
}.

(** Agents and, in Redis, the failures of each with the time the key expires *)
Record state := {
  agents : list Agent;
  failures : gmap uuid (Z * Z);
}.

(** ** Rows *)

Definition with_health (a : Agent) (s : AgentStatus.t) (checked : option Z) : Agent := {|
  agent_id := agent_id a; name := name a; description := description a; capabilities := capabilities a;
  supported_tools := supported_tools a; cost_profile := cost_profile a; latency_profile := latency_profile a;
  trust_score := trust_score a; version := version a; safety_level := safety_level a; status := s;
  health_check_url := health_check_url a; last_health_check := checked; metadata_ := metadata_ a |}.

Definition with_trust (a : Agent) (t : spec_float) : Agent := {|
  agent_id := agent_id a; name := name a; description := description a; capabilities := capabilities a;
  supported_tools := supported_tools a; cost_profile := cost_profile a; latency_profile := latency_profile a;
  trust_score := t; version := version a; safety_level := safety_level a; status := status a;
  health_check_url := health_check_url a; last_health_check := last_health_check a; metadata_ := metadata_ a |}.

Definition with_metadata (a : Agent) (m : list (pykey * json)) : Agent := {|
  agent_id := agent_id a; name := name a; description := description a; capabilities := capabilities a;
  supported_tools := supported_tools a; cost_profile := cost_profile a; latency_profile := latency_profile a;
  trust_score := trust_score a; version := version a; safety_level := safety_level a; status := status a;
  health_check_url := health_check_url a; last_health_check := last_health_check a; metadata_ := m |}.

Definition find_agent (l : list Agent) (id : uuid) : option Agent :=
  List.find (λ a, bool_decide (agent_id a = id)) l.

(** Write the row of [a] back. *)
Definition save_agent (l : list Agent) (a : Agent) : list Agent :=
  map (λ b, if decide (agent_id b = agent_id a) then a else b) l.

(** [setattr(agent, field, value)] and the NOT NULL constraints *)
Definition set_field (f : agent_field) (a : Agent) : option Agent :=
  let '(Build_Agent id n d cs ts cp lp t v sl st hu lh m) := a in
  match f with
  | F_name (Some n) => Some (Build_Agent id n d cs ts cp lp t v sl st hu lh m)
  | F_description (Some d) => Some (Build_Agent id n d cs ts cp lp t v sl st hu lh m)
  | F_capabilities (Some cs) => Some (Build_Agent id n d cs ts cp lp t v sl st hu lh m)
  | F_supported_tools (Some ts) => Some (Build_Agent id n d cs ts cp lp t v sl st hu lh m)
  | F_cost_profile (Some cp) => Some (Build_Agent id n d cs ts cp lp t v sl st hu lh m)
  | F_latency_profile (Some lp) => Some (Build_Agent id n d cs ts cp lp t v sl st hu lh m)
  | F_version (Some v) => Some (Build_Agent id n d cs ts cp lp t v sl st hu lh m)
  | F_safety_level (Some sl) => Some (Build_Agent id n d cs ts cp lp t v sl st hu lh m)
  | F_status (Some st) => Some (Build_Agent id n d cs ts cp lp t v sl st hu lh m)
  | F_health_check_url hu => Some (Build_Agent id n d cs ts cp lp t v sl st hu lh m)
  | F_metadata (Some m) => Some (Build_Agent id n d cs ts cp lp t v sl st hu lh m)
  | _ => None
  end.

Fixpoint set_fields (fs : list agent_field) (a : Agent) : option Agent :=
  match fs with
  | [] => Some a
  | f :: fs => set_field f a ≫= set_fields fs
  end.

(** ** The service *)

Definition create_agent (data : AgentCreate) (fresh : uuid) (st : state) : res agent_exn (Agent * state) :=
  if existsb (λ a, String.eqb (name a) (ac_name data)) (agents st) then Err ConflictError
  else
    let a := {|
      agent_id := fresh; name := ac_name data; description := ac_description data;
      capabilities := ac_capabilities data; supported_tools := ac_supported_tools data;
      cost_profile := ac_cost_profile data; latency_profile := ac_latency_profile data; trust_score := float_half;
      version := ac_version data; safety_level := ac_safety_level data; status := AgentStatus.ACTIVE;
      health_check_url := ac_health_check_url data; last_health_check := None; metadata_ := ac_metadata data |} in
    Ok (a, {| agents := agents st ++ [a]; failures := failures st |}).

Definition get_agent (id : uuid) (st : state) : res agent_exn Agent :=
  res_of_option NotFoundError (find_agent (agents st) id).

Definition put_agent (a : Agent) (st : state) : state :=
  {| agents := save_agent (agents st) a; failures := failures st |}.

Definition update_agent (id : uuid) (data : list agent_field) (st : state) : res agent_exn (Agent * state) :=
  agent <~ get_agent id st;
  match data with
  | [] => Ok (agent, st)
  | _ =>
      agent' <~ res_of_option IntegrityError (set_fields data agent);
      raise_if (existsb (λ b, negb (bool_decide (agent_id b = id)) && String.eqb (name b) (name agent')) (agents st))
        IntegrityError ;!
      Ok (agent', put_agent agent' st)
  end.

Definition delete_agent (id : uuid) (st : state) : res agent_exn state :=
  agent <~ get_agent id st;
  Ok (put_agent (with_health agent AgentStatus.INACTIVE (last_health_check agent)) st).

(** [INCR] of a key that may have expired, and [EXPIRE] *)
Definition incr_failures (fs : gmap uuid (Z * Z)) (id : uuid) (now : Z) : Z * gmap uuid (Z * Z) :=
  let old := match fs !! id with Some (n, until) => if now <? until then n else 0 | None => 0 end in
  (old + 1, <[id := (old + 1, now + 3600)]> fs).

(** The agent's status after a probe, and whether it changed the counter *)
Definition after_probe (healthy : bool) (n : Z) (s : AgentStatus.t) : AgentStatus.t :=
  if healthy then if decide (s = AgentStatus.DEGRADED) then AgentStatus.ACTIVE else s
  else if (5 <=? n) && negb (bool_decide (s = AgentStatus.SUSPENDED)) then AgentStatus.SUSPENDED
  else if (3 <=? n) && bool_decide (s = AgentStatus.ACTIVE) then AgentStatus.DEGRADED
  else s.

Definition health_check (id : uuid) (probe : option bool) (now : Z) (st : state)
    : res agent_exn (HealthCheckResponse * state) :=
  agent <~ get_agent id st;
  match health_check_url agent with
  | None | Some "" =>
      Ok ({| hc_agent_id := agent_id agent; hc_healthy := bool_decide (status agent = AgentStatus.ACTIVE);
             hc_status := status agent; hc_checked_at := now; hc_failed := true |}, st)
  | Some _ =>
      let healthy := match probe with Some ok => ok | None => false end in
      let '(n, fs) := if healthy then (0, delete id (failures st)) else incr_failures (failures st) id now in
      let agent' := with_health agent (after_probe healthy n (status agent)) (Some now) in
      Ok ({| hc_agent_id := agent_id agent; hc_healthy := healthy; hc_status := status agent'; hc_checked_at := now;
             hc_failed := bool_decide (probe = None) |},
          {| agents := save_agent (agents st) agent'; failures := fs |})
  end.

(** ** Rows, looked up and written back *)

Lemma find_agent_spec l id a : find_agent l id = Some a → a ∈ l ∧ agent_id a = id.
Proof.
  intros H. apply List.find_some in H as [H1 H2]. split; [by apply list_elem_of_In|]. by apply bool_decide_eq_true_1 in H2.
Qed.

Lemma find_save l a id :
  find_agent (save_agent l a) id =
  if decide (id = agent_id a) then (match find_agent l id with Some _ => Some a | None => None end) else find_agent l id.
Proof.
  unfold find_agent, save_agent. induction l as [|b l IH]; cbn; [by case_decide|].
  destruct (decide (agent_id b = agent_id a)) as [E|E], (decide (id = agent_id a)) as [->|Hid];
    repeat case_bool_decide; try congruence; try done; by rewrite ?IH, ?decide_True, ?decide_False by done.
Qed.

Lemma save_agent_ids l a : map agent_id (save_agent l a) = map agent_id l.
Proof. unfold save_agent. rewrite map_map. apply map_ext. intros b. by case_decide. Qed.

Lemma find_save_same l a b : find_agent l (agent_id a) = Some b → find_agent (save_agent l a) (agent_id a) = Some a.
Proof. intros H. rewrite find_save, decide_True by done. by rewrite H. Qed.

(** ** The history of an agent's health *)

(** Probes at the given times, one after the other *)
Fixpoint run_probes (id : uuid) (probes : list (Z * option bool)) (st : state) : res agent_exn state :=
  match probes with
  | [] => Ok st
  | (now, probe) :: probes => r <~ health_check id probe now st; run_probes id probes r.2
  end.

Definition answered (p : option bool) : bool := match p with Some ok => ok | None => false end.

(** The failures at the end of a history, and the longest run of failures *)
Definition count_failures (h : list bool) : nat * nat :=
  fold_left (λ '(cur, longest) ok, let cur := if ok : bool then O else S cur in (cur, Nat.max longest cur)) h (O, O).

Definition status_of_runs (cur longest : nat) : AgentStatus.t :=
  if decide (5 ≤ longest)%nat then AgentStatus.SUSPENDED
  else if decide (3 ≤ cur)%nat then AgentStatus.DEGRADED else AgentStatus.ACTIVE.

Definition expected_status (h : list bool) : AgentStatus.t :=
  let '(cur, longest) := count_failures h in status_of_runs cur longest.

(** No hour passes between two probes. *)
Fixpoint spaced (prev : Z) (probes : list (Z * option bool)) : Prop :=
  match probes with
  | [] => True
  | (now, _) :: probes => now < prev + 3600 ∧ spaced now probes
  end.

Definition probed (id : uuid) (cur longest : nat) (prev : Z) (st : state) : Prop :=
  (cur ≤ longest)%nat ∧
  failures st !! id = (if decide (cur = O) then None else Some (Z.of_nat cur, prev + 3600)) ∧
  ∃ a, find_agent (agents st) id = Some a ∧ status a = status_of_runs cur longest ∧
    match health_check_url a with None | Some "" => False | _ => True end.

Lemma after_probe_runs ok cur longest :
  (cur ≤ longest)%nat →
  let cur' := if ok : bool then O else S cur in
  after_probe ok (if ok then 0 else Z.of_nat (S cur)) (status_of_runs cur longest) =
  status_of_runs cur' (Nat.max longest cur').
Proof.
  intros Hle. unfold after_probe, status_of_runs.
  destruct ok; repeat case_decide; try done; try lia;
    destruct (Z.leb_spec 5 (Z.of_nat (S cur))), (Z.leb_spec 3 (Z.of_nat (S cur))); cbn; try lia; done.
Qed.

Lemma health_check_probed id p now cur longest prev st :
  probed id cur longest prev st → now < prev + 3600 →
  ∃ r st', health_check id p now st = Ok (r, st') ∧
    let cur' := if answered p then O else S cur in probed id cur' (Nat.max longest cur') now st'.
Proof.
  intros (Hle & Hf & a & Ha & Hs & Hu) Hnow. unfold health_check, get_agent. rewrite Ha. cbn [res_of_option res_bind].
  fold (answered p). pose proof (find_agent_spec _ _ _ Ha) as [_ Hid].
  assert (health_check_url a ≠ None ∧ health_check_url a ≠ Some "") as [Hu1 Hu2].
  { destruct (health_check_url a) as [[]|]; done. }
  assert (Hn : (if answered p then (0, delete id (failures st)) else incr_failures (failures st) id now) =
    ((if answered p then 0 else Z.of_nat (S cur)),
     if answered p then delete id (failures st) else <[id := (Z.of_nat (S cur), now + 3600)]> (failures st))).
  { destruct (answered p); [done|]. unfold incr_failures. rewrite Hf. case_decide as Hc.
    - by subst cur.
    - assert ((now <? prev + 3600) = true) as -> by (by apply Z.ltb_lt). do 2 f_equal; [|f_equal; f_equal]; lia. }
  destruct (health_check_url a) as [[|ch u]|] eqn:Eu; [done| |done].
  rewrite Hn. eexists _, _. split; [reflexivity|]. cbv zeta. unfold probed. cbn [failures agents].
  split; [destruct (answered p); lia|]. split.
  { destruct (answered p); [by rewrite lookup_delete_eq|by rewrite lookup_insert_eq]. }
  eexists. split.
  { rewrite <-Hid. apply (find_save_same _ (with_health a _ _) a). cbn. by rewrite Hid. }
  cbn. rewrite Hs, Eu. split; [by apply after_probe_runs|done].
Qed.

Lemma run_probes_probed id probes cur longest prev st :
  probed id cur longest prev st → spaced prev probes →
  ∃ st', run_probes id probes st = Ok st' ∧
    let h := fold_left (λ '(cur, longest) ok, let cur := if ok : bool then O else S cur in (cur, Nat.max longest cur))
               (map (λ p, answered p.2) probes) (cur, longest) in
    ∃ prev', probed id h.1 h.2 prev' st'.
Proof.
  revert cur longest prev st. induction probes as [|[now p] probes IH]; intros cur longest prev st Hp Hs.
  { exists st. split; [done|]. by exists prev. }
  destruct Hs as [Hnow Hs]. destruct (health_check_probed id p now cur longest prev st Hp Hnow) as (r & st1 & E & Hp1).
  destruct (IH _ _ _ _ Hp1 Hs) as (st' & E' & Hp'). exists st'. split; [|exact Hp'].
  cbn [run_probes]. rewrite E. exact E'.
Qed.

Lemma health_history' id probes st a :
  find_agent (agents st) id = Some a → status a = AgentStatus.ACTIVE →
  match health_check_url a with None | Some "" => False | _ => True end →
  failures st !! id = None →
  match probes with [] => True | (now, _) :: later => spaced now later end →
  ∃ st' a', run_probes id probes st = Ok st' ∧ find_agent (agents st') id = Some a' ∧
    status a' = expected_status (map (λ p, answered p.2) probes).
Proof.
  intros Ha Hs Hu Hf Hsp. set (t0 := match probes with [] => 0 | (now, _) :: _ => now end).
  assert (probed id 0 0 t0 st) as Hp by (split; [done|]; split; [done|]; exists a; by rewrite Hs).
  assert (spaced t0 probes) as Hsp' by (destruct probes as [|[now p] l]; [done|]; split; [lia|done]).
  destruct (run_probes_probed _ _ _ _ _ _ Hp Hsp') as (st' & E & prev' & _ & _ & a' & Ha' & Hs' & _).
  exists st', a'. split_and!; [done|done|]. rewrite Hs'. unfold expected_status, count_failures. by destruct (fold_left _ _ _).
Qed.

(** ** Well-formed registries *)

Definition wf (st : state) : Prop := NoDup (map agent_id (agents st)) ∧ NoDup (map name (agents st)).

Inductive op :=
  | Create (data : AgentCreate) (fresh : uuid)
  | Update (id : uuid) (data : list agent_field)
  | Delete (id : uuid)
  | HealthCheck (id : uuid) (probe : option bool) (now : Z).

Definition step (o : op) (st : state) : res agent_exn state :=
  match o with
  | Create data fresh => res_map snd (create_agent data fresh st)
  | Update id data => res_map snd (update_agent id data st)
  | Delete id => delete_agent id st
  | HealthCheck id probe now => res_map snd (health_check id probe now st)
  end.

(** Identifiers are drawn afresh. *)
Definition fresh_op (o : op) (st : state) : Prop :=
  match o with Create _ fresh => fresh ∉ map agent_id (agents st) | _ => True end.

Lemma set_fields_id fs a a' : set_fields fs a = Some a' → agent_id a' = agent_id a.
Proof.
  revert a. induction fs as [|f fs IH]; intros a; cbn; [by intros [= ->]|].
  destruct (set_field f a) as [b|] eqn:E; [|done]. cbn. intros ->%IH.
  destruct a, f as [[]|[]|[]|[]|[]|[]|[]|[]|[]|v|[]]; cbn in E; by simplify_eq.
Qed.

(** A row whose name is not another agent's may be written back. *)
Lemma save_agent_wf l a :
  NoDup (map agent_id l) → NoDup (map name l) →
  (∀ b, b ∈ l → agent_id b ≠ agent_id a → name b ≠ name a) → NoDup (map name (save_agent l a)).
Proof.
  induction l as [|b l IH]; [done|]. cbn [map save_agent]. intros [Hi Hid]%NoDup_cons [Hb Hn]%NoDup_cons Ha.
  fold (save_agent l a). apply NoDup_cons. split; [|apply IH; [done..|intros c Hc; apply Ha; by right]].
  rewrite list_elem_of_fmap. intros (c & Ec & Hc). unfold save_agent in Hc. apply list_elem_of_fmap in Hc as (c0 & -> & Hc0).
  destruct (decide (agent_id b = agent_id a)) as [E|E], (decide (agent_id c0 = agent_id a)) as [E0|E0].
  - apply Hi. rewrite E, <-E0. by apply list_elem_of_fmap_2.
  - by apply (Ha c0); [right|done|].
  - by apply (Ha b); [left|done|].
  - apply Hb. rewrite Ec. by apply list_elem_of_fmap_2.
Qed.

Lemma put_agent_wf st a a0 :
  wf st → find_agent (agents st) (agent_id a) = Some a0 → name a = name a0 → wf (put_agent a st).
Proof.
  intros [Hi Hn] Ha E. split; cbn; [by rewrite save_agent_ids|]. apply save_agent_wf; [done..|].
  apply find_agent_spec in Ha as [Ha Hid]. intros b Hb Hne Hnb. apply Hne. rewrite <-Hid. f_equal.
  apply (NoDup_map_inj name (agents st)); [done..|congruence].
Qed.

Lemma registry_wf' o st st' : wf st → fresh_op o st → step o st = Ok st' → wf st'.
Proof.
  intros Hwf Hfr Hs. destruct o as [data fresh|id data|id|id probe now]; cbn in Hs.
  - unfold create_agent in Hs. destruct (existsb _ _) eqn:E; [done|]. cbn in Hs. injection Hs as <-.
    destruct Hwf as [Hi Hn]. split; cbn; rewrite map_app; apply NoDup_app; (split_and!; [done| |apply NoDup_singleton]).
    + intros i Hin. cbn. rewrite list_elem_of_singleton. by intros ->.
    + intros n Hin. cbn. rewrite list_elem_of_singleton. intros ->. apply list_elem_of_fmap in Hin as (b & Eb & Hb).
      apply list_elem_of_In in Hb. assert (existsb (λ a, String.eqb (name a) (ac_name data)) (agents st) = true) as Ht.
      { apply existsb_exists. exists b. split; [done|]. by apply String.eqb_eq. }
      congruence.
  - unfold update_agent, get_agent in Hs. destruct (find_agent (agents st) id) as [a|] eqn:Ea; cbn in Hs; [|done].
    destruct data as [|f fs]; [by simplify_eq/=|].
    destruct (set_fields (f :: fs) a) as [a'|] eqn:Ef; [|done]. cbn [res_of_option res_bind] in Hs.
    destruct (existsb _ _) eqn:Ex; [done|]. cbn in Hs. injection Hs as <-.
    apply find_agent_spec in Ea as [Ha Hid]. apply set_fields_id in Ef. destruct Hwf as [Hi Hn].
    split; cbn; [by rewrite save_agent_ids|]. apply save_agent_wf; [done..|]. intros b Hb Hne Hnb.
    assert (existsb (λ b, negb (bool_decide (agent_id b = id)) && String.eqb (name b) (name a')) (agents st) = true) as Ht.
    { apply existsb_exists. exists b. split; [by apply list_elem_of_In|]. apply andb_true_iff. split; [|by apply String.eqb_eq].
      apply negb_true_iff, bool_decide_eq_false_2. congruence. }
    congruence.
  - unfold delete_agent, get_agent in Hs. destruct (find_agent (agents st) id) as [a|] eqn:Ea; cbn in Hs; [|done].
    injection Hs as <-. pose proof (find_agent_spec _ _ _ Ea) as [_ Hid]. eapply put_agent_wf; [done|cbn; by rewrite Hid|done].
  - unfold health_check, get_agent in Hs. destruct (find_agent (agents st) id) as [a|] eqn:Ea; cbn [res_of_option res_bind] in Hs; [|done].
    pose proof (find_agent_spec _ _ _ Ea) as [_ Hid].
    assert (∀ s c fs, wf {| agents := save_agent (agents st) (with_health a s c); failures := fs |}) as Hput.
    { intros s c fs. eapply (put_agent_wf st (with_health a s c)); [done|cbn; by rewrite Hid|done]. }
    destruct (health_check_url a) as [[|ch u]|]; try (cbn in Hs; by injection Hs as <-).
    destruct (if match probe with Some ok => ok | None => false end then _ else _). cbn in Hs. injection Hs as <-. apply Hput.
Qed.

(** ** Theorems *)

(** The status a history of health probes leaves an agent in.  For an active
    agent with a health URL and no recorded failure, probed any number of times
    with less than an hour between probes, every probe succeeds as a request and
    the final status is a function of the answers alone: suspended exactly if
    five probes in a row failed at some point (a suspension is never lifted by
    later answers), else degraded exactly if the last three failed, else
    active. *)
Theorem health_history id probes st a :
  find_agent (agents st) id = Some a → status a = AgentStatus.ACTIVE →
  match health_check_url a with None | Some "" => False | _ => True end →
  failures st !! id = None →
  match probes with [] => True | (now, _) :: later => spaced now later end →
  ∃ st' a', run_probes id probes st = Ok st' ∧ find_agent (agents st') id = Some a' ∧
    status a' = expected_status (map (λ p, answered p.2) probes).
Proof. exact (health_history' id probes st a). Qed.

(** Registering, changing, deactivating and probing agents keeps identifiers and
    names unique. *)
Lemma registry_wf o st st' : wf st → fresh_op o st → step o st = Ok st' → wf st'.
Proof. exact (registry_wf' o st st'). Qed.

Definition demo_create (n : string) : AgentCreate := {|
  ac_name := n; ac_description := "an agent"; ac_capabilities := ["research"]; ac_supported_tools := [];
  ac_cost_profile := []; ac_latency_profile := []; ac_version := "1.0.0"; ac_safety_level := 1;
  ac_health_check_url := Some "http://a/health"; ac_metadata := [] |}.

Definition one_agent : state :=
  match create_agent (demo_create "a") (UUID 1) {| agents := []; failures := ∅ |} with
  | Ok r => r.2
  | Err _ => {| agents := []; failures := ∅ |}
  end.

Definition status_after (o : list op) : option AgentStatus.t :=
  match foldl (λ r o, st <~ r; step o st) (Ok one_agent) o with
  | Ok st => status <$> find_agent (agents st) (UUID 1)
  | Err _ => None
  end.

Definition down (now : Z) : op := HealthCheck (UUID 1) None now.
Definition up (now : Z) : op := HealthCheck (UUID 1) (Some true) now.

Example recovers : status_after [down 1; down 2; down 3; up 4] = Some AgentStatus.ACTIVE.
Proof. vm_compute. reflexivity. Qed.

Example stays_suspended : status_after [down 1; down 2; down 3; down 4; down 5; up 6] = Some AgentStatus.SUSPENDED.
Proof. vm_compute. reflexivity. Qed.

(** The counter is forgotten after an hour without a failure. *)
Example slow_failures : status_after [down 1; down 3700; down 7400; down 11100; down 14800] = Some AgentStatus.ACTIVE.
Proof. vm_compute. reflexivity. Qed.

(** A deactivated agent that is probed becomes a suspended one. *)
Example deleted_then_suspended :
  status_after [Delete (UUID 1); down 1; down 2; down 3; down 4; down 5] = Some AgentStatus.SUSPENDED.
Proof. vm_compute. reflexivity. Qed.

Lemma health_history_witness :
  ∃ st' a', run_probes (UUID 1) [(1, None); (2, Some false); (3, None)] one_agent = Ok st' ∧
    find_agent (agents st') (UUID 1) = Some a' ∧ status a' = AgentStatus.DEGRADED.
Proof.
  destruct (find_agent (agents one_agent) (UUID 1)) as [a|] eqn:E; [|vm_compute in E; discriminate E].
  apply (health_history (UUID 1) [(1, None); (2, Some false); (3, None)] one_agent a).
  - exact E.
  - vm_compute in E. injection E as <-. reflexivity.
  - vm_compute in E. injection E as <-. exact I.
  - reflexivity.
  - cbn. lia.
Defined.
