(* ===== verification/HealthWorker.v ===== *)
(** * HealthWorker: the periodic health checks

    Models [workers/health_check.py] on the registry of Agents.v, with whose service
    it shares the counters in Redis.  The loop changes the rows it has read, the
    flush writes them back.  [probe] is whether the agent answered with a status of
    the 200s in time, [clock] the time of its turn; Redis answers. *)

From Stdlib Require Import ZArith Lia Floats.SpecFloat.
From stdpp Require Import base tactics strings gmap list.
From S2P Require Import Prelude PyStr Dict Json PyVal PyFloat Uuid Agents.

#[local] Open Scope Z_scope.

Record Summary := { checked : Z; healthy : Z; degraded : Z; suspended : Z }.

Record HealthEvent := { he_agent : uuid; he_old : AgentStatus.t; he_new : AgentStatus.t; he_healthy : bool }.

(** The rows that are read *)
Definition selected (a : Agent) : bool :=
  bool_decide (status a ∈ [AgentStatus.ACTIVE; AgentStatus.DEGRADED]) &&
  match health_check_url a with Some _ => true | None => false end.

(** [INCR] of a key that may have expired, and [EXPIRE] for a day *)
Definition incr_for_day (fs : gmap uuid (Z * Z)) (id : uuid) (now : Z) : Z * gmap uuid (Z * Z) :=
  let old := match fs !! id with Some (n, until) => if now <? until then n else 0 | None => 0 end in
  (old + 1, <[id := (old + 1, now + 86400)]> fs).

Definition count_active (s : Summary) : Summary := {|
  checked := checked s + 1; healthy := healthy s + 1; degraded := degraded s; suspended := suspended s |}.
Definition count_degraded (s : Summary) : Summary := {|
  checked := checked s + 1; healthy := healthy s; degraded := degraded s + 1; suspended := suspended s |}.
Definition count_suspended (s : Summary) : Summary := {|
  checked := checked s + 1; healthy := healthy s; degraded := degraded s; suspended := suspended s + 1 |}.

Section worker.
Context (degraded_threshold suspended_threshold : Z) (probe : uuid → bool) (clock : uuid → Z).

(** One turn of the loop: the row, the events, the counters and the summary *)
Definition check_agent (a : Agent) (fs : gmap uuid (Z * Z)) (s : Summary)
    : Agent * list HealthEvent * gmap uuid (Z * Z) * Summary :=
  let old_status := status a in
  let now := clock (agent_id a) in
  let event new ok := {| he_agent := agent_id a; he_old := old_status; he_new := new; he_healthy := ok |} in
  if probe (agent_id a) then
    let fs := delete (agent_id a) fs in
    if decide (old_status = AgentStatus.DEGRADED) then
      (with_health a AgentStatus.ACTIVE (Some now), [event AgentStatus.ACTIVE true], fs, count_active s)
    else (with_health a old_status (Some now), [], fs, count_active s)
  else
    let '(failures, fs) := incr_for_day fs (agent_id a) now in
    if (suspended_threshold <=? failures) && negb (bool_decide (old_status = AgentStatus.SUSPENDED)) then
      (with_health a AgentStatus.SUSPENDED (Some now), [event AgentStatus.SUSPENDED false], fs, count_suspended s)
    else if (degraded_threshold <=? failures) && bool_decide (old_status = AgentStatus.ACTIVE) then
      (with_health a AgentStatus.DEGRADED (Some now), [event AgentStatus.DEGRADED false], fs, count_degraded s)
    else
      (with_health a old_status (Some now), [], fs,
       if decide (old_status = AgentStatus.DEGRADED) then count_degraded s else count_active s).

Fixpoint check_agents (rows : list Agent) (fs : gmap uuid (Z * Z)) (s : Summary)
    : list Agent * list HealthEvent * gmap uuid (Z * Z) * Summary :=
  match rows with
  | [] => ([], [], fs, s)
  | a :: rows =>
      let '(a, es, fs, s) := check_agent a fs s in
      let '(rows, es', fs, s) := check_agents rows fs s in
      (a :: rows, es ++ es', fs, s)
  end.

Definition run_health_checks (st : state) : Summary * list HealthEvent * state :=
  let rows := List.filter selected (agents st) in
  let '(rows, es, fs, s) := check_agents rows (failures st) {| checked := 0; healthy := 0; degraded := 0; suspended := 0 |} in
  (s, es, {| agents := foldl save_agent (agents st) rows; failures := fs |}).

(** ** What a pass does *)

(** The failures of an agent after its turn *)
Definition failures_after (fs : gmap uuid (Z * Z)) (a : Agent) : Z :=
  if probe (agent_id a) then 0 else (incr_for_day fs (agent_id a) (clock (agent_id a))).1.

Definition status_after (fs : gmap uuid (Z * Z)) (a : Agent) : AgentStatus.t :=
  if probe (agent_id a) then AgentStatus.ACTIVE
  else if suspended_threshold <=? failures_after fs a then AgentStatus.SUSPENDED
  else if degraded_threshold <=? failures_after fs a then AgentStatus.DEGRADED
  else status a.

Definition checked_row (fs : gmap uuid (Z * Z)) (a : Agent) : Agent :=
  with_health a (status_after fs a) (Some (clock (agent_id a))).

Definition count_status (s : AgentStatus.t) (rows : list Agent) : Z :=
  Z.of_nat (length (List.filter (λ a, bool_decide (status a = s)) rows)).

(** The announcement of a row whose status changes *)
Definition announced (fs : gmap uuid (Z * Z)) (a : Agent) : list HealthEvent :=
  if bool_decide (status a = status_after fs a) then []
  else [{| he_agent := agent_id a; he_old := status a; he_new := status_after fs a; he_healthy := probe (agent_id a) |}].

Lemma check_agent_spec a fs s :
  selected a = true →
  ∃ fs', check_agent a fs s = (checked_row fs a, announced fs a, fs',
      match status_after fs a with
      | AgentStatus.ACTIVE => count_active s | AgentStatus.DEGRADED => count_degraded s
      | _ => count_suspended s end) ∧
    (∀ id, id ≠ agent_id a → fs' !! id = fs !! id) ∧
    status_after fs a ≠ AgentStatus.INACTIVE.
Proof.
  unfold selected. intros [Hs%bool_decide_eq_true _]%andb_true_iff.
  unfold check_agent, checked_row, announced, status_after, failures_after.
  destruct (probe (agent_id a)).
  - assert (∀ id, id ≠ agent_id a → delete (agent_id a) fs !! id = fs !! id) as Hd by (intros; by rewrite lookup_delete_ne).
    apply elem_of_cons in Hs as [E|[E|?%elem_of_nil]%elem_of_cons]; [| |done]; rewrite E; cbn; eexists; by split_and!.
  - cbn [fst incr_for_day]. set (n := (_ + 1)%Z).
    assert (∀ id, id ≠ agent_id a → <[agent_id a := (n, clock (agent_id a) + 86400)]> fs !! id = fs !! id) as Hd
      by (intros; by rewrite lookup_insert_ne).
    apply elem_of_cons in Hs as [E|[E|?%elem_of_nil]%elem_of_cons]; [| |done]; rewrite E;
      destruct (suspended_threshold <=? n), (degraded_threshold <=? n); cbn; eexists; by split_and!.
Qed.
Lemma failures_local fs fs' a :
  fs' !! agent_id a = fs !! agent_id a →
  checked_row fs' a = checked_row fs a ∧ announced fs' a = announced fs a.
Proof.
  intros E. assert (status_after fs' a = status_after fs a) as Es.
  { unfold status_after, failures_after, incr_for_day. by rewrite E. }
  unfold checked_row, announced. by rewrite Es.
Qed.

Lemma count_status_cons s a rows :
  count_status s (a :: rows) = (if decide (status a = s) then 1 else 0) + count_status s rows.
Proof.
  unfold count_status. cbn [List.filter]. case_decide as E.
  - rewrite bool_decide_eq_true_2 by done. cbn [length]. lia.
  - rewrite bool_decide_eq_false_2 by done. lia.
Qed.

Lemma check_agents_spec rows fs s :
  NoDup (map agent_id rows) → (∀ a, a ∈ rows → selected a = true) →
  ∃ fs', check_agents rows fs s =
    (map (checked_row fs) rows, concat (map (announced fs) rows), fs',
     let after := map (checked_row fs) rows in
     {| checked := checked s + Z.of_nat (length rows);
        healthy := healthy s + count_status AgentStatus.ACTIVE after;
        degraded := degraded s + count_status AgentStatus.DEGRADED after;
        suspended := suspended s + count_status AgentStatus.SUSPENDED after |}).
Proof.
  revert fs s. induction rows as [|a rows IH]; intros fs s Hd Hs.
  { eexists. cbn. rewrite !Z.add_0_r. by destruct s. }
  cbn [map] in Hd. apply NoDup_cons in Hd as [Ha Hd]. cbn [check_agents].
  destruct (check_agent_spec a fs s (Hs a ltac:(by left))) as (fs1&->&Hother&Hi).
  destruct (IH fs1 (match status_after fs a with
      | AgentStatus.ACTIVE => count_active s | AgentStatus.DEGRADED => count_degraded s
      | _ => count_suspended s end) Hd) as (fs2&->); [intros b Hb; apply Hs; by right|]. exists fs2.
  assert (∀ b, b ∈ rows → checked_row fs1 b = checked_row fs b ∧ announced fs1 b = announced fs b) as Hl.
  { intros b Hb. apply failures_local, Hother. intros E. apply Ha. rewrite <-E. by apply list_elem_of_fmap_2. }
  assert (map (checked_row fs1) rows = map (checked_row fs) rows) as ->
    by (apply map_ext_in; intros b Hb%list_elem_of_In; by apply Hl).
  assert (map (announced fs1) rows = map (announced fs) rows) as ->
    by (apply map_ext_in; intros b Hb%list_elem_of_In; by apply Hl).
  cbv zeta. cbn [map concat length]. f_equal. rewrite !count_status_cons. change (status (checked_row fs a)) with (status_after fs a).
  destruct (status_after fs a); try done; cbn [checked healthy degraded suspended count_active count_degraded count_suspended];
    repeat first [rewrite decide_True by done|rewrite decide_False by done]; f_equal; lia.
Qed.

Lemma flush_rows (P : Agent → bool) (f : Agent → Agent) l :
  NoDup (map agent_id l) → (∀ a, agent_id (f a) = agent_id a) →
  foldl save_agent l (map f (List.filter P l)) = map (λ a, if P a then f a else a) l.
Proof.
  intros Hd Hf. assert (∀ done rows, NoDup (map agent_id (done ++ rows)) →
    foldl save_agent (map (λ a, if P a then f a else a) done ++ rows) (map f (List.filter P rows)) =
      map (λ a, if P a then f a else a) (done ++ rows)) as H; [|by apply (H [] l)].
  intros done rows. revert done. induction rows as [|a rows IH]; intros done Hnd; [by rewrite !app_nil_r|].
  cbn [List.filter]. replace (done ++ a :: rows) with ((done ++ [a]) ++ rows) in * by (by rewrite <-app_assoc).
  rewrite <-(IH (done ++ [a]) Hnd), map_app. cbn [map]. rewrite <-app_assoc. cbn [app].
  destruct (P a); [|done]. cbn [map foldl]. f_equal. unfold save_agent. rewrite map_app. cbn [map].
  rewrite !map_app in Hnd. cbn [map] in Hnd. rewrite Hf.
  apply NoDup_app in Hnd as (Hn1&Hn2&_). apply NoDup_app in Hn1 as (_&Hn1&_).
  assert (∀ l', (∀ b, b ∈ l' → agent_id b ≠ agent_id a) → map (λ b, if decide (agent_id b = agent_id a) then f a else b) l' = l') as Hno.
  { intros l' Hl. rewrite <-(map_id l') at 2. apply map_ext_in. intros b Hb%list_elem_of_In. by rewrite decide_False by auto. }
  rewrite decide_True by done. f_equal; [|f_equal]; apply Hno.
  - intros b (b0&->&Hb0)%list_elem_of_fmap E. apply (Hn1 (agent_id a)); [|by left]. apply list_elem_of_fmap. exists b0.
    split; [|done]. rewrite <-E. by destruct (P b0).
  - intros b Hb E. apply (Hn2 (agent_id a)).
    + apply elem_of_app. right. by left.
    + apply list_elem_of_fmap. by exists b.
Qed.

Lemma pass_rows st :
  NoDup (map agent_id (agents st)) →
  NoDup (map agent_id (List.filter selected (agents st))) ∧
  agents (run_health_checks st).2 = map (λ a, if selected a then checked_row (failures st) a else a) (agents st).
Proof.
  intros Hd.
  assert (NoDup (map agent_id (List.filter selected (agents st)))) as Hd'.
  { clear -Hd. induction (agents st) as [|a l IH]; [done|]. cbn [map] in Hd. apply NoDup_cons in Hd as [Ha Hd]. cbn [List.filter].
    destruct (selected a); [|by apply IH]. cbn [map]. apply NoDup_cons. split; [|by apply IH].
    intros (b&E&[Hb _]%list_elem_of_In%filter_In)%list_elem_of_fmap. apply Ha. rewrite E. apply list_elem_of_fmap_2. by apply list_elem_of_In. }
  split; [done|]. unfold run_health_checks.
  destruct (check_agents_spec (List.filter selected (agents st)) (failures st) {| checked := 0; healthy := 0; degraded := 0; suspended := 0 |} Hd')
    as (fs'&->); [by intros a [_ ?]%list_elem_of_In%filter_In|]. cbn [snd agents]. by apply flush_rows.
Qed.

(** A pass changes the status of exactly the agents that are active or degraded and
    have an address to ask: to active after an answer, to suspended or degraded once
    the failures in a row reach the thresholds; it stamps their rows, announces each
    change once, and its summary counts the statuses that these agents have
    afterwards.  Every other row stays as it is. *)
Theorem pass_summary st :
  NoDup (map agent_id (agents st)) →
  let r := run_health_checks st in
  let after := map (checked_row (failures st)) (List.filter selected (agents st)) in
  agents r.2 = map (λ a, if selected a then checked_row (failures st) a else a) (agents st) ∧
  r.1.2 = concat (map (announced (failures st)) (List.filter selected (agents st))) ∧
  checked r.1.1 = Z.of_nat (length after) ∧
  healthy r.1.1 = count_status AgentStatus.ACTIVE after ∧
  degraded r.1.1 = count_status AgentStatus.DEGRADED after ∧
  suspended r.1.1 = count_status AgentStatus.SUSPENDED after ∧
  checked r.1.1 = healthy r.1.1 + degraded r.1.1 + suspended r.1.1.
Proof.
  intros Hd r after. destruct (pass_rows st Hd) as [Hd' Hrows]. split; [done|]. unfold r, run_health_checks.
  assert (∀ a, a ∈ List.filter selected (agents st) → selected a = true) as Hsel
    by (by intros a [_ ?]%list_elem_of_In%filter_In).
  destruct (check_agents_spec _ (failures st) {| checked := 0; healthy := 0; degraded := 0; suspended := 0 |} Hd' Hsel) as (fs'&->).
  cbn [fst snd agents checked healthy degraded suspended]. fold after. rewrite !Z.add_0_l.
  split_and!; try done; [by unfold after; rewrite length_map|].
  assert (∀ a, a ∈ after → status a ≠ AgentStatus.INACTIVE) as Hni.
  { intros a (b&->&Hb)%list_elem_of_fmap. cbn [checked_row with_health status].
    by destruct (check_agent_spec b (failures st) {| checked := 0; healthy := 0; degraded := 0; suspended := 0 |} (Hsel b Hb)) as (?&_&_&?). }
  assert (length (List.filter selected (agents st)) = length after) as -> by (by unfold after; rewrite length_map).
  clear -Hni. induction after as [|a l IH]; [done|]. rewrite !count_status_cons. cbn [length].
  assert (Z.of_nat (length l) = count_status AgentStatus.ACTIVE l + count_status AgentStatus.DEGRADED l + count_status AgentStatus.SUSPENDED l)
    by (apply IH; intros b Hb; apply Hni; by right).
  specialize (Hni a ltac:(by left)). destruct (status a); try done; repeat first [rewrite decide_True by done|rewrite decide_False by done]; lia.
Qed.

(** Nothing here asks a suspended agent again: it stays suspended. *)
Theorem suspended_stays st a :
  NoDup (map agent_id (agents st)) → a ∈ agents st → status a = AgentStatus.SUSPENDED →
  a ∈ agents (run_health_checks st).2.
Proof.
  intros Hd Ha Hs. rewrite (proj2 (pass_rows st Hd)).
  apply list_elem_of_fmap. exists a. split; [|done]. unfold selected. by rewrite Hs.
Qed.
End worker.

(** With the configured thresholds a turn of the worker changes the status as the
    check of the service does, which counts on the same key. *)
Theorem worker_like_service probe clock fs a :
  selected a = true →
  status_after 3 5 probe clock fs a = after_probe (probe (agent_id a)) (failures_after probe clock fs a) (status a).
Proof.
  unfold selected. intros [Hs%bool_decide_eq_true _]%andb_true_iff. unfold status_after, after_probe.
  apply elem_of_cons in Hs as [E|[E|?%elem_of_nil]%elem_of_cons]; [| |done]; rewrite E;
    destruct (probe (agent_id a)); try done; cbn;
    destruct (5 <=? failures_after probe clock fs a), (3 <=? failures_after probe clock fs a); done.
Qed.

Definition toy_agent (id : N) (s : AgentStatus.t) : Agent := {|
  agent_id := UUID id; name := "a" +:+ uuid_str (UUID id); description := ""; capabilities := []; supported_tools := [];
  cost_profile := []; latency_profile := []; trust_score := float_half; version := "1"; safety_level := 1; status := s;
  health_check_url := Some "http://agent/health"; last_health_check := None; metadata_ := [] |}.

Definition toy_state : state := {|
  agents := [toy_agent 1 AgentStatus.ACTIVE; toy_agent 2 AgentStatus.DEGRADED; toy_agent 3 AgentStatus.ACTIVE;
             toy_agent 4 AgentStatus.SUSPENDED; toy_agent 5 AgentStatus.DEGRADED];
  failures := {[UUID 3 := (2, 1000); UUID 5 := (4, 1000)]} |}.

(** One recovery, one degradation, one suspension; the fourth is not asked *)
Lemma pass_summary_witness :
  let r := run_health_checks 3 5 (λ id, bool_decide (id ∈ [UUID 1; UUID 2])) (λ _, 900) toy_state in
  checked r.1.1 = healthy r.1.1 + degraded r.1.1 + suspended r.1.1 ∧
  map status (agents r.2) = [AgentStatus.ACTIVE; AgentStatus.ACTIVE; AgentStatus.DEGRADED; AgentStatus.SUSPENDED; AgentStatus.SUSPENDED].
Proof.
  assert (NoDup (map agent_id (agents toy_state))) as Hd by (apply (bool_decide_eq_true_1 (NoDup _)); vm_compute; reflexivity).
  destruct (pass_summary 3 5 (λ id, bool_decide (id ∈ [UUID 1; UUID 2])) (λ _, 900) toy_state Hd) as (E&_&_&_&_&_&Hc).
  split; [exact Hc|]. rewrite E. vm_compute. reflexivity.
Defined.
