(* ===== verification/Consensus.v ===== *)
(** * Consensus: several verifiers on one output

    Models [services/consensus_service.py] on the agents of Agents.v.  The language
    model answers once per verifier, [None] where the call fails; [float_of_text]
    and [float_of] are the values of number texts and of decoded numbers.  The
    outcome is what Scheduler.v calls [w_consensus]. *)

From Stdlib Require Import Ascii NArith ZArith Lia SpecFloat.
From stdpp Require Import base tactics strings gmap sorting list.
From S2P Require Import Prelude PyStr Dict PyVal PyFloat Json JsonLoads Uuid Agents.

#[local] Open Scope Z_scope.

Definition CONSENSUS_THRESHOLD : spec_float := f0_6.

Record ConsensusResult := {
  agreed : bool;
  weighted_agreement : spec_float;
  verifier_count : nat;
}.

(** Active agents with the capability, most trusted first *)
Definition select_verifiers (verifier_count : nat) (agents : list Agent) : list Agent :=
  take verifier_count (sort_by (λ a b, f_lt (trust_score b) (trust_score a))
    (List.filter (λ a, bool_decide (status a = AgentStatus.ACTIVE) && bool_decide ("verification" ∈ capabilities a)) agents)).

(** The weights of all verdicts and of those that agree, and their number *)
Record tally := { total_weight : spec_float; weighted_agree : spec_float; counted : nat }.

Definition no_votes : tally := {| total_weight := f_of_Z 0; weighted_agree := f_of_Z 0; counted := 0 |}.

Section consensus.
Context (float_of_text : string → pyfloat) (float_of : pyfloat → spec_float).

(** The parsed answer; what is not JSON counts as a weak agreement, and what is
    not an object raises. *)
Definition parse_verdict (content : string) : option (list (pykey * json)) :=
  match loads float_of_text content with
  | Ok (JObj verdict) => Some verdict
  | Ok _ => None
  | Err JSONDecodeError => Some [(KStr "agree", JBool true); (KStr "confidence", JFloat (FFrac "0.5"))]
  | Err _ => None
  end.

(** [trust * confidence], [None] where it raises *)
Definition weight_of (trust : spec_float) (confidence : json) : option spec_float :=
  match confidence with
  | JFloat f => Some (f_mul trust (float_of f))
  | JInt z => match float_of_int z with Ok f => Some (f_mul trust f) | Err _ => None end
  | JBool b => Some (f_mul trust (f_of_Z (Z.b2z b)))
  | _ => None
  end.

(** The vote of one verifier: whether it agrees, and with what weight *)
Definition vote (verifier : Agent) (answer : option string) : option (bool * spec_float) :=
  content ← answer;
  verdict ← parse_verdict content;
  weight ← weight_of (trust_score verifier) (default (JFloat (FFrac "0.5")) (dict_get (KStr "confidence") verdict));
  Some (match dict_get (KStr "agree") verdict with Some v => json_truth v | None => true end, weight).

Definition count_vote (t : tally) (v : option (bool * spec_float)) : tally :=
  match v with
  | None => t
  | Some (agree, weight) =>
      {| total_weight := f_add (total_weight t) weight;
         weighted_agree := if agree then f_add (weighted_agree t) weight else weighted_agree t;
         counted := S (counted t) |}
  end.

Definition conclude (t : tally) : ConsensusResult :=
  let agreement_ratio := if f_lt (f_of_Z 0) (total_weight t) then f_div (weighted_agree t) (total_weight t) else f_of_Z 1 in
  {| agreed := f_ge agreement_ratio CONSENSUS_THRESHOLD; weighted_agreement := f_round 4 agreement_ratio; verifier_count := counted t |}.

(** [answer] gives the model's answer to each verifier. *)
Definition verify_with_consensus (answer : Agent → option string) (count : nat) (agents : list Agent) : ConsensusResult :=
  match select_verifiers count agents with
  | [] => {| agreed := true; weighted_agreement := f_of_Z 1; verifier_count := 0 |}
  | verifiers => conclude (foldl count_vote no_votes (map (λ v, vote v (answer v)) verifiers))
  end.
End consensus.

(** What the scheduler hears: the agreement, when it is not enough *)
Definition consensus_signal (r : ConsensusResult) : option spec_float :=
  if agreed r then None else Some (weighted_agreement r).

(** ** Unanimity *)

(** The votes that were given *)
Fixpoint votes_of (vs : list (option (bool * spec_float))) : list (bool * spec_float) :=
  match vs with
  | [] => []
  | Some v :: vs => v :: votes_of vs
  | None :: vs => votes_of vs
  end.

Lemma counted_votes vs t : counted (foldl count_vote t vs) = (counted t + length (votes_of vs))%nat.
Proof. revert t. induction vs as [|[[b w]|] vs IH]; intros t; cbn; [lia|rewrite IH; cbn; lia|apply IH]. Qed.

Lemma all_agree vs t :
  weighted_agree t = total_weight t → Forall (λ v, v.1 = true) (votes_of vs) →
  weighted_agree (foldl count_vote t vs) = total_weight (foldl count_vote t vs).
Proof.
  revert t. induction vs as [|[[b w]|] vs IH]; intros t Ht Hv; cbn in *; [done| |by apply IH].
  apply Forall_cons in Hv as [Hb Hv]. cbn in Hb. subst b. apply IH; [cbn; by rewrite Ht|done].
Qed.

Lemma none_agrees vs t :
  Forall (λ v, v.1 = false) (votes_of vs) → weighted_agree (foldl count_vote t vs) = weighted_agree t.
Proof.
  revert t. induction vs as [|[[b w]|] vs IH]; intros t Hv; cbn in *; [done| |by apply IH].
  apply Forall_cons in Hv as [Hb Hv]. cbn in Hb. subst b. by rewrite IH.
Qed.

Lemma positive_finite x : f_lt (f_of_Z 0) x = true → x = S754_infinity false ∨ ∃ m e, x = S754_finite false m e.
Proof.
  destruct x as [s|[]| |[] m e]; try done; [by left| |by right; exists m, e]. unfold f_lt.
  change (num_of_float (f_of_Z 0)) with (NFin 0 0). cbn [num_of_float]. rewrite (num_cmp_scaled (Z.min 0 e)) by lia.
  unfold scaled. intros Hc. assert (0 < 2 ^ (e - Z.min 0 e)) by (apply Z.pow_pos_nonneg; lia).
  destruct (Z.compare_spec (0 * 2 ^ (0 - Z.min 0 e)) (Z.neg m * 2 ^ (e - Z.min 0 e))); try done. lia.
Qed.

(** [x / x] is 1. *)
Lemma f_div_self x : f_is_finite x = true → f_lt (f_of_Z 0) x = true → f_div x x = f_of_Z 1.
Proof.
  intros Hf [->|(m&e&->)]%positive_finite; [done|]. clear Hf. unfold f_div, SFdiv, SFdiv_core_binary.
  rewrite !Z.sub_diag. change (Z.min (fexp 53 1024 0) 0) with (-53). change (0 - -53) with 53. cbv iota.
  rewrite Z.shiftl_mul_pow2 by lia.
  assert (Z.div_eucl (Z.pos m * 2 ^ 53) (Z.pos m) = (2 ^ 53, 0)) as ->.
  { rewrite (surjective_pairing (Z.div_eucl _ _)). f_equal.
    - change (Z.pos m * 2 ^ 53 / Z.pos m = 2 ^ 53). rewrite Z.mul_comm. by apply Z.div_mul.
    - change ((Z.pos m * 2 ^ 53) mod Z.pos m = 0). rewrite Z.mul_comm. by apply Z.mod_mul. }
  assert (new_location (Z.pos m) 0 = loc_Exact) as -> by (unfold new_location; by destruct (Z.even _)).
  vm_compute. reflexivity.
Qed.

Lemma zero_div x : f_lt (f_of_Z 0) x = true → f_div (f_of_Z 0) x = f_of_Z 0.
Proof. by intros [->|(m&e&->)]%positive_finite. Qed.

(** Unanimity decides.  When the weights of the votes sum to a positive number
    (in finite doubles), verifiers that all agree give a consensus of 1 and
    verifiers that all disagree give none, an agreement of 0, which is what the
    scheduler hears; otherwise, with no verifier, no answer or no weight, the output
    passes.  The result counts the votes. *)
Theorem unanimity float_of_text float_of answer n agents :
  let vs := map (λ v, vote float_of_text float_of v (answer v)) (select_verifiers n agents) in
  let total := total_weight (foldl count_vote no_votes vs) in
  let r := verify_with_consensus float_of_text float_of answer n agents in
  verifier_count r = length (votes_of vs) ∧
  (f_lt (f_of_Z 0) total = false → consensus_signal r = None ∧ weighted_agreement r = f_of_Z 1) ∧
  (f_is_finite total = true → Forall (λ v, v.1 = true) (votes_of vs) → consensus_signal r = None ∧ weighted_agreement r = f_of_Z 1) ∧
  (f_lt (f_of_Z 0) total = true → Forall (λ v, v.1 = false) (votes_of vs) → consensus_signal r = Some (f_of_Z 0)).
Proof.
  intros vs total r.
  assert (r = conclude (foldl count_vote no_votes vs)) as ->.
  { unfold r, verify_with_consensus, vs. destruct (select_verifiers n agents) eqn:E; [|done]. vm_compute. reflexivity. }
  unfold conclude, consensus_signal. cbn [verifier_count agreed weighted_agreement]. fold total.
  assert (f_ge (f_of_Z 1) CONSENSUS_THRESHOLD = true ∧ f_round 4 (f_of_Z 1) = f_of_Z 1) as [H1 H2] by (vm_compute; done).
  split_and!.
  - by rewrite counted_votes.
  - intros ->. rewrite H1, H2. split; reflexivity.
  - intros Hf Hv. destruct (f_lt (f_of_Z 0) total) eqn:E; [|rewrite H1, H2; split; reflexivity].
    unfold total in *. rewrite all_agree, f_div_self, H1, H2; [split; reflexivity|exact Hf|exact E|reflexivity|exact Hv].
  - intros E Hv. rewrite E, none_agrees, zero_div by done. vm_compute. reflexivity.
Qed.

(** ** Concrete runs *)

Definition verifier (id : N) (trust : spec_float) : Agent := {|
  agent_id := UUID id; name := "v"; description := ""; capabilities := ["verification"]; supported_tools := []; cost_profile := [];
  latency_profile := []; trust_score := trust; version := "1"; safety_level := 1; status := AgentStatus.ACTIVE;
  health_check_url := None; last_health_check := None; metadata_ := [] |}.

(** Values of the number texts that the samples use *)
Definition sample_text (s : string) : pyfloat := if String.eqb s "0.0" then FInt 0 else FFrac s.
Definition sample_float (f : pyfloat) : spec_float := match f with FInt z => f_of_Z z | _ => float_half end.

Definition say (s : string) (_ : Agent) : option string := Some s.

Definition consensus_of (answer : Agent → option string) : ConsensusResult :=
  verify_with_consensus sample_text sample_float answer 3 [verifier 1 float_half; verifier 2 f0_8].

Definition quoted (s : string) : string := String "034"%char s +:+ String "034"%char EmptyString.

(** A refusal without confidence weighs nothing, so that the output passes. *)
Example hesitant_refusal :
  consensus_signal (consensus_of (say ("{" +:+ quoted "agree" +:+ ": false, " +:+ quoted "confidence" +:+ ": 0}"))) = None.
Proof. vm_compute. reflexivity. Qed.

(** What is not JSON agrees. *)
Example unreadable_verdict : consensus_signal (consensus_of (say "I disagree.")) = None.
Proof. vm_compute. reflexivity. Qed.

Lemma unanimity_witness :
  let no := say ("{" +:+ quoted "agree" +:+ ": false}") in
  let r := consensus_of no in
  let vs := map (λ v, vote sample_text sample_float v (no v)) (select_verifiers 3 [verifier 1 float_half; verifier 2 f0_8]) in
  verifier_count r = 2%nat ∧ Forall (λ v, v.1 = false) (votes_of vs) ∧ consensus_signal r = Some (f_of_Z 0).
Proof.
  intros no r vs.
  assert (Forall (λ v : bool * spec_float, v.1 = false) (votes_of vs)) as Hv by (vm_compute; repeat constructor).
  split; [vm_compute; reflexivity|]. split; [exact Hv|].
  refine (proj2 (proj2 (proj2 (unanimity sample_text sample_float no 3 [verifier 1 float_half; verifier 2 f0_8]))) _ Hv).
  vm_compute. reflexivity.
Defined.
