(* ===== verification/Auth.v ===== *)
(** * Auth: tokens and API keys

    Models the authentication dependencies of [dependencies.py] and [decode_token],
    [verify_api_key] of [core/security.py] on the agents of Agents.v.  [jwt_decode]
    is the JWT library with the configured key and algorithm, [None] where it raises
    [JWTError]; [hexdigest] is the hexadecimal SHA-256.  The times of a token are
    checked by the library and not kept. *)

From Stdlib Require Import NArith ZArith.
From stdpp Require Import base tactics strings gmap list.
From S2P Require Import Prelude PyStr Dict PyVal Json Uuid Agents.

Record TokenPayload := {
  sub : string;
  scopes : list string;
  jti : string;
}.

(** [ValidationError] is pydantic's, which no handler catches. *)
Inductive auth_exn := AuthenticationError | AuthorizationError (missing : list string) | ValidationError.

Definition str_claim (v : json) : res auth_exn string := match v with JStr s => Ok s | _ => Err ValidationError end.

Fixpoint str_claims (l : list json) : res auth_exn (list string) :=
  match l with
  | [] => Ok []
  | v :: l => s <~ str_claim v; ss <~ str_claims l; Ok (s :: ss)
  end.

(** [TokenPayload] applied to the claims *)
Definition token_payload (claims : list (pykey * json)) : res auth_exn TokenPayload :=
  s <~ match dict_get (KStr "sub") claims with Some v => str_claim v | None => Err ValidationError end;
  sc <~ match dict_get (KStr "scopes") claims with
        | Some (JList l) => str_claims l
        | Some _ => Err ValidationError
        | None => Ok []
        end;
  j <~ match dict_get (KStr "jti") claims with Some v => str_claim v | None => Ok "" end;
  Ok {| sub := s; scopes := sc; jti := j |}.

Section auth.
Context (jwt_decode : string → option (list (pykey * json))) (hexdigest : string → string).

Definition decode_token (token : string) : res auth_exn TokenPayload :=
  claims <~ res_of_option AuthenticationError (jwt_decode token);
  token_payload claims.

Definition get_current_user (credentials : option string) : res auth_exn TokenPayload :=
  token <~ res_of_option AuthenticationError credentials;
  decode_token token.

Definition get_optional_user (credentials : option string) : option TokenPayload :=
  token ← credentials;
  match decode_token token with Ok u => Some u | Err _ => None end.

Definition require_scopes (required_scopes : list string) (credentials : option string) : res auth_exn TokenPayload :=
  user <~ get_current_user credentials;
  let missing := filter (λ s, s ∉ scopes user) (remove_dups required_scopes) in
  match missing with [] => Ok user | _ => Err (AuthorizationError (str_sorted missing)) end.

Definition verify_api_key (raw_key hashed_key : string) : bool := String.eqb (hexdigest raw_key) hashed_key.

(** An agent whose metadata hold the hash of the key; a value that is not a string
    is equal to no digest. *)
Definition holds_key (key : string) (a : Agent) : bool :=
  match dict_get (KStr "api_key_hash") (metadata_ a) with
  | Some (JStr stored_hash) => negb (str_empty stored_hash) && verify_api_key key stored_hash
  | _ => false
  end.

Definition agent_of_key (key : string) (table : list Agent) : res auth_exn Agent :=
  res_of_option AuthenticationError (List.find (holds_key key) table).

Definition get_api_key_agent (x_api_key : option string) (table : list Agent) : res auth_exn (option string) :=
  match x_api_key with
  | None => Ok None
  | Some key => a <~ agent_of_key key table; Ok (Some (uuid_str (agent_id a)))
  end.

Definition require_auth_if_enabled (auth_required : bool) (credentials x_api_key : option string) (table : list Agent)
    : res auth_exn (option TokenPayload) :=
  if negb auth_required then Ok (get_optional_user credentials)
  else
    match credentials, x_api_key with
    | Some token, _ => user <~ decode_token token; Ok (Some user)
    | None, Some key =>
        if str_empty key then Err AuthenticationError
        else a <~ agent_of_key key table; Ok (Some {| sub := "agent:" +:+ uuid_str (agent_id a); scopes := ["read"; "write"]; jti := "" |})
    | None, None => Err AuthenticationError
    end.
End auth.

(** ** Who is let in *)

Definition token_of (jwt_decode : string → option (list (pykey * json))) (credentials : option string) (u : TokenPayload) : Prop :=
  ∃ token claims, credentials = Some token ∧ jwt_decode token = Some claims ∧ token_payload claims = Ok u.

Definition key_of (hexdigest : string → string) (x_api_key : option string) (table : list Agent) (u : TokenPayload) : Prop :=
  ∃ key a, x_api_key = Some key ∧ key ≠ "" ∧ a ∈ table ∧
    dict_get (KStr "api_key_hash") (metadata_ a) = Some (JStr (hexdigest key)) ∧
    u = {| sub := "agent:" +:+ uuid_str (agent_id a); scopes := ["read"; "write"]; jti := "" |}.

Lemma decode_token_Ok jwt_decode token u :
  decode_token jwt_decode token = Ok u ↔ ∃ claims, jwt_decode token = Some claims ∧ token_payload claims = Ok u.
Proof.
  unfold decode_token. split.
  - intros (claims&Hc&Hu)%res_bind_Ok. exists claims. split; [|done]. by destruct (jwt_decode token); [injection Hc as ->|].
  - by intros (claims&->&Hu).
Qed.

Lemma holds_key_stored hexdigest key a :
  holds_key hexdigest key a = true → dict_get (KStr "api_key_hash") (metadata_ a) = Some (JStr (hexdigest key)).
Proof.
  unfold holds_key, verify_api_key. destruct (dict_get _ _) as [[]|]; try done. by intros [_ <-%String.eqb_eq]%andb_true_iff.
Qed.

(** With authentication required, a caller is let in exactly as the bearer of a
    token that the library accepts and that has the fields of a payload, or, without
    a token, with the key of an agent of the table, as that agent; a caller whose
    scopes are checked has every scope asked for. *)
Theorem let_in jwt_decode hexdigest credentials x_api_key table u required :
  (require_auth_if_enabled jwt_decode hexdigest true credentials x_api_key table = Ok u →
     ∃ p, u = Some p ∧ (token_of jwt_decode credentials p ∨ credentials = None ∧ key_of hexdigest x_api_key table p)) ∧
  (∀ p, token_of jwt_decode credentials p →
     require_auth_if_enabled jwt_decode hexdigest true credentials x_api_key table = Ok (Some p)) ∧
  (∀ p, require_scopes jwt_decode required credentials = Ok p ↔
     token_of jwt_decode credentials p ∧ ∀ s, s ∈ required → s ∈ scopes p).
Proof.
  split_and!.
  - unfold require_auth_if_enabled. cbn [negb]. destruct credentials as [token|].
    + intros (p&(claims&Hj&Hp)%decode_token_Ok&[= <-])%res_bind_Ok. exists p. split; [done|]. left. by exists token, claims.
    + destruct x_api_key as [key|]; [|done]. destruct (str_empty key) eqn:Hk; [done|]. intros (a&Ha&[= <-])%res_bind_Ok.
      eexists. split; [done|]. right. split; [done|]. unfold agent_of_key in Ha. destruct (List.find _ _) as [a'|] eqn:E; [|done].
      injection Ha as ->. apply List.find_some in E as [Hin%list_elem_of_In Hh%holds_key_stored].
      exists key, a. split_and!; try done. by intros ->.
  - intros p (token&claims&->&Hj&Hp). unfold require_auth_if_enabled. cbn [negb].
    assert (decode_token jwt_decode token = Ok p) as -> by (apply decode_token_Ok; by exists claims). done.
  - intros p. unfold require_scopes, get_current_user. split.
    + intros (p'&(token&Ht&(claims&Hj&Hp)%decode_token_Ok)%res_bind_Ok&H)%res_bind_Ok.
      destruct credentials; [injection Ht as ->|done]. destruct (filter _ _) eqn:E; [|done]. injection H as ->.
      split; [by exists token, claims|]. intros s Hs. destruct (decide (s ∈ scopes p)) as [|Hn]; [done|]. exfalso.
      apply (filter_nil_not_elem_of _ _ s E); [done|by apply elem_of_remove_dups].
    + intros [(token&claims&->&Hj&Hp) Hs]. cbn [res_of_option res_bind].
      assert (decode_token jwt_decode token = Ok p) as -> by (apply decode_token_Ok; by exists claims). cbn [res_bind].
      destruct (filter _ _) as [|x l] eqn:E; [done|]. exfalso.
      assert (x ∈ filter (λ s, s ∉ scopes p) (remove_dups required)) as [Hx Hin]%list_elem_of_filter by (rewrite E; left).
      by apply Hx, Hs, elem_of_remove_dups.
Qed.

(** ** Keys that callers make themselves *)

(** Nothing issues keys: the hash is a field of the metadata that whoever registers
    an agent sends. *)
Lemma self_issued jwt_decode hexdigest data fresh st a st' key :
  create_agent data fresh st = Ok (a, st') → key ≠ "" → hexdigest key ≠ "" →
  dict_get (KStr "api_key_hash") (ac_metadata data) = Some (JStr (hexdigest key)) →
  ∃ p, require_auth_if_enabled jwt_decode hexdigest true None (Some key) (agents st') = Ok (Some p) ∧ scopes p = ["read"; "write"].
Proof.
  intros Hc Hk Hh Hm. unfold require_auth_if_enabled. cbn [negb]. assert (str_empty key = false) as -> by (by destruct key).
  unfold create_agent in Hc. destruct (existsb _ _); [done|]. injection Hc as <- <-. cbn [agents].
  set (a := Build_Agent _ _ _ _ _ _ _ _ _ _ _ _ _ _).
  assert (holds_key hexdigest key a = true) as Ha.
  { unfold holds_key, verify_api_key, a. cbn [metadata_]. rewrite Hm, String.eqb_refl, andb_true_r. by destruct (hexdigest key). }
  unfold agent_of_key. destruct (List.find _ _) as [b|] eqn:E; [by eexists|]. exfalso.
  rewrite (List.find_none _ _ E a) in Ha; [done|]. apply in_app_iff. right. by left.
Qed.

Definition toy_jwt (token : string) : option (list (pykey * json)) :=
  if String.eqb token "good" then Some [(KStr "sub", JStr "user"); (KStr "scopes", JList [JStr "read"])] else None.

Lemma let_in_witness :
  require_auth_if_enabled toy_jwt (λ k, "hash of " +:+ k) true (Some "good") None [] =
    Ok (Some {| sub := "user"; scopes := ["read"]; jti := "" |}).
Proof.
  apply (proj1 (proj2 (let_in toy_jwt (λ k, "hash of " +:+ k) (Some "good") None [] None []))).
  exists "good", [(KStr "sub", JStr "user"); (KStr "scopes", JList [JStr "read"])]. vm_compute. repeat constructor.
Defined.
