(* ===== verification/Selector.v ===== *)
(** * Selector: choosing the agents of a workflow

    Models [orchestration/selector.py].  The profiles of an agent are free-form
    JSON, so reading a cost or a latency from them may raise [TypeError] or
    [OverflowError].  [agents] is the table in the order in which the database
    returns it. *)

From Stdlib Require Import ZArith Lia Floats.SpecFloat.
From stdpp Require Import base tactics strings gmap sorting list.
From S2P Require Import Prelude PyStr Dict Json PyVal PyFloat Uuid TaskFsm Dag DagTopo DagOps Agents.

Inductive select_exn :=
  | AgentUnavailableError
  | PyError (e : py_exn)
  | DagError (e : dag_error).

(** ** Scoring *)

Definition W_TRUST : spec_float := hundredths 35.
Definition W_COST : spec_float := hundredths 20.
Definition W_LATENCY : spec_float := hundredths 15.
Definition W_CAPABILITY : spec_float := hundredths 15.
Definition W_HEALTH : spec_float := hundredths 15.

(** [v / d] for a number [v]: the quotient of two integers is rounded once. *)
Definition div_float (v : pyval) (d : spec_float) : res py_exn spec_float :=
  x <~ match v with VStr _ => Err TypeError | _ => py_float (λ _, None) v end; Ok (f_div x d).

Definition raw_float (z : Z) : spec_float :=
  match z with Z0 => S754_zero false | Zpos p => S754_finite false p 0 | Zneg p => S754_finite true p 0 end.

Definition div_int (v : pyval) (d : Z) : res py_exn spec_float :=
  match v with
  | VInt z => match f_div (raw_float z) (raw_float d) with S754_infinity _ => Err OverflowError | q => Ok q end
  | VBool b => Ok (f_div (raw_float (Z.b2z b)) (raw_float d))
  | VFloat f => Ok (f_div f (f_of_Z d))
  | _ => Err TypeError
  end.

Definition _get_avg_cost (a : Agent) : pyval :=
  default (VFloat (hundredths 1)) (dict_get "avg_cost_per_call" (cost_profile a)).

(** [max(0, 1.0 - min(q, 1.0))] *)
Definition inverted (q : spec_float) : spec_float := f_max (f_of_Z 0) (f_sub (f_of_Z 1) (f_min q (f_of_Z 1))).

Definition has_capability (capability : string) (a : Agent) : bool := bool_decide (capability ∈ capabilities a).

Definition _compute_score (a : Agent) (capability : string) : res py_exn spec_float :=
  cost_eff <~ res_map inverted (div_float (_get_avg_cost a) (hundredths 5));
  latency_score <~ res_map inverted (div_int (default (VInt 5000) (dict_get "p95_ms" (latency_profile a))) 15000);
  let match_score := if has_capability capability a then f_of_Z 1 else f_of_Z 0 in
  let health := if decide (status a = AgentStatus.ACTIVE) then f_of_Z 1 else float_half in
  Ok (f_add (f_add (f_add (f_add (f_mul W_TRUST (trust_score a)) (f_mul W_COST cost_eff)) (f_mul W_LATENCY latency_score))
        (f_mul W_CAPABILITY match_score)) (f_mul W_HEALTH health)).

(** ** Selection *)

(** A list comprehension whose condition may raise *)
Fixpoint filter_res {E A} (f : A → res E bool) (l : list A) : res E (list A) :=
  match l with
  | [] => Ok []
  | a :: l => b <~ f a; r <~ filter_res f l; Ok (if b : bool then a :: r else r)
  end.

Definition available (a : Agent) : bool :=
  bool_decide (status a = AgentStatus.ACTIVE) || bool_decide (status a = AgentStatus.DEGRADED).

Definition affordable (budget_remaining : spec_float) (a : Agent) : res py_exn bool :=
  py_rich op_le (_get_avg_cost a) (VFloat budget_remaining).

Definition candidates_for (agents : list Agent) (capability : string) (budget_remaining : option spec_float)
    (exclude_agent_ids : list uuid) : res py_exn (list Agent) :=
  let matching := filter (λ a, has_capability capability a = true) (filter (λ a, available a = true) agents) in
  let allowed := filter (λ a, agent_id a ∉ exclude_agent_ids) matching in
  match budget_remaining with
  | Some b => filter_res (affordable b) allowed
  | None => Ok allowed
  end.

Fixpoint score_all (capability : string) (l : list Agent) : res py_exn (list (Agent * spec_float)) :=
  match l with
  | [] => Ok []
  | a :: l => s <~ _compute_score a capability; r <~ score_all capability l; Ok ((a, s) :: r)
  end.

(** [sort(key=score, reverse=True)] *)
Definition by_score (x y : Agent * spec_float) : bool := f_lt y.2 x.2.

Definition lift_py {A} (m : res py_exn A) : res select_exn A := res_catch m (λ e, Err (PyError e)).

Definition select_agent (agents : list Agent) (capability : string) (budget_remaining : option spec_float)
    (exclude_agent_ids : list uuid) : res select_exn Agent :=
  candidates <~ lift_py (candidates_for agents capability budget_remaining exclude_agent_ids);
  match candidates with
  | [] => Err AgentUnavailableError
  | _ =>
      scored <~ lift_py (score_all capability candidates);
      match sort_by by_score scored with
      | (best_agent, _) :: _ => Ok best_agent
      | [] => Err AgentUnavailableError
      end
  end.

Definition assign_agent (a : Agent) (n : DAGNode) : DAGNode := {|
  node_id := node_id n; capability := capability n; Dag.description := Dag.description n; depends_on := depends_on n;
  estimated_complexity := estimated_complexity n; assigned_agent_id := Some (agent_id a); task_id := task_id n;
  Dag.status := Dag.status n; output := output n; error := error n |}.

(** [remaining_budget -= cost] *)
Definition spend (remaining : spec_float) (a : Agent) : res py_exn spec_float :=
  c <~ match _get_avg_cost a with VStr _ => Err TypeError | v => py_float (λ _, None) v end; Ok (f_sub remaining c).

Fixpoint assign_nodes (agents : list Agent) (ns : list DAGNode) (remaining : spec_float)
    : res select_exn (list (string * Agent)) :=
  match ns with
  | [] => Ok []
  | n :: ns =>
      agent <~ select_agent agents (capability n) (Some remaining) [];
      remaining <~ lift_py (spend remaining agent);
      rest <~ assign_nodes agents ns remaining;
      Ok ((node_id n, agent) :: rest)
  end.

(** The assignments, and the graph with the nodes' agents set *)
Definition select_agents_for_dag (agents : list Agent) (dag : DAG) (budget : spec_float)
    : res select_exn (list (string * Agent) * DAG) :=
  ns <~ res_catch (topological_sort dag) (λ e, Err (DagError e));
  assignments <~ assign_nodes agents ns budget;
  Ok (assignments, foldl (λ d '(id, a), update_node (assign_agent a) id d) dag assignments).

(** ** Lemmas *)

(** The agents that a selection may return *)
Definition eligible (agents : list Agent) (capability : string) (budget_remaining : option spec_float)
    (exclude_agent_ids : list uuid) (a : Agent) : Prop :=
  a ∈ agents ∧ available a = true ∧ capability ∈ capabilities a ∧ (agent_id a ∉ exclude_agent_ids) ∧
  ∀ b, budget_remaining = Some b → affordable b a = Ok true.

Lemma filter_res_spec {E A} (f : A → res E bool) l r :
  filter_res f l = Ok r → ∀ a, a ∈ r ↔ (a ∈ l ∧ f a = Ok true).
Proof.
  revert r. induction l as [|x l IH]; intros r; cbn [filter_res].
  { intros [= <-] a. rewrite !elem_of_nil. naive_solver. }
  intros (b & Hb & (r' & Hr & [= <-])%res_bind_Ok)%res_bind_Ok a. specialize (IH _ Hr a).
  destruct b; rewrite !elem_of_cons, IH.
  - split; [intros [->|[? ?]]; auto|]. intros [[->|?] ?]; auto.
  - split; [intros [? ?]; auto|]. intros [[->|?] Hf]; [congruence|done].
Qed.

Lemma candidates_for_spec agents c b ex cs a :
  candidates_for agents c b ex = Ok cs → (a ∈ cs ↔ eligible agents c b ex a).
Proof.
  unfold candidates_for, eligible, has_capability. intros H.
  assert (a ∈ cs ↔ a ∈ filter (λ a, agent_id a ∉ ex) (filter (λ a, bool_decide (c ∈ capabilities a) = true)
            (filter (λ a, available a = true) agents)) ∧ ∀ x, b = Some x → affordable x a = Ok true) as ->.
  { destruct b as [x|]; [|injection H as <-; naive_solver]. rewrite (filter_res_spec _ _ _ H a). naive_solver. }
  rewrite !list_elem_of_filter, bool_decide_eq_true. naive_solver.
Qed.

Lemma score_all_spec c l r :
  score_all c l = Ok r → map fst r = l ∧ Forall (λ p, _compute_score p.1 c = Ok p.2) r.
Proof.
  revert r. induction l as [|a l IH]; intros r; cbn [score_all]; [by intros [= <-]|].
  intros (s & Hs & (r' & Hr & [= <-])%res_bind_Ok)%res_bind_Ok. destruct (IH _ Hr) as [E Hf].
  cbn. split; [by rewrite E|by constructor].
Qed.

(** Scores that are numbers *)
Definition scored_ok (p : Agent * spec_float) : Prop := is_nan p.2 = false.

Lemma by_score_asym p q : scored_ok p → scored_ok q → by_score p q = true → by_score q p = false.
Proof.
  unfold by_score, scored_ok. intros Hp Hq. rewrite !f_lt_le by done. rewrite negb_true_iff, negb_false_iff.
  intros H. destruct (f_le_total p.2 q.2 Hp Hq); congruence.
Qed.

Lemma by_score_trans p q r :
  scored_ok p → scored_ok q → scored_ok r → by_score q p = false → by_score r q = false → by_score r p = false.
Proof.
  unfold by_score, scored_ok. intros Hp Hq Hr. rewrite !f_lt_le by done. rewrite !negb_false_iff.
  intros H1 H2. by eapply f_le_trans.
Qed.

(** Every eligible agent's score is a number. *)
Definition scores_are_numbers (agents : list Agent) (c : string) : Prop :=
  ∀ a s, a ∈ agents → _compute_score a c = Ok s → is_nan s = false.

Lemma lift_py_Ok {A} (m : res py_exn A) a : lift_py m = Ok a ↔ m = Ok a.
Proof. destruct m; cbn; naive_solver. Qed.

Lemma select_agent_Ok agents c b ex a :
  scores_are_numbers agents c → select_agent agents c b ex = Ok a →
  eligible agents c b ex a ∧ ∃ s, _compute_score a c = Ok s ∧
    ∀ a' s', eligible agents c b ex a' → _compute_score a' c = Ok s' → f_le s' s = true.
Proof.
  unfold select_agent. intros Hn (cs & Hcs%lift_py_Ok & H)%res_bind_Ok. destruct cs as [|c0 cs0]; [done|].
  apply res_bind_Ok in H as (scored & Hs%lift_py_Ok & H). apply score_all_spec in Hs as [Efst Hf].
  destruct (sort_by by_score scored) as [|[w s] rest] eqn:E; [done|]. injection H as ->.
  assert (Forall scored_ok scored) as Hok.
  { rewrite Forall_forall in *. intros p Hp. apply (Hn p.1); [|by apply Hf].
    apply (candidates_for_spec _ _ _ _ _ _ Hcs). rewrite <-Efst. by apply list_elem_of_fmap_2. }
  assert ((a, s) ∈ scored) as Hin by (rewrite <-(sort_by_perm by_score scored), E; left).
  rewrite Forall_forall in Hf. split; [|exists s; split; [by apply (Hf (a, s))|]].
  - apply (candidates_for_spec _ _ _ _ _ _ Hcs). rewrite <-Efst. by apply (list_elem_of_fmap_2 fst _ (a, s)).
  - intros a' s' He Hs'. apply (candidates_for_spec _ _ _ _ _ _ Hcs) in He. rewrite <-Efst in He.
    apply list_elem_of_fmap in He as ([a1 s1] & -> & Hin1). pose proof (Hf _ Hin1) as Hs1. cbn in Hs1, Hs'.
    rewrite Hs' in Hs1. injection Hs1 as <-. rewrite Forall_forall in Hok.
    assert (is_nan s' = false) as Hns' by apply (Hok _ Hin1). assert (is_nan s = false) as Hns by apply (Hok _ Hin).
    destruct (sort_by_head by_score scored_ok by_score_asym by_score_trans scored (a, s) rest (a1, s'))
      as [[= -> ->]|Hlt]; [by apply Forall_forall|done|done|by apply f_le_refl|].
    unfold by_score in Hlt. cbn in Hlt. rewrite f_lt_le in Hlt by done. by apply negb_false_iff in Hlt.
Qed.

Lemma select_agent_unavailable agents c b ex :
  select_agent agents c b ex = Err AgentUnavailableError → ∀ a, ¬ eligible agents c b ex a.
Proof.
  unfold select_agent. destruct (candidates_for agents c b ex) as [cs|e] eqn:Hcs; [|done]. cbn [lift_py res_catch res_bind].
  destruct cs as [|c0 cs0].
  { intros _ a He. apply (candidates_for_spec _ _ _ _ _ _ Hcs) in He. by apply elem_of_nil in He. }
  destruct (score_all c (c0 :: cs0)) as [scored|e] eqn:Hs; [|done]. cbn [lift_py res_catch res_bind].
  destruct (sort_by by_score scored) as [|[w s] rest] eqn:E; [|done]. intros _ a _.
  apply score_all_spec in Hs as [Efst _]. pose proof (sort_by_perm by_score scored) as Hp. rewrite E in Hp.
  apply Permutation_nil_l in Hp. by subst scored.
Qed.

(** Agents that can be paid one after the other *)
Fixpoint paid_within (remaining : spec_float) (l : list (string * Agent)) : Prop :=
  match l with
  | [] => True
  | (_, a) :: l => affordable remaining a = Ok true ∧ ∃ r, spend remaining a = Ok r ∧ paid_within r l
  end.

Lemma assign_nodes_spec agents ns remaining l :
  assign_nodes agents ns remaining = Ok l → (∀ n, n ∈ ns → scores_are_numbers agents (capability n)) →
  map fst l = map node_id ns ∧ paid_within remaining l ∧
  Forall2 (λ n p, p.2 ∈ agents ∧ available p.2 = true ∧ capability n ∈ capabilities p.2) ns l.
Proof.
  revert remaining l. induction ns as [|n ns IH]; intros remaining l; cbn [assign_nodes]; [by intros [= <-]|].
  intros (a & Ha & (r & Hr%lift_py_Ok & (rest & Hrest & [= <-])%res_bind_Ok)%res_bind_Ok)%res_bind_Ok Hn.
  apply select_agent_Ok in Ha as [(Hin & Hsel & Hcap & _ & Hpay) _]; [|apply Hn; left].
  destruct (IH _ _ Hrest) as (E & Hw & Hf); [intros m Hm; apply Hn; by right|].
  cbn. split_and!; [by rewrite E|by apply Hpay|by exists r|by constructor].
Qed.

Lemma dict_get_assigned (l : list (string * Agent)) d id :
  NoDup (map fst l) →
  dict_get id (d_nodes (foldl (λ d '(id, a), update_node (assign_agent a) id d) d l)) =
  match dict_get id l with
  | Some a => assign_agent a <$> dict_get id (d_nodes d)
  | None => dict_get id (d_nodes d)
  end.
Proof.
  revert d. induction l as [|[i a] l IH]; intros d; [done|]. cbn [map fst]. intros [Hi Hnd]%NoDup_cons.
  cbn [foldl]. rewrite IH by done. cbn [d_nodes update_node dict_get]. rewrite dict_get_alter.
  destruct (decide (i = id)) as [->|]; [|done]. apply dict_get_None in Hi. by rewrite Hi.
Qed.

Lemma select_agents_for_dag' agents dag budget assignments dag' :
  valid_dag dag → (∀ n, n ∈ nodes dag → scores_are_numbers agents (capability n)) →
  select_agents_for_dag agents dag budget = Ok (assignments, dag') →
  map fst assignments ≡ₚ node_ids dag ∧ paid_within budget assignments ∧
  ∀ n, n ∈ nodes dag → ∃ a, dict_get (node_id n) assignments = Some a ∧
    a ∈ agents ∧ available a = true ∧ capability n ∈ capabilities a ∧
    dict_get (node_id n) (d_nodes dag') = Some (assign_agent a n).
Proof.
  intros Hv Hn. destruct (topological_sort_spec' dag Hv) as (ns & Ens & Hp & _). unfold select_agents_for_dag. rewrite Ens.
  cbn [res_catch res_bind]. intros (l & Hl & [= <- <-])%res_bind_Ok. destruct Hv as (Hwf & _).
  apply assign_nodes_spec in Hl as (E & Hw & Hf); [|intros n Hin; apply Hn; by rewrite <-Hp].
  assert (map fst l ≡ₚ node_ids dag) as Hids by (rewrite E, Hp; by rewrite map_node_id_nodes).
  assert (NoDup (map fst l)) as Hnd by (rewrite Hids; apply wf_keys, Hwf).
  split_and!; [done|done|]. intros n Hin. rewrite <-Hp in Hin.
  apply list_elem_of_lookup in Hin as [i Hi]. destruct (Forall2_lookup_l _ _ _ _ _ Hf Hi) as ([id a] & Hi' & Ha & Hs & Hc).
  assert (id = node_id n) as ->.
  { assert (map fst l !! i = Some id) as H1 by (rewrite list_lookup_fmap, Hi'; done).
    rewrite E in H1. change (map node_id ns) with (node_id <$> ns) in H1. rewrite list_lookup_fmap, Hi in H1. by injection H1. }
  assert (dict_get (node_id n) l = Some a) as Hg by (apply dict_get_elem_of; [done|by eapply list_elem_of_lookup_2]).
  exists a. split_and!; [done..|]. rewrite dict_get_assigned, Hg by done.
  assert (n ∈ nodes dag) as Hin0 by (rewrite <-Hp; by eapply list_elem_of_lookup_2). cbn.
  by rewrite (proj1 (nodes_get dag n Hwf) Hin0).
Qed.

(** ** Theorems *)

(** [select_agent] picks a best eligible agent.  When the scores are numbers,
    a returned agent is active or degraded, has the capability, is not excluded
    and costs no more than the remaining budget, and no eligible agent scores
    higher; [AgentUnavailableError] is raised only when no agent is eligible. *)
Theorem select_agent_spec agents c b ex :
  scores_are_numbers agents c →
  match select_agent agents c b ex with
  | Ok a => eligible agents c b ex a ∧ ∃ s, _compute_score a c = Ok s ∧
      ∀ a' s', eligible agents c b ex a' → _compute_score a' c = Ok s' → f_le s' s = true
  | Err AgentUnavailableError => ∀ a, ¬ eligible agents c b ex a
  | Err _ => True
  end.
Proof.
  intros Hn. destruct (select_agent agents c b ex) as [a|[| |]] eqn:E; [|by eapply select_agent_unavailable|done|done].
  by apply select_agent_Ok.
Qed.

(** An assignment covers the workflow and stays within its budget.  When
    [select_agents_for_dag] returns for a valid graph, every node has exactly
    one agent, which is active or degraded and has the node's capability and is
    recorded in the node, and in topological order each agent's cost is at most
    what the agents before it left of the budget. *)
Theorem select_agents_for_dag_spec agents dag budget assignments dag' :
  valid_dag dag → (∀ n, n ∈ nodes dag → scores_are_numbers agents (capability n)) →
  select_agents_for_dag agents dag budget = Ok (assignments, dag') →
  map fst assignments ≡ₚ node_ids dag ∧ paid_within budget assignments ∧
  ∀ n, n ∈ nodes dag → ∃ a, dict_get (node_id n) assignments = Some a ∧
    a ∈ agents ∧ available a = true ∧ capability n ∈ capabilities a ∧
    dict_get (node_id n) (d_nodes dag') = Some (assign_agent a n).
Proof. exact (select_agents_for_dag' agents dag budget assignments dag'). Qed.

(** ** Concrete runs *)

(** An agent of the capabilities [cs] with a trust and a cost in hundredths *)
Definition worker (id : N) (cs : list string) (st : AgentStatus.t) (trust cost : Z) : Agent := {|
  agent_id := UUID id; name := "w"; description := ""; capabilities := cs; supported_tools := [];
  cost_profile := [("avg_cost_per_call", VFloat (hundredths cost))]; latency_profile := [("p95_ms", VInt 3000)];
  trust_score := hundredths trust; version := "1"; safety_level := 1; status := st; health_check_url := None;
  last_health_check := None; metadata_ := [] |}.

Definition team : list Agent :=
  [worker 1 ["x"] AgentStatus.ACTIVE 50 1; worker 2 ["x"] AgentStatus.ACTIVE 90 3;
   worker 3 ["x"] AgentStatus.INACTIVE 99 1; worker 4 ["y"] AgentStatus.ACTIVE 99 1].

Definition chosen_id (r : res select_exn Agent) : option N :=
  match r with Ok a => Some (uuid_int (agent_id a)) | Err _ => None end.

Example select_rich : chosen_id (select_agent team "x" (Some (hundredths 5)) []) = Some 2%N.
Proof. vm_compute. reflexivity. Qed.

Example select_poor : chosen_id (select_agent team "x" (Some (hundredths 2)) []) = Some 1%N.
Proof. vm_compute. reflexivity. Qed.

Example third : div_int (VInt 5000) 15000 = Ok (f_div (f_of_Z 1) (f_of_Z 3)).
Proof. vm_compute. reflexivity. Qed.

(** Every score of the team can be computed and is a number. *)
Lemma team_scores c : scores_are_numbers team c.
Proof.
  assert (∀ a, a ∈ team → match _compute_score a c with Ok s => is_nan s = false | Err _ => True end) as H.
  { apply Forall_forall. unfold _compute_score.
    assert (∀ a, is_nan (match (cost_eff <~ res_map inverted (div_float (_get_avg_cost a) (hundredths 5));
      latency_score <~ res_map inverted (div_int (default (VInt 5000) (dict_get "p95_ms" (latency_profile a))) 15000);
      Ok (f_add (f_add (f_add (f_add (f_mul W_TRUST (trust_score a)) (f_mul W_COST cost_eff)) (f_mul W_LATENCY latency_score))
        (f_mul W_CAPABILITY (if has_capability c a then f_of_Z 1 else f_of_Z 0)))
        (f_mul W_HEALTH (if decide (status a = AgentStatus.ACTIVE) then f_of_Z 1 else float_half)))) with
      Ok s => s | Err _ => f_of_Z 0 end) = false → match _compute_score a c with Ok s => is_nan s = false | Err _ => True end) as Hstep.
    { intros a. unfold _compute_score. by destruct (res_bind _ _). }
    repeat apply Forall_cons_2; [..|apply Forall_nil_2]; apply Hstep; destruct (has_capability c _); vm_compute; reflexivity. }
  intros a s Ha Hs. specialize (H a Ha). by rewrite Hs in H.
Qed.

Lemma select_agent_spec_witness :
  ∃ a, select_agent team "x" (Some (hundredths 5)) [] = Ok a ∧ eligible team "x" (Some (hundredths 5)) [] a.
Proof.
  pose proof (select_agent_spec team "x" (Some (hundredths 5)) [] (team_scores "x")) as H.
  assert (is_ok (select_agent team "x" (Some (hundredths 5)) []) = true) as Hok by (vm_compute; reflexivity).
  apply is_ok_Ok in Hok as [a E]. rewrite E in H. exists a. apply conj; [exact E|exact (proj1 H)].
Defined.

Definition two_steps : DAG := build [
  {| node_id := "a"; capability := "x"; Dag.description := ""; depends_on := []; estimated_complexity := "low";
     assigned_agent_id := None; task_id := None; Dag.status := PENDING; output := None; error := None |};
  {| node_id := "b"; capability := "x"; Dag.description := ""; depends_on := ["a"]; estimated_complexity := "low";
     assigned_agent_id := None; task_id := None; Dag.status := PENDING; output := None; error := None |}].

Lemma two_steps_valid : valid_dag two_steps.
Proof.
  apply (DAG_init_valid (nodes two_steps)); [|vm_compute; reflexivity].
  apply (bool_decide_eq_true_1 (NoDup (map node_id (nodes two_steps)))). vm_compute. reflexivity.
Qed.

(** The second node gets the cheaper agent. *)
Example two_steps_budget :
  match select_agents_for_dag team two_steps (hundredths 5) with
  | Ok (l, _) => map (λ p, (p.1, uuid_int (agent_id p.2))) l = [("a", 2%N); ("b", 1%N)]
  | Err _ => False
  end.
Proof. vm_compute. reflexivity. Qed.

Lemma select_agents_for_dag_spec_witness :
  ∃ l dag', select_agents_for_dag team two_steps (hundredths 5) = Ok (l, dag') ∧ paid_within (hundredths 5) l.
Proof.
  assert (is_ok (select_agents_for_dag team two_steps (hundredths 5)) = true) as Hok by (vm_compute; reflexivity).
  apply is_ok_Ok in Hok as [[l dag'] E]. exists l, dag'. apply conj; [exact E|].
  exact (proj1 (proj2 (select_agents_for_dag_spec team two_steps (hundredths 5) l dag' two_steps_valid
    (λ n _, team_scores (capability n)) E))).
Defined.
