(* ===== verification/Trust.v ===== *)
(** * Trust: scores that follow the events

    Models [services/trust_service.py] on the table of Agents.v.  [math.log] and
    [math.pow] are the C library's, [statistics.mean] and [stdev] are exact sums
    rounded once; all four are parameters.  Times are in microseconds; an event
    carries the time at which the database records it.  Rows locked by another
    transaction ([skip_locked]) are those that [locked] names. *)

From Stdlib Require Import ZArith Lia Floats.SpecFloat.
From stdpp Require Import base tactics strings gmap sorting list.
From S2P Require Import Prelude PyStr Dict Json PyVal PyFloat Uuid Agents.

#[local] Open Scope Z_scope.

Definition percent (n : Z) : spec_float := f_div (f_of_Z n) (f_of_Z 100).

Definition TRUST_FLOOR : spec_float := percent 1.
Definition TRUST_CEILING : spec_float := percent 99.
Definition CONSISTENCY_WINDOW : nat := 20.
Definition RELIABILITY_ALPHA : Z := 2.
Definition RELIABILITY_BETA : Z := 2.

(** [schemas/trust.py] checks that each score is between 0 and 1. *)
Record TrustScoreInput := {
  quality_score : spec_float;
  latency_score : spec_float;
  cost_score : spec_float;
  consistency_score : spec_float;
  reliability_score : spec_float;
}.

Record TrustEvent := {
  te_agent_id : uuid;
  te_workflow_id : option uuid;
  te_task_id : option uuid;
  te_scores : TrustScoreInput;
  composite_score : spec_float;
  old_trust : spec_float;
  new_trust : spec_float;
  te_created_at : Z;
}.

(** The settings, with the weights of the five dimensions *)
Record trust_settings := {
  trust_decay_rate : spec_float;
  trust_decay_interval_hours : Z;
  trust_learning_rate : spec_float;
  w_quality : spec_float;
  w_speed : spec_float;
  w_cost : spec_float;
  w_consistency : spec_float;
  w_reliability : spec_float;
}.

Record trust_state := {
  ts_agents : list Agent;
  trust_events : list TrustEvent;
}.

Definition f1 : spec_float := f_of_Z 1.

Definition events_of (id : uuid) (st : trust_state) : list TrustEvent :=
  filter (λ e, te_agent_id e = id) (trust_events st).

Definition _count_interactions (id : uuid) (st : trust_state) : Z := Z.of_nat (length (events_of id st)).

(** [max(created_at)] *)
Definition last_event_time (id : uuid) (st : trust_state) : option Z :=
  match events_of id st with
  | [] => None
  | e :: es => Some (foldl Z.max (te_created_at e) (map te_created_at es))
  end.

Definition _hours_since_last_event (id : uuid) (now : Z) (st : trust_state) : spec_float :=
  match last_event_time id st with
  | None => f_of_Z 0
  | Some t => f_div (f_div (f_of_Z (now - t)) (f_of_Z 1000000)) (f_of_Z 3600)
  end.

Definition composite (s : trust_settings) (i : TrustScoreInput) : spec_float :=
  f_add (f_add (f_add (f_add (f_mul (w_quality s) (quality_score i)) (f_mul (w_speed s) (latency_score i)))
    (f_mul (w_cost s) (cost_score i))) (f_mul (w_consistency s) (consistency_score i)))
    (f_mul (w_reliability s) (reliability_score i)).

Definition clamped (t : spec_float) : spec_float := f_max TRUST_FLOOR (f_min TRUST_CEILING t).

(** Clamp to [0, 1]. *)
Definition unit_clamped (t : spec_float) : spec_float := f_max (f_of_Z 0) (f_min f1 t).

Section service.
Context (log : spec_float → spec_float) (pow : spec_float → spec_float → spec_float).
Context (mean stdev : list spec_float → spec_float) (s : trust_settings).

Definition decay_factor (hours : spec_float) : spec_float :=
  pow (f_sub f1 (trust_decay_rate s)) (f_div hours (f_of_Z (Z.max (trust_decay_interval_hours s) 1))).

Definition learning_rate (interactions : Z) : spec_float :=
  f_div (trust_learning_rate s) (f_add f1 (log (f_add f1 (f_of_Z interactions)))).

(** [created] is the time at which the database records the event. *)
Definition record_trust_event (id : uuid) (scores : TrustScoreInput) (workflow_id task_id : option uuid)
    (now created : Z) (st : trust_state) : res agent_exn (TrustEvent * trust_state) :=
  agent <~ res_of_option NotFoundError (find_agent (ts_agents st) id);
  let old := trust_score agent in
  let comp := composite s scores in
  let alpha := learning_rate (_count_interactions id st) in
  let decayed_trust := f_mul old (decay_factor (_hours_since_last_event id now st)) in
  let new := clamped (f_add (f_mul (f_sub f1 alpha) decayed_trust) (f_mul alpha comp)) in
  let event := {| te_agent_id := id; te_workflow_id := workflow_id; te_task_id := task_id; te_scores := scores;
                  composite_score := comp; old_trust := old; new_trust := new; te_created_at := created |} in
  Ok (event, {| ts_agents := save_agent (ts_agents st) (with_trust agent new);
                trust_events := trust_events st ++ [event] |}).

(** Newest first, among those of one agent *)
Definition recent_quality (id : uuid) (st : trust_state) : list spec_float :=
  map (λ e, quality_score (te_scores e))
    (take CONSISTENCY_WINDOW (sort_by (λ a b, te_created_at b <? te_created_at a) (events_of id st))).

Definition compute_consistency_score (id : uuid) (st : trust_state) : spec_float :=
  let scores := recent_quality id st in
  if (length scores <? 2)%nat then float_half
  else
    let avg := mean scores in
    if cmp_is Eq (num_cmp (num_of_float avg) (NFin 0 0)) then float_half
    else
      let cv := f_div (stdev scores) avg in
      unit_clamped (f_sub f1 (f_div (f_min cv (f_of_Z 2)) (f_of_Z 2))).

Definition compute_reliability_score (id : uuid) (st : trust_state) : spec_float :=
  let total := _count_interactions id st in
  let successes := Z.of_nat (length (filter (λ e, f_lt float_half (quality_score (te_scores e)) = true) (events_of id st))) in
  unit_clamped (f_div (f_of_Z (successes + RELIABILITY_ALPHA)) (f_of_Z (total + RELIABILITY_ALPHA + RELIABILITY_BETA))).

(** One agent of the batch: its new score when it changes enough *)
Definition decay_agent (now : Z) (st : trust_state) (a : Agent) : option spec_float :=
  let hours_since := _hours_since_last_event (agent_id a) now st in
  if f_lt hours_since (f_of_Z (trust_decay_interval_hours s)) then None
  else
    let new := f_max TRUST_FLOOR (f_mul (trust_score a) (decay_factor hours_since)) in
    if f_lt (f_div (f_of_Z 1) (f_of_Z 10000)) (f_abs (f_sub new (trust_score a))) then Some new else None.

Definition in_batch (locked : gset uuid) (a : Agent) : bool :=
  (bool_decide (status a = AgentStatus.ACTIVE) || bool_decide (status a = AgentStatus.DEGRADED)) &&
  bool_decide (agent_id a ∉ locked).

Definition decay_all_scores (locked : gset uuid) (now : Z) (st : trust_state) : nat * trust_state :=
  let new_row a := if in_batch locked a then match decay_agent now st a with Some t => with_trust a t | None => a end else a in
  let decayed := filter (λ a, in_batch locked a && bool_decide (is_Some (decay_agent now st a)) = true) (ts_agents st) in
  (length decayed, {| ts_agents := map new_row (ts_agents st); trust_events := trust_events st |}).
End service.

(** ** The averages of one agent *)

Record TrustBreakdown := {
  current_trust : spec_float;
  quality_avg : spec_float;
  speed_avg : spec_float;
  cost_avg : spec_float;
  consistency_avg : spec_float;
  reliability_avg : spec_float;
  total_interactions : Z;
  last_updated : option Z;
}.

(** [avg] is the database's, [None] over no rows. *)
Definition get_trust_breakdown (avg : list spec_float → option spec_float) (id : uuid) (st : trust_state)
    : res agent_exn TrustBreakdown :=
  agent <~ res_of_option NotFoundError (find_agent (ts_agents st) id);
  let mean_of (f : TrustScoreInput → spec_float) :=
    default (f_of_Z 0) (avg (map (λ e, f (te_scores e)) (events_of id st))) in
  Ok {| current_trust := trust_score agent; quality_avg := mean_of quality_score; speed_avg := mean_of latency_score;
        cost_avg := mean_of cost_score; consistency_avg := mean_of consistency_score;
        reliability_avg := mean_of reliability_score; total_interactions := _count_interactions id st;
        last_updated := last_event_time id st |}.

(** ** Bounds *)

Lemma floor_le_ceiling : f_le TRUST_FLOOR TRUST_CEILING = true.
Proof. vm_compute. reflexivity. Qed.

Lemma clamped_bounds t : f_le TRUST_FLOOR (clamped t) = true ∧ f_le (clamped t) TRUST_CEILING = true.
Proof. apply f_clamp; vm_compute; reflexivity. Qed.

Lemma unit_clamped_bounds t : f_le (f_of_Z 0) (unit_clamped t) = true ∧ f_le (unit_clamped t) f1 = true.
Proof. apply f_clamp; vm_compute; reflexivity. Qed.

Definition in_unit (t : spec_float) : Prop := f_le (f_of_Z 0) t = true ∧ f_le t f1 = true.

Lemma half_in_unit : in_unit float_half.
Proof. split; vm_compute; reflexivity. Qed.

(** What may happen to the scores *)
Inductive trust_op :=
  | Event (id : uuid) (scores : TrustScoreInput) (workflow_id task_id : option uuid) (now created : Z)
  | Decay (locked : gset uuid) (now : Z).

Section bounds.
Context (log : spec_float → spec_float) (pow : spec_float → spec_float → spec_float).
Context (mean stdev : list spec_float → spec_float) (s : trust_settings).

Definition trust_step (o : trust_op) (st : trust_state) : res agent_exn trust_state :=
  match o with
  | Event id scores w t now created => res_map snd (record_trust_event log pow s id scores w t now created st)
  | Decay locked now => Ok (decay_all_scores pow s locked now st).2
  end.

(** A request that fails changes nothing. *)
Definition trust_run (ops : list trust_op) (st : trust_state) : trust_state :=
  foldl (λ st o, match trust_step o st with Ok st' => st' | Err _ => st end) st ops.

Definition bounded (st : trust_state) : Prop :=
  (∀ a, a ∈ ts_agents st → f_le TRUST_FLOOR (trust_score a) = true) ∧
  (∀ e, e ∈ trust_events st → f_le TRUST_FLOOR (new_trust e) = true ∧ f_le (new_trust e) TRUST_CEILING = true).

Lemma trust_step_bounded o st st' : bounded st → trust_step o st = Ok st' → bounded st'.
Proof.
  intros [Ha He]. destruct o as [id i w t now created|locked now]; cbn [trust_step].
  - unfold record_trust_event. destruct (find_agent (ts_agents st) id) as [a|]; cbn [res_of_option res_bind res_map snd]; [|done].
    intros [= <-]. split; cbn [ts_agents trust_events].
    + intros b Hb. unfold save_agent in Hb. apply list_elem_of_fmap in Hb as (c & -> & Hc).
      case_decide; [cbn [trust_score with_trust]; exact (proj1 (clamped_bounds _))|by apply Ha].
    + intros e [Hin| ->%list_elem_of_singleton]%elem_of_app; [by apply He|apply clamped_bounds].
  - intros [= <-]. split; [|done]. cbn [decay_all_scores snd ts_agents]. intros b Hb. apply list_elem_of_fmap in Hb as (c & -> & Hc).
    destruct (in_batch locked c); [|by apply Ha]. unfold decay_agent. cbv zeta.
    destruct (f_lt (_hours_since_last_event _ _ _) _); [by apply Ha|].
    destruct (f_lt (f_div (f_of_Z 1) (f_of_Z 10000)) _); [|by apply Ha]. cbn [trust_score with_trust]. by apply f_max_ge_l.
Qed.

Lemma trust_run_bounded ops st : bounded st → bounded (trust_run ops st).
Proof.
  revert st. induction ops as [|o ops IH]; intros st Hb; [done|]. cbn. apply IH.
  destruct (trust_step o st) eqn:E; [by eapply trust_step_bounded|done].
Qed.

Lemma consistency_in_unit id st : in_unit (compute_consistency_score mean stdev id st).
Proof.
  unfold compute_consistency_score. repeat case_match; try apply half_in_unit. apply unit_clamped_bounds.
Qed.

Lemma reliability_in_unit id st : in_unit (compute_reliability_score id st).
Proof. apply unit_clamped_bounds. Qed.

(** ** One event *)

(** The new score is written to the agent and to the event, and to nothing else. *)
Lemma record_trust_event_frame id i w t now created st e st' :
  record_trust_event log pow s id i w t now created st = Ok (e, st') →
  trust_events st' = trust_events st ++ [e] ∧ te_agent_id e = id ∧
  (trust_score <$> find_agent (ts_agents st) id) = Some (old_trust e) ∧
  ∀ id', (trust_score <$> find_agent (ts_agents st') id') =
    if decide (id' = id) then Some (new_trust e) else trust_score <$> find_agent (ts_agents st) id'.
Proof.
  unfold record_trust_event. destruct (find_agent (ts_agents st) id) as [a|] eqn:Ea; cbn [res_of_option res_bind]; [|done].
  intros [= <- <-]. cbn [ts_agents trust_events te_agent_id old_trust new_trust]. split_and!; [done..|]. intros id'. apply find_agent_spec in Ea as Ea2. destruct Ea2 as [_ Hid].
  rewrite find_save. cbn [agent_id with_trust]. rewrite Hid. case_decide as Hd; [|done]. subst. by rewrite Ea.
Qed.
End bounds.

(** ** Theorems *)

(** Trust stays within its bounds.  From scores of at least the floor, after
    any sequence of trust events and decay runs, whatever the logarithm, the
    power and the settings compute (NaN included), every agent's score is at
    least 0.01, every score that an event recorded is between 0.01 and 0.99, and
    the consistency and reliability scores that are fed back into events are
    between 0 and 1, as the schema of an event demands. *)
Theorem trust_bounds log pow mean stdev s ops st id :
  bounded st →
  let st' := trust_run log pow s ops st in
  (∀ a, a ∈ ts_agents st' → f_le TRUST_FLOOR (trust_score a) = true) ∧
  (∀ e, e ∈ trust_events st' → f_le TRUST_FLOOR (new_trust e) = true ∧ f_le (new_trust e) TRUST_CEILING = true) ∧
  in_unit (compute_consistency_score mean stdev id st') ∧ in_unit (compute_reliability_score id st').
Proof.
  intros Hb. destruct (trust_run_bounded log pow s ops st Hb) as [H1 H2].
  split_and!; [done|done|apply consistency_in_unit|apply reliability_in_unit].
Qed.

(** ** Concrete runs *)

Definition default_settings : trust_settings := {|
  trust_decay_rate := percent 1; trust_decay_interval_hours := 24; trust_learning_rate := percent 30;
  w_quality := percent 35; w_speed := percent 15; w_cost := percent 15; w_consistency := percent 15;
  w_reliability := percent 20 |}.

(** Powers with whole exponents, and a logarithm that is exact at 1 *)
Definition int_pow (b e : spec_float) : spec_float :=
  match py_int (VFloat e) with Ok n => Nat.iter (Z.to_nat n) (f_mul b) f1 | Err _ => f1 end.

Definition flat_log (_ : spec_float) : spec_float := f_of_Z 0.

Definition perfect : TrustScoreInput := {|
  quality_score := f1; latency_score := f1; cost_score := f1; consistency_score := f1; reliability_score := f1 |}.

Definition an_agent : Agent := {|
  agent_id := UUID 1; name := "a"; description := ""; capabilities := []; supported_tools := []; cost_profile := [];
  latency_profile := []; trust_score := float_half; version := "1"; safety_level := 1; status := AgentStatus.ACTIVE;
  health_check_url := None; last_health_check := None; metadata_ := [] |}.

Definition hours (n : Z) : Z := n * 3600 * 1000000.

Definition after_event : trust_state :=
  trust_run flat_log int_pow default_settings [Event (UUID 1) perfect None None 0 0]
    {| ts_agents := [an_agent]; trust_events := [] |}.

Definition score_of (st : trust_state) : spec_float := default (f_of_Z 0) (trust_score <$> find_agent (ts_agents st) (UUID 1)).

Definition decayed (n : nat) : trust_state :=
  trust_run flat_log int_pow default_settings (repeat (Decay ∅ (hours 48)) n) after_event.

Example event_raises : f_lt float_half (score_of after_event) = true.
Proof. vm_compute. reflexivity. Qed.

(** Two idle days cost the factor 0.99^2.  The next run, at the same time, takes
    it off again, because the age of the last event is still two days. *)
Example decay_once : score_of (decayed 1) = f_mul (score_of after_event) (f_mul (percent 99) (percent 99)).
Proof. vm_compute. reflexivity. Qed.

Example decay_compounds :
  score_of (decayed 2) = f_mul (score_of (decayed 1)) (f_mul (percent 99) (percent 99)).
Proof. vm_compute. reflexivity. Qed.

Lemma trust_bounds_witness :
  let st' := trust_run flat_log int_pow default_settings [Decay ∅ (hours 48)] after_event in
  trust_events st' ≠ [] ∧ ∀ a, a ∈ ts_agents st' → f_le TRUST_FLOOR (trust_score a) = true.
Proof.
  apply conj; [vm_compute; discriminate|].
  refine (proj1 (trust_bounds flat_log int_pow (λ _, f1) (λ _, f1) default_settings [Decay ∅ (hours 48)] after_event (UUID 1) _)).
  apply trust_run_bounded. apply conj; [|intros e He; apply elem_of_nil in He; destruct He].
  intros a Ha. apply list_elem_of_singleton in Ha as ->. vm_compute. reflexivity.
Defined.
