(* ===== verification/KeyStore.v ===== *)
(** * KeyStore: the keys of a node and of its agents

    Models [identity/key_store.py], [get_instance_key_store] and
    [ensure_agent_keypair] of [services/identity_service.py].  The cipher is
    third-party: the class [Aead] has ChaCha20-Poly1305's seal and open,
    [LawfulAead] what the code relies on.  The key file, its temporary sibling
    and the archived keys are the part of the file system that the code writes;
    a rename replaces its target.  Random bytes are arguments. *)

From Stdlib Require Import Ascii NArith ZArith Lia.
From stdpp Require Import base tactics strings gmap list.
From S2P Require Import Prelude PyStr Dict Base58 Json Merkle Uuid Signer Did Agents.

#[local] Open Scope nat_scope.

Definition _NONCE_SIZE : nat := 12.

Abbreviation bytes := (list Byte.byte).

Class Aead := {
  aead_seal : bytes → bytes → bytes → bytes;
  aead_open : bytes → bytes → bytes → option bytes;
}.

Class LawfulAead `{Aead} := {
  aead_open_seal k n m : length k = 32 → length n = _NONCE_SIZE → aead_open k n (aead_seal k n m) = Some m;
  aead_seal_length k n m : length k = 32 → length n = _NONCE_SIZE → length (aead_seal k n m) = length m + 16;
}.

(** [CipherKeyError]: the cipher refuses a key that has not 32 bytes.
    [EntryError]: the [TypeError] of reading malformed metadata. *)
Inductive ks_exn :=
  | KeyStoreError
  | CipherKeyError
  | IdentityServiceError
  | HexError
  | EntryError
  | KeyError (e : codec_error)
  | BadDid (e : did_error).

(** ** The files *)

Record files := {
  key_file : option bytes;
  tmp_file : option bytes;
  archive : gmap Z bytes;
}.

Inductive file_op :=
  | WriteTmp (content : bytes)
  | ChmodTmp
  | RenameTmp
  | Archive (suffix : Z).

Definition do_op (f : files) (o : file_op) : files :=
  match o with
  | WriteTmp c => {| key_file := key_file f; tmp_file := Some c; archive := archive f |}
  | ChmodTmp => f
  | RenameTmp =>
      match tmp_file f with
      | Some c => {| key_file := Some c; tmp_file := None; archive := archive f |}
      | None => f
      end
  | Archive n =>
      match key_file f with
      | Some c => {| key_file := None; tmp_file := tmp_file f; archive := <[n := c]> (archive f) |}
      | None => f
      end
  end.

Definition run_ops (f : files) (ops : list file_op) : files := foldl do_op f ops.

(** [_persist_instance_key] *)
Definition _persist_instance_key (keypair : KeyPair) : list file_op :=
  [WriteTmp (private_seed keypair); ChmodTmp; RenameTmp].

(** [if self._instance_key_path.exists(): ... rename(archive_path)] *)
Definition archive_ops (f : files) (clock : Z) : list file_op :=
  match key_file f with Some _ => [Archive clock] | None => [] end.

(** ** The store *)

Record key_store := {
  disk : files;
  _kek : option bytes;
  _instance_keypair : option KeyPair;
}.

(** [bytes.fromhex(s)]: pairs of digits, with blanks between the pairs *)
Definition hex_blank (c : ascii) : bool :=
  let n := N_of_ascii c in ((n =? 32) || (9 <=? n) && (n <=? 13))%N.

Fixpoint fromhex (s : string) : option bytes :=
  match s with
  | EmptyString => Some []
  | String c s =>
      if hex_blank c then fromhex s
      else match s with
           | EmptyString => None
           | String d s =>
               h ← hex_value c; l ← hex_value d; r ← fromhex s; b ← Byte.of_N (16 * h + l); Some (b :: r)
           end
  end.

(** [_load_kek_from_env], given the environment variable *)
Definition _load_kek_from_env (raw : option string) : res ks_exn (option bytes) :=
  match raw with
  | None | Some "" => Ok None
  | Some raw =>
      kek <~ res_of_option KeyStoreError (fromhex raw);
      raise_if (negb (length kek =? 32)) KeyStoreError ;! Ok (Some kek)
  end.

(** [KeyStore.__init__]: an empty key counts as none. *)
Definition new_key_store (f : files) (key_encryption_key : option bytes) (env : option string) : res ks_exn key_store :=
  kek <~ match key_encryption_key with Some (b :: k) => Ok (Some (b :: k)) | _ => _load_kek_from_env env end;
  Ok {| disk := f; _kek := kek; _instance_keypair := None |}.

(** [get_instance_key_store], given the setting *)
Definition get_instance_key_store (f : files) (setting : string) (env : option string) : res ks_exn key_store :=
  kek <~ (if str_empty setting then Ok None
          else k <~ res_of_option IdentityServiceError (fromhex setting);
               raise_if (negb (length k =? 32)) IdentityServiceError ;! Ok (Some k));
  new_key_store f kek env.

Section keys.
Context `{!Ed25519, !Aead}.

Definition lift_key {A} (m : res codec_error A) : res ks_exn A := res_catch m (λ e, Err (KeyError e)).

(** [entropy] is the seed of a key created on the first run. *)
Definition instance_keypair (entropy : bytes) (ks : key_store) : res ks_exn (KeyPair * key_store) :=
  match _instance_keypair ks with
  | Some kp => Ok (kp, ks)
  | None =>
      match key_file (disk ks) with
      | Some seed =>
          raise_if (negb (length seed =? 32)) KeyStoreError ;!
          priv <~ lift_key (load_private_key seed);
          kp <~ lift_key (make_keypair seed (ed_public priv));
          Ok (kp, {| disk := disk ks; _kek := _kek ks; _instance_keypair := Some kp |})
      | None =>
          kp <~ lift_key (generate_keypair entropy);
          Ok (kp, {| disk := run_ops (disk ks) (_persist_instance_key kp); _kek := _kek ks; _instance_keypair := Some kp |})
      end
  end.

(** [clock] is [_monotonic_ns()]. *)
Definition rotate_ops (f : files) (clock : Z) (kp : KeyPair) : list file_op :=
  archive_ops f clock ++ _persist_instance_key kp.

Definition rotate_instance_keypair (entropy : bytes) (clock : Z) (ks : key_store) : res ks_exn (KeyPair * key_store) :=
  kp <~ lift_key (generate_keypair entropy);
  Ok (kp, {| disk := run_ops (disk ks) (rotate_ops (disk ks) clock kp); _kek := _kek ks; _instance_keypair := Some kp |}).

(** ** Agent keys *)

Definition wrap_agent_seed (nonce raw_seed : bytes) (ks : key_store) : res ks_exn bytes :=
  raise_if (negb (length raw_seed =? 32)) KeyStoreError ;!
  kek <~ res_of_option KeyStoreError (_kek ks);
  raise_if (negb (length kek =? 32)) CipherKeyError ;!
  Ok (nonce ++ aead_seal kek nonce raw_seed).

Definition unwrap_agent_seed (wrapped : bytes) (ks : key_store) : res ks_exn bytes :=
  raise_if (length wrapped <? _NONCE_SIZE + 16) KeyStoreError ;!
  kek <~ res_of_option KeyStoreError (_kek ks);
  raise_if (negb (length kek =? 32)) CipherKeyError ;!
  res_of_option KeyStoreError (aead_open kek (take _NONCE_SIZE wrapped) (drop _NONCE_SIZE wrapped)).

Definition _AGENT_KEY_METADATA_FIELD : string := "agent_facts_key".
Definition wrapped_field : string := "wrapped_private_seed_hex".

(** [meta_entry["wrapped_private_seed_hex"]] when [meta_entry] is true and
    contains the field *)
Definition stored_seed (meta_entry : option json) : res ks_exn (option json) :=
  match meta_entry with
  | None => Ok None
  | Some v =>
      if json_truth v then
        match v with
        | JObj items => Ok (dict_get (KStr wrapped_field) items)
        | JStr s => if PyVal.str_contains wrapped_field s then Err EntryError else Ok None
        | JList l => if existsb (λ x, match x with JStr s => String.eqb s wrapped_field | _ => false end) l
                     then Err EntryError else Ok None
        | _ => Err EntryError
        end
      else Ok None
  end.

(** [entropy] and [nonce] are the random bytes, [now] the text of the time. *)
Definition ensure_agent_keypair (entropy nonce : bytes) (now : string) (ks : key_store) (agent : Agent)
    : res ks_exn (KeyPair * Agent) :=
  stored <~ stored_seed (dict_get (KStr _AGENT_KEY_METADATA_FIELD) (metadata_ agent));
  match stored with
  | Some (JStr text) =>
      wrapped <~ res_of_option HexError (fromhex text);
      seed <~ unwrap_agent_seed wrapped ks;
      sk <~ lift_key (load_private_key seed);
      kp <~ lift_key (make_keypair seed (ed_public sk));
      Ok (kp, agent)
  | Some _ => Err EntryError
  | None =>
      kp <~ lift_key (generate_keypair entropy);
      wrapped <~ res_catch (wrap_agent_seed nonce (private_seed kp) ks)
                   (λ e, Err (match e with KeyStoreError => IdentityServiceError | e => e end));
      did <~ res_catch (build_did_key (public_bytes kp)) (λ e, Err (BadDid e));
      let entry := JObj [(KStr wrapped_field, JStr (hex wrapped));
                         (KStr "public_key_multibase", JStr (encode_multibase (public_bytes kp)));
                         (KStr "did", JStr did); (KStr "key_created_at", JStr now)] in
      Ok (kp, with_metadata agent (dict_set (KStr _AGENT_KEY_METADATA_FIELD) entry (metadata_ agent)))
  end.
End keys.

(** ** Hexadecimal text *)

Lemma fromhex_hex_byte b s : fromhex (hex_byte b +:+ s) = (r ← fromhex s; Some (b :: r)).
Proof. destruct b; reflexivity. Qed.

Lemma fromhex_hex l : fromhex (hex l) = Some l.
Proof. induction l as [|b l IH]; [done|]. cbn [hex]. by rewrite fromhex_hex_byte, IH. Qed.

Section facts.
Context {Ed : Ed25519} {EdLaw : LawfulEd25519} {Ae : Aead} {AeLaw : LawfulAead}.

Lemma lift_identity_Ok {A} (m : res codec_error A) a : lift_key m = Ok a ↔ m = Ok a.
Proof. destruct m; cbn; naive_solver. Qed.

Lemma make_proper seed kp : make_keypair seed (ed_public seed) = Ok kp → proper_keypair kp ∧ private_seed kp = seed.
Proof.
  unfold make_keypair. intros (?&Hl%raise_if_Ok&(?&_&[= <-])%res_bind_Ok)%res_bind_Ok.
  apply negb_false_iff, Nat.eqb_eq in Hl. by repeat split.
Qed.

Lemma generate_total entropy : length entropy = 32 → generate_keypair entropy = Ok {| private_seed := entropy; public_bytes := ed_public entropy |}.
Proof. intros Hl. unfold generate_keypair, make_keypair. by rewrite ed_public_length, Hl. Qed.

Lemma load_seed seed : length seed = 32 → load_private_key seed = Ok seed.
Proof. intros Hl. unfold load_private_key. by rewrite Hl. Qed.

Lemma make_of_proper kp : proper_keypair kp → make_keypair (private_seed kp) (ed_public (private_seed kp)) = Ok kp.
Proof. intros [Hl Hp]. unfold make_keypair. rewrite ed_public_length, Hl by done. cbn. rewrite <-Hp. by destruct kp. Qed.

(** ** Agent keys *)

Lemma wrap_unwrap ks kek nonce seed w :
  _kek ks = Some kek → length kek = 32 → length nonce = _NONCE_SIZE →
  wrap_agent_seed nonce seed ks = Ok w → unwrap_agent_seed w ks = Ok seed.
Proof.
  intros Hk Hl Hn. unfold wrap_agent_seed, unwrap_agent_seed. rewrite Hk. cbn [res_of_option res_bind].
  intros (?&Hs%raise_if_Ok&H)%res_bind_Ok. apply negb_false_iff, Nat.eqb_eq in Hs. rewrite Hl in H |- *. cbn in H.
  injection H as <-. rewrite length_app, aead_seal_length, Hn, Hs by done. cbn [Nat.ltb Nat.leb raise_if res_bind negb Nat.eqb].
  rewrite take_app_length', drop_app_length' by done. cbn [res_bind]. by rewrite aead_open_seal.
Qed.

Lemma stored_seed_entry items text :
  dict_get (KStr wrapped_field) items = Some text → stored_seed (Some (JObj items)) = Ok (Some text).
Proof. intros H. destruct items as [|kv items]; [done|]. cbn [stored_seed json_truth]. by rewrite H. Qed.

Lemma ensure_stable ks kek entropy nonce now a kp a' :
  _kek ks = Some kek → length kek = 32 → length nonce = _NONCE_SIZE →
  ensure_agent_keypair entropy nonce now ks a = Ok (kp, a') →
  proper_keypair kp ∧ ∀ entropy' nonce' now', ensure_agent_keypair entropy' nonce' now' ks a' = Ok (kp, a').
Proof.
  intros Hk Hl Hn H. unfold ensure_agent_keypair in H. apply res_bind_Ok in H as (stored & Hs & H).
  destruct stored as [[| |text| | | | |]|]; try done.
  - apply res_bind_Ok in H as (w & Hw & H). apply res_bind_Ok in H as (seed & Hu & H).
    apply res_bind_Ok in H as (sk & Hsk & H). apply res_bind_Ok in H as (kp' & Hkp & [= <- <-]).
    pose proof Hsk as Hsk'. apply lift_identity_Ok in Hsk. unfold load_private_key in Hsk.
    apply res_bind_Ok in Hsk as (?&_&[= <-]). pose proof Hkp as Hkp'. apply lift_identity_Ok, make_proper in Hkp as [Hp _].
    split; [done|]. intros e n t. unfold ensure_agent_keypair. rewrite Hs. cbn [res_bind]. rewrite Hw. cbn [res_bind].
    rewrite Hu. cbn [res_bind]. rewrite Hsk'. cbn [res_bind]. by rewrite Hkp'.
  - apply res_bind_Ok in H as (kp' & Hg%lift_identity_Ok & H). apply res_bind_Ok in H as (w & Hw & H).
    apply res_bind_Ok in H as (did & _ & [= <- <-]). apply generate_proper in Hg as Hp. split; [done|].
    assert (wrap_agent_seed nonce (private_seed kp') ks = Ok w) as Hw' by (by destruct (wrap_agent_seed _ _ _)).
    intros e n t. unfold ensure_agent_keypair. cbn [metadata_ with_metadata].
    rewrite dict_get_set_eq, (stored_seed_entry _ (JStr (hex w))) by done. cbn [res_bind].
    rewrite fromhex_hex. cbn [res_of_option res_bind]. rewrite (wrap_unwrap _ _ _ _ _ Hk Hl Hn Hw'). cbn [res_bind].
    rewrite load_seed by apply Hp. cbn [lift_key res_catch res_bind]. by rewrite make_of_proper.
Qed.

(** What is stored decides: an agent with the same entry has the same pair, whatever
    else of it has changed. *)
Lemma ensure_same_entry ks ks' a a2 kp e n t e' n' t' :
  _kek ks' = _kek ks → dict_get (KStr _AGENT_KEY_METADATA_FIELD) (metadata_ a2) =
                       dict_get (KStr _AGENT_KEY_METADATA_FIELD) (metadata_ a) →
  ensure_agent_keypair e n t ks a = Ok (kp, a) → ensure_agent_keypair e' n' t' ks' a2 = Ok (kp, a2).
Proof.
  intros Hk Hm H. unfold ensure_agent_keypair in *. rewrite Hm. apply res_bind_Ok in H as (stored & Hs & H). rewrite Hs.
  cbn [res_bind]. destruct stored as [[| |text| | | | |]|]; try done.
  - apply res_bind_Ok in H as (w & -> & H). apply res_bind_Ok in H as (seed & Hu & H). cbn [res_bind].
    assert (unwrap_agent_seed w ks' = Ok seed) as -> by (unfold unwrap_agent_seed in *; by rewrite Hk).
    cbn [res_bind]. apply res_bind_Ok in H as (sk & -> & H). cbn [res_bind].
    apply res_bind_Ok in H as (kp' & -> & H). by injection H as ->.
  - exfalso. apply res_bind_Ok in H as (? & _ & H). apply res_bind_Ok in H as (w & _ & H).
    apply res_bind_Ok in H as (did & _ & H). injection H as _ Ha. rewrite <-Ha in Hs. cbn [metadata_ with_metadata] in Hs.
    rewrite dict_get_set_eq in Hs. by rewrite (stored_seed_entry _ (JStr (hex w))) in Hs.
Qed.

Lemma ensure_total ks kek entropy nonce now a :
  _kek ks = Some kek → length kek = 32 → length entropy = 32 →
  dict_get (KStr _AGENT_KEY_METADATA_FIELD) (metadata_ a) = None →
  is_ok (ensure_agent_keypair entropy nonce now ks a) = true.
Proof.
  intros Hk Hl He Hm. unfold ensure_agent_keypair. rewrite Hm. cbn [stored_seed res_bind].
  rewrite generate_total by done. cbn [lift_key res_catch res_bind private_seed public_bytes].
  unfold wrap_agent_seed, build_did_key. rewrite Hk, He. cbn [res_of_option raise_if negb Nat.eqb res_bind res_catch].
  by rewrite Hl, ed_public_length.
Qed.

(** ** The instance key *)

Definition consistent (ks : key_store) : Prop :=
  ∀ kp, _instance_keypair ks = Some kp → proper_keypair kp ∧ key_file (disk ks) = Some (private_seed kp).

(** The process starts again on the same disk. *)
Definition restarted (ks : key_store) : key_store :=
  {| disk := disk ks; _kek := _kek ks; _instance_keypair := None |}.

Lemma persist_key_file f kp : key_file (run_ops f (_persist_instance_key kp)) = Some (private_seed kp).
Proof. done. Qed.

Lemma rotate_key_file f clock kp : key_file (run_ops f (rotate_ops f clock kp)) = Some (private_seed kp).
Proof. unfold rotate_ops, run_ops. rewrite foldl_app. apply persist_key_file. Qed.

Lemma instance_keypair_spec e ks kp ks' :
  consistent ks → instance_keypair e ks = Ok (kp, ks') →
  consistent ks' ∧ _instance_keypair ks' = Some kp ∧
  ∀ s, key_file (disk ks) = Some s → private_seed kp = s ∧ disk ks' = disk ks.
Proof.
  intros Hc H. unfold instance_keypair in H. destruct (_instance_keypair ks) as [kp0|] eqn:E.
  - injection H as -> ->. split_and!; [done|done|]. intros s Hs. destruct (Hc kp E) as [_ Hf]. split; congruence.
  - destruct (key_file (disk ks)) as [seed|] eqn:Ef.
    + apply res_bind_Ok in H as (?&_&H). apply res_bind_Ok in H as (sk & Hsk%lift_identity_Ok & H).
      apply res_bind_Ok in H as (kp' & Hkp%lift_identity_Ok & [= <- <-]).
      unfold load_private_key in Hsk. apply res_bind_Ok in Hsk as (?&_&[= <-]).
      apply make_proper in Hkp as [Hp Hs]. split_and!; [|done|intros s [= <-]; by split].
      intros kp2 [= <-]. split; [done|]. cbn. by rewrite Ef, Hs.
    + apply res_bind_Ok in H as (kp' & Hg%lift_identity_Ok & [= <- <-]). apply generate_proper in Hg.
      split_and!; [|done|done]. by intros kp2 [= <-].
Qed.

Lemma rotate_consistent e clock ks kp ks' :
  rotate_instance_keypair e clock ks = Ok (kp, ks') → consistent ks' ∧ _instance_keypair ks' = Some kp.
Proof.
  unfold rotate_instance_keypair. intros (kp' & Hg%lift_identity_Ok & [= <- <-])%res_bind_Ok. apply generate_proper in Hg.
  split; [|done]. intros kp2 [= <-]. split; [done|]. cbn. apply rotate_key_file.
Qed.

(** A restart finds the key again. *)
Lemma restart_keypair e ks kp :
  consistent ks → _instance_keypair ks = Some kp →
  ∃ ks', instance_keypair e (restarted ks) = Ok (kp, ks') ∧ consistent ks'.
Proof.
  intros Hc Hk. destruct (Hc kp Hk) as [Hp Hf]. unfold instance_keypair, restarted. cbn [_instance_keypair disk].
  rewrite Hf, load_seed by apply Hp. destruct Hp as [Hl Hpub] eqn:E. rewrite Hl. cbn [Nat.eqb negb raise_if lift_key res_catch res_bind].
  rewrite make_of_proper by done. cbn. eexists. split; [reflexivity|]. by intros kp2 [= <-].
Qed.

(** Every state a rotation may stop in: with the first [n] of its steps done *)
Lemma rotate_crash_states f clock kp n :
  let f' := run_ops f (take n (rotate_ops f clock kp)) in
  (key_file f' = key_file f ∨ key_file f' = None ∨ key_file f' = Some (private_seed kp)) ∧
  (∀ s, key_file f = Some s → key_file f' = Some s ∨ archive f' !! clock = Some s) ∧
  (∀ m, m ≠ clock → archive f' !! m = archive f !! m).
Proof.
  unfold rotate_ops, archive_ops, run_ops. destruct f as [[s|] t ar]; cbn [key_file app _persist_instance_key].
  - destruct n as [|[|[|[|n]]]]; simpl; rewrite ?take_nil; simpl; split_and!; auto;
      first [intros s' [= <-]; by auto|intros s' [= <-]; right; by rewrite lookup_insert_eq
            |intros m Hm; by rewrite lookup_insert_ne].
  - destruct n as [|[|[|n]]]; simpl; rewrite ?take_nil; simpl; split_and!; auto; by intros ? [=].
Qed.
End facts.

(** ** Theorems *)

(** An agent keeps its key.  With a 32-byte encryption key, the pair that
    [ensure_agent_keypair] returns is a proper one, and any later call on the
    agent as it was stored returns the same pair and changes nothing, whatever
    the random bytes: the seed survives wrapping, hexadecimal text and the
    metadata column.  For an agent without an entry the call succeeds. *)
Theorem agent_key_stable {Ed : Ed25519} {EdLaw : LawfulEd25519} {Ae : Aead} {AeLaw : LawfulAead}
    ks kek entropy nonce now a :
  _kek ks = Some kek → length kek = 32 → length nonce = _NONCE_SIZE → length entropy = 32 →
  (dict_get (KStr _AGENT_KEY_METADATA_FIELD) (metadata_ a) = None →
   is_ok (ensure_agent_keypair entropy nonce now ks a) = true) ∧
  ∀ kp a', ensure_agent_keypair entropy nonce now ks a = Ok (kp, a') →
    proper_keypair kp ∧ ∀ entropy' nonce' now', ensure_agent_keypair entropy' nonce' now' ks a' = Ok (kp, a').
Proof.
  intros Hk Hl Hn He. split; [by eapply ensure_total|]. intros kp a'. by eapply ensure_stable.
Qed.

(** C31: a node keeps its key.  The pair that [instance_keypair] returns is found
    again after a restart, and however far a later rotation gets before the
    process stops, the seed is still in the key file or in the archive of that
    rotation, and the key file is absent or holds one of the two seeds. *)
Theorem instance_key_survives {Ed : Ed25519} {EdLaw : LawfulEd25519} e ks kp ks' :
  consistent ks → instance_keypair e ks = Ok (kp, ks') →
  consistent ks' ∧ (∀ e', ∃ ks'', instance_keypair e' (restarted ks') = Ok (kp, ks'')) ∧
  ∀ clock kp' n,
    let f := run_ops (disk ks') (take n (rotate_ops (disk ks') clock kp')) in
    (key_file f = Some (private_seed kp) ∨ archive f !! clock = Some (private_seed kp)) ∧
    (key_file f = Some (private_seed kp) ∨ key_file f = None ∨ key_file f = Some (private_seed kp')).
Proof.
  intros Hc H. destruct (instance_keypair_spec _ _ _ _ Hc H) as (Hc' & Hk & _). destruct (Hc' _ Hk) as [_ Hf].
  split_and!; [done| |].
  - intros e'. destruct (restart_keypair e' ks' kp Hc' Hk) as (ks'' & ? & _). by exists ks''.
  - intros clock kp' n. destruct (rotate_crash_states (disk ks') clock kp' n) as (H1 & H2 & _).
    rewrite Hf in H1. split; [by apply H2|done].
Qed.

(** ** Concrete runs *)

(** A cipher to evaluate the definitions with; it has no security. *)
#[export] Instance toy_aead : Aead := {|
  aead_seal k n m := m ++ repeat Byte.x00 16;
  aead_open k n c := Some (take (length c - 16) c) |}.

#[export] Instance toy_aead_lawful : LawfulAead.
Proof.
  split; intros k n m _ _; cbn [aead_seal aead_open toy_aead]; [|by rewrite length_app, repeat_length].
  f_equal. rewrite length_app, repeat_length. replace (length m + 16 - 16) with (length m) by lia. by apply take_app_length'.
Qed.

Definition seed_of (b : Byte.byte) : bytes := repeat b 32.
Definition toy_store : key_store := {|
  disk := {| key_file := None; tmp_file := None; archive := ∅ |}; _kek := Some (seed_of Byte.x2a); _instance_keypair := None |}.

Definition no_agent : Agent := {|
  agent_id := UUID 1; name := "a"; description := ""; capabilities := []; supported_tools := []; cost_profile := [];
  latency_profile := []; trust_score := PyVal.float_half; version := "1"; safety_level := 1%Z; status := AgentStatus.ACTIVE;
  health_check_url := None; last_health_check := None; metadata_ := [] |}.

Lemma agent_key_stable_witness :
  ∃ kp a', ensure_agent_keypair (seed_of Byte.x01) (repeat Byte.x00 12) "t" toy_store no_agent = Ok (kp, a') ∧
    ensure_agent_keypair (seed_of Byte.x02) (repeat Byte.x00 12) "u" toy_store a' = Ok (kp, a').
Proof.
  destruct (agent_key_stable toy_store (seed_of Byte.x2a) (seed_of Byte.x01) (repeat Byte.x00 12) "t" no_agent
    eq_refl eq_refl eq_refl eq_refl) as [Hok Hall].
  specialize (Hok eq_refl). apply is_ok_Ok in Hok as [[kp a'] E]. exists kp, a'. apply conj; [exact E|].
  exact (proj2 (Hall kp a' E) _ _ _).
Defined.

Lemma instance_key_survives_witness :
  ∃ kp ks', instance_keypair (seed_of Byte.x01) toy_store = Ok (kp, ks') ∧
    ∃ ks'', instance_keypair (seed_of Byte.x02) (restarted ks') = Ok (kp, ks'').
Proof.
  assert (is_ok (instance_keypair (seed_of Byte.x01) toy_store) = true) as Hok by (vm_compute; reflexivity).
  apply is_ok_Ok in Hok as [[kp ks'] E]. exists kp, ks'. apply conj; [exact E|].
  refine (proj1 (proj2 (instance_key_survives _ _ _ _ _ E)) _). intros k Hk. discriminate Hk.
Defined.

(** Two rotations at the same reading of the clock, which starts again with the
    machine: the second archive replaces the first, and the first key is gone. *)
Definition rotated (b : Byte.byte) (clock : Z) (r : res ks_exn key_store) : res ks_exn key_store :=
  ks <~ r; res_map snd (rotate_instance_keypair (seed_of b) clock ks).

Definition after_two_rotations : files :=
  match rotated Byte.x03 7 (rotated Byte.x02 7 (res_map snd (instance_keypair (seed_of Byte.x01) toy_store))) with
  | Ok ks => disk ks
  | Err _ => disk toy_store
  end.

Example archive_overwritten :
  (key_file after_two_rotations, map_to_list (archive after_two_rotations)) =
  (Some (seed_of Byte.x03), [(7%Z, seed_of Byte.x02)]).
Proof. vm_compute. reflexivity. Qed.

(** Changing an agent's metadata through the registry drops the entry with its
    key, so that the next call draws another one. *)
Definition keep_metadata_only (st : state) : option (list (pykey * json)) :=
  match update_agent (UUID 1) [F_metadata (Some [(KStr "team", JStr "a")])] st with
  | Ok (a, _) => Some (metadata_ a)
  | Err _ => None
  end.

Example update_drops_key items :
  keep_metadata_only {| agents := [with_metadata no_agent ((KStr _AGENT_KEY_METADATA_FIELD, JObj items) :: [])]; failures := ∅ |}
  = Some [(KStr "team", JStr "a")].
Proof. reflexivity. Qed.
