(* ===== verification/AgentFacts.v ===== *)
(** * AgentFacts: signed identity documents

    Models [identity/agent_facts.py] and [verify_document] of
    [services/identity_service.py].  A document is a record with the fields of
    the pydantic models; [to_document] and [signable_body] are their
    [model_dump(by_alias=True, exclude_none=True)], which leaves out fields
    that are [None] and copies the free-form dictionaries.  Reading a document
    back ([model_validate]) is pydantic's and a parameter.  [now] is the time
    in the text the code writes. *)

From Stdlib Require Import Ascii ZArith Lia.
From stdpp Require Import base tactics strings list.
From S2P Require Import Prelude PyStr Base58 Json Did Signer.

Definition INTEGRITY_CRYPTOSUITE : string := "eddsa-rdfc-2022".
Definition INTEGRITY_PROOF_TYPE : string := "DataIntegrityProof".
Definition INTEGRITY_CREDENTIAL_TYPE : string := "AgentFactsIntegrityCredential".

(** A [dict[str, Any]] *)
Abbreviation jdict := (list (pykey * json)).

Record Provider := { pr_name : string; pr_url : string; pr_did : option string }.

Record Endpoints := { static : list string; adaptive_resolver : option jdict }.

Record CapabilityAuthentication := { methods : list string }.

Record Capabilities := { modalities : list string; authentication : CapabilityAuthentication }.

Record Skill := {
  sk_id : string;
  sk_description : string;
  input_modes : list string;
  output_modes : list string;
  supported_languages : option (list string);
  latency_budget_ms : option Z;
  max_tokens : option Z;
}.

Record Certification := {
  level : string;
  ce_issuer : option string;
  issued_at : option string;
  valid_until : option string;
}.

Record TelemetryMetrics := {
  throughput_rps : option pyfloat;
  availability : option pyfloat;
  latency_p95_ms : option pyfloat;
}.

Record Telemetry := { metrics : TelemetryMetrics }.

Record IntegrityProof := {
  proof_type : string;
  cryptosuite : string;
  created : string;
  verification_method : string;
  proof_purpose : string;
  proof_value : string;
}.

Record IntegrityCredential := {
  cred_type : list string;
  cred_issuer : string;
  issued : string;
  proof : IntegrityProof;
}.

Record AgentFactsExtensions := {
  example_requests : list jdict;
  error_schema : option jdict;
  limits : option jdict;
  nanda_index_handle : option string;
}.

Record AgentFacts := {
  af_id : string;
  agent_name : string;
  label : string;
  af_description : string;
  version : string;
  provider : Provider;
  endpoints : Endpoints;
  capabilities : Capabilities;
  skills : list Skill;
  documentation_url : option string;
  jurisdiction : option string;
  certification : option Certification;
  telemetry : option Telemetry;
  evaluations : option (list jdict);
  verifiable_credentials : list IntegrityCredential;
  x_massclaw : option AgentFactsExtensions;
}.

(** ** Serialisation *)

Definition jfield (k : string) (v : json) : jdict := [(KStr k, v)].

(** A field that [exclude_none] leaves out when it is [None] *)
Definition optional {A} (k : string) (f : A → json) (o : option A) : jdict :=
  match o with Some a => jfield k (f a) | None => [] end.

Definition jstrs (l : list string) : json := JList (map JStr l).

Definition dump_provider (p : Provider) : json :=
  JObj (jfield "name" (JStr (pr_name p)) ++ jfield "url" (JStr (pr_url p)) ++ optional "did" JStr (pr_did p)).

Definition dump_endpoints (e : Endpoints) : json :=
  JObj (jfield "static" (jstrs (static e)) ++ optional "adaptive_resolver" JObj (adaptive_resolver e)).

Definition dump_capabilities (c : Capabilities) : json :=
  JObj (jfield "modalities" (jstrs (modalities c)) ++
        jfield "authentication" (JObj (jfield "methods" (jstrs (methods (authentication c)))))).

Definition dump_skill (s : Skill) : json :=
  JObj (jfield "id" (JStr (sk_id s)) ++ jfield "description" (JStr (sk_description s)) ++
        jfield "inputModes" (jstrs (input_modes s)) ++ jfield "outputModes" (jstrs (output_modes s)) ++
        optional "supportedLanguages" jstrs (supported_languages s) ++
        optional "latencyBudgetMs" JInt (latency_budget_ms s) ++ optional "maxTokens" JInt (max_tokens s)).

Definition dump_certification (c : Certification) : json :=
  JObj (jfield "level" (JStr (level c)) ++ optional "issuer" JStr (ce_issuer c) ++
        optional "issuedAt" JStr (issued_at c) ++ optional "validUntil" JStr (valid_until c)).

Definition dump_telemetry (t : Telemetry) : json :=
  JObj (jfield "metrics" (JObj (optional "throughput_rps" JFloat (throughput_rps (metrics t)) ++
                               optional "availability" JFloat (availability (metrics t)) ++
                               optional "latency_p95_ms" JFloat (latency_p95_ms (metrics t))))).

Definition dump_credential (c : IntegrityCredential) : json :=
  JObj (jfield "type" (jstrs (cred_type c)) ++ jfield "issuer" (JStr (cred_issuer c)) ++ jfield "issued" (JStr (issued c)) ++
        jfield "proof" (JObj (
          jfield "type" (JStr (proof_type (proof c))) ++ jfield "cryptosuite" (JStr (cryptosuite (proof c))) ++
          jfield "created" (JStr (created (proof c))) ++ jfield "verificationMethod" (JStr (verification_method (proof c))) ++
          jfield "proofPurpose" (JStr (proof_purpose (proof c))) ++ jfield "proofValue" (JStr (proof_value (proof c)))))).

Definition dump_extensions (x : AgentFactsExtensions) : json :=
  JObj (jfield "example_requests" (JList (map JObj (example_requests x))) ++
        optional "error_schema" JObj (error_schema x) ++ optional "limits" JObj (limits x) ++
        optional "nanda_index_handle" JStr (nanda_index_handle x)).

(** The fields before and after the credentials *)
Definition dump_head (d : AgentFacts) : jdict :=
  jfield "id" (JStr (af_id d)) ++ jfield "agent_name" (JStr (agent_name d)) ++ jfield "label" (JStr (label d)) ++
  jfield "description" (JStr (af_description d)) ++ jfield "version" (JStr (version d)) ++
  jfield "provider" (dump_provider (provider d)) ++ jfield "endpoints" (dump_endpoints (endpoints d)) ++
  jfield "capabilities" (dump_capabilities (capabilities d)) ++ jfield "skills" (JList (map dump_skill (skills d))) ++
  optional "documentationUrl" JStr (documentation_url d) ++ optional "jurisdiction" JStr (jurisdiction d) ++
  optional "certification" dump_certification (certification d) ++ optional "telemetry" dump_telemetry (telemetry d) ++
  optional "evaluations" (λ l, JList (map JObj l)) (evaluations d).

Definition dump_tail (d : AgentFacts) : jdict := optional "x-massclaw" dump_extensions (x_massclaw d).

Definition to_document (d : AgentFacts) : json :=
  JObj (dump_head d ++ jfield "verifiable_credentials" (JList (map dump_credential (verifiable_credentials d))) ++
        dump_tail d).

Definition signable_body (d : AgentFacts) : json := JObj (dump_head d ++ dump_tail d).

Definition signable_bytes (d : AgentFacts) : res canon_error string := canonicalize (signable_body d).

(** ** Signing and verifying *)

Inductive facts_exn :=
  | DIDError (e : did_error)
  | CanonError (e : canon_error)
  | CodecError (e : codec_error)
  | NoCredential.

(** The exceptions of a helper among those of its caller *)
Definition raising {E F A} (wrap : E → F) (m : res E A) : res F A := res_catch m (λ e, Err (wrap e)).

Definition with_credentials (d : AgentFacts) (cs : list IntegrityCredential) : AgentFacts := {|
  af_id := af_id d; agent_name := agent_name d; label := label d; af_description := af_description d;
  version := version d; provider := provider d; endpoints := endpoints d; capabilities := capabilities d;
  skills := skills d; documentation_url := documentation_url d; jurisdiction := jurisdiction d;
  certification := certification d; telemetry := telemetry d; evaluations := evaluations d;
  verifiable_credentials := cs; x_massclaw := x_massclaw d |}.

(** [_public_key_from_any_did] *)
Definition _public_key_from_any_did (did : string) : res did_error (list Byte.byte) :=
  parsed <~ parse_did did;
  if String.eqb (method parsed) "key" then decode_did_key did
  else if String.eqb (method parsed) "nanda" then decode_did_nanda did
  else Err MalformedDIDError.

(** [s.split("#", 1)[0]] *)
Definition before_hash (s : string) : string :=
  match str_cut "#"%char s with Some (a, _) => a | None => s end.

Section ed25519.
Context `{Ed25519}.

Definition attach_integrity_credential (d : AgentFacts) (keypair : KeyPair) (now : string)
    : res facts_exn (AgentFacts * IntegrityCredential) :=
  issuer_did <~ raising DIDError (build_did_key (public_bytes keypair));
  payload <~ raising CanonError (signable_bytes d);
  signature <~ raising CodecError (sign_bytes payload (private_seed keypair));
  let cred := {|
    cred_type := [INTEGRITY_CREDENTIAL_TYPE]; cred_issuer := issuer_did; issued := now;
    proof := {| proof_type := INTEGRITY_PROOF_TYPE; cryptosuite := INTEGRITY_CRYPTOSUITE; created := now;
                verification_method := issuer_did +:+ "#ed25519"; proof_purpose := "assertionMethod";
                proof_value := encode_multibase signature |} |} in
  Ok (with_credentials d (verifiable_credentials d ++ [cred]), cred).

Definition verify_credential (d : AgentFacts) (c : IntegrityCredential) : res facts_exn bool :=
  if negb (String.eqb (proof_type (proof c)) INTEGRITY_PROOF_TYPE) then Ok false
  else if negb (String.eqb (cryptosuite (proof c)) INTEGRITY_CRYPTOSUITE) then Ok false
  else match _public_key_from_any_did (before_hash (verification_method (proof c))),
             decode_multibase (proof_value (proof c)) with
       | Ok issuer_pub, Ok signature =>
           payload <~ raising CanonError (signable_bytes d);
           raising CodecError (verify_bytes payload signature issuer_pub)
       | _, _ => Ok false
       end.

Definition verify_integrity (d : AgentFacts) (credential : option IntegrityCredential) : res facts_exn bool :=
  match credential, verifiable_credentials d with
  | Some c, _ => verify_credential d c
  | None, [] => Err NoCredential
  | None, c :: _ => verify_credential d c
  end.

(** ** The report on a posted document *)

Inductive report_line :=
  | SchemaFailed
  | NoIntegrityCredential
  | VerificationRaised (e : facts_exn)
  | DidNotVerify.

Record report := {
  valid : bool;
  errors : list report_line;
  provider_did : option string;
  agent_id : option string;
  rp_label : option string;
}.

(** The loop over the credentials: whether one verified, and the errors so far *)
Fixpoint check_credentials (d : AgentFacts) (cs : list IntegrityCredential) : bool * list report_line :=
  match cs with
  | [] => (false, [])
  | c :: cs =>
      match verify_integrity d (Some c) with
      | Ok true => (true, [])
      | Ok false => let '(ok, errs) := check_credentials d cs in (ok, DidNotVerify :: errs)
      | Err e => let '(ok, errs) := check_credentials d cs in (ok, VerificationRaised e :: errs)
      end
  end.

(** [doc] is the outcome of [AgentFacts.model_validate(raw)]. *)
Definition verify_document (doc : option AgentFacts) : report :=
  match doc with
  | None => {| valid := false; errors := [SchemaFailed]; provider_did := None; agent_id := None; rp_label := None |}
  | Some d =>
      match verifiable_credentials d with
      | [] => {| valid := false; errors := [NoIntegrityCredential]; provider_did := None; agent_id := None;
                 rp_label := None |}
      | cs =>
          let '(any_valid, errs) := check_credentials d cs in
          {| valid := any_valid; errors := errs; provider_did := pr_did (provider d); agent_id := Some (af_id d);
             rp_label := Some (label d) |}
      end
  end.
End ed25519.

(** ** The builder *)

Record AgentFactsBuilder := MkBuilder {
  _id : string;
  _label : string;
  _description : string;
  _version : string;
  _provider_name : string;
  _provider_url : string;
  _provider_did : option string;
  _endpoints_static : list string;
  _endpoints_adaptive : option jdict;
  _modalities : list string;
  _auth_methods : list string;
  _skills : list Skill;
  _documentation_url : option string;
  _jurisdiction : option string;
  _certification : option Certification;
  _telemetry : option Telemetry;
  _extensions : option AgentFactsExtensions;
}.

Definition new_builder (id label description version provider_name provider_url : string) : AgentFactsBuilder :=
  MkBuilder id label description version provider_name provider_url None [] None [] [] [] None None None None None.

Module Builder.
Definition provider_did (did : string) (b : AgentFactsBuilder) : res did_error AgentFactsBuilder :=
  parse_did did ;!
  let '(MkBuilder i l d v n u _ es ea ms am sk du j c t x) := b in
  Ok (MkBuilder i l d v n u (Some did) es ea ms am sk du j c t x).

Definition endpoint (url : string) (b : AgentFactsBuilder) : AgentFactsBuilder :=
  let '(MkBuilder i l d v n u pd es ea ms am sk du j c t x) := b in
  MkBuilder i l d v n u pd (es ++ [url]) ea ms am sk du j c t x.

Definition endpoints (urls : list string) (b : AgentFactsBuilder) : AgentFactsBuilder :=
  let '(MkBuilder i l d v n u pd _ ea ms am sk du j c t x) := b in MkBuilder i l d v n u pd urls ea ms am sk du j c t x.

Definition adaptive_endpoints (url : string) (policies : option (list string)) (b : AgentFactsBuilder)
    : AgentFactsBuilder :=
  let entry := jfield "url" (JStr url) ++
        match policies with Some ((_ :: _) as ps) => jfield "policies" (jstrs ps) | _ => [] end in
  let '(MkBuilder i l d v n u pd es _ ms am sk du j c t x) := b in
  MkBuilder i l d v n u pd es (Some entry) ms am sk du j c t x.

Definition modalities (ms : list string) (b : AgentFactsBuilder) : AgentFactsBuilder :=
  let '(MkBuilder i l d v n u pd es ea _ am sk du j c t x) := b in MkBuilder i l d v n u pd es ea ms am sk du j c t x.

Definition auth_methods (am : list string) (b : AgentFactsBuilder) : AgentFactsBuilder :=
  let '(MkBuilder i l d v n u pd es ea ms _ sk du j c t x) := b in MkBuilder i l d v n u pd es ea ms am sk du j c t x.

Definition add_skill (s : Skill) (b : AgentFactsBuilder) : AgentFactsBuilder :=
  let '(MkBuilder i l d v n u pd es ea ms am sk du j c t x) := b in
  MkBuilder i l d v n u pd es ea ms am (sk ++ [s]) du j c t x.

Definition skills (sk : list Skill) (b : AgentFactsBuilder) : AgentFactsBuilder :=
  let '(MkBuilder i l d v n u pd es ea ms am _ du j c t x) := b in MkBuilder i l d v n u pd es ea ms am sk du j c t x.

Definition documentation_url (url : string) (b : AgentFactsBuilder) : AgentFactsBuilder :=
  let '(MkBuilder i l d v n u pd es ea ms am sk _ j c t x) := b in
  MkBuilder i l d v n u pd es ea ms am sk (Some url) j c t x.

Definition jurisdiction (code : string) (b : AgentFactsBuilder) : AgentFactsBuilder :=
  let '(MkBuilder i l d v n u pd es ea ms am sk du _ c t x) := b in
  MkBuilder i l d v n u pd es ea ms am sk du (Some code) c t x.

Definition certification (lv : string) (issuer : option string) (b : AgentFactsBuilder) : AgentFactsBuilder :=
  let c := {| level := lv; ce_issuer := issuer; issued_at := None; valid_until := None |} in
  let '(MkBuilder i l d v n u pd es ea ms am sk du j _ t x) := b in
  MkBuilder i l d v n u pd es ea ms am sk du j (Some c) t x.

Definition telemetry (m : TelemetryMetrics) (b : AgentFactsBuilder) : AgentFactsBuilder :=
  let '(MkBuilder i l d v n u pd es ea ms am sk du j c _ x) := b in
  MkBuilder i l d v n u pd es ea ms am sk du j c (Some {| metrics := m |}) x.

Definition extensions (e : AgentFactsExtensions) (b : AgentFactsBuilder) : AgentFactsBuilder :=
  let '(MkBuilder i l d v n u pd es ea ms am sk du j c t _) := b in
  MkBuilder i l d v n u pd es ea ms am sk du j c t (Some e).

Definition build (b : AgentFactsBuilder) : AgentFacts := {|
  af_id := _id b; agent_name := _id b; label := _label b; af_description := _description b; version := _version b;
  provider := {| pr_name := _provider_name b; pr_url := _provider_url b; pr_did := _provider_did b |};
  AgentFacts.endpoints := {| static := _endpoints_static b; adaptive_resolver := _endpoints_adaptive b |};
  capabilities := {| AgentFacts.modalities := _modalities b; authentication := {| methods := _auth_methods b |} |};
  AgentFacts.skills := _skills b; AgentFacts.documentation_url := _documentation_url b;
  AgentFacts.jurisdiction := _jurisdiction b; AgentFacts.certification := _certification b;
  AgentFacts.telemetry := _telemetry b; evaluations := None; verifiable_credentials := [];
  x_massclaw := _extensions b |}.

Definition build_and_sign `{Ed25519} (b : AgentFactsBuilder) (keypair : KeyPair) (now : string)
    : res facts_exn AgentFacts :=
  r <~ attach_integrity_credential (build b) keypair now; Ok r.1.
End Builder.

(** ** Lemmas *)

Lemma str_mem_false_Forall c s (P : ascii → Prop) :
  ¬ P c → Forall P (str_chars s) → str_mem c s = false.
Proof.
  intros Hc. induction s as [|x s IH]; cbn; [done|]. intros [Hx Hs]%Forall_cons.
  apply orb_false_iff. split; [|by apply IH]. apply Ascii.eqb_neq. by intros ->.
Qed.

Lemma multibase_no_hash raw : str_mem "#" (encode_multibase raw) = false.
Proof.
  unfold encode_multibase. cbn. destruct (b58decode_total (b58encode raw)) as [[Hf _]|[_ E]].
  - apply (str_mem_false_Forall _ _ (λ c, c ∈ _ALPHABET)); [|done]. apply (bool_decide_unpack _). by vm_compute.
  - by rewrite b58decode_encode in E.
Qed.

Lemma before_hash_did pk did : build_did_key pk = Ok did → before_hash (did +:+ "#ed25519") = did.
Proof.
  intros [_ ->]%build_did_key_Ok. unfold before_hash, as_str. cbn [method identifier].
  change "#ed25519" with (String "#" "ed25519"). rewrite str_cut_app; [done|].
  rewrite !str_mem_app, multibase_no_hash. reflexivity.
Qed.

Lemma any_did_key pk did : build_did_key pk = Ok did → _public_key_from_any_did did = Ok pk.
Proof.
  intros Hb. apply build_did_key_Ok in Hb as E. destruct E as [Hl E].
  change (public_key_from_did did = Ok pk). apply public_key_from_did_iff.
  exists {| method := DID_METHOD_KEY; identifier := encode_multibase (_ED25519_MULTICODEC_PREFIX ++ pk) |}.
  split; [subst did; by apply parse_did_as_str|]. left. by rewrite <-E.
Qed.

Lemma raising_Ok {E F A} (wrap : E → F) (m : res E A) a : raising wrap m = Ok a ↔ m = Ok a.
Proof. destruct m; cbn; naive_solver. Qed.

Section theorems.
Context `{!Ed25519, !LawfulEd25519}.

(** The credentials are no part of what is signed. *)
Lemma signable_with_credentials d cs : signable_bytes (with_credentials d cs) = signable_bytes d.
Proof. done. Qed.

Lemma verify_with_credentials d cs c : verify_integrity (with_credentials d cs) (Some c) = verify_integrity d (Some c).
Proof. done. Qed.

Lemma attach_Ok d kp now d' c :
  attach_integrity_credential d kp now = Ok (d', c) →
  ∃ payload s, build_did_key (public_bytes kp) = Ok (cred_issuer c) ∧ signable_bytes d = Ok payload ∧
    sign_bytes payload (private_seed kp) = Ok s ∧
    proof c = {| proof_type := INTEGRITY_PROOF_TYPE; cryptosuite := INTEGRITY_CRYPTOSUITE; created := now;
                 verification_method := cred_issuer c +:+ "#ed25519"; proof_purpose := "assertionMethod";
                 proof_value := encode_multibase s |} ∧
    d' = with_credentials d (verifiable_credentials d ++ [c]).
Proof.
  unfold attach_integrity_credential.
  intros (did & Hd%raising_Ok & (p & Hp%raising_Ok & (s & Hs%raising_Ok & [= <- <-])%res_bind_Ok)%res_bind_Ok)%res_bind_Ok.
  by exists p, s.
Qed.

Lemma attach_verifies' d kp now d' c :
  proper_keypair kp → attach_integrity_credential d kp now = Ok (d', c) →
  verify_integrity d' (Some c) = Ok true.
Proof.
  intros Hkp (p & s & Hd & Hp & Hs & Hc & ->)%attach_Ok. rewrite verify_with_credentials.
  cbn [verify_integrity]. unfold verify_credential. rewrite Hc. cbn [proof_type cryptosuite verification_method proof_value].
  rewrite !String.eqb_refl. cbn [negb]. rewrite (before_hash_did _ _ Hd), (any_did_key _ _ Hd), decode_encode_multibase, Hp.
  cbn [raising res_catch res_bind]. by rewrite (sign_verify kp p s Hkp Hs).
Qed.

Lemma check_credentials_true d cs :
  (∃ c, c ∈ cs ∧ verify_integrity d (Some c) = Ok true) → (check_credentials d cs).1 = true.
Proof.
  intros (c & Hc & Hv). induction cs as [|c' cs IH]; [by apply elem_of_nil in Hc|]. cbn [check_credentials].
  destruct (verify_integrity d (Some c')) as [[]|] eqn:E; [done| |].
  all: apply elem_of_cons in Hc as [->|Hc]; [by rewrite Hv in E|].
  all: specialize (IH Hc); by destruct (check_credentials d cs).
Qed.

Lemma check_credentials_sound d cs :
  (check_credentials d cs).1 = true → ∃ c, c ∈ cs ∧ verify_integrity d (Some c) = Ok true.
Proof.
  induction cs as [|c cs IH]; [done|]. cbn [check_credentials].
  destruct (verify_integrity d (Some c)) as [[]|] eqn:E.
  - intros _. exists c. split; [left|done].
  - destruct (check_credentials d cs); cbn. intros (c' & ? & ?)%IH. exists c'. split; [by right|done].
  - destruct (check_credentials d cs); cbn. intros (c' & ? & ?)%IH. exists c'. split; [by right|done].
Qed.

Lemma verify_document_valid d :
  valid (verify_document (Some d)) = true ↔ ∃ c, c ∈ verifiable_credentials d ∧ verify_integrity d (Some c) = Ok true.
Proof.
  assert (valid (verify_document (Some d)) = (check_credentials d (verifiable_credentials d)).1) as ->.
  { unfold verify_document. destruct (verifiable_credentials d); [done|]. by destruct (check_credentials d _). }
  split; [apply check_credentials_sound|apply check_credentials_true].
Qed.

Lemma attach_total d kp now :
  proper_keypair kp → is_ok (attach_integrity_credential d kp now) = is_ok (signable_bytes d).
Proof.
  intros Hkp. unfold attach_integrity_credential, build_did_key. pose proof Hkp as [Hl Hp].
  rewrite Hp, ed_public_length by done. cbn [Nat.eqb negb raise_if raising res_catch res_bind].
  destruct (signable_bytes d) as [payload|]; [|done]. cbn [raising res_catch res_bind].
  by rewrite (sign_bytes_Ok kp payload Hkp).
Qed.
End theorems.

(** What [build_and_sign] returns verifies. *)
Lemma build_and_sign_verifies `{!Ed25519, !LawfulEd25519} b kp now d :
  proper_keypair kp → Builder.build_and_sign b kp now = Ok d → verify_integrity d None = Ok true.
Proof.
  intros Hkp. unfold Builder.build_and_sign. intros ([d' c] & Ha & [= <-])%res_bind_Ok. cbn [fst].
  pose proof (attach_verifies' _ _ _ _ _ Hkp Ha) as Hv. by apply attach_Ok in Ha as (p & s & _ & _ & _ & _ & ->).
Qed.

(** ** Theorems *)

(** C29: signing a document works exactly when its body can be canonicalised, and
    then the new credential verifies against the new document, every credential
    keeps the verdict it had (so signers do not invalidate one another), and the
    verification endpoint reports the document as valid. *)
Theorem attach_verifies `{!Ed25519, !LawfulEd25519} d kp now :
  proper_keypair kp →
  is_ok (attach_integrity_credential d kp now) = is_ok (signable_bytes d) ∧
  ∀ d' c, attach_integrity_credential d kp now = Ok (d', c) →
    verify_integrity d' (Some c) = Ok true ∧
    (∀ c', verify_integrity d' (Some c') = verify_integrity d (Some c')) ∧
    valid (verify_document (Some d')) = true.
Proof.
  intros Hkp. split; [by apply attach_total|]. intros d' c Ha.
  pose proof (attach_verifies' _ _ _ _ _ Hkp Ha) as Hv. apply attach_Ok in Ha as (p & s & _ & _ & _ & _ & ->).
  split_and!; [done|done|]. apply verify_document_valid. exists c. split; [|done].
  cbn. apply elem_of_app. right. by left.
Qed.

Definition demo_facts : AgentFacts :=
  Builder.build (Builder.endpoint "https://a.example" (Builder.modalities ["text"]
    (new_builder "urn:agent:a" "A" "an agent" "1" "A" "https://a.example"))).

Definition demo_keypair : KeyPair := {| private_seed := repeat Byte.x07 32; public_bytes := repeat Byte.x07 32 |}.

Lemma demo_keypair_proper : proper_keypair demo_keypair.
Proof. split; reflexivity. Qed.

Lemma demo_facts_signable : is_ok (signable_bytes demo_facts) = true.
Proof. vm_compute. reflexivity. Qed.

Lemma attach_verifies_witness :
  ∃ d' c, attach_integrity_credential demo_facts demo_keypair "2026-01-01T00:00:00Z" = Ok (d', c) ∧
    verify_integrity d' (Some c) = Ok true.
Proof.
  destruct (attach_verifies demo_facts demo_keypair "2026-01-01T00:00:00Z" demo_keypair_proper) as [Hok Hall].
  rewrite demo_facts_signable in Hok. apply is_ok_Ok in Hok as [[d' c] E]. exists d', c.
  apply conj; [exact E|]. exact (proj1 (Hall d' c E)).
Defined.
