(* ===== verification/Resolver.v ===== *)
(** * Resolver: from a DID to a document

    Models [identity/did_resolver.py] and [identity/nanda_index.py].  The three
    sources of a document are the protocols of the resolver: functions that may
    be absent, may raise, and may find nothing; the local registry also changes
    the state [S] of the node, because it may create keys.  The replies of the
    index are given per attempt; waiting between attempts is not modelled.
    [model_validate] is pydantic's. *)

From Stdlib Require Import Ascii ZArith Lia.
From stdpp Require Import base tactics strings gmap list.
From S2P Require Import Prelude PyStr Dict Base58 Json Did Signer AgentFacts.

#[local] Open Scope Z_scope.

(** ** The index client *)

Inductive NandaIndexError :=
  | NandaIndexUnavailable
  | NandaIndexNotFound
  | NandaIndexInvalidResponse
  | NandaIndexUnauthorized
  | OtherStatus.

(** A request that failed, or a status and the body where it is JSON *)
Inductive reply := NoReply | Reply (status_code : Z) (body : option json).

Record NandaIndexConfig := {
  base_url : string;
  retry_attempts : nat;
  user_agent : string;
  session_cookie : option string;
  api_token : option string;
  extra_headers : list (string * string);
}.

Record AgentRegistration := {
  mongo_id : string;
  username : string;
  agent_facts_link : string;
  raw : jdict;
}.

Record RegistrationResult := {
  rr_username : json;
  rr_agent_facts_link : json;
  rr_mongo_id : json;
  raw_response : jdict;
}.

Definition _build_url (c : NandaIndexConfig) (path : string) : string := str_rstrip "/" (base_url c) +:+ path.

Definition truthy_str (o : option string) : option string := match o with Some "" => None | _ => o end.

Definition _build_headers (c : NandaIndexConfig) : list (string * string) :=
  let headers := fold_left (λ d '(k, v), dict_set k v d) (extra_headers c)
                   [("Accept", "application/json"); ("User-Agent", user_agent c)] in
  let headers := match truthy_str (api_token c) with
                 | Some t => dict_set "Authorization" ("Bearer " +:+ t) headers | None => headers end in
  match truthy_str (session_cookie c) with Some k => dict_set "Cookie" k headers | None => headers end.

(** The attempts that are left, and the replies to come *)
Fixpoint _request (attempts : nat) (replies : nat → reply) : res NandaIndexError (option json) :=
  match attempts with
  | O => Err NandaIndexUnavailable
  | S attempts =>
      match replies O with
      | NoReply => _request attempts (λ i, replies (S i))
      | Reply code body =>
          if code =? 404 then Err NandaIndexNotFound
          else if (code =? 401) || (code =? 403) then Err NandaIndexUnauthorized
          else if (500 <=? code) && (code <? 600) then _request attempts (λ i, replies (S i))
          else if 400 <=? code then Err OtherStatus
          else Ok body
      end
  end.

Definition _safe_json (body : option json) : res NandaIndexError jdict :=
  match body with Some (JObj items) => Ok items | _ => Err NandaIndexInvalidResponse end.

Fixpoint all_objects (l : list json) : res NandaIndexError (list jdict) :=
  match l with
  | [] => Ok []
  | JObj items :: l => r <~ all_objects l; Ok (items :: r)
  | _ => Err NandaIndexInvalidResponse
  end.

Definition _safe_json_list (body : option json) : res NandaIndexError (list jdict) :=
  match body with Some (JList l) => all_objects l | _ => Err NandaIndexInvalidResponse end.

(** [isinstance(v, str) and v] *)
Definition nonempty_str (v : option json) : res NandaIndexError string :=
  match v with
  | Some (JStr s) => if str_empty s then Err NandaIndexInvalidResponse else Ok s
  | _ => Err NandaIndexInvalidResponse
  end.

Definition _as_registration (item : jdict) : res NandaIndexError AgentRegistration :=
  let link := match dict_get (KStr "agent_facts_link") item with
              | Some v => if json_truth v then Some v else dict_get (KStr "factsUrl") item
              | None => dict_get (KStr "factsUrl") item
              end in
  u <~ nonempty_str (dict_get (KStr "username") item);
  l <~ nonempty_str link;
  i <~ nonempty_str (dict_get (KStr "_id") item);
  Ok {| mongo_id := i; username := u; agent_facts_link := l; raw := item |}.

Definition list_agents (c : NandaIndexConfig) (replies : nat → reply) : res NandaIndexError (list AgentRegistration) :=
  response <~ _request (retry_attempts c) replies;
  body <~ _safe_json_list response;
  res_seq (map _as_registration body).

Definition find_by_username (c : NandaIndexConfig) (replies : nat → reply) (u : string)
    : res NandaIndexError (option AgentRegistration) :=
  entries <~ list_agents c replies;
  Ok (List.find (λ e, String.eqb (username e) u) entries).

(** [raw.get(k, default)] *)
Definition get_or (k : string) (d : json) (r : jdict) : json := default d (dict_get (KStr k) r).

Definition register (c : NandaIndexConfig) (replies : nat → reply) (u link : string)
    : res NandaIndexError RegistrationResult :=
  response <~ _request (retry_attempts c) replies;
  r <~ _safe_json response;
  Ok {| rr_username := get_or "username" (JStr u) r; rr_agent_facts_link := get_or "agent_facts_link" (JStr link) r;
        rr_mongo_id := get_or "_id" JNull r; raw_response := r |}.

Definition update (c : NandaIndexConfig) (replies : nat → reply) (id link : string) (u : option string)
    : res NandaIndexError RegistrationResult :=
  response <~ _request (retry_attempts c) replies;
  r <~ _safe_json response;
  Ok {| rr_username := get_or "username" (JStr (default "" u)) r;
        rr_agent_facts_link := get_or "agent_facts_link" (JStr link) r;
        rr_mongo_id := get_or "_id" (JStr id) r; raw_response := r |}.

Definition deregister (c : NandaIndexConfig) (replies : nat → reply) : res NandaIndexError unit :=
  match _request (retry_attempts c) replies with
  | Ok _ | Err NandaIndexNotFound => Ok tt
  | Err e => Err e
  end.

Section resolver.
Context (model_validate : json → option AgentFacts).

Definition _fetch_facts_url (r : reply) : res NandaIndexError AgentFacts :=
  match r with
  | NoReply => Err NandaIndexUnavailable
  | Reply code body =>
      raise_if (negb (code =? 200)) NandaIndexInvalidResponse ;!
      items <~ _safe_json body;
      res_of_option NandaIndexInvalidResponse (model_validate (JObj items))
  end.

(** [fetch url] is the reply to the request for the document. *)
Definition resolve_by_username (c : NandaIndexConfig) (replies : nat → reply) (fetch : string → reply) (u : string)
    : res NandaIndexError (option AgentFacts) :=
  entry <~ find_by_username c replies u;
  match entry with
  | None => Ok None
  | Some e => d <~ _fetch_facts_url (fetch (agent_facts_link e)); Ok (Some d)
  end.

(** ** The resolver *)

Inductive resolve_exn :=
  | ResolutionError
  | BadDID (e : did_error)
  | IntegrityRaised (e : facts_exn).

Record ResolvedAgent := { ra_did : string; agent_facts : AgentFacts; source : string }.

Context `{Ed25519}.

Fixpoint any_verifies (d : AgentFacts) (cs : list IntegrityCredential) : res facts_exn bool :=
  match cs with
  | [] => Ok false
  | c :: cs => ok <~ verify_integrity d (Some c); if ok : bool then Ok true else any_verifies d cs
  end.

Definition _assert_integrity (doc : AgentFacts) (expected_did : string) : res resolve_exn unit :=
  match pr_did (provider doc) with
  | Some p => res_catch (res_map (λ _, tt) (parse_did p)) (λ _, Err ResolutionError)
  | None => Ok tt
  end ;!
  match verifiable_credentials doc with
  | [] => raise_if (negb (bool_decide (pr_did (provider doc) = Some expected_did))) ResolutionError
  | cs =>
      ok <~ raising IntegrityRaised (any_verifies doc cs);
      raise_if (negb ok) ResolutionError
  end.

Context {St E : Type}.

(** The three sources; [None] where one is not configured *)
Record DIDResolver := {
  _local : option (string → St → res E (option AgentFacts) * St);
  _index : option (string → res E (option AgentFacts));
  _well_known : option (string → res E (option json));
}.

(** A document that a source returned is checked; the resolver never goes on to
    the next source after that. *)
Definition accept (did src : string) (doc : AgentFacts) : res resolve_exn ResolvedAgent :=
  _assert_integrity doc did ;! Ok {| ra_did := did; agent_facts := doc; source := src |}.

Definition from_well_known (r : DIDResolver) (did : string) (url_hint : option string) : res resolve_exn ResolvedAgent :=
  match _well_known r, url_hint with
  | Some fetch, Some url =>
      match fetch url with
      | Ok (Some rawdoc) =>
          doc <~ res_of_option ResolutionError (model_validate rawdoc); accept did "well_known" doc
      | _ => Err ResolutionError
      end
  | _, _ => Err ResolutionError
  end.

Definition from_index (r : DIDResolver) (did : string) (username_hint url_hint : option string)
    : res resolve_exn ResolvedAgent :=
  match _index r, username_hint with
  | Some lookup, Some u =>
      match lookup u with
      | Ok (Some doc) => accept did "nanda_index" doc
      | _ => from_well_known r did url_hint
      end
  | _, _ => from_well_known r did url_hint
  end.

Definition resolve (r : DIDResolver) (did : string) (username_hint url_hint : option string) (st : St)
    : res resolve_exn ResolvedAgent * St :=
  match parse_did did with
  | Err e => (Err (BadDID e), st)
  | Ok _ =>
      match _local r with
      | Some lookup =>
          match lookup did st with
          | (Ok (Some doc), st) => (accept did "local" doc, st)
          | (_, st) => (from_index r did username_hint url_hint, st)
          end
      | None => (from_index r did username_hint url_hint, st)
      end
  end.
End resolver.
Arguments DIDResolver : clear implicits.

(** ** Lemmas *)

Section facts.
Context {Ed : Ed25519}.

Lemma any_verifies_true d cs :
  any_verifies d cs = Ok true → ∃ c, c ∈ cs ∧ verify_integrity d (Some c) = Ok true.
Proof.
  induction cs as [|c cs IH]; cbn [any_verifies]; [done|]. intros (ok & Hv & H)%res_bind_Ok. destruct ok.
  - exists c. split; [left|done].
  - destruct (IH H) as (c' & ? & ?). exists c'. split; [by right|done].
Qed.

(** What an accepted document has *)
Definition authentic (doc : AgentFacts) (did : string) : Prop :=
  (∀ p, pr_did (provider doc) = Some p → is_ok (parse_did p) = true) ∧
  match verifiable_credentials doc with
  | [] => pr_did (provider doc) = Some did
  | cs => ∃ c, c ∈ cs ∧ verify_integrity doc (Some c) = Ok true
  end.

Lemma assert_integrity_Ok doc did u : _assert_integrity doc did = Ok u → authentic doc did.
Proof.
  unfold _assert_integrity, authentic. intros (? & Hp & H)%res_bind_Ok. split.
  - intros p E. rewrite E in Hp. by destruct (parse_did p).
  - destruct (verifiable_credentials doc) as [|c cs].
    + apply raise_if_Ok, negb_false_iff, bool_decide_eq_true in H. done.
    + apply res_bind_Ok in H as (ok & Hv%raising_Ok & Hok%raise_if_Ok%negb_false_iff). subst ok.
      by apply any_verifies_true.
Qed.

Lemma accept_Ok did src doc a :
  accept did src doc = Ok a → a = {| ra_did := did; agent_facts := doc; source := src |} ∧ authentic doc did.
Proof. unfold accept. intros (u & Ha%assert_integrity_Ok & [= <-])%res_bind_Ok. by split. Qed.

Context (model_validate : json → option AgentFacts) {St E : Type}.

(** Where a resolved document came from *)
Definition came_from (r : DIDResolver St E) (did : string) (u w : option string) (st : St) (a : ResolvedAgent) : Prop :=
  (source a = "local" ∧ ∃ lookup, _local r = Some lookup ∧ (lookup did st).1 = Ok (Some (agent_facts a))) ∨
  (source a = "nanda_index" ∧ ∃ lookup n, _index r = Some lookup ∧ u = Some n ∧ lookup n = Ok (Some (agent_facts a))) ∨
  (source a = "well_known" ∧ ∃ fetch url rawdoc, _well_known r = Some fetch ∧ w = Some url ∧
     fetch url = Ok (Some rawdoc) ∧ model_validate rawdoc = Some (agent_facts a)).

(** No local document is passed over. *)
Definition no_local (r : DIDResolver St E) (did : string) (st : St) : Prop :=
  ∀ lookup d, _local r = Some lookup → (lookup did st).1 ≠ Ok (Some d).

Lemma from_well_known_Ok r did u w st a :
  from_well_known model_validate r did w = Ok a →
  ra_did a = did ∧ authentic (agent_facts a) did ∧ came_from r did u w st a ∧ source a = "well_known".
Proof.
  unfold from_well_known. destruct (_well_known r) as [fetch|] eqn:Ef; [|done]. destruct w as [url|]; [|done].
  destruct (fetch url) as [[rawdoc|]|] eqn:Eu; [|done..]. intros (doc & Hd & Ha)%res_bind_Ok.
  apply accept_Ok in Ha as [-> Ha]. split_and!; [done|done| |done]. right. right. split; [done|].
  exists fetch, url, rawdoc. cbn. split_and!; [done..|]. by destruct (model_validate rawdoc); [injection Hd as ->|].
Qed.

Lemma from_index_Ok r did u w st a :
  from_index model_validate r did u w = Ok a →
  ra_did a = did ∧ authentic (agent_facts a) did ∧ came_from r did u w st a ∧ source a ≠ "local".
Proof.
  assert (from_well_known model_validate r did w = Ok a →
    ra_did a = did ∧ authentic (agent_facts a) did ∧ came_from r did u w st a ∧ source a ≠ "local") as Hw.
  { intros (? & ? & ? & Es)%(from_well_known_Ok r did u w st). split_and!; [done..|]. by rewrite Es. }
  unfold from_index. destruct (_index r) as [lookup|] eqn:El; [|done]. destruct u as [n|]; [|done].
  destruct (lookup n) as [[doc|]|] eqn:Ed'; [|done..]. intros Ha. apply accept_Ok in Ha as [-> Ha].
  split_and!; [done|done| |done]. right. left. split; [done|]. by exists lookup, n.
Qed.

Lemma resolve_sound' r did u w st a st' :
  resolve model_validate r did u w st = (Ok a, st') →
  ra_did a = did ∧ is_ok (parse_did did) = true ∧ authentic (agent_facts a) did ∧
  came_from r did u w st a ∧ (source a ≠ "local" → no_local r did st).
Proof.
  unfold resolve. destruct (parse_did did) as [p|]; [|done]. destruct (_local r) as [lookup|] eqn:El.
  - destruct (lookup did st) as [[[doc|]|] st1] eqn:Ed'.
    + intros [= Ha <-]. apply accept_Ok in Ha as [-> Ha]. split_and!; [done|done|done| |done].
      left. split; [done|]. exists lookup. by rewrite Ed'.
    + intros [= Ha%(from_index_Ok r did u w st) <-]. destruct Ha as (? & ? & ? & ?). split_and!; [done..|].
      intros _ l d Hl. rewrite El in Hl. injection Hl as <-. by rewrite Ed'.
    + intros [= Ha%(from_index_Ok r did u w st) <-]. destruct Ha as (? & ? & ? & ?). split_and!; [done..|].
      intros _ l d Hl. rewrite El in Hl. injection Hl as <-. by rewrite Ed'.
  - intros [= Ha%(from_index_Ok r did u w st) <-]. destruct Ha as (? & ? & ? & ?). split_and!; [done..|].
    intros _ l d. by rewrite El.
Qed.

Lemma any_verifies_single d c : any_verifies d [c] = (ok <~ verify_integrity d (Some c); if ok : bool then Ok true else Ok false).
Proof. done. Qed.

Context {EdLaw : LawfulEd25519}.

(** A document signed by anybody is accepted for every DID: neither the key
    that verifies nor the provider is compared with the DID asked for. *)
Lemma signed_by_anyone did kp doc now doc' c :
  proper_keypair kp → verifiable_credentials doc = [] →
  match pr_did (provider doc) with Some p => is_ok (parse_did p) = true | None => True end →
  attach_integrity_credential doc kp now = Ok (doc', c) → _assert_integrity doc' did = Ok tt.
Proof.
  intros Hkp Hn Hp Ha. pose proof (attach_verifies' _ _ _ _ _ Hkp Ha) as Hv.
  apply attach_Ok in Ha as (p & s & _ & _ & _ & _ & Ed'). unfold _assert_integrity.
  assert (provider doc' = provider doc ∧ verifiable_credentials doc' = [c]) as [-> ->]
    by (rewrite Ed'; cbn; by rewrite Hn).
  rewrite any_verifies_single, Hv. cbn [raising res_catch res_bind negb raise_if].
  destruct (pr_did (provider doc)) as [q|]; [|done]. by destruct (parse_did q).
Qed.
End facts.

(** ** Theorems *)

(** C32: what a resolution vouches for.  A result is for the DID that was asked,
    which is well formed; it is the document that the named source returned, and
    the index and the well-known file are used only when the local registry
    returned none; and the document has a well-formed provider DID or none, and
    either carries a credential that verifies against its body or, having no
    credential, names the DID as its provider. *)
Theorem resolve_sound {Ed : Ed25519} model_validate {St E : Type} (r : DIDResolver St E) did u w st a st' :
  resolve model_validate r did u w st = (Ok a, st') →
  ra_did a = did ∧ is_ok (parse_did did) = true ∧ authentic (agent_facts a) did ∧
  came_from model_validate r did u w st a ∧ (source a ≠ "local" → no_local r did st).
Proof. exact (resolve_sound' model_validate r did u w st a st'). Qed.

(** Resolvers with only an index, which returns the document [d] *)
Definition index_only (d : AgentFacts) : DIDResolver unit unit :=
  {| _local := None; _index := Some (λ _, Ok (Some d)); _well_known := None |}.

Definition unsigned_facts (did : string) : AgentFacts :=
  match Builder.provider_did did (new_builder "urn:agent:a" "A" "an agent" "1" "A" "https://a.example") with
  | Ok b => Builder.build b
  | Err _ => demo_facts
  end.

Definition resolved_source (r : res resolve_exn ResolvedAgent * unit) : option string :=
  match r.1 with Ok a => Some (source a) | Err _ => None end.

Definition no_document (_ : json) : option AgentFacts := None.

Example unsigned_needs_provider :
  resolved_source (resolve no_document (index_only (unsigned_facts "did:web:b")) "did:web:a" (Some "a") None tt) = None.
Proof. vm_compute. reflexivity. Qed.

Lemma resolve_sound_witness :
  ∃ a, resolve no_document (index_only (unsigned_facts "did:web:a")) "did:web:a" (Some "a") None tt = (Ok a, tt) ∧
    authentic (agent_facts a) "did:web:a".
Proof.
  exists {| ra_did := "did:web:a"; agent_facts := unsigned_facts "did:web:a"; source := "nanda_index" |}.
  assert (resolve no_document (index_only (unsigned_facts "did:web:a")) "did:web:a" (Some "a") None tt =
    (Ok {| ra_did := "did:web:a"; agent_facts := unsigned_facts "did:web:a"; source := "nanda_index" |}, tt)) as E
    by (vm_compute; reflexivity).
  apply conj; [exact E|]. exact (proj1 (proj2 (proj2 (resolve_sound _ _ _ _ _ _ _ _ E)))).
Defined.

(** A stranger's signature makes the index's document pass for any DID. *)
Example stranger_resolves :
  ∃ d c, attach_integrity_credential demo_facts demo_keypair "t" = Ok (d, c) ∧
    resolved_source (resolve no_document (index_only d) "did:web:victim" (Some "victim") None tt) = Some "nanda_index".
Proof.
  pose proof (attach_total demo_facts demo_keypair "t" demo_keypair_proper) as Hok.
  rewrite demo_facts_signable in Hok. apply is_ok_Ok in Hok as [[d c] E]. exists d, c. split; [exact E|].
  pose proof (signed_by_anyone "did:web:victim" demo_keypair demo_facts "t" d c demo_keypair_proper eq_refl I E) as Ha.
  unfold resolve, from_index, accept, index_only, resolved_source. cbn [_local _index]. rewrite Ha. reflexivity.
Qed.

(** One entry without a username makes every lookup fail. *)
Definition an_entry (u : string) : json :=
  JObj [(KStr "_id", JStr "1"); (KStr "username", JStr u); (KStr "agent_facts_link", JStr "https://a")].

Definition index_config : NandaIndexConfig := {|
  base_url := "https://index/"; retry_attempts := 3; user_agent := ""; session_cookie := None; api_token := None;
  extra_headers := [] |}.

Definition found (l : list json) : res NandaIndexError (option string) :=
  res_map (option_map username) (find_by_username index_config (λ _, Reply 200 (Some (JList l))) "a").

Example lookup_finds : found [an_entry "b"; an_entry "a"] = Ok (Some "a").
Proof. vm_compute. reflexivity. Qed.

Example bad_entry_breaks_lookup : found [an_entry "a"; JObj [(KStr "_id", JStr "2")]] = Err NandaIndexInvalidResponse.
Proof. vm_compute. reflexivity. Qed.
