(* ===== verification/Identity.v ===== *)
(** * Identity: building, caching and resolving documents

    Models [services/identity_service.py] apart from [verify_document]
    (AgentFacts.v) and the keys (KeyStore.v).  Redis is a map from keys to
    documents with the time they expire, and may be down.  The Unicode tables
    behind [str.lower] and [str.isalnum], the text of a float, pydantic's
    [model_validate] and the tools of the registry are parameters; a request
    draws its random bytes from an argument. *)

From Stdlib Require Import Ascii ZArith Lia Floats.SpecFloat.
From stdpp Require Import base tactics strings gmap list.
From S2P Require Import Prelude PyStr Dict PyVal Base58 Json Uuid Signer Did Agents KeyStore AgentFacts Resolver.

#[local] Open Scope Z_scope.

Record identity_settings := {
  identity_public_base_url : string;
  identity_instance_name : string;
  identity_instance_description : string;
  app_version : string;
  identity_trust_zone : string;
  nanda_index_username : string;
  identity_facts_cache_ttl_seconds : Z;
  nanda_index_resolve_cache_ttl_seconds : Z;
}.

Record randomness := { entropy : list Byte.byte; nonce : list Byte.byte; now_text : string }.

Record idstate := {
  id_agents : list Agent;
  id_keys : key_store;
  redis_up : bool;
  id_cache : gmap string (json * Z);
}.

Inductive id_exn :=
  | AgentNotFound
  | MultipleResultsFound
  | KeyFailure (e : ks_exn)
  | FactsFailure (e : facts_exn)
  | ResolveFailure (e : resolve_exn)
  | RegistrationRefused
  | IndexFailure (e : NandaIndexError).

(** ** Constants *)

Definition jobj (l : list (string * json)) : json := JObj (map (λ kv, (KStr kv.1, kv.2)) l).
Definition jdict_of (l : list (string * json)) : jdict := map (λ kv, (KStr kv.1, kv.2)) l.

Definition error_property (type description : string) : json :=
  jobj [("type", JStr type); ("description", JStr description)].

Definition _INSTANCE_ERROR_SCHEMA : jdict := jdict_of [
  ("type", JStr "object");
  ("required", JList [JStr "error_code"; JStr "detail"]);
  ("properties", jobj [
    ("error_code", error_property "string" "Stable machine-readable error code (e.g. VALIDATION_ERROR, NOT_FOUND).");
    ("detail", error_property "string" "Human-readable explanation of what went wrong.");
    ("next_steps", error_property "string" "Plain-language guidance telling the caller how to recover.");
    ("correlation_id", error_property "string" "Request correlation ID for log correlation.");
    ("errors", jobj [("type", JStr "array"); ("items", jobj [("type", JStr "object")]);
       ("description", JStr "Present on VALIDATION_ERROR — per-jfield Pydantic error descriptors.")])])].

Definition _INSTANCE_EXAMPLE_REQUESTS : list jdict := [
  jdict_of [("name", JStr "submit_workflow"); ("method", JStr "POST"); ("path", JStr "/api/v1/workflows/submit");
    ("body", jobj [("instruction", JStr "Plan a dinner for 6 with vegetarian options."); ("budget", JInt 500);
       ("domain", JStr "general"); ("priority", JInt 5)])];
  jdict_of [("name", JStr "poll_status"); ("method", JStr "GET"); ("path", JStr "/api/v1/workflows/{workflow_id}/status")];
  jdict_of [("name", JStr "read_result"); ("method", JStr "GET"); ("path", JStr "/api/v1/workflows/{workflow_id}/result")];
  jdict_of [("name", JStr "query_memory"); ("method", JStr "POST"); ("path", JStr "/api/v1/memory/query");
    ("body", jobj [("query", JStr "what is the deadline"); ("top_k", JInt 10); ("min_similarity", JFloat (FFrac "0.5"))])];
  jdict_of [("name", JStr "resolve_did"); ("method", JStr "GET"); ("path", JStr "/api/v1/identity/resolve?did=did:key:z...")]].

Definition new_skill (id description : string) (inputs outputs : list string) : Skill := {|
  sk_id := id; sk_description := description; input_modes := inputs; output_modes := outputs;
  supported_languages := None; latency_budget_ms := None; max_tokens := None |}.

Definition platform_skills : list Skill := [
  new_skill "workflow.submit" "Submit a multi-agent workflow with optional budget and constraints."
    ["text"; "structured-output"] ["structured-output"];
  new_skill "workflow.status" "Read current status and progress of a running workflow." ["text"] ["structured-output"];
  new_skill "workflow.result" "Fetch the final result of a completed workflow." ["text"] ["structured-output"; "text"];
  new_skill "memory.query" "Semantic + vector search over shared memory with provenance chains." ["text"] ["structured-output"];
  new_skill "memory.write" "Write a signed memory record into the shared CRDT store." ["structured-output"] ["structured-output"];
  new_skill "agents.search" "Discover agents by capability, trust score, and cost." ["text"] ["structured-output"];
  new_skill "identity.resolve" "Resolve a DID to a verified AgentFacts document." ["text"] ["structured-output"];
  new_skill "policy.evaluate" "Evaluate whether a proposed action is allowed by current policy rules."
    ["structured-output"] ["structured-output"]].

(** [tools] is the registry, [None] when it cannot be had. *)
Fixpoint add_tools (tools : list (string * string)) (seen : list string) (skills : list Skill) : list Skill :=
  match tools with
  | [] => skills
  | (name, description) :: tools =>
      if str_empty name || bool_decide (name ∈ seen) then add_tools tools seen skills
      else
        let description := if str_empty description then name +:+ " tool" else description in
        add_tools tools (name :: seen) (skills ++ [new_skill name description ["text"] ["text"]])
  end.

Definition _skills_from_registry (tools : option (list (string * string))) : list Skill :=
  match tools with
  | None => platform_skills
  | Some tools => add_tools tools (map sk_id platform_skills) platform_skills
  end.

Definition modality_map : list (string * string) := [
  ("code_execution", "code"); ("web_search", "text"); ("analysis", "structured-output"); ("research", "text");
  ("test", "text"); ("image", "image"); ("audio", "audio"); ("video", "video")].

Section unicode.
Context (lower : string → string) (isalnum : string → bool) (float_text : spec_float → pyfloat).

Fixpoint add_modalities (capabilities out : list string) : list string :=
  match capabilities with
  | [] => out
  | cap :: capabilities =>
      let modality := default "text" (dict_get (py_strip (lower cap)) modality_map) in
      add_modalities capabilities (if bool_decide (modality ∈ out) then out else out ++ [modality])
  end.

Definition _modalities_from_capabilities (capabilities : list string) : list string :=
  match add_modalities capabilities [] with [] => ["text"] | out => out end.

(** [isinstance(value, (int, float))] *)
Definition number_json (v : pyval) : option json :=
  match v with
  | VBool b => Some (JBool b)
  | VInt z => Some (JInt z)
  | VFloat f => Some (JFloat (float_text f))
  | _ => None
  end.

Definition _limits_payload_from_cost_profile (cost_profile : list (string * pyval)) : jdict :=
  omap (λ key, v ← dict_get key cost_profile; j ← number_json v; Some (KStr key, j))
    ["max_transaction_usd"; "rate_limit_per_min"; "cost_cap_per_hour_usd"; "max_concurrent_workflows"].

Definition _trust_zone_for_agent (a : Agent) : string :=
  match dict_get (KStr "trust_zone") (metadata_ a) with
  | Some (JStr (String c s)) => String c s
  | _ =>
      if 7 <=? safety_level a then "verified-enterprise"
      else if 4 <=? safety_level a then "verified-community"
      else "unverified"
  end.

Definition safe_char (c : string) : string :=
  if isalnum c || bool_decide (c ∈ ["-"; "_"]) then c else "-".

Definition _safe_name (name : string) : string :=
  let s := str_strip "-" (str_join "" (map safe_char (py_chars (lower name)))) in
  if str_empty s then "instance" else s.

(** ** The documents *)

Context (model_validate : json → option AgentFacts) (s : identity_settings) (tools : option (list (string * string))).
Context {Ed : Ed25519} {Ae : Aead}.

Definition base : string := str_rstrip "/" (identity_public_base_url s).

Definition lift_keys {A} (m : res ks_exn A) : res id_exn A := res_catch m (λ e, Err (KeyFailure e)).
Definition lift_facts {A} (m : res facts_exn A) : res id_exn A := res_catch m (λ e, Err (FactsFailure e)).
Definition lift_did {A} (m : res did_error A) : res id_exn A := res_catch m (λ e, Err (FactsFailure (DIDError e))).

(** [... or None] *)
Definition or_none (t : string) : option string := if str_empty t then None else Some t.

(** The instance's document, once its key is there *)
Definition instance_document (keypair : KeyPair) (now : string) : res id_exn AgentFacts :=
  provider_did <~ lift_did (build_did_key (public_bytes keypair));
  let extensions := {| example_requests := _INSTANCE_EXAMPLE_REQUESTS; error_schema := Some _INSTANCE_ERROR_SCHEMA;
                       limits := None; nanda_index_handle := or_none (nanda_index_username s) |} in
  b <~ lift_did (Builder.provider_did provider_did
         (new_builder ("urn:agent:massclaw:" +:+ _safe_name (identity_instance_name s)) (identity_instance_name s)
            (identity_instance_description s) (app_version s) (identity_instance_name s) base));
  let b := Builder.endpoints [base; base +:+ "/api/v1"; base +:+ "/api/v1/mcp"; base +:+ "/.well-known/agent-facts.json"] b in
  let b := Builder.modalities ["text"; "structured-output"; "tool-use"; "workflow"] b in
  let b := Builder.auth_methods ["bearer"; "api-key"; "agent-facts-signature"] b in
  let b := Builder.skills (_skills_from_registry tools) b in
  let b := Builder.documentation_url (base +:+ "/docs") b in
  let b := Builder.certification (identity_trust_zone s) None b in
  lift_facts (Builder.build_and_sign (Builder.extensions extensions b) keypair now).

Definition _build_instance_facts (rnd : randomness) (st : idstate) : res id_exn AgentFacts * idstate :=
  match instance_keypair (entropy rnd) (id_keys st) with
  | Err e => (Err (KeyFailure e), st)
  | Ok (kp, ks) =>
      (instance_document kp (now_text rnd),
       {| id_agents := id_agents st; id_keys := ks; redis_up := redis_up st; id_cache := id_cache st |})
  end.

(** The registry's schema lets only names of tools in, no dictionaries. *)
Definition agent_skills (supported : list string) : list Skill :=
  map (λ entry, new_skill entry (entry +:+ " tool") ["text"] ["text"]) supported.

Definition agent_document (keypair : KeyPair) (agent : Agent) (now : string) : res id_exn AgentFacts :=
  did <~ lift_did (build_did_key (public_bytes keypair));
  let payload := _limits_payload_from_cost_profile (cost_profile agent) in
  let extensions := {| example_requests := []; error_schema := None;
                       limits := match payload with [] => None | _ => Some payload end; nanda_index_handle := None |} in
  let version := if str_empty (Agents.version agent) then "1.0.0" else Agents.version agent in
  b <~ lift_did (Builder.provider_did did
         (new_builder ("urn:agent:massclaw:" +:+ uuid_str (Agents.agent_id agent)) (name agent) (description agent) version
            (identity_instance_name s) base));
  let b := Builder.endpoint (base +:+ "/api/v1/agents/" +:+ uuid_str (Agents.agent_id agent)) b in
  let b := Builder.modalities (_modalities_from_capabilities (Agents.capabilities agent)) b in
  let b := Builder.auth_methods ["bearer"; "api-key"] b in
  let b := Builder.skills (agent_skills (supported_tools agent)) b in
  let b := Builder.certification (_trust_zone_for_agent agent) None b in
  lift_facts (Builder.build_and_sign (Builder.extensions extensions b) keypair now).

Definition with_agents (st : idstate) (l : list Agent) : idstate :=
  {| id_agents := l; id_keys := id_keys st; redis_up := redis_up st; id_cache := id_cache st |}.

(** The key entry is flushed before the document is built. *)
Definition _build_agent_facts (rnd : randomness) (agent : Agent) (st : idstate) : res id_exn AgentFacts * idstate :=
  match ensure_agent_keypair (entropy rnd) (nonce rnd) (now_text rnd) (id_keys st) agent with
  | Err e => (Err (KeyFailure e), st)
  | Ok (kp, agent') => (agent_document kp agent' (now_text rnd), with_agents st (save_agent (id_agents st) agent'))
  end.

(** ** The cache *)

Definition with_cache (st : idstate) (c : gmap string (json * Z)) : idstate :=
  {| id_agents := id_agents st; id_keys := id_keys st; redis_up := redis_up st; id_cache := c |}.

Definition _read_cache (key : string) (now : Z) (st : idstate) : option AgentFacts :=
  if redis_up st then
    match id_cache st !! key with
    | Some (doc, until) => if now <? until then model_validate doc else None
    | None => None
    end
  else None.

Definition _write_cache (key : string) (facts : AgentFacts) (ttl now : Z) (st : idstate) : idstate :=
  if redis_up st then with_cache st (<[key := (to_document facts, now + ttl)]> (id_cache st)) else st.

Definition _INSTANCE_FACTS_CACHE_KEY : string := "identity:instance_facts".
Definition agent_facts_cache_key (agent_id : string) : string := "identity:agent_facts:" +:+ agent_id.
Definition _resolve_cache_key (did : string) : string := "identity:resolve:" +:+ did.

Definition get_instance_facts (rnd : randomness) (now : Z) (st : idstate) : res id_exn AgentFacts * idstate :=
  match _read_cache _INSTANCE_FACTS_CACHE_KEY now st with
  | Some facts => (Ok facts, st)
  | None =>
      match _build_instance_facts rnd st with
      | (Ok facts, st) =>
          (Ok facts, _write_cache _INSTANCE_FACTS_CACHE_KEY facts (identity_facts_cache_ttl_seconds s) now st)
      | (Err e, st) => (Err e, st)
      end
  end.

(** [agent_id] is [str(agent_id)] of the argument, which may be a UUID or a text; a
    cached document is found by the text as it was given.  An exception rolls the
    request's transaction back. *)
Definition _load_agent (agent_id : string) (st : idstate) : res id_exn Agent :=
  res_of_option AgentNotFound (id ← uuid_parse agent_id; find_agent (id_agents st) id).

Definition get_agent_facts (agent_id : string) (rnd : randomness) (now : Z) (st : idstate) : res id_exn AgentFacts * idstate :=
  match _read_cache (agent_facts_cache_key agent_id) now st with
  | Some facts => (Ok facts, st)
  | None =>
      match _load_agent agent_id st with
      | Err e => (Err e, st)
      | Ok agent =>
          match _build_agent_facts rnd agent st with
          | (Ok facts, st') =>
              (Ok facts, _write_cache (agent_facts_cache_key agent_id) facts (identity_facts_cache_ttl_seconds s) now st')
          | (Err e, _) => (Err e, st)
          end
      end
  end.

Definition invalidate (key : string) (st : idstate) : idstate := with_cache st (delete key (id_cache st)).

Definition invalidate_instance_facts : idstate → idstate := invalidate _INSTANCE_FACTS_CACHE_KEY.
Definition invalidate_agent_facts (agent_id : string) : idstate → idstate := invalidate (agent_facts_cache_key agent_id).
Definition invalidate_resolution (did : string) : idstate → idstate := invalidate (_resolve_cache_key did).

(** ** Resolution *)

(** [Agent.metadata_["agent_facts_key"]["did"] == did] *)
Definition has_did (did : string) (a : Agent) : bool :=
  match dict_get (KStr _AGENT_KEY_METADATA_FIELD) (metadata_ a) with
  | Some (JObj entry) => match dict_get (KStr "did") entry with Some (JStr d) => String.eqb d did | _ => false end
  | _ => false
  end.

Definition _lookup_agent_facts_by_did (rnd : randomness) (did : string) (st : idstate)
    : res id_exn (option AgentFacts) * idstate :=
  match parse_did did with
  | Err e => (Err (FactsFailure (DIDError e)), st)
  | Ok _ =>
      match filter (λ a, has_did did a = true) (id_agents st) with
      | [] => (Ok None, st)
      | [agent] => let '(r, st) := _build_agent_facts rnd agent st in (res_map Some r, st)
      | _ => (Err MultipleResultsFound, st)
      end
  end.

(** [index] is the client of the index where it is enabled, [fetch] the
    well-known fetcher. *)
Definition _build_resolver (rnd : randomness) (index : option (string → res id_exn (option AgentFacts)))
    (fetch : string → res id_exn (option json)) : DIDResolver idstate id_exn :=
  {| _local := Some (_lookup_agent_facts_by_did rnd); _index := index; _well_known := Some fetch |}.

Definition resolve_did (did : string) (username_hint well_known_url_hint : option string) (rnd : randomness)
    (index : option (string → res id_exn (option AgentFacts))) (fetch : string → res id_exn (option json))
    (now : Z) (st : idstate) : res id_exn ResolvedAgent * idstate :=
  match _read_cache (_resolve_cache_key did) now st with
  | Some cached => (Ok {| ra_did := did; agent_facts := cached; source := "cache" |}, st)
  | None =>
      match resolve model_validate (_build_resolver rnd index fetch) did username_hint well_known_url_hint st with
      | (Ok resolved, st) =>
          (Ok resolved, _write_cache (_resolve_cache_key did) (agent_facts resolved)
                          (nanda_index_resolve_cache_ttl_seconds s) now st)
      | (Err e, _) => (Err (ResolveFailure e), st)
      end
  end.

(** [register_instance_with_nanda_index]: the request that is sent, if any *)
Definition register_instance_with_nanda_index (enabled : bool) (c : NandaIndexConfig) (replies : nat → reply)
    : res id_exn jdict :=
  raise_if (negb enabled) RegistrationRefused ;!
  raise_if (str_empty (nanda_index_username s)) RegistrationRefused ;!
  r <~ res_catch (register c replies (nanda_index_username s) (base +:+ "/.well-known/agent-facts.json"))
         (λ e, Err (IndexFailure e));
  Ok (raw_response r).

(** ** Lemmas *)

Context {EdLaw : LawfulEd25519} {AeLaw : LawfulAead}.
Lemma lift_Ok {E A} (wrap : E → id_exn) (m : res E A) a : res_catch m (λ e, Err (wrap e)) = Ok a ↔ m = Ok a.
Proof. destruct m; cbn; naive_solver. Qed.

Lemma provider_did_Ok did b b' : Builder.provider_did did b = Ok b' → _provider_did b' = Some did.
Proof. unfold Builder.provider_did. intros (p & _ & H)%res_bind_Ok. destruct b. by injection H as <-. Qed.

(** A document that an agent's pair signed *)
Definition signed_by (kp : KeyPair) (d : AgentFacts) : Prop :=
  proper_keypair kp ∧ verify_integrity d None = Ok true ∧
  ∃ did, build_did_key (public_bytes kp) = Ok did ∧ pr_did (provider d) = Some did ∧
    ∀ c, c ∈ verifiable_credentials d → cred_issuer c = did.

Lemma build_and_sign_signed b kp now did d :
  proper_keypair kp → build_did_key (public_bytes kp) = Ok did → _provider_did b = Some did →
  Builder.build_and_sign b kp now = Ok d → signed_by kp d.
Proof.
  intros Hkp Hd Hb H. split; [done|]. split; [by eapply build_and_sign_verifies|]. exists did. split; [done|].
  unfold Builder.build_and_sign in H. apply res_bind_Ok in H as ([d' c] & Ha & [= <-]).
  apply attach_Ok in Ha as (p & sg & Hi & _ & _ & _ & ->). cbn. split; [done|].
  intros c' ->%list_elem_of_singleton. congruence.
Qed.

Lemma agent_document_signed kp a now d : proper_keypair kp → agent_document kp a now = Ok d → signed_by kp d.
Proof.
  intros Hkp. unfold agent_document. intros (did & Hd%lift_Ok & (b & Hb%lift_Ok%provider_did_Ok & H%lift_Ok)%res_bind_Ok)%res_bind_Ok.
  eapply build_and_sign_signed; [done|done| |exact H]. destruct b. exact Hb.
Qed.

Lemma instance_document_signed kp now d : proper_keypair kp → instance_document kp now = Ok d → signed_by kp d.
Proof.
  intros Hkp. unfold instance_document. intros (did & Hd%lift_Ok & (b & Hb%lift_Ok%provider_did_Ok & H%lift_Ok)%res_bind_Ok)%res_bind_Ok.
  eapply build_and_sign_signed; [done|done| |exact H]. destruct b. exact Hb.
Qed.

Lemma write_then_read key d ttl now now' st :
  redis_up st = true → now' < now + ttl → model_validate (to_document d) = Some d →
  _read_cache key now' (_write_cache key d ttl now st) = Some d.
Proof.
  intros Hr Ht Hvalidate. unfold _write_cache, _read_cache. rewrite Hr. cbn [redis_up with_cache id_cache]. rewrite Hr, lookup_insert_eq.
  assert ((now' <? now + ttl) = true) as -> by (by apply Z.ltb_lt). by rewrite Hvalidate.
Qed.

Lemma ensure_agent_id e n t ks a kp a' :
  ensure_agent_keypair e n t ks a = Ok (kp, a') → Agents.agent_id a' = Agents.agent_id a.
Proof.
  unfold ensure_agent_keypair. intros (stored & _ & H)%res_bind_Ok. destruct stored as [[| |text| | | | |]|]; try done.
  - apply res_bind_Ok in H as (? & _ & H). apply res_bind_Ok in H as (? & _ & H). apply res_bind_Ok in H as (? & _ & H).
    by apply res_bind_Ok in H as (? & _ & [= _ <-]).
  - apply res_bind_Ok in H as (? & _ & H). apply res_bind_Ok in H as (? & _ & H). by apply res_bind_Ok in H as (? & _ & [= _ <-]).
Qed.

Lemma write_cache_agents key d ttl now st :
  id_agents (_write_cache key d ttl now st) = id_agents st ∧ id_keys (_write_cache key d ttl now st) = id_keys st.
Proof. unfold _write_cache. by destruct (redis_up st). Qed.

Lemma write_cache_up key d ttl now st : redis_up (_write_cache key d ttl now st) = redis_up st.
Proof. unfold _write_cache. by destruct (redis_up st) eqn:E. Qed.

(** An answer that was not in the cache *)
Lemma get_agent_facts_fresh t rnd now st d st1 :
  _read_cache (agent_facts_cache_key t) now st = None → get_agent_facts t rnd now st = (Ok d, st1) →
  ∃ id a kp a', uuid_parse t = Some id ∧ find_agent (id_agents st) id = Some a ∧
    ensure_agent_keypair (entropy rnd) (nonce rnd) (now_text rnd) (id_keys st) a = Ok (kp, a') ∧
    agent_document kp a' (now_text rnd) = Ok d ∧ id_agents st1 = save_agent (id_agents st) a' ∧ id_keys st1 = id_keys st.
Proof.
  intros Hc. unfold get_agent_facts, _load_agent. rewrite Hc. destruct (uuid_parse t) as [id|]; [|done]. cbn [mbind option_bind].
  destruct (find_agent (id_agents st) id) as [a|] eqn:Ea; [|done]. cbn [res_of_option].
  unfold _build_agent_facts. destruct (ensure_agent_keypair _ _ _ _ a) as [[kp a']|e] eqn:Ek; [|done].
  destruct (agent_document kp a' (now_text rnd)) as [d'|] eqn:Ed'; [|done]. intros [= <- <-].
  exists id, a, kp, a'. destruct (write_cache_agents (agent_facts_cache_key t) d' (identity_facts_cache_ttl_seconds s) now
    (with_agents st (save_agent (id_agents st) a'))) as [-> ->]. by split_and!.
Qed.

Lemma agent_document_id kp a t d : agent_document kp a t = Ok d → af_id d = "urn:agent:massclaw:" +:+ uuid_str (Agents.agent_id a).
Proof.
  unfold agent_document. intros (did & _ & (b & Hb & H%lift_Ok)%res_bind_Ok)%res_bind_Ok.
  unfold Builder.build_and_sign in H. apply res_bind_Ok in H as ([d1 c] & Ha1 & [= <-]).
  apply attach_Ok in Ha1 as (? & ? & _ & _ & _ & _ & ->). apply lift_Ok in Hb. unfold Builder.provider_did in Hb.
  apply res_bind_Ok in Hb as (? & _ & Hb). by injection Hb as <-.
Qed.

(** The entry with the key of the agent's row *)
Definition key_entry (st : idstate) (id : uuid) : option json :=
  a ← find_agent (id_agents st) id; dict_get (KStr _AGENT_KEY_METADATA_FIELD) (metadata_ a).

Lemma key_entry_saved st st1 id a a' :
  find_agent (id_agents st) id = Some a → Agents.agent_id a' = Agents.agent_id a →
  id_agents st1 = save_agent (id_agents st) a' →
  find_agent (id_agents st1) id = Some a' ∧
  key_entry st1 id = dict_get (KStr _AGENT_KEY_METADATA_FIELD) (metadata_ a').
Proof.
  intros Ha Hid Hs. apply find_agent_spec in Ha as Ha'. destruct Ha' as [_ Hi].
  assert (find_agent (id_agents st1) id = Some a') as Hf by (by rewrite Hs, find_save, decide_True, Ha by congruence).
  split; [done|]. unfold key_entry. by rewrite Hf.
Qed.

Lemma agent_identity_stable' kek t rnd now st d st1 :
  _kek (id_keys st) = Some kek → length kek = 32%nat → length (nonce rnd) = _NONCE_SIZE →
  _read_cache (agent_facts_cache_key t) now st = None → get_agent_facts t rnd now st = (Ok d, st1) →
  ∃ kp id, uuid_parse t = Some id ∧ signed_by kp d ∧ ∀ st2 t' rnd' now' d' st3,
    _kek (id_keys st2) = Some kek → key_entry st2 id = key_entry st1 id → uuid_parse t' = Some id →
    _read_cache (agent_facts_cache_key t') now' st2 = None → get_agent_facts t' rnd' now' st2 = (Ok d', st3) →
    signed_by kp d' ∧ af_id d' = af_id d ∧ key_entry st3 id = key_entry st1 id.
Proof.
  intros Hk Hl Hn Hc Hg. destruct (get_agent_facts_fresh _ _ _ _ _ _ Hc Hg) as (id & a & kp & a' & Ht & Ha & Hek & Hd & Hs1 & Hk1).
  destruct (ensure_stable _ _ _ _ _ _ _ _ Hk Hl Hn Hek) as [Hkp Hst]. exists kp, id.
  split; [done|]. split; [by eapply agent_document_signed|]. intros st2 t' rnd' now' d' st3 Hk2 He Ht' Hc' Hg'.
  destruct (get_agent_facts_fresh _ _ _ _ _ _ Hc' Hg') as (id' & b & kp' & b' & Hti & Hb & Hek' & Hd' & Hs3 & _).
  assert (id' = id) as -> by congruence. pose proof (ensure_agent_id _ _ _ _ _ _ _ Hek) as Hida.
  destruct (key_entry_saved st st1 id a a' Ha Hida Hs1) as [Hf1 He1].
  assert (dict_get (KStr _AGENT_KEY_METADATA_FIELD) (metadata_ b) = dict_get (KStr _AGENT_KEY_METADATA_FIELD) (metadata_ a')) as Heb.
  { rewrite <-He1, <-He. unfold key_entry. by rewrite Hb. }
  rewrite (ensure_same_entry (id_keys st) (id_keys st2) a' b kp [] [] "" _ _ _ ltac:(congruence) Heb (Hst [] [] "")) in Hek'.
  injection Hek' as <- <-. split_and!; [by eapply agent_document_signed| |].
  - rewrite (agent_document_id _ _ _ _ Hd), (agent_document_id _ _ _ _ Hd').
    apply find_agent_spec in Ha as [_ Hi], Hb as [_ Hib]. by rewrite Hida, Hi, Hib.
  - destruct (key_entry_saved st2 st3 id b b Hb eq_refl Hs3) as [_ ->]. by rewrite Heb, He1.
Qed.

Lemma resolve_did_cached' did u w rnd index fetch now st a st1 :
  redis_up st = true → _read_cache (_resolve_cache_key did) now st = None →
  resolve_did did u w rnd index fetch now st = (Ok a, st1) → redis_up st1 = true →
  model_validate (to_document (agent_facts a)) = Some (agent_facts a) →
  ∀ u' w' rnd' index' fetch' now', now' < now + nanda_index_resolve_cache_ttl_seconds s →
    resolve_did did u' w' rnd' index' fetch' now' st1 =
      (Ok {| ra_did := did; agent_facts := agent_facts a; source := "cache" |}, st1).
Proof.
  intros Hr Hc. unfold resolve_did at 1. rewrite Hc.
  destruct (resolve model_validate _ did u w st) as [[a'|] st'] eqn:E; [|done]. intros [= <- <-] Hr1 Hv.
  intros u' w' rnd' index' fetch' now' Ht. unfold resolve_did. rewrite write_then_read; [done| |done|done].
  by rewrite write_cache_up in Hr1.
Qed.

Lemma authentic_of_resolve did u w rnd index fetch now st a st1 :
  _read_cache (_resolve_cache_key did) now st = None →
  resolve_did did u w rnd index fetch now st = (Ok a, st1) → ra_did a = did ∧ authentic (agent_facts a) did.
Proof.
  intros Hc. unfold resolve_did. rewrite Hc.
  destruct (resolve model_validate _ did u w st) as [[a'|] st'] eqn:E; [|done]. intros [= <- _].
  by destruct (resolve_sound' _ _ _ _ _ _ _ _ E) as (? & _ & ? & _).
Qed.
End unicode.

(** ** Theorems *)

Section theorems.
Context (lower : string → string) (isalnum : string → bool) (float_text : spec_float → pyfloat).
Context (model_validate : json → option AgentFacts) (s : identity_settings) (tools : option (list (string * string))).
Context {Ed : Ed25519} {Ae : Aead}.

(** C30: an agent's published identity is signed, and does not change as long as its
    row keeps the entry with its key.  With a 32-byte encryption key, a document
    that [get_agent_facts] builds is signed by a proper key pair, names that
    pair's DID as provider and issuer, and verifies.  In any later state of a node
    with the same encryption key in which the agent's metadata still has the same
    entry, whatever else of the agent, the table or the cache has changed, a
    document that is built for the agent, whatever random bytes are drawn and
    however its id is written, is signed by the same pair and has the same
    identifier, and the entry is kept. *)
Theorem agent_identity_stable {EdLaw : LawfulEd25519} {AeLaw : LawfulAead} kek t rnd now st d st1 :
  _kek (id_keys st) = Some kek → length kek = 32%nat → length (nonce rnd) = _NONCE_SIZE →
  _read_cache model_validate (agent_facts_cache_key t) now st = None →
  get_agent_facts lower float_text model_validate s t rnd now st = (Ok d, st1) →
  ∃ kp id, uuid_parse t = Some id ∧ signed_by kp d ∧ ∀ st2 t' rnd' now' d' st3,
    _kek (id_keys st2) = Some kek → key_entry st2 id = key_entry st1 id → uuid_parse t' = Some id →
    _read_cache model_validate (agent_facts_cache_key t') now' st2 = None →
    get_agent_facts lower float_text model_validate s t' rnd' now' st2 = (Ok d', st3) →
    signed_by kp d' ∧ af_id d' = af_id d ∧ key_entry st3 id = key_entry st1 id.
Proof. exact (agent_identity_stable' lower float_text model_validate s kek t rnd now st d st1). Qed.

(** Resolving through the cache gives what the first resolution gave.  A
    resolution that the cache did not answer returns an authentic document for
    the DID; and until its time has passed any further resolution of the DID
    returns the same document, with the source [cache] and without asking
    anybody or changing anything, whatever hints it is given. *)
Theorem resolve_did_cached did u w rnd index fetch now st a st1 :
  redis_up st = true → _read_cache model_validate (_resolve_cache_key did) now st = None →
  resolve_did lower float_text model_validate s did u w rnd index fetch now st = (Ok a, st1) → redis_up st1 = true →
  model_validate (to_document (agent_facts a)) = Some (agent_facts a) →
  (ra_did a = did ∧ authentic (agent_facts a) did) ∧
  ∀ u' w' rnd' index' fetch' now', now' < now + nanda_index_resolve_cache_ttl_seconds s →
    resolve_did lower float_text model_validate s did u' w' rnd' index' fetch' now' st1 =
      (Ok {| ra_did := did; agent_facts := agent_facts a; source := "cache" |}, st1).
Proof.
  intros Hr Hc H Hr1 Hv. split; [by eapply authentic_of_resolve|]. exact (resolve_did_cached' lower float_text model_validate s did u w rnd index fetch now st a st1 Hr Hc H Hr1 Hv).
Qed.
End theorems.

(** ** Concrete runs *)

(** A signature scheme with short signatures; it has no security. *)
Definition brief_ed25519 : Ed25519 := {|
  ed_public seed := seed; ed_sign _ _ := [Byte.x01]; ed_verify _ _ _ := true; ed_point _ := true |}.

Definition brief_lawful : @LawfulEd25519 brief_ed25519.
Proof. by split. Defined.

Definition demo_settings : identity_settings := {|
  identity_public_base_url := "http://a/"; identity_instance_name := "A"; identity_instance_description := "";
  app_version := "1"; identity_trust_zone := "self-issued"; nanda_index_username := ""; identity_facts_cache_ttl_seconds := 60;
  nanda_index_resolve_cache_ttl_seconds := 300 |}.

Definition demo_rnd (b : Byte.byte) : randomness :=
  {| entropy := seed_of b; nonce := repeat Byte.x00 12; now_text := "t" |}.

Definition demo_node : idstate :=
  {| id_agents := [no_agent]; id_keys := toy_store; redis_up := false; id_cache := ∅ |}.

Definition same (t : string) : string := t.
Definition no_text (_ : spec_float) : pyfloat := FNonFinite.

Definition demo_get (b : Byte.byte) (st : idstate) : res id_exn AgentFacts * idstate :=
  get_agent_facts (Ed := brief_ed25519) same no_text no_document demo_settings (uuid_str (UUID 1)) (demo_rnd b) 0 st.

Lemma fst_ok {E A B} (r : res E A * B) : is_ok r.1 = true → ∃ a b, r = (Ok a, b).
Proof. destruct r as [[a|] b]; [by exists a, b|done]. Qed.

Lemma demo_get_ok : is_ok (demo_get Byte.x01 demo_node).1 = true.
Proof. vm_compute. reflexivity. Qed.

Lemma demo_get_twice : is_ok (demo_get Byte.x02 (demo_get Byte.x01 demo_node).2).1 = true.
Proof. vm_compute. reflexivity. Qed.

Lemma agent_identity_stable_witness :
  ∃ d st1 d' st2 kp, demo_get Byte.x01 demo_node = (Ok d, st1) ∧ demo_get Byte.x02 st1 = (Ok d', st2) ∧
    signed_by (Ed := brief_ed25519) kp d ∧ signed_by (Ed := brief_ed25519) kp d'.
Proof.
  pose proof demo_get_twice as Hok. destruct (fst_ok _ demo_get_ok) as (d & st1 & E). rewrite E in Hok.
  destruct (fst_ok _ Hok) as (d' & st2 & E2). cbn [snd] in E2.
  destruct (agent_identity_stable (Ed := brief_ed25519) (EdLaw := brief_lawful) same no_text no_document demo_settings
    (seed_of Byte.x2a) (uuid_str (UUID 1)) (demo_rnd Byte.x01) 0 demo_node d st1 eq_refl eq_refl eq_refl eq_refl E)
    as (kp & id & Ht & Hs & Hnext).
  assert (st1 = (demo_get Byte.x01 demo_node).2) as Hst by (rewrite E; reflexivity).
  assert (_kek (id_keys st1) = Some (seed_of Byte.x2a)) as Hk by (rewrite Hst; vm_compute; reflexivity).
  assert (redis_up st1 = false) as Hr by (rewrite Hst; vm_compute; reflexivity).
  assert (_read_cache no_document (agent_facts_cache_key (uuid_str (UUID 1))) 0 st1 = None) as Hc
    by (unfold _read_cache; rewrite Hr; reflexivity).
  exists d, st1, d', st2, kp. split; [exact E|]. split; [exact E2|]. split; [exact Hs|].
  exact (proj1 (Hnext st1 (uuid_str (UUID 1)) (demo_rnd Byte.x02) 0 d' st2 Hk eq_refl Ht Hc E2)).
Defined.

(** A node with Redis, and an index that knows one document *)
Definition cached_node : idstate := {| id_agents := []; id_keys := toy_store; redis_up := true; id_cache := ∅ |}.
Definition known : AgentFacts := unsigned_facts "did:web:a".
Definition known_index (_ : string) : res id_exn (option AgentFacts) := Ok (Some known).
Definition nowhere (_ : string) : res id_exn (option json) := Ok None.
Definition validate_known (_ : json) : option AgentFacts := Some known.

Definition demo_resolve (st : idstate) (index : option (string → res id_exn (option AgentFacts))) (now : Z) :=
  resolve_did (Ed := brief_ed25519) same no_text validate_known demo_settings "did:web:a" (Some "a") None (demo_rnd Byte.x01)
    index nowhere now st.

Lemma resolve_did_cached_witness :
  ∃ a st1, demo_resolve cached_node (Some known_index) 0 = (Ok a, st1) ∧ source a = "nanda_index" ∧
    ∃ b, demo_resolve st1 None 299 = (Ok b, st1) ∧ source b = "cache" ∧ agent_facts b = agent_facts a.
Proof.
  set (a := {| ra_did := "did:web:a"; agent_facts := known; source := "nanda_index" |}).
  set (st1 := with_cache cached_node (<[_resolve_cache_key "did:web:a" := (to_document known, 300)]> ∅)).
  assert (demo_resolve cached_node (Some known_index) 0 = (Ok a, st1)) as E by (vm_compute; reflexivity).
  exists a, st1. apply conj; [exact E|]. apply conj; [reflexivity|].
  exists {| ra_did := "did:web:a"; agent_facts := known; source := "cache" |}.
  apply conj; [|apply conj; [reflexivity|reflexivity]].
  refine (proj2 (resolve_did_cached (Ed := brief_ed25519) same no_text validate_known demo_settings "did:web:a" (Some "a") None
    (demo_rnd Byte.x01) (Some known_index) nowhere 0 cached_node a st1 eq_refl eq_refl E eq_refl eq_refl) _ _ _ _ _ _ _).
  reflexivity.
Defined.
