(* ===== verification/Checkpoint.v ===== *)
(** * Checkpoint: signed snapshots of a workflow

    Models [orchestration/checkpoint.py] on the memory store of Crdt.v.  A
    checkpoint is stored as the metadata of a META record and read back from
    it; the metadata are JSON, so the decoder works on values of any shape.
    [T] are the points in time with their text.  [conv] is what the standard
    conversions make of values that the encoder never writes: [str] of a value
    that is neither a text nor an integer, [dict] of a true value that is no
    dictionary, [int] of a float.  Snapshots whose entries have fields of
    other types than [to_dict] writes are outside of the model, which refuses
    them. *)

From Stdlib Require Import Ascii NArith ZArith Lia.
From stdpp Require Import base tactics strings pretty gmap relations list.
From S2P Require Import Prelude PyStr Dict Base58 Json Did PyVal Merkle Uuid Signer Crdt TaskFsm Dag DagTopo DagOps.

#[local] Open Scope nat_scope.

Abbreviation items := (list (pykey * json)).

(** ** Data *)

Class Instant (T : Type) := {
  isoformat : T → string;
  fromisoformat : string → option T;
}.

Class LawfulInstant (T : Type) `{Instant T} := { fromisoformat_isoformat t : fromisoformat (isoformat t) = Some t }.

Class Conversions := {
  py_repr : json → string;
  py_dict_of : json → option items;
  py_int_of : json → option Z;
}.

Definition CHECKPOINT_VERSION : Z := 1.
Definition CHECKPOINT_MARKER_KEY : string := "checkpoint".
Definition CHECKPOINT_REASON_KEY : string := "checkpoint_reason".
Definition CHECKPOINT_WORKFLOW_KEY : string := "checkpoint_workflow_id".
Definition CHECKPOINT_PAYLOAD_KEY : string := "checkpoint_payload".

Inductive checkpoint_error :=
  | CheckpointDecodeError
  | ConversionError
  | StoreExn (e : crdt_error).

Record WorkflowCheckpoint (T : Type) := {
  cp_workflow_id : uuid;
  cp_reason : string;
  cp_dag_snapshot : items;
  cp_current_task_id : json;
  cp_completed_task_ids : list json;
  cp_pending_task_ids : list json;
  cp_failed_task_ids : list json;
  cp_variables : items;
  cp_reflection : option items;
  cp_version : Z;
  cp_created_at : T;
  cp_content_hash : option string;
}.
Arguments cp_workflow_id {T}. Arguments cp_reason {T}. Arguments cp_dag_snapshot {T}.
Arguments cp_current_task_id {T}. Arguments cp_completed_task_ids {T}. Arguments cp_pending_task_ids {T}.
Arguments cp_failed_task_ids {T}. Arguments cp_variables {T}. Arguments cp_reflection {T}.
Arguments cp_version {T}. Arguments cp_created_at {T}. Arguments cp_content_hash {T}.

Definition with_hash {T} (h : option string) (cp : WorkflowCheckpoint T) : WorkflowCheckpoint T := {|
  cp_workflow_id := cp_workflow_id cp; cp_reason := cp_reason cp; cp_dag_snapshot := cp_dag_snapshot cp;
  cp_current_task_id := cp_current_task_id cp; cp_completed_task_ids := cp_completed_task_ids cp;
  cp_pending_task_ids := cp_pending_task_ids cp; cp_failed_task_ids := cp_failed_task_ids cp;
  cp_variables := cp_variables cp; cp_reflection := cp_reflection cp; cp_version := cp_version cp;
  cp_created_at := cp_created_at cp; cp_content_hash := h |}.

(** ** The snapshot as JSON *)

Definition jopt (o : option string) : json := match o with Some s => JStr s | None => JNull end.

Definition field {A} (k : string) (f : A → json) (o : option A) : items :=
  match o with Some a => [(KStr k, f a)] | None => [] end.

Definition entry_json (e : node_entry) : json := JObj (
  field "node_id" JStr (e_node_id e) ++ field "capability" JStr (e_capability e) ++
  field "description" JStr (e_description e) ++ field "depends_on" (λ l, JList (map JStr l)) (e_depends_on e) ++
  field "estimated_complexity" JStr (e_estimated_complexity e) ++
  field "assigned_agent_id" jopt (e_assigned_agent_id e) ++ field "task_id" jopt (e_task_id e) ++
  field "status" JStr (e_status e) ++ field "output" jopt (e_output e) ++ field "error" jopt (e_error e)).

Definition snapshot_json (es : list node_entry) : items := [(KStr "nodes", JList (map entry_json es))].

Definition as_str (j : json) : option string := match j with JStr s => Some s | _ => None end.
Definition as_opt_str (j : json) : option (option string) :=
  match j with JStr s => Some (Some s) | JNull => Some None | _ => None end.
Definition as_strs (j : json) : option (list string) :=
  match j with JList l => mapM as_str l | _ => None end.

(** The field may be missing, but not of another type. *)
Definition read_field {A} (k : string) (f : json → option A) (d : items) : option (option A) :=
  match dict_get (KStr k) d with Some j => Some <$> f j | None => Some None end.

Definition entry_of_json (j : json) : option node_entry :=
  match j with
  | JObj d =>
      a ← read_field "node_id" as_str d; b ← read_field "capability" as_str d;
      c ← read_field "description" as_str d; e ← read_field "depends_on" as_strs d;
      g ← read_field "estimated_complexity" as_str d; h ← read_field "assigned_agent_id" as_opt_str d;
      i ← read_field "task_id" as_opt_str d; k ← read_field "status" as_str d;
      l ← read_field "output" as_opt_str d; m ← read_field "error" as_opt_str d;
      Some {| e_node_id := a; e_capability := b; e_description := c; e_depends_on := e;
              e_estimated_complexity := g; e_assigned_agent_id := h; e_task_id := i; e_status := k;
              e_output := l; e_error := m |}
  | _ => None
  end.

Definition entries_of_json (d : items) : option (list node_entry) :=
  match dict_get (KStr "nodes") d with
  | Some (JList l) => mapM entry_of_json l
  | _ => None
  end.

Section checkpoint.
Context {T : Type} `{Instant T} `{Conversions}.

(** ** The checkpoint *)

Definition ids_with (p : string → bool) (d : DAG) : list json :=
  map JStr (map node_id (filter (λ n, negb (str_empty (node_id n)) && p (status_value (status n)) = true) (nodes d))).

Definition from_dag (workflow_id : uuid) (d : DAG) (reason : string) (current_task_id : option string)
    (variables : items) (reflection : option items) (now : T) : WorkflowCheckpoint T := {|
  cp_workflow_id := workflow_id; cp_reason := reason; cp_dag_snapshot := snapshot_json (to_dict d);
  cp_current_task_id := jopt current_task_id;
  cp_completed_task_ids := ids_with (λ s, String.eqb s "completed") d;
  cp_pending_task_ids := ids_with (λ s, negb (String.eqb s "completed") && negb (String.eqb s "failed")) d;
  cp_failed_task_ids := ids_with (λ s, String.eqb s "failed") d;
  cp_variables := variables; cp_reflection := reflection; cp_version := CHECKPOINT_VERSION;
  cp_created_at := now; cp_content_hash := None |}.

Definition to_payload (cp : WorkflowCheckpoint T) : items := [
  (KStr "version", JInt (cp_version cp));
  (KStr "workflow_id", JStr (uuid_str (cp_workflow_id cp)));
  (KStr "reason", JStr (cp_reason cp));
  (KStr "current_task_id", cp_current_task_id cp);
  (KStr "completed_task_ids", JList (cp_completed_task_ids cp));
  (KStr "pending_task_ids", JList (cp_pending_task_ids cp));
  (KStr "failed_task_ids", JList (cp_failed_task_ids cp));
  (KStr "variables", JObj (cp_variables cp));
  (KStr "reflection", match cp_reflection cp with Some d => JObj d | None => JNull end);
  (KStr "dag_snapshot", JObj (cp_dag_snapshot cp));
  (KStr "created_at", JStr (isoformat (cp_created_at cp)))].

Definition py_str_of (j : json) : string :=
  match j with JStr s => s | JInt z => pretty z | _ => py_repr j end.

(** [bool(v)] *)
Definition json_true (j : json) : bool :=
  match j with
  | JNull | JBool false | JStr "" | JInt 0 | JFloat (FInt 0) | JList [] | JObj [] => false
  | _ => true
  end.

(** [dict(v or {})] *)
Definition dict_or_empty (o : option json) : res checkpoint_error items :=
  match o with
  | Some j =>
      if json_true j then
        match j with JObj d => Ok d | _ => res_of_option ConversionError (py_dict_of j) end
      else Ok []
  | None => Ok []
  end.

(** [tuple(v or ())] *)
Definition tuple_or_empty (o : option json) : res checkpoint_error (list json) :=
  match o with
  | Some j =>
      if json_true j then
        match j with
        | JList l => Ok l
        | JStr s => Ok (map JStr (py_chars s))
        | JObj d => Ok (map (λ kv, match kv.1 with KStr s => JStr s | KInt z => JInt z end) d)
        | _ => Err ConversionError
        end
      else Ok []
  | None => Ok []
  end.

(** [int(v or CHECKPOINT_VERSION)] *)
Definition version_of (o : option json) : res checkpoint_error Z :=
  match o with
  | Some j =>
      if json_true j then
        match j with
        | JInt z => Ok z
        | JBool _ => Ok 1%Z
        | JStr s => res_catch (int_of_str s) (λ _, Err ConversionError)
        | JFloat _ => res_of_option ConversionError (py_int_of j)
        | _ => Err ConversionError
        end
      else Ok CHECKPOINT_VERSION
  | None => Ok CHECKPOINT_VERSION
  end.

Definition from_payload (now : T) (payload : items) : res checkpoint_error (WorkflowCheckpoint T) :=
  wid <~ res_of_option CheckpointDecodeError (dict_get (KStr "workflow_id") payload ≫= λ j, uuid_parse (py_str_of j));
  let created_at := default now (fromisoformat (from_option py_str_of "" (dict_get (KStr "created_at") payload))) in
  snapshot <~ dict_or_empty (dict_get (KStr "dag_snapshot") payload);
  completed <~ tuple_or_empty (dict_get (KStr "completed_task_ids") payload);
  pending <~ tuple_or_empty (dict_get (KStr "pending_task_ids") payload);
  failed <~ tuple_or_empty (dict_get (KStr "failed_task_ids") payload);
  variables <~ dict_or_empty (dict_get (KStr "variables") payload);
  version <~ version_of (dict_get (KStr "version") payload);
  Ok {| cp_workflow_id := wid; cp_reason := from_option py_str_of "" (dict_get (KStr "reason") payload);
        cp_dag_snapshot := snapshot;
        cp_current_task_id := default JNull (dict_get (KStr "current_task_id") payload);
        cp_completed_task_ids := completed; cp_pending_task_ids := pending; cp_failed_task_ids := failed;
        cp_variables := variables;
        cp_reflection := match dict_get (KStr "reflection") payload with Some (JObj d) => Some d | _ => None end;
        cp_version := version; cp_created_at := created_at; cp_content_hash := None |}.

Definition restore_dag (cp : WorkflowCheckpoint T) : res checkpoint_error DAG :=
  es <~ res_of_option CheckpointDecodeError (entries_of_json (cp_dag_snapshot cp));
  res_catch (from_dict es) (λ _, Err CheckpointDecodeError).

(** ** The store *)

Definition _metadata_for (cp : WorkflowCheckpoint T) : items := [
  (KStr CHECKPOINT_MARKER_KEY, JBool true);
  (KStr CHECKPOINT_WORKFLOW_KEY, JStr (uuid_str (cp_workflow_id cp)));
  (KStr CHECKPOINT_REASON_KEY, JStr (cp_reason cp));
  (KStr CHECKPOINT_PAYLOAD_KEY, JObj (to_payload cp))].

Definition is_checkpoint_record (r : MemoryRecord) : bool :=
  from_option json_true false (dict_get (KStr CHECKPOINT_MARKER_KEY) (metadata_ r)) &&
  bool_decide (memory_type r = META).

Definition _decode_record (now : T) (r : MemoryRecord) : res checkpoint_error (WorkflowCheckpoint T) :=
  match dict_get (KStr CHECKPOINT_PAYLOAD_KEY) (metadata_ r) with
  | Some (JObj payload) => cp <~ from_payload now payload; Ok (with_hash (content_hash r) cp)
  | _ => Err CheckpointDecodeError
  end.

Context (sha256 : string → list Byte.byte) `{Ed25519}.

Definition checkpoint_write (kp : KeyPair) (author : string) (cp : WorkflowCheckpoint T) : write := {|
  w_workflow_id := Some (cp_workflow_id cp); w_memory_type := META;
  w_content := if str_empty (cp_reason cp) then "workflow checkpoint @ " +:+ isoformat (cp_created_at cp) else cp_reason cp;
  w_confidence := FInt 1; w_metadata := Some (_metadata_for cp); w_parent_hashes := Some [];
  w_author_did := Some author; w_source_agent_id := None; w_keypair := Some kp; w_precomputed_hash := None;
  w_precomputed_signature := None; w_version := 1; w_parent_version_id := None; w_expires_at := None;
  w_record_state := ACTIVE |}.

Definition save (new_id : uuid) (race : list MemoryRecord) (kp : KeyPair) (author : string)
    (cp : WorkflowCheckpoint T) (n : Crdt.node) : res checkpoint_error (WorkflowCheckpoint T * Crdt.node) :=
  p <~ res_catch (put sha256 new_id race (checkpoint_write kp author cp) n) (λ e, Err (StoreExn e));
  Ok (with_hash (content_hash p.1) cp, p.2).

Definition load_by_hash (now : T) (h : string) (n : Crdt.node) : res checkpoint_error (option (WorkflowCheckpoint T)) :=
  match _fetch_by_hash h n with
  | None => Ok None
  | Some r => if is_checkpoint_record r then cp <~ _decode_record now r; Ok (Some cp) else Ok None
  end.

(** The newest row of the workflow that is a checkpoint *)
Definition load_latest (now : T) (wid : uuid) (n : Crdt.node) : res checkpoint_error (option (WorkflowCheckpoint T)) :=
  match filter (λ r, workflow_id r = Some wid ∧ memory_type r = META ∧ record_state r = ACTIVE ∧
                     is_checkpoint_record r = true) (reverse (records n)) with
  | r :: _ => cp <~ _decode_record now r; Ok (Some cp)
  | [] => Ok None
  end.
End checkpoint.

(** ** Round trips *)

Section roundtrip.
Context {T : Type} `{LawfulInstant T} `{Conversions}.

Lemma read_fields {A B} (f : A → B) (g : B → option A) (l : list A) :
  (∀ a, a ∈ l → g (f a) = Some a) → mapM g (map f l) = Some l.
Proof.
  intros Hg. apply mapM_Some. induction l as [|a l IH]; constructor.
  - apply Hg. by left.
  - apply IH. intros x Hx. apply Hg. by right.
Qed.

Lemma as_opt_str_jopt o : as_opt_str (jopt o) = Some o.
Proof. by destruct o. Qed.

Lemma entry_reads_back n : entry_of_json (entry_json (to_entry n)) = Some (to_entry n).
Proof.
  cbv -[as_strs as_opt_str jopt uuid_str status_value map fmap option_fmap].
  rewrite !as_opt_str_jopt. unfold as_strs. by rewrite (read_fields JStr as_str) by done.
Qed.

Lemma snapshot_reads_back d : entries_of_json (snapshot_json (to_dict d)) = Some (to_dict d).
Proof.
  change (mapM entry_of_json (map entry_json (to_dict d)) = Some (to_dict d)).
  apply read_fields. unfold to_dict. intros e (n&->&_)%list_elem_of_fmap. apply entry_reads_back.
Qed.

Lemma restore_snapshot wid d reason cur vars refl (now : T) :
  dag_inv d → Forall uuids_ok (nodes d) → restore_dag (from_dag wid d reason cur vars refl now) = Ok d.
Proof.
  intros (Hv&Hc&Hne) Hu. unfold restore_dag. cbn [from_dag cp_dag_snapshot]. rewrite snapshot_reads_back.
  cbn [res_of_option res_bind]. unfold from_dict, to_dict. rewrite from_entries_map by done. cbn [res_bind].
  assert (DAG_init (nodes d) = Ok d) as ->; [|done]. unfold DAG_init. rewrite Hc. by rewrite validate_valid.
Qed.

(** What the encoder may be given: a 128-bit identifier, and a version *)
Definition encodable (cp : WorkflowCheckpoint T) : Prop :=
  uuid_ok (cp_workflow_id cp) ∧ cp_version cp ≠ 0%Z.

Lemma tuple_of_list l : tuple_or_empty (Some (JList l)) = Ok l.
Proof. by destruct l. Qed.
Lemma dict_of_dict d : dict_or_empty (Some (JObj d)) = Ok d.
Proof. by destruct d. Qed.

Lemma payload_reads_back (now : T) cp :
  encodable cp → from_payload now (to_payload cp) = Ok (with_hash None cp).
Proof.
  intros [Hw Hv]. unfold from_payload.
  repeat match goal with |- context [dict_get ?k (to_payload cp)] =>
    let v := eval lazy [dict_get to_payload decide decide_rel pykey_eq_dec] in (dict_get k (to_payload cp)) in
    let v := eval cbv -[uuid_str isoformat cp_version cp_workflow_id cp_reason cp_current_task_id
      cp_completed_task_ids cp_pending_task_ids cp_failed_task_ids cp_variables cp_reflection cp_dag_snapshot
      cp_created_at] in v in
    change (dict_get k (to_payload cp)) with v end.
  cbn -[uuid_str uuid_parse tuple_or_empty dict_or_empty version_of].
  rewrite uuid_parse_str by done. cbn -[tuple_or_empty dict_or_empty version_of].
  rewrite !dict_of_dict, !tuple_of_list. cbn -[version_of]. rewrite fromisoformat_isoformat.
  assert (version_of (Some (JInt (cp_version cp))) = Ok (cp_version cp)) as ->.
  { unfold version_of. cbn. by destruct (cp_version cp). }
  cbn. unfold with_hash. f_equal. f_equal. by destruct (cp_reflection cp).
Qed.
(** Any node that holds the row of a checkpoint reads the checkpoint from it. *)
Lemma row_reads_back (now : T) cp r :
  encodable cp → metadata_ r = _metadata_for cp → memory_type r = META →
  is_checkpoint_record r = true ∧ _decode_record now r = Ok (with_hash (content_hash r) cp).
Proof.
  intros He Hm Ht. unfold is_checkpoint_record, _decode_record. rewrite Hm, Ht. split; [done|].
  assert (dict_get (KStr CHECKPOINT_PAYLOAD_KEY) (_metadata_for cp) = Some (JObj (to_payload cp))) as -> by done.
  by rewrite payload_reads_back.
Qed.

Context (sha256 : string → list Byte.byte) `{Ed25519}.

Lemma saved_loads new_id race kp author wid d reason cur vars refl (t now : T) n cp n' h m :
  uuid_ok wid → dag_inv d → Forall uuids_ok (nodes d) →
  save sha256 new_id race kp author (from_dag wid d reason cur vars refl t) n = Ok (cp, n') →
  cp_content_hash cp = Some h → h ∉ omap content_hash (records n ++ race) →
  (∀ r, _fetch_by_hash h n' = Some r → _fetch_by_hash h m = Some r) →
  load_by_hash now h m = Ok (Some cp) ∧ restore_dag cp = Ok d.
Proof.
  intros Hw Hd Hu. unfold save. intros ([r n1]&Hp&[= <- <-])%res_bind_Ok Hh Hfresh Hm. cbn [fst snd] in *.
  destruct (put _ _ _ _ _) as [[r1 n2]|e] eqn:Ep; [|done]. injection Hp as -> ->.
  set (cp0 := from_dag wid d reason cur vars refl t) in *.
  apply put_Ok in Ep as (hash&sig&Hr&[(h'&Eh&Ehr&Hf&Hn)|(Er&En&_)]).
  { exfalso. change (cp_content_hash (with_hash (content_hash r) cp0) = Some h) in Hh. cbn in Hh. apply Hfresh.
    assert (h' = h) as -> by congruence. apply fetch_Some in Hf as [_ Hin]. apply list_elem_of_omap. exists r.
    split; [|done]. destruct Hn as [-> | ->]; [by apply elem_of_app; left|done]. }
  assert (content_hash r = Some h) as Hhr by exact Hh.
  assert (_fetch_by_hash h n1 = Some r) as Hf.
  { pose proof (proj2 (fetch_None sha256 h (set_records (records n ++ race) n)) Hfresh) as Hnone. unfold _fetch_by_hash in *.
    rewrite En. cbn [records set_records] in *. apply fmap_None in Hnone.
    rewrite list_find_app_r by done. cbn. rewrite decide_True by exact Hhr. done. }
  split.
  - unfold load_by_hash. rewrite (Hm r Hf).
    destruct (row_reads_back now cp0 r) as [-> ->]; [by split|by rewrite Er|by rewrite Er|]. done.
  - change (restore_dag cp0 = Ok d). by apply restore_snapshot.
Qed.

(** A checkpoint that was saved is found again under the content hash that
    [save] returns, on the node that saved it and on every node that later
    holds its row, and it is the checkpoint that was saved; the graph restored
    from a checkpoint taken of a running workflow is that workflow's graph. *)
Theorem checkpoint_roundtrip new_id race kp author wid d reason cur vars refl (t now : T) n cp n' h m :
  uuid_ok wid → dag_inv d → Forall uuids_ok (nodes d) →
  save sha256 new_id race kp author (from_dag wid d reason cur vars refl t) n = Ok (cp, n') →
  cp_content_hash cp = Some h → h ∉ omap content_hash (records n ++ race) →
  (∀ r, _fetch_by_hash h n' = Some r → _fetch_by_hash h m = Some r) →
  load_by_hash now h m = Ok (Some cp) ∧ restore_dag cp = Ok d.
Proof. exact (saved_loads new_id race kp author wid d reason cur vars refl t now n cp n' h m). Qed.
End roundtrip.

(** ** A concrete checkpoint *)

#[export] Instance text_instant : Instant string := {| isoformat t := t; fromisoformat s := Some s |}.
#[export] Instance text_lawful : LawfulInstant string.
Proof. by split. Qed.
#[export] Instance plain_conversions : Conversions :=
  {| py_repr _ := ""; py_dict_of _ := None; py_int_of _ := None |}.

Lemma diamond_inv : dag_inv (build diamond).
Proof.
  apply (DAG_init_inv diamond); [|vm_compute; reflexivity].
  apply (bool_decide_eq_true_1 (NoDup (map node_id diamond))). reflexivity.
Qed.

Lemma diamond_uuids : Forall uuids_ok (nodes (build diamond)).
Proof.
  apply Forall_forall. intros n Hn. destruct n as [i c de dp ec ag tk st ou er]. vm_compute in Hn.
  repeat (apply elem_of_cons in Hn as [Hn|Hn]; [injection Hn; intros; subst; split; exact I|]).
  by apply elem_of_nil in Hn.
Qed.

Definition demo_checkpoint : WorkflowCheckpoint string :=
  from_dag (UUID 1) (build diamond) "awaiting_approval: c" (Some "a") [] None "2026-01-01".

(** The shortest hash and signature to evaluate the definitions with *)
Definition flat_sha (m : string) : list Byte.byte := repeat Byte.x01 32.
Definition flat_ed25519 : Ed25519 := {|
  ed_public seed := seed; ed_sign _ _ := []; ed_verify _ _ _ := true; ed_point _ := true |}.

Definition demo_saved : res checkpoint_error (WorkflowCheckpoint string * Crdt.node) :=
  save (H1 := flat_ed25519) flat_sha (UUID 9) [] toy_kp toy_did demo_checkpoint toy_node.

Lemma checkpoint_roundtrip_witness :
  ∃ cp n h, demo_saved = Ok (cp, n) ∧ cp_content_hash cp = Some h ∧
    load_by_hash "2026-01-02" h n = Ok (Some cp) ∧ restore_dag cp = Ok (build diamond).
Proof.
  assert (match demo_saved with Ok (cp, _) => match cp_content_hash cp with Some _ => true | None => false end | Err _ => false end = true) as Hs
    by (vm_compute; reflexivity).
  destruct demo_saved as [[cp n]|e] eqn:E; [|discriminate Hs].
  destruct (cp_content_hash cp) as [h|] eqn:Eh; [|discriminate Hs]. exists cp, n, h.
  split; [reflexivity|]. split; [exact Eh|].
  apply (checkpoint_roundtrip (H2 := flat_ed25519) flat_sha (UUID 9) [] toy_kp toy_did (UUID 1) (build diamond) "awaiting_approval: c"
    (Some "a") [] None "2026-01-01" "2026-01-02" toy_node cp n h n).
  - reflexivity.
  - exact diamond_inv.
  - exact diamond_uuids.
  - exact E.
  - exact Eh.
  - intros Hin. apply elem_of_nil in Hin. exact Hin.
  - intros r Hr. exact Hr.
Defined.
