(* ===== verification/Approval.v ===== *)
(** * Approval: the human-approval queue and its federated twins

    Models [safety/approval.py] (the Redis queue), [safety/federated_approval.py]
    (signed twins in the memory store) and the reconciliation of the two in
    [api/approvals.py].  A [desk] is what they share: the Redis keys with
    their expiry, the pending set, the twins in scan order (newest first) and
    the statuses of the workflows.  Times are in milliseconds, [now] is the
    wall clock of a call.  A Redis value is a decoded request, or [None] when
    it does not decode; a timestamp text is what [datetime.fromisoformat] makes
    of it; context values are kept as their JSON text.  Redis itself does not
    fail, except that it refuses a lifetime that is not positive; the database
    behind the twins may be down, which is the flag [up].  Events and log
    records are not modelled. *)

From Stdlib Require Import ZArith Lia.
From stdpp Require Import base tactics strings gmap relations list.
From S2P Require Import Prelude PyStr Dict Json.

(** ** Data *)

Inductive iso := Malformed (s : string) | Naive (t : Z) | Aware (t offset : Z).

#[export] Instance iso_eq_dec : EqDecision iso.
Proof. solve_decision. Defined.

(** [datetime.now(UTC).isoformat()] *)
Definition isoformat (now : Z) : iso := Aware now 0.

Record ApprovalRequest := {
  request_id : string;
  workflow_id : string;
  task_id : option string;
  action : string;
  context : list (string * string);
  policy_rule : string;
  status : string;
  requested_at : iso;
  decided_at : option iso;
  decided_by : option string;
  expires_at : iso;
  checkpoint_hash : option string;
}.

#[export] Instance ApprovalRequest_eq_dec : EqDecision ApprovalRequest.
Proof. solve_decision. Defined.

Inductive WorkflowStatus :=
  | PENDING | DECOMPOSING | RUNNING | PAUSED | COMPLETED | FAILED | CANCELLED
  | AWAITING_APPROVAL.

#[export] Instance WorkflowStatus_eq_dec : EqDecision WorkflowStatus.
Proof. solve_decision. Defined.

(** One ACTIVE approval record of the memory store: the author, the payload if
    it decodes, and the DAG node in its metadata *)
Record twin := {
  tw_author : string;
  tw_payload : option ApprovalRequest;
  tw_node : option string;
}.

#[export] Instance twin_eq_dec : EqDecision twin.
Proof. solve_decision. Defined.

Record desk := {
  store : gmap string (option ApprovalRequest * option Z);
  pending_set : gset string;
  twins : list twin;
  workflow_status : gmap string WorkflowStatus;
}.

(** [NotFound], [Already] and [Undecodable] are [ValueError]s, the last one
    raised by the decoder; [ResponseError] comes from Redis. *)
Inductive approval_error := NotFound | Already | Undecodable | ResponseError.

#[export] Instance approval_error_eq_dec : EqDecision approval_error.
Proof. solve_decision. Defined.

Definition is_ValueError (e : approval_error) : bool :=
  match e with ResponseError => false | _ => true end.

Definition is_pending (r : ApprovalRequest) : bool := String.eqb (status r) "pending".

Definition is_expired (now : Z) (r : ApprovalRequest) : bool :=
  match expires_at r with
  | Malformed _ => true
  | Naive t => (t <=? now)%Z
  | Aware t offset => (t - offset <=? now)%Z
  end.

Definition _EXPIRY_GRACE_SECONDS : Z := 900.

(** ** Redis *)

(** Two of the values: missing (also when expired), or present *)
Definition redis_lookup (k : string) (now : Z) (d : desk)
    : option (option ApprovalRequest * option Z) :=
  match store d !! k with
  | Some (v, Some deadline) => if (now <? deadline)%Z then Some (v, Some deadline) else None
  | o => o
  end.

Definition redis_get (k : string) (now : Z) (d : desk) : option (option ApprovalRequest) :=
  fst <$> redis_lookup k now d.

(** Seconds, rounded; -1 without an expiry, -2 without the key *)
Definition redis_ttl (k : string) (now : Z) (d : desk) : Z :=
  match redis_lookup k now d with
  | None => -2
  | Some (_, None) => -1
  | Some (_, Some deadline) => (deadline - now + 500) / 1000
  end.

(** [SET key value EX ex] *)
Definition redis_set (k : string) (v : ApprovalRequest) (ex now : Z) (d : desk)
    : res approval_error desk :=
  raise_if (ex <=? 0)%Z ResponseError ;!
  Ok {| store := <[k := (Some v, Some (now + ex * 1000)%Z)]> (store d);
        pending_set := pending_set d; twins := twins d; workflow_status := workflow_status d |}.

Definition set_pending (s : gset string) (d : desk) : desk := {|
  store := store d; pending_set := s; twins := twins d; workflow_status := workflow_status d |}.

Definition srem (ids : list string) (d : desk) : desk :=
  set_pending (pending_set d ∖ list_to_set ids) d.

Definition sadd (id : string) (d : desk) : desk := set_pending ({[id]} ∪ pending_set d) d.

Definition decode (p : option ApprovalRequest) : res approval_error ApprovalRequest :=
  res_of_option Undecodable p.

(** [request.status = ...; request.decided_at = ...; ...] *)
Definition with_decision (s : string) (now : Z) (by_whom : option string)
    (ctx : list (string * string)) (r : ApprovalRequest) : ApprovalRequest := {|
  request_id := request_id r; workflow_id := workflow_id r; task_id := task_id r;
  action := action r; context := ctx; policy_rule := policy_rule r; status := s;
  requested_at := requested_at r; decided_at := Some (isoformat now); decided_by := by_whom;
  expires_at := expires_at r; checkpoint_hash := checkpoint_hash r |}.

(** ** federated_approval.py *)

Definition set_twins (ts : list twin) (d : desk) : desk := {|
  store := store d; pending_set := pending_set d; twins := ts;
  workflow_status := workflow_status d |}.

(** [CRDTStore.put]: a record that exists is not written again. *)
Definition put_twin (t : twin) (d : desk) : desk :=
  if decide (t ∈ twins d) then d else set_twins (t :: twins d) d.

(** The records that decode, newest first *)
Definition scan (d : desk) : list ApprovalRequest := omap tw_payload (twins d).

Section federated.
Context (me : string).

Definition write_request (r : ApprovalRequest) (node_id : option string) (d : desk) : desk :=
  put_twin {| tw_author := me; tw_payload := Some r; tw_node := node_id |} d.

Definition write_decision (r : ApprovalRequest) (node_id : option string) (d : desk)
    : res approval_error desk :=
  raise_if (is_pending r) Undecodable ;!
  Ok (put_twin {| tw_author := me; tw_payload := Some r; tw_node := node_id |} d).

(** The best-effort writers of approval.py: every exception is swallowed. *)
Definition _write_federated_request (up : bool) (r : ApprovalRequest) (node_id : option string)
    (d : desk) : desk := if up then write_request r node_id d else d.

Definition _write_federated_decision (up : bool) (r : ApprovalRequest) (d : desk) : desk :=
  if up then match write_decision r None d with Ok d' => d' | Err _ => d end else d.
End federated.

(** The loop of [get_pending] over the scan *)
Definition merge_request (wid : option string)
    (by_request : list (string * (ApprovalRequest * bool))) (req : ApprovalRequest)
    : list (string * (ApprovalRequest * bool)) :=
  if match wid with Some w => negb (String.eqb (workflow_id req) w) | None => false end
  then by_request
  else match dict_get (request_id req) by_request with
       | None => dict_set (request_id req) (req, negb (is_pending req)) by_request
       | Some (_, already_decided) =>
           if negb (is_pending req) then dict_set (request_id req) (req, true) by_request
           else if negb already_decided then dict_set (request_id req) (req, false) by_request
           else by_request
       end.

Definition federated_get_pending (wid : option string) (include_expired : bool) (now : Z)
    (d : desk) : list ApprovalRequest :=
  let by_request := fold_left (merge_request wid) (scan d) [] in
  map (λ p, p.2.1)
    (filter (λ p, p.2.2 = false ∧ (include_expired || negb (is_expired now p.2.1)) = true)
       by_request).

(** [d.setdefault(req.request_id, req)] *)
Definition setdefault (req : ApprovalRequest) (m : gmap string ApprovalRequest)
    : gmap string ApprovalRequest :=
  match m !! request_id req with Some _ => m | None => <[request_id req := req]> m end.

Definition index_request (wanted : gset string)
    (dp : gmap string ApprovalRequest * gmap string ApprovalRequest) (req : ApprovalRequest)
    : gmap string ApprovalRequest * gmap string ApprovalRequest :=
  if decide (request_id req ∈ wanted) then
    if is_pending req then (dp.1, setdefault req dp.2) else (setdefault req dp.1, dp.2)
  else dp.

Definition find_many_by_request_id (request_ids : list string) (d : desk)
    : gmap string ApprovalRequest :=
  let '(decisions, pendings) :=
    fold_left (index_request (list_to_set request_ids)) (scan d) (∅, ∅) in
  decisions ∪ pendings.

Definition find_by_request_id (id : string) (d : desk) : option ApprovalRequest :=
  find_many_by_request_id [id] d !! id.

(** The first pass: [inl] is the early return *)
Fixpoint node_pass (wid node_id : string) (ts : list twin) (ids : gset string)
    (decided : gmap string ApprovalRequest)
    : ApprovalRequest + gset string * gmap string ApprovalRequest :=
  match ts with
  | [] => inr (ids, decided)
  | t :: ts =>
      match tw_payload t with
      | None => node_pass wid node_id ts ids decided
      | Some req =>
          if negb (String.eqb (workflow_id req) wid) then node_pass wid node_id ts ids decided
          else if is_pending req then
            node_pass wid node_id ts
              (if decide (tw_node t = Some node_id) then {[request_id req]} ∪ ids else ids) decided
          else if decide (tw_node t = Some node_id) then inl req
          else node_pass wid node_id ts ids (setdefault req decided)
      end
  end.

Definition find_decision_for_node (wid node_id : string) (d : desk) : option ApprovalRequest :=
  match node_pass wid node_id (twins d) ∅ ∅ with
  | inl req => Some req
  | inr (ids, decided) => head (omap (λ rid, decided !! rid) (elements ids))
  end.

(** ** ApprovalManager *)

Section manager.
Context (me : string).

(** The pipeline runs both commands also when the first one fails. *)
Definition request_approval (new_id wid : string) (task : option string) (act : string)
    (ctx : list (string * string)) (rule : string) (timeout_seconds : Z)
    (checkpoint node_id : option string) (up : bool) (now : Z) (d : desk)
    : desk * res approval_error ApprovalRequest :=
  let request := {|
    request_id := new_id; workflow_id := wid; task_id := task; action := act; context := ctx;
    policy_rule := rule; status := "pending"; requested_at := isoformat now; decided_at := None;
    decided_by := None; expires_at := isoformat (now + timeout_seconds * 1000);
    checkpoint_hash := checkpoint |} in
  match redis_set new_id request (timeout_seconds + _EXPIRY_GRACE_SECONDS) now d with
  | Err e => (sadd new_id d, Err e)
  | Ok d => (_write_federated_request me up request node_id (sadd new_id d), Ok request)
  end.

(** The loop of [get_pending]: the results and the stale ids *)
Fixpoint pending_loop (wid : option string) (now : Z) (ids : list string) (d : desk)
    : res approval_error (list ApprovalRequest * list string) :=
  match ids with
  | [] => Ok ([], [])
  | rid :: ids =>
      match redis_get rid now d with
      | None => p <~ pending_loop wid now ids d; Ok (p.1, rid :: p.2)
      | Some raw =>
          request <~ decode raw;
          p <~ pending_loop wid now ids d;
          if negb (is_pending request) || is_expired now request then Ok (p.1, rid :: p.2)
          else if match wid with
                  | Some w => negb (String.eqb (workflow_id request) w) | None => false
                  end then Ok p
          else Ok (request :: p.1, p.2)
      end
  end.

Definition get_pending (wid : option string) (now : Z) (d : desk)
    : desk * res approval_error (list ApprovalRequest) :=
  match pending_loop wid now (elements (pending_set d)) d with
  | Err e => (d, Err e)
  | Ok (results, expired_ids) => (srem expired_ids d, Ok results)
  end.

Definition check_status (id : string) (now : Z) (d : desk) : res approval_error ApprovalRequest :=
  raw <~ res_of_option NotFound (redis_get id now d); decode raw.

(** Writes the request back with the key's remaining life, or a minute. *)
Definition save (id : string) (r : ApprovalRequest) (now : Z) (d : desk) : res approval_error desk :=
  let ttl := redis_ttl id now d in
  d <~ redis_set id r (if (ttl <? 0)%Z then 60 else ttl) now d;
  Ok (srem [id] d).

Definition _decide (id new_status by_whom : string) (why : option string) (up : bool) (now : Z)
    (d : desk) : desk * res approval_error ApprovalRequest :=
  match (raw <~ res_of_option NotFound (redis_get id now d);
         request <~ decode raw;
         raise_if (negb (is_pending request)) Already ;!
         let ctx := match why with
                    | Some w => dict_set "denial_reason" (_escape_string w) (context request)
                    | None => context request
                    end in
         let request := with_decision new_status now (Some by_whom) ctx request in
         d <~ save id request now d;
         Ok (_write_federated_decision me up request d, request)) with
  | Ok (d', r) => (d', Ok r)
  | Err e => (d, Err e)
  end.

Definition approve (id by_whom : string) := _decide id "approved" by_whom None.
Definition deny (id by_whom : string) (why : option string) := _decide id "denied" by_whom why.

Definition _mark_expired (request : ApprovalRequest) (up : bool) (now : Z) (d : desk)
    : desk * res approval_error ApprovalRequest :=
  let request := with_decision "expired" now (decided_by request) (context request) request in
  match save (request_id request) request now d with
  | Ok d' => (_write_federated_decision me up request d', Ok request)
  | Err e => (d, Err e)
  end.

(** ** api/approvals.py *)

Inductive http := Ok200 | Http404 | Http409 | Http500.

(** A database failure reads as an unknown request. *)
Definition _hydrate_from_crdt (up : bool) (id : string) (d : desk) : option ApprovalRequest :=
  if up then find_by_request_id id d else None.

(** [check_status] raises only [ValueError]s. *)
Definition _merged_approval_status (up : bool) (id : string) (now : Z) (d : desk)
    : option ApprovalRequest :=
  match check_status id now d, _hydrate_from_crdt up id d with
  | Err _, crdt_state => crdt_state
  | Ok redis_state, None => Some redis_state
  | Ok redis_state, Some crdt_state =>
      if is_pending redis_state && negb (is_pending crdt_state) then Some crdt_state
      else Some redis_state
  end.

Fixpoint first_seen (seen : gset string) (rs : list ApprovalRequest) : list ApprovalRequest :=
  match rs with
  | [] => []
  | r :: rs =>
      if decide (request_id r ∈ seen) then first_seen seen rs
      else r :: first_seen ({[request_id r]} ∪ seen) rs
  end.

Definition decided_in (latest : gmap string ApprovalRequest) (r : ApprovalRequest) : bool :=
  match latest !! request_id r with Some l => negb (is_pending l) | None => false end.

Definition list_pending_approvals (federated up : bool) (now : Z) (d : desk)
    : desk * res approval_error (list ApprovalRequest) :=
  match get_pending None now d with
  | (d, Err e) => (d, Err e)
  | (d, Ok redis_pending) =>
      if negb federated then (d, Ok redis_pending)
      else
        let crdt_pending := if up then federated_get_pending None false now d else [] in
        let latest := if up then find_many_by_request_id (map request_id redis_pending) d else ∅ in
        let undecided := filter (λ r, decided_in latest r = false) redis_pending in
        (d, Ok (first_seen ∅ (undecided ++ crdt_pending)))
  end.

(** The two decision endpoints: Redis first, then the twin *)
Definition decide_request (new_status id by_whom : string) (why : option string) (up : bool) (now : Z)
    (d : desk) : desk * http :=
  match _decide id new_status by_whom why up now d with
  | (d, Ok _) => (d, Ok200)
  | (d, Err Already) => (d, Http409)
  | (d, Err e) =>
      if negb (is_ValueError e) then (d, Http500)
      else match _hydrate_from_crdt up id d with
           | None => (d, Http404)
           | Some approval =>
               if negb (is_pending approval) then (d, Http409)
               else
                 let ctx := match why with
                            | Some w => dict_set "denial_reason" (_escape_string w) (context approval)
                            | None => context approval
                            end in
                 match write_decision me (with_decision new_status now (Some by_whom) ctx approval)
                         None d with
                 | Ok d => (d, Ok200)
                 | Err _ => (d, Http500)
                 end
           end
  end.

Definition approve_request (id by_whom : string) := decide_request "approved" id by_whom None.
(** [reason=data.reason or None] *)
Definition deny_request (id by_whom why : string) :=
  decide_request "denied" id by_whom (if str_empty why then None else Some why).
End manager.

(** ** The federated views *)

(** The scan's records of one request, newest first *)
Definition own (id : string) (l : list ApprovalRequest) : list ApprovalRequest :=
  filter (λ r, request_id r = id) l.
Definition decisions (l : list ApprovalRequest) : list ApprovalRequest :=
  filter (λ r, is_pending r = false) l.

Definition decided (id : string) (d : desk) : Prop := decisions (own id (scan d)) ≠ [].

Lemma own_snoc id l r :
  own id (l ++ [r]) = if decide (request_id r = id) then own id l ++ [r] else own id l.
Proof.
  unfold own. rewrite filter_app, filter_cons, filter_nil.
  case_decide; [done|by rewrite app_nil_r].
Qed.

Lemma decisions_snoc l r :
  decisions (l ++ [r]) = if is_pending r then decisions l else decisions l ++ [r].
Proof.
  unfold decisions. rewrite filter_app, filter_cons, filter_nil.
  destruct (is_pending r); [by rewrite app_nil_r|done].
Qed.

(** What [merge_request] has recorded for a request after the scan [l] *)
Definition merged_view (l : list ApprovalRequest) : option (ApprovalRequest * bool) :=
  match last (decisions l) with
  | Some r => Some (r, true)
  | None => (λ r, (r, false)) <$> last l
  end.

Lemma merged_view_snoc l r :
  merged_view (l ++ [r]) =
  match merged_view l with
  | Some (x, true) => if is_pending r then Some (x, true) else Some (r, true)
  | _ => Some (r, negb (is_pending r))
  end.
Proof.
  unfold merged_view. rewrite decisions_snoc. destruct (is_pending r) eqn:Er.
  - destruct (last (decisions l)) eqn:E; [done|]. rewrite last_snoc. by destruct (last l).
  - rewrite last_snoc. destruct (last (decisions l)); [done|]. by destruct (last l).
Qed.

Lemma merge_view l id :
  dict_get id (fold_left (merge_request None) l []) = merged_view (own id l).
Proof.
  revert id. induction l as [|r l IH] using rev_ind; intros id; [done|].
  rewrite fold_left_app. cbn [fold_left]. set (b := fold_left _ l []) in *.
  unfold merge_request. rewrite own_snoc. case_decide as Hid.
  - rewrite merged_view_snoc, <-IH, <-Hid. destruct (dict_get (request_id r) b) as [[x [|]]|] eqn:Eb;
      destruct (is_pending r); cbn; rewrite ?dict_get_set_eq, ?Eb; done.
  - rewrite <-IH. destruct (dict_get (request_id r) b) as [[x [|]]|];
      destruct (is_pending r); cbn; rewrite ?dict_get_set_ne by done; done.
Qed.

Lemma merge_NoDup l : NoDup (map fst (fold_left (merge_request None) l [])).
Proof.
  induction l as [|r l IH] using rev_ind; [constructor|].
  rewrite fold_left_app. cbn [fold_left]. unfold merge_request at 1.
  destruct (dict_get _ _) as [[x [|]]|]; destruct (is_pending r); cbn;
    try done; by apply dict_keys_set_NoDup.
Qed.

Lemma merged_view_undecided l r :
  merged_view l = Some (r, false) ↔ decisions l = [] ∧ last l = Some r.
Proof.
  unfold merged_view. destruct (decisions l) as [|x l' _] using rev_ind.
  - cbn. destruct (last l); naive_solver.
  - rewrite last_snoc. split; [done|]. intros [Hn _]. by apply app_nil in Hn as [_ ?].
Qed.

Lemma merge_key l k v :
  (k, v) ∈ fold_left (merge_request None) l [] → request_id v.1 = k.
Proof.
  intros Hin. assert (dict_get k (fold_left (merge_request None) l []) = Some v) as Hg
    by by apply dict_get_elem_of; [apply merge_NoDup|].
  rewrite merge_view in Hg. unfold merged_view in Hg.
  destruct (last (decisions (own k l))) as [x|] eqn:E.
  - injection Hg as <-. apply last_Some_elem_of in E. unfold decisions, own in E.
    by apply list_elem_of_filter in E as [_ [? _]%list_elem_of_filter].
  - destruct (last (own k l)) as [x|] eqn:E'; [|done]. injection Hg as <-.
    apply last_Some_elem_of in E'. by apply list_elem_of_filter in E' as [? _].
Qed.

(** [get_pending]: the requests without a decision, each in its oldest
    representation *)
Lemma federated_pending_spec include now d r :
  r ∈ federated_get_pending None include now d ↔
  decisions (own (request_id r) (scan d)) = [] ∧ last (own (request_id r) (scan d)) = Some r ∧
  (include || negb (is_expired now r)) = true.
Proof.
  unfold federated_get_pending. rewrite (assoc (∧)), <-merged_view_undecided, <-merge_view.
  set (b := fold_left _ _ _). split.
  - intros ([k [x f]]&->&[[Hf Hi] Hin]%list_elem_of_filter)%list_elem_of_fmap. cbn in *. subst f.
    pose proof (merge_key _ _ _ Hin) as Hk. cbn in Hk. rewrite Hk. split; [|done].
    apply dict_get_elem_of; [apply merge_NoDup|done].
  - intros [Hg Hi]. apply list_elem_of_fmap. exists (request_id r, (r, false)). split; [done|].
    apply list_elem_of_filter. split; [done|]. by apply dict_get_Some_elem.
Qed.

Lemma federated_pending_NoDup include now d :
  NoDup (map request_id (federated_get_pending None include now d)).
Proof.
  unfold federated_get_pending. set (b := fold_left _ _ _). rewrite map_map.
  assert (map (λ p, request_id p.2.1) (filter (λ p, p.2.2 = false ∧
    (include || negb (is_expired now p.2.1)) = true) b) = map fst (filter (λ p, p.2.2 = false ∧
    (include || negb (is_expired now p.2.1)) = true) b)) as ->.
  { apply map_ext_in. intros [k v] Hin. apply list_elem_of_In, list_elem_of_filter in Hin as [_ Hin].
    cbn. by apply (merge_key (scan d) k v). }
  apply NoDup_map_filter, merge_NoDup.
Qed.

Lemma setdefault_lookup req m id :
  setdefault req m !! id =
  match m !! id with Some x => Some x | None => if decide (request_id req = id) then Some req else None end.
Proof.
  unfold setdefault. destruct (m !! request_id req) eqn:E.
  - destruct (m !! id) eqn:E'; [done|]. case_decide; [congruence|done].
  - rewrite lookup_insert. case_decide as Hd; [subst; by rewrite E|]. by destruct (m !! id).
Qed.

Lemma index_view wanted l id :
  id ∈ wanted →
  let dp := fold_left (index_request wanted) l (∅, ∅) in
  dp.1 !! id = head (decisions (own id l)) ∧
  dp.2 !! id = head (filter (λ r, is_pending r = true) (own id l)).
Proof.
  intros Hid. induction l as [|r l IH] using rev_ind; [done|].
  rewrite fold_left_app. cbn [fold_left]. destruct (fold_left _ l _) as [ds ps].
  cbn in IH. destruct IH as [IHd IHp]. unfold index_request. rewrite own_snoc.
  assert (∀ (P : ApprovalRequest → Prop) `{!∀ x, Decision (P x)} (l' : list ApprovalRequest),
    head (filter P (l' ++ [r])) = match head (filter P l') with Some x => Some x
      | None => if decide (P r) then Some r else None end) as Hhead.
  { intros P ? l'. rewrite filter_app, filter_cons, filter_nil.
    destruct (filter P l'); cbn; [by case_decide|done]. }
  destruct (decide (request_id r = id)) as [<-|Hne].
  - rewrite !decide_True by done. unfold decisions in *. rewrite !Hhead, <-IHd, <-IHp.
    destruct (is_pending r) eqn:Er; cbn [fst snd]; rewrite setdefault_lookup;
      split; repeat case_match; repeat case_decide; first [done|congruence].
  - case_decide; [|done]. destruct (is_pending r); cbn [fst snd]; rewrite setdefault_lookup;
      rewrite IHd, IHp; rewrite (decide_False (P := request_id r = id)) by done;
      split; try done; by case_match.
Qed.

Lemma find_view id d :
  find_by_request_id id d =
  match head (decisions (own id (scan d))) with
  | Some r => Some r
  | None => head (own id (scan d))
  end.
Proof.
  unfold find_by_request_id, find_many_by_request_id.
  pose proof (index_view (list_to_set [id]) (scan d) id) as Hv.
  destruct (fold_left _ (scan d) _) as [ds ps]. cbn in Hv.
  destruct Hv as [Hd Hp]; [set_solver|]. rewrite lookup_union, Hd, Hp.
  destruct (decisions (own id (scan d))) as [|x l] eqn:E; cbn.
  - rewrite (left_id_L None _). f_equal. apply list_filter_all. intros r Hr.
    destruct (is_pending r) eqn:Er; [done|].
    assert (r ∈ decisions (own id (scan d))) as Hin by (apply list_elem_of_filter; by split).
    rewrite E in Hin. by apply elem_of_nil in Hin.
  - by destruct (head (filter _ _)).
Qed.

Lemma decisions_head l r : head (decisions l) = Some r → is_pending r = false.
Proof.
  destruct (decisions l) as [|x l'] eqn:E; [done|]. intros [= ->].
  assert (r ∈ decisions l) as Hin by (rewrite E; by left). by apply list_elem_of_filter in Hin as [? _].
Qed.

Lemma decisions_nil_pending l r : decisions l = [] → r ∈ l → is_pending r = true.
Proof.
  intros E Hr. destruct (is_pending r) eqn:Er; [done|].
  assert (r ∈ decisions l) as Hin by (apply list_elem_of_filter; by split).
  rewrite E in Hin. by apply elem_of_nil in Hin.
Qed.

Lemma views_agree id now d :
  id ∈ map request_id (federated_get_pending None true now d) ↔
  ∃ r, find_by_request_id id d = Some r ∧ is_pending r = true.
Proof.
  rewrite find_view. split.
  - intros (r&->&(Hd&Hl&_)%federated_pending_spec)%list_elem_of_fmap. rewrite Hd. cbn.
    destruct (own (request_id r) (scan d)) as [|x l] eqn:E; [done|]. exists x. split; [done|].
    apply (decisions_nil_pending (x :: l)); [done|by left].
  - intros (r&Hr&Hp). destruct (head (decisions _)) as [x|] eqn:E.
    { injection Hr as ->. apply decisions_head in E. congruence. }
    assert (decisions (own id (scan d)) = []) as Hd by (by destruct (decisions _)).
    destruct (last (own id (scan d))) as [y|] eqn:El.
    2:{ apply last_None in El. by rewrite El in Hr. }
    assert (request_id y = id) as Hy.
    { apply last_Some_elem_of in El. by apply list_elem_of_filter in El as [? _]. }
    apply list_elem_of_fmap. exists y. split; [done|]. apply federated_pending_spec.
    by rewrite Hy.
Qed.

(** The first pass collects, in any order, what the join needs. *)
Lemma node_pass_spec wid node ts ids dec :
  match node_pass wid node ts ids dec with
  | inl r => is_pending r = false ∧ workflow_id r = wid ∧
      ∃ t, t ∈ ts ∧ tw_payload t = Some r ∧ tw_node t = Some node
  | inr (ids', dec') =>
      (∀ t r, t ∈ ts → tw_payload t = Some r → workflow_id r = wid → is_pending r = false →
         tw_node t ≠ Some node ∧ is_Some (dec' !! request_id r)) ∧
      (∀ id, id ∈ ids' ↔ id ∈ ids ∨ ∃ t r, t ∈ ts ∧ tw_payload t = Some r ∧
         workflow_id r = wid ∧ is_pending r = true ∧ tw_node t = Some node ∧ request_id r = id) ∧
      (∀ id r, dec' !! id = Some r → dec !! id = Some r ∨
         (request_id r = id ∧ workflow_id r = wid ∧ is_pending r = false ∧ r ∈ omap tw_payload ts)) ∧
      (∀ id r, dec !! id = Some r → dec' !! id = Some r)
  end.
Proof.
  revert ids dec. induction ts as [|t ts IH]; intros ids dec; cbn [node_pass].
  { split_and!.
    - intros t r Ht. by apply elem_of_nil in Ht.
    - intros id. split; [by left|]. intros [?|(t&r&Ht&_)]; [done|by apply elem_of_nil in Ht].
    - by left.
    - done. }
  assert (∀ ids2 dec2, (∀ r, tw_payload t = Some r → workflow_id r = wid → is_pending r = false →
      tw_node t ≠ Some node ∧ is_Some (dec2 !! request_id r)) →
    (∀ id, id ∈ ids2 ↔ id ∈ ids ∨ ∃ r, tw_payload t = Some r ∧ workflow_id r = wid ∧
      is_pending r = true ∧ tw_node t = Some node ∧ request_id r = id) →
    (∀ id r, dec2 !! id = Some r → dec !! id = Some r ∨
       (request_id r = id ∧ workflow_id r = wid ∧ is_pending r = false ∧ tw_payload t = Some r)) →
    (∀ id r, dec !! id = Some r → dec2 !! id = Some r) →
    match node_pass wid node ts ids2 dec2 with
    | inl r => is_pending r = false ∧ workflow_id r = wid ∧
        ∃ t', t' ∈ t :: ts ∧ tw_payload t' = Some r ∧ tw_node t' = Some node
    | inr (ids', dec') =>
        (∀ t' r, t' ∈ t :: ts → tw_payload t' = Some r → workflow_id r = wid → is_pending r = false →
           tw_node t' ≠ Some node ∧ is_Some (dec' !! request_id r)) ∧
        (∀ id, id ∈ ids' ↔ id ∈ ids ∨ ∃ t' r, t' ∈ t :: ts ∧ tw_payload t' = Some r ∧
           workflow_id r = wid ∧ is_pending r = true ∧ tw_node t' = Some node ∧ request_id r = id) ∧
        (∀ id r, dec' !! id = Some r → dec !! id = Some r ∨
           (request_id r = id ∧ workflow_id r = wid ∧ is_pending r = false ∧
            r ∈ omap tw_payload (t :: ts))) ∧
        (∀ id r, dec !! id = Some r → dec' !! id = Some r)
    end) as Hstep.
  { intros ids2 dec2 H1 H2 H3 H4. specialize (IH ids2 dec2).
    destruct (node_pass wid node ts ids2 dec2) as [r|[ids' dec']].
    - destruct IH as (?&?&t'&Ht'&?&?). split_and!; [done..|]. exists t'. split; [by right|done].
    - destruct IH as (A1&A2&A3&A4). split_and!.
      + intros t' r [->|Ht']%elem_of_cons; [|by apply A1].
        intros Hp Hw Hd. destruct (H1 r Hp Hw Hd) as [Hn [x Hx]]. split; [done|].
        exists x. by apply A4.
      + intros id. rewrite A2, H2. split.
        * intros [[?|(r&?)]|(t'&r&Ht'&?)]; [by left|right; exists t, r; split; [by left|done]|].
          right. exists t', r. split; [by right|done].
        * intros [?|(t'&r&[->|Ht']%elem_of_cons&?)]; [by left; left|left; right; by exists r|].
          right. by exists t', r.
      + intros id r [Hr|(?&?&?&Hin)]%A3.
        * apply H3 in Hr as [?|(?&?&?&Hp)]; [by left|right]. split_and!; try done.
          apply list_elem_of_omap. exists t. split; [by left|done].
        * right. split_and!; try done. apply list_elem_of_omap in Hin as (t'&?&?).
          apply list_elem_of_omap. exists t'. split; [by right|done].
      + intros id r Hr. by apply A4, H4. }
  destruct (tw_payload t) as [req|] eqn:Et.
  2:{ apply Hstep; naive_solver. }
  destruct (String.eqb_spec (workflow_id req) wid) as [Hw|Hw]; cbn [negb].
  2:{ apply Hstep; naive_solver. }
  destruct (is_pending req) eqn:Ep.
  - apply Hstep; [intros r [= <-] _ ?; congruence| |intros; by left|done].
    intros id. case_decide as Hn; [rewrite elem_of_union, elem_of_singleton|]; split.
    + intros [->|?]; [right; by exists req|by left].
    + intros [?|(r&[= <-]&_&_&_&<-)]; [by right|by left].
    + by left.
    + intros [?|(r&[= <-]&_&_&?&_)]; done.
  - case_decide as Hn.
    { split_and!; [done|done|]. exists t. split; [by left|done]. }
    apply Hstep.
    + intros r [= <-] _ _. split; [done|]. rewrite setdefault_lookup.
      destruct (dec !! request_id req); [done|]. rewrite decide_True by done. done.
    + intros id. split; [by left|]. intros [?|(r&[= <-]&_&?&_)]; [done|congruence].
    + intros id r. rewrite setdefault_lookup. destruct (dec !! id); [by left|].
      case_decide as Hid; [intros [= <-]; by right|done].
    + intros id r Hr. rewrite setdefault_lookup. by rewrite Hr.
Qed.

Lemma head_omap_None {A B} (f : A → option B) l :
  head (omap f l) = None → ∀ x, x ∈ l → f x = None.
Proof.
  induction l as [|y l IH]; cbn; intros Hh x Hx; [by apply elem_of_nil in Hx|].
  destruct (f y) eqn:E; [done|]. apply elem_of_cons in Hx as [->|Hx]; [done|by apply IH].
Qed.

Lemma head_omap_Some {A B} (f : A → option B) l b :
  head (omap f l) = Some b → ∃ x, x ∈ l ∧ f x = Some b.
Proof.
  intros Hh. assert (b ∈ omap f l) as Hin by (destruct (omap f l); [done|injection Hh as ->; by left]).
  by apply list_elem_of_omap in Hin.
Qed.

(** A record of the workflow that carries the node *)
Definition at_node (wid node : string) (d : desk) (q : ApprovalRequest) : Prop :=
  workflow_id q = wid ∧ ∃ t, t ∈ twins d ∧ tw_payload t = Some q ∧ tw_node t = Some node.

(** ** Theorems *)

(** The two federated views agree.  A request is in the federated pending
    list (expired ones included) exactly when looking it up finds a pending
    record, although one keeps the oldest and the other the newest record of
    the scan; a request with any decision record, from whatever node, is in
    neither, and no request is listed twice. *)
Theorem federated_views now d :
  (∀ id, id ∈ map request_id (federated_get_pending None true now d) ↔
     ∃ r, find_by_request_id id d = Some r ∧ is_pending r = true) ∧
  (∀ id, decided id d → (id ∉ map request_id (federated_get_pending None true now d)) ∧
     ∃ r, find_by_request_id id d = Some r ∧ is_pending r = false) ∧
  NoDup (map request_id (federated_get_pending None true now d)).
Proof.
  split_and!; [intros id; apply views_agree| |apply federated_pending_NoDup].
  intros id Hd. unfold decided in Hd. split.
  - intros (r&->&(Hn&_)%federated_pending_spec)%list_elem_of_fmap. done.
  - rewrite find_view. destruct (head (decisions _)) as [r|] eqn:E.
    + exists r. split; [done|]. by apply decisions_head in E.
    + by destruct (decisions _).
Qed.

(** On resume, a node of a workflow counts as decided exactly when some
    record of the workflow that carries the node belongs to a request with a
    decision record in that workflow; the answer is such a decision. *)
Theorem find_decision_for_node_spec wid node d :
  match find_decision_for_node wid node d with
  | Some r => is_pending r = false ∧ workflow_id r = wid ∧ r ∈ scan d ∧
      ∃ q, at_node wid node d q ∧ request_id q = request_id r
  | None => ∀ q r, at_node wid node d q → r ∈ scan d → workflow_id r = wid →
      request_id r = request_id q → is_pending r = true
  end.
Proof.
  unfold find_decision_for_node. pose proof (node_pass_spec wid node (twins d) ∅ ∅) as Hp.
  destruct (node_pass _ _ _ _ _) as [r|[ids dec]].
  { destruct Hp as (Hr&Hw&t&Ht&Hpay&Hn). split_and!; [done|done| |].
    - apply list_elem_of_omap. by exists t.
    - exists r. split; [|done]. split; [done|]. by exists t. }
  destruct Hp as (A1&A2&A3&_).
  destruct (head _) as [r|] eqn:E.
  - apply head_omap_Some in E as (rid&Hrid%elem_of_elements&Hr).
    apply A3 in Hr as [Hr|(<-&Hw&Hp&Hin)]; [by rewrite lookup_empty in Hr|].
    split_and!; try done. apply A2 in Hrid as [?|(t&q&Ht&Hq&Hwq&_&Hn&Hid)]; [set_solver|].
    exists q. split; [|done]. split; [done|]. by exists t.
  - intros q r (Hwq&t&Ht&Hq&Hn) (t'&Ht'&Hr)%list_elem_of_omap Hw Hid.
    destruct (is_pending r) eqn:Er; [done|].
    destruct (A1 t' r Ht' Hr Hw Er) as [_ [x Hx]].
    destruct (is_pending q) eqn:Eq.
    + assert (request_id q ∈ ids) as Hin by (apply A2; right; by exists t, q).
      rewrite <-Hid in Hin. rewrite (head_omap_None _ _ E) in Hx; [done|by apply elem_of_elements].
    + by destruct (A1 t q Ht Hq Hwq Eq).
Qed.
