(* ===== verification/Janitor.v ===== *)
(** * Janitor: reaping timed-out approvals

    Models [safety/approval_janitor.py] on the desk of Approval.v: one tick of
    the janitor, with its two passes over Redis and over the twins, and the
    life of a desk under all its operations.  [up] says whether the database
    takes the janitor's twins, [crdt_up] whether the scan for twins succeeds,
    [db_ok w] whether the update of workflow [w] does.  The clock stands still
    during a tick. *)

From Stdlib Require Import ZArith Lia.
From stdpp Require Import base tactics strings gmap relations list.
From S2P Require Import Prelude PyStr Dict Json Approval.

(** ** The code *)

Section janitor.
Context (me : string).

Definition set_workflows (ws : gmap string WorkflowStatus) (d : desk) : desk := {|
  store := store d; pending_set := pending_set d; twins := twins d; workflow_status := ws |}.

Definition fail_parked (s : WorkflowStatus) : WorkflowStatus :=
  if decide (s = AWAITING_APPROVAL) then FAILED else s.

Definition _transition_workflow_to_failed (db_ok : string → bool) (wid : string) (d : desk) : desk :=
  if db_ok wid then set_workflows (alter fail_parked wid (workflow_status d)) d else d.

Definition _crdt_pending (crdt_up : bool) (now : Z) (d : desk) : list ApprovalRequest :=
  if crdt_up then federated_get_pending None true now d else [].

Definition _expire_one (up : bool) (db_ok : string → bool) (now : Z) (request : ApprovalRequest)
    (d : desk) : desk * bool :=
  match _mark_expired me request up now d with
  | (d, Err _) => (d, false)
  | (d, Ok r) => (_transition_workflow_to_failed db_ok (workflow_id r) d, true)
  end.

Record reaping := {
  rp_desk : desk;
  rp_handled : gset string;
  rp_orphans : gset string;
  rp_count : nat;
}.

Section tick.
Context (up : bool) (db_ok : string → bool) (now : Z).

(** One request that is to be expired; both counters are this one. *)
Definition reap_request (request : ApprovalRequest) (s : reaping) : reaping :=
  let '(d, ok) := _expire_one up db_ok now request (rp_desk s) in
  {| rp_desk := d; rp_handled := {[request_id request]} ∪ rp_handled s;
     rp_orphans := rp_orphans s; rp_count := rp_count s + (if ok then 1 else 0) |}.

Definition redis_step (s : reaping) (rid : string) : reaping :=
  match redis_get rid now (rp_desk s) with
  | None =>
      {| rp_desk := rp_desk s; rp_handled := rp_handled s; rp_orphans := {[rid]} ∪ rp_orphans s;
         rp_count := rp_count s |}
  | Some None => s
  | Some (Some request) =>
      if negb (is_pending request) || negb (is_expired now request) then s
      else reap_request request s
  end.

Definition crdt_step (s : reaping) (request : ApprovalRequest) : reaping :=
  if bool_decide (request_id request ∈ rp_handled s) || negb (is_expired now request) then s
  else
    let s := reap_request request s in
    {| rp_desk := rp_desk s; rp_handled := rp_handled s;
       rp_orphans := rp_orphans s ∖ {[request_id request]}; rp_count := rp_count s |}.

Definition _reap_expired (crdt_up : bool) (d : desk) : desk * (nat * nat) :=
  let s := fold_left redis_step (elements (pending_set d))
             {| rp_desk := d; rp_handled := ∅; rp_orphans := ∅; rp_count := 0 |} in
  let s := fold_left crdt_step (_crdt_pending crdt_up now (rp_desk s)) s in
  (srem (elements (rp_orphans s ∖ rp_handled s)) (rp_desk s), (rp_count s, rp_count s)).
End tick.
End janitor.

(** ** Expiring one request *)

(** No key is in the last half second of its life: there the rounded lifetime
    is 0, and Redis would refuse to write the request back. *)
Definition no_dying_key (now : Z) (d : desk) : Prop := ∀ id, redis_ttl id now d ≠ 0%Z.

(** Keys and payloads agree, the way [request_approval] writes them. *)
Definition keyed (d : desk) : Prop :=
  ∀ id r dl, store d !! id = Some (Some r, dl) → request_id r = id.

Definition terminal_at (now : Z) (id : string) (d : desk) : Prop :=
  ∃ r dl, redis_lookup id now d = Some (Some r, dl) ∧ is_pending r = false.

(** Nothing about the request is open any more. *)
Definition settled (now : Z) (id : string) (d : desk) : Prop :=
  terminal_at now id d ∧ (id ∉ pending_set d) ∧ decided id d.

Definition freed (w : string) (d : desk) : Prop := workflow_status d !! w ≠ Some AWAITING_APPROVAL.

(** What expiring requests may do to a desk *)
Record reaped (now : Z) (d d' : desk) : Prop := {
  rd_keyed : keyed d → keyed d';
  rd_dying : no_dying_key now d → no_dying_key now d';
  rd_twins : ∃ l, scan d' = l ++ scan d ∧ Forall (λ r, is_pending r = false) l;
  rd_pending : pending_set d' ⊆ pending_set d;
  rd_workflows : ∀ w, workflow_status d' !! w = workflow_status d !! w ∨
    (workflow_status d !! w = Some AWAITING_APPROVAL ∧ workflow_status d' !! w = Some FAILED);
  rd_store : ∀ id, redis_lookup id now d' = redis_lookup id now d ∨
    (terminal_at now id d' ∧ (id ∉ pending_set d'));
}.

#[export] Instance reaped_preorder now : PreOrder (reaped now).
Proof.
  split.
  - intros d. split; try done; [by exists []|by left|by left].
  - intros d1 d2 d3 [K1 D1 (l1&T1&F1) P1 W1 S1] [K2 D2 (l2&T2&F2) P2 W2 S2]. split; [auto|auto| | | |].
    + exists (l2 ++ l1). rewrite T2, T1, app_assoc. split; [done|by apply Forall_app].
    + by etrans.
    + intros w. destruct (W1 w) as [E1|[E1 E1']], (W2 w) as [E2|[E2 E2']]; try congruence.
      * left. congruence.
      * right. split; congruence.
      * right. split; congruence.
    + intros id. destruct (S2 id) as [E2|?]; [|by right].
      destruct (S1 id) as [E1|[(r&dl&Hr&Hp) Hn]]; [left; congruence|].
      right. split; [|set_solver]. exists r, dl. by rewrite E2.
Qed.

Lemma decided_app id l d d' : scan d' = l ++ scan d → decided id d → decided id d'.
Proof.
  unfold decided, decisions, own. intros -> Hd. rewrite !filter_app.
  intros E%app_nil. by destruct E.
Qed.

Lemma reaped_settled now id d d' : reaped now d d' → settled now id d → settled now id d'.
Proof.
  intros [_ _ (l&T&_) P _ S] ((r&dl&Hr&Hp)&Hn&Hd). split_and!; [|set_solver|by eapply decided_app].
  destruct (S id) as [E|[? _]]; [|done]. exists r, dl. by rewrite E.
Qed.

Lemma reaped_freed now w d d' : reaped now d d' → freed w d → freed w d'.
Proof. intros Hr Hf. destruct (rd_workflows _ _ _ Hr w) as [E|[E _]]; unfold freed; congruence. Qed.

Section expire.
Context (me : string) (now : Z).

Lemma put_twin_scan t d :
  ∃ l, scan (put_twin t d) = l ++ scan d ∧
    (l = [] ∨ ∃ r, tw_payload t = Some r ∧ l = [r]) ∧
    ∀ r, tw_payload t = Some r → r ∈ scan (put_twin t d).
Proof.
  unfold put_twin, scan. case_decide as Hin.
  - exists []. split_and!; [done|by left|]. intros r Hr. apply list_elem_of_omap. by exists t.
  - cbn. destruct (tw_payload t) as [r|].
    + exists [r]. split_and!; [done|right; by exists r|]. intros r' [= <-]. by left.
    + exists []. split_and!; [done|by left|done].
Qed.

Lemma put_twin_rest t d :
  store (put_twin t d) = store d ∧ pending_set (put_twin t d) = pending_set d ∧
  workflow_status (put_twin t d) = workflow_status d.
Proof. unfold put_twin. by case_decide. Qed.

Lemma in_scan_decided r d : r ∈ scan d → is_pending r = false → decided (request_id r) d.
Proof.
  unfold decided. intros Hr Hp E. assert (r ∈ decisions (own (request_id r) (scan d))) as Hin
    by (do 2 (apply list_elem_of_filter; split; [done|]); done).
  rewrite E in Hin. by apply elem_of_nil in Hin.
Qed.

(** Writing a terminal record back under its key *)
Lemma save_spec id r d :
  redis_ttl id now d ≠ 0%Z → request_id r = id → is_pending r = false →
  ∃ d' dl, save id r now d = Ok d' ∧
    redis_lookup id now d' = Some (Some r, dl) ∧
    (∀ x, x ≠ id → redis_lookup x now d' = redis_lookup x now d) ∧
    (no_dying_key now d → no_dying_key now d') ∧ (keyed d → keyed d') ∧
    pending_set d' = pending_set d ∖ {[id]} ∧ twins d' = twins d ∧
    workflow_status d' = workflow_status d.
Proof.
  intros Httl Hid Hp. unfold save. set (ttl := redis_ttl id now d) in *.
  set (ex := (if (ttl <? 0)%Z then 60 else ttl)%Z).
  destruct (redis_set id r ex now d) as [d1|e] eqn:E.
  2:{ exfalso. unfold redis_set in E. apply res_bind_Err in E as [[Hle%Z.leb_le _]%raise_if_Err|(?&_&?)];
      [|done]. unfold ex in Hle. destruct (Z.ltb_spec ttl 0); [lia|].
      assert (0 <= ttl)%Z by done. lia. }
  unfold redis_set in E. apply res_bind_Ok in E as ([]&Hex%raise_if_Ok%Z.leb_gt&[= <-]).
  clearbody ex. cbn [res_bind]. eexists _, (Some (now + ex * 1000)%Z). split; [reflexivity|].
  set (d' := srem _ _).
  assert (redis_lookup id now d' = Some (Some r, Some (now + ex * 1000)%Z)) as Hself.
  { unfold redis_lookup. cbn. rewrite lookup_insert_eq.
    destruct (Z.ltb_spec now (now + ex * 1000)); [done|lia]. }
  assert (∀ x, x ≠ id → redis_lookup x now d' = redis_lookup x now d) as Hother.
  { intros x Hx. unfold redis_lookup. cbn. by rewrite lookup_insert_ne. }
  split_and!; try done.
  - intros Hd x. unfold redis_ttl. destruct (decide (x = id)) as [->|Hx].
    + rewrite Hself. replace (now + ex * 1000 - now + 500)%Z with (500 + ex * 1000)%Z by lia.
      rewrite Z.div_add by lia. change (500 / 1000)%Z with 0%Z. lia.
    + rewrite (Hother x Hx). apply Hd.
  - intros Hk x r' dl. cbn. rewrite lookup_insert_Some. intros [[<- [= <- _]]|[_ Hl]]; [done|by eapply Hk].
  - cbn. set_solver.
Qed.

Lemma with_decision_terminal s by_whom ctx r :
  s ≠ "pending" → is_pending (with_decision s now by_whom ctx r) = false.
Proof. intros Hs. unfold is_pending. cbn. by apply String.eqb_neq. Qed.

(** New twins of one request, all of them decisions *)
Definition own_decisions (id : string) (l : list ApprovalRequest) : Prop :=
  Forall (λ q, is_pending q = false ∧ request_id q = id) l.

Lemma own_decisions_decided id l : own_decisions id l → Forall (λ q, is_pending q = false) l.
Proof. intros Hl. eapply Forall_impl; [exact Hl|]. by intros q [? _]. Qed.

(** The best-effort twin of a decision *)
Lemma write_federated_spec up r d :
  is_pending r = false →
  let d' := _write_federated_decision me up r d in
  store d' = store d ∧ pending_set d' = pending_set d ∧ workflow_status d' = workflow_status d ∧
  (∃ l, scan d' = l ++ scan d ∧ own_decisions (request_id r) l) ∧
  (up = true → decided (request_id r) d').
Proof.
  intros Hp. unfold _write_federated_decision, write_decision. destruct up.
  2:{ split_and!; try done. exists []. split; [done|constructor]. }
  rewrite Hp. cbn [raise_if res_bind]. set (t := {| tw_author := me; tw_payload := Some r; tw_node := None |}).
  destruct (put_twin_rest t d) as (->&->&->). destruct (put_twin_scan t d) as (l&Hl&Hcase&Hin).
  split_and!; try done.
  - exists l. split; [done|]. destruct Hcase as [->|(r0&[= <-]&->)]; [constructor|].
    constructor; [done|constructor].
  - intros _. by apply in_scan_decided; [apply Hin|].
Qed.

Lemma transition_spec db_ok w d :
  let d' := _transition_workflow_to_failed db_ok w d in
  store d' = store d ∧ pending_set d' = pending_set d ∧ twins d' = twins d ∧
  (∀ x, workflow_status d' !! x = workflow_status d !! x ∨
    (workflow_status d !! x = Some AWAITING_APPROVAL ∧ workflow_status d' !! x = Some FAILED)) ∧
  (db_ok w = true → freed w d').
Proof.
  unfold _transition_workflow_to_failed, freed. destruct (db_ok w); [|by split_and!; try done; left].
  split_and!; try done; cbn.
  - intros x. destruct (decide (x = w)) as [->|Hx]; [|rewrite lookup_alter_ne by done; by left].
    rewrite lookup_alter_eq. destruct (workflow_status d !! w) as [s|]; [|by left].
    cbn. unfold fail_parked. case_decide; [subst; by right|by left].
  - intros _. rewrite lookup_alter_eq. destruct (workflow_status d !! w) as [s|]; [|done].
    cbn. unfold fail_parked. case_decide; [done|congruence].
Qed.

Lemma same_store_lookup x d d' : store d' = store d → redis_lookup x now d' = redis_lookup x now d.
Proof. unfold redis_lookup. by intros ->. Qed.

Lemma expire_one_spec up db_ok r d :
  redis_ttl (request_id r) now d ≠ 0%Z →
  ∃ d', _expire_one me up db_ok now r d = (d', true) ∧ reaped now d d' ∧
    terminal_at now (request_id r) d' ∧ (request_id r ∉ pending_set d') ∧
    (up = true → decided (request_id r) d') ∧
    (db_ok (workflow_id r) = true → freed (workflow_id r) d') ∧
    (∀ x, x ≠ request_id r → redis_lookup x now d' = redis_lookup x now d) ∧
    (∀ x, x ≠ request_id r → x ∈ pending_set d → x ∈ pending_set d') ∧
    (∃ l, scan d' = l ++ scan d ∧ own_decisions (request_id r) l).
Proof.
  intros Httl. unfold _expire_one, _mark_expired.
  set (r' := with_decision "expired" now (decided_by r) (context r) r).
  assert (is_pending r' = false) as Hp by by apply with_decision_terminal.
  destruct (save_spec (request_id r) r' d Httl eq_refl Hp)
    as (d1&dl&Hsave&Hself&Hother&Hdy&Hk&Hps&Htw&Hws).
  change (request_id r') with (request_id r). rewrite Hsave.
  change (workflow_id r') with (workflow_id r).
  destruct (write_federated_spec up r' d1 Hp) as (Hst2&Hps2&Hws2&(l&Hl&Hlf)&Hdec).
  set (d2 := _write_federated_decision me up r' d1) in *.
  destruct (transition_spec db_ok (workflow_id r) d2) as (Hst3&Hps3&Htw3&Hws3&Hfree).
  set (d3 := _transition_workflow_to_failed db_ok (workflow_id r) d2) in *.
  assert (∀ x, redis_lookup x now d3 = redis_lookup x now d1) as Hlook
    by (intros x; apply same_store_lookup; congruence).
  assert (scan d3 = l ++ scan d) as Hscan.
  { unfold scan at 1. rewrite Htw3. fold (scan d2). rewrite Hl. unfold scan at 1. by rewrite Htw. }
  assert (terminal_at now (request_id r) d3) as Hterm by (exists r', dl; by rewrite Hlook).
  assert (request_id r ∉ pending_set d3) as Hnp by (rewrite Hps3, Hps2, Hps; set_solver).
  exists d3. split; [done|]. split_and!; try done.
  - split; try done.
    + intros Hkd x q dl'. rewrite Hst3, Hst2. by apply Hk.
    + intros Hd x. unfold redis_ttl. rewrite Hlook. by apply Hdy.
    + exists l. split; [done|]. by eapply own_decisions_decided.
    + rewrite Hps3, Hps2, Hps. set_solver.
    + intros w. rewrite <-Hws, <-Hws2. apply Hws3.
    + intros x. destruct (decide (x = request_id r)) as [->|Hx]; [by right|left].
      rewrite Hlook. by apply Hother.
  - intros Hup. assert (decided (request_id r) d2) as Hd2 by by apply Hdec.
    unfold decided, scan in *. by rewrite Htw3.
  - intros x Hx. rewrite Hlook. by apply Hother.
  - intros x Hx Hin. rewrite Hps3, Hps2, Hps. set_solver.
  - by exists l.
Qed.
End expire.

(** ** The two passes *)

Definition due (now : Z) (id : string) (d : desk) (r : ApprovalRequest) : Prop :=
  redis_get id now d = Some (Some r) ∧ is_pending r = true ∧ is_expired now r = true.

Lemma due_dec now id d : (∃ r, due now id d r) ∨ ¬ ∃ r, due now id d r.
Proof.
  unfold due. destruct (redis_get id now d) as [[r|]|]; [|by right; intros (r&?&_)..].
  destruct (is_pending r) eqn:Ep; [|right; intros (q&[= ->]&?&_); congruence].
  destruct (is_expired now r) eqn:Ee; [left; by exists r|right; intros (q&[= ->]&_&?); congruence].
Qed.

Lemma redis_get_lookup id now d raw :
  redis_get id now d = Some raw ↔ ∃ dl, redis_lookup id now d = Some (raw, dl).
Proof.
  unfold redis_get. destruct (redis_lookup id now d) as [[p dl]|]; cbn; naive_solver.
Qed.

Lemma redis_get_same id now d d' :
  redis_lookup id now d' = redis_lookup id now d → redis_get id now d' = redis_get id now d.
Proof. unfold redis_get. by intros ->. Qed.

Lemma keyed_get id now d r : keyed d → redis_get id now d = Some (Some r) → request_id r = id.
Proof.
  intros Hk [dl Hl]%redis_get_lookup. unfold redis_lookup in Hl.
  destruct (store d !! id) as [[p [t|]]|] eqn:E; [|injection Hl as -> <-; by eapply Hk|done].
  destruct (now <? t)%Z; [|done]. injection Hl as -> _. by eapply Hk.
Qed.

Section passes.
Context (me : string) (up : bool) (db_ok : string → bool) (now : Z).

Abbreviation redis_step := (redis_step me up db_ok now).
Abbreviation crdt_step := (crdt_step me up db_ok now).

(** What has become of a request that was expired *)
Definition closed (id : string) (d : desk) : Prop :=
  terminal_at now id d ∧ (id ∉ pending_set d) ∧ (up = true → decided id d).

Lemma reaped_closed id d d' : reaped now d d' → closed id d → closed id d'.
Proof.
  intros Hr (Ht&Hn&Hd). destruct up eqn:Eu.
  - assert (settled now id d) as Hs by (split; [exact Ht|split; [exact Hn|by apply Hd]]).
    destruct (reaped_settled now id d d' Hr Hs) as (?&?&?). by split_and!.
  - destruct Hr as [_ _ _ P _ S]. split_and!; [|set_solver|congruence].
    destruct Ht as (r&dl&Hr&Hp). destruct (S id) as [E|[? _]]; [|done]. exists r, dl. by rewrite E.
Qed.

(** One expiry, as a step of either pass *)
Lemma reap_request_spec r s :
  no_dying_key now (rp_desk s) →
  let s' := reap_request me up db_ok now r s in
  reaped now (rp_desk s) (rp_desk s') ∧ closed (request_id r) (rp_desk s') ∧
  (db_ok (workflow_id r) = true → freed (workflow_id r) (rp_desk s')) ∧
  rp_handled s' = {[request_id r]} ∪ rp_handled s ∧ rp_orphans s' = rp_orphans s ∧
  (∃ l, scan (rp_desk s') = l ++ scan (rp_desk s) ∧ own_decisions (request_id r) l) ∧
  ∀ x, x ≠ request_id r →
    redis_lookup x now (rp_desk s') = redis_lookup x now (rp_desk s) ∧
    (x ∈ pending_set (rp_desk s) → x ∈ pending_set (rp_desk s')).
Proof.
  intros Hd. unfold reap_request.
  destruct (expire_one_spec me now up db_ok r (rp_desk s) (Hd _)) as (d'&->&Hr&Ht&Hn&Hdec&Hf&Hl&Hp&Htw).
  cbn. split_and!; try done. intros x Hx. split; [by apply Hl|by apply Hp].
Qed.

Record first_pass (ids : list string) (s s' : reaping) : Prop := {
  fp_reaped : reaped now (rp_desk s) (rp_desk s');
  fp_handled : rp_handled s ⊆ rp_handled s';
  fp_orphans : ∀ id, id ∈ rp_orphans s' ↔
    id ∈ rp_orphans s ∨ (id ∈ ids ∧ redis_get id now (rp_desk s) = None);
  fp_due : ∀ id r, id ∈ ids → due now id (rp_desk s) r →
    id ∈ rp_handled s' ∧ (db_ok (workflow_id r) = true → freed (workflow_id r) (rp_desk s'));
  fp_closed : ∀ id, id ∈ rp_handled s' →
    id ∈ rp_handled s ∨ (closed id (rp_desk s') ∧ ∃ r, due now id (rp_desk s) r);
  fp_same : ∀ id, (id ∉ ids) ∨ ¬ (∃ r, due now id (rp_desk s) r) →
    redis_lookup id now (rp_desk s') = redis_lookup id now (rp_desk s) ∧
    (id ∈ pending_set (rp_desk s) → id ∈ pending_set (rp_desk s'));
  fp_twins : ∀ id, decided id (rp_desk s') → decided id (rp_desk s) ∨ id ∈ rp_handled s';
}.

Lemma decided_grown id x l d d' :
  scan d' = l ++ scan d → own_decisions x l → decided id d' → decided id d ∨ id = x.
Proof.
  unfold decided, decisions, own. intros -> Hl Hd. rewrite !filter_app in Hd.
  destruct (decide (id = x)) as [|Hne]; [by right|left].
  assert (filter (λ r, request_id r = id) l = []) as E.
  { clear Hd. induction Hl as [|q l [_ Hq] _ IH]; [done|]. rewrite filter_cons_False; [done|congruence]. }
  by rewrite E in Hd.
Qed.

(** A step on [id] that leaves the request alone, or expires it *)
Lemma redis_step_spec id s :
  no_dying_key now (rp_desk s) → keyed (rp_desk s) → first_pass [id] s (redis_step s id).
Proof.
  intros Hd Hk. unfold redis_step. destruct (redis_get id now (rp_desk s)) as [[r|]|] eqn:Eg.
  - destruct (negb (is_pending r) || negb (is_expired now r)) eqn:Eb.
    + assert (∀ q, ¬ due now id (rp_desk s) q) as Hnd.
      { intros q (Hq&Hp&He). rewrite Eg in Hq. injection Hq as <-. by rewrite Hp, He in Eb. }
      split; try done; [| |by left|by left].
      * intros x. split; [by left|]. intros [?|[->%list_elem_of_singleton E]]; [done|congruence].
      * intros x q ->%list_elem_of_singleton Hq. by apply Hnd in Hq.
    + apply orb_false_iff in Eb as [Hp%negb_false_iff He%negb_false_iff].
      assert (request_id r = id) as Hid by by eapply keyed_get.
      destruct (reap_request_spec r s Hd) as (Hr&Hc&Hf&Hh&Ho&(l&Hl&Hlo)&Hx). rewrite Hid in *.
      set (s' := reap_request _ _ _ _ _ _) in *. assert (due now id (rp_desk s) r) as Hdue by done.
      split; [done|set_solver| | | | |].
      * intros x. rewrite Ho. split; [by left|].
        intros [?|[->%list_elem_of_singleton E]]; [done|congruence].
      * intros x q ->%list_elem_of_singleton (Hq&_). rewrite Eg in Hq. injection Hq as <-.
        split; [set_solver|done].
      * intros x. rewrite Hh, elem_of_union, elem_of_singleton. intros [->|?]; [right|by left].
        split; [done|by exists r].
      * intros x Hn. apply Hx. intros ->. destruct Hn as [Hn|Hn]; [by apply Hn, list_elem_of_singleton|].
        apply Hn. by exists r.
      * intros x Hx'. rewrite Hh. destruct (decided_grown x id l _ _ Hl Hlo Hx') as [?| ->]; [by left|set_solver].
  - assert (∀ q, ¬ due now id (rp_desk s) q) as Hnd by (intros q (Hq&_); congruence).
    split; try done; [| |by left|by left].
    + intros x. split; [by left|]. intros [?|[->%list_elem_of_singleton E]]; [done|congruence].
    + intros x q ->%list_elem_of_singleton Hq. by apply Hnd in Hq.
  - assert (∀ q, ¬ due now id (rp_desk s) q) as Hnd by (intros q (Hq&_); congruence).
    split; try done; cbn; [| |by left|by left].
    + intros x. rewrite elem_of_union, elem_of_singleton, list_elem_of_singleton. naive_solver.
    + intros x q ->%list_elem_of_singleton Hq. by apply Hnd in Hq.
Qed.

Lemma due_same id d d' r :
  redis_lookup id now d' = redis_lookup id now d → due now id d' r ↔ due now id d r.
Proof. intros E. unfold due. by rewrite (redis_get_same _ _ _ _ E). Qed.

Lemma first_pass_spec ids s :
  NoDup ids → no_dying_key now (rp_desk s) → keyed (rp_desk s) →
  first_pass ids s (fold_left redis_step ids s).
Proof.
  intros Hnd. revert s. induction Hnd as [|id ids Hid _ IH]; intros s Hd Hk; cbn [fold_left].
  { split; try done; [| |by left|by left].
    - intros id. split; [by left|]. intros [?|[Hin _]]; [done|by apply elem_of_nil in Hin].
    - intros id r Hin. by apply elem_of_nil in Hin. }
  pose proof (redis_step_spec id s Hd Hk) as [R1 H1 O1 D1 C1 S1 T1].
  set (s1 := redis_step s id) in *.
  destruct (IH s1) as [R2 H2 O2 D2 C2 S2 T2]; [by apply R1|by apply R1|].
  set (s2 := fold_left redis_step ids s1) in *.
  assert (∀ x, x ∈ ids → redis_lookup x now (rp_desk s1) = redis_lookup x now (rp_desk s)) as Htail.
  { intros x Hx. apply S1. left. intros ->%list_elem_of_singleton. done. }
  split; [by etrans|set_solver| | | | |].
  - intros x. rewrite O2, O1, list_elem_of_singleton, elem_of_cons. split.
    + intros [[?|[-> E]]|[Hx E]]; [by left|right; by split; [left|]|].
      right. split; [by right|]. by rewrite <-(redis_get_same x now _ _ (Htail x Hx)).
    + intros [?|[[->|Hx] E]]; [left; by left|left; by right|].
      right. split; [done|]. by rewrite (redis_get_same x now _ _ (Htail x Hx)).
  - intros x r [->|Hx]%elem_of_cons Hdue.
    + destruct (D1 id r (ltac:(by apply list_elem_of_singleton)) Hdue) as [Hh Hf].
      split; [set_solver|]. intros Hok. eapply reaped_freed, Hf; done.
    + apply D2; [done|]. by apply (due_same x (rp_desk s)); [apply Htail|].
  - intros x [Hx|[Hc (r&Hr)]]%C2.
    + apply C1 in Hx as [?|[Hc Hr]]; [by left|right]. split; [by eapply reaped_closed|done].
    + destruct (decide (x = id)) as [->|Hne].
      * right. split; [done|]. destruct (due_dec now id (rp_desk s)) as [|Hn]; [done|].
        exists r. apply (due_same id (rp_desk s) (rp_desk s1)); [|done]. apply S1. by right.
      * right. split; [done|]. exists r. apply (due_same x (rp_desk s) (rp_desk s1)); [|done].
        apply S1. left. by intros ->%list_elem_of_singleton.
  - intros x Hx. assert (x ∉ ids ∨ ¬ (∃ r, due now x (rp_desk s1) r)) as Hx2.
    { destruct Hx as [Hx|Hx]; [left; intros Hin; apply Hx; by right|].
      destruct (decide (x ∈ ids)) as [Hin|]; [right|by left]. intros (r&Hr). apply Hx. exists r.
      by apply (due_same x (rp_desk s) (rp_desk s1)); [apply Htail|]. }
    destruct (S2 x Hx2) as [L2 P2]. destruct (S1 x) as [L1 P1].
    { destruct Hx as [Hx|Hx]; [left|by right]. intros ->%list_elem_of_singleton. apply Hx. by left. }
    split; [congruence|auto].
  - intros x [[Hx|Hx]%T1|Hx]%T2; [by left|right; set_solver|by right].
Qed.

Record second_pass (rs : list ApprovalRequest) (s s' : reaping) : Prop := {
  sp_reaped : reaped now (rp_desk s) (rp_desk s');
  sp_handled : rp_handled s ⊆ rp_handled s';
  sp_done : ∀ r, r ∈ rs → is_expired now r = true →
    request_id r ∈ rp_handled s' ∧ ((request_id r ∉ rp_handled s) → closed (request_id r) (rp_desk s') ∧
      (db_ok (workflow_id r) = true → freed (workflow_id r) (rp_desk s')));
  sp_closed : ∀ id, id ∈ rp_handled s' →
    id ∈ rp_handled s ∨ (id ∈ map request_id rs ∧ closed id (rp_desk s'));
  sp_orphans : ∀ id, id ∈ rp_orphans s → id ∈ rp_orphans s' ∨ id ∈ rp_handled s';
  sp_few : rp_orphans s' ⊆ rp_orphans s;
  sp_same : ∀ id, (∀ r, r ∈ rs → is_expired now r = true → request_id r ≠ id) →
    redis_lookup id now (rp_desk s') = redis_lookup id now (rp_desk s) ∧
    (id ∈ pending_set (rp_desk s) → id ∈ pending_set (rp_desk s'));
}.

Lemma crdt_step_spec r s :
  no_dying_key now (rp_desk s) → second_pass [r] s (crdt_step s r).
Proof.
  intros Hd. unfold crdt_step. destruct (bool_decide_reflect (request_id r ∈ rp_handled s)) as [Hh|Hh];
    cbn [orb].
  { split; try done; [|by left|by left]. intros q ->%list_elem_of_singleton _. by split. }
  destruct (is_expired now r) eqn:He; cbn [negb].
  2:{ split; try done; [|by left|by left]. intros q ->%list_elem_of_singleton. congruence. }
  destruct (reap_request_spec r s Hd) as (Hr&Hc&Hf&Hhd&Ho&_&Hx). cbv zeta.
  set (s' := reap_request _ _ _ _ _ _) in *. split; cbn; [done|set_solver| | | | |].
  - intros q ->%list_elem_of_singleton _. split; [set_solver|done].
  - intros x. rewrite Hhd, elem_of_union, elem_of_singleton. intros [->|?]; [right|by left].
    split; [by left|done].
  - intros x Hin. rewrite Ho, Hhd. destruct (decide (x = request_id r)); set_solver.
  - rewrite Ho. set_solver.
  - intros x Hne. apply Hx. intros ->. apply (Hne r); [by apply list_elem_of_singleton|done|done].
Qed.

Lemma second_pass_spec rs s :
  NoDup (map request_id rs) → no_dying_key now (rp_desk s) →
  second_pass rs s (fold_left crdt_step rs s).
Proof.
  revert s. induction rs as [|r rs IH]; intros s Hnd Hd; cbn [fold_left].
  { split; try done; [|by left|by left]. intros q Hq. by apply elem_of_nil in Hq. }
  cbn [map] in Hnd. apply NoDup_cons in Hnd as [Hnin Hnd].
  pose proof (crdt_step_spec r s Hd) as [R1 H1 D1 C1 O1 F1 S1]. set (s1 := crdt_step s r) in *.
  destruct (IH s1 Hnd) as [R2 H2 D2 C2 O2 F2 S2]; [by apply R1|].
  set (s2 := fold_left crdt_step rs s1) in *.
  assert (∀ q, q ∈ rs → request_id q ≠ request_id r) as Hother.
  { intros q Hq E. apply Hnin. rewrite <-E. by apply list_elem_of_fmap_2. }
  split; [by etrans|set_solver| | | |set_solver|].
  - intros q [->|Hq]%elem_of_cons He.
    + destruct (D1 r (ltac:(by apply list_elem_of_singleton)) He) as [Hin Hnew].
      split; [set_solver|]. intros Hn. destruct (Hnew Hn) as [Hc Hf].
      split; [by eapply reaped_closed|]. intros Hok. eapply reaped_freed, Hf; done.
    + destruct (D2 q Hq He) as [Hin Hnew]. split; [done|]. intros Hn. apply Hnew. intros Hin1.
      apply C1 in Hin1 as [?|[[E|Hn']%elem_of_cons _]]; [done| |by apply elem_of_nil in Hn'].
      by destruct (Hother q Hq).
  - intros x [Hx|[Hx Hc]]%C2.
    + apply C1 in Hx as [?|[Hx Hc]]; [by left|right]. apply list_elem_of_singleton in Hx as ->.
      split; [by left|by eapply reaped_closed].
    + right. split; [by right|done].
  - intros x [Hx|Hx]%O1; [by apply O2|right; set_solver].
  - intros x Hne. destruct (S1 x) as [L1 P1].
    { intros q ->%list_elem_of_singleton. apply Hne. by left. }
    destruct (S2 x) as [L2 P2]; [intros q Hq; apply Hne; by right|].
    split; [congruence|auto].
Qed.
End passes.

(** ** A tick *)

(** Decisions only remove requests from the pending view. *)
Lemma pending_shrinks include now d d' l r :
  scan d' = l ++ scan d → Forall (λ r, is_pending r = false) l →
  r ∈ federated_get_pending None include now d' ↔
  r ∈ federated_get_pending None include now d ∧ ¬ decided (request_id r) d'.
Proof.
  intros Hs Hl. rewrite !federated_pending_spec.
  assert (decisions (own (request_id r) (scan d')) = [] →
    own (request_id r) (scan d') = own (request_id r) (scan d)) as Hown.
  { intros Hd. rewrite Hs. unfold own. rewrite filter_app.
    destruct (filter (λ q, request_id q = request_id r) l) as [|x l'] eqn:E; [done|].
    assert (x ∈ own (request_id r) (scan d') ∧ is_pending x = false) as [Hx Hp].
    { assert (x ∈ filter (λ q, request_id q = request_id r) l) as [Hid Hx]%list_elem_of_filter
        by (rewrite E; by left). split; [|by apply (proj1 (Forall_forall _ _) Hl)].
      apply list_elem_of_filter. split; [done|]. rewrite Hs. apply elem_of_app. by left. }
    apply (decisions_nil_pending _ _ Hd) in Hx. congruence. }
  unfold decided. split.
  - intros (Hd&Hlast&Hi). pose proof (Hown Hd) as Ho. rewrite <-Ho. by split; [split_and!|intros Hn].
  - intros [(Hd&Hlast&Hi) Hn]. destruct (decisions (own (request_id r) (scan d'))) as [|x l'] eqn:E;
      [|by destruct Hn]. split_and!; [done| |done]. by rewrite (Hown eq_refl).
Qed.

Section tick.
Context (me : string) (db_ok : string → bool) (now : Z).

(** What the two passes and the clean-up leave, when the database is up *)
Record tick_result (d d' : desk) : Prop := {
  tk_reaped : reaped now d d';
  tk_twins : ∀ r, r ∈ federated_get_pending None true now d' → is_expired now r = false;
  tk_redis : ∀ id, id ∈ pending_set d' → ∃ raw, redis_get id now d' = Some raw ∧
    ∀ r, raw = Some r → is_pending r = true → is_expired now r = false;
  tk_due : ∀ id r, id ∈ pending_set d → due now id d r →
    settled now id d' ∧ (db_ok (workflow_id r) = true → freed (workflow_id r) d');
  tk_crdt : ∀ r, r ∈ federated_get_pending None true now d → is_expired now r = true →
    settled now (request_id r) d' ∧
    ((¬ ∃ q, due now (request_id r) d q) → db_ok (workflow_id r) = true → freed (workflow_id r) d');
  tk_live : ∀ id, (¬ ∃ r, due now id d r) →
    (∀ r, r ∈ federated_get_pending None true now d → is_expired now r = true → request_id r ≠ id) →
    redis_lookup id now d' = redis_lookup id now d ∧
    (id ∈ pending_set d → is_Some (redis_get id now d) → id ∈ pending_set d');
}.

Lemma reap_tick d :
  keyed d → no_dying_key now d →
  tick_result d (_reap_expired me true db_ok now true d).1.
Proof.
  intros Hk Hdy. unfold _reap_expired. set (s0 := {| rp_desk := d; rp_handled := ∅ |}).
  pose proof (first_pass_spec me true db_ok now (elements (pending_set d)) s0
    (NoDup_elements _) Hdy Hk) as [R1 H1 O1 D1 C1 S1 T1].
  set (s1 := fold_left _ (elements (pending_set d)) s0) in *. cbn [rp_desk rp_handled rp_orphans s0] in *.
  unfold _crdt_pending. set (rs := federated_get_pending None true now (rp_desk s1)) in *.
  pose proof (second_pass_spec me true db_ok now rs s1
    (federated_pending_NoDup _ _ _) (rd_dying _ _ _ R1 Hdy)) as [R2 H2 D2 C2 O2 F2 S2].
  set (s2 := fold_left _ rs s1) in *. cbn [fst]. set (gone := elements (rp_orphans s2 ∖ rp_handled s2)).
  set (d3 := srem gone (rp_desk s2)).
  assert (pending_set d3 = pending_set (rp_desk s2) ∖ (rp_orphans s2 ∖ rp_handled s2)) as Hps3.
  { unfold d3, gone, srem, set_pending. cbn. by rewrite list_to_set_elements_L. }
  assert (reaped now (rp_desk s2) d3) as R3.
  { split; try done; [by exists []|rewrite Hps3; apply subseteq_difference_l; reflexivity|by left|by left]. }
  assert (reaped now d d3) as R by (etrans; [exact R1|etrans; [exact R2|exact R3]]).
  destruct (rd_twins _ _ _ R) as (l&Hl&Hlf). destruct (rd_twins _ _ _ R1) as (l1&Hl1&Hlf1).
  destruct (rd_twins _ _ _ R2) as (l2&Hl2&Hlf2).
  assert (∀ id, closed true now id (rp_desk s2) → settled now id d3) as Hsettled.
  { intros id (Ht&Hn&Hd). apply (reaped_settled now id (rp_desk s2) d3 R3).
    split; [exact Ht|split; [exact Hn|by apply Hd]]. }
  assert (∀ id, id ∈ rp_handled s2 → settled now id d3) as Hhandled.
  { intros id [Hid|[_ Hc]]%C2; [|by apply Hsettled].
    apply C1 in Hid as [Hid|[Hc _]]; [by apply elem_of_empty in Hid|]. apply Hsettled. by eapply reaped_closed. }
  assert (∀ id, id ∈ rp_handled s1 → ∃ r, due now id d r) as Hh1.
  { intros id [Hid|[_ Hr]]%C1; [by apply elem_of_empty in Hid|done]. }
  split; [done| | | | |].
  - intros r Hr. destruct (is_expired now r) eqn:He; [|done].
    apply (pending_shrinks true now (rp_desk s1) d3 l2 r Hl2 Hlf2) in Hr as [Hr Hnd].
    destruct (D2 r Hr He) as [Hin _]. by destruct (Hhandled _ Hin) as (_&_&?).
  - intros id Hid. assert (id ∈ pending_set d) as Hid0 by (by apply (rd_pending _ _ _ R)).
    destruct (rd_store _ _ _ R id) as [E|[_ Hn]]; [|done].
    destruct (redis_get id now d) as [raw|] eqn:Eg.
    + exists raw. split; [by rewrite (redis_get_same _ _ _ _ E)|]. intros r -> Hp.
      destruct (is_expired now r) eqn:He; [|done]. exfalso.
      destruct (D1 id r) as [Hin _]; [by apply elem_of_elements|done|].
      destruct (Hhandled id (H2 _ Hin)) as (_&Hn&_). done.
    + exfalso. assert (id ∈ rp_orphans s1) as Ho
        by (apply O1; right; by split; [apply elem_of_elements|]).
      rewrite Hps3 in Hid. destruct (O2 id Ho) as [Ho2|Hh2]; [|by destruct (Hhandled id Hh2) as (_&Hn&_); rewrite Hps3 in Hn].
      destruct (decide (id ∈ rp_handled s2)) as [Hh2|Hh2];
        [|by apply elem_of_difference in Hid as [_ []]; apply elem_of_difference].
      destruct (Hhandled id Hh2) as (_&Hn&_). by rewrite Hps3 in Hn.
  - intros id r Hid Hdue. destruct (D1 id r) as [Hin Hf]; [by apply elem_of_elements|done|].
    split; [apply Hhandled; by apply H2|]. intros Hok. eapply reaped_freed; [exact R3|].
    eapply reaped_freed; [exact R2|]. by apply Hf.
  - intros r Hr He. destruct (decide (request_id r ∈ rp_handled s1)) as [Hh|Hh].
    { split; [apply Hhandled; by apply H2|]. intros Hn. by destruct Hn, (Hh1 _ Hh) as [q Hq]; exists q. }
    assert (r ∈ rs) as Hrs.
    { apply (pending_shrinks true now d (rp_desk s1) l1 r Hl1 Hlf1). split; [done|].
      intros [Hd0|?]%T1; [|done]. by apply federated_pending_spec in Hr as [? _]. }
    destruct (D2 r Hrs He) as [Hin Hnew]. split; [by apply Hhandled|]. intros _ Hok.
    eapply reaped_freed; [exact R3|]. by apply Hnew.
  - intros id Hnd Hne.
    destruct (S1 id) as [L1 P1]; [by right|].
    destruct (S2 id) as [L2 P2].
    { intros r Hr He. apply Hne; [|done].
      by apply (pending_shrinks true now d (rp_desk s1) l1 r Hl1 Hlf1) in Hr as [? _]. }
    split; [by rewrite <-L1, <-L2|]. intros Hid Hs. rewrite Hps3.
    apply elem_of_difference. split; [by apply P2, P1|].
    intros [Ho%F2 _]%elem_of_difference. apply O1 in Ho as [Ho|[_ Ho]]; [by apply elem_of_empty in Ho|].
    rewrite Ho in Hs. by destruct Hs.
Qed.
End tick.

(** ** The life of a desk *)

(** Only the keys in [P] change, twins are only added, and keys keep agreeing
    with their payloads. *)
Record grows (P : string → Prop) (d d' : desk) : Prop := {
  gr_store : ∀ id, ¬ P id → store d' !! id = store d !! id;
  gr_twins : ∃ l, scan d' = l ++ scan d;
  gr_keyed : keyed d → keyed d';
}.

#[export] Instance grows_preorder P : PreOrder (grows P).
Proof.
  split; [by split; [|exists []|]|]. intros d1 d2 d3 [S1 (l1&T1) K1] [S2 (l2&T2) K2]. split.
  - intros id Hn. by rewrite S2, S1.
  - exists (l2 ++ l1). by rewrite T2, T1, app_assoc.
  - auto.
Qed.

Section life.
Context (me : string).

Lemma put_twin_grows P t d : grows P d (put_twin t d).
Proof.
  destruct (put_twin_scan t d) as (l&Hl&_). destruct (put_twin_rest t d) as (Hs&_&_).
  split; [by rewrite Hs|by exists l|]. unfold keyed. by rewrite Hs.
Qed.

Lemma write_decision_grows P up r d : grows P d (_write_federated_decision me up r d).
Proof.
  unfold _write_federated_decision, write_decision. destruct up; [|done].
  destruct (is_pending r); [done|]. apply put_twin_grows.
Qed.

Lemma set_pending_grows P s d : grows P d (set_pending s d).
Proof. by split; [|exists []|]. Qed.

Lemma redis_set_grows (P : string → Prop) id r ex now d d' :
  redis_set id r ex now d = Ok d' → P id → request_id r = id → grows P d d'.
Proof.
  unfold redis_set. intros ([]&_&[= <-])%res_bind_Ok HP Hid. split; cbn.
  - intros x Hx. rewrite lookup_insert_ne; [done|]. by intros <-.
  - by exists [].
  - intros Hk x q dl. cbn. rewrite lookup_insert_Some. intros [[<- [= <- _]]|[_ Hl]]; [done|by eapply Hk].
Qed.

Lemma save_grows (P : string → Prop) id r now d d' :
  save id r now d = Ok d' → P id → request_id r = id → grows P d d'.
Proof.
  unfold save. intros (d1&Hs&[= <-])%res_bind_Ok HP Hid.
  etrans; [by eapply redis_set_grows|]. apply set_pending_grows.
Qed.

Lemma expire_one_grows (P : string → Prop) up db_ok now r d :
  P (request_id r) → grows P d (_expire_one me up db_ok now r d).1.
Proof.
  intros HP. unfold _expire_one, _mark_expired.
  set (r' := with_decision _ _ _ _ _). destruct (save _ _ _ _) as [d1|e] eqn:E; [|done]. cbn [fst].
  assert (grows P d d1) as H1 by by eapply save_grows.
  etrans; [exact H1|]. etrans; [apply (write_decision_grows P up r')|].
  unfold _transition_workflow_to_failed. destruct (db_ok _); [|done]. by split; [|exists []|].
Qed.

(** A request whose decision is in Redis and in the twins *)
Record final (id : string) (r : ApprovalRequest) (dl : option Z) (d : desk) : Prop := {
  fin_store : store d !! id = Some (Some r, dl);
  fin_status : is_pending r = false;
  fin_twin : decided id d;
  fin_keyed : keyed d;
}.

Lemma grows_final id r dl d d' : grows (λ x, x ≠ id) d d' → final id r dl d → final id r dl d'.
Proof.
  intros [S (l&T) K] [Hs Hp Hd Hk]. split; [|done|by eapply decided_app|by apply K].
  rewrite S; [done|]. intros Hn. by apply Hn.
Qed.

Lemma final_get id r dl now d :
  final id r dl d → redis_get id now d = None ∨ redis_get id now d = Some (Some r).
Proof.
  intros [Hs _ _ _]. unfold redis_get, redis_lookup. rewrite Hs.
  destruct dl as [t|]; [destruct (now <? t)%Z|]; cbn; tauto.
Qed.

Lemma decide_grows id r dl x s by_whom why up now d :
  final id r dl d → grows (λ y, y ≠ id) d (_decide me x s by_whom why up now d).1.
Proof.
  intros Hf. unfold _decide. destruct (res_bind _ _) as [[d' q]|e] eqn:E; [|done]. cbn [fst].
  apply res_bind_Ok in E as (raw&Hraw&E). apply res_bind_Ok in E as (q0&Hq0&E).
  apply res_bind_Ok in E as ([]&Hp%raise_if_Ok%negb_false_iff&E).
  apply res_bind_Ok in E as (d1&Hs&[= <- <-]).
  destruct (redis_get x now d) as [raw'|] eqn:Eg; [|done]. injection Hraw as ->.
  destruct raw as [q1|]; [|done]. injection Hq0 as ->.
  assert (x ≠ id) as Hne.
  { intros ->. destruct (final_get id r dl now d Hf) as [E|E]; rewrite Eg in E; [done|].
    injection E as ->. destruct Hf as [_ Hnp _ _]. congruence. }
  etrans; [|apply write_decision_grows].
  eapply save_grows; [exact Hs|done|]. cbn. by eapply keyed_get; [apply Hf|].
Qed.

Lemma decide_request_grows id r dl s x by_whom why up now d :
  final id r dl d → grows (λ y, y ≠ id) d (decide_request me s x by_whom why up now d).1.
Proof.
  intros Hf. unfold decide_request. pose proof (decide_grows id r dl x s by_whom why up now d Hf) as Hd.
  destruct (_decide me x s by_whom why up now d) as [d1 [q|[]]]; cbn [fst] in Hd; try done;
    cbn [is_ValueError negb];
    (destruct (_hydrate_from_crdt up x d1) as [q|]; [|done]);
    (destruct (is_pending q); cbn [negb]; [|done]);
    (destruct (write_decision _ _ _ _) as [d2|e] eqn:E; [|done]); cbn [fst];
    (unfold write_decision in E; apply res_bind_Ok in E as ([]&_&[= <-]));
    (etrans; [exact Hd|apply put_twin_grows]).
Qed.

Lemma decided_not_pending include now id d r :
  decided id d → r ∈ federated_get_pending None include now d → request_id r ≠ id.
Proof. intros Hd (Hn&_)%federated_pending_spec <-. by apply Hd. Qed.

Lemma reap_request_grows (P : string → Prop) up db_ok now q s :
  P (request_id q) → grows P (rp_desk s) (rp_desk (reap_request me up db_ok now q s)).
Proof.
  intros HP. pose proof (expire_one_grows P up db_ok now q (rp_desk s) HP) as He.
  unfold reap_request. by destruct (_expire_one _ _ _ _ _ _).
Qed.

Lemma redis_pass_final id r dl up db_ok now ids s :
  final id r dl (rp_desk s) →
  final id r dl (rp_desk (fold_left (redis_step me up db_ok now) ids s)).
Proof.
  revert s. induction ids as [|x ids IH]; intros s Hf; [done|]. cbn [fold_left]. apply IH.
  unfold redis_step. destruct (redis_get x now (rp_desk s)) as [[q|]|] eqn:Eg; [|done..].
  destruct (negb (is_pending q) || negb (is_expired now q)) eqn:Eb; [done|].
  apply orb_false_iff in Eb as [Hp%negb_false_iff _]. eapply grows_final; [|exact Hf].
  apply reap_request_grows. rewrite (keyed_get _ _ _ _ (fin_keyed _ _ _ _ Hf) Eg). intros ->.
  destruct (final_get id r dl now _ Hf) as [E|E]; rewrite Eg in E; [done|].
  injection E as ->. by rewrite (fin_status _ _ _ _ Hf) in Hp.
Qed.

Lemma crdt_pass_final id r dl up db_ok now rs s :
  final id r dl (rp_desk s) → (∀ q, q ∈ rs → request_id q ≠ id) →
  final id r dl (rp_desk (fold_left (crdt_step me up db_ok now) rs s)).
Proof.
  revert s. induction rs as [|q rs IH]; intros s Hf Hrs; [done|]. cbn [fold_left]. apply IH.
  - unfold crdt_step. destruct (_ || _); [done|]. cbn [rp_desk].
    eapply grows_final, Hf. apply reap_request_grows, Hrs. by left.
  - intros x Hx. apply Hrs. by right.
Qed.

Lemma reap_final id r dl up db_ok now crdt_up d :
  final id r dl d → final id r dl (_reap_expired me up db_ok now crdt_up d).1.
Proof.
  intros Hf. unfold _reap_expired. cbn [fst]. eapply grows_final; [apply set_pending_grows|].
  set (s1 := fold_left _ (elements _) _). assert (final id r dl (rp_desk s1)) as H1
    by by apply redis_pass_final.
  apply crdt_pass_final; [done|]. unfold _crdt_pending. destruct crdt_up.
  - intros q Hq. eapply decided_not_pending; [apply (fin_twin _ _ _ _ H1)|exact Hq].
  - intros q Hq. by apply elem_of_nil in Hq.
Qed.

(** Everything that happens to a desk: time passes, requests are made with
    fresh identifiers, listed and decided, twins arrive from peers, and the
    janitor ticks; the database may be up or down at each step. *)
Inductive desk_step : Z * desk → Z * desk → Prop :=
  | step_time now now' d : (now <= now')%Z → desk_step (now, d) (now', d)
  | step_request now d new_id wid task act ctx rule timeout cp node up :
      store d !! new_id = None →
      desk_step (now, d)
        (now, (request_approval me new_id wid task act ctx rule timeout cp node up now d).1)
  | step_list now d wid : desk_step (now, d) (now, (get_pending wid now d).1)
  | step_decide now d id s by_whom why up :
      desk_step (now, d) (now, (_decide me id s by_whom why up now d).1)
  | step_endpoint now d id s by_whom why up :
      desk_step (now, d) (now, (decide_request me s id by_whom why up now d).1)
  | step_gossip now d t : desk_step (now, d) (now, put_twin t d)
  | step_janitor now d up db_ok crdt_up :
      desk_step (now, d) (now, (_reap_expired me up db_ok now crdt_up d).1).

Lemma step_final id r dl s s' : desk_step s s' → final id r dl s.2 → final id r dl s'.2.
Proof.
  destruct 1 as [|now d new_id wid task act ctx rule timeout cp node up Hfresh|now d wid| | | |];
    cbn [snd]; intros Hf.
  - done.
  - assert (new_id ≠ id) as Hne by (intros ->; by rewrite (fin_store _ _ _ _ Hf) in Hfresh).
    unfold request_approval. destruct (redis_set _ _ _ _ _) as [d'|e] eqn:E; cbn [fst].
    + eapply grows_final; [|exact Hf]. etrans; [by eapply redis_set_grows|].
      etrans; [apply set_pending_grows|]. unfold _write_federated_request.
      destruct up; [apply put_twin_grows|done].
    + eapply grows_final; [apply set_pending_grows|done].
  - unfold get_pending. destruct (pending_loop _ _ _ _) as [[rs gone]|e]; [|done].
    eapply grows_final; [apply set_pending_grows|done].
  - eapply grows_final; [|exact Hf]. by eapply decide_grows.
  - eapply grows_final; [|exact Hf]. by eapply decide_request_grows.
  - eapply grows_final; [apply put_twin_grows|done].
  - by apply reap_final.
Qed.

Lemma steps_final id r dl s s' : rtc desk_step s s' → final id r dl s.2 → final id r dl s'.2.
Proof. induction 1 as [|s1 s2 s3 Hs _ IH]; [done|]. intros Hf. by eapply IH, step_final. Qed.
End life.

(** ** What clients see *)

Lemma pending_loop_live wid now ids d rs gone r :
  pending_loop wid now ids d = Ok (rs, gone) → r ∈ rs →
  ∃ rid, rid ∈ ids ∧ redis_get rid now d = Some (Some r) ∧ is_pending r = true ∧
    is_expired now r = false.
Proof.
  revert rs gone. induction ids as [|x ids IH]; intros rs gone; cbn [pending_loop].
  { intros [= <- _] Hr. by apply elem_of_nil in Hr. }
  assert (∀ p, pending_loop wid now ids d = Ok p → r ∈ p.1 →
    ∃ rid, rid ∈ x :: ids ∧ redis_get rid now d = Some (Some r) ∧ is_pending r = true ∧
      is_expired now r = false) as Htail.
  { intros [rs' gone'] Hp Hr. destruct (IH _ _ Hp Hr) as (rid&Hin&?). exists rid.
    split; [by right|done]. }
  destruct (redis_get x now d) as [raw|] eqn:Eg.
  2:{ intros (p&Hp&[= <- _])%res_bind_Ok. by apply Htail. }
  intros (q&Hq&(p&Hp&Hr)%res_bind_Ok)%res_bind_Ok. destruct raw as [q'|]; [|done]. injection Hq as ->.
  destruct (negb (is_pending q) || is_expired now q) eqn:Eb; [injection Hr as <- _; by apply Htail|].
  apply orb_false_iff in Eb as [Hpq%negb_false_iff He].
  destruct (match wid with Some _ => _ | None => _ end); injection Hr as Hr.
  - rewrite Hr in Hp. intros Hin. by apply (Htail (rs, gone)).
  - subst rs. intros [->|Hin]%elem_of_cons; [|by apply (Htail p)].
    exists x. split_and!; [by left|done..].
Qed.

Lemma first_seen_sub seen rs r : r ∈ first_seen seen rs → r ∈ rs.
Proof.
  revert seen. induction rs as [|q rs IH]; intros seen; cbn; [done|]. case_decide.
  - intros Hr. right. by eapply IH.
  - intros [->|Hr]%elem_of_cons; [by left|right; by eapply IH].
Qed.

Lemma final_find id r dl d :
  final id r dl d → ∃ q, find_by_request_id id d = Some q ∧ is_pending q = false.
Proof.
  intros [_ _ Hd _]. rewrite find_view. unfold decided in Hd.
  destruct (head (decisions _)) as [q|] eqn:E; [|by destruct (decisions _)].
  exists q. split; [done|by apply decisions_head in E].
Qed.

Lemma final_conflict me id r dl s by_whom why now d :
  final id r dl d → decide_request me s id by_whom why true now d = (d, Http409).
Proof.
  intros Hf. unfold decide_request, _decide. destruct (final_find _ _ _ _ Hf) as (q&Hq&Hp).
  destruct (final_get id r dl now d Hf) as [->| ->].
  - cbn [res_of_option res_bind is_ValueError negb _hydrate_from_crdt]. by rewrite Hq, Hp.
  - cbn [res_of_option res_bind decode]. by rewrite (fin_status _ _ _ _ Hf).
Qed.

Lemma final_not_listed id r dl now d d' rs :
  final id r dl d → list_pending_approvals true true now d = (d', Ok rs) →
  id ∉ map request_id rs.
Proof.
  intros Hf. unfold list_pending_approvals, get_pending.
  destruct (pending_loop None now _ d) as [[live gone]|e] eqn:E; [|done]. cbn [negb].
  intros [= _ <-] (q&Hid&Hq)%list_elem_of_fmap. apply first_seen_sub in Hq.
  apply elem_of_app in Hq as [Hq|Hq].
  - apply list_elem_of_filter in Hq as [_ Hq].
    destruct (pending_loop_live _ _ _ _ _ _ _ E Hq) as (rid&_&Hg&Hp&_).
    pose proof (keyed_get _ _ _ _ (fin_keyed _ _ _ _ Hf) Hg) as Hk. rewrite Hid, Hk in Hf.
    destruct (final_get _ _ _ now _ Hf) as [E'|E']; rewrite Hg in E'; [done|].
    injection E' as ->. by rewrite (fin_status _ _ _ _ Hf) in Hp.
  - apply (decided_not_pending false now id (srem gone d) q); [|done|done].
    by apply (fin_twin _ _ _ _ Hf).
Qed.

(** ** Theorems *)

(** Decisions are final.  Once a request has a decision in Redis and a
    decision twin, then whatever happens to the desk (other requests, attempts
    to decide it again, twins from peers, janitor ticks, with the database up
    or down): looking it up gives that decision until its key ends, the merged
    status is always a decision, deciding again is a conflict that changes
    nothing, and it is in no pending list. *)
Theorem decided_final me id r dl now d now' d' :
  final id r dl d → rtc (desk_step me) (now, d) (now', d') →
  (check_status id now' d' = Ok r ∨ check_status id now' d' = Err NotFound) ∧
  (∃ q, _merged_approval_status true id now' d' = Some q ∧ is_pending q = false) ∧
  (∀ s by_whom why, decide_request me s id by_whom why true now' d' = (d', Http409)) ∧
  ∀ d'' rs, list_pending_approvals true true now' d' = (d'', Ok rs) → id ∉ map request_id rs.
Proof.
  intros Hf Hs. pose proof (steps_final me id r dl _ _ Hs Hf) as Hf'. cbn [snd] in Hf'.
  assert (check_status id now' d' = Ok r ∨ check_status id now' d' = Err NotFound) as Hc.
  { unfold check_status. destruct (final_get id r dl now' d' Hf') as [->| ->]; [by right|by left]. }
  split_and!; [done| |intros; by eapply final_conflict|intros; by eapply final_not_listed].
  unfold _merged_approval_status. cbn [_hydrate_from_crdt].
  destruct (final_find _ _ _ _ Hf') as (q&->&Hq). destruct Hc as [->| ->]; [|by exists q].
  rewrite (fin_status _ _ _ _ Hf'). cbn. exists r. split; [done|by apply (fin_status _ _ _ _ Hf')].
Qed.

(** A tick reaps everything that is due.  With the stores up, after a tick
    no expired request is pending in the twins, every identifier left in the
    pending set has a payload that is not both pending and expired, every
    request that was due (in Redis or only in the twins) has a terminal record
    in Redis, a decision twin and a workflow that is no longer parked in
    AWAITING_APPROVAL, and requests that were not due keep their payload and
    their place.  (No key may be in the last half second of its life.) *)
Theorem reap_expired_spec me db_ok now d :
  keyed d → no_dying_key now d →
  let d' := (_reap_expired me true db_ok now true d).1 in
  (∀ r, r ∈ federated_get_pending None true now d' → is_expired now r = false) ∧
  (∀ id, id ∈ pending_set d' → ∃ raw, redis_get id now d' = Some raw ∧
     ∀ r, raw = Some r → is_pending r = true → is_expired now r = false) ∧
  (∀ id r, id ∈ pending_set d → due now id d r →
     settled now id d' ∧ (db_ok (workflow_id r) = true → freed (workflow_id r) d')) ∧
  (∀ r, r ∈ federated_get_pending None true now d → is_expired now r = true →
     settled now (request_id r) d' ∧
     ((¬ ∃ q, due now (request_id r) d q) → db_ok (workflow_id r) = true → freed (workflow_id r) d')) ∧
  (∀ id, (¬ ∃ r, due now id d r) →
     (∀ r, r ∈ federated_get_pending None true now d → is_expired now r = true → request_id r ≠ id) →
     redis_lookup id now d' = redis_lookup id now d ∧
     (id ∈ pending_set d → is_Some (redis_get id now d) → id ∈ pending_set d')).
Proof.
  intros Hk Hd d'. destruct (reap_tick me db_ok now d Hk Hd) as [_ T1 T2 T3 T4 T5].
  split_and!; [exact T1|exact T2|exact T3|exact T4|exact T5].
Qed.

(** ** Examples and witnesses *)

Definition empty_desk : desk :=
  {| store := ∅; pending_set := ∅; twins := []; workflow_status := {["w" := AWAITING_APPROVAL]} |}.

Definition asked (up : bool) : desk :=
  (request_approval "me" "r" "w" None "act" [] "rule" 300 None None up 0 empty_desk).1.

Definition approved : desk := (_decide "me" "r" "approved" "ann" None true 1000 (asked true)).1.

Definition approved_request : ApprovalRequest := {|
  request_id := "r"; workflow_id := "w"; task_id := None; action := "act"; context := [];
  policy_rule := "rule"; status := "approved"; requested_at := Aware 0 0;
  decided_at := Some (Aware 1000 0); decided_by := Some "ann"; expires_at := Aware 300000 0;
  checkpoint_hash := None |}.

Lemma approved_final : final "r" approved_request (Some 1200000%Z) approved.
Proof.
  split; [vm_compute; reflexivity|reflexivity|intros E; vm_compute in E; discriminate E|].
  intros id r dl Hl. assert (store approved = {["r" := (Some approved_request, Some 1200000%Z)]}) as Hs
    by (vm_compute; reflexivity).
  rewrite Hs in Hl. apply lookup_singleton_Some in Hl as [<- [= <- _]]. reflexivity.
Qed.

Lemma decided_final_witness :
  ∃ q, _merged_approval_status true "r" 400000
         (_reap_expired "me" false (λ _, true) 400000 true approved).1 = Some q ∧
       is_pending q = false.
Proof.
  destruct (decided_final "me" "r" approved_request (Some 1200000%Z) 400000 approved 400000
    (_reap_expired "me" false (λ _, true) 400000 true approved).1) as (_&Hm&_).
  - exact approved_final.
  - apply rtc_once. apply step_janitor.
  - exact Hm.
Defined.

Definition asked_request : ApprovalRequest := {|
  request_id := "r"; workflow_id := "w"; task_id := None; action := "act"; context := [];
  policy_rule := "rule"; status := "pending"; requested_at := Aware 0 0;
  decided_at := None; decided_by := None; expires_at := Aware 300000 0;
  checkpoint_hash := None |}.

Lemma asked_store : store (asked true) = {["r" := (Some asked_request, Some 1200000%Z)]}.
Proof. vm_compute. reflexivity. Qed.

Lemma asked_keyed : keyed (asked true).
Proof.
  intros id r dl Hl. rewrite asked_store in Hl.
  apply lookup_singleton_Some in Hl as [<- [= <- _]]. reflexivity.
Qed.

Lemma asked_no_dying : no_dying_key 400000 (asked true).
Proof.
  intros id. unfold redis_ttl, redis_lookup. rewrite asked_store.
  destruct (decide (id = "r")) as [->|Hne].
  - rewrite lookup_singleton_eq. vm_compute. discriminate.
  - rewrite lookup_singleton_ne by done. discriminate.
Qed.

(** The request of [asked], after its deadline: the workflow fails. *)
Lemma reap_expired_witness :
  let d' := (_reap_expired "me" true (λ _, true) 400000 true (asked true)).1 in
  settled 400000 "r" d' ∧ freed "w" d'.
Proof.
  intros d'. destruct (reap_expired_spec "me" (λ _, true) 400000 (asked true) asked_keyed asked_no_dying)
    as (_&_&Hdue&_).
  edestruct (Hdue "r") as [Hs Hf].
  - vm_compute. reflexivity.
  - split; [vm_compute; reflexivity|split; reflexivity].
  - split; [exact Hs|exact (Hf eq_refl)].
Defined.

(** When the twin of an approval could not be written, the janitor takes the
    twin of the request for pending: it overwrites the approval in Redis, and
    fails the workflow. *)
Example approval_overwritten :
  let d := (_decide "me" "r" "approved" "ann" None false 1000 (asked true)).1 in
  let d' := (_reap_expired "me" true (λ _, true) 400000 true d).1 in
  (res_map status (check_status "r" 1000 d), res_map status (check_status "r" 400000 d'),
   workflow_status d' !! "w") = (Ok "approved", Ok "expired", Some FAILED).
Proof. vm_compute. reflexivity. Qed.

(** [_decide] does not look at the deadline: in the grace period a request is
    approved after it expired. *)
Example approved_after_deadline :
  let d := asked true in
  (res_map (is_expired 400000) (check_status "r" 400000 d),
   res_map status (_decide "me" "r" "approved" "ann" None true 400000 d).2) = (Ok true, Ok "approved").
Proof. vm_compute. reflexivity. Qed.

(** A denial that came from a peer does not stop a local approval while Redis
    still says pending: the two nodes then hold opposite decisions. *)
Example opposite_decisions :
  let denied := with_decision "denied" 500 (Some "bob") [] (with_decision "pending" 0 None [] approved_request) in
  let d := put_twin {| tw_author := "peer"; tw_payload := Some denied; tw_node := None |} (asked true) in
  let r := approve_request "me" "r" "ann" true 1000 d in
  (r.2, map status (decisions (scan r.1))) = (Ok200, ["approved"; "denied"]).
Proof. vm_compute. reflexivity. Qed.
