(* ===== verification/ToolLoop.v ===== *)
(** * ToolLoop: prices, model choice and the tool loop of one node

    Models [llm/token_counter.py] and, of [orchestration/scheduler.py], the
    choice of the model, the estimate that sizes a reservation, the budget gate
    and [_run_tool_loop].  A [Decimal] is a rational number (its sums, products
    and quotients here are exact), a float is a double; [float_of_decimal] is
    the conversion between them, which rounds correctly as long as numerator
    and denominator are below 2^53.  The language model and the tools are
    oracles that answer by the number of the call. *)

From Stdlib Require Import ZArith QArith SpecFloat Lia.
From stdpp Require Import base tactics strings gmap list.
From S2P Require Import Prelude PyStr Dict PyVal PyFloat TaskFsm Uuid Dag.

#[local] Open Scope nat_scope.

(** ** token_counter.py *)

Abbreviation decimal := Q.

(** Dollars per million input and output tokens *)
Definition PRICING_TABLE : list (string * (decimal * decimal)) := [
  ("claude-opus-5", (15 # 1, 75 # 1)); ("claude-sonnet-5", (3 # 1, 15 # 1));
  ("claude-fable-5", (3 # 1, 15 # 1)); ("claude-haiku-4-5-20251001", (8 # 10, 4 # 1));
  ("claude-opus-4-20250514", (15 # 1, 75 # 1)); ("claude-sonnet-4-20250514", (3 # 1, 15 # 1));
  ("claude-haiku-3-5-20241022", (8 # 10, 4 # 1));
  ("claude-opus", (15 # 1, 75 # 1)); ("claude-sonnet", (3 # 1, 15 # 1)); ("claude-haiku", (8 # 10, 4 # 1));
  ("cache", (0 # 1, 0 # 1));
  ("gpt-4o", (25 # 10, 10 # 1)); ("gpt-4o-mini", (15 # 100, 6 # 10)); ("gpt-4-turbo", (10 # 1, 30 # 1));
  ("local", (0 # 1, 0 # 1)); ("default", (3 # 1, 15 # 1))]%Q.

Definition get_model_pricing (model : string) : decimal * decimal :=
  default (3 # 1, 15 # 1)%Q (dict_get model PRICING_TABLE).

(** [max(1, int(len(text) / 4.0))] *)
Definition estimate_tokens (text : string) : Z :=
  Z.max 1 (Z.of_nat (length (py_chars text)) / 4).

Definition estimate_cost (input_tokens output_tokens : Z) (model : string) : decimal :=
  let pricing := get_model_pricing model in
  (inject_Z input_tokens * pricing.1 / inject_Z 1000000 +
   inject_Z output_tokens * pricing.2 / inject_Z 1000000)%Q.

Definition estimate_call_cost (prompt_text : string) (expected_output_tokens : Z) (model : string)
    : decimal := estimate_cost (estimate_tokens prompt_text) expected_output_tokens model.

Definition float_of_decimal (q : decimal) : spec_float :=
  let q := Qred q in f_div (f_of_Z (Qnum q)) (f_of_Z (Zpos (Qden q))).

(** One credit is a tenth of a cent. *)
Definition tokens_to_credits (cost_usd : decimal) : spec_float :=
  float_of_decimal (cost_usd / (1 # 1000))%Q.

Definition list_supported_models : list string :=
  filter (λ k, k ≠ "default") (dict_keys PRICING_TABLE).

(** ** Model choice and reservations *)

Definition HAIKU_CAPABILITIES : list string :=
  ["intake"; "classify"; "extract-requirements"; "data-retrieval"; "literature-review"; "summarization"].

Definition SONNET_CAPABILITIES : list string :=
  ["verification"; "quality-check"; "consistency-audit"; "risk-assessment"; "compliance-check";
   "safety-analysis"; "optimization"; "process-analysis"; "report-generation"; "executive-brief";
   "cost-analysis"].

Definition HAIKU_MODEL : string := "claude-haiku-4-5-20251001".
Definition SONNET_MODEL : string := "claude-sonnet-5".
Definition _ASSUMED_PROMPT_TOKENS : Z := 6000.
Definition _ITERATION_ALLOWANCE : spec_float := f_div (f_of_Z 15) (f_of_Z 100).

Definition _select_model (n : DAGNode) : string * Z :=
  if bool_decide (capability n ∈ HAIKU_CAPABILITIES) && negb (String.eqb (estimated_complexity n) "high")
  then (HAIKU_MODEL, 1000%Z)
  else if bool_decide (capability n ∈ SONNET_CAPABILITIES) || String.eqb (estimated_complexity n) "high"
  then (SONNET_MODEL, 2000%Z)
  else (SONNET_MODEL, 1200%Z).

(** [tool_max_iterations] is a setting, 5 by default; [profile_usd] is the
    agent's [avg_cost_per_call], 0 when it has none. *)
Definition _estimate_node_cost (tool_max_iterations : Z) (profile_usd : decimal) (n : DAGNode)
    : spec_float :=
  let '(model, max_output_tokens) := _select_model n in
  let per_call_usd := estimate_cost _ASSUMED_PROMPT_TOKENS max_output_tokens model in
  let iterations := f_add (f_of_Z 1) (f_mul (f_of_Z (tool_max_iterations - 1)) _ITERATION_ALLOWANCE) in
  let estimated := f_mul (tokens_to_credits per_call_usd) iterations in
  let profile_floor := f_mul (tokens_to_credits profile_usd) (f_div (f_of_Z 3) (f_of_Z 2)) in
  f_max estimated profile_floor.

(** [limit] and [already_charged] are the workflow's budget columns. *)
Definition _can_afford_another_round (limit already_charged : spec_float) (spent_this_node : decimal)
    (model : string) (max_output_tokens : Z) : bool :=
  let remaining := f_sub (f_sub limit already_charged) (tokens_to_credits spent_this_node) in
  let next_round := tokens_to_credits (estimate_cost _ASSUMED_PROMPT_TOKENS max_output_tokens model) in
  f_ge remaining next_round.

(** ** The tool loop *)

Record ToolCall := { call_name : string; call_arguments : string }.
Record ToolResult := { tr_content : string; tr_success : bool; cost_credits : decimal }.

Record LLMResponse := {
  content : string;
  model_used : string;
  tool_calls : list ToolCall;
  cost : decimal;
  m_tool_calls : list (string * bool);
  m_tool_iterations : option nat;
  m_budget_truncated : bool;
  m_summary_forced : bool;
  m_summary_empty : bool;
}.

(** [resp.content = ...; resp.cost = ...; resp.metadata[...] = ...] *)
Definition finish_response (text : string) (total : decimal) (calls : list (string * bool))
    (iterations : option nat) (truncated forced empty : bool) (r : LLMResponse) : LLMResponse := {|
  content := text; model_used := model_used r; tool_calls := tool_calls r; cost := total;
  m_tool_calls := calls; m_tool_iterations := iterations; m_budget_truncated := truncated;
  m_summary_forced := forced; m_summary_empty := empty |}.

Inductive loop_exn := RouterError | AssertionError.

(** What the loop does to the outside: a call of the language model, with or
    without tools and with its price unless it failed, or a tool run. *)
Inductive loop_event :=
  | LLMCall (offered : bool) (price : option decimal)
  | ToolRun (price : decimal).

Definition is_call (e : loop_event) : bool := match e with LLMCall _ _ => true | _ => false end.
Definition event_price (e : loop_event) : decimal :=
  match e with LLMCall _ p => default 0%Q p | ToolRun p => p end.
Definition spent (evs : list loop_event) : decimal :=
  fold_left (λ acc e, (acc + event_price e)%Q) evs 0%Q.

Section loop.
Context (generate : nat → bool → option LLMResponse) (execute_tool : nat → ToolCall → ToolResult).
Context (afford : decimal → bool).

(** [for call in resp.tool_calls: ...] *)
Fixpoint run_tools (calls : list ToolCall) (total : decimal) (log : list (string * bool))
    : decimal * list (string * bool) * list loop_event :=
  match calls with
  | [] => (total, log, [])
  | c :: calls =>
      let result := execute_tool (length log) c in
      let '(total, log, evs) := run_tools calls (total + cost_credits result)%Q
                                  (log ++ [(call_name c, tr_success result)]) in
      (total, log, ToolRun (cost_credits result) :: evs)
  end.

(** How the [for] loop ends: the function returns, or it falls through with
    the total, the log and the last response. *)
Inductive loop_end :=
  | Returned (r : LLMResponse)
  | FellThrough (total : decimal) (log : list (string * bool)) (resp : option LLMResponse).

Fixpoint tool_rounds (rounds i : nat) (total : decimal) (log : list (string * bool))
    (resp : option LLMResponse) : res loop_exn loop_end * list loop_event :=
  match rounds with
  | O => (Ok (FellThrough total log resp), [])
  | S rounds =>
      match generate i true with
      | None => (Err RouterError, [LLMCall true None])
      | Some r =>
          let total := (total + cost r)%Q in
          match tool_calls r with
          | [] =>
              (Ok (Returned (finish_response (content r) total
                     (if decide (log = []) then m_tool_calls r else log)
                     (if decide (log = []) then m_tool_iterations r else Some (S i))
                     (m_budget_truncated r) (m_summary_forced r) (m_summary_empty r) r)),
               [LLMCall true (Some (cost r))])
          | calls =>
              let '(total, log, evs) := run_tools calls total log in
              if afford total then
                let '(e, evs') := tool_rounds rounds (S i) total log (Some r) in
                (e, LLMCall true (Some (cost r)) :: evs ++ evs')
              else (Ok (FellThrough total log (Some r)), LLMCall true (Some (cost r)) :: evs)
          end
      end
  end.

(** [if summary.content.strip()] *)
Definition blank (s : string) : bool := str_empty (py_strip s).

(** The part after the loop; [k] is the number of the call. *)
Definition salvage (max_iterations k : nat) (total : decimal) (log : list (string * bool))
    (resp : option LLMResponse) : res loop_exn LLMResponse * list loop_event :=
  if negb (afford total) then
    (r <~ res_of_option AssertionError resp;
     Ok (finish_response "" total log (m_tool_iterations r) true (m_summary_forced r)
           (m_summary_empty r) r), [])
  else
    match generate k false with
    | Some summary =>
        let total := (total + cost summary)%Q in
        if negb (blank (content summary)) then
          (Ok (finish_response (content summary) total log (Some max_iterations)
                 (m_budget_truncated summary) true (m_summary_empty summary) summary),
           [LLMCall false (Some (cost summary))])
        else
          (Ok (finish_response "" total log (Some max_iterations) (m_budget_truncated summary)
                 true true summary), [LLMCall false (Some (cost summary))])
    | None =>
        (r <~ res_of_option AssertionError resp;
         Ok (finish_response "" total log (Some max_iterations) (m_budget_truncated r) true true r),
         [LLMCall false None])
    end.

Definition _run_tool_loop (max_iterations : nat) : res loop_exn LLMResponse * list loop_event :=
  let '(e, evs) := tool_rounds max_iterations 0 0%Q [] None in
  match e with
  | Err e => (Err e, evs)
  | Ok (Returned r) => (Ok r, evs)
  | Ok (FellThrough total log resp) =>
      let '(r, evs') := salvage max_iterations (length (filter is_call evs)) total log resp in
      (r, evs ++ evs')
  end.
End loop.

(** ** Spending *)

Lemma spent_fold evs a : (fold_left (λ acc e, acc + event_price e) evs a == a + spent evs)%Q.
Proof.
  unfold spent. revert a. induction evs as [|e evs IH]; intros a; cbn [fold_left]; [ring|].
  rewrite IH, (IH (0 + event_price e)%Q). ring.
Qed.

Lemma spent_cons e evs : (spent (e :: evs) == event_price e + spent evs)%Q.
Proof. unfold spent at 1. cbn [fold_left]. rewrite spent_fold. ring. Qed.

Lemma spent_app evs evs' : (spent (evs ++ evs') == spent evs + spent evs')%Q.
Proof.
  induction evs as [|e evs IH]; cbn [app]; [unfold spent; cbn; ring|].
  rewrite !spent_cons, IH. ring.
Qed.

#[export] Instance afford_proper limit used model out :
  Proper (Qeq ==> eq) (λ q, _can_afford_another_round limit used q model out).
Proof.
  intros q q' Hq. unfold _can_afford_another_round, tokens_to_credits, float_of_decimal.
  by rewrite (Qred_complete _ _ (Qdiv_comp _ _ Hq _ _ (Qeq_refl (1 # 1000)))).
Qed.

Section loop_facts.
Context (generate : nat → bool → option LLMResponse) (execute_tool : nat → ToolCall → ToolResult).
Context (afford : decimal → bool) `{!Proper (Qeq ==> eq) afford}.

(** Every call in [evs] is made when [afford] allowed it, given what was spent
    before, [base]. *)
Fixpoint gated (base : decimal) (evs : list loop_event) : Prop :=
  match evs with
  | [] => True
  | e :: evs => (is_call e = true → afford base = true) ∧ gated (base + event_price e)%Q evs
  end.

#[local] Instance gated_proper : Proper (Qeq ==> eq ==> iff) gated.
Proof.
  intros a b Hab evs ? <-. revert a b Hab. induction evs as [|e evs IH]; intros a b Hab; [cbn; tauto|].
  cbn. rewrite (IH (a + event_price e)%Q (b + event_price e)%Q) by (by rewrite Hab).
  by rewrite Hab.
Qed.

Lemma gated_app base evs evs' :
  gated base (evs ++ evs') ↔ gated base evs ∧ gated (base + spent evs)%Q evs'.
Proof.
  revert base. induction evs as [|e evs IH]; intros base; cbn [app gated].
  - unfold spent. cbn. rewrite Qplus_0_r. tauto.
  - rewrite IH, spent_cons, Qplus_assoc. tauto.
Qed.

Lemma gated_split base pre e post :
  gated base (pre ++ e :: post) → is_call e = true → afford (base + spent pre)%Q = true.
Proof. rewrite gated_app. intros [_ [H _]]. done. Qed.

Lemma gated_no_calls base evs : filter is_call evs = [] → gated base evs.
Proof.
  revert base. induction evs as [|e evs IH]; intros base; [done|]. rewrite filter_cons.
  case_decide as He; [done|]. intros Hf. split; [|by apply IH].
  intros E. rewrite E in He. by destruct He.
Qed.

Lemma run_tools_spec calls total log total' log' evs :
  run_tools execute_tool calls total log = (total', log', evs) →
  (total' == total + spent evs)%Q ∧ filter is_call evs = [].
Proof.
  revert total log total' log' evs. induction calls as [|c calls IH]; intros total log total' log' evs; cbn.
  { intros [= <- <- <-]. split; [unfold spent; cbn; ring|done]. }
  destruct (run_tools _ calls _ _) as [[t l] es] eqn:E. intros [= <- <- <-].
  apply IH in E as [-> Hf]. rewrite spent_cons. split; [cbn; ring|done].
Qed.

Lemma one_call b p : length (filter is_call [LLMCall b p]) = 1.
Proof. reflexivity. Qed.

(** A round's own call is not gated, everything after it is. *)
Definition gated_after_first (base : decimal) (evs : list loop_event) : Prop :=
  match evs with [] => True | e :: evs => gated (base + event_price e)%Q evs end.

Definition failed_call (evs : list loop_event) : Prop := ∃ b, LLMCall b None ∈ evs.

(** What holds of the end of the loop *)
Definition end_ok (e : res loop_exn loop_end) (base : decimal) (evs : list loop_event) : Prop :=
  match e with
  | Err e => e = RouterError ∧ failed_call evs
  | Ok (Returned r) => (cost r == base + spent evs)%Q
  | Ok (FellThrough total _ resp) => (total == base + spent evs)%Q ∧ (evs ≠ [] → is_Some resp)
  end.

Lemma tool_rounds_spec rounds i total log resp e evs :
  tool_rounds generate execute_tool afford rounds i total log resp = (e, evs) →
  length (filter is_call evs) ≤ rounds ∧ (rounds ≠ 0 → evs ≠ []) ∧
  gated_after_first total evs ∧ end_ok e total evs.
Proof.
  revert i total log resp e evs. induction rounds as [|rounds IH]; intros i total log resp e evs; cbn [tool_rounds].
  { intros [= <- <-]. split_and!; [cbn; lia|done|exact I|]. split; [unfold spent; cbn; ring|done]. }
  destruct (generate i true) as [r|].
  2:{ intros [= <- <-]. rewrite one_call. split_and!; [lia|done|exact I|split; [done|exists true; by left]]. }
  destruct (tool_calls r) as [|c calls].
  { intros [= <- <-]. rewrite one_call. split_and!; [lia|done|exact I|unfold spent; cbn; ring]. }
  destruct (run_tools execute_tool (c :: calls) _ log) as [[total' log'] evs1] eqn:E1.
  apply run_tools_spec in E1 as [Ht Hf1].
  destruct (afford total') eqn:Ha.
  2:{ intros [= <- <-]. rewrite filter_cons_True by done. rewrite Hf1. cbn [length].
      split_and!; [lia|done|by apply gated_no_calls|]. split; [|done]. rewrite Ht, spent_cons. cbn. ring. }
  destruct (tool_rounds _ _ _ rounds (S i) total' log' (Some r)) as [e2 evs2] eqn:E2.
  intros [= <- <-]. pose proof E2 as E2'. apply IH in E2 as (Hlen&_&Hg&He).
  assert (total + spent (LLMCall true (Some (cost r)) :: evs1 ++ evs2) == total' + spent evs2)%Q as Hs
    by (rewrite spent_cons, spent_app, Ht; cbn; ring).
  rewrite filter_cons_True, filter_app, Hf1 by done. cbn [app length].
  split_and!; [lia|done| |].
  - cbn. rewrite gated_app. split; [by apply gated_no_calls|].
    cbn in Ht. rewrite <-Ht. destruct evs2 as [|x evs2]; [done|]. by split.
  - destruct e2 as [[r2|t2 l2 resp2]|x]; cbn [end_ok] in *.
    + by rewrite He, Hs.
    + destruct He as [-> He]. split; [by rewrite Hs|]. intros _.
      destruct evs2 as [|x evs2]; [|by apply He]. destruct rounds; cbn in E2'.
      * injection E2' as <- <- <-. by exists r.
      * repeat (case_match; try discriminate).
    + destruct He as [-> [b Hb]]. split; [done|]. exists b. right. apply elem_of_app. by right.
Qed.

Lemma salvage_spec n k total log resp r evs :
  salvage generate afford n k total log resp = (r, evs) →
  length (filter is_call evs) ≤ 1 ∧ gated total evs ∧
  (∀ x, r = Ok x → (cost x == total + spent evs)%Q) ∧
  (is_Some resp → is_ok r = true).
Proof.
  unfold salvage. destruct (afford total) eqn:Ha; cbn [negb].
  2:{ intros [= <- <-]. split_and!; [cbn; lia|done| |by intros [x ->]].
      intros x. destruct resp as [y|]; [|done]. cbn. intros [= <-]. cbn. unfold spent. cbn. ring. }
  destruct (generate k false) as [s|].
  - case_match; intros [= <- <-]; (split_and!; [by rewrite one_call|done| |done]);
      intros x [= <-]; rewrite spent_cons; unfold spent; cbn; ring.
  - intros [= <- <-]. split_and!; [by rewrite one_call|done| |by intros [x ->]].
    intros x. destruct resp as [y|]; [|done]. cbn. intros [= <-]. cbn. unfold spent. cbn. ring.
Qed.

Lemma tool_loop_facts n r evs :
  _run_tool_loop generate execute_tool afford n = (r, evs) →
  length (filter is_call evs) ≤ S n ∧
  (∀ pre e post, evs = pre ++ e :: post → is_call e = true → pre ≠ [] → afford (spent pre) = true) ∧
  (∀ x, r = Ok x → (cost x == spent evs)%Q) ∧
  (n ≠ 0 → is_ok r = false → failed_call evs).
Proof.
  unfold _run_tool_loop. destruct (tool_rounds _ _ _ n 0 0%Q [] None) as [e evs1] eqn:E1.
  apply tool_rounds_spec in E1 as (Hlen&Hne&Hg&He).
  assert (∀ evs', gated (0 + spent evs1)%Q evs' →
    ∀ pre e post, evs1 ++ evs' = pre ++ e :: post → is_call e = true → pre ≠ [] →
      afford (spent pre) = true) as Hgate.
  { intros evs' Hg' pre x post E Hx Hpre. destruct pre as [|y pre]; [done|]. clear Hpre.
    rewrite spent_cons. destruct evs1 as [|y1 evs1].
    - cbn in E. subst evs'. destruct Hg' as [_ Hg'].
      assert (0 + spent [] + event_price y == event_price y)%Q as Hz by (unfold spent; cbn; ring).
      rewrite Hz in Hg'. by apply gated_split in Hg'.
    - cbn in E. injection E as <- E.
      assert (gated (event_price y1) (evs1 ++ evs')) as H.
      { apply gated_app. split.
        - rewrite <-(Qplus_0_l (event_price y1)). exact Hg.
        - by rewrite <-spent_cons, <-(Qplus_0_l (spent _)). }
      rewrite E in H. by apply gated_split in H. }
  destruct e as [[r1|total log resp]|x].
  - intros [= <- <-]. cbn in He. split_and!; [lia| | |done].
    + specialize (Hgate []). rewrite app_nil_r in Hgate. by apply Hgate.
    + intros x [= <-]. by rewrite He, Qplus_0_l.
  - destruct (salvage _ _ n _ total log resp) as [r2 evs2] eqn:E2. intros [= <- <-].
    apply salvage_spec in E2 as (Hl2&Hg2&Hc2&Hok). destruct He as [Ht Hs].
    rewrite filter_app, length_app. split_and!; [lia| | |].
    + apply Hgate. by rewrite <-Ht.
    + intros x Hx. rewrite (Hc2 x Hx), spent_app, Ht. ring.
    + intros Hn Herr. rewrite Hok in Herr; [done|]. by apply Hs, Hne.
  - intros [= <- <-]. destruct He as [_ Hf]. split_and!; [lia| |done|done].
    specialize (Hgate []). rewrite app_nil_r in Hgate. by apply Hgate.
Qed.
End loop_facts.

(** ** Theorems *)

(** C33: the tool loop is bounded and never spends past the gate.  With at most
    [n] iterations it makes at most [n + 1] calls of the language model; every
    call after the first is made only when the budget left, after everything
    this node has spent so far (calls and tools), covers one more call of the
    model; the cost it reports is exactly what was spent; and it raises only if
    a call of the model failed. *)
Theorem tool_loop_bounded generate execute_tool limit used model out n :
  let afford q := _can_afford_another_round limit used q model out in
  let '(r, evs) := _run_tool_loop generate execute_tool afford n in
  length (filter is_call evs) ≤ S n ∧
  (∀ pre e post, evs = pre ++ e :: post → is_call e = true → pre ≠ [] → afford (spent pre) = true) ∧
  (∀ x, r = Ok x → (cost x == spent evs)%Q) ∧
  (n ≠ 0 → is_ok r = false → failed_call evs).
Proof.
  intros afford. pose proof (afford_proper limit used model out) as Hp. fold afford in Hp.
  clearbody afford. destruct (_run_tool_loop _ _ afford n) as [r evs] eqn:E.
  exact (tool_loop_facts generate execute_tool afford n r evs E).
Qed.

(** ** Examples *)

Definition node_of (cap complexity : string) : DAGNode := {|
  node_id := "t"; capability := cap; description := ""; depends_on := [];
  estimated_complexity := complexity; assigned_agent_id := None; task_id := None;
  status := PENDING; output := None; error := None |}.

(** Reservations in credits: 14.08 for Haiku, 76.8 and 57.6 for Sonnet *)
Example reservation_values :
  map (λ n, f_round3 (_estimate_node_cost 5 0 n))
    [node_of "intake" "low"; node_of "intake" "high"; node_of "verification" "low"; node_of "research" "low"]
  = map (λ z, f_round3 (f_div (f_of_Z z) (f_of_Z 1000))) [14080; 76800; 76800; 57600]%Z.
Proof. vm_compute. reflexivity. Qed.

Definition answer (text : string) (calls : list ToolCall) (usd : decimal) : LLMResponse := {|
  content := text; model_used := SONNET_MODEL; tool_calls := calls; cost := usd; m_tool_calls := [];
  m_tool_iterations := None; m_budget_truncated := false; m_summary_forced := false;
  m_summary_empty := false |}.

Definition greedy : nat → bool → option LLMResponse := λ _ offered,
  Some (if offered then answer "" [{| call_name := "search"; call_arguments := "{}" |}] (2 # 100)
        else answer "done" [] (1 # 100)).

(** A model that keeps asking for tools: five rounds and one forced summary
    when the budget allows, one round when it does not. *)
Example tool_loop_exhausted :
  let free := λ _ _, {| tr_content := ""; tr_success := true; cost_credits := 0 |} in
  let run limit := _run_tool_loop greedy free
    (λ q, _can_afford_another_round (f_of_Z limit) (f_of_Z 0) q SONNET_MODEL 2000) 5 in
  (length (run 1000%Z).2, res_map content (run 1000%Z).1, length (run 60%Z).2, res_map content (run 60%Z).1)
  = (11, Ok "done", 2, Ok "").
Proof. vm_compute. reflexivity. Qed.

(** The loop adds a tool's [cost_credits] to a cost in dollars: a tool of one
    credit is billed as a thousand. *)
Example tool_cost_units :
  let one_credit := λ _ _, {| tr_content := ""; tr_success := true; cost_credits := 1 |} in
  let gen := λ k _, Some (answer "ok" (if k =? 0 then [{| call_name := "t"; call_arguments := "" |}] else []) 0) in
  res_map (λ r, tokens_to_credits (cost r)) (_run_tool_loop gen one_credit (λ _, true) 5).1
  = Ok (f_of_Z 1000).
Proof. vm_compute. reflexivity. Qed.
