(* ===== verification/ModelRouter.v ===== *)
(** * ModelRouter: which provider answers a call

    Models [llm/router.py]: the providers that the settings make available, in the
    order of their registration, and the choice for a model name.  Whether the
    constructor of a provider succeeds is an argument. *)

From stdpp Require Import base tactics strings list sets.
From S2P Require Import Prelude PyStr ToolLoop.

Inductive provider := anthropic | openai | mock.

#[export] Instance provider_eq_dec : EqDecision provider.
Proof. solve_decision. Defined.

Record llm_settings := {
  anthropic_api_key : string;
  openai_api_key : string;
  auth_required : bool;
}.

Inductive router_exn := NoProviders.

(** [starts] says whether the client of a provider can be made. *)
Definition _initialize_providers (s : llm_settings) (starts : provider → bool) : res router_exn (list provider) :=
  let configured := (if negb (str_empty (anthropic_api_key s)) && starts anthropic then [anthropic] else []) ++
                    (if negb (str_empty (openai_api_key s)) && starts openai then [openai] else []) in
  match configured with
  | [] => if auth_required s then Err NoProviders else Ok [mock]
  | _ => Ok configured
  end.

Definition default_model (p : provider) : string :=
  match p with anthropic => "claude-sonnet-5" | openai => "gpt-4o" | mock => "mock-model-v1" end.

(** The provider that the prefix of the name stands for *)
Definition named_provider (model : string) : option provider :=
  if str_startswith "claude" model then Some anthropic
  else if str_startswith "gpt" model || str_startswith "o1" model then Some openai
  else None.

(** [model or None]: an empty name counts as none. *)
Definition given (model : option string) : option string :=
  match model with Some m => if str_empty m then None else Some m | None => None end.

Definition _resolve_provider (providers : list provider) (model : option string) : res router_exn (provider * string) :=
  match m ← given model; p ← named_provider m; if bool_decide (p ∈ providers) then Some (p, m) else None with
  | Some r => Ok r
  | None =>
      match list_find (λ p, p ∈ providers) [anthropic; openai; mock] with
      | Some (_, p) => Ok (p, default (default_model p) (given model))
      | None => Err NoProviders
      end
  end.

(** A router that has started answers every call, from a provider it has, with the
    model asked for; the mock never answers where authentication is required. *)
Lemma router_answers s starts providers model :
  _initialize_providers s starts = Ok providers →
  ∃ p m, _resolve_provider providers model = Ok (p, m) ∧ p ∈ providers ∧ (∀ m', given model = Some m' → m = m') ∧
    (auth_required s = true → p ≠ mock).
Proof.
  intros Hi. assert (providers ≠ [] ∧ (auth_required s = true → mock ∉ providers)) as [Hne Hmock].
  { unfold _initialize_providers in Hi. destruct (_ && starts anthropic), (_ && starts openai), (auth_required s); cbn in Hi;
      simplify_eq; split; try done; set_solver. }
  assert (∀ p, p ∈ providers → auth_required s = true → p ≠ mock) as Hp by (intros p Hin Ha ->; by apply Hmock).
  unfold _resolve_provider. destruct (m ← given model; _) as [[p m]|] eqn:E.
  - apply bind_Some in E as (m0&Hm&(p0&_&Hc)%bind_Some). case_bool_decide; [|done]. injection Hc as -> ->.
    exists p, m. split_and!; [done..| |by apply Hp]. intros m' Hm'. congruence.
  - destruct (list_find _ _) as [[i p]|] eqn:Ef.
    + apply list_find_Some in Ef as (_&Hin&_). exists p, (default (default_model p) (given model)).
      split_and!; [done..| |by apply Hp]. by intros m' ->.
    + exfalso. apply list_find_None in Ef. destruct providers as [|q l]; [done|].
      rewrite !Forall_cons in Ef. destruct Ef as (Ha&Ho&Hm&_). destruct q; [apply Ha|apply Ho|apply Hm]; left.
Qed.

(** With an OpenAI key alone, the model names of the scheduler, which are Claude's,
    go to OpenAI unchanged. *)
Example claude_name_to_openai :
  (providers <~ _initialize_providers {| anthropic_api_key := ""; openai_api_key := "key"; auth_required := true |} (λ _, true);
   _resolve_provider providers (Some SONNET_MODEL)) = Ok (openai, SONNET_MODEL).
Proof. vm_compute. reflexivity. Qed.
