(* ===== verification/Events.v ===== *)
(** * Events: the event bus and the event streams of the API

    Models the bus of [core/events.py] and the streams of [api/workflows.py] and
    [api/approvals.py] that read from it.  Redis is the class [PubSub]: what a
    subscriber hears of the messages that are published from its subscription on,
    and the matching of patterns; [LawfulPubSub] is what Redis documents of both.
    [dump] is pydantic's [model_dump_json], [None] where it raises.  The events of
    one stream take their missing identifiers and times from [fresh], by position.
    The constructors of typed events only name the fields of their data. *)

From Stdlib Require Import Ascii NArith ZArith Lia.
From stdpp Require Import base tactics strings gmap list.
From S2P Require Import Prelude PyStr Dict PyVal Json JsonLoads Uuid.

(** ** Redis *)

Inductive subscription := Channel (name : string) | Pattern (glob : string).

Inductive message_type := TSubscribe | TPsubscribe | TUnsubscribe | TMessage | TPmessage.

Record RawMessage := { msg_type : message_type; msg_channel : string; msg_data : string }.

(** [listen s log] is what the subscriber of [s] hears when [log] is published, as
    pairs of channel and payload, while it listens. *)
Class PubSub := {
  glob_match : string → string → bool;
  listen : subscription → list (string * string) → list RawMessage;
}.

(** No character of a glob pattern with a meaning of its own *)
Definition plain_char (c : ascii) : bool := negb (existsb (Ascii.eqb c) ["*"; "?"; "["; "\"]%char).
Definition plain (s : string) : bool := forallb plain_char (str_chars s).

Definition matches `{PubSub} (s : subscription) (channel : string) : bool :=
  match s with Channel name => String.eqb name channel | Pattern p => glob_match p channel end.

Definition delivery (s : subscription) (m : string * string) : RawMessage :=
  {| msg_type := match s with Channel _ => TMessage | Pattern _ => TPmessage end; msg_channel := m.1; msg_data := m.2 |}.

(** [message["type"] in ("message", "pmessage")] *)
Definition is_delivery (r : RawMessage) : bool := match msg_type r with TMessage | TPmessage => true | _ => false end.

Class LawfulPubSub `{PubSub} := {
  glob_plain p c : plain p = true → glob_match p c = true ↔ p = c;
  glob_star p q c : plain p = true →
    glob_match (p +:+ "*" +:+ q) c = true ↔ ∃ a b, c = p +:+ a +:+ b ∧ glob_match q b = true;
  (** in the order of publication, nothing lost and nothing twice *)
  listen_delivers s log :
    List.filter is_delivery (listen s log) = map (delivery s) (List.filter (λ m, matches s m.1) log);
}.

(** ** core/events.py *)

Record BaseEvent := {
  event_id : string;
  event_type : string;
  timestamp : string;
  correlation_id : option string;
  data : list (pykey * json);
}.

Definition CHANNEL_PREFIX : string := "massclaw".

Definition _channel_name (parts : list string) : string := str_join ":" (CHANNEL_PREFIX :: parts).

(** A string field with a default *)
Definition str_or (default : string) (v : option json) : option string :=
  match v with None => Some default | Some (JStr s) => Some s | Some _ => None end.

(** [BaseEvent] applied to the fields of a parsed object, with the defaults of the moment *)
Definition base_event (fresh : string * string) (v : json) : option BaseEvent :=
  match v with
  | JObj d =>
      eid ← str_or fresh.1 (dict_get (KStr "event_id") d);
      ty ← match dict_get (KStr "event_type") d with Some (JStr s) => Some s | _ => None end;
      ts ← str_or fresh.2 (dict_get (KStr "timestamp") d);
      cid ← match dict_get (KStr "correlation_id") d with
            | None | Some JNull => Some None | Some (JStr s) => Some (Some s) | Some _ => None end;
      dat ← match dict_get (KStr "data") d with None => Some [] | Some (JObj x) => Some x | Some _ => None end;
      Some {| event_id := eid; event_type := ty; timestamp := ts; correlation_id := cid; data := dat |}
  | _ => None
  end.

(** The fields that [model_dump_json] writes *)
Definition event_fields (e : BaseEvent) : json :=
  JObj [(KStr "event_id", JStr (event_id e)); (KStr "event_type", JStr (event_type e));
        (KStr "timestamp", JStr (timestamp e));
        (KStr "correlation_id", match correlation_id e with Some c => JStr c | None => JNull end);
        (KStr "data", JObj (data e))].

Section bus.
Context `{PubSub} (float_of_text : string → pyfloat) (dump : BaseEvent → option string).

(** What a command to Redis comes to: the answer with the number of subscribers, or an
    exception of the client, before or after the message was [sent] *)
Inductive reply := Answered (subscribers : Z) | Raised (sent : bool).

Definition sends_out (r : reply) : bool := match r with Answered _ => true | Raised sent => sent end.

(** The log grows by what was published. *)
Definition publish (r : reply) (channel_parts : list string) (event : BaseEvent) (log : list (string * string))
    : Z * list (string * string) :=
  match dump event with
  | Some payload =>
      (match r with Answered n => n | Raised _ => 0%Z end,
       if sends_out r then log ++ [(_channel_name channel_parts, payload)] else log)
  | None => (0%Z, log)
  end.

Definition publish_dict (fresh : string * string) (r : reply) (channel_parts : list string) (ty : string)
    (dat : list (pykey * json)) (log : list (string * string)) : Z * list (string * string) :=
  publish r channel_parts
    {| event_id := fresh.1; event_type := ty; timestamp := fresh.2; correlation_id := None; data := dat |} log.

(** [psubscribe] where the name holds a star *)
Definition subscription_of (channel : string) : subscription :=
  if str_mem "*" channel then Pattern channel else Channel channel.

(** One message of the listening loop; a malformed one is skipped *)
Definition event_of (fresh : string * string) (r : RawMessage) : option BaseEvent :=
  if is_delivery r then
    match loads float_of_text (msg_data r) with Ok v => base_event fresh v | Err _ => None end
  else None.

Definition events_of (fresh : nat → string * string) (rs : list RawMessage) : list BaseEvent :=
  omap id (imap (λ i r, event_of (fresh i) r) rs).

Definition subscribe (fresh : nat → string * string) (channel_parts : list string) (log : list (string * string))
    : list BaseEvent :=
  events_of fresh (listen (subscription_of (_channel_name channel_parts)) log).

(** [subscribe_multiple] with one pattern, as the dashboard uses it *)
Definition pattern_name (pattern : string) : string := _channel_name (str_split ":" pattern).

Definition subscribe_one (fresh : nat → string * string) (pattern : string) (log : list (string * string))
    : list (string * BaseEvent) :=
  omap id (imap (λ i r, pair (msg_channel r) <$> event_of (fresh i) r) (listen (subscription_of (pattern_name pattern)) log)).

(** ** The streams *)

Inductive sse :=
  | SseConnected (workflow_id : option string)
  | SseEvent (ty : string) (dat : list (pykey * json)) (id : string)
  | SseEnd.

Definition sse_event (e : BaseEvent) : sse := SseEvent (event_type e) (data e) (event_id e).

(** [event.data.get("event") in (...)] *)
Definition terminal (e : BaseEvent) : bool :=
  match dict_get (KStr "event") (data e) with
  | Some (JStr s) => bool_decide (s ∈ ["workflow_completed"; "workflow_failed"; "workflow_cancelled"])
  | _ => false
  end.

Fixpoint until_terminal (es : list BaseEvent) : list sse :=
  match es with
  | [] => []
  | e :: es => sse_event e :: if terminal e then [SseEnd] else until_terminal es
  end.

Definition stream_workflow (fresh : nat → string * string) (workflow_id : uuid) (log : list (string * string)) : list sse :=
  SseConnected (Some (uuid_str workflow_id)) ::
  until_terminal (subscribe fresh ["workflow"; uuid_str workflow_id; "*"] log).

Definition stream_approvals (fresh : nat → string * string) (log : list (string * string)) : list sse :=
  SseConnected None :: map sse_event (subscribe fresh ["approval"; "*"] log).
End bus.

(** ** Names of channels *)

Definition colon_free (s : string) : Prop := str_mem ":" s = false.

Lemma str_join_app c a b ps : str_join (String c "") (a :: b :: ps) = a +:+ String c (str_join (String c "") (b :: ps)).
Proof. by rewrite str_join_cons. Qed.

Lemma plain_app a b : plain (a +:+ b) = plain a && plain b.
Proof. unfold plain. by rewrite str_chars_app, forallb_app. Qed.

Lemma plain_no_star s : plain s = true → str_mem "*" s = false.
Proof.
  induction s as [|c s IH]; [done|]. unfold plain. cbn [str_chars forallb str_mem]. intros [Hc Hs]%andb_true_iff.
  apply orb_false_iff. split; [|by apply IH]. destruct (Ascii.eqb_spec c "*"); [by subst|done].
Qed.

(** The texts of identifiers hold neither colons nor characters of patterns. *)
Definition id_char (c : ascii) : bool := plain_char c && negb (Ascii.eqb c ":").

Lemma hex_digit_id n : (n < 16)%N → id_char (hex_digit n) = true.
Proof.
  intros Hn. destruct n as [|p]; [done|]. do 5 (destruct p as [p|p|]; try done; try (exfalso; lia)).
Qed.

Lemma hex_digits_id len n : Forall (λ c, id_char c = true) (hex_digits len n).
Proof.
  revert n. induction len as [|len IH]; intros n; [constructor|]. cbn [hex_digits]. apply Forall_app. split; [apply IH|].
  constructor; [|constructor]. apply hex_digit_id, N.mod_lt. done.
Qed.

Lemma uuid_str_id u : Forall (λ c, id_char c = true) (str_chars (uuid_str u)).
Proof.
  unfold uuid_str. pose proof (hex_digits_id 32 (uuid_int u)) as Hh. set (h := hex_digits _ _) in *.
  cbn [uuid_groups map str_join]. rewrite !str_chars_app, !str_chars_of.
  repeat (apply Forall_app; split); try (by repeat constructor); auto using Forall_take, Forall_drop.
Qed.

Lemma uuid_str_plain u : plain (uuid_str u) = true.
Proof.
  unfold plain. apply forallb_forall. intros c Hc%list_elem_of_In. pose proof (uuid_str_id u) as Hf.
  rewrite Forall_forall in Hf. by apply Hf, andb_true_iff in Hc as [? _].
Qed.

Lemma str_mem_chars c s : str_mem c s = true → c ∈ str_chars s.
Proof.
  induction s as [|x s IH]; [done|]. cbn [str_mem str_chars]. intros [->%Ascii.eqb_eq|Hs]%orb_true_iff; [left|right; by apply IH].
Qed.

Lemma uuid_str_colon_free u : colon_free (uuid_str u).
Proof.
  apply not_true_is_false. intros Hc%str_mem_chars. pose proof (uuid_str_id u) as Hf. rewrite Forall_forall in Hf.
  by apply Hf in Hc.
Qed.

(** The parts behind the prefix of an entity *)
Definition under (entity id : string) (parts : list string) : bool :=
  match parts with a :: b :: _ :: _ => String.eqb a entity && String.eqb b id | _ => false end.

Lemma channel_under entity id parts :
  colon_free entity → colon_free id → Forall colon_free parts →
  str_startswith ("massclaw:" +:+ entity +:+ ":" +:+ id +:+ ":") (_channel_name parts) = under entity id parts.
Proof.
  intros He Hi Hp. apply eq_true_iff_eq. rewrite str_startswith_true. split.
  - intros [r Hr]. destruct (str_split_spec ":" r) as [Hj Hf].
    assert (str_split ":" r ≠ []) as Hne by apply str_split_max_ne.
    assert (_channel_name parts = str_join ":" ("massclaw" :: entity :: id :: str_split ":" r)) as E.
    { rewrite Hr, !(str_join_cons ":"), Hj by done. by rewrite !str_app_assoc. }
    apply str_join_inj in E; [|done|done|by constructor|by repeat constructor].
    injection E as ->. destruct (str_split ":" r); [done|]. cbn. by rewrite !String.eqb_refl.
  - destruct parts as [|a [|b [|c ps]]]; try done. cbn [under]. intros [->%String.eqb_eq ->%String.eqb_eq]%andb_true_iff.
    exists (str_join ":" (c :: ps)). unfold _channel_name. rewrite !(str_join_cons ":") by done. by rewrite !str_app_assoc.
Qed.

Section laws.
Context `{LawfulPubSub}.

Lemma glob_prefix p c : plain p = true → glob_match (p +:+ "*") c = str_startswith p c.
Proof.
  intros Hp. apply eq_true_iff_eq. pose proof (glob_star p "" c Hp) as Hg. rewrite str_app_nil_r in Hg.
  rewrite Hg, str_startswith_true. setoid_rewrite (glob_plain "" _ eq_refl). split.
  - intros (a&b&->&_). by exists (a +:+ b).
  - intros [a ->]. exists a, "". split; [by rewrite str_app_nil_r|done].
Qed.

Lemma entity_subscription entity id parts :
  colon_free entity → colon_free id → plain entity = true → plain id = true → Forall colon_free parts →
  matches (subscription_of (_channel_name [entity; id; "*"])) (_channel_name parts) = under entity id parts.
Proof.
  intros He Hi Hpe Hpi Hp. set (p := "massclaw:" +:+ entity +:+ ":" +:+ id +:+ ":").
  assert (_channel_name [entity; id; "*"] = p +:+ "*") as ->.
  { unfold _channel_name, p. rewrite !(str_join_cons ":") by done. by rewrite !str_app_assoc. }
  unfold subscription_of. rewrite str_mem_app, orb_true_r. cbn [matches].
  rewrite glob_prefix by (unfold p; by rewrite !plain_app, Hpe, Hpi). by apply channel_under.
Qed.
End laws.

(** ** What a stream delivers *)

(** One call of [publish] *)
Record call := { to_parts : list string; what : BaseEvent; answer : reply }.

Section delivered.
Context `{LawfulPubSub} (float_of_text : string → pyfloat) (dump : BaseEvent → option string).

Definition publish_call (log : list (string * string)) (c : call) : list (string * string) :=
  (publish dump (answer c) (to_parts c) (what c) log).2.

Definition publish_all (calls : list call) (log : list (string * string)) : list (string * string) :=
  foldl publish_call log calls.

(** pydantic writes JSON that [json.loads] reads back as the fields. *)
Definition written (e : BaseEvent) : Prop := ∃ payload, dump e = Some payload ∧ loads float_of_text payload = Ok (event_fields e).

Definition sound_call (c : call) : Prop := Forall colon_free (to_parts c) ∧ written (what c).

Definition went_out (c : call) : bool := sends_out (answer c).

Lemma base_event_fields fresh e : base_event fresh (event_fields e) = Some e.
Proof. by destruct e as [? ? ? [c|] ?]. Qed.

Lemma events_of_cons fresh r rs :
  events_of float_of_text fresh (r :: rs) =
    match event_of float_of_text (fresh 0) r with Some e => [e] | None => [] end ++ events_of float_of_text (fresh ∘ S) rs.
Proof. unfold events_of. cbn [imap omap list_omap]. by destruct (event_of _ _ _). Qed.

Lemma events_of_deliveries fresh rs es :
  Forall2 (λ r e, ∀ f, event_of float_of_text f r = Some e) (List.filter is_delivery rs) es →
  events_of float_of_text fresh rs = es.
Proof.
  revert fresh es. induction rs as [|r rs IH]; intros fresh es; [by inversion 1|]. cbn [List.filter]. rewrite events_of_cons.
  destruct (is_delivery r) eqn:Hd.
  - inversion 1 as [|? e ? es' He Hes]; subst. rewrite He. cbn [app]. f_equal. by apply IH.
  - intros Hes. assert (event_of float_of_text (fresh 0) r = None) as -> by (unfold event_of; by rewrite Hd). by apply IH.
Qed.

Lemma log_of calls log :
  Forall sound_call calls →
  ∃ payloads, Forall2 (λ c p, loads float_of_text p = Ok (event_fields (what c))) (List.filter went_out calls) payloads ∧
    publish_all calls log = log ++ zip_with (λ c p, (_channel_name (to_parts c), p)) (List.filter went_out calls) payloads.
Proof.
  unfold publish_all. intros Hc. revert log. induction Hc as [|c calls [_ (p&Hp&Hl)] _ IH]; intros log.
  { exists []. split; [constructor|by rewrite app_nil_r]. }
  cbn [foldl List.filter].
  assert (publish_call log c = log ++ if went_out c then [(_channel_name (to_parts c), p)] else []) as ->.
  { unfold publish_call, publish, went_out. rewrite Hp. cbn [snd]. destruct (sends_out (answer c)); [done|by rewrite app_nil_r]. }
  destruct (went_out c).
  - destruct (IH (log ++ [(_channel_name (to_parts c), p)])) as (ps&Hf&->). exists (p :: ps).
    split; [by constructor|]. by rewrite <-app_assoc.
  - rewrite app_nil_r. apply IH.
Qed.

Lemma stream_of_calls fresh s P calls :
  Forall sound_call calls →
  (∀ c, c ∈ calls → matches s (_channel_name (to_parts c)) = P (to_parts c)) →
  events_of float_of_text fresh (listen s (publish_all calls [])) =
    map what (List.filter (λ c, went_out c && P (to_parts c)) calls).
Proof.
  intros Hc Hm. destruct (log_of calls [] Hc) as (ps&Hf&->). cbn [app]. apply events_of_deliveries. rewrite listen_delivers.
  assert (∀ c, c ∈ List.filter went_out calls → matches s (_channel_name (to_parts c)) = P (to_parts c)) as Hm'.
  { intros c [Hin _]%list_elem_of_In%filter_In. by apply Hm, list_elem_of_In. }
  assert (List.filter (λ c, went_out c && P (to_parts c)) calls = List.filter (λ c, P (to_parts c)) (List.filter went_out calls)) as ->.
  { clear. induction calls as [|c calls IH]; [done|]. cbn [List.filter]. destruct (went_out c); cbn [andb List.filter]; [|done].
    by destruct (P (to_parts c)); rewrite IH. }
  clear Hm Hc. induction Hf as [|c p cs ps Hp _ IH]; [constructor|]. cbn [zip_with List.filter fst].
  rewrite (Hm' c) by left. assert (∀ c, c ∈ cs → matches s (_channel_name (to_parts c)) = P (to_parts c)) as Hcs
    by (intros; apply Hm'; by right).
  destruct (P (to_parts c)); [|by apply IH]. cbn [map]. constructor; [|by apply IH].
  intros f. unfold event_of, is_delivery, delivery. cbn [msg_type msg_data snd]. rewrite Hp, base_event_fields. by destruct s.
Qed.

(** What was published for one entity *)
Definition published_for (entity id : string) (calls : list call) : list BaseEvent :=
  map what (List.filter (λ c, went_out c && under entity id (to_parts c)) calls).

Lemma subscribe_delivers fresh entity id calls :
  colon_free entity → colon_free id → plain entity = true → plain id = true → Forall sound_call calls →
  subscribe float_of_text fresh [entity; id; "*"] (publish_all calls []) = published_for entity id calls.
Proof.
  intros He Hi Hpe Hpi Hc. unfold subscribe, published_for.
  apply (stream_of_calls fresh _ (under entity id) calls Hc). intros c Hin. apply entity_subscription; try done.
  rewrite Forall_forall in Hc. by apply Hc.
Qed.

(** C40: the stream of a workflow carries the events that were published for this
    workflow while it was open, each once and in the order of publication, with their
    type, data and identifier, and no event of any other workflow; it ends after the
    first that says that the workflow is finished.  What did not go out is
    missing and does not disturb the rest.  The parts of a channel hold no colon,
    and what pydantic writes can be read. *)
Theorem stream_faithful fresh workflow_id calls :
  Forall sound_call calls →
  stream_workflow float_of_text fresh workflow_id (publish_all calls []) =
    SseConnected (Some (uuid_str workflow_id)) :: until_terminal (published_for "workflow" (uuid_str workflow_id) calls) ∧
  (∀ es, (∀ e, e ∈ es → terminal e = false) → until_terminal es = map sse_event es) ∧
  (∀ es e rest, (∀ e, e ∈ es → terminal e = false) → terminal e = true →
     until_terminal (es ++ e :: rest) = map sse_event (es ++ [e]) ++ [SseEnd]).
Proof.
  intros Hc. split_and!.
  - unfold stream_workflow. do 2 f_equal. apply subscribe_delivers; auto using uuid_str_plain, uuid_str_colon_free.
    done.
  - intros es. induction es as [|e es IH]; intros Hes; [done|]. cbn [until_terminal map]. rewrite Hes by left.
    f_equal. apply IH. intros x Hx. apply Hes. by right.
  - intros es e rest Hes He. induction es as [|x es IH]; cbn [app until_terminal map].
    + by rewrite He.
    + rewrite Hes by left. f_equal. apply IH. intros y Hy. apply Hes. by right.
Qed.
(** The approvals page hears of every approval, whatever its workflow. *)
Theorem approvals_stream fresh calls :
  Forall sound_call calls →
  stream_approvals float_of_text fresh (publish_all calls []) =
    SseConnected None :: map sse_event (map what (List.filter (λ c, went_out c &&
      match to_parts c with a :: _ :: _ => String.eqb a "approval" | _ => false end) calls)).
Proof.
  intros Hc. unfold stream_approvals, subscribe. do 2 f_equal.
  apply (stream_of_calls fresh _ (λ ps, match ps with a :: _ :: _ => String.eqb a "approval" | _ => false end) calls Hc).
  intros c Hin. rewrite Forall_forall in Hc. destruct (Hc c Hin) as [Hp _]. change (subscription_of _) with (Pattern ("massclaw:approval:" +:+ "*")).
  cbn [matches]. rewrite glob_prefix by done. apply eq_true_iff_eq. rewrite str_startswith_true. unfold _channel_name. split.
  - intros [r Hr]. destruct (str_split_spec ":" r) as [Hj Hf].
    assert (str_split ":" r ≠ []) as Hne by apply str_split_max_ne.
    assert (str_join ":" ("massclaw" :: to_parts c) = str_join ":" ("massclaw" :: "approval" :: str_split ":" r)) as E.
    { unfold CHANNEL_PREFIX in Hr. rewrite Hr, (str_join_cons ":" "massclaw" ("approval" :: _)), (str_join_cons ":" "approval"), Hj by done.
      done. }
    apply str_join_inj in E; [|done|done|by constructor|by repeat constructor].
    injection E as ->. by destruct (str_split ":" r).
  - destruct (to_parts c) as [|a [|b ps]]; try done. intros ->%String.eqb_eq. exists (str_join ":" (b :: ps)).
    rewrite !(str_join_cons ":") by done. done.
Qed.

(** A stream ends by itself only with one of the three names, of which the program
    publishes the first alone: the stream of a workflow that fails or is cancelled
    stays open. *)
Lemma unfinished_stream_open es : SseEnd ∈ until_terminal es → ∃ e, e ∈ es ∧ terminal e = true.
Proof.
  induction es as [|e es IH]; cbn [until_terminal]; [by intros ?%elem_of_nil|]. intros [[=]|H1]%elem_of_cons.
  destruct (terminal e) eqn:He; [exists e; split; [left|done]|]. destruct (IH H1) as (x&Hx&Hxt). exists x. split; [by right|done].
Qed.
End delivered.

(** ** A matcher to evaluate the definitions with

    It knows the star only, as the channels of the program do. *)

Fixpoint star_glob (p : string) : string → bool :=
  match p with
  | EmptyString => str_empty
  | String c p =>
      if Ascii.eqb c "*" then
        fix any s := star_glob p s || match s with String _ s => any s | EmptyString => false end
      else λ s, match s with String d s => Ascii.eqb c d && star_glob p s | EmptyString => false end
  end.

#[export] Instance toy_pubsub : PubSub := {|
  glob_match := star_glob;
  listen s log :=
    {| msg_type := match s with Channel _ => TSubscribe | Pattern _ => TPsubscribe end;
       msg_channel := match s with Channel c => c | Pattern p => p end; msg_data := "1" |} ::
    map (delivery s) (List.filter (λ m, match s with Channel name => String.eqb name m.1 | Pattern p => star_glob p m.1 end) log) |}.

Lemma star_any q c : star_glob (String "*" q) c = true ↔ ∃ a b, c = a +:+ b ∧ star_glob q b = true.
Proof.
  induction c as [|x c IH]; cbn; rewrite orb_true_iff.
  - split; [intros [Hq|]; [by exists "", ""|done]|]. intros ([|? ?]&b&E&Hb); [left; by rewrite str_app_nil_l in E; subst|done].
  - change ((fix any s := star_glob q s || match s with String _ s => any s | EmptyString => false end) c)
      with (star_glob (String "*" q) c). rewrite IH. split.
    + intros [Hq|(a&b&->&Hb)]; [by exists "", (String x c)|]. by exists (String x a), b.
    + intros ([|y a]&b&E&Hb); [left; rewrite str_app_nil_l in E; by subst|]. rewrite str_app_cons in E.
      injection E as <- ->. right. by exists a, b.
Qed.

Lemma plain_cons c p : plain (String c p) = true → Ascii.eqb c "*" = false ∧ plain p = true.
Proof.
  unfold plain. cbn [str_chars forallb]. intros [Hc Hp]%andb_true_iff. split; [|done].
  destruct (Ascii.eqb_spec c "*"); [by subst|done].
Qed.

#[export] Instance toy_pubsub_lawful : LawfulPubSub.
Proof.
  split; cbn [glob_match listen toy_pubsub].
  - induction p as [|x p IH]; intros c Hp; cbn [star_glob]; [rewrite str_empty_true; naive_solver|].
    apply plain_cons in Hp as [-> Hp]. destruct c as [|y c]; [done|]. rewrite andb_true_iff, Ascii.eqb_eq, (IH c Hp). naive_solver.
  - induction p as [|x p IH]; intros q c Hp.
    + rewrite str_app_nil_l. change ("*" +:+ q) with (String "*" q). rewrite star_any. by setoid_rewrite str_app_nil_l.
    + apply plain_cons in Hp as [Hx Hp]. rewrite str_app_cons. cbn [star_glob]. rewrite Hx. destruct c as [|y c].
      * split; [done|]. by intros (a&b&E&_).
      * rewrite andb_true_iff, Ascii.eqb_eq, (IH q c Hp). split.
        -- intros [<- (a&b&->&Hb)]. by exists a, b.
        -- intros (a&b&E&Hb). rewrite str_app_cons in E. injection E as -> ->. split; [done|]. by exists a, b.
  - intros s log. cbn [List.filter]. assert (∀ m, match s with Channel name => String.eqb name m | Pattern p => star_glob p m end = matches s m) as E
      by (by destruct s). assert (List.filter is_delivery [] = []) as E0 by done.
    destruct s as [name|p]; cbn [is_delivery msg_type matches glob_match toy_pubsub]; apply filter_all;
      intros r (m&<-&_)%list_elem_of_In%in_map_iff; done.
Qed.

Definition toy_event (name : string) : BaseEvent :=
  {| event_id := "e1"; event_type := "workflow." +:+ name; timestamp := "t"; correlation_id := None;
     data := [(KStr "event", JStr name)] |}.

Definition toy_dump (e : BaseEvent) : option string :=
  match data e with
  | [(KStr "event", JStr name)] =>
      Some (quoted ("{'event_id':'e1','event_type':'workflow." +:+ name +:+
        "','timestamp':'t','correlation_id':null,'data':{'event':'" +:+ name +:+ "'}}"))
  | _ => None
  end.

Definition toy_calls : list call := [
  {| to_parts := ["workflow"; uuid_str (UUID 1); "progress"]; what := toy_event "task_started"; answer := Answered 1 |};
  {| to_parts := ["workflow"; uuid_str (UUID 2); "progress"]; what := toy_event "task_failed"; answer := Answered 0 |};
  {| to_parts := ["workflow"; uuid_str (UUID 1); "progress"]; what := toy_event "task_completed"; answer := Raised false |};
  {| to_parts := ["workflow"; uuid_str (UUID 1); "progress"]; what := toy_event "workflow_completed"; answer := Raised true |};
  {| to_parts := ["workflow"; uuid_str (UUID 1); "progress"]; what := toy_event "task_started"; answer := Answered 1 |} ].

Lemma stream_faithful_witness :
  stream_workflow (λ _, FNonFinite) (λ _, ("", "")) (UUID 1) (publish_all toy_dump toy_calls []) =
    [SseConnected (Some (uuid_str (UUID 1))); sse_event (toy_event "task_started");
     sse_event (toy_event "workflow_completed"); SseEnd].
Proof.
  assert (Forall (sound_call (λ _, FNonFinite) toy_dump) toy_calls) as Hc.
  { repeat constructor; eexists; (split; [vm_compute; reflexivity|vm_compute; reflexivity]). }
  rewrite (proj1 (stream_faithful (λ _, FNonFinite) toy_dump (λ _, ("", "")) (UUID 1) toy_calls Hc)).
  vm_compute. reflexivity.
Defined.
