(* ===== verification/WebSocket.v ===== *)
(** * WebSocket: connections for live progress

    Models [api/websocket.py] on the bus of Events.v: the registry of connections,
    the commands of a client, a session of the endpoint, the bridge from the bus and
    the stream of the dashboard.  A socket is a number.  The registry runs on one
    event loop and nothing else runs between the sends of one broadcast; heartbeats
    are timers and not modelled. *)

From Stdlib Require Import Ascii NArith ZArith Lia.
From stdpp Require Import base tactics strings gmap list.
From S2P Require Import Prelude PyStr Dict PyVal Json JsonLoads Uuid Events.

(** ** ConnectionManager *)

Abbreviation socket := nat (only parsing).
Abbreviation manager := (gmap string (gset nat)).

Definition total_connections (m : manager) : nat := map_fold (λ _ conns n, size conns + n) 0 m.

Definition get_workflow_connections (wid : string) (m : manager) : nat := size (default ∅ (m !! wid)).

(** The registration of [connect]; accepting and greeting are steps of the session. *)
Definition register (wid : string) (s : socket) (m : manager) : manager :=
  <[wid := {[s]} ∪ default ∅ (m !! wid)]> m.

Definition _discard (wid : string) (s : socket) (m : manager) : manager :=
  match m !! wid with
  | None => m
  | Some conns =>
      let conns := conns ∖ {[s]} in
      if decide (conns = ∅) then delete wid m else <[wid := conns]> m
  end.

Definition disconnect (s : socket) (wid : string) (m : manager) : manager := _discard wid s m.

(** [alive s]: sending to the socket does not raise *)
Definition broadcast_to_workflow (alive : socket → bool) (wid : string) (m : manager) : manager :=
  let dead := List.filter (λ s, negb (alive s)) (elements (default ∅ (m !! wid))) in
  foldl (λ m s, _discard wid s m) m dead.

Definition broadcast_all (alive : socket → bool) (m : manager) : manager :=
  foldl (λ m wid, broadcast_to_workflow alive wid m) m (map fst (map_to_list m)).

Record Status := { s_total : nat; s_workflows : gmap string nat }.

Definition get_status (m : manager) : Status := {| s_total := total_connections m; s_workflows := size <$> m |}.

(** ** The endpoint *)

Inductive frame :=
  | Connected (wid : string)
  | EventFrame (event_id event_type timestamp : string) (data : list (pykey * json))
  | Pong
  | Ack (action : string)
  | StatusFrame (st : Status)
  | InvalidJSON
  | UnknownAction (action : json).

(** What is published: the parts of the channel, the type and the data *)
Record command := { c_parts : list string; c_type : string; c_data : list (pykey * json) }.

(** [AttributeError] of [msg.get], and the [ValueError] of a number that is too long *)
Inductive ws_exn := AttributeError | ValueError.

Definition workflow_command (wid action : string) : command := {|
  c_parts := ["workflow"; wid; "command"]; c_type := "workflow.command." +:+ action;
  c_data := [(KStr "workflow_id", JStr wid); (KStr "command", JStr action)] |}.

Section endpoint.
Context (float_of_text : string → pyfloat).

(** What is published, and then the frame of the answer *)
Definition _handle_client_message (wid raw : string) (m : manager) : res ws_exn (list command * frame) :=
  match loads float_of_text raw with
  | Err JSONDecodeError => Ok ([], InvalidJSON)
  | Err _ => Err ValueError
  | Ok (JObj msg) =>
      let action := default (JStr "") (dict_get (KStr "action") msg) in
      match action with
      | JStr "ping" => Ok ([], Pong)
      | JStr "pause" => Ok ([workflow_command wid "pause"], Ack "pause")
      | JStr "cancel" => Ok ([workflow_command wid "cancel"], Ack "cancel")
      | JStr "status" => Ok ([], StatusFrame (get_status m))
      | _ => Ok ([], UnknownAction action)
      end
  | Ok _ => Err AttributeError
  end.

(** What the client does: a text, to which the answer can be sent or not; its end *)
Inductive ws_input := Text (raw : string) (answered : bool) | Gone.

(** The receiving loop.  It ends with the client, with an exception, and in the model
    with the inputs. *)
Fixpoint receive_loop (wid : string) (inputs : list ws_input) (m : manager) : list command * list frame :=
  match inputs with
  | [] | Gone :: _ => ([], [])
  | Text raw answered :: inputs =>
      match _handle_client_message wid raw m with
      | Err _ => ([], [])
      | Ok (commands, answer) =>
          if answered then
            let '(cs, fs) := receive_loop wid inputs m in (commands ++ cs, answer :: fs)
          else (commands, [])
      end
  end.

(** A session alone on the loop: what it publishes, what it answers, the registry
    afterwards; [accepted] and [greeted] say whether accepting and the first send
    succeed. *)
Definition workflow_websocket (wid : string) (s : socket) (accepted greeted : bool) (inputs : list ws_input) (m : manager)
    : list command * list frame * manager :=
  if negb accepted then ([], [], m)
  else
    let m := register wid s m in
    if negb greeted then ([], [], m)
    else
      let '(commands, frames) := receive_loop wid inputs m in
      (commands, Connected wid :: frames, disconnect s wid m).
End endpoint.

Definition event_frame (e : BaseEvent) : frame := EventFrame (event_id e) (event_type e) (timestamp e) (data e).

(** The bridge stops at the first send that fails. *)
Fixpoint forward {A B} (f : A → B) (sends : nat → bool) (es : list A) : list B :=
  match es with
  | [] => []
  | e :: es => if sends 0 then f e :: forward f (sends ∘ S) es else []
  end.

Section bridge.
Context `{PubSub} (float_of_text : string → pyfloat).

Definition _bridge_pubsub_to_ws (fresh : nat → string * string) (wid : string) (sends : nat → bool) (log : list (string * string))
    : list frame :=
  forward event_frame sends (subscribe float_of_text fresh ["workflow"; wid; "*"] log).

Definition dashboard_websocket (fresh : nat → string * string) (sends : nat → bool) (log : list (string * string))
    : list (string * frame) :=
  forward (λ ce, (ce.1, event_frame ce.2)) sends (subscribe_one float_of_text fresh "*" log).
End bridge.

(** ** The registry is a set of pairs *)

(** The registry holds exactly the pairs, and no workflow without a connection. *)
Definition represents (m : manager) (P : gset (string * nat)) : Prop :=
  (∀ wid s, (wid, s) ∈ P ↔ s ∈ default ∅ (m !! wid)) ∧ ∀ wid, m !! wid ≠ Some ∅.

Lemma lookup_set_insert wid wid' (S : gset nat) (m : manager) :
  default ∅ (<[wid := S]> m !! wid') = if decide (wid = wid') then S else default ∅ (m !! wid').
Proof. destruct (decide (wid = wid')) as [->|]; [by rewrite lookup_insert_eq|by rewrite lookup_insert_ne]. Qed.

Lemma lookup_set_delete wid wid' (m : manager) :
  default ∅ (delete wid m !! wid') = if decide (wid = wid') then ∅ else default ∅ (m !! wid').
Proof. destruct (decide (wid = wid')) as [->|]; [by rewrite lookup_delete_eq|by rewrite lookup_delete_ne]. Qed.

Lemma register_represents wid s m P : represents m P → represents (register wid s m) ({[(wid, s)]} ∪ P).
Proof.
  intros [Hp Hn]. unfold register. split.
  - intros wid' s'. rewrite lookup_set_insert. case_decide as Hw; [subst wid'|]; set_solver.
  - intros wid'. destruct (decide (wid = wid')) as [->|]; [rewrite lookup_insert_eq|by rewrite lookup_insert_ne]. intros [= E]. set_solver.
Qed.

Lemma discard_represents wid s m P : represents m P → represents (_discard wid s m) (P ∖ {[(wid, s)]}).
Proof.
  intros [Hp Hn]. unfold _discard. destruct (m !! wid) as [conns|] eqn:E.
  - assert (∀ s', (wid, s') ∈ P ↔ s' ∈ conns) as Hc by (intros; by rewrite Hp, E). case_decide as Hs; split.
    + intros wid' s'. rewrite lookup_set_delete. specialize (Hp wid' s'). case_decide as Hw; [subst wid'|]; set_solver.
    + intros wid'. destruct (decide (wid = wid')) as [->|]; [by rewrite lookup_delete_eq|by rewrite lookup_delete_ne].
    + intros wid' s'. rewrite lookup_set_insert. specialize (Hp wid' s'). case_decide as Hw; [subst wid'|]; set_solver.
    + intros wid'. destruct (decide (wid = wid')) as [->|]; [rewrite lookup_insert_eq; congruence|by rewrite lookup_insert_ne].
  - assert ((wid, s) ∉ P) as Hs by (rewrite Hp, E; set_solver). by assert (P ∖ {[(wid, s)]} = P) as -> by set_solver.
Qed.

Lemma discards_represent wid dead m P :
  represents m P → represents (foldl (λ m s, _discard wid s m) m dead) (P ∖ list_to_set (map (pair wid) dead)).
Proof.
  revert m P. induction dead as [|s dead IH]; intros m P H; cbn [foldl map list_to_set].
  - by assert (P ∖ ∅ = P) as -> by set_solver.
  - replace (P ∖ ({[(wid, s)]} ∪ list_to_set (map (pair wid) dead))) with
      (P ∖ {[(wid, s)]} ∖ list_to_set (map (pair wid) dead)) by set_solver.
    apply IH. by apply discard_represents.
Qed.

Lemma broadcast_represents alive wid m P :
  represents m P → represents (broadcast_to_workflow alive wid m) (filter (λ p, p.1 = wid → alive p.2 = true) P).
Proof.
  intros H. pose proof H as [Hp _]. unfold broadcast_to_workflow. set (dead := List.filter _ _).
  assert (filter (λ p : string * nat, p.1 = wid → alive p.2 = true) P = P ∖ list_to_set (map (pair wid) dead)) as ->;
    [|by apply discards_represent].
  assert (∀ s, s ∈ dead ↔ (wid, s) ∈ P ∧ alive s = false) as Hd.
  { intros s. unfold dead. rewrite list_elem_of_In, filter_In, <-list_elem_of_In, elem_of_elements, Hp, negb_true_iff. done. }
  apply set_eq. intros [wid' s]. rewrite elem_of_filter, elem_of_difference, elem_of_list_to_set, list_elem_of_fmap. cbn [fst snd].
  setoid_rewrite Hd. split.
  - intros [Ha Hs]. split; [done|]. intros (s'&[= -> ->]&_&Hf). by rewrite Ha in Hf.
  - intros [Hs Hno]. split; [|done]. intros ->. destruct (alive s) eqn:Ha; [done|]. exfalso. apply Hno. by exists s.
Qed.

(** One call on the registry, and what it does to the pairs *)
Inductive registry_op :=
  | Register (wid : string) (s : socket)
  | Disconnect (wid : string) (s : socket)
  | Broadcast (alive : socket → bool) (wid : string)
  | BroadcastAll (alive : socket → bool).

Definition perform (m : manager) (o : registry_op) : manager :=
  match o with
  | Register wid s => register wid s m
  | Disconnect wid s => disconnect s wid m
  | Broadcast alive wid => broadcast_to_workflow alive wid m
  | BroadcastAll alive => broadcast_all alive m
  end.

Definition abstract_op (P : gset (string * nat)) (o : registry_op) : gset (string * nat) :=
  match o with
  | Register wid s => {[(wid, s)]} ∪ P
  | Disconnect wid s => P ∖ {[(wid, s)]}
  | Broadcast alive wid => filter (λ p, p.1 = wid → alive p.2 = true) P
  | BroadcastAll alive => filter (λ p, alive p.2 = true) P
  end.

Lemma broadcasts_represent alive wids m P :
  represents m P →
  represents (foldl (λ m wid, broadcast_to_workflow alive wid m) m wids) (filter (λ p, p.1 ∈ wids → alive p.2 = true) P).
Proof.
  revert m P. induction wids as [|wid wids IH]; intros m P H; cbn [foldl].
  - by assert (filter (λ p : string * nat, p.1 ∈ [] → alive p.2 = true) P = P) as -> by (apply set_eq; intros p; rewrite elem_of_filter; set_solver).
  - apply (broadcast_represents alive wid), (IH _ _) in H.
    assert (filter (λ p : string * nat, p.1 ∈ wid :: wids → alive p.2 = true) P =
      filter (λ p, p.1 ∈ wids → alive p.2 = true) (filter (λ p, p.1 = wid → alive p.2 = true) P)) as ->; [|done].
    apply set_eq. intros p. rewrite !elem_of_filter, elem_of_cons. naive_solver.
Qed.

Lemma perform_represents o m P : represents m P → represents (perform m o) (abstract_op P o).
Proof.
  intros H. destruct o as [wid s|wid s|alive wid|alive]; cbn [perform abstract_op].
  - by apply register_represents.
  - by apply discard_represents.
  - by apply broadcast_represents.
  - unfold broadcast_all. pose proof (broadcasts_represent alive (map fst (map_to_list m)) m P H) as Hb.
    assert (filter (λ p : string * nat, alive p.2 = true) P = filter (λ p, p.1 ∈ map fst (map_to_list m) → alive p.2 = true) P) as ->; [|done].
    apply set_eq. intros [wid s]. rewrite !elem_of_filter. cbn [fst snd]. split; [naive_solver|]. intros [Ha Hs]. split; [|done]. apply Ha.
    destruct H as [Hp _]. apply Hp in Hs. destruct (m !! wid) as [S|] eqn:E; [|cbn in Hs; set_solver].
    apply list_elem_of_fmap. exists (wid, S). split; [done|]. by apply elem_of_map_to_list.
Qed.

Lemma total_represents m P : represents m P → total_connections m = size P.
Proof.
  revert P. unfold total_connections. induction m as [|wid S m Hm Hf IH] using map_first_key_ind; intros P [Hp Hn].
  - rewrite map_fold_empty. symmetry. apply size_empty_iff. intros [wid s]. rewrite Hp, lookup_empty. set_solver.
  - rewrite (map_fold_insert_first_key _ _ _ _ _ Hm Hf).
    assert (represents m (P ∖ set_map (pair wid) S)) as Hr.
    { split.
      - intros wid' s. specialize (Hp wid' s). rewrite elem_of_difference, Hp, lookup_set_insert, elem_of_map.
        case_decide as Hw; [subst wid'; rewrite Hm; set_solver|]. split; [by intros [? _]|]. intros Hs. split; [done|]. naive_solver.
      - intros wid'. specialize (Hn wid'). destruct (decide (wid = wid')) as [<-|]; [by rewrite Hm|]. by rewrite lookup_insert_ne in Hn. }
    rewrite (IH _ Hr).
    assert (set_map (pair wid) S ⊆ P) as Hsub.
    { intros [wid' s] (s'&[= -> ->]&Hs)%elem_of_map. apply Hp. rewrite lookup_insert_eq. done. }
    assert (size (set_map (C := gset nat) (D := gset (string * nat)) (pair wid) S) = size S) as Es.
    { unfold set_map. rewrite size_list_to_set; [by rewrite length_fmap|]. apply NoDup_fmap_2; [by intros ?? [=]|apply NoDup_elements]. }
    rewrite size_difference by done. apply subseteq_size in Hsub. lia.
Qed.

Lemma run_represents ops m P : represents m P → represents (foldl perform m ops) (foldl abstract_op P ops).
Proof.
  revert m P. induction ops as [|o ops IH]; intros m P H; [done|]. cbn [foldl]. apply IH. by apply perform_represents.
Qed.

(** The registry of connections is a set of pairs of a workflow and a socket.  After
    any calls of its operations from the empty registry, its entries are those pairs:
    registering adds one, disconnecting removes one, a broadcast removes the sockets
    it could not reach among those it was sent to.  No workflow without a connection
    keeps an entry, and the reported total is the number of pairs. *)
Theorem registry_refines ops :
  let m := foldl perform ∅ ops in let P := foldl abstract_op ∅ ops in
  (∀ wid s, s ∈ default ∅ (m !! wid) ↔ (wid, s) ∈ P) ∧
  (∀ wid, is_Some (s_workflows (get_status m) !! wid) ↔ ∃ s, (wid, s) ∈ P) ∧
  (∀ wid n, s_workflows (get_status m) !! wid = Some n → 0 < n) ∧
  s_total (get_status m) = size P.
Proof.
  intros m P. assert (represents m P) as H.
  { assert (represents ∅ ∅) as H0 by (split; [intros; rewrite lookup_empty; set_solver|intros; by rewrite lookup_empty]).
    by apply run_represents. }
  pose proof H as [Hp Hn]. cbn [get_status s_workflows s_total]. split_and!.
  - intros wid s. by rewrite Hp.
  - intros wid. rewrite lookup_fmap, fmap_is_Some. split.
    + intros [S HS]. destruct (set_choose_or_empty S) as [[s Hs]|He].
      * exists s. by rewrite Hp, HS.
      * apply leibniz_equiv in He. subst S. by destruct (Hn wid).
    + intros [s Hs%Hp]. destruct (m !! wid) as [S|]; [by eexists|cbn in Hs; set_solver].
  - intros wid n. rewrite lookup_fmap. destruct (m !! wid) as [S|] eqn:E; [|done]. intros [= <-].
    destruct (decide (size S = 0)) as [H0%size_empty_inv|]; [|lia]. apply leibniz_equiv in H0. subst S. by destruct (Hn wid).
  - by apply total_represents.
Qed.

(** ** Sessions *)

Lemma discard_register wid s (m : manager) :
  m !! wid ≠ Some ∅ → s ∉ default ∅ (m !! wid) → _discard wid s (register wid s m) = m.
Proof.
  intros Hn Hs. unfold _discard, register. rewrite lookup_insert_eq.
  assert (({[s]} ∪ default ∅ (m !! wid)) ∖ {[s]} = default ∅ (m !! wid)) as -> by set_solver.
  case_decide as He.
  - rewrite delete_insert_eq. apply delete_id. destruct (m !! wid) as [S|]; [cbn in He; by subst|done].
  - rewrite insert_insert_eq. destruct (m !! wid) as [S|] eqn:E; [by apply insert_id|done].
Qed.

(** A session that could be greeted leaves the registry as it found it, whatever the
    client does and however it ends. *)
Theorem session_leaves_nothing float_of_text wid s inputs m :
  m !! wid ≠ Some ∅ → s ∉ default ∅ (m !! wid) →
  (workflow_websocket float_of_text wid s true true inputs m).2 = m.
Proof.
  intros Hn Hs. unfold workflow_websocket. cbn [negb]. destruct (receive_loop _ _ _ _) as [cs fs]. cbn [snd].
  by apply discard_register.
Qed.

Lemma session_leaves_nothing_witness :
  (workflow_websocket (λ _, FNonFinite) "w" 7 true true [Text "[]" true; Gone] {["w" := {[3]}]}).2 = {["w" := {[3]}]}.
Proof.
  apply (session_leaves_nothing (λ _, FNonFinite) "w" 7 [Text "[]" true; Gone] {["w" := {[3]}]}).
  - vm_compute. intros [=].
  - apply (bool_decide_eq_true_1 (7 ∉ _)). vm_compute. reflexivity.
Defined.

(** A greeting that fails raises before the block that cleans up: the socket stays. *)
Lemma ungreeted_stays float_of_text wid s inputs m :
  s ∈ default ∅ ((workflow_websocket float_of_text wid s true false inputs m).2 !! wid).
Proof. unfold workflow_websocket. cbn [negb snd]. unfold register. rewrite lookup_insert_eq. cbn. set_solver. Qed.

(** A text that is JSON but no object is not answered; it ends the session. *)
Example list_ends_session :
  receive_loop (λ _, FNonFinite) "w" [Text "[]" true; Text (quoted "{'action':'ping'}") true] ∅ = ([], []) ∧
  receive_loop (λ _, FNonFinite) "w" [Text "[" true; Text (quoted "{'action':'ping'}") true] ∅ = ([], [InvalidJSON; Pong]).
Proof. vm_compute. done. Qed.

(** ** What a client sees *)

Lemma forward_prefix {A B} (f : A → B) sends es : ∃ k, forward f sends es = take k (map f es) ∧ ((∀ i, sends i = true) → k = length es).
Proof.
  revert sends. induction es as [|e es IH]; intros sends; [by exists 0|]. cbn [forward].
  destruct (sends 0) eqn:E0; [|exists 0; split; [done|]; intros H; by rewrite H in E0].
  destruct (IH (sends ∘ S)) as (k&->&Hk). exists (S k). split; [done|]. intros H. cbn. f_equal. apply Hk. intros. apply H.
Qed.

Section seen.
Context `{LawfulPubSub} (float_of_text : string → pyfloat) (dump : BaseEvent → option string).

(** The bridge of a workflow forwards what was published for it, in order, up to the
    first frame that cannot be sent. *)
Theorem bridge_forwards fresh u sends calls :
  Forall (sound_call float_of_text dump) calls →
  ∃ k, _bridge_pubsub_to_ws float_of_text fresh (uuid_str u) sends (publish_all dump calls []) =
      take k (map event_frame (published_for "workflow" (uuid_str u) calls)) ∧
    ((∀ i, sends i = true) → k = length (published_for "workflow" (uuid_str u) calls)).
Proof.
  intros Hc. unfold _bridge_pubsub_to_ws. rewrite (subscribe_delivers float_of_text dump);
    auto using uuid_str_plain, uuid_str_colon_free; [|done]. apply forward_prefix.
Qed.

Definition any_workflow (parts : list string) : bool :=
  match parts with a :: _ :: _ :: _ => String.eqb a "workflow" | _ => false end.

(** The identifier in the path is any text and goes into the pattern: the client of
    [/ws/workflows/*] hears every workflow. *)
Theorem star_hears_all fresh calls :
  Forall (sound_call float_of_text dump) calls →
  _bridge_pubsub_to_ws float_of_text fresh "*" (λ _, true) (publish_all dump calls []) =
    map event_frame (map what (List.filter (λ c, went_out c && any_workflow (to_parts c)) calls)).
Proof.
  intros Hc. unfold _bridge_pubsub_to_ws, subscribe.
  rewrite (stream_of_calls float_of_text dump fresh _ any_workflow calls Hc).
  { destruct (forward_prefix event_frame (λ _, true) (map what (List.filter (λ c, went_out c && any_workflow (to_parts c)) calls))) as (k&->&Hk).
    rewrite Hk by done. rewrite <-(length_map event_frame). apply firstn_all. }
  intros c Hin. rewrite Forall_forall in Hc. destruct (Hc c Hin) as [Hp _].
  change (subscription_of _) with (Pattern ("massclaw:workflow:" +:+ "*" +:+ ":*")). cbn [matches].
  apply eq_true_iff_eq. rewrite glob_star by done. unfold _channel_name. split.
  - intros (a&b&Hab&Hb). change ":*" with (":" +:+ "*") in Hb. rewrite glob_prefix in Hb by done.
    apply str_startswith_true in Hb as [r ->]. destruct (str_split_spec ":" (a +:+ ":" +:+ r)) as [Hj Hf].
    assert (str_split ":" (a +:+ ":" +:+ r) ≠ []) as Hne by apply str_split_max_ne.
    assert (to_parts c = "workflow" :: str_split ":" (a +:+ ":" +:+ r)) as ->.
    { cut ("massclaw" :: to_parts c = "massclaw" :: "workflow" :: str_split ":" (a +:+ ":" +:+ r)); [by intros [= ->]|].
      eapply (str_join_inj ":"); [done|done|by constructor|by repeat constructor|].
      unfold CHANNEL_PREFIX in Hab. by rewrite Hab, (str_join_cons ":" "massclaw" ("workflow" :: _)), (str_join_cons ":" "workflow"), Hj by done. }
    destruct (str_split ":" _) as [|x [|y l]] eqn:Es; [done| |done]. exfalso. cbn [str_join] in Hj. rewrite Hj in Hf.
    apply Forall_inv in Hf. by rewrite !str_mem_app, orb_true_r in Hf.
  - unfold any_workflow. destruct (to_parts c) as [|x [|y [|z l]]]; try done. intros ->%String.eqb_eq.
    exists y, (":" +:+ str_join ":" (z :: l)). split; [|change ":*" with (":" +:+ "*"); by rewrite glob_prefix, str_startswith_app].
    by rewrite !(str_join_cons ":") by done.
Qed.
Lemma subscribe_one_events fresh pattern log :
  map snd (subscribe_one float_of_text fresh pattern log) =
    events_of float_of_text fresh (listen (subscription_of (pattern_name pattern)) log).
Proof.
  unfold subscribe_one, events_of. generalize (listen (subscription_of (pattern_name pattern)) log). intros rs. revert fresh.
  induction rs as [|r rs IH]; intros fresh; [done|]. cbn [imap omap list_omap id].
  destruct (event_of float_of_text (fresh 0) r); cbn [fmap option_fmap option_map map]; [f_equal|]; apply IH.
Qed.

(** The dashboard hears everything that goes out. *)
Theorem dashboard_hears_all fresh calls :
  Forall (sound_call float_of_text dump) calls → Forall (λ c, to_parts c ≠ []) calls →
  map snd (dashboard_websocket float_of_text fresh (λ _, true) (publish_all dump calls [])) =
    map event_frame (map what (List.filter went_out calls)).
Proof.
  intros Hc Hne. unfold dashboard_websocket.
  destruct (forward_prefix (λ ce : string * BaseEvent, (ce.1, event_frame ce.2)) (λ _, true)
    (subscribe_one float_of_text fresh "*" (publish_all dump calls []))) as (k&->&Hk).
  rewrite (Hk (λ _, eq_refl)), <-(length_map (λ ce : string * BaseEvent, (ce.1, event_frame ce.2))), firstn_all, map_map.
  cbn [snd]. rewrite <-(map_map snd event_frame), subscribe_one_events. f_equal.
  rewrite (stream_of_calls float_of_text dump fresh _ (λ ps, negb (bool_decide (ps = []))) calls Hc).
  - f_equal. apply filter_ext_in. intros c Hin%list_elem_of_In. rewrite Forall_forall in Hne. specialize (Hne c Hin).
    rewrite (bool_decide_eq_false_2 (to_parts c = [])) by done. apply andb_true_r.
  - intros c Hin. rewrite Forall_forall in Hne. specialize (Hne c Hin). rewrite (bool_decide_eq_false_2 (to_parts c = [])) by done.
    change (subscription_of _) with (Pattern ("massclaw:" +:+ "*")). cbn [matches negb]. rewrite glob_prefix by done.
    apply str_startswith_true. unfold _channel_name. exists (str_join ":" (to_parts c)). by rewrite (str_join_cons ":").
Qed.
End seen.

(** The client of the star among two workflows *)
Example star_sees_two :
  _bridge_pubsub_to_ws (λ _, FNonFinite) (λ _, ("", "")) "*" (λ _, true) (publish_all toy_dump (take 2 toy_calls) []) =
    [event_frame (toy_event "task_started"); event_frame (toy_event "task_failed")].
Proof. vm_compute. reflexivity. Qed.
