(* ===== verification/MessageBus.v ===== *)
(** * MessageBus: messages between agents

    Models [protocols/message_bus.py] and the message of [protocols/base.py] over the
    publish/subscribe class of Events.v.  A dataclass does not check the types of its
    fields, so a message that was received holds any JSON; [dumps] is [json.dumps],
    whose text is ASCII.  A wait ends with the messages that arrive before its
    timeout. *)

From Stdlib Require Import Ascii NArith ZArith Lia.
From stdpp Require Import base tactics strings gmap list.
From S2P Require Import Prelude PyStr Dict PyVal Json JsonLoads Events.

Record AgentMessage := {
  sender_id : json;
  channel : json;
  content : json;
  message_type : json;
  recipient_id : json;
  message_id : json;
  timestamp : json;
  correlation_id : json;
  metadata : json;
}.

(** The fields in the order of [dataclasses.asdict] *)
Definition field_names : list string :=
  ["sender_id"; "channel"; "content"; "message_type"; "recipient_id"; "message_id"; "timestamp"; "correlation_id"; "metadata"].

Definition _message_to_dict (msg : AgentMessage) : json :=
  JObj (zip (map KStr field_names)
    [sender_id msg; channel msg; content msg; message_type msg; recipient_id msg; message_id msg; timestamp msg;
     correlation_id msg; metadata msg]).

Definition opt_str (o : option string) : json := match o with Some s => JStr s | None => JNull end.

(** [AgentMessage] applied to the keywords: those without a default are there, and no
    other name *)
Definition _message_from_dict (fresh : string * string) (v : json) : option AgentMessage :=
  match v with
  | JObj d =>
      if forallb (λ k, bool_decide (k ∈ map KStr field_names)) (map fst d) then
        let get name := dict_get (KStr name) d in
        s ← get "sender_id"; ch ← get "channel"; co ← get "content"; ty ← get "message_type";
        Some {| sender_id := s; channel := ch; content := co; message_type := ty;
                recipient_id := default JNull (get "recipient_id");
                message_id := default (JStr fresh.1) (get "message_id");
                timestamp := default (JStr fresh.2) (get "timestamp");
                correlation_id := default JNull (get "correlation_id");
                metadata := default (JObj []) (get "metadata") |}
      else None
  | _ => None
  end.

Definition _DIRECT_CHANNEL_PREFIX : string := "massclaw:agent:direct:".
Definition _CAPABILITY_CHANNEL_PREFIX : string := "massclaw:agent:capability:".

Definition direct (agent_id : string) : string := _DIRECT_CHANNEL_PREFIX +:+ agent_id.

(** A message as the bus builds it; [fresh] is its identifier and time *)
Definition new_message (fresh : string * string) (sender : string) (recipient : option string) (ch text ty : string)
    (cid : option string) : AgentMessage := {|
  sender_id := JStr sender; channel := JStr ch; content := JStr text; message_type := JStr ty;
  recipient_id := opt_str recipient; message_id := JStr fresh.1; timestamp := JStr fresh.2;
  correlation_id := opt_str cid; metadata := JObj [] |}.

Inductive bus_exn := MessageTooLarge | TimeoutError.

Abbreviation pub_log := (list (string * string)).

Section bus.
Context `{PubSub} (float_of_text : string → pyfloat) (dumps : json → string).

Definition payload_of (msg : AgentMessage) : string := dumps (_message_to_dict msg).

Definition send_direct (max_size : Z) (fresh : string * string) (sender recipient text : string) (cid : option string) (log : pub_log)
    : res bus_exn (AgentMessage * pub_log) :=
  let msg := new_message fresh sender (Some recipient) (direct recipient) text "request" cid in
  raise_if (max_size <? Z.of_nat (String.length (payload_of msg)))%Z MessageTooLarge ;!
  Ok (msg, log ++ [(direct recipient, payload_of msg)]).

Definition broadcast_capability (max_size : Z) (fresh : string * string) (sender capability text : string) (log : pub_log)
    : res bus_exn (AgentMessage * pub_log) :=
  let ch := _CAPABILITY_CHANNEL_PREFIX +:+ capability in
  let msg := new_message fresh sender None ch text "notification" None in
  raise_if (max_size <? Z.of_nat (String.length (payload_of msg)))%Z MessageTooLarge ;!
  Ok (msg, log ++ [(ch, payload_of msg)]).

(** One message of a listening loop: these loops take the type [message] alone. *)
Definition message_of (fresh : string * string) (r : RawMessage) : option AgentMessage :=
  match msg_type r with
  | TMessage => match loads float_of_text (msg_data r) with Ok v => _message_from_dict fresh v | Err _ => None end
  | _ => None
  end.

Definition messages_of (fresh : nat → string * string) (rs : list RawMessage) : list AgentMessage :=
  omap id (imap (λ i r, message_of (fresh i) r) rs).

Definition subscribe_direct (fresh : nat → string * string) (agent_id : string) (log : pub_log) : list AgentMessage :=
  messages_of fresh (listen (Channel (direct agent_id)) log).

Definition subscribe_capability (fresh : nat → string * string) (capability : string) (log : pub_log) : list AgentMessage :=
  messages_of fresh (listen (Channel (_CAPABILITY_CHANNEL_PREFIX +:+ capability)) log).

(** [candidate.correlation_id == correlation_id] *)
Definition correlated (cid : string) (m : AgentMessage) : bool :=
  match correlation_id m with JStr s => String.eqb s cid | _ => false end.

(** [cid] is the fresh correlation identifier, [before] what others publish between the
    subscription and the request, [after] what they publish until the timeout. *)
Definition request_response (id : string * string) (cid : string) (fresh : nat → string * string) (sender recipient text : string)
    (before after : pub_log) : res bus_exn AgentMessage * pub_log :=
  let msg := new_message id sender (Some recipient) (direct recipient) text "request" (Some cid) in
  let log := before ++ (direct recipient, payload_of msg) :: after in
  (res_of_option TimeoutError (List.find (correlated cid) (messages_of fresh (listen (Channel (direct sender)) log))), log).
End bus.

(** ** What agents hear *)

Section heard.
Context `{LawfulPubSub} (float_of_text : string → pyfloat) (dumps : json → string).

Lemma direct_inj a b : direct a = direct b → a = b.
Proof. apply str_app_inj_l. Qed.

Lemma from_to_dict fresh m : _message_from_dict fresh (_message_to_dict m) = Some m.
Proof. by destruct m. Qed.

(** The payloads of a channel, in order *)
Definition on_channel (ch : string) (log : pub_log) : list string := map snd (List.filter (λ m, String.eqb ch m.1) log).

(** A text that reads as a message that names all its fields, the same at any time *)
Definition reads_as (p : string) (m : AgentMessage) : Prop :=
  ∀ fresh, match loads float_of_text p with Ok v => _message_from_dict fresh v | Err _ => None end = Some m.

Definition unreadable (p : string) : Prop :=
  ∀ fresh, match loads float_of_text p with Ok v => _message_from_dict fresh v | Err _ => None end = None.

(** What a channel says: each payload is a message, or is skipped. *)
Definition says (ps : list string) (ms : list (option AgentMessage)) : Prop :=
  Forall2 (λ p o, match o with Some m => reads_as p m | None => unreadable p end) ps ms.

Lemma messages_of_cons fresh r rs :
  messages_of float_of_text fresh (r :: rs) =
    match message_of float_of_text (fresh 0) r with Some m => [m] | None => [] end ++ messages_of float_of_text (fresh ∘ S) rs.
Proof. unfold messages_of. cbn [imap omap list_omap]. by destruct (message_of _ _ _). Qed.

Lemma messages_said fresh rs ms :
  Forall2 (λ r o, msg_type r = TMessage ∧ match o with Some m => reads_as (msg_data r) m | None => unreadable (msg_data r) end)
    (List.filter is_delivery rs) ms →
  messages_of float_of_text fresh rs = omap id ms.
Proof.
  revert fresh ms. induction rs as [|r rs IH]; intros fresh ms; [by inversion 1|]. cbn [List.filter]. rewrite messages_of_cons.
  destruct (is_delivery r) eqn:Hd.
  - inversion 1 as [|? o ? ms' [Ht Ho] Hms]; subst. unfold message_of. rewrite Ht. cbn [omap list_omap id].
    rewrite (IH _ _ Hms). destruct o as [m|]; by rewrite Ho.
  - intros Hms. assert (message_of float_of_text (fresh 0) r = None) as ->; [|by apply IH].
    unfold message_of. unfold is_delivery in Hd. by destruct (msg_type r).
Qed.

Lemma channel_said fresh ch log ms :
  says (on_channel ch log) ms → messages_of float_of_text fresh (listen (Channel ch) log) = omap id ms.
Proof.
  intros Hs. apply messages_said. rewrite listen_delivers. cbn [matches]. unfold on_channel in Hs.
  apply Forall2_fmap_l in Hs. apply Forall2_fmap_l. eapply Forall2_impl; [exact Hs|]. by intros [c p] o Ho.
Qed.

(** The length check of a sender does not disturb: an agent hears the readable messages
    to its own channel, in order. *)
Theorem direct_heard fresh agent_id log ms :
  says (on_channel (direct agent_id) log) ms → subscribe_direct float_of_text fresh agent_id log = omap id ms.
Proof. apply channel_said. Qed.

(** What the bus writes can be read. *)
Definition dumped (m : AgentMessage) : Prop := loads float_of_text (payload_of dumps m) = Ok (_message_to_dict m).

Lemma dumped_reads m : dumped m → reads_as (payload_of dumps m) m.
Proof. intros Hm fresh. rewrite Hm. apply from_to_dict. Qed.

Definition the_request (id : string * string) (cid sender recipient text : string) : AgentMessage :=
  new_message id sender (Some recipient) (direct recipient) text "request" (Some cid).

Lemma on_channel_app ch l1 l2 : on_channel ch (l1 ++ l2) = on_channel ch l1 ++ on_channel ch l2.
Proof. unfold on_channel. by rewrite List.filter_app, map_app. Qed.

(** A request to another agent is answered with the first message on the sender's
    own channel that carries its correlation identifier, among those that arrive until
    the timeout, whatever else arrives and whatever cannot be read; without one it
    times out, and the request was published in either case.  An agent that asks
    itself gets its own request back. *)
Theorem request_answered ids cid fresh sender recipient text before after ms1 ms2 :
  let msg := the_request ids cid sender recipient text in
  let r := request_response float_of_text dumps ids cid fresh sender recipient text before after in
  says (on_channel (direct sender) before) ms1 → says (on_channel (direct sender) after) ms2 →
  r.2 = before ++ (direct recipient, payload_of dumps msg) :: after ∧
  (sender ≠ recipient → r.1 = res_of_option TimeoutError (List.find (correlated cid) (omap id ms1 ++ omap id ms2))) ∧
  (sender = recipient → dumped msg → (∀ m, Some m ∈ ms1 → correlated cid m = false) → r.1 = Ok msg).
Proof.
  intros msg r H1 H2. split; [done|]. unfold r, request_response. cbn [fst]. fold (the_request ids cid sender recipient text). fold msg.
  split.
  - intros Hne. do 2 f_equal. rewrite <-omap_app. apply channel_said. rewrite on_channel_app. apply Forall2_app; [done|].
    unfold on_channel. cbn [List.filter fst]. assert (String.eqb (direct sender) (direct recipient) = false) as ->; [|done].
    apply String.eqb_neq. by intros ?%direct_inj.
  - intros <- Hd Hno. rewrite (channel_said fresh (direct sender) _ (ms1 ++ Some msg :: ms2)).
    + rewrite omap_app. assert (∀ l2, List.find (correlated cid) (omap id ms1 ++ l2) = List.find (correlated cid) l2) as ->.
      { clear -Hno. induction ms1 as [|[m|] ms1 IH]; intros l2; [done| |].
        - cbn. rewrite Hno by left. apply IH. intros x Hx. apply Hno. by right.
        - cbn. apply IH. intros x Hx. apply Hno. by right. }
      cbn. unfold correlated at 1. cbn. by rewrite String.eqb_refl.
    + rewrite on_channel_app. apply Forall2_app; [done|]. unfold on_channel. cbn [List.filter fst]. rewrite String.eqb_refl.
      cbn [map snd]. constructor; [by apply dumped_reads|done].
Qed.
End heard.

(** Only the one-way sends look at the limit: what [send_direct] refuses as too large
    goes out as a request. *)
Lemma request_without_limit `{PubSub} float_of_text dumps max_size ids cid fresh sender recipient text before after :
  (max_size < Z.of_nat (String.length (payload_of dumps (the_request ids cid sender recipient text))))%Z →
  send_direct dumps max_size ids sender recipient text (Some cid) before = Err MessageTooLarge ∧
  (direct recipient, payload_of dumps (the_request ids cid sender recipient text)) ∈
    (request_response float_of_text dumps ids cid fresh sender recipient text before after).2.
Proof.
  intros Hl. split.
  - unfold send_direct. fold (the_request ids cid sender recipient text). by apply Z.ltb_lt in Hl as ->.
  - cbn [request_response snd]. apply elem_of_app. right. left.
Qed.

Definition toy_reply : string :=
  quoted "{'sender_id':'b','channel':'massclaw:agent:direct:a','content':'yes','message_type':'response','recipient_id':'a','message_id':'2','timestamp':'t','correlation_id':'c1','metadata':{}}".

Definition toy_answer : AgentMessage :=
  new_message ("2", "t") "b" (Some "a") "massclaw:agent:direct:a" "yes" "response" (Some "c1").

Lemma request_answered_witness :
  (request_response (λ _, FNonFinite) (λ _, "") ("1", "t") "c1" (λ _, ("", "")) "a" "b" "ready?" []
     [("massclaw:agent:direct:a", "noise"); ("massclaw:agent:direct:b", toy_reply); ("massclaw:agent:direct:a", toy_reply)]).1 =
    Ok toy_answer.
Proof.
  destruct (request_answered (λ _, FNonFinite) (λ _, "") ("1", "t") "c1" (λ _, ("", "")) "a" "b" "ready?" []
    [("massclaw:agent:direct:a", "noise"); ("massclaw:agent:direct:b", toy_reply); ("massclaw:agent:direct:a", toy_reply)]
    [] [None; Some toy_answer]) as (_&Hr&_).
  - constructor.
  - constructor; [intros fresh; vm_compute; reflexivity|]. constructor; [intros fresh; vm_compute; reflexivity|constructor].
  - rewrite Hr by done. vm_compute. reflexivity.
Defined.

Example asks_itself :
  (request_response (λ _, FNonFinite) (λ _, toy_reply) ("2", "t") "c1" (λ _, ("", "")) "a" "a" "yes" [] []).1 = Ok toy_answer.
Proof. vm_compute. reflexivity. Qed.
