(* ===== verification/SemCache.v ===== *)
(** * SemCache: the semantic result cache and the tool directive

    Models, of [orchestration/scheduler.py], [_tool_bias_directive],
    [_is_cacheable], [_check_semantic_cache] and [_store_in_cache].  The table
    is the list of memory records with the columns the query reads; the
    embedding model and the distance operator of the database are parameters,
    [embed] fails (returns [None]) when no model is loaded.  [lower] is
    [str.lower].  Times are in hours.  A failure of the database is the flag
    [db_ok]; the counters are the list of recorded events. *)

From Stdlib Require Import ZArith SpecFloat Lia.
From stdpp Require Import base tactics strings gmap list.
From S2P Require Import Prelude PyStr PyVal.

#[local] Open Scope nat_scope.

(** [s[:n]], in characters *)
Definition py_prefix (n : nat) (s : string) : string := str_join "" (take n (py_chars s)).

(** ** The directive *)

Definition _TOOL_BIAS_KEYWORDS : list (string * list string) := [
  ("code_execute", ["code_execute"; "run this python"; "execute this"; "sandbox"]);
  ("web_search", ["web_search"; "search the web"; "search online"]);
  ("web_scrape", ["web_scrape"; "scrape this url"]);
  ("file_read", ["file_read"; "read this file"]);
  ("file_write", ["file_write"; "write this file"]);
  ("api_call", ["api_call"; "call this api"; "http request"])].

Section cache.
Context (lower : string → string).

(** The tool the directive names; its text is fixed. *)
Definition _tool_bias_directive (user_prompt : string) : option string :=
  let lowered := lower user_prompt in
  fst <$> (snd <$> list_find (λ p, existsb (λ phrase, str_contains phrase lowered) p.2 = true)
                     _TOOL_BIAS_KEYWORDS).

(** ** The cache *)

Definition _CACHE_GUARD_VERSION : string := "1".

Definition _CACHE_POISON_MARKERS : list string := [
  "not available"; "unavailable"; "does not have"; "cannot execute"; "unable to";
  "could not be completed"; "environment issues"; "tool not found"; "api key is missing";
  "missing api configuration"; "no access to"].

Definition _is_cacheable (content : string) : bool :=
  if str_empty content then false
  else negb (existsb (λ marker, str_contains marker (lower content)) _CACHE_POISON_MARKERS).

Context {Emb : Type} (embed : string → option Emb) (similarity : Emb → Emb → spec_float).

Record cache_row := {
  is_cache : bool;
  is_active : bool;
  row_expires : option Z;
  row_capability : option string;
  row_version : option string;
  row_content : string;
  row_embedding : option Emb;
}.

Inductive cache_event := CacheHit | CacheMiss | CacheRejected | CacheStore.

(** The [WHERE] clause; a row without an embedding has no distance and comes
    last, its similarity is null. *)
Definition selectable (cap : string) (now : Z) (r : cache_row) : bool :=
  is_cache r && is_active r &&
  match row_expires r with Some t => (now <? t)%Z | None => false end &&
  bool_decide (row_capability r = Some cap) && bool_decide (row_version r = Some _CACHE_GUARD_VERSION).

(** [ORDER BY embedding <=> e LIMIT 1]: the first row of largest similarity *)
Fixpoint nearest (e : Emb) (rows : list cache_row) : option (cache_row * spec_float) :=
  match rows with
  | [] => None
  | r :: rows =>
      let rest := nearest e rows in
      match row_embedding r with
      | None => rest
      | Some e' =>
          match rest with
          | Some (r', s') => if f_lt (similarity e e') s' then rest else Some (r, similarity e e')
          | None => Some (r, similarity e e')
          end
      end
  end.

Definition _check_semantic_cache (db_ok : bool) (threshold : spec_float) (cap prompt : string) (now : Z)
    (table : list cache_row) : option string * list cache_event :=
  match embed (py_prefix 500 prompt) with
  | None => (None, [])
  | Some e =>
      if negb db_ok then (None, [CacheMiss])
      else
        match nearest e (filter (λ r, selectable cap now r = true) table) with
        | None => (None, [CacheMiss])
        | Some (row, s) =>
            if f_lt s threshold then (None, [CacheMiss])
            else if negb (_is_cacheable (row_content row)) then (None, [CacheMiss; CacheRejected])
            else (Some (row_content row), [CacheHit])
        end
  end.

Definition _store_in_cache (db_ok : bool) (ttl_hours : Z) (cap prompt content : string) (now : Z)
    (table : list cache_row) : list cache_row * list cache_event :=
  if str_empty content || (length (py_chars content) <? 50) then (table, [])
  else if negb (_is_cacheable content) then (table, [])
  else
    match embed (py_prefix 500 prompt) with
    | None => (table, [])
    | Some e =>
        if negb db_ok then (table, [])
        else
          (table ++ [{| is_cache := true; is_active := true;
                        row_expires := Some (now + Z.max 1 ttl_hours)%Z;
                        row_capability := Some cap; row_version := Some _CACHE_GUARD_VERSION;
                        row_content := py_prefix 5000 content; row_embedding := Some e |}],
           [CacheStore])
    end.

(** ** What the cache serves *)

Lemma nearest_spec e rows r s :
  nearest e rows = Some (r, s) →
  r ∈ rows ∧ ∃ e', row_embedding r = Some e' ∧ s = similarity e e'.
Proof.
  revert r s. induction rows as [|x rows IH]; intros r s; [done|]. cbn.
  destruct (row_embedding x) as [e'|] eqn:Ex.
  - destruct (nearest e rows) as [[r' s']|] eqn:En.
    + case_match.
      * intros [= -> ->]. destruct (IH r s eq_refl) as [? ?]. split; [by right|done].
      * intros [= <- <-]. split; [by left|by exists e'].
    + intros [= <- <-]. split; [by left|by exists e'].
  - intros H. destruct (IH r s H) as [? ?]. split; [by right|done].
Qed.

(** The cache only serves sound entries.  A hit returns the text of a live
    cache record of the same capability and guard version that is near enough
    to the prompt, and never a text with a failure marker, whatever the table
    holds; the event is counted once, and a disabled cache counts nothing. *)
Theorem cache_hit_sound db_ok threshold cap prompt now table content evs :
  _check_semantic_cache db_ok threshold cap prompt now table = (Some content, evs) →
  evs = [CacheHit] ∧ _is_cacheable content = true ∧
  ∃ row e e', row ∈ table ∧ selectable cap now row = true ∧ row_content row = content ∧
    embed (py_prefix 500 prompt) = Some e ∧ row_embedding row = Some e' ∧
    f_lt (similarity e e') threshold = false.
Proof.
  unfold _check_semantic_cache. destruct (embed _) as [e|]; [|done]. destruct db_ok; [|done]. cbn [negb].
  destruct (nearest e _) as [[row s]|] eqn:En; [|done].
  destruct (f_lt s threshold) eqn:Es; [done|]. destruct (_is_cacheable _) eqn:Ec; [|done].
  intros [= <- <-]. apply nearest_spec in En as [[Hsel Hin]%list_elem_of_filter (e'&He'&->)].
  split_and!; [done..|]. by exists row, e, e'.
Qed.
End cache.

Example cacheable_ex :
  map (_is_cacheable str_lower) [""; "The tool is Unavailable."; "Here is the report"] = [false; false; true].
Proof. reflexivity. Qed.

Example bias_ex :
  map (_tool_bias_directive str_lower) ["Please Search Online for X"; "write a poem"] = [Some "web_search"; None].
Proof. reflexivity. Qed.

Lemma cache_hit_sound_witness :
  let row := {| is_cache := true; is_active := true; row_expires := Some 5%Z; row_capability := Some "research";
                row_version := Some "1"; row_content := "the answer"; row_embedding := Some tt |} in
  _is_cacheable str_lower "the answer" = true ∧ row ∈ [row].
Proof.
  intros row.
  destruct (cache_hit_sound str_lower (λ _, Some tt) (λ _ _, f_of_nat 1) true f0_8 "research" "q" 3 [row]
    "the answer" [CacheHit]) as (_&Hc&_).
  - vm_compute. reflexivity.
  - split; [exact Hc|by left].
Defined.
