(* ===== verification/AuditTrail.v ===== *)
(** * AuditTrail: policy decisions as signed memory

    Models [safety/audit.py], [to_audit_payload] of [safety/decision.py] and the
    listing endpoint of [api/audit.py]: a decision of Policy.v becomes a META row
    of the store (Crdt.v), written with the node's own key.  [repr] is the text of
    a double, [iso_text] that of a time.  [created] gives the time the database
    puts on a row; rows with equal times keep the order of the table, which the
    database leaves open. *)

From Stdlib Require Import ZArith Lia SpecFloat.
From stdpp Require Import base tactics strings gmap list sorting.
From S2P Require Import Prelude PyStr Dict PyVal Json Did SemCache Merkle Uuid Signer Policy Rules Crdt.

#[local] Open Scope nat_scope.

Definition POLICY_DECISION_MARKER_KEY : pykey := KStr "policy_decision".
Definition POLICY_DECISION_PAYLOAD_KEY : pykey := KStr "decision".
Definition POLICY_CONTEXT_SUMMARY_KEY : pykey := KStr "context_summary".

(** The fields of the context that no rule of Rules.v reads *)
Record AuditContext := {
  ac_ctx : PolicyContext;
  ac_capabilities : list string;
  ac_target : option string;
  ac_workflow_id : option uuid;
}.

Definition action_value (a : DecisionAction) : string :=
  match a with ALLOW => "allow" | DENY => "deny" | ESCALATE_HUMAN => "escalate_human" | ABSTAIN => "abstain" end.

Definition opt_str (o : option string) : json := match o with Some s => JStr s | None => JNull end.

(** [(record.metadata_ or {}).get(key)] *)
Definition meta (key : pykey) (r : MemoryRecord) : option json := dict_get key (metadata_ r).

Definition is_policy_decision_record (r : MemoryRecord) : bool :=
  match meta POLICY_DECISION_MARKER_KEY r with Some v => json_truth v | None => false end &&
  bool_decide (memory_type r = META).

Section audit.
Context (repr : spec_float → pyfloat) (iso_text : Z → string).

(** The value, as JSON *)
Fixpoint json_of (v : pyval) : json :=
  match v with
  | VNone => JNull
  | VBool b => JBool b
  | VInt z => JInt z
  | VFloat f => JFloat (repr f)
  | VStr s => JStr s
  | VList l => JList (map json_of l)
  | VDict items => JObj (map (λ kv, (KStr kv.1, json_of kv.2)) items)
  | VOpaque name => JOther name
  end.

Definition json_items (items : list (string * pyval)) : list (pykey * json) := map (λ kv, (KStr kv.1, json_of kv.2)) items.

Definition opt_float (o : option spec_float) : json := match o with Some f => JFloat (repr f) | None => JNull end.

(** [created_at] is that of the decision. *)
Definition to_audit_payload (d : Decision) (created_at : Z) : list (pykey * json) := [
  (KStr "action", JStr (action_value (act d)));
  (KStr "rule_id", opt_str (rule_id d));
  (KStr "reason", JStr (reason d));
  (KStr "metadata", JObj (json_items (metadata d)));
  (KStr "contributing_rule_ids", JList (map JStr (contributing_rule_ids d)));
  (KStr "created_at", JStr (iso_text created_at))].

Definition _safe_context_summary (c : AuditContext) : list (pykey * json) :=
  let ctx := ac_ctx c in [
  (KStr "agent_did", opt_str (agent_did ctx));
  (KStr "agent_trust_score", opt_float (agent_trust_score ctx));
  (KStr "agent_capabilities", JList (map JStr (ac_capabilities c)));
  (KStr "agent_id", opt_str (agent_id ctx));
  (KStr "action", JStr (action ctx));
  (KStr "action_category", opt_str (action_category ctx));
  (KStr "tool_name", opt_str (tool_name ctx));
  (KStr "amount", opt_float (amount ctx));
  (KStr "target", opt_str (ac_target c));
  (KStr "estimated_cost", opt_float (estimated_cost ctx));
  (KStr "workflow_id", opt_str (uuid_str <$> ac_workflow_id c));
  (KStr "task_id", opt_str (task_id ctx));
  (KStr "now", JStr (iso_text (now ctx)));
  (KStr "extra", JObj (json_items (extra ctx)))].

Definition decision_metadata (d : Decision) (created_at : Z) (c : AuditContext) : list (pykey * json) := [
  (POLICY_DECISION_MARKER_KEY, JBool true);
  (POLICY_DECISION_PAYLOAD_KEY, JObj (to_audit_payload d created_at));
  (POLICY_CONTEXT_SUMMARY_KEY, JObj (_safe_context_summary c))].


Context (sha256 : string → list Byte.byte) `{Ed25519}.


End audit.

(** ** Listing *)

Inductive listing_exn := NotADict | UnknownAction.

(** [payload.get("action") != action.value], where the payload may be anything *)
Definition has_action (a : DecisionAction) (r : MemoryRecord) : res listing_exn bool :=
  match meta POLICY_DECISION_PAYLOAD_KEY r with
  | Some v =>
      if json_truth v then
        match v with
        | JObj items => Ok (match dict_get (KStr "action") items with Some (JStr s) => String.eqb s (action_value a) | _ => false end)
        | _ => Err NotADict
        end
      else Ok false
  | None => Ok false
  end.

(** The loop of [list_decisions] over the rows that the query gives *)
Fixpoint collect (action : option DecisionAction) (limit offset : nat) (rows out : list MemoryRecord) : res listing_exn (list MemoryRecord) :=
  match rows with
  | [] => Ok out
  | r :: rows =>
      if negb (is_policy_decision_record r) then collect action limit offset rows out
      else
        ok <~ match action with Some a => has_action a r | None => Ok true end;
        if negb ok then collect action limit offset rows out
        else match offset with
             | S offset => collect action limit offset rows out
             | 0 => let out := out ++ [r] in if limit <=? length out then Ok out else collect action limit 0 rows out
             end
  end.

Definition of_workflow (w : option uuid) (r : MemoryRecord) : bool :=
  bool_decide (memory_type r = META) &&
  match w with Some w => bool_decide (workflow_id r = Some w) | None => true end.

Definition list_decisions (created : MemoryRecord → Z) (w : option uuid) (action : option DecisionAction) (limit offset : nat)
    (n : node) : res listing_exn (list MemoryRecord) :=
  let rows := take (limit + offset) (sort_by (λ a b, (created b <? created a)%Z) (List.filter (of_workflow w) (records n))) in
  collect action limit offset rows [].

Definition parse_action (s : string) : option DecisionAction :=
  snd <$> list_find (λ a, action_value a = s) [ALLOW; DENY; ESCALATE_HUMAN; ABSTAIN].

Definition list_policy_decisions (created : MemoryRecord → Z) (w : option uuid) (action : option string) (limit offset : nat)
    (n : node) : res listing_exn (list MemoryRecord) :=
  parsed <~ match action with Some s => res_of_option UnknownAction (Some <$> parse_action s) | None => Ok None end;
  list_decisions created w parsed limit offset n.

(** ** Correctness *)





Section audited.
Context (repr : spec_float → pyfloat) (iso_text : Z → string) (sha256 : string → list Byte.byte) `{LawfulEd25519}.








End audited.


(** ** Concrete runs *)

Definition a_decision : Decision := deny "trust_floor_for_payments" "too little trust" [("trust", VFloat float_half)].

Definition a_context : AuditContext := {|
  ac_ctx := {| agent_did := None; agent_trust_score := None; agent_id := None; action := "pay"; action_category := None;
               tool_name := None; amount := None; estimated_cost := None; task_id := None; now := 0; redis := false; extra := [] |};
  ac_capabilities := []; ac_target := None; ac_workflow_id := Some (UUID 1) |}.

Definition toy_repr (_ : spec_float) : pyfloat := FFrac "0.5".
Definition toy_iso (_ : Z) : string := "2025-01-01T00:00:00+00:00".




Definition meta_row (id : N) (m : list (pykey * json)) : MemoryRecord := {|
  memory_id := UUID id; workflow_id := Some (UUID 1); source_agent_id := None; memory_type := META; content := "c"; metadata_ := m;
  confidence := FInt 1; version := 1; parent_version_id := None; author_did := None; parent_hashes := []; signature := None;
  content_hash := None; record_state := ACTIVE; expires_at := None |}.

Definition listed (action : option string) (limit : nat) (rs : list MemoryRecord) : res listing_exn (list uuid) :=
  rows <~ list_policy_decisions (λ r, Z.of_N (uuid_int (memory_id r))) (Some (UUID 1)) action limit 0
            {| workflows := {[UUID 1]}; agents := ∅; records := rs; summaries := ∅ |};
  Ok (map memory_id rows).

Definition decision_row (id : N) : MemoryRecord := meta_row id (decision_metadata toy_repr toy_iso a_decision 0 a_context).

(** The limit is applied before the rows are filtered: other META rows crowd the
    decisions out. *)
Example crowded_out : listed None 1 [decision_row 1; meta_row 2 []] = Ok [].
Proof. vm_compute. reflexivity. Qed.

(** Any META row, also one that a peer has sent, passes for a decision with the
    marker; one whose payload is not an object makes the listing by action raise. *)
Example forged_decision :
  listed None 5 [meta_row 1 [(POLICY_DECISION_MARKER_KEY, JInt 1)]] = Ok [UUID 1] ∧
  listed (Some "deny") 5 [decision_row 1; meta_row 2 [(POLICY_DECISION_MARKER_KEY, JInt 1); (POLICY_DECISION_PAYLOAD_KEY, JStr "x")]]
    = Err NotADict.
Proof. vm_compute. done. Qed.

