(* ===== verification/Breaker.v ===== *)
(** * Breaker: the circuit breaker around remote calls

    Models [core/circuit_breaker.py].  The four Redis keys of a breaker are a
    [keys]; the two counters expire.  Times are whole milliseconds (the code
    uses floating-point seconds, and gives the counters a lifetime of whole
    seconds); the state key holds one of the three texts.  A call is its part
    before the function ([begin_call]) and its part after it ([end_call]): what
    other processes do in between is whatever happens to the keys.  Redis answers;
    a cancellation reaches the call while it waits for the function. *)

From Stdlib Require Import ZArith Lia.
From stdpp Require Import base tactics list relations.
From S2P Require Import Prelude.

#[local] Open Scope Z_scope.

(** ** The code *)

Inductive CircuitState := CLOSED | OPEN | HALF_OPEN.

#[export] Instance CircuitState_eq_dec : EqDecision CircuitState.
Proof. solve_decision. Defined.

Record keys := {
  k_state : option CircuitState;
  k_failures : option (Z * Z);
  k_opened_at : option Z;
  k_half_open_calls : option (Z * Z);
}.

Definition no_keys : keys :=
  {| k_state := None; k_failures := None; k_opened_at := None; k_half_open_calls := None |}.

Inductive breaker_error := CircuitBreakerOpenError.

(** How the guarded function ends: it returns, it raises an [Exception], or the
    task is cancelled, which [except Exception] does not catch. *)
Inductive attempt := Returned | Failed | Cancelled.

Record status := {
  st_state : CircuitState; st_failure_count : Z; st_failure_threshold : Z; st_recovery_timeout : Z }.

Section breaker.
Context (failure_threshold recovery_timeout half_open_max_calls : Z).

(** [int(self.recovery_timeout * 2)], in milliseconds *)
Definition lifetime : Z := recovery_timeout * 2 / 1000 * 1000.

Definition _get_state (b : keys) : CircuitState := default CLOSED (k_state b).

Definition _set_state (s : CircuitState) (b : keys) : keys := {|
  k_state := Some s; k_failures := k_failures b; k_opened_at := k_opened_at b;
  k_half_open_calls := k_half_open_calls b |}.

(** A counter as it reads now *)
Definition counter (now : Z) (c : option (Z * Z)) : Z :=
  match c with Some (n, deadline) => if now <? deadline then n else 0 | None => 0 end.

(** [INCR] and [EXPIRE]: a lifetime that is not positive deletes the key. *)
Definition bump (now : Z) (c : option (Z * Z)) : option (Z * Z) :=
  if lifetime <=? 0 then None else Some (counter now c + 1, now + lifetime).

Definition _get_failure_count (now : Z) (b : keys) : Z := counter now (k_failures b).

Definition _increment_failures (now : Z) (b : keys) : keys * Z :=
  ({| k_state := k_state b; k_failures := bump now (k_failures b); k_opened_at := k_opened_at b;
      k_half_open_calls := k_half_open_calls b |}, counter now (k_failures b) + 1).

Definition _reset_failures (b : keys) : keys := {|
  k_state := k_state b; k_failures := None; k_opened_at := k_opened_at b;
  k_half_open_calls := k_half_open_calls b |}.

Definition _get_opened_at (b : keys) : Z := default 0 (k_opened_at b).

Definition _set_opened_at (now : Z) (b : keys) : keys := {|
  k_state := k_state b; k_failures := k_failures b; k_opened_at := Some now;
  k_half_open_calls := k_half_open_calls b |}.

Definition _get_half_open_calls (now : Z) (b : keys) : Z := counter now (k_half_open_calls b).

Definition _increment_half_open_calls (now : Z) (b : keys) : keys := {|
  k_state := k_state b; k_failures := k_failures b; k_opened_at := k_opened_at b;
  k_half_open_calls := bump now (k_half_open_calls b) |}.

Definition _reset_half_open_calls (b : keys) : keys := {|
  k_state := k_state b; k_failures := k_failures b; k_opened_at := k_opened_at b;
  k_half_open_calls := None |}.

(** Up to [await func(...)]: the state the call goes on with *)
Definition begin_call (now : Z) (b : keys) : keys * res breaker_error CircuitState :=
  let '(b, r) :=
    match _get_state b with
    | OPEN =>
        if recovery_timeout <=? now - _get_opened_at b then
          (_reset_half_open_calls (_set_state HALF_OPEN b), Ok HALF_OPEN)
        else (b, Err CircuitBreakerOpenError)
    | s => (b, Ok s)
    end in
  match r with
  | Ok HALF_OPEN =>
      if half_open_max_calls <=? _get_half_open_calls now b then (b, Err CircuitBreakerOpenError)
      else (_increment_half_open_calls now b, Ok HALF_OPEN)
  | r => (b, r)
  end.

Definition _record_success (current_state : CircuitState) (b : keys) : keys :=
  match current_state with
  | HALF_OPEN => _reset_half_open_calls (_reset_failures (_set_state CLOSED b))
  | CLOSED => _reset_failures b
  | OPEN => b
  end.

Definition _record_failure (current_state : CircuitState) (now : Z) (b : keys) : keys :=
  match current_state with
  | HALF_OPEN => _set_opened_at now (_set_state OPEN b)
  | CLOSED =>
      let '(b, failures) := _increment_failures now b in
      if failure_threshold <=? failures then _set_opened_at now (_set_state OPEN b) else b
  | OPEN => b
  end.

(** After the function *)
Definition end_call (s : CircuitState) (out : attempt) (now : Z) (b : keys) : keys :=
  match out with
  | Returned => _record_success s b
  | Failed => _record_failure s now b
  | Cancelled => b
  end.

(** A call with nobody else around; it starts at [t0] and ends at [t1]. *)
Definition call (t0 t1 : Z) (out : attempt) (b : keys) : keys * res breaker_error attempt :=
  match begin_call t0 b with
  | (b, Ok s) => (end_call s out t1 b, Ok out)
  | (b, Err e) => (b, Err e)
  end.

Definition get_status (now : Z) (b : keys) : status := {|
  st_state := _get_state b; st_failure_count := _get_failure_count now b;
  st_failure_threshold := failure_threshold; st_recovery_timeout := recovery_timeout |}.

(** ** The machine it implements

    Closed with a run of failures and the time it is forgotten, open since a
    time, or on probation. *)
Inductive breaker_state :=
  | Closed (failures until : Z)
  | Opened (since : Z)
  | Probation (calls until : Z).

Definition closed_count (now n until : Z) : Z := if now <? until then n else 0.

(** What a call that was let through on probation leaves, when it is the one
    numbered [calls] *)
Definition settle_probation (calls t0 t1 : Z) (out : attempt) : breaker_state :=
  match out with
  | Returned => Closed 0 0
  | Failed => Opened t1
  | Cancelled => Probation calls (t0 + lifetime)
  end.

(** The abstract call: [None] is a refusal. *)
Definition abstract_call (t0 t1 : Z) (out : attempt) (a : breaker_state)
    : breaker_state * option attempt :=
  match a with
  | Closed n until =>
      let failures := closed_count t1 n until + 1 in
      (match out with
       | Returned => Closed 0 0
       | Failed => if failure_threshold <=? failures then Opened t1 else Closed failures (t1 + lifetime)
       | Cancelled => a
       end, Some out)
  | Opened since =>
      if recovery_timeout <=? t0 - since then (settle_probation 1 t0 t1 out, Some out)
      else (a, None)
  | Probation n until =>
      let calls := closed_count t0 n until in
      if half_open_max_calls <=? calls then (a, None)
      else (settle_probation (calls + 1) t0 t1 out, Some out)
  end.

(** The keys hold this state of the machine. *)
Definition holds (b : keys) (a : breaker_state) : Prop :=
  match a with
  | Closed n until => _get_state b = CLOSED ∧
      ∀ now, counter now (k_failures b) = closed_count now n until
  | Opened since => _get_state b = OPEN ∧ _get_opened_at b = since
  | Probation n until => _get_state b = HALF_OPEN ∧
      ∀ now, counter now (k_half_open_calls b) = closed_count now n until
  end.

Lemma every_state b : ∃ a, holds b a.
Proof.
  destruct (_get_state b) eqn:E.
  - destruct (k_failures b) as [[n d]|] eqn:Ef; [exists (Closed n d)|exists (Closed 0 0)];
      (split; [done|]); intros now; rewrite Ef; unfold closed_count; cbn; [done|by case_match].
  - by exists (Opened (_get_opened_at b)).
  - destruct (k_half_open_calls b) as [[n d]|] eqn:Ef; [exists (Probation n d)|exists (Probation 0 0)];
      (split; [done|]); intros now; rewrite Ef; unfold closed_count; cbn; [done|by case_match].
Qed.

Hypothesis long_enough : 500 <= recovery_timeout.
Hypothesis probation_calls : 0 < half_open_max_calls.

Lemma lifetime_pos : 0 < lifetime.
Proof.
  unfold lifetime. assert (1 <= recovery_timeout * 2 / 1000) by (apply Z.div_le_lower_bound; lia). lia.
Qed.

Lemma counter_bump now c now' :
  counter now' (bump now c) = closed_count now' (counter now c + 1) (now + lifetime).
Proof. unfold bump. pose proof lifetime_pos. by assert ((lifetime <=? 0) = false) as -> by lia. Qed.

Lemma closed_zero now : closed_count now 0 0 = 0.
Proof. unfold closed_count. by case_match. Qed.

(** A call let through on probation *)
Lemma probation_refines t0 t1 out b n :
  _get_state b = HALF_OPEN → _get_half_open_calls t0 b = n →
  holds (end_call HALF_OPEN out t1 (_increment_half_open_calls t0 b)) (settle_probation (n + 1) t0 t1 out).
Proof.
  intros Hs <-. destruct out; cbn [end_call settle_probation holds].
  - split; [done|]. intros now. cbn. by rewrite closed_zero.
  - done.
  - split; [done|]. intros now. cbn [k_half_open_calls _increment_half_open_calls]. apply counter_bump.
Qed.

Lemma call_refines t0 t1 out b a :
  holds b a →
  let '(b', r) := call t0 t1 out b in
  let '(a', r') := abstract_call t0 t1 out a in
  holds b' a' ∧ r = match r' with Some x => Ok x | None => Err CircuitBreakerOpenError end.
Proof.
  unfold call, begin_call. destruct a as [n u|since|n u]; cbn [abstract_call].
  - intros [Hs Hc]. rewrite Hs. destruct out; cbn; [split; [|done]| |done].
    + split; [done|]. intros now. cbn. by rewrite closed_zero.
    + rewrite Hc. destruct (failure_threshold <=? closed_count t1 n u + 1); (split; [|done]); [done|].
      split; [done|]. intros now. cbn [k_failures]. rewrite counter_bump. by rewrite Hc.
  - intros [Hs Ho]. rewrite Hs, Ho. destruct (recovery_timeout <=? t0 - since) eqn:E; [|done].
    unfold _get_half_open_calls at 1. cbn [k_half_open_calls _reset_half_open_calls counter].
    assert ((half_open_max_calls <=? 0) = false) as -> by lia. split; [|done].
    by apply (probation_refines t0 t1 out _ 0).
  - intros [Hs Hc]. rewrite Hs. unfold _get_half_open_calls. rewrite Hc.
    destruct (half_open_max_calls <=? closed_count t0 n u); [done|]. split; [|done].
    by apply probation_refines; [|apply Hc].
Qed.

(** C27: refinement: with a recovery timeout of at least half a second, a
    call through the keys in Redis, whether the function returns, raises or is
    cancelled, is a call of the machine above, whatever was in Redis at the
    start: the same calls are refused, the others get through, and the keys hold
    the machine's state afterwards. *)
Theorem breaker_refines t0 t1 out b a :
  holds b a →
  let '(b', r) := call t0 t1 out b in
  let '(a', r') := abstract_call t0 t1 out a in
  holds b' a' ∧ r = match r' with Some x => Ok x | None => Err CircuitBreakerOpenError end.
Proof. exact (call_refines t0 t1 out b a). Qed.

(** Calls one after the other, with the answers *)
Fixpoint calls (cs : list (Z * Z * attempt)) (b : keys) : keys * list (res breaker_error attempt) :=
  match cs with
  | [] => (b, [])
  | (t0, t1, out) :: cs =>
      let '(b, r) := call t0 t1 out b in
      let '(b, rs) := calls cs b in (b, r :: rs)
  end.

(** Failures that each come before the one before is forgotten *)
Fixpoint failing (last : Z) (ts : list Z) : Prop :=
  match ts with
  | [] => True
  | t :: ts => last <= t < last + lifetime ∧ failing t ts
  end.

Definition latest (last : Z) (ts : list Z) : Z := fold_left (λ _ t, t) ts last.

Definition failures_at (ts : list Z) : list (Z * Z * attempt) := map (λ t, (t, t, Failed)) ts.

Lemma tripping ts b n last :
  holds b (Closed n (last + lifetime)) → failing last ts → ts ≠ [] →
  n + Z.of_nat (length ts) = failure_threshold →
  holds (calls (failures_at ts) b).1 (Opened (latest last ts)).
Proof.
  revert b n last. induction ts as [|t ts IH]; intros b n last Hb Hf Hne Hn; [done|].
  destruct Hf as [Ht Hf]. cbn [failures_at map calls length] in *.
  pose proof (call_refines t t Failed b _ Hb) as Hc. destruct (call t t Failed b) as [b1 r].
  cbn [abstract_call] in Hc. unfold closed_count in Hc. assert ((t <? last + lifetime) = true) as E by lia.
  rewrite E in Hc. fold (failures_at ts). change (latest last (t :: ts)) with (latest t ts).
  destruct (failure_threshold <=? n + 1) eqn:E2; destruct Hc as [Hb1 _].
  - destruct ts as [|t' ts]; [done|]. cbn [length] in Hn. lia.
  - destruct ts as [|t' ts]; [cbn [length] in Hn; lia|].
    specialize (IH b1 (n + 1) t Hb1 Hf ltac:(done) ltac:(lia)). by destruct (calls (failures_at (t' :: ts)) b1).
Qed.

(** The breaker trips: from a fresh start, [failure_threshold] failures in
    a row, each before the one before is forgotten, open it, and then every
    call is refused for [recovery_timeout] after the last of them, without
    touching the keys. *)
Theorem breaker_trips t ts :
  Z.of_nat (S (length ts)) = failure_threshold → failing t ts →
  let b := (calls (failures_at (t :: ts)) no_keys).1 in
  ∀ t0 t1 out, t0 < latest t ts + recovery_timeout →
    call t0 t1 out b = (b, Err CircuitBreakerOpenError).
Proof.
  intros Hn Hf b t0 t1 out Ht0.
  assert (holds b (Opened (latest t ts))) as [Hs Ho].
  { apply (tripping (t :: ts) no_keys 0 t); [|split; [pose proof lifetime_pos; lia|done]|done|done].
    split; [done|]. intros now. unfold closed_count. cbn. by case_match. }
  unfold call, begin_call. rewrite Hs, Ho. assert ((recovery_timeout <=? t0 - latest t ts) = false) as -> by lia.
  done.
Qed.
End breaker.

Lemma breaker_refines_witness :
  let '(b', r) := call 5 60000 3 0 1 Returned no_keys in
  let '(a', r') := abstract_call 5 60000 3 0 1 Returned (Closed 0 0) in
  holds b' a' ∧ r = match r' with Some x => Ok x | None => Err CircuitBreakerOpenError end.
Proof.
  apply (breaker_refines 5 60000 3 ltac:(lia) ltac:(lia)). split; [reflexivity|].
  intros now. unfold closed_count. cbn. by case_match.
Defined.

Lemma breaker_trips_witness :
  let b := (calls 3 60000 1 (failures_at [0; 10; 20]) no_keys).1 in
  call 3 60000 1 60019 60020 Returned b = (b, Err CircuitBreakerOpenError).
Proof.
  apply (breaker_trips 3 60000 1 ltac:(lia) ltac:(lia) 0 [10; 20]).
  - reflexivity.
  - cbn. change (lifetime 60000) with 120000. lia.
  - cbn. lia.
Defined.

Example trips :
  let '(b, rs) := calls 3 60000 1
    [(0, 1, Failed); (10, 11, Failed); (20, 21, Failed); (30, 31, Returned); (60021, 60022, Returned); (60030, 60031, Returned)] no_keys in
  (rs, _get_state b) =
  ([Ok Failed; Ok Failed; Ok Failed; Err CircuitBreakerOpenError; Ok Returned; Ok Returned], CLOSED).
Proof. vm_compute. reflexivity. Qed.

(** A recovery timeout under half a second never trips: the counter is deleted
    at once. *)
Example short_timeout_never_trips :
  (calls 3 400 1 (repeat (0, 1, Failed) 10) no_keys).2 = repeat (Ok Failed) 10.
Proof. vm_compute. reflexivity. Qed.

(** Two calls on probation: the first fails and opens the breaker again, the
    second returns and closes it. *)
Example late_success_closes :
  let b := {| k_state := Some OPEN; k_failures := None; k_opened_at := Some 0; k_half_open_calls := None |} in
  let '(b, r1) := begin_call 60000 3 60000 b in
  let '(b, r2) := begin_call 60000 3 60001 b in
  (r1, r2, _get_state (end_call 5 60000 HALF_OPEN Returned 60003 (end_call 5 60000 HALF_OPEN Failed 60002 b))) =
  (Ok HALF_OPEN, Ok HALF_OPEN, CLOSED).
Proof. vm_compute. reflexivity. Qed.

(** Cancelled calls use up the probation: after three of them every call is
    refused until the counter expires, two minutes later. *)
Example cancelled_probation :
  let b := {| k_state := Some OPEN; k_failures := None; k_opened_at := Some 0; k_half_open_calls := None |} in
  let '(b, rs) := calls 5 60000 3
    [(60000, 60001, Cancelled); (60002, 60003, Cancelled); (60004, 60005, Cancelled);
     (180003, 180003, Returned); (180004, 180005, Returned)] b in
  (rs, _get_state b) =
  ([Ok Cancelled; Ok Cancelled; Ok Cancelled; Err CircuitBreakerOpenError; Ok Returned], CLOSED).
Proof. vm_compute. reflexivity. Qed.
