(* ===== verification/Scheduler.v ===== *)
(** * Scheduler: the workflow execution loop

    Models [execute_workflow] of [orchestration/scheduler.py] with its three
    phases, [_policy_evaluate_nodes], [_reflect_on_task], [_handle_failure] and
    [_upsert_task_row], and the engines it calls in
    [intelligence/self_correction.py] and [intelligence/dynamic_replanner.py].
    A [sched] is what a run changes: the graph (Dag.v), the wallet (Wallet.v),
    the approval desk (Approval.v, which also holds the workflow's status), the
    task rows, the number of re-plans and, for the statements, the list of the
    nodes handed to the language model.

    The [World] answers for everything outside: the language model and the
    tools, the policy verdicts, the services for memory, trust, consensus and
    reflection, the identifiers the database generates, the clock, the tokens an
    answer is said to have used ([w_tokens]), the text [str] gives for an
    exception ([w_exn_text]), and what
    other processes do to the approval desk meanwhile; it is indexed by the
    iteration of the loop and the node.  Event publication does not fail except
    where [w_published] says so.  An exception that leaves the run is
    [Raised]; the state is then that of the start of the batch. *)

From Stdlib Require Import ZArith QArith SpecFloat Ascii Lia.
From stdpp Require Import base tactics strings pretty gmap relations list.
From S2P Require Import Prelude PyStr Dict Json PyVal Uuid Policy Wallet Approval TaskFsm Dag ToolLoop.

#[local] Open Scope nat_scope.

(** ** Data *)

Record Agent := { ag_id : string; ag_name : string; ag_profile_usd : Q }.

Record Task := {
  t_status : TaskStatus;
  t_agent : option string;
  t_step : Z;
  t_error : option string;
  t_retry_count : nat;
  t_output : option string;
  t_review_requested : bool;
}.

Record ReflectionResult := {
  rf_action : string;
  rf_confidence : spec_float;
  rf_issues : list string;
}.

Inductive exn :=
  | DagExn (e : dag_error)
  | WalletExn (e : wallet_error)
  | ApprovalExn (e : approval_error)
  | ContextKeyError
  | TaskIntegrityError
  | LLMExn (e : loop_exn)
  | ServiceError.

Inductive wf_result :=
  | ResultAborted (node : string)
  | ResultRunaway
  | ResultFinal (partial : bool) (failed skipped : nat) (starved : list string) (synthesis_failed : bool).

Inductive outcome :=
  | Finished
  | Runaway
  | Paused (node request : string)
  | Raised (e : exn).

(** [int("".join(c for c in node_id if c.isdigit()) or "0")] *)
Definition step_number (id : string) : Z :=
  fold_left (λ acc c, (acc * 10 + Z.of_N (N_of_ascii c - 48))%Z)
    (filter (λ c, (48 <=? N_of_ascii c)%N && (N_of_ascii c <=? 57)%N = true) (str_chars id)) 0%Z.

Record sched (F : Type) := {
  s_dag : DAG;
  s_wallet : wallet F;
  s_desk : desk;
  s_tasks : gmap uuid Task;
  s_replans : nat;
  s_result : option wf_result;
  s_runs : list (nat * string);
}.
Arguments s_dag {F}. Arguments s_wallet {F}. Arguments s_desk {F}. Arguments s_tasks {F}.
Arguments s_replans {F}. Arguments s_result {F}. Arguments s_runs {F}.

Definition set_task_id (tid : uuid) (n : DAGNode) : DAGNode := {|
  node_id := node_id n; capability := capability n; description := description n;
  depends_on := depends_on n; estimated_complexity := estimated_complexity n;
  assigned_agent_id := assigned_agent_id n; task_id := Some tid;
  status := status n; output := output n; error := error n |}.

Definition with_task (st : TaskStatus) (err : option string) (r : Task) : Task := {|
  t_status := st; t_agent := t_agent r; t_step := t_step r; t_error := err;
  t_retry_count := t_retry_count r; t_output := t_output r; t_review_requested := t_review_requested r |}.

(** ** The engines *)

(** [a or b] on strings *)
Definition str_or_else (a b : string) : string := if String.eqb a "" then b else a.

Definition MAX_RETRIES_PER_TASK : nat := 2.
Definition MAX_REPLANS_PER_WORKFLOW : nat := 3.

(** [SelfCorrectionEngine().evaluate(...).should_retry] *)
Definition should_retry (r : ReflectionResult) (retry_count : nat) : bool :=
  if MAX_RETRIES_PER_TASK <=? retry_count then false
  else if negb (bool_decide (rf_action r ∈ ["retry_task"; "re_plan"])) then false
  else negb (f_ge (rf_confidence r) f0_6).

Definition newline : string := String (ascii_of_nat 10) "".

Definition alternative (n : DAGNode) (why : string) : DAGNode := {|
  node_id := node_id n +:+ "_alt"; capability := capability n;
  description := "[RETRY with different approach] " +:+ description n
    +:+ newline +:+ "Previous attempt was inadequate. " +:+ why
    +:+ newline +:+ "Use a fundamentally different methodology or perspective.";
  depends_on := depends_on n; estimated_complexity := estimated_complexity n;
  assigned_agent_id := None; task_id := None; status := PENDING; output := None; error := None |}.

(** [DynamicReplanner.replan(dag, ..., "re_plan")] *)
Definition replan (d : DAG) (id why : string) : option DAG :=
  match dict_get id (d_nodes d) with
  | None => None
  | Some n => match add_node d (alternative n why) with Ok d => Some d | Err _ => None end
  end.

(** ** The run *)

Section scheduler.
Context {F : Type} `{Arith F}.
Context (wid me : string) (agents : gmap string Agent).
Context (estimate : DAGNode → Agent → F) (credits : Q → F) (show_credits : F → string).

Record World := {
  w_event_id : nat → string → string → string;
  w_task_id : nat → string → uuid;
  w_context_ok : nat → string → bool;
  w_policy : nat → string → option Policy.Decision;
  w_lookup_ok : nat → string → bool;
  w_checkpoint : nat → string → option string;
  w_request_id : nat → string → string;
  w_up : nat → string → bool;
  w_now : nat → string → Z;
  w_others : nat → string → desk → desk;
  w_cached : nat → string → option string;
  w_generate : nat → string → nat → bool → option LLMResponse;
  w_tool : nat → string → nat → ToolCall → ToolResult;
  w_afford : nat → string → Q → bool;
  w_max_iterations : nat;
  w_memory_ok : nat → string → bool;
  w_trust_ok : nat → string → bool;
  w_consensus : nat → string → option spec_float;
  w_reflect : nat → string → option ReflectionResult;
  w_published : nat → string → bool;
  w_synthesis_ok : bool;
  w_tokens : nat → string → nat;
  w_exn_text : nat → string → exn → string;
}.
Context (w : World).

Abbreviation sched := (sched F).

Definition set_dag (d : DAG) (s : sched) : sched := {|
  s_dag := d; s_wallet := s_wallet s; s_desk := s_desk s; s_tasks := s_tasks s;
  s_replans := s_replans s; s_result := s_result s; s_runs := s_runs s |}.
Definition set_wallet (x : wallet F) (s : sched) : sched := {|
  s_dag := s_dag s; s_wallet := x; s_desk := s_desk s; s_tasks := s_tasks s;
  s_replans := s_replans s; s_result := s_result s; s_runs := s_runs s |}.
Definition set_desk (x : desk) (s : sched) : sched := {|
  s_dag := s_dag s; s_wallet := s_wallet s; s_desk := x; s_tasks := s_tasks s;
  s_replans := s_replans s; s_result := s_result s; s_runs := s_runs s |}.
Definition set_tasks (x : gmap uuid Task) (s : sched) : sched := {|
  s_dag := s_dag s; s_wallet := s_wallet s; s_desk := s_desk s; s_tasks := x;
  s_replans := s_replans s; s_result := s_result s; s_runs := s_runs s |}.
Definition set_replans (x : nat) (s : sched) : sched := {|
  s_dag := s_dag s; s_wallet := s_wallet s; s_desk := s_desk s; s_tasks := s_tasks s;
  s_replans := x; s_result := s_result s; s_runs := s_runs s |}.
Definition set_result (x : wf_result) (s : sched) : sched := {|
  s_dag := s_dag s; s_wallet := s_wallet s; s_desk := s_desk s; s_tasks := s_tasks s;
  s_replans := s_replans s; s_result := Some x; s_runs := s_runs s |}.
Definition log_runs (x : list (nat * string)) (s : sched) : sched := {|
  s_dag := s_dag s; s_wallet := s_wallet s; s_desk := s_desk s; s_tasks := s_tasks s;
  s_replans := s_replans s; s_result := s_result s; s_runs := s_runs s ++ x |}.

(** [workflow.status = ...] *)
Definition set_workflow_status (st : WorkflowStatus) (s : sched) : sched :=
  set_desk {| store := store (s_desk s); pending_set := pending_set (s_desk s);
              twins := twins (s_desk s);
              workflow_status := <[wid := st]> (workflow_status (s_desk s)) |} s.

Definition update_task (tid : uuid) (f : Task → Task) (s : sched) : sched :=
  set_tasks (alter f tid (s_tasks s)) s.

Definition dag_op {A} (r : res dag_error A) : res exn A := res_catch r (λ e, Err (DagExn e)).

(** [dag.mark_failed(...)] *)
Definition fail_node (id err : string) (s : sched) : res exn sched :=
  p <~ dag_op (mark_failed (s_dag s) id (Some err)); Ok (set_dag p.1 s).

Definition _upsert_task_row (t : nat) (n : DAGNode) (agent : option string) (st : TaskStatus)
    (err : option string) (s : sched) : res exn (sched * uuid) :=
  node <~ dag_op (get_node (s_dag s) (node_id n));
  match task_id node ≫= λ tid, (tid,.) <$> s_tasks s !! tid with
  | Some (tid, row) =>
      Ok (set_tasks (<[tid := {|
            t_status := st; t_agent := match agent with Some a => Some a | None => t_agent row end;
            t_step := t_step row; t_error := err; t_retry_count := t_retry_count row;
            t_output := t_output row; t_review_requested := t_review_requested row |}]> (s_tasks s)) s, tid)
  | None =>
      let tid := w_task_id w t (node_id n) in
      raise_if (match s_tasks s !! tid with Some _ => true | None => false end) TaskIntegrityError ;!
      let s := set_tasks (<[tid := {|
            t_status := st; t_agent := agent; t_step := step_number (node_id n); t_error := err;
            t_retry_count := 0; t_output := None; t_review_requested := false |}]> (s_tasks s)) s in
      Ok (set_dag (update_node (set_task_id tid) (node_id n) (s_dag s)) s, tid)
  end.

(** *** Phase 1 *)

(** The two dictionaries of a batch, by node: the task of every node that is
    to run, and the reservations. *)
Record batch := {
  b_s : sched;
  b_ctx : list (string * uuid);
  b_resv : list (string * string);
}.

Definition set_b (s : sched) (b : batch) : batch :=
  {| b_s := s; b_ctx := b_ctx b; b_resv := b_resv b |}.
Definition drop_ctx (id : string) (b : batch) : batch :=
  {| b_s := b_s b; b_ctx := filter (λ p, p.1 ≠ id) (b_ctx b); b_resv := b_resv b |}.

Definition budget_message (n : DAGNode) (c : F) : string :=
  "Budget insufficient for " +:+ capability n +:+ ": need ~" +:+ show_credits c +:+ " cr".

Definition prepare_node (t : nat) (n : DAGNode) (b : batch) : res exn batch :=
  let id := node_id n in
  let s := b_s b in
  match agents !! id with
  | None => s <~ fail_node id "No agent assigned" s; Ok (set_b s b)
  | Some agent =>
      let estimated_cost := estimate n agent in
      match reserve_budget (w_event_id w t id "reserve") wid (ag_id agent) estimated_cost
              ("Task " +:+ id +:+ ": " +:+ capability n)
              (Some (wid +:+ ":" +:+ id +:+ ":reserve")) [] (s_wallet s) with
      | Err BudgetExhaustedError =>
          s <~ fail_node id (budget_message n estimated_cost) s;
          p <~ _upsert_task_row t n (Some (ag_id agent)) FAILED 
                 (Some ("Budget insufficient: need ~" +:+ show_credits estimated_cost +:+ " cr")) s;
          Ok (set_b p.1 b)
      | Err e => Err (WalletExn e)
      | Ok (reservation, x) =>
          let s := set_wallet x s in
          d <~ dag_op (mark_running (s_dag s) id);
          p <~ _upsert_task_row t n (Some (ag_id agent)) RUNNING None (set_dag d s);
          raise_if (negb (w_context_ok w t id)) ServiceError ;!
          Ok {| b_s := p.1; b_ctx := dict_set id p.2 (b_ctx b);
                b_resv := dict_set id (wallet_event_id reservation) (b_resv b) |}
      end
  end.

Fixpoint for_nodes (f : DAGNode → batch → res exn batch) (ns : list DAGNode) (b : batch)
    : res exn batch :=
  match ns with
  | [] => Ok b
  | n :: ns => b <~ f n b; for_nodes f ns b
  end.

(** [[n for n in ready_nodes if n.node_id in node_contexts]] *)
Definition active (b : batch) (ready : list DAGNode) : list DAGNode :=
  filter (λ n, node_id n ∈ dict_keys (b_ctx b)) ready.

(** *** Phase 1.5 *)

Definition APPROVAL_REQUIRED_CAPABILITIES : list string :=
  ["risk-assessment"; "compliance-check"; "safety-analysis"].

Definition _policy_evaluate_node (t : nat) (n : DAGNode) (b : batch) : batch :=
  match w_policy w t (node_id n), dict_get (node_id n) (b_ctx b) with
  | Some d, Some tid =>
      if decide (act d = DENY) then
        drop_ctx (node_id n)
          (set_b (update_task tid (with_task SKIPPED (Some ("Policy denied ("
             +:+ default "None" (rule_id d) +:+ "): " +:+ Policy.reason d))) (b_s b)) b)
      else b
  | _, _ => b
  end.

Definition policy_escalates (t : nat) (n : DAGNode) : bool :=
  match w_policy w t (node_id n) with
  | Some d => bool_decide (act d = ESCALATE_HUMAN)
  | None => false
  end.

(** The nodes that need approval are chosen by capability before the policies
    are evaluated, and those they escalate are appended. *)
Definition needing_approval (t : nat) (act_nodes : list DAGNode) : list DAGNode :=
  filter (λ n, capability n ∈ APPROVAL_REQUIRED_CAPABILITIES) act_nodes ++
  filter (λ n, policy_escalates t n = true ∧ ¬ capability n ∈ APPROVAL_REQUIRED_CAPABILITIES) act_nodes.

Definition approval_context (tid : uuid) (n : DAGNode) : list (string * string) := [
  ("workflow_id", _escape_string wid); ("task_id", _escape_string (uuid_str tid));
  ("capability", _escape_string (capability n)); ("description", _escape_string (description n));
  ("agent", _escape_string (from_option ag_name "" (agents !! node_id n)))].

(** [inl] goes on, [inr] is the pause. *)
Definition gate_node (t : nat) (n : DAGNode) (b : batch) : res exn (batch + sched * string) :=
  let id := node_id n in
  tid <~ res_of_option ContextKeyError (dict_get id (b_ctx b));
  let decision :=
    if w_lookup_ok w t id then find_decision_for_node wid id (s_desk (b_s b)) else None in
  match decision with
  | Some r =>
      if String.eqb (Approval.status r) "denied" then
        s <~ fail_node id ("Denied by human: " +:+ default "reviewer" (decided_by r)) (b_s b);
        Ok (inl (drop_ctx id (set_b (update_task tid (with_task SKIPPED
             (Some ("Denied: " +:+ default "No reason provided" (dict_get "denial_reason" (context r))))) s) b)))
      else Ok (inl b)
  | None =>
      d <~ dag_op (mark_pending (s_dag (b_s b)) id);
      let s := set_dag d (b_s b) in
      let rid := w_request_id w t id in
      match request_approval me rid wid (Some (uuid_str tid)) ("execute_" +:+ capability n)
              (approval_context tid n) "high_risk_task" 300
              (w_checkpoint w t id) (Some id) (w_up w t id) (w_now w t id) (s_desk s) with
      | (_, Err e) => Err (ApprovalExn e)
      | (dk, Ok _) =>
          let s := set_desk (w_others w t id dk) s in
          match check_status rid (w_now w t id) (s_desk s) with
          | Ok r =>
              if is_pending r then
                let s := if w_up w t id then
                           update_task tid (with_task AWAITING_APPROVAL (Some ("Awaiting human approval (request: " +:+ rid +:+ ")")))
                             (set_workflow_status Approval.AWAITING_APPROVAL s)
                         else s in
                Ok (inr (s, rid))
              else Ok (inl (set_b (update_task tid (with_task RUNNING None) s) b))
          | Err _ => Ok (inl (set_b (update_task tid (with_task RUNNING None) s) b))
          end
      end
  end.

Fixpoint gate (t : nat) (ns : list DAGNode) (b : batch) : res exn (batch + sched * (string * string)) :=
  match ns with
  | [] => Ok (inl b)
  | n :: ns =>
      r <~ gate_node t n b;
      match r with
      | inl b => gate t ns b
      | inr (s, rid) => Ok (inr (s, (node_id n, rid)))
      end
  end.

(** *** Phase 2 *)

Definition cache_response (text : string) : LLMResponse := {|
  content := text; model_used := "cache"; tool_calls := []; cost := 0; m_tool_calls := [];
  m_tool_iterations := None; m_budget_truncated := false; m_summary_forced := false;
  m_summary_empty := false |}.

Definition _llm_call (t : nat) (n : DAGNode) : res loop_exn LLMResponse :=
  let id := node_id n in
  match w_cached w t id with
  | Some text => Ok (cache_response text)
  | None => (_run_tool_loop (w_generate w t id) (w_tool w t id) (w_afford w t id) (w_max_iterations w)).1
  end.

(** *** Phase 3 *)

(** [dag.mark_failed(...)] after a failed task; the dependents are skipped. *)
Definition _handle_failure (n : DAGNode) (why : string) (s : sched) : res exn sched :=
  fail_node (node_id n) why s.

(** A release that is best effort *)
Definition try_release (t : nat) (n : DAGNode) (why : string) (b : batch) (s : sched) : sched :=
  match dict_get (node_id n) (b_resv b) with
  | None => s
  | Some rid =>
      match release_reservation (w_event_id w t (node_id n) "release") wid rid why None [] (s_wallet s) with
      | Ok (_, x) => set_wallet x s
      | Err _ => s
      end
  end.

(** [min(1.0, len(content) / 500)], lowered by a failed consensus *)
Definition task_confidence (t : nat) (n : DAGNode) (text : string) : spec_float :=
  let quality := f_min (f_of_nat 1) (f_div (f_of_nat (length (py_chars text))) (f_of_nat 500)) in
  if bool_decide (capability n ∈ APPROVAL_REQUIRED_CAPABILITIES) then
    match w_consensus w t (node_id n) with
    | Some agreement => f_max f0_3 (f_mul quality agreement)
    | None => quality
    end
  else quality.

(** The confidence in it is the number [task_confidence]. *)
Definition review_context (tid : uuid) (n : DAGNode) (text : string) : list (string * string) := [
  ("workflow_id", _escape_string wid); ("task_id", _escape_string (uuid_str tid));
  ("capability", _escape_string (capability n));
  ("output_preview", _escape_string (str_join "" (take 500 (py_chars text))))].

Definition request_review (t : nat) (n : DAGNode) (tid : uuid) (text : string) (s : sched) : sched :=
  if f_lt (task_confidence t n text) f0_4 then
    match request_approval me (w_request_id w t (node_id n +:+ ":review")) wid (Some (uuid_str tid))
            "review_low_confidence_output" (review_context tid n text) "low_confidence_review" 120
            None None (w_up w t (node_id n)) (w_now w t (node_id n)) (s_desk s) with
    | (dk, Ok _) =>
        update_task tid (λ r, {| t_status := t_status r; t_agent := t_agent r; t_step := t_step r;
          t_error := t_error r; t_retry_count := t_retry_count r; t_output := t_output r;
          t_review_requested := true |}) (set_desk dk s)
    | (dk, Err _) => set_desk dk s
    end
  else s.

(** The flag says whether the batch goes on with the next node at once. *)
Definition _reflect_on_task (t : nat) (n : DAGNode) (tid : uuid) (s : sched) : sched * bool :=
  match w_reflect w t (node_id n) with
  | None => (s, false)
  | Some r =>
      if String.eqb (rf_action r) "accept" then (s, false)
      else if String.eqb (rf_action r) "retry_task" then
        let retry_count := from_option t_retry_count 0 (s_tasks s !! tid) in
        if should_retry r retry_count then
          match mark_pending (s_dag s) (node_id n) with
          | Ok d =>
              (set_dag d (update_task tid (λ row, {| t_status := PENDING; t_agent := t_agent row;
                 t_step := t_step row; t_error := t_error row; t_retry_count := S retry_count;
                 t_output := t_output row; t_review_requested := false |}) s), true)
          | Err _ => (s, false)
          end
        else (s, false)
      else if bool_decide (rf_action r ∈ ["re_plan"; "add_verifier"]) then
        if MAX_REPLANS_PER_WORKFLOW <=? s_replans s then (s, false)
        else
          match replan (s_dag s) (node_id n)
                  (str_or_else (str_join "; " (take 3 (rf_issues r))) (rf_action r)) with
          | Some d => (set_replans (S (s_replans s)) (set_dag d s), false)
          | None => (s, false)
          end
      else if String.eqb (rf_action r) "abort" then
        (set_result (ResultAborted (node_id n)) (set_workflow_status Approval.FAILED s), false)
      else (s, false)
  end.

(** The body of the [try]: the state it reaches, whether the charge was made,
    and the exception that ends it. *)
Definition post_process (t : nat) (n : DAGNode) (tid : uuid) (b : batch) (resp : LLMResponse)
    (s : sched) : sched * bool * option exn :=
  let id := node_id n in
  match (match dict_get id (b_resv b), agents !! id with
         | Some rid, Some agent =>
             p <~ charge (w_event_id w t id "charge-release") (w_event_id w t id "charge") wid (ag_id agent)
                    (credits (cost resp)) rid ("Task " +:+ id +:+ " completed: " +:+ pretty (w_tokens w t id) +:+ " tokens")
                    (Some (wid +:+ ":" +:+ id +:+ ":charge")) (s_wallet s);
             Ok (set_wallet p.2 s, true)
         | _, _ => Ok (s, false)
         end) with
  | Err e => (s, false, Some (WalletExn e))
  | Ok (s, charged) =>
      if negb (w_memory_ok w t id) || negb (w_trust_ok w t id) then (s, charged, Some ServiceError)
      else
        let s := update_task tid (λ r, {| t_status := COMPLETED; t_agent := t_agent r;
                   t_step := t_step r; t_error := t_error r; t_retry_count := t_retry_count r;
                   t_output := Some (content resp); t_review_requested := false |}) s in
        match mark_completed (s_dag s) id (Some (content resp)) with
        | Err e => (s, charged, Some (DagExn e))
        | Ok (d, _) =>
            let s := request_review t n tid (content resp) (set_dag d s) in
            let '(s, continue_loop) := _reflect_on_task t n tid s in
            if continue_loop : bool then (s, charged, None)
            else if w_published w t id then (s, charged, None)
            else (s, charged, Some ServiceError)
        end
  end.

Definition process_result (t : nat) (b : batch) (n : DAGNode) (s : sched) : res exn sched :=
  tid <~ res_of_option ContextKeyError (dict_get (node_id n) (b_ctx b));
  match _llm_call t n with
  | Err e =>
      let text := w_exn_text w t (node_id n) (LLMExn e) in
      let s := update_task tid (with_task FAILED (Some text)) s in
      let s := try_release t n ("Task " +:+ node_id n +:+ " failed: LLM error") b s in
      _handle_failure n text s
  | Ok resp =>
      match post_process t n tid b resp s with
      | (s, _, None) => Ok s
      | (s, charged, Some e) =>
          let text := w_exn_text w t (node_id n) e in
          let s := if negb charged
                   then try_release t n ("Task " +:+ node_id n +:+ " post-processing failed: " +:+ text) b s
                   else s in
          let s := update_task tid (with_task FAILED (Some text)) s in
          _handle_failure n text s
      end
  end.

Fixpoint process_results (t : nat) (b : batch) (ns : list DAGNode) (s : sched) : res exn sched :=
  match ns with
  | [] => Ok s
  | n :: ns => s <~ process_result t b n s; process_results t b ns s
  end.

(** *** The loop *)

Definition run_batch (t : nat) (ready : list DAGNode) (s : sched)
    : res exn (sched + sched * (string * string)) :=
  b <~ for_nodes (prepare_node t) ready {| b_s := s; b_ctx := []; b_resv := [] |};
  let act_nodes := active b ready in
  let needing := needing_approval t act_nodes in
  let b := fold_left (λ b n, _policy_evaluate_node t n b) act_nodes b in
  g <~ gate t needing b;
  match g with
  | inr p => Ok (inr p)
  | inl b =>
      let act_nodes := active b ready in
      s <~ process_results t b act_nodes (log_runs (map (λ n, (t, node_id n)) act_nodes) (b_s b));
      Ok (inl s)
  end.

(** [left] iterations may still be made; [t] is [iteration_count]. *)
Fixpoint run_loop (iterations t : nat) (s : sched) : sched * outcome :=
  if is_complete (s_dag s) then (s, Finished)
  else
    match iterations with
    | O => (set_result ResultRunaway (set_workflow_status Approval.FAILED s), Runaway)
    | S iterations =>
        match get_ready_nodes (s_dag s) with
        | Err e => (s, Raised (DagExn e))
        | Ok [] => (s, Finished)
        | Ok ready =>
            match run_batch t ready s with
            | Err e => (s, Raised e)
            | Ok (inr (s, (node, rid))) => (s, Paused node rid)
            | Ok (inl s) => run_loop iterations (S t) s
            end
        end
    end.

Definition finalize (s : sched) : sched :=
  let d := s_dag s in
  let failed := failed_count d in
  let completed := completed_count d in
  let st := if (0 <? failed) && (completed =? 0) then Approval.FAILED else Approval.COMPLETED in
  set_result (ResultFinal ((0 <? failed) && (0 <? completed)) failed (skipped_count d)
                (nodes_failed_for_budget d) (negb (w_synthesis_ok w)))
    (set_workflow_status st s).

Definition max_iterations_defensive (d : DAG) : nat := Nat.max (length (d_nodes d) * 5) 50.

Definition execute_workflow (s : sched) : sched * outcome :=
  let s := set_workflow_status Approval.RUNNING s in
  match run_loop (max_iterations_defensive (s_dag s)) 1 s with
  | (s, Finished) => (finalize s, Finished)
  | r => r
  end.
End scheduler.
