(* ===== verification/SchedFacts.v ===== *)
(** * SchedFacts: what a batch of the scheduler may change

    [touches R s s'] bounds what the operations on the nodes [R] do to a run:
    the graph stays valid and keeps its nodes and dependencies, other nodes are
    at most skipped, task rows stay linked and their retry counts never fall,
    new nodes are paid for by the re-plan counter, failures stay cascaded.  It
    is a preorder, and every operation of Scheduler.v is shown to respect it;
    the batch lemmas follow by composition. *)

From Stdlib Require Import ZArith Lia.
From stdpp Require Import base tactics strings gmap relations list.
From S2P Require Import Prelude PyStr Dict Uuid Policy Wallet Approval TaskFsm Dag DagTopo DagOps ToolLoop.
From S2P Require Import Scheduler.

#[local] Open Scope nat_scope.

Section facts.
Context {F : Type} `{Arith F}.

Abbreviation sched := (sched F).

(** ** Weights *)

Definition task_of (s : sched) (id : string) : option uuid :=
  dict_get id (d_nodes (s_dag s)) ≫= task_id.

(** The node has a task row. *)
Definition linked (s : sched) (id : string) (tid : uuid) : Prop :=
  task_of s id = Some tid ∧ is_Some (s_tasks s !! tid).

Definition cap_of (s : sched) (id : string) : option string :=
  capability <$> dict_get id (d_nodes (s_dag s)).

Definition retries (s : sched) (id : string) : nat :=
  from_option t_retry_count 0 (task_of s id ≫= λ tid, s_tasks s !! tid).

Definition st_of (s : sched) (id : string) : option TaskStatus := status_of (s_dag s) id.

Definition waits (s : sched) (id : string) : Prop :=
  match st_of s id with Some x => waiting x | None => False end.

#[export] Instance waits_dec s id : base.Decision (waits s id).
Proof. unfold waits. destruct (st_of s id); unfold waiting; apply _. Defined.

(** A final state *)
Definition settled (s : sched) (id : string) : Prop :=
  ∃ x, st_of s id = Some x ∧ x ∈ [COMPLETED; FAILED; SKIPPED].

(** How often the node may still be run *)
Definition weight (s : sched) (id : string) : nat :=
  if decide (waits s id) then S (2 - retries s id) else 0.

(** ** The relation *)

Definition ready_deps (R : string → Prop) (s : sched) : Prop :=
  ∀ r p, R r → edge (s_dag s) p r → ¬ R p ∧ st_of s p = Some COMPLETED.

Record touches (R : string → Prop) (s s' : sched) : Prop := {
  tc_valid : valid_dag (s_dag s) → valid_dag (s_dag s');
  tc_new : valid_dag (s_dag s) → ∃ new, node_ids (s_dag s') = node_ids (s_dag s) ++ new ∧
    s_replans s' = s_replans s + length new ∧ (new = [] ∨ s_replans s' ≤ MAX_REPLANS_PER_WORKFLOW);
  tc_deps : valid_dag (s_dag s) → ∀ x, x ∈ node_ids (s_dag s) → deps (s_dag s') x = deps (s_dag s) x;
  tc_status : valid_dag (s_dag s) → ∀ x, x ∈ node_ids (s_dag s) → ¬ R x → st_of s' x = st_of s x ∨
    (∃ y, st_of s x = Some y ∧ skippable y = true) ∧ st_of s' x = Some SKIPPED;
  tc_linked : valid_dag (s_dag s) → ∀ x tid, linked s x tid → linked s' x tid;
  tc_retries : valid_dag (s_dag s) → ∀ x, retries s x ≤ retries s' x;
  tc_cascaded : valid_dag (s_dag s) → ready_deps R s → cascaded (s_dag s) → cascaded (s_dag s');
  tc_fresh : valid_dag (s_dag s) → ∀ x, x ∈ node_ids (s_dag s') → x ∉ node_ids (s_dag s) →
    waits s' x ∨ settled s' x;
  tc_runs : s_runs s' = s_runs s;
  tc_cap : valid_dag (s_dag s) → ∀ x, x ∈ node_ids (s_dag s) → cap_of s' x = cap_of s x;
}.

Lemma tc_ids R s s' x :
  touches R s s' → valid_dag (s_dag s) → x ∈ node_ids (s_dag s) → x ∈ node_ids (s_dag s').
Proof. intros T Hv Hx. destruct (tc_new _ _ _ T Hv) as (new&->&_). apply elem_of_app. by left. Qed.

Lemma st_of_node (s : sched) x : is_Some (st_of s x) ↔ x ∈ node_ids (s_dag s).
Proof. unfold st_of, status_of. rewrite fmap_is_Some. apply dict_get_is_Some. Qed.

Lemma edge_node (s : sched) p r : edge (s_dag s) p r → r ∈ node_ids (s_dag s).
Proof. unfold edge, deps. intros He. apply dict_get_is_Some. destruct (dict_get r _); [done|by apply elem_of_nil in He]. Qed.

Lemma touches_ready R s s' :
  touches R s s' → valid_dag (s_dag s) → (∀ r, R r → r ∈ node_ids (s_dag s)) →
  ready_deps R s → ready_deps R s'.
Proof.
  intros T Hv HR Hr r p Hrr He. pose proof (HR r Hrr) as Hin.
  unfold edge in He. rewrite (tc_deps _ _ _ T Hv r Hin) in He.
  destruct (Hr r p Hrr He) as [Hp Hst]. split; [done|].
  destruct (tc_status _ _ _ T Hv p) as [E|[(y&Hy&Hsk) _]]; [|done|congruence|].
  - apply st_of_node. by rewrite Hst.
  - rewrite Hst in Hy. injection Hy as <-. done.
Qed.

#[export] Instance touches_refl R : Reflexive (touches R).
Proof.
  intros s. split; try done; [|by left].
  exists []. rewrite app_nil_r. split_and!; [done|cbn; lia|by left].
Qed.

Lemma still_free (s s' : sched) x :
  st_of s' x = st_of s x ∨ (∃ y, st_of s x = Some y ∧ skippable y = true) ∧ st_of s' x = Some SKIPPED →
  waits s x ∨ settled s x → waits s' x ∨ settled s' x.
Proof.
  unfold waits, settled. intros [->|[_ ->]]; [done|]. intros _. right. exists SKIPPED. split; [done|set_solver].
Qed.

Lemma touches_trans (R : string → Prop) s1 s2 s3 :
  (∀ r, R r → r ∈ node_ids (s_dag s1)) → touches R s1 s2 → touches R s2 s3 → touches R s1 s3.
Proof.
  intros HR T1 T2. split.
  - intros Hv. by apply (tc_valid _ _ _ T2), (tc_valid _ _ _ T1).
  - intros Hv. destruct (tc_new _ _ _ T1 Hv) as (n1&E1&R1&H1).
    destruct (tc_new _ _ _ T2 (tc_valid _ _ _ T1 Hv)) as (n2&E2&R2&H2). exists (n1 ++ n2).
    rewrite E2, E1, app_assoc, length_app. split_and!; [done|lia|].
    destruct n2; [|right; by destruct H2]. destruct n1; [by left|right]. cbn in R2.
    destruct H1; [done|lia].
  - intros Hv x Hx. rewrite (tc_deps _ _ _ T2 (tc_valid _ _ _ T1 Hv)) by by eapply tc_ids.
    by apply (tc_deps _ _ _ T1).
  - intros Hv x Hx Hn. pose proof (tc_valid _ _ _ T1 Hv) as Hv2.
    destruct (tc_status _ _ _ T2 Hv2 x) as [->|[(y&Hy&Hs) E2]]; [by eapply tc_ids|done|by apply (tc_status _ _ _ T1)|].
    right. split; [|done]. destruct (tc_status _ _ _ T1 Hv x Hx Hn) as [E|[? E]]; [exists y; by rewrite <-E|done].
  - intros Hv x tid Hl. by apply (tc_linked _ _ _ T2 (tc_valid _ _ _ T1 Hv)), (tc_linked _ _ _ T1 Hv).
  - intros Hv x. etrans; [apply (tc_retries _ _ _ T1 Hv)|apply (tc_retries _ _ _ T2 (tc_valid _ _ _ T1 Hv))].
  - intros Hv Hr Hc. apply (tc_cascaded _ _ _ T2 (tc_valid _ _ _ T1 Hv)).
    + by eapply touches_ready.
    + by apply (tc_cascaded _ _ _ T1).
  - intros Hv x Hx Hn. pose proof (tc_valid _ _ _ T1 Hv) as Hv2.
    destruct (decide (x ∈ node_ids (s_dag s2))) as [Hin|Hin]; [|by apply (tc_fresh _ _ _ T2 Hv2)].
    eapply still_free; [apply (tc_status _ _ _ T2 Hv2 x Hin); by intros ?%HR|by apply (tc_fresh _ _ _ T1 Hv)].
  - by rewrite (tc_runs _ _ _ T2), (tc_runs _ _ _ T1).
  - intros Hv x Hx. rewrite (tc_cap _ _ _ T2 (tc_valid _ _ _ T1 Hv)) by by eapply tc_ids.
    by apply (tc_cap _ _ _ T1).
Qed.

Lemma touches_weaken (R R' : string → Prop) s s' : (∀ x, R x → R' x) → touches R s s' → touches R' s s'.
Proof.
  intros HR [V N D S L Re C Fr Ru Cp]. split; try done.
  - intros Hv x Hx Hn. apply S; [done..|naive_solver].
  - intros Hv Hr. apply C; [done|]. intros r p Hrr He. destruct (Hr r p (HR r Hrr) He). naive_solver.
Qed.

(** A change that leaves graph, rows, re-plan counter and the runs alone *)
Lemma touches_same R (s s' : sched) :
  s_dag s' = s_dag s → s_tasks s' = s_tasks s → s_replans s' = s_replans s → s_runs s' = s_runs s →
  touches R s s'.
Proof.
  intros Hd Ht Hr Hu. split; unfold linked, retries, task_of, cap_of, st_of; rewrite ?Hd, ?Ht, ?Hr; try done; [|by left].
  exists []. rewrite app_nil_r. split_and!; [done|cbn; lia|by left].
Qed.

(** What happens to a run does not depend on the runs that are on record. *)
Lemma touches_log R (s s' : sched) l : touches R s s' → touches R (log_runs l s) (log_runs l s').
Proof.
  intros [V N D S L Re C Fr Ru Cp]. split; try done. cbn. by rewrite Ru.
Qed.

(** ** Operations on the graph *)

Lemma status_of_fmap d d' (g : string → DAGNode → DAGNode) x :
  dict_get x (d_nodes d') = g x <$> dict_get x (d_nodes d) →
  status_of d' x = (λ n, status (g x n)) <$> dict_get x (d_nodes d).
Proof. unfold status_of. intros ->. by destruct (dict_get x _). Qed.

(** A graph of the same shape whose nodes keep their task identifiers *)
Lemma touches_shape R s d' (g : string → DAGNode → DAGNode) :
  (valid_dag (s_dag s) → same_shape (s_dag s) d') →
  (∀ c, dict_get c (d_nodes d') = g c <$> dict_get c (d_nodes (s_dag s))) →
  (∀ c n, task_id (g c n) = task_id n ∧ capability (g c n) = capability n) →
  (∀ c n, ¬ R c → dict_get c (d_nodes (s_dag s)) = Some n →
     status (g c n) = status n ∨ skippable (status n) = true ∧ status (g c n) = SKIPPED) →
  (valid_dag (s_dag s) → ready_deps R s → cascaded (s_dag s) → cascaded d') →
  touches R s (set_dag d' s).
Proof.
  intros Hsh Hg Ht Hs Hc.
  assert (∀ x, task_of (set_dag d' s) x = task_of s x) as Htask.
  { intros x. unfold task_of. cbn. rewrite Hg. destruct (dict_get x _) as [n|]; cbn; [by rewrite (proj1 (Ht x n))|done]. }
  split; cbn [s_dag s_replans set_dag].
  - intros Hv. by eapply same_shape_valid; [apply Hsh|].
  - intros Hv. exists []. rewrite app_nil_r. split_and!; [apply (ss_ids _ _ (Hsh Hv))|cbn; lia|by left].
  - intros Hv x _. apply (ss_deps _ _ (Hsh Hv)).
  - intros Hv x Hx Hn. unfold st_of. cbn [set_dag s_dag]. rewrite (status_of_fmap _ _ _ _ (Hg x)). unfold status_of.
    apply dict_get_is_Some in Hx as [n Hx]. rewrite Hx. cbn.
    destruct (Hs x n Hn Hx) as [-> |[Hsk ->]]; [by left|right]. split; [by exists (status n)|done].
  - intros _ x tid. unfold linked. by rewrite Htask.
  - intros _ x. unfold retries. by rewrite Htask.
  - exact Hc.
  - intros Hv x Hx []. by rewrite <-(ss_ids _ _ (Hsh Hv)).
  - done.
  - intros _ x _. unfold cap_of. cbn. rewrite Hg. destruct (dict_get x _) as [n|]; [|done]. cbn. f_equal. apply Ht.
Qed.

(** An update of a ready node to a state that is not a failure *)
Lemma update_cascaded_ready (f : DAGNode → DAGNode) s id :
  (∀ n, depends_on (f n) = depends_on n) → (∀ n, status (f n) ∉ [FAILED; SKIPPED]) →
  ready_deps (λ x, x = id) s → cascaded (s_dag s) → cascaded (update_node f id (s_dag s)).
Proof.
  intros Hf Hst Hr Hcas p c x He Hp Hc. unfold edge in He. rewrite update_node_deps in He by done.
  rewrite !status_of_update in *. destruct (decide (id = p)) as [<-|Hp'].
  { exfalso. destruct (dict_get id _) as [n|]; [|naive_solver]. cbn in Hp.
    apply (Hst n). destruct Hp as [[= ->]|[= ->]]; set_solver. }
  destruct (decide (id = c)) as [<-|Hc']; [|by eapply Hcas].
  exfalso. destruct (Hr id p eq_refl He) as [_ E]. unfold st_of in E. rewrite E in Hp. naive_solver.
Qed.

Lemma touches_update (f : DAGNode → DAGNode) s id :
  (∀ n, node_id (f n) = node_id n ∧ depends_on (f n) = depends_on n ∧
     task_id (f n) = task_id n ∧ capability (f n) = capability n) →
  (∀ n, status (f n) ∉ [FAILED; SKIPPED]) →
  touches (λ x, x = id) s (set_dag (update_node f id (s_dag s)) s).
Proof.
  intros Hf Hst. apply (touches_shape _ s _ (λ c n, if decide (id = c) then f n else n)).
  - intros (Hwf&_). apply update_same_shape; [|done]. intros n. destruct (Hf n) as (?&?&_). done.
  - intros c. cbn. rewrite dict_get_alter. case_decide; [done|by destruct (dict_get c _)].
  - intros c n. case_decide; [apply Hf|done].
  - intros c n Hn _. case_decide; [congruence|by left].
  - intros _. apply update_cascaded_ready; [|done]. intros n. apply Hf.
Qed.

Lemma fail_node_spec s id err :
  valid_dag (s_dag s) → id ∈ node_ids (s_dag s) →
  ∃ s', fail_node id err s = Ok s' ∧ touches (λ x, x = id) s s' ∧ st_of s' id = Some FAILED ∧
    s_tasks s' = s_tasks s.
Proof.
  intros Hv Hid. apply dict_get_is_Some in Hid as [n Hn]. apply get_node_Ok in Hn.
  destruct (mark_failed_unfold (s_dag s) id (Some err) n Hv Hn) as (d'&sk&Hm&_&Hdoom&Hids&Ha&Hrv&Hget).
  exists (set_dag d' s). unfold fail_node. rewrite Hm. cbn [dag_op res_catch res_bind fst].
  apply get_node_Ok in Hn. split; [done|]. split; [|split; [|done]].
  - apply (touches_shape _ s d' (λ c, if decide (c = id) then mark_failed_node (Some err)
      else if decide (c ∈ sk) then mark_skipped id else λ m, m)); [|done| | |].
    + intros _. by eapply mark_failed_shape.
    + intros c m. by repeat case_decide.
    + intros c m Hc Hm'. rewrite decide_False by done. case_decide as Hsk; [|by left]. right.
      split; [|done]. apply Hdoom in Hsk. assert (skippable_at (s_dag s) c) as (y&Hy&Hys).
      { by destruct Hsk. }
      unfold status_of in Hy. rewrite Hm' in Hy. cbn in Hy. by injection Hy as <-.
    + intros _ _ Hc. by eapply mark_failed_cascaded.
  - unfold st_of, status_of. cbn. rewrite Hget, decide_True, Hn by done. done.
Qed.

(** ** Operations on the task rows *)

Lemma touches_tasks R (s : sched) ts :
  (∀ tid r, s_tasks s !! tid = Some r → ∃ r', ts !! tid = Some r' ∧ t_retry_count r ≤ t_retry_count r') →
  touches R s (set_tasks ts s).
Proof.
  intros Hts. split; try done; [|by left| |].
  - exists []. rewrite app_nil_r. split_and!; [done|cbn; lia|by left].
  - intros _ x tid [Ht [r Hr]]. split; [done|]. cbn. destruct (Hts tid r Hr) as (r'&->&_). done.
  - intros _ x. unfold retries. change (task_of (set_tasks ts s) x) with (task_of s x).
    destruct (task_of s x) as [tid|]; cbn; [|lia]. destruct (s_tasks s !! tid) as [r|] eqn:E; cbn; [|lia].
    destruct (Hts tid r E) as (r'&->&Hle). exact Hle.
Qed.

Lemma touches_task R (s : sched) tid f :
  (∀ r, t_retry_count r ≤ t_retry_count (f r)) → touches R s (update_task tid f s).
Proof.
  intros Hf. apply touches_tasks. intros t r Hr. destruct (decide (t = tid)) as [->|Hne].
  - exists (f r). rewrite lookup_alter_eq, Hr. split; [done|apply Hf].
  - exists r. rewrite lookup_alter_ne by done. split; [done|lia].
Qed.

(** A fresh row for a node that has none *)
Lemma touches_new_row R (s : sched) id tid row :
  s_tasks s !! tid = None →
  (∀ t, task_of s id = Some t → s_tasks s !! t = None) →
  touches R s (set_dag (update_node (set_task_id tid) id (s_dag s)) (set_tasks (<[tid := row]> (s_tasks s)) s)).
Proof.
  intros Hfresh Hnone. set (s' := set_dag _ _).
  assert (∀ x, dict_get x (d_nodes (s_dag s')) =
    (if decide (id = x) then set_task_id tid else λ n, n) <$> dict_get x (d_nodes (s_dag s))) as Hget.
  { intros x. unfold s'. cbn. rewrite dict_get_alter. case_decide; [done|by destruct (dict_get x _)]. }
  assert (∀ x, st_of s' x = st_of s x) as Hst.
  { intros x. unfold st_of, status_of. rewrite Hget. destruct (dict_get x _); [|done]. by case_decide. }
  assert (∀ x, id ≠ x → task_of s' x = task_of s x) as Htask.
  { intros x Hx. unfold task_of. rewrite Hget, decide_False by done. by destruct (dict_get x _). }
  split.
  - intros Hv. eapply same_shape_valid; [|exact Hv]. apply update_same_shape; [done|by destruct Hv].
  - intros _. exists []. rewrite app_nil_r. unfold s'. cbn [s_dag set_dag].
    rewrite update_node_ids. split_and!; [done|cbn; lia|by left].
  - intros _ x _. apply (update_node_deps (set_task_id tid) id (s_dag s)). done.
  - intros _ x _ _. left. apply Hst.
  - intros _ x t [Ht [r Hr]]. destruct (decide (id = x)) as [<-|Hx].
    + rewrite (Hnone t Ht) in Hr. done.
    + split; [by rewrite Htask|]. cbn. rewrite lookup_insert_is_Some. destruct (decide (tid = t)); naive_solver.
  - intros _ x. destruct (decide (id = x)) as [<-|Hx].
    + unfold retries. destruct (task_of s id) as [t|] eqn:Et; cbn; [|lia]. rewrite (Hnone t) by done. cbn. lia.
    + unfold retries. rewrite Htask by done. destruct (task_of s x) as [t|]; cbn; [|lia].
      destruct (s_tasks s !! t) as [r|] eqn:E; cbn; [|lia].
      rewrite lookup_insert_ne by congruence. rewrite E. done.
  - intros _ _ Hc p c y He Hp Hy. unfold edge in He. unfold s' in He. cbn [s_dag set_dag] in He.
    rewrite update_node_deps in He by done. pose proof (Hst p) as Ep. pose proof (Hst c) as Ec.
    unfold st_of in Ep, Ec. rewrite Ep in Hp. rewrite Ec in Hy. by eapply Hc.
  - intros _ x Hx []. unfold s' in Hx. cbn [s_dag set_dag] in Hx. by rewrite update_node_ids in Hx.
  - done.
  - intros _ x _. unfold cap_of. rewrite Hget. destruct (dict_get x _); [|done]. by case_decide.
Qed.

Lemma waits_back R (s s' : sched) x :
  touches R s s' → valid_dag (s_dag s) → x ∈ node_ids (s_dag s) → ¬ R x → waits s' x → waits s x.
Proof.
  intros T Hv Hx Hn. unfold waits. destruct (tc_status _ _ _ T Hv x Hx Hn) as [->|[_ ->]]; [done|].
  intros Hw. unfold waiting in Hw. set_solver.
Qed.

Lemma settled_not_waits s id : settled s id → ¬ waits s id.
Proof. intros (x&E&Hx). unfold waits. rewrite E. unfold waiting. set_solver. Qed.

(** A state that is not waiting or blocked stays when other nodes are worked on. *)
Lemma status_kept R (s s' : sched) id x :
  touches R s s' → valid_dag (s_dag s) → ¬ R id → st_of s id = Some x → skippable x = false → st_of s' id = Some x.
Proof.
  intros T Hv Hn Hx Hsk. destruct (tc_status _ _ _ T Hv id) as [->|[(y&Hy&E) _]]; [|done..|congruence].
  apply st_of_node. by rewrite Hx.
Qed.

Lemma settled_kept R (s s' : sched) id :
  touches R s s' → valid_dag (s_dag s) → ¬ R id → settled s id → settled s' id.
Proof.
  intros T Hv Hn (x&Hx&Ht). exists x. split; [|done]. eapply status_kept; [done..|].
  apply bool_decide_eq_false. set_solver.
Qed.

Definition not_dag (e : exn) : Prop := ∀ x, e ≠ DagExn x.

Lemma upsert_spec R w t n agent st err (s : sched) :
  node_id n ∈ node_ids (s_dag s) →
  match _upsert_task_row w t n agent st err s with
  | Ok (s', tid) => touches R s s' ∧ linked s' (node_id n) tid ∧ ∀ x, st_of s' x = st_of s x
  | Err e => not_dag e
  end.
Proof.
  intros Hn. apply dict_get_is_Some in Hn as [m Hm]. unfold _upsert_task_row.
  assert (get_node (s_dag s) (node_id n) = Ok m) as -> by by apply get_node_Ok.
  cbn [dag_op res_catch res_bind].
  assert (task_of s (node_id n) = task_id m) as Htask by (unfold task_of; by rewrite Hm).
  destruct (task_id m ≫= _) as [[tid row]|] eqn:E.
  - apply bind_Some in E as (tid'&Ht&E). apply fmap_Some in E as (row'&Hr&[= -> ->]).
    split_and!; [| |done].
    + apply touches_tasks. intros tid r Hr'. destruct (decide (tid = tid')) as [->|Hne].
      * eexists. rewrite lookup_insert_eq. split; [done|]. rewrite Hr in Hr'. injection Hr' as ->. done.
      * exists r. by rewrite lookup_insert_ne.
    + split; [by rewrite <-Ht, <-Htask|]. cbn. by rewrite lookup_insert_eq.
  - destruct (s_tasks s !! w_task_id w t (node_id n)) as [r|] eqn:Ef; [done|]. cbn [raise_if res_bind].
    split_and!.
    + apply (touches_new_row R s (node_id n)); [done|]. rewrite Htask. intros x Hx. rewrite Hx in E. cbn in E.
      by destruct (s_tasks s !! x).
    + split.
      * unfold task_of. cbn. rewrite dict_get_alter, decide_True, Hm by done. done.
      * cbn. by rewrite lookup_insert_eq.
    + intros x. unfold st_of. cbn [set_dag s_dag]. rewrite status_of_update. case_decide as Hx; [|done].
      subst x. unfold status_of. by destruct (dict_get (node_id n) _).
Qed.

Lemma get_ok d id : id ∈ node_ids d → ∃ n, dict_get id (d_nodes d) = Some n ∧ get_node d id = Ok n.
Proof. intros [n Hn]%dict_get_is_Some. exists n. split; [done|by apply get_node_Ok]. Qed.

Lemma st_of_updated (s : sched) f id n :
  dict_get id (d_nodes (s_dag s)) = Some n →
  st_of (set_dag (update_node f id (s_dag s)) s) id = Some (status (f n)).
Proof. intros Hn. unfold st_of. cbn [set_dag s_dag]. rewrite status_of_update, decide_True, Hn by done. done. Qed.

(** ** Re-planning *)

Lemma touches_replan (s : sched) id why d' :
  valid_dag (s_dag s) → s_replans s < MAX_REPLANS_PER_WORKFLOW → replan (s_dag s) id why = Some d' →
  touches (λ x, x = id) s (set_replans (S (s_replans s)) (set_dag d' s)) ∧ st_of (set_dag d' s) id = st_of s id.
Proof.
  intros Hv Hlt Hr. unfold replan in Hr. destruct (dict_get id _) as [n|] eqn:Hn; [|done].
  destruct (add_node _ _) as [d1|] eqn:Ha; [|done]. injection Hr as <-.
  set (alt := alternative n why) in *.
  destruct (add_node_cases (s_dag s) alt Hv) as [[_ E]|(Hfr&d2&E&Hnodes&Hval)]; [congruence|].
  rewrite Ha in E. injection E as <-.
  assert (deps (s_dag s) id = depends_on n) as Hdeps by (unfold deps; by rewrite Hn).
  assert (valid_dag d1) as Hv'.
  { apply Hval. intros p Hp. destruct Hv as (_&Hcl&_). apply (Hcl p id). unfold edge. by rewrite Hdeps. }
  assert (∀ x, dict_get x (d_nodes d1) = if decide (node_id alt = x) then Some alt else dict_get x (d_nodes (s_dag s))) as Hget.
  { intros x. rewrite Hnodes, <-dict_set_fresh by done. rewrite dict_get_set. by case_decide. }
  assert (∀ x, x ∈ node_ids (s_dag s) → dict_get x (d_nodes d1) = dict_get x (d_nodes (s_dag s))) as Hold.
  { intros x Hx. rewrite Hget. case_decide; [congruence|done]. }
  assert (node_ids d1 = node_ids (s_dag s) ++ [node_id alt]) as Hids by (unfold node_ids; by rewrite Hnodes, map_app).
  assert (∀ x, x ∈ node_ids (s_dag s) → status_of d1 x = status_of (s_dag s) x) as Hst
    by (intros x Hx; unfold status_of; by rewrite Hold).
  assert (id ∈ node_ids (s_dag s)) as Hid by (apply dict_get_is_Some; by exists n).
  split; [|by apply Hst]. split; cbn [s_dag s_replans set_dag set_replans].
  - done.
  - intros _. exists [node_id alt]. split_and!; [done|cbn; lia|by right].
  - intros _ x Hx. unfold deps. by rewrite Hold.
  - intros _ x Hx _. left. by apply Hst.
  - intros _ x tid [Ht Hr]. split; [|done]. unfold task_of in *. cbn. rewrite Hold; [done|].
    apply dict_get_is_Some. by destruct (dict_get x _).
  - intros _ x. unfold retries, task_of. cbn [s_dag set_dag set_replans s_tasks].
    destruct (dict_get x (d_nodes (s_dag s))) as [m|] eqn:Em; [|cbn; lia].
    rewrite Hold by (apply dict_get_is_Some; by exists m). by rewrite Em.
  - intros _ Hr Hc p c y He Hp Hy. unfold edge, deps in He. rewrite Hget in He. case_decide as Hca.
    + change (p ∈ depends_on n) in He. rewrite <-Hdeps in He. destruct (Hr id p eq_refl He) as [_ E].
      destruct Hv as (_&Hcl&_). rewrite Hst in Hp by by eapply Hcl. unfold st_of in E. rewrite E in Hp. naive_solver.
    + assert (edge (s_dag s) p c) as He' by exact He. destruct Hv as (_&Hcl&_).
      rewrite Hst in Hp by by eapply Hcl. rewrite Hst in Hy; [by eapply Hc|]. by eapply edge_node.
  - intros _ x Hx Hnx. left. rewrite Hids in Hx. apply elem_of_app in Hx as [?| ->%list_elem_of_singleton]; [done|].
    assert (st_of (set_replans (S (s_replans s)) (set_dag d1 s)) (node_id alt) = Some PENDING) as E.
    { unfold st_of, status_of. cbn [s_dag set_dag set_replans]. by rewrite Hget, decide_True. }
    unfold waits. rewrite E. by left.
  - done.
  - intros _ x Hx. unfold cap_of. cbn [s_dag set_dag set_replans]. by rewrite Hold.
Qed.
End facts.
