(* ===== verification/SchedBatch.v ===== *)
(** * SchedBatch: one batch of the scheduler

    The three phases of a batch as lemmas over [touches]: which nodes are still
    to run after each phase, and [run_batch_spec], the progress made by a whole
    batch.  Exceptions that leave a batch never come from the graph. *)

From Stdlib Require Import ZArith QArith SpecFloat Lia.
From stdpp Require Import base tactics strings gmap relations list.
From S2P Require Import Prelude PyStr Dict PyVal Uuid Policy Wallet Approval TaskFsm Dag DagTopo DagOps ToolLoop.
From S2P Require Import Scheduler SchedFacts.

#[local] Open Scope nat_scope.

Section batch.
Context {F : Type} `{Arith F}.
Context (wid me : string) (agents : gmap string Agent).
Context (estimate : DAGNode → Agent → F) (credits : Q → F) (show_credits : F → string).
Context (w : World) (t : nat).

Abbreviation sched := (sched F).
Abbreviation batch := (@batch F).

(** The policies deny the node. *)
Definition denied (id : string) : Prop := ∃ d, w_policy w t id = Some d ∧ act d = DENY.

Definition ids (ns : list DAGNode) : list string := map node_id ns.

(** Out of the batch: failed for good, or denied and left running. *)
Definition out_of (s : sched) (id : string) : Prop :=
  settled s id ∨ denied id ∧ st_of s id = Some RUNNING.

(** Every node that is to run is marked. *)
Definition running_ctx (b : batch) : Prop :=
  ∀ id tid, dict_get id (b_ctx b) = Some tid → st_of (b_s b) id = Some RUNNING.

(** Invariant of the first two phases over the nodes [R] *)
Record batch_inv (R : list string) (s0 : sched) (b : batch) : Prop := {
  bi_touch : touches (λ x, x ∈ R) s0 (b_s b);
  bi_ctx : ∀ id tid, dict_get id (b_ctx b) = Some tid → linked (b_s b) id tid;
  bi_out : ∀ id, id ∈ R → id ∉ dict_keys (b_ctx b) → out_of (b_s b) id;
  bi_keys : ∀ id, id ∈ dict_keys (b_ctx b) → id ∈ R;
}.

Lemma out_of_kept R (s s' : sched) id :
  touches R s s' → valid_dag (s_dag s) → ¬ R id → out_of s id → out_of s' id.
Proof.
  intros T Hv Hn [Hs|[Hd Hs]]; [left; by eapply settled_kept|right]. split; [done|].
  by eapply status_kept.
Qed.

Lemma fail_settled (s : sched) id : st_of s id = Some FAILED → settled s id.
Proof. intros E. exists FAILED. split; [done|]. set_solver. Qed.

(** ** Phase 1 *)

Lemma prepare_spec n (b : batch) :
  valid_dag (s_dag (b_s b)) → node_id n ∈ node_ids (s_dag (b_s b)) →
  match prepare_node wid agents estimate show_credits w t n b with
  | Err e => not_dag e
  | Ok b' => touches (λ x, x = node_id n) (b_s b) (b_s b') ∧
      (b_ctx b' = b_ctx b ∧ settled (b_s b') (node_id n) ∨
       ∃ tid, b_ctx b' = dict_set (node_id n) tid (b_ctx b) ∧ linked (b_s b') (node_id n) tid ∧
         st_of (b_s b') (node_id n) = Some RUNNING)
  end.
Proof.
  intros Hv Hn. unfold prepare_node. destruct (agents !! node_id n) as [agent|].
  2:{ destruct (fail_node_spec (b_s b) (node_id n) "No agent assigned" Hv Hn) as (s'&->&T&E&_).
      cbn. split; [exact T|]. left. split; [done|by apply fail_settled]. }
  destruct (reserve_budget _ _ _ _ _ _ _ _) as [[ev x]|e].
  - destruct (get_ok _ _ Hn) as (m&Hm&Hg). unfold mark_running. cbn [set_wallet s_dag]. rewrite Hg.
    cbn [dag_op res_catch res_bind].
    set (s1 := set_dag _ _).
    assert (touches (λ x, x = node_id n) (b_s b) s1) as T1.
    { apply (touches_trans _ _ (set_wallet x (b_s b))); [by intros ? ->|by apply touches_same|].
      apply (touches_update (set_status RUNNING) (set_wallet x (b_s b)) (node_id n)); [done|]. intros y. cbn. set_solver. }
    assert (node_id n ∈ node_ids (s_dag s1)) as Hn1 by by eapply tc_ids.
    pose proof (upsert_spec (λ x, x = node_id n) w t n (Some (ag_id agent)) RUNNING None s1 Hn1) as Hu.
    destruct (_upsert_task_row _ _ _ _ _ _ _) as [[s2 tid]|e]; [|done]. cbn [res_bind].
    destruct Hu as (T2&Hl&Hst). destruct (w_context_ok w t (node_id n)); [|done]. cbn.
    split; [by eapply touches_trans; [intros ? ->|..]|]. right. exists tid. split_and!; [done..|].
    rewrite Hst. by apply (st_of_updated (set_wallet x (b_s b)) (set_status RUNNING) _ m).
  - destruct e; try done. 
    match goal with |- context [fail_node _ ?m _] =>
      destruct (fail_node_spec (b_s b) (node_id n) m Hv Hn) as (s1&->&T1&E&_) end. cbn [res_bind].
    assert (node_id n ∈ node_ids (s_dag s1)) as Hn1 by by eapply tc_ids.
    match goal with |- context [_upsert_task_row w t n ?a ?st ?er s1] =>
      pose proof (upsert_spec (λ x, x = node_id n) w t n a st er s1 Hn1) as Hu end.
    destruct (_upsert_task_row _ _ _ _ _ _ _) as [[s2 tid]|e]; [|done]. cbn.
    destruct Hu as (T2&_&Hst). split; [by eapply touches_trans; [intros ? ->|..]|]. left. split; [done|].
    apply fail_settled. by rewrite Hst.
Qed.

Lemma in_keys_set {V} (id : string) (v : V) d x : x ∈ dict_keys (dict_set id v d) ↔ x = id ∨ x ∈ dict_keys d.
Proof.
  rewrite <-!dict_get_is_Some, dict_get_set. case_decide as E.
  - subst. split; [by left|]. by eexists.
  - split; [by right|]. intros [->|?]; done.
Qed.

(** One more node has been worked on. *)
Lemma batch_inv_step R s0 b b' id :
  valid_dag (s_dag s0) → (∀ x, x ∈ R → x ∈ node_ids (s_dag s0)) → id ∈ node_ids (s_dag s0) →
  batch_inv R s0 b → touches (λ x, x = id) (b_s b) (b_s b') →
  (b_ctx b' = b_ctx b ∧ (id ∉ dict_keys (b_ctx b) → out_of (b_s b') id) ∨
   (b_ctx b' = filter (λ p, p.1 ≠ id) (b_ctx b) ∧ out_of (b_s b') id) ∨
   ∃ tid, b_ctx b' = dict_set id tid (b_ctx b) ∧ linked (b_s b') id tid) →
  batch_inv (R ++ [id]) s0 b'.
Proof.
  intros Hv HR Hid [T C O K] T' Hctx.
  assert (valid_dag (s_dag (b_s b))) as Hv1 by by apply (tc_valid _ _ _ T).
  split.
  - apply (touches_trans _ _ (b_s b)).
    + intros x [Hx| ->%list_elem_of_singleton]%elem_of_app; [by apply HR|done].
    + eapply touches_weaken; [|exact T]. intros x Hx. apply elem_of_app. by left.
    + eapply touches_weaken; [|exact T']. intros x ->. apply elem_of_app. right. by left.
  - intros x tid Hx. destruct Hctx as [[E _]|[[E _]|(tid'&E&Hl)]]; rewrite E in Hx.
    + by apply (tc_linked _ _ _ T' Hv1), C.
    + apply (tc_linked _ _ _ T' Hv1), C. rewrite dict_get_filter_key in Hx. case_decide; [done|done].
    + rewrite dict_get_set in Hx. case_decide; [by simplify_eq|].
      by apply (tc_linked _ _ _ T' Hv1), C.
  - intros x Hx Hnot. destruct (decide (x = id)) as [->|Hne].
    + destruct Hctx as [[E Ho]|[[_ Ho]|(tid'&E&Hl)]]; [|done|].
      * apply Ho. by rewrite <-E.
      * destruct Hnot. rewrite E. apply in_keys_set. by left.
    + apply elem_of_app in Hx as [Hx|Hx%list_elem_of_singleton]; [|done].
      apply (out_of_kept _ _ _ _ T' Hv1); [done|]. apply O; [done|].
      intros Hin. apply Hnot. destruct Hctx as [[-> _]|[[-> _]|(tid'&->&_)]]; [done| |].
      * apply dict_get_is_Some. apply dict_get_is_Some in Hin as [v Hin].
        rewrite dict_get_filter_key, decide_False by done. by exists v.
      * apply in_keys_set. by right.
  - intros x Hx. apply elem_of_app. destruct Hctx as [[E _]|[[E _]|(tid'&E&_)]]; rewrite E in Hx.
    + left. by apply K.
    + left. apply K. apply dict_get_is_Some. apply dict_get_is_Some in Hx as [v Hx].
      rewrite dict_get_filter_key in Hx. case_decide; [done|]. by exists v.
    + apply in_keys_set in Hx as [->|Hx]; [right; by left|left; by apply K].
Qed.

(** The same for a node that was worked on before *)
Lemma batch_inv_at R s0 b b' id :
  valid_dag (s_dag s0) → (∀ x, x ∈ R → x ∈ node_ids (s_dag s0)) → id ∈ R →
  batch_inv R s0 b → touches (λ x, x = id) (b_s b) (b_s b') →
  (b_ctx b' = b_ctx b ∧ (id ∉ dict_keys (b_ctx b) → out_of (b_s b') id) ∨
   (b_ctx b' = filter (λ p, p.1 ≠ id) (b_ctx b) ∧ out_of (b_s b') id)) →
  batch_inv R s0 b'.
Proof.
  intros Hv HR Hid Hb T' Hctx.
  assert (∀ x, x ∈ R ++ [id] ↔ x ∈ R) as HRn.
  { intros x. rewrite elem_of_app, list_elem_of_singleton. naive_solver. }
  destruct (batch_inv_step R s0 b b' id Hv HR (HR _ Hid) Hb T') as [T C O K].
  { destruct Hctx; [by left|right; by left]. }
  split; [|exact C| |intros x Hx; apply HRn; by apply K].
  - eapply touches_weaken; [|exact T]. intros x. apply HRn.
  - intros x Hx. apply O. by apply HRn.
Qed.

Lemma phase1_spec R s0 ns (b : batch) :
  valid_dag (s_dag s0) → (∀ x, x ∈ R ++ ids ns → x ∈ node_ids (s_dag s0)) → NoDup (R ++ ids ns) →
  batch_inv R s0 b → running_ctx b →
  match for_nodes (prepare_node wid agents estimate show_credits w t) ns b with
  | Err e => not_dag e
  | Ok b' => batch_inv (R ++ ids ns) s0 b' ∧ running_ctx b'
  end.
Proof.
  intros Hv. revert R b. induction ns as [|n ns IH]; intros R b HR Hnd Hb Hrun.
  { cbn. by rewrite app_nil_r. }
  cbn [for_nodes].
  assert (node_id n ∈ node_ids (s_dag s0)) as Hn by (apply HR, elem_of_app; right; by left).
  assert (∀ x, x ∈ R → x ∈ node_ids (s_dag s0)) as HR' by (intros x Hx; apply HR, elem_of_app; by left).
  pose proof (prepare_spec n b) as Hp.
  specialize (Hp (tc_valid _ _ _ (bi_touch _ _ _ Hb) Hv) (tc_ids _ _ _ _ (bi_touch _ _ _ Hb) Hv Hn)).
  destruct (prepare_node _ _ _ _ _ _ n b) as [b'|e]; [|done]. cbn [res_bind].
  destruct Hp as [T Hctx]. cbn [ids map].
  change (node_id n :: map node_id ns) with ([node_id n] ++ ids ns). rewrite app_assoc.
  assert (valid_dag (s_dag (b_s b))) as Hv1 by by apply (tc_valid _ _ _ (bi_touch _ _ _ Hb)).
  assert (node_id n ∉ R) as Hfresh.
  { apply NoDup_app in Hnd as (_&Hnd&_). intros Hin. destruct (Hnd _ Hin). by left. }
  apply IH; [by rewrite <-app_assoc|by rewrite <-app_assoc| |].
  - apply (batch_inv_step R s0 b); try done.
    destruct Hctx as [[? ?]|(tid&?&?&_)]; [left|right; right; by exists tid]. split; [done|]. intros _. by left.
  - intros x tid Hx. destruct (decide (x = node_id n)) as [->|Hne].
    + destruct Hctx as [[E Hs]|(tid'&_&_&?)]; [|done]. rewrite E in Hx. destruct Hfresh.
      apply (bi_keys _ _ _ Hb). apply dict_get_is_Some. by exists tid.
    + apply (status_kept _ _ _ _ _ T Hv1 Hne); [|done]. apply (Hrun x tid).
      destruct Hctx as [[E _]|(tid'&E&_)]; rewrite E in Hx; [done|]. rewrite dict_get_set in Hx.
      by rewrite decide_False in Hx.
Qed.

(** ** Phase 1.5 *)

Lemma policy_spec R s0 n (b : batch) :
  valid_dag (s_dag s0) → (∀ x, x ∈ R → x ∈ node_ids (s_dag s0)) → node_id n ∈ R →
  running_ctx b → batch_inv R s0 b → let b' := _policy_evaluate_node w t n b in
  batch_inv R s0 b' ∧ running_ctx b'.
Proof.
  intros Hv HR Hn Hrun Hb b'. unfold b', _policy_evaluate_node.
  destruct (w_policy w t (node_id n)) as [d|] eqn:Ed; [|done].
  destruct (dict_get (node_id n) (b_ctx b)) as [tid|] eqn:Et; [|done]. case_decide as Hd; [|done].
  split.
  - apply (batch_inv_at R s0 b _ (node_id n)); try done; [by apply touches_task|]. right.
    split; [done|]. right. split; [by exists d|]. by eapply Hrun.
  - intros id tid' Hid. cbn in Hid. rewrite dict_get_filter_key in Hid. case_decide; [done|]. by eapply Hrun.
Qed.

Lemma policies_spec R s0 ns (b : batch) :
  valid_dag (s_dag s0) → (∀ x, x ∈ R → x ∈ node_ids (s_dag s0)) → ids ns ⊆ R →
  running_ctx b → batch_inv R s0 b →
  batch_inv R s0 (fold_left (λ b n, _policy_evaluate_node w t n b) ns b).
Proof.
  intros Hv HR. revert b. induction ns as [|n ns IH]; intros b Hsub Hrun Hb; [done|]. cbn [fold_left].
  destruct (policy_spec R s0 n b Hv HR) as [? ?]; [apply Hsub; by left|done..|].
  apply IH; [|done..]. intros x Hx. apply Hsub. by right.
Qed.

Lemma gate_node_spec R s0 n (b : batch) :
  valid_dag (s_dag s0) → (∀ x, x ∈ R → x ∈ node_ids (s_dag s0)) → node_id n ∈ R → batch_inv R s0 b →
  match gate_node wid me agents w t n b with
  | Err e => not_dag e
  | Ok (inl b') => batch_inv R s0 b'
  | Ok (inr (s', _)) => touches (λ x, x ∈ R) s0 s'
  end.
Proof.
  intros Hv HR Hn Hb. pose proof (tc_valid _ _ _ (bi_touch _ _ _ Hb) Hv) as Hv1.
  assert (node_id n ∈ node_ids (s_dag (b_s b))) as Hn1 by (eapply tc_ids; [apply Hb|done|by apply HR]).
  unfold gate_node. destruct (dict_get (node_id n) (b_ctx b)) as [tid|] eqn:Et; [|done]. cbn [res_of_option res_bind].
  assert (node_id n ∈ dict_keys (b_ctx b)) as Hin by (apply dict_get_is_Some; by exists tid).
  destruct (if w_lookup_ok w t (node_id n) then _ else _) as [r|].
  - destruct (String.eqb _ _); [|done].
    match goal with |- context [fail_node _ ?m _] =>
      destruct (fail_node_spec (b_s b) (node_id n) m Hv1 Hn1) as (s1&->&T1&E&_) end. cbn [res_bind].
    apply (batch_inv_at R s0 b _ (node_id n)); try done.
    + eapply touches_trans; [by intros ? ->|exact T1|by apply touches_task].
    + right. split; [done|]. left. by apply fail_settled.
  - destruct (get_ok _ _ Hn1) as (m&Hm&Hg). unfold mark_pending. rewrite Hg. cbn [dag_op res_catch res_bind].
    destruct (request_approval _ _ _ _ _ _ _ _ _ _ _ _ _) as [dk [q|e]]; [|done].
    assert (∀ s', s_dag s' = update_node (λ n, set_output None (set_status PENDING n)) (node_id n) (s_dag (b_s b)) →
      s_tasks s' = s_tasks (b_s b) → s_replans s' = s_replans (b_s b) → s_runs s' = s_runs (b_s b) →
      touches (λ x, x = node_id n) (b_s b) s') as Hto.
    { intros s' Hd Ht Hr Hu. apply (touches_trans _ _ (set_dag (update_node (λ n, set_output None (set_status PENDING n))
        (node_id n) (s_dag (b_s b))) (b_s b))); [by intros ? ->| |].
      - apply touches_update; [done|]. intros y. cbn. set_solver.
      - by apply touches_same. }
    assert (∀ s' st err, touches (λ x, x = node_id n) (b_s b) s' →
      touches (λ x, x = node_id n) (b_s b) (update_task tid (with_task st err) s')) as Htk.
    { intros s' st err T'. eapply touches_trans; [by intros ? ->|exact T'|by apply touches_task]. }
    assert (∀ s', touches (λ x, x = node_id n) (b_s b) s' → batch_inv R s0 (set_b s' b)) as Hgo.
    { intros s' T'. apply (batch_inv_at R s0 b _ (node_id n)); try done. by left. }
    assert (∀ s', touches (λ x, x = node_id n) (b_s b) s' → touches (λ x, x ∈ R) s0 s') as Hpa.
    { intros s' T'. eapply touches_trans; [exact HR|apply Hb|]. eapply touches_weaken; [|exact T']. by intros ? ->. }
    destruct (check_status _ _ _) as [q'|e]; [destruct (is_pending q')|];
      [destruct (w_up w t (node_id n)); apply Hpa; [apply Htk|]|apply Hgo, Htk..]; by apply Hto.
Qed.

Lemma gate_spec R s0 ns (b : batch) :
  valid_dag (s_dag s0) → (∀ x, x ∈ R → x ∈ node_ids (s_dag s0)) → ids ns ⊆ R → batch_inv R s0 b →
  match gate wid me agents w t ns b with
  | Err e => not_dag e
  | Ok (inl b') => batch_inv R s0 b'
  | Ok (inr (s', _)) => touches (λ x, x ∈ R) s0 s'
  end.
Proof.
  intros Hv HR. revert b. induction ns as [|n ns IH]; intros b Hsub Hb; [done|]. cbn [gate].
  pose proof (gate_node_spec R s0 n b Hv HR) as Hg.
  specialize (Hg ltac:(apply Hsub; by left) Hb).
  destruct (gate_node _ _ _ _ _ n b) as [[b'|[s' rid]]|e]; cbn [res_bind]; [|done..].
  apply IH; [|done]. intros x Hx. apply Hsub. by right.
Qed.

(** ** Phase 3 *)

(** The node is in a final state, or pending again with one more retry. *)
Definition progressed (s0 s : sched) (id : string) : Prop :=
  settled s id ∨ st_of s id = Some PENDING ∧ retries s0 id < MAX_RETRIES_PER_TASK ∧ retries s0 id < retries s id.

Lemma linked_retries (s : sched) id tid :
  linked s id tid → retries s id = from_option t_retry_count 0 (s_tasks s !! tid).
Proof. intros [Ht _]. unfold retries. by rewrite Ht. Qed.

Lemma request_review_spec R n tid text (s : sched) :
  touches R s (request_review wid me w t n tid text s) ∧
  s_dag (request_review wid me w t n tid text s) = s_dag s.
Proof.
  unfold request_review. case_match; [|done]. destruct (request_approval _ _ _ _ _ _ _ _ _ _ _ _ _) as [dk [r|e]].
  - split; [|done]. apply (touches_weaken (λ _, False)); [done|].
    apply (touches_trans _ _ (set_desk dk s)); [done|by apply touches_same|by apply touches_task].
  - split; [by apply touches_same|done].
Qed.

Lemma st_of_linked (s : sched) id tid : linked s id tid → id ∈ node_ids (s_dag s).
Proof.
  intros [Ht _]. apply dict_get_is_Some. unfold task_of in Ht. by destruct (dict_get id _).
Qed.

Lemma reflect_spec n tid (s : sched) :
  valid_dag (s_dag s) → linked s (node_id n) tid → st_of s (node_id n) = Some COMPLETED →
  let s' := (_reflect_on_task wid w t n tid s).1 in
  touches (λ x, x = node_id n) s s' ∧ progressed s s' (node_id n).
Proof.
  intros Hv Hl Hst s'.
  assert (settled s (node_id n)) as Hset by (exists COMPLETED; split; [done|set_solver]).
  assert (∀ s1, s_dag s1 = s_dag s → progressed s s1 (node_id n)) as Hsame.
  { intros s1 E. left. unfold settled, st_of. by rewrite E. }
  assert (touches (λ x, x = node_id n) s s ∧ progressed s s (node_id n)) as Hstay by (split; [done|by apply Hsame]).
  unfold s', _reflect_on_task. destruct (w_reflect w t (node_id n)) as [r|]; [|done].
  destruct (String.eqb (rf_action r) "accept"); [done|].
  destruct (String.eqb (rf_action r) "retry_task").
  { destruct (should_retry r _) eqn:Hsr; [|done].
    assert (retries s (node_id n) < MAX_RETRIES_PER_TASK) as Hlt.
    { rewrite (linked_retries _ _ _ Hl). unfold should_retry in Hsr.
      destruct (Nat.leb_spec MAX_RETRIES_PER_TASK (from_option t_retry_count 0 (s_tasks s !! tid))); [done|lia]. }
    pose proof (st_of_linked _ _ _ Hl) as Hid. destruct (get_ok _ _ Hid) as (m&Hm&Hg).
    unfold mark_pending. rewrite Hg. cbn [res_bind fst]. set (upd := λ row : Task, _). set (f := λ n0 : DAGNode, _).
    assert (touches (λ x, x = node_id n) s (update_task tid upd s)) as T1.
    { destruct Hl as [Ht [row Hrow]]. apply touches_tasks. intros t' r' Hr'. destruct (decide (t' = tid)) as [->|Hne].
      - rewrite lookup_alter_eq, Hr'. cbn. eexists. split; [reflexivity|]. cbn. rewrite Hr'. cbn. lia.
      - rewrite lookup_alter_ne by done. exists r'. split; [done|lia]. }
    assert (touches (λ x, x = node_id n) (update_task tid upd s)
      (set_dag (update_node f (node_id n) (s_dag s)) (update_task tid upd s))) as T2.
    { apply (touches_update f (update_task tid upd s)); [done|]. intros y. cbn. set_solver. }
    split; [by eapply touches_trans; [intros ? ->|..]|]. right.
    split; [by apply (st_of_updated (update_task tid upd s) f _ m)|]. split; [done|].
    pose proof (tc_linked _ _ _ T2 (tc_valid _ _ _ T1 Hv) _ _ (tc_linked _ _ _ T1 Hv _ _ Hl)) as Hl2.
    rewrite (linked_retries _ _ _ Hl2), (linked_retries _ _ _ Hl). cbn. destruct Hl as [_ [row Hrow]].
    rewrite lookup_alter_eq, Hrow. cbn. rewrite Hrow. cbn. lia. }
  destruct (bool_decide _).
  { destruct (Nat.leb_spec MAX_REPLANS_PER_WORKFLOW (s_replans s)) as [|Hlt]; [done|].
    destruct (replan _ _ _) as [d'|] eqn:Er; [|done]. destruct (touches_replan s _ _ _ Hv Hlt Er) as [T E].
    split; [exact T|]. left. exists COMPLETED. split; [|set_solver].
    change (st_of (set_dag d' s) (node_id n) = Some COMPLETED). by rewrite E. }
  destruct (String.eqb _ _); [|done]. split; [by apply touches_same|by apply Hsame].
Qed.

Lemma progressed_mono (s0 s1 s : sched) id :
  retries s0 id ≤ retries s1 id → progressed s1 s id → progressed s0 s id.
Proof. intros Hle [Hs|(Hst&H1&H2)]; [by left|right]. split_and!; [done|lia|lia]. Qed.

Lemma mark_completed_ok d id out :
  valid_dag d → id ∈ node_ids d →
  ∃ ready, mark_completed d id out =
    Ok (update_node (λ n, set_output out (set_status COMPLETED n)) id d, ready).
Proof.
  intros Hv Hid. destruct (get_ok _ _ Hid) as (m&_&Hg). unfold mark_completed. rewrite Hg. cbn [res_bind].
  set (d' := update_node _ id d). assert (valid_dag d') as (Hwf&Hcl&_).
  { eapply same_shape_valid; [|exact Hv]. apply update_same_shape; [done|by destruct Hv]. }
  unfold get_ready_nodes. rewrite ready_among_spec; [by eexists|]. intros n. by apply closed_depends_on.
Qed.

Lemma post_process_spec n tid b resp (s : sched) :
  valid_dag (s_dag s) → linked s (node_id n) tid →
  let '(s', _, e) := post_process wid me agents credits w t n tid b resp s in
  touches (λ x, x = node_id n) s s' ∧ (e = None → progressed s s' (node_id n)).
Proof.
  intros Hv Hl. unfold post_process.
  match goal with |- context [match ?c with Ok _ => _ | Err _ => _ end] => destruct c as [[s1 charged]|e] eqn:Ec end;
    [|done].
  assert (touches (λ x, x = node_id n) s s1 ∧ s_dag s1 = s_dag s) as [T1 Hd1].
  { destruct (dict_get _ (b_resv b)), (agents !! node_id n); try (injection Ec as <- _; done).
    apply res_bind_Ok in Ec as (p&_&[= <- _]). split; [by apply touches_same|done]. }
  clear Ec. destruct (negb _ || negb _); [done|].
  set (s2 := update_task tid _ s1).
  assert (touches (λ x, x = node_id n) s s2) as T2
    by (apply (touches_trans _ _ s1); [intros ? ->; by eapply st_of_linked|done|by apply touches_task]).
  pose proof (tc_valid _ _ _ T2 Hv) as Hv2. pose proof (tc_linked _ _ _ T2 Hv _ _ Hl) as Hl2.
  pose proof (st_of_linked _ _ _ Hl2) as Hid2.
  destruct (mark_completed_ok (s_dag s2) (node_id n) (Some (content resp)) Hv2 Hid2) as (rd&->).
  set (f := λ n0 : DAGNode, _). set (s3 := set_dag (update_node f (node_id n) (s_dag s2)) s2).
  assert (touches (λ x, x = node_id n) s2 s3) as T3.
  { apply (touches_update f s2); [done|]. intros y. cbn. set_solver. }
  destruct (request_review_spec (λ x, x = node_id n) n tid (content resp) s3) as [T4 Hd4].
  set (s4 := request_review _ _ _ _ _ _ _ s3) in *.
  assert (touches (λ x, x = node_id n) s s4) as T04.
  { apply (touches_trans _ _ s3); [intros ? ->; by eapply st_of_linked| |done].
    apply (touches_trans _ _ s2); [intros ? ->; by eapply st_of_linked|done..]. }
  assert (st_of s4 (node_id n) = Some COMPLETED) as Hst4.
  { unfold st_of. rewrite Hd4. destruct (get_ok _ _ Hid2) as (m&Hm&_). by apply (st_of_updated s2 f _ m). }
  destruct (reflect_spec n tid s4) as [T5 Hp]; [by apply (tc_valid _ _ _ T04)|by apply (tc_linked _ _ _ T04)|done|].
  destruct (_reflect_on_task _ _ _ _ _ s4) as [s5 c]. cbn [fst] in *.
  assert (touches (λ x, x = node_id n) s s5 ∧ progressed s s5 (node_id n)) as [T05 Hp5].
  { split; [eapply touches_trans; [intros ? ->; by eapply st_of_linked|done..]|].
    eapply progressed_mono; [by apply (tc_retries _ _ _ T04)|done]. }
  destruct c, (w_published w t (node_id n)); by split.
Qed.

Lemma try_release_spec R n why b (s : sched) :
  touches R s (try_release wid w t n why b s).
Proof.
  unfold try_release. destruct (dict_get _ _); [|done]. destruct (release_reservation _ _ _ _ _ _ _) as [[? ?]|]; [|done].
  by apply touches_same.
Qed.

Lemma process_result_spec n tid b (s : sched) :
  valid_dag (s_dag s) → linked s (node_id n) tid → dict_get (node_id n) (b_ctx b) = Some tid →
  match process_result wid me agents credits w t b n s with
  | Err e => not_dag e
  | Ok s' => touches (λ x, x = node_id n) s s' ∧ progressed s s' (node_id n)
  end.
Proof.
  intros Hv Hl Hctx. unfold process_result. rewrite Hctx. cbn [res_of_option res_bind].
  assert (∀ s1 why, touches (λ x, x = node_id n) s s1 → match _handle_failure n why s1 with
    | Err e => not_dag e
    | Ok s' => touches (λ x, x = node_id n) s s' ∧ progressed s s' (node_id n) end) as Hfail.
  { intros s1 why T. unfold _handle_failure.
    destruct (fail_node_spec s1 (node_id n) why) as (s'&->&T'&E&_);
      [by apply (tc_valid _ _ _ T)|eapply tc_ids; [done..|by eapply st_of_linked]|].
    split; [eapply touches_trans; [intros ? ->; by eapply st_of_linked|done..]|]. left. by apply fail_settled. }
  assert (∀ s1 s2, touches (λ x, x = node_id n) s s1 → touches (λ x, x = node_id n) s1 s2 →
    touches (λ x, x = node_id n) s s2) as Htr
    by (intros s1 s2; apply touches_trans; intros ? ->; by eapply st_of_linked).
  destruct (_llm_call w t n) as [resp|e].
  - pose proof (post_process_spec n tid b resp s Hv Hl) as Hp.
    destruct (post_process _ _ _ _ _ _ _ _ _ _ s) as [[s1 charged] [e|]]; destruct Hp as [T1 Hp].
    + apply Hfail. eapply Htr; [|by apply touches_task].
      destruct (negb charged); [|done]. eapply Htr; [exact T1|apply try_release_spec].
    + split; [done|by apply Hp].
  - apply Hfail. eapply Htr; [|apply try_release_spec]. by apply touches_task.
Qed.

Lemma progressed_kept R (s0 s1 s : sched) id :
  touches R s1 s → valid_dag (s_dag s1) → ¬ R id → progressed s0 s1 id → progressed s0 s id.
Proof.
  intros T Hv Hn [Hs|(Hst&Hlt&Hr)]; [left; by eapply settled_kept|].
  destruct (tc_status _ _ _ T Hv id) as [E|[_ E]]; [apply st_of_node; by rewrite Hst|done| |].
  - right. split_and!; [congruence|done|]. pose proof (tc_retries _ _ _ T Hv id). lia.
  - left. exists SKIPPED. split; [done|set_solver].
Qed.

Lemma process_results_spec b ns (s : sched) :
  valid_dag (s_dag s) → NoDup (ids ns) →
  (∀ n, n ∈ ns → ∃ tid, dict_get (node_id n) (b_ctx b) = Some tid ∧ linked s (node_id n) tid) →
  match process_results wid me agents credits w t b ns s with
  | Err e => not_dag e
  | Ok s' => touches (λ x, x ∈ ids ns) s s' ∧ ∀ x, x ∈ ids ns → progressed s s' x
  end.
Proof.
  revert s. induction ns as [|n ns IH]; intros s Hv Hnd Hns.
  { cbn. split; [done|]. intros x Hx. by apply elem_of_nil in Hx. }
  cbn [process_results].
  destruct (Hns n) as (tid&Hc&Hl); [by left|].
  pose proof (process_result_spec n tid b s Hv Hl Hc) as Hp.
  destruct (process_result _ _ _ _ _ _ _ _ s) as [s1|e]; [|done]. cbn [res_bind]. destruct Hp as [T1 Hp].
  cbn in Hnd. apply NoDup_cons in Hnd as [Hn Hnd].
  pose proof (tc_valid _ _ _ T1 Hv) as Hv1.
  specialize (IH s1 Hv1 Hnd).
  destruct (process_results _ _ _ _ _ _ _ ns s1) as [s'|e]; [|apply IH].
  - destruct IH as (T'&Hprog).
    { intros m Hm. destruct (Hns m) as (tid'&?&?); [by right|]. exists tid'. split; [done|].
      by apply (tc_linked _ _ _ T1). }
    split.
    + apply (touches_trans _ _ s1).
      * intros r [->|Hr]%elem_of_cons; [by eapply st_of_linked|].
        apply list_elem_of_fmap in Hr as (m&->&Hm). destruct (Hns m) as (tid'&_&?); [by right|by eapply st_of_linked].
      * eapply touches_weaken; [|exact T1]. intros x ->. by left.
      * eapply touches_weaken; [|exact T']. intros x. by right.
    + intros x [->|Hx]%elem_of_cons; [by eapply progressed_kept|].
      eapply progressed_mono; [by apply (tc_retries _ _ _ T1)|by apply Hprog].
  - intros m Hm. destruct (Hns m) as (tid'&?&?); [by right|]. exists tid'. split; [done|].
    by apply (tc_linked _ _ _ T1).
Qed.

(** ** The batch *)

Lemma batch_inv_start (s : sched) : batch_inv [] s {| b_s := s; b_ctx := []; b_resv := [] |}.
Proof. split; [done|done| |]; intros id Hid; by apply elem_of_nil in Hid. Qed.

Lemma active_ids (b : batch) ready x : x ∈ ids (active b ready) ↔ x ∈ ids ready ∧ x ∈ dict_keys (b_ctx b).
Proof.
  unfold ids, active. rewrite (list_elem_of_fmap node_id ready), (list_elem_of_fmap node_id (filter _ _)). split.
  - intros (n&->&Hf). apply list_elem_of_filter in Hf as [Hin Hn]. split; [by exists n|done].
  - intros [(n&->&Hn) Hin]. exists n. split; [done|]. by apply list_elem_of_filter.
Qed.

Lemma NoDup_ids_filter (P : DAGNode → Prop) `{!∀ n, base.Decision (P n)} ns :
  NoDup (ids ns) → NoDup (ids (filter P ns)).
Proof.
  unfold ids. induction ns as [|n ns IH]; [done|]. rewrite filter_cons.
  cbn [map]. intros [Hn Hnd]%NoDup_cons. case_decide; [|by apply IH]. cbn. apply NoDup_cons. split; [|by apply IH].
  intros Hin. apply Hn. apply list_elem_of_fmap in Hin as (m&Hm&Hin). apply list_elem_of_filter in Hin as [_ Hin].
  rewrite Hm. apply list_elem_of_fmap. by exists m.
Qed.

Lemma needing_ids (b : batch) ready : ids (needing_approval w t (active b ready)) ⊆ ids ready.
Proof.
  intros x Hx. apply list_elem_of_fmap in Hx as (n&->&Hn). apply elem_of_app in Hn.
  assert (n ∈ active b ready) as Ha by (destruct Hn as [[_ ?]%list_elem_of_filter|[_ ?]%list_elem_of_filter]; done).
  apply (active_ids b). apply list_elem_of_fmap. by exists n.
Qed.

(** What became of a ready node *)
Definition worked_on (s0 s : sched) (id : string) : Prop :=
  progressed s0 s id ∨ denied id ∧ st_of s id = Some RUNNING.

(** The batch [b] that is run: prepared, not denied and past the gate *)
Definition prepared (ready : list DAGNode) (s : sched) (b : batch) : Prop :=
  ∃ b1, for_nodes (prepare_node wid agents estimate show_credits w t) ready {| b_s := s; b_ctx := []; b_resv := [] |} = Ok b1 ∧
    gate wid me agents w t (needing_approval w t (active b1 ready))
      (fold_left (λ b n, _policy_evaluate_node w t n b) (active b1 ready) b1) = Ok (inl b).

Lemma run_batch_spec ready (s : sched) :
  valid_dag (s_dag s) → (∀ x, x ∈ ids ready → x ∈ node_ids (s_dag s)) → NoDup (ids ready) →
  match run_batch wid me agents estimate credits show_credits w t ready s with
  | Err e => not_dag e
  | Ok (inr (s', _)) => touches (λ x, x ∈ ids ready) s s'
  | Ok (inl s') => (∀ x, x ∈ ids ready → worked_on s s' x) ∧
      ∃ b : batch, prepared ready s b ∧
        touches (λ x, x ∈ ids ready) (log_runs (map (λ n, (t, node_id n)) (active b ready)) s) s'
  end.
Proof.
  intros Hv HR Hnd. unfold run_batch.
  pose proof (phase1_spec [] s ready _ Hv HR Hnd (batch_inv_start s)) as H1.
  specialize (H1 ltac:(intros ? ? ?; done)).
  destruct (for_nodes _ ready _) as [b1|e] eqn:E1; [|done]. cbn [res_bind]. destruct H1 as [Hb1 Hrun].
  cbn [app] in Hb1.
  pose proof (policies_spec (ids ready) s (active b1 ready) b1 Hv HR) as H2.
  specialize (H2 ltac:(intros x [? _]%active_ids; done) Hrun Hb1).
  set (b2 := fold_left _ _ _) in *.
  pose proof (gate_spec (ids ready) s (needing_approval w t (active b1 ready)) b2 Hv HR (needing_ids b1 ready) H2) as H3.
  destruct (gate _ _ _ _ _ _ b2) as [[b3|[s' p]]|e] eqn:E3; cbn [res_bind]; [|done..]. destruct H3 as [T3 C3 O3 K3].
  set (l := map _ (active b3 ready)).
  pose proof (tc_valid _ _ _ T3 Hv : valid_dag (s_dag (log_runs l (b_s b3)))) as Hv3.
  pose proof (process_results_spec b3 (active b3 ready) _ Hv3 (NoDup_ids_filter _ ready Hnd)) as H4.
  destruct (process_results _ _ _ _ _ _ b3 (active b3 ready) (log_runs l (b_s b3))) as [s'|e]; cbn [res_bind].
  - destruct H4 as [T4 P4].
    { intros n Hn. apply list_elem_of_filter in Hn as [Hin _].
      apply dict_get_is_Some in Hin as [tid Ht]. exists tid. split; [done|]. by destruct (C3 _ _ Ht). }
    split.
    + intros x Hx. destruct (decide (x ∈ ids (active b3 ready))) as [Ha|Ha].
      * left. eapply progressed_mono; [by apply (tc_retries _ _ _ T3)|by apply P4].
      * assert (out_of (log_runs l (b_s b3)) x) as Ho by (apply (O3 x Hx); intros Hk; apply Ha, active_ids; done).
        destruct (out_of_kept _ _ _ _ T4 Hv3 Ha Ho) as [?|?]; [left; by left|by right].
    + exists b3. split; [by exists b1|]. apply (touches_trans _ _ (log_runs l (b_s b3))); [done|by apply touches_log|].
      eapply touches_weaken; [|exact T4]. intros x Hx. by apply active_ids in Hx as [? _].
  - apply H4. intros n Hn. apply list_elem_of_filter in Hn as [Hin _].
    apply dict_get_is_Some in Hin as [tid Ht]. exists tid. split; [done|]. by destruct (C3 _ _ Ht).
Qed.
End batch.
