(* ===== verification/SchedGate.v ===== *)
(** * SchedGate: who may be handed to the language model

    The nodes that are left in a batch after the policies and the approval gate:
    none that a policy denies, and, while nobody else touches the approval
    desk, none that needs an approval and has no decision in its favour. *)

From Stdlib Require Import ZArith QArith SpecFloat Lia.
From stdpp Require Import base tactics strings gmap relations list.
From S2P Require Import Prelude PyStr Dict Json PyVal Uuid Policy Wallet Approval TaskFsm Dag ToolLoop.
From S2P Require Import Scheduler SchedFacts SchedBatch.

#[local] Open Scope nat_scope.

Section gate.
Context {F : Type} `{Arith F}.
Context (wid me : string) (agents : gmap string Agent).
Context (estimate : DAGNode → Agent → F) (credits : Q → F) (show_credits : F → string).
Context (w : World) (t : nat).

Abbreviation sched := (sched F).
Abbreviation batch := (@batch F).

(** Nobody else touches the approval desk, and the store can be reached. *)
Definition quiet : Prop := (∀ t id d, w_others w t id d = d) ∧ ∀ t id, w_up w t id = true.

Definition escalated (id : string) : Prop := ∃ d, w_policy w t id = Some d ∧ act d = ESCALATE_HUMAN.

Definition needs_approval (n : DAGNode) : Prop :=
  capability n ∈ APPROVAL_REQUIRED_CAPABILITIES ∨ escalated (node_id n).

(** The desk holds a decision for the node that is not a denial. *)
Definition approved (d : desk) (id : string) : Prop :=
  ∃ r, find_decision_for_node wid id d = Some r ∧ Approval.status r ≠ "denied".

(** ** The policies *)

Lemma policy_keys n (b : batch) id :
  id ∈ dict_keys (b_ctx (_policy_evaluate_node w t n b)) →
  id ∈ dict_keys (b_ctx b) ∧ ¬ (id = node_id n ∧ denied w t id).
Proof.
  unfold _policy_evaluate_node, denied. destruct (w_policy w t (node_id n)) as [d|] eqn:Ed.
  2:{ intros Hid. split; [done|]. intros [-> (d&Hd&_)]. congruence. }
  destruct (dict_get (node_id n) (b_ctx b)) as [tid|] eqn:Et.
  2:{ intros Hid. split; [done|]. intros [-> _]. apply dict_get_is_Some in Hid as [? Hid]. congruence. }
  case_decide as Hd.
  - cbn. intros [v Hv]%dict_get_is_Some. rewrite dict_get_filter_key in Hv. case_decide as Hne; [done|]. split.
    + apply dict_get_is_Some. by exists v.
    + intros [-> _]. done.
  - intros Hid. split; [done|]. intros [-> (d'&Hd'&?)]. congruence.
Qed.

Lemma policies_keys ns (b : batch) id :
  id ∈ dict_keys (b_ctx (fold_left (λ b n, _policy_evaluate_node w t n b) ns b)) →
  id ∈ dict_keys (b_ctx b) ∧ ¬ (id ∈ ids ns ∧ denied w t id).
Proof.
  revert b. induction ns as [|n ns IH]; intros b Hid; cbn [fold_left] in Hid.
  { split; [done|]. intros [Hin _]. by apply elem_of_nil in Hin. }
  destruct (IH _ Hid) as [Hk Hn]. apply policy_keys in Hk as [Hk Hd]. split; [done|].
  intros [[->|Hin]%elem_of_cons Hden]; [by apply Hd|by apply Hn].
Qed.

Lemma policies_desk ns (b : batch) :
  s_desk (b_s (fold_left (λ b n, _policy_evaluate_node w t n b) ns b)) = s_desk (b_s b).
Proof.
  revert b. induction ns as [|n ns IH]; intros b; [done|]. cbn [fold_left]. rewrite IH.
  unfold _policy_evaluate_node. destruct (w_policy _ _ _) as [d|], (dict_get (node_id n) (b_ctx b)) as [tid|]; try done. by case_decide.
Qed.

(** ** The gate *)

Lemma gate_node_keys n (b b' : batch) id :
  gate_node wid me agents w t n b = Ok (inl b') → id ∈ dict_keys (b_ctx b') → id ∈ dict_keys (b_ctx b).
Proof.
  unfold gate_node. destruct (dict_get (node_id n) (b_ctx b)) as [tid|]; [|done]. cbn [res_of_option res_bind].
  destruct (if w_lookup_ok w t (node_id n) then _ else _) as [r|].
  - destruct (String.eqb _ _); [|by intros [= <-]].
    intros (s&_&[= <-])%res_bind_Ok [v Hv]%dict_get_is_Some. cbn in Hv. rewrite dict_get_filter_key in Hv.
    case_decide; [done|]. apply dict_get_is_Some. by exists v.
  - intros (d&_&E)%res_bind_Ok. destruct (request_approval _ _ _ _ _ _ _ _ _ _ _ _ _) as [dk [q|e]]; [|done].
    destruct (check_status _ _ _) as [q'|e]; [destruct (is_pending q'); [done|]|]; by injection E as <-.
Qed.

Lemma gate_keys ns (b b' : batch) id :
  gate wid me agents w t ns b = Ok (inl b') → id ∈ dict_keys (b_ctx b') → id ∈ dict_keys (b_ctx b).
Proof.
  revert b. induction ns as [|n ns IH]; intros b; cbn [gate]; [by intros [= <-]|].
  intros ([b1|[s rid]]&E&Hg)%res_bind_Ok Hid; [|done]. eapply gate_node_keys; [done|by eapply IH].
Qed.

Lemma write_request_store r node d : store (write_request me r node d) = store d.
Proof. unfold write_request, put_twin. by case_decide. Qed.

Lemma asked_pending id wf task a ctx rule chk node now d d' q :
  request_approval me id wf task a ctx rule 300 chk node true now d = (d', Ok q) →
  check_status id now d' = Ok q ∧ is_pending q = true.
Proof.
  unfold request_approval, redis_set. cbn [raise_if Z.leb res_bind].
  change (300 + _EXPIRY_GRACE_SECONDS <=? 0)%Z with false. cbn [raise_if res_bind].
  intros [= <- <-]. split; [|done]. unfold check_status, redis_get, redis_lookup, _write_federated_request.
  rewrite write_request_store. cbn [sadd set_pending store]. rewrite lookup_insert_eq.
  change ((300 + _EXPIRY_GRACE_SECONDS) * 1000)%Z with 1200000%Z.
  destruct (Z.ltb_spec now (now + 1200000)) as [|Hle]; [done|lia].
Qed.

(** In a quiet world the gate lets a node pass only with a decision. *)
Lemma gate_node_quiet n (b b' : batch) :
  quiet → gate_node wid me agents w t n b = Ok (inl b') →
  s_desk (b_s b') = s_desk (b_s b) ∧
  (node_id n ∈ dict_keys (b_ctx b') → approved (s_desk (b_s b)) (node_id n)).
Proof.
  intros [Hoth Hup]. unfold gate_node, approved.
  destruct (dict_get (node_id n) (b_ctx b)) as [tid|]; [|done]. cbn [res_of_option res_bind].
  destruct (if w_lookup_ok w t (node_id n) then _ else _) as [r|] eqn:Er.
  - destruct (w_lookup_ok w t (node_id n)); [|done].
    destruct (String.eqb_spec (Approval.status r) "denied") as [Hd|Hd].
    + intros (s&Hs&[= <-])%res_bind_Ok. unfold fail_node in Hs. apply res_bind_Ok in Hs as (p&_&[= <-]).
      split; [done|]. cbn. intros [v Hv]%dict_get_is_Some. rewrite dict_get_filter_key, decide_True in Hv by done.
      done.
    + intros [= <-]. split; [done|]. intros _. by exists r.
  - rewrite Hup. intros (d&_&E)%res_bind_Ok.
    destruct (request_approval _ _ _ _ _ _ _ _ _ _ _ _ _) as [dk [q|e]] eqn:Eq; [|done].
    apply asked_pending in Eq as [Hc Hp]. rewrite Hoth in E. cbn [set_desk s_desk] in E. rewrite Hc, Hp in E. done.
Qed.

Lemma gate_quiet ns (b b' : batch) :
  quiet → gate wid me agents w t ns b = Ok (inl b') →
  s_desk (b_s b') = s_desk (b_s b) ∧
  ∀ n, n ∈ ns → node_id n ∈ dict_keys (b_ctx b') → approved (s_desk (b_s b)) (node_id n).
Proof.
  intros Hq. revert b. induction ns as [|m ns IH]; intros b; cbn [gate].
  { intros [= <-]. split; [done|]. intros n Hn. by apply elem_of_nil in Hn. }
  intros ([b1|[s rid]]&E&Hg)%res_bind_Ok; [|done].
  destruct (gate_node_quiet _ _ _ Hq E) as [E1 H1]. destruct (IH _ Hg) as [E2 H2]. split; [congruence|].
  intros n [->|Hn]%elem_of_cons Hk; [apply H1; by eapply gate_keys|]. rewrite <-E1. by apply H2.
Qed.

(** ** Phase 1 leaves the desk alone. *)

Lemma prepare_desk n (b b' : batch) :
  prepare_node wid agents estimate show_credits w t n b = Ok b' → s_desk (b_s b') = s_desk (b_s b).
Proof.
  unfold prepare_node, fail_node. destruct (agents !! node_id n) as [agent|].
  2:{ intros (s&(p&_&[= <-])%res_bind_Ok&[= <-])%res_bind_Ok. done. }
  assert (∀ st err s s' tid, _upsert_task_row w t n (Some (ag_id agent)) st err s = Ok (s', tid) →
    s_desk s' = s_desk (s : sched)) as Hup.
  { intros st err s s' tid. unfold _upsert_task_row. intros (m&_&E)%res_bind_Ok.
    destruct (task_id m ≫= _) as [[t1 row]|]; [by injection E as <- <-|].
    apply res_bind_Ok in E as (?&_&E). by injection E as <- <-. }
  destruct (reserve_budget _ _ _ _ _ _ _ _) as [[ev x]|[]]; try done.
  - intros (d&_&([s tid]&Hs&(?&_&[= <-])%res_bind_Ok)%res_bind_Ok)%res_bind_Ok. cbn. by apply Hup in Hs.
  - intros (s&(p&_&[= <-])%res_bind_Ok&([s2 tid]&Hs&[= <-])%res_bind_Ok)%res_bind_Ok. cbn. by apply Hup in Hs.
Qed.

Lemma for_nodes_desk ns (b b' : batch) :
  for_nodes (prepare_node wid agents estimate show_credits w t) ns b = Ok b' → s_desk (b_s b') = s_desk (b_s b).
Proof.
  revert b. induction ns as [|n ns IH]; intros b; cbn [for_nodes]; [by intros [= <-]|].
  intros (b1&E&Hg)%res_bind_Ok. rewrite (IH _ Hg). by eapply prepare_desk.
Qed.

(** ** What is run *)

Lemma prepared_not_denied ready (s : sched) b n :
  prepared wid me agents estimate show_credits w t ready s b → n ∈ active b ready → ¬ denied w t (node_id n).
Proof.
  intros (b1&_&Hg) [Hk Hn]%list_elem_of_filter Hd.
  eapply gate_keys in Hk; [|exact Hg]. apply policies_keys in Hk as [Hk Hnot]. apply Hnot. split; [|done].
  apply active_ids. split; [|done]. apply list_elem_of_fmap. by exists n.
Qed.

Lemma prepared_approved ready (s : sched) b n :
  quiet → prepared wid me agents estimate show_credits w t ready s b → n ∈ active b ready →
  needs_approval n → approved (s_desk s) (node_id n).
Proof.
  intros Hq (b1&H1&Hg) [Hk Hn]%list_elem_of_filter Hneed.
  destruct (gate_quiet _ _ _ Hq Hg) as [_ Hap]. rewrite policies_desk, (for_nodes_desk _ _ _ H1) in Hap.
  apply Hap; [|done]. eapply gate_keys in Hk; [|exact Hg]. apply policies_keys in Hk as [Hk _].
  assert (n ∈ active b1 ready) as Ha by by apply list_elem_of_filter.
  unfold needing_approval. apply elem_of_app. rewrite !list_elem_of_filter.
  destruct (decide (capability n ∈ APPROVAL_REQUIRED_CAPABILITIES)) as [Hc|Hc]; [by left|right].
  destruct Hneed as [|(d&Hd&He)]; [done|]. split; [|done]. split; [|done]. unfold policy_escalates. rewrite Hd.
  by apply bool_decide_eq_true.
Qed.
(** ** Phase 3 decides nothing. *)

Definition same_decisions (d d' : desk) : Prop :=
  ∀ node, find_decision_for_node wid node d' = find_decision_for_node wid node d.

Lemma same_twins d d' : twins d' = twins d → same_decisions d d'.
Proof. intros E node. unfold find_decision_for_node. by rewrite E. Qed.

#[export] Instance same_decisions_trans : Transitive same_decisions.
Proof. intros d1 d2 d3 E1 E2 node. by rewrite E2. Qed.

Lemma write_request_decisions r d :
  is_pending r = true → same_decisions d (write_request me r None d).
Proof.
  intros Hp node. unfold write_request, put_twin, find_decision_for_node. case_decide; [done|]. cbn.
  rewrite Hp. destruct (String.eqb _ _); done.
Qed.

Lemma review_decisions n tid text (s : sched) :
  same_decisions (s_desk s) (s_desk (request_review wid me w t n tid text s)).
Proof.
  unfold request_review. destruct (f_lt _ _); [|done].
  unfold request_approval, redis_set. change (120 + _EXPIRY_GRACE_SECONDS <=? 0)%Z with false.
  cbn [raise_if res_bind set_desk s_desk update_task set_tasks]. unfold _write_federated_request.
  destruct (w_up _ _ _); [|by apply same_twins]. etrans; [|by apply write_request_decisions]. by apply same_twins.
Qed.

Lemma reflect_decisions n tid (s : sched) :
  same_decisions (s_desk s) (s_desk (_reflect_on_task wid w t n tid s).1).
Proof.
  unfold _reflect_on_task. repeat case_match; by apply same_twins.
Qed.

Lemma post_process_decisions n tid b resp (s : sched) :
  same_decisions (s_desk s) (s_desk (post_process wid me agents credits w t n tid b resp s).1.1).
Proof.
  unfold post_process.
  match goal with |- context [match ?c with Ok _ => _ | Err _ => _ end] => destruct c as [[s1 charged]|e] eqn:Ec end;
    [|done].
  assert (s_desk s1 = s_desk s) as <-.
  { destruct (dict_get _ (b_resv b)), (agents !! node_id n); try (by injection Ec as <- _).
    by apply res_bind_Ok in Ec as (p&_&[= <- _]). }
  clear Ec. destruct (negb _ || negb _); [done|].
  destruct (mark_completed _ _ _) as [[d rd]|e]; [|done].
  set (s3 := set_dag d _). pose proof (review_decisions n tid (content resp) s3) as H1.
  set (s4 := request_review _ _ _ _ _ _ _ s3) in *. pose proof (reflect_decisions n tid s4) as H2.
  destruct (_reflect_on_task _ _ _ _ _ s4) as [s5 c]. cbn [fst] in *.
  destruct c, (w_published w t (node_id n)); cbn [fst]; by etrans.
Qed.

Lemma process_result_decisions b n (s s' : sched) :
  process_result wid me agents credits w t b n s = Ok s' → same_decisions (s_desk s) (s_desk s').
Proof.
  unfold process_result. intros (tid&_&E)%res_bind_Ok.
  assert (∀ why s1, _handle_failure n why s1 = Ok s' → s_desk s' = s_desk (s1 : sched)) as Hf.
  { intros why s1. unfold _handle_failure, fail_node. by intros (p&_&[= <-])%res_bind_Ok. }
  assert (∀ why s1, s_desk (try_release wid w t n why b s1) = s_desk (s1 : sched)) as Hrel.
  { intros why s1. unfold try_release. destruct (dict_get _ _); [|done]. by destruct (release_reservation _ _ _ _ _ _ _) as [[]|]. }
  destruct (_llm_call w t n) as [resp|e].
  - pose proof (post_process_decisions n tid b resp s) as Hp.
    destruct (post_process _ _ _ _ _ _ _ _ _ _ s) as [[s1 charged] [e|]]; cbn [fst] in Hp.
    + apply Hf in E. destruct charged; cbn in E; [|rewrite Hrel in E]; by rewrite E.
    + by injection E as <-.
  - apply Hf in E. rewrite Hrel in E. by apply same_twins; rewrite E.
Qed.

Lemma process_results_decisions b ns (s s' : sched) :
  process_results wid me agents credits w t b ns s = Ok s' → same_decisions (s_desk s) (s_desk s').
Proof.
  revert s. induction ns as [|n ns IH]; intros s; cbn [process_results]; [by intros [= <-]|].
  intros (s1&E&Hp)%res_bind_Ok. etrans; [by eapply process_result_decisions|by apply IH].
Qed.

(** A batch that is run to its end in a quiet world decides nothing. *)
Lemma run_batch_decisions ready (s s' : sched) :
  quiet → run_batch wid me agents estimate credits show_credits w t ready s = Ok (inl s') →
  same_decisions (s_desk s) (s_desk s').
Proof.
  intros Hq. unfold run_batch. intros (b1&H1&([b3|]&Hg&E)%res_bind_Ok)%res_bind_Ok; [|done].
  apply res_bind_Ok in E as (s1&E&[= <-]). apply process_results_decisions in E.
  destruct (gate_quiet _ _ _ Hq Hg) as [Hd _]. rewrite policies_desk, (for_nodes_desk _ _ _ H1) in Hd.
  cbn in Hd, E. by rewrite <-Hd.
Qed.
End gate.
