(* ===== verification/SchedLoop.v ===== *)
(** * SchedLoop: what the scheduler guarantees

    Termination within the defensive bound, completion, and the two safety
    properties of a run: no node that the policies deny and no node that waits
    for a human decision is handed to the language model. *)

From Stdlib Require Import ZArith QArith SpecFloat Ascii Lia.
From stdpp Require Import base tactics strings gmap relations list pretty.
From S2P Require Import Prelude PyStr Dict Json PyVal Uuid Policy Wallet Approval TaskFsm Dag DagTopo DagOps ToolLoop.
From S2P Require Import Scheduler SchedFacts SchedBatch SchedGate.

#[local] Open Scope nat_scope.

(** ** Sums over the nodes *)

Lemma sum_le {A} (f g : A → nat) l : (∀ x, x ∈ l → f x ≤ g x) → sum_list_with f l ≤ sum_list_with g l.
Proof.
  induction l as [|x l IH]; intros Hle; [done|]. cbn.
  pose proof (Hle x ltac:(by left)). specialize (IH ltac:(intros y Hy; apply Hle; by right)). lia.
Qed.

Lemma sum_lt {A} (f g : A → nat) l x :
  (∀ x, x ∈ l → f x ≤ g x) → x ∈ l → f x < g x → sum_list_with f l < sum_list_with g l.
Proof.
  intros Hle Hx Hlt. apply list_elem_of_split in Hx as (l1&l2&->). rewrite !sum_list_with_app. cbn.
  pose proof (sum_le f g l1 ltac:(intros y Hy; apply Hle; set_solver)).
  pose proof (sum_le f g l2 ltac:(intros y Hy; apply Hle; set_solver)). lia.
Qed.

Lemma sum_bound {A} (f : A → nat) l k : (∀ x, f x ≤ k) → sum_list_with f l ≤ k * length l.
Proof. intros Hk. induction l as [|x l IH]; cbn; [lia|]. specialize (Hk x). lia. Qed.

Section loop.
Context {F : Type} `{Arith F}.
Context (wid me : string) (agents : gmap string Agent).
Context (estimate : DAGNode → Agent → F) (credits : Q → F) (show_credits : F → string).
Context (w : World).

Abbreviation sched := (sched F).

(** ** The measure *)

Lemma weight_bound (s : sched) x : weight s x ≤ 3.
Proof. unfold weight. case_decide; lia. Qed.

(** How many batches may still follow *)
Definition potential (s : sched) : nat :=
  sum_list_with (weight s) (node_ids (s_dag s)) + 3 * (MAX_REPLANS_PER_WORKFLOW - s_replans s).

Lemma weight_le R (s s' : sched) x :
  touches R s s' → valid_dag (s_dag s) → x ∈ node_ids (s_dag s) → ¬ R x → weight s' x ≤ weight s x.
Proof.
  intros T Hv Hx Hn. unfold weight. pose proof (tc_retries _ _ _ T Hv x).
  case_decide as Hw; [|lia]. rewrite decide_True by by eapply waits_back. lia.
Qed.

Lemma weight_lt t (s s' : sched) x : waits s x → worked_on w t s s' x → weight s' x < weight s x.
Proof.
  intros Hw Hx. assert (weight s x = S (2 - retries s x)) as -> by (unfold weight; by rewrite decide_True).
  unfold weight.
  destruct Hx as [[Hs|(Hst&Hlt&Hr)]|[_ Hst]].
  - rewrite decide_False by by apply settled_not_waits. lia.
  - case_decide; [|lia]. unfold MAX_RETRIES_PER_TASK in Hlt. lia.
  - rewrite decide_False; [lia|]. unfold waits. rewrite Hst. unfold waiting. set_solver.
Qed.

(** Nobody denies it, and it is approved if it needs an approval. *)
Definition allowed (t : nat) (s : sched) (id : string) : Prop :=
  ¬ denied w t id ∧
  (quiet w → (∃ c, cap_of s id = Some c ∧ c ∈ APPROVAL_REQUIRED_CAPABILITIES) ∨ escalated w t id →
     approved wid (s_desk s) id).

(** A batch: the nodes [R] were waiting and have been worked on. *)
Record batch_step (t : nat) (R : list string) (s s' : sched) : Prop := {
  bs_waits : ∀ x, x ∈ R → waits s x;
  bs_worked : ∀ x, x ∈ R → worked_on w t s s' x;
  bs_ready : ready_deps (λ x, x ∈ R) s;
  bs_touch : ∃ l, touches (λ x, x ∈ R) (log_runs l s) s' ∧ NoDup (map snd l) ∧
    (∀ p, p ∈ l → p.1 = t ∧ p.2 ∈ R) ∧ ∀ p, p ∈ l → allowed t s p.2;
}.

Lemma potential_step t R (s s' : sched) :
  valid_dag (s_dag s) → R ≠ [] → batch_step t R s s' → potential s' < potential s.
Proof.
  intros Hv HR [Hw Ho _ (l&T&_)]. destruct R as [|r R]; [done|].
  assert (∀ x, x ∈ node_ids (s_dag s) → weight s' x ≤ weight s x) as Hle.
  { intros x Hx. destruct (decide (x ∈ r :: R)) as [Hin|Hin].
    - apply Nat.lt_le_incl, (weight_lt t); auto.
    - by apply (weight_le _ _ _ _ T). }
  assert (r ∈ node_ids (s_dag s)) as Hr.
  { apply st_of_node. pose proof (Hw r ltac:(by left)) as Hwr. unfold waits in Hwr. by destruct (st_of s r). }
  pose proof (sum_lt (weight s') (weight s) _ r Hle Hr) as Hlt.
  specialize (Hlt ltac:(apply (weight_lt t); [apply Hw|apply Ho]; by left)).
  destruct (tc_new _ _ _ T Hv) as (new&E&Hrp&Hcap). unfold potential. rewrite E, sum_list_with_app.
  cbn [s_dag log_runs s_replans] in *. pose proof (sum_bound (weight s') new 3 (weight_bound s')).
  unfold MAX_REPLANS_PER_WORKFLOW in *.
  destruct Hcap as [->|Hcap]; cbn [length sum_list_with] in *; lia.
Qed.

(** ** Ready nodes *)

Lemma ready_batch (s : sched) ready :
  valid_dag (s_dag s) → get_ready_nodes (s_dag s) = Ok ready →
  NoDup (ids ready) ∧ (∀ x, x ∈ ids ready → x ∈ node_ids (s_dag s)) ∧ (∀ x, x ∈ ids ready → waits s x) ∧
  ready_deps (λ x, x ∈ ids ready) s.
Proof.
  intros Hv. destruct (Hv) as (Hwf&Hcl&_). unfold get_ready_nodes.
  rewrite ready_among_spec by (intros m; by apply closed_depends_on). intros [= <-].
  assert (∀ x, x ∈ ids (filter (is_ready (s_dag s)) (nodes (s_dag s))) →
    ∃ n, dict_get x (d_nodes (s_dag s)) = Some n ∧ is_ready (s_dag s) n) as Hx.
  { intros x Hx. apply list_elem_of_fmap in Hx as (n&->&Hn). apply list_elem_of_filter in Hn as [Hrd Hn].
    exists n. split; [|done]. by apply nodes_get. }
  assert (∀ x, x ∈ ids (filter (is_ready (s_dag s)) (nodes (s_dag s))) → waits s x) as Hw.
  { intros x (n&Hn&Hrd)%Hx. unfold waits, st_of, status_of. rewrite Hn. apply Hrd. }
  split_and!; [| |done|].
  - apply NoDup_ids_filter. unfold ids, nodes. rewrite map_map, (map_ext_in _ fst); [apply (wf_keys _ Hwf)|].
    intros [k n] Hin. cbn. apply (wf_id _ Hwf). apply (dict_get_elem_of _ _ _ (wf_keys _ Hwf)).
    by apply list_elem_of_In.
  - intros x (n&Hn&_)%Hx. apply dict_get_is_Some. by exists n.
  - intros r p Hr He. destruct (Hx r Hr) as (n&Hn&[_ Hdeps]). unfold edge, deps in He. rewrite Hn in He.
    rewrite Forall_forall in Hdeps. pose proof (Hdeps p He) as Hp. split; [|done].
    intros Hin%Hw. unfold waits, st_of in Hin. rewrite Hp in Hin. unfold waiting in Hin. set_solver.
Qed.
(** ** The loop *)

Abbreviation batch_of := (run_batch wid me agents estimate credits show_credits w).
Abbreviation loop := (run_loop wid me agents estimate credits show_credits w).

Lemma run_batch_step t ready (s : sched) :
  valid_dag (s_dag s) → get_ready_nodes (s_dag s) = Ok ready →
  match batch_of t ready s with
  | Err e => not_dag e
  | Ok (inr (s', _)) => touches (λ x, x ∈ ids ready) s s'
  | Ok (inl s') => batch_step t (ids ready) s s'
  end.
Proof.
  intros Hv Hg. destruct (ready_batch s ready Hv Hg) as (Hnd&Hin&Hw&Hr).
  pose proof (run_batch_spec wid me agents estimate credits show_credits w t ready s Hv Hin Hnd) as Hb.
  destruct (batch_of t ready s) as [[s'|p]|e]; [|done..]. destruct Hb as (Ho&b&Hb&T). split; [done..|].
  eexists. split; [exact T|]. split_and!.
  - rewrite map_map. by apply NoDup_ids_filter.
  - intros p (n&->&Hn)%list_elem_of_fmap. cbn. split; [done|].
    apply list_elem_of_filter in Hn as [_ Hn]. apply list_elem_of_fmap. by exists n.
  - intros p (n&->&Hn)%list_elem_of_fmap. cbn. split; [by eapply prepared_not_denied|].
    intros Hq Hneed. apply (prepared_approved _ _ _ _ _ _ _ _ _ _ _ Hq Hb Hn). unfold needs_approval.
    destruct Hneed as [(c&Hc&Hreq)|Hesc]; [left|by right].
    assert (n ∈ nodes (s_dag s)) as Hn'.
    { apply list_elem_of_filter in Hn as [_ Hn]. unfold get_ready_nodes in Hg. destruct Hv as (Hwf&Hcl&_).
      rewrite ready_among_spec in Hg by (intros m; by apply closed_depends_on). injection Hg as <-.
      by apply list_elem_of_filter in Hn as [_ ?]. }
    apply nodes_get in Hn'; [|by destruct Hv]. unfold cap_of in Hc. rewrite Hn' in Hc. by injection Hc as ->.
Qed.

Lemma batch_step_valid t R (s s' : sched) : valid_dag (s_dag s) → batch_step t R s s' → valid_dag (s_dag s').
Proof. intros Hv [_ _ _ (l&T&_)]. by apply (tc_valid _ _ _ T). Qed.

(** Induction over the batches of a run: with more iterations than
    [potential], the loop ends by itself. *)
Lemma run_loop_ind (P : sched → Prop) (Q : sched * outcome → Prop) :
  (∀ t ready s s', valid_dag (s_dag s) → P s → batch_of t ready s = Ok (inl s') →
     batch_step t (ids ready) s s' → P s') →
  (∀ s, valid_dag (s_dag s) → P s → is_complete (s_dag s) = true ∨ get_ready_nodes (s_dag s) = Ok [] →
     Q (s, Finished)) →
  (∀ ready s s' node rid, valid_dag (s_dag s) → P s → (∀ x, x ∈ ids ready → waits s x) →
     touches (λ x, x ∈ ids ready) s s' → Q (s', Paused node rid)) →
  (∀ s e, P s → not_dag e → Q (s, Raised e)) →
  ∀ it t s, valid_dag (s_dag s) → P s → potential s < it → Q (loop it t s).
Proof.
  intros Hstep Hfin Hpause Hraise. induction it as [|it IH]; intros t s Hv HP Hlt; [lia|]. cbn [run_loop].
  destruct (is_complete (s_dag s)) eqn:Ec; [apply Hfin; [done..|by left]|].
  destruct (get_ready_nodes (s_dag s)) as [ready|e] eqn:Eg.
  2:{ destruct Hv as (Hwf&Hcl&_). unfold get_ready_nodes in Eg.
      by rewrite ready_among_spec in Eg by (intros m; by apply closed_depends_on). }
  destruct ready as [|n ns]; [apply Hfin; [done..|by right]|].
  pose proof (run_batch_step t (n :: ns) s Hv Eg) as Hb.
  destruct (batch_of t (n :: ns) s) as [[s'|[s' [node rid]]]|e] eqn:Eb.
  - apply IH; [by eapply batch_step_valid|by eapply Hstep|].
    pose proof (potential_step t (ids (n :: ns)) s s' Hv ltac:(done) Hb). lia.
  - eapply Hpause; [done|done| |exact Hb]. by destruct (ready_batch s (n :: ns) Hv Eg) as (_&_&?&_).
  - by apply Hraise.
Qed.

Lemma iterations_suffice (s : sched) : potential s < max_iterations_defensive (s_dag s).
Proof.
  unfold potential, max_iterations_defensive. pose proof (sum_bound (weight s) (node_ids (s_dag s)) 3 (weight_bound s)) as Hs.
  unfold node_ids in *. rewrite length_map in Hs. unfold MAX_REPLANS_PER_WORKFLOW. lia.
Qed.

(** The same over a whole execution *)
Lemma execute_ind (P : sched → Prop) (Q : sched * outcome → Prop) s0 :
  (∀ t ready s s', valid_dag (s_dag s) → P s → batch_of t ready s = Ok (inl s') →
     batch_step t (ids ready) s s' → P s') →
  (∀ s, valid_dag (s_dag s) → P s → is_complete (s_dag s) = true ∨ get_ready_nodes (s_dag s) = Ok [] →
     Q (finalize wid w s, Finished)) →
  (∀ ready s s' node rid, valid_dag (s_dag s) → P s → (∀ x, x ∈ ids ready → waits s x) →
     touches (λ x, x ∈ ids ready) s s' → Q (s', Paused node rid)) →
  (∀ s e, P s → not_dag e → Q (s, Raised e)) →
  valid_dag (s_dag s0) → P (set_workflow_status wid Approval.RUNNING s0) →
  Q (execute_workflow wid me agents estimate credits show_credits w s0).
Proof.
  intros Hstep Hfin Hpause Hraise Hv HP. unfold execute_workflow.
  pose proof (run_loop_ind P (λ r, Q match r with (s, Finished) => (finalize wid w s, Finished) | r => r end)
    Hstep Hfin Hpause Hraise (max_iterations_defensive (s_dag s0)) 1 (set_workflow_status wid Approval.RUNNING s0) Hv HP) as Hl.
  specialize (Hl (iterations_suffice (set_workflow_status wid Approval.RUNNING s0))).
  change (s_dag (set_workflow_status wid Approval.RUNNING s0)) with (s_dag s0).
  destruct (loop _ _ _) as [s []]; exact Hl.
Qed.
(** ** Termination *)

(** Neither the runaway branch nor an exception of the graph *)
Definition ends_well (o : outcome) : Prop := o ≠ Runaway ∧ ∀ e, o ≠ Raised (DagExn e).

(** C4: on a valid graph the loop ends by itself within the defensive number of
    iterations, whatever the models, tools, policies, services and reviewers
    answer: the runaway branch is never taken, and the graph never raises.
    Every batch uses up one of the three attempts of a node or one of the three
    re-plans of the workflow. *)
Theorem no_runaway s0 :
  valid_dag (s_dag s0) → ends_well (execute_workflow wid me agents estimate credits show_credits w s0).2.
Proof.
  intros Hv. apply (execute_ind (λ _, True) (λ r, ends_well r.2) s0); try done.
  intros s e _ He. split; [done|]. intros x. injection 1 as E. by apply (He x).
Qed.

(** ** Completion *)

(** Nothing is in flight. *)
Definition at_rest (s : sched) : Prop :=
  cascaded (s_dag s) ∧ ∀ x, x ∈ node_ids (s_dag s) → waits s x ∨ settled s x.

Lemma at_rest_step t R (s s' : sched) :
  (∀ id, ¬ denied w t id) → valid_dag (s_dag s) → at_rest s → batch_step t R s s' → at_rest s'.
Proof.
  intros Hd Hv [Hc Hr] [Hw Ho Hrd (l&T&_)]. split; [by apply (tc_cascaded _ _ _ T)|]. intros x Hx.
  destruct (decide (x ∈ node_ids (s_dag s))) as [Hin|Hin]; [|by apply (tc_fresh _ _ _ T)].
  destruct (decide (x ∈ R)) as [HR|HR].
  - destruct (Ho x HR) as [[Hs|(Hs&_)]|[Hdn _]]; [by right| |by destruct (Hd x)].
    left. unfold waits. rewrite Hs. by left.
  - eapply still_free; [by apply (tc_status _ _ _ T)|by apply Hr].
Qed.

Lemma at_rest_done (s : sched) :
  valid_dag (s_dag s) → at_rest s → is_complete (s_dag s) = true ∨ get_ready_nodes (s_dag s) = Ok [] →
  is_complete (s_dag s) = true.
Proof.
  intros Hv [Hc Hr] [?|Hg]; [done|]. destruct (ready_or_complete (s_dag s) Hv Hc) as [?|(n&ns&E)]; [|done|congruence].
  intros n Hn. destruct Hv as (Hwf&_&_). apply nodes_get in Hn; [|done].
  assert (st_of s (node_id n) = Some (status n)) as E by (unfold st_of, status_of; by rewrite Hn).
  destruct (Hr (node_id n)) as [Hw|(x&Hx&Hs)]; [apply dict_get_is_Some; by exists n| |].
  - left. unfold waits in Hw. by rewrite E in Hw.
  - right. congruence.
Qed.

(** C6: a workflow that is executed to its end leaves no node behind: when no
    policy denies a node, and at the start nothing is in flight and failures
    are cascaded, every node is COMPLETED, FAILED or SKIPPED once
    [execute_workflow] finishes, whatever else fails on the way. *)
Theorem workflow_completes s0 :
  valid_dag (s_dag s0) → at_rest s0 → (∀ t id, ¬ denied w t id) →
  ∀ s, execute_workflow wid me agents estimate credits show_credits w s0 = (s, Finished) →
    is_complete (s_dag s) = true.
Proof.
  intros Hv Hr Hd. pose proof (execute_ind at_rest
    (λ r, ∀ s, r = (s, Finished) → is_complete (s_dag s) = true) s0) as Hi.
  apply Hi; try done.
  - intros t ready s s' Hv' Hr' _. by apply at_rest_step.
  - intros s Hv' Hr' Hdone s' [= <-]. by apply at_rest_done.
Qed.

(** ** What is run *)

(** Every dependency of every node that was run is COMPLETED. *)
Definition ran_in_order (s : sched) : Prop :=
  ∀ p id, p ∈ s_runs s → edge (s_dag s) id p.2 → st_of s id = Some COMPLETED.

(** C9: a node is handed to the language model only after everything it depends
    on: at the end of a run, also of one that is paused or raises, every
    dependency of every node that was run is COMPLETED. *)
Theorem dependencies_first s0 :
  valid_dag (s_dag s0) → s_runs s0 = [] →
  ran_in_order (execute_workflow wid me agents estimate credits show_credits w s0).1.
Proof.
  intros Hv Hnil. set (s := (execute_workflow _ _ _ _ _ _ _ s0).1). set (P := λ s : sched, ∀ p, p ∈ s_runs s →
    p.2 ∈ node_ids (s_dag s) ∧ ∀ id, edge (s_dag s) id p.2 → st_of s id = Some COMPLETED).
  assert (∀ (R : list string) s1 s2, valid_dag (s_dag s1) → (∀ x, x ∈ R → waits s1 x) → P s1 → touches (λ x, x ∈ R) s1 s2 → P s2) as Hkeep.
  { intros R s1 s2 Hv1 Hw HP T p Hp. rewrite (tc_runs _ _ _ T) in Hp. destruct (HP p Hp) as [Hin Hdeps].
    split; [by eapply tc_ids|]. intros id He. unfold edge in He. rewrite (tc_deps _ _ _ T Hv1) in He by done.
    pose proof (Hdeps id He) as Hst. eapply status_kept; [exact T|done| |done..]. intros Hr%Hw.
    unfold waits in Hr. rewrite Hst in Hr. unfold waiting in Hr. set_solver. }
  enough (P s) as HP by (intros p id Hp; by apply HP).
  apply (execute_ind P (λ r, P r.1) s0); try done.
  - intros t ready s1 s2 Hv1 HP _ [Hw _ Hrd (l&T&_&Hl&_)]. apply (Hkeep _ (log_runs l s1) s2 Hv1 Hw); [|done].
    intros p [Hp|Hp]%elem_of_app; [by apply HP|]. destruct (Hl p Hp) as [_ HR]. split.
    + apply (st_of_node s1). pose proof (Hw _ HR) as Hwr. unfold waits in Hwr. by destruct (st_of s1 p.2).
    + intros id He. by apply (Hrd p.2 id HR).
  - intros ready s1 s2 node rid Hv1 HP Hw T. by eapply Hkeep.
  - intros p Hp. change (p ∈ s_runs s0) in Hp. rewrite Hnil in Hp. by apply elem_of_nil in Hp.
Qed.
(** The policies and the humans have the last word about a run. *)
Definition cleared (s0 s : sched) (p : nat * string) : Prop :=
  ¬ denied w p.1 p.2 ∧
  (quiet w → (∃ c, cap_of s p.2 = Some c ∧ c ∈ APPROVAL_REQUIRED_CAPABILITIES) ∨ escalated w p.1 p.2 →
     approved wid (s_desk s0) p.2).

Lemma cleared_kept R s0 (s s' : sched) p :
  touches R s s' → valid_dag (s_dag s) → p.2 ∈ node_ids (s_dag s) → cleared s0 s p → cleared s0 s' p.
Proof.
  intros T Hv Hin [Hd Ha]. split; [done|]. intros Hq Hneed. apply Ha; [done|].
  by rewrite <-(tc_cap _ _ _ T Hv _ Hin).
Qed.

(** C5: what is handed to the language model has been cleared.  No run is one
    that a policy denied in that iteration.  And while nobody else writes to
    the approval desk, a node with a high-risk capability, or one that a policy
    escalated to a human, is run only if the desk already held a decision for
    it that is not a denial: asking never grants. *)
Theorem runs_cleared s0 :
  valid_dag (s_dag s0) → s_runs s0 = [] →
  let s := (execute_workflow wid me agents estimate credits show_credits w s0).1 in
  ∀ p, p ∈ s_runs s → cleared s0 s p.
Proof.
  intros Hv Hnil s. set (P := λ s : sched,
    (∀ p, p ∈ s_runs s → p.2 ∈ node_ids (s_dag s) ∧ cleared s0 s p) ∧
    (quiet w → same_decisions wid (s_desk s0) (s_desk s))).
  enough (∀ p, p ∈ s_runs s → p.2 ∈ node_ids (s_dag s) ∧ cleared s0 s p) as HP by (intros p Hp; by apply HP).
  assert (∀ R s1 s2, valid_dag (s_dag s1) → touches R s1 s2 →
    (∀ p, p ∈ s_runs s1 → p.2 ∈ node_ids (s_dag s1) ∧ cleared s0 s1 p) →
    ∀ p, p ∈ s_runs s2 → p.2 ∈ node_ids (s_dag s2) ∧ cleared s0 s2 p) as Hkeep.
  { intros R s1 s2 Hv1 T Hc p Hp. rewrite (tc_runs _ _ _ T) in Hp. destruct (Hc p Hp) as [Hin Hcl].
    split; [by eapply tc_ids|by eapply cleared_kept]. }
  apply (execute_ind P (λ r, ∀ p, p ∈ s_runs r.1 → p.2 ∈ node_ids (s_dag r.1) ∧ cleared s0 r.1 p) s0); try done.
  - intros t ready s1 s2 Hv1 [Hc Hdec] Eb [Hw _ _ (l&T&_&Hl&Hall)]. split.
    2:{ intros Hq. etrans; [by apply Hdec|]. by eapply run_batch_decisions. }
    eapply (Hkeep _ (log_runs l s1)); [done|exact T|]. intros p [Hp|Hp]%elem_of_app; [by apply Hc|].
    destruct (Hl p Hp) as [Et HR]. destruct (Hall p Hp) as [Hnd Hap]. split.
    + apply (st_of_node s1). pose proof (Hw _ HR) as Hwr. unfold waits in Hwr. by destruct (st_of s1 p.2).
    + rewrite <-Et in Hnd, Hap. split; [done|]. intros Hq Hneed. destruct (Hap Hq Hneed) as (r&Hr&Hden).
      exists r. split; [|done]. by rewrite <-(Hdec Hq p.2).
  - intros s1 Hv1 [Hc _] _ p. apply Hc.
  - intros ready s1 s2 node rid Hv1 [Hc _] _ T. by eapply Hkeep.
  - intros s1 e [Hc _] _. apply Hc.
  - split; [|intros _; by apply same_twins]. intros p Hp. change (p ∈ s_runs s0) in Hp. rewrite Hnil in Hp.
    by apply elem_of_nil in Hp.
Qed.

(** ** Effort *)

Definition attempts (s : sched) (id : string) : nat := length (filter (λ p, p.2 = id) (s_runs s)).

Lemma attempts_log l (s : sched) id :
  attempts (log_runs l s) id = attempts s id + length (filter (λ p, p.2 = id) l).
Proof. unfold attempts. cbn. by rewrite filter_app, length_app. Qed.

Lemma once l (id : string) :
  NoDup (map snd l) → length (filter (λ p : nat * string, p.2 = id) l) ≤ if decide (id ∈ map snd l) then 1 else 0.
Proof.
  induction l as [|[k x] l IH]; cbn [map]; [case_decide; cbn; lia|]. intros [Hx Hnd]%NoDup_cons.
  specialize (IH Hnd). cbn [snd] in *. destruct (decide (x = id)) as [E|E];
    [rewrite filter_cons_True by done|rewrite filter_cons_False by done].
  - subst x. rewrite decide_False in IH by done. rewrite decide_True by by left. cbn. lia.
  - destruct (decide (id ∈ map snd l)); [rewrite decide_True by (by right); exact IH|].
    rewrite decide_False; [exact IH|]. by intros [->|?]%elem_of_cons.
Qed.

(** Attempts made and attempts left *)
Record effort_inv (s0 s : sched) : Prop := {
  ei_ids : ∃ new, node_ids (s_dag s) = node_ids (s_dag s0) ++ new ∧ s_replans s = s_replans s0 + length new ∧
    (new = [] ∨ s_replans s ≤ MAX_REPLANS_PER_WORKFLOW);
  ei_runs : ∀ p, p ∈ s_runs s → p.2 ∈ node_ids (s_dag s);
  ei_left : ∀ id, attempts s id + weight s id ≤ S MAX_RETRIES_PER_TASK;
}.

Lemma grown R (s0 s s' : sched) :
  touches R s s' → valid_dag (s_dag s) →
  (∃ new, node_ids (s_dag s) = node_ids (s_dag s0) ++ new ∧ s_replans s = s_replans s0 + length new ∧
    (new = [] ∨ s_replans s ≤ MAX_REPLANS_PER_WORKFLOW)) →
  ∃ new, node_ids (s_dag s') = node_ids (s_dag s0) ++ new ∧ s_replans s' = s_replans s0 + length new ∧
    (new = [] ∨ s_replans s' ≤ MAX_REPLANS_PER_WORKFLOW).
Proof.
  intros T Hv (n1&E1&R1&C1). destruct (tc_new _ _ _ T Hv) as (n2&E2&R2&C2). exists (n1 ++ n2).
  rewrite E2, E1, app_assoc, length_app. split_and!; [done|lia|].
  destruct C2 as [->|]; [|by right]. rewrite app_nil_r. cbn in R2. rewrite Nat.add_0_r in R2. by rewrite R2.
Qed.

Lemma effort_step t R (s0 s s' : sched) :
  valid_dag (s_dag s) → effort_inv s0 s → batch_step t R s s' → effort_inv s0 s'.
Proof.
  intros Hv [Hi Hr Hleft] [Hw Ho _ (l&T&Hnd&Hl&_)].
  assert (∀ x, x ∈ R → x ∈ node_ids (s_dag s)) as HR.
  { intros x Hx. apply st_of_node. pose proof (Hw x Hx) as Hwx. unfold waits in Hwx. by destruct (st_of s x). }
  assert (∀ id, attempts s' id = attempts s id + length (filter (λ p, p.2 = id) l)) as Ha.
  { intros id. rewrite <-attempts_log. unfold attempts. by rewrite (tc_runs _ _ _ T). }
  split.
  - exact (grown _ s0 _ _ T Hv Hi).
  - intros p Hp. apply (tc_ids _ _ _ _ T Hv). rewrite (tc_runs _ _ _ T) in Hp.
    apply elem_of_app in Hp as [Hp|Hp]; [by apply Hr|by apply HR, Hl].
  - intros id. rewrite Ha. pose proof (once l id Hnd) as H1. pose proof (Hleft id) as H2.
    destruct (decide (id ∈ R)) as [Hin|Hin].
    + pose proof (weight_lt t s s' id (Hw id Hin) (Ho id Hin)). destruct (decide (id ∈ map snd l)); lia.
    + rewrite decide_False in H1.
      2:{ intros (p&->&Hp)%list_elem_of_fmap. by apply Hin, Hl. }
      destruct (decide (id ∈ node_ids (s_dag s))) as [Hid|Hid].
      * pose proof (weight_le _ _ _ _ T Hv Hid Hin) as H3. change (weight (log_runs l s) id) with (weight s id) in H3. lia.
      * assert (attempts s id = 0) as ->.
        { unfold attempts. destruct (filter _ (s_runs s)) as [|p ps] eqn:E; [done|].
          assert (p ∈ filter (λ p, p.2 = id) (s_runs s)) as Hp by (rewrite E; by left).
          apply list_elem_of_filter in Hp as [<- Hp]. by destruct Hid; apply Hr. }
        pose proof (weight_bound s' id). unfold MAX_RETRIES_PER_TASK. lia.
Qed.

(** C10: the effort of a run is bounded: a node is handed to the language model
    at most three times (once, and [MAX_RETRIES_PER_TASK] times again), and
    re-planning adds at most [MAX_REPLANS_PER_WORKFLOW] nodes to the graph,
    whatever the reflection answers. *)
Theorem effort_bounded s0 :
  valid_dag (s_dag s0) → s_runs s0 = [] →
  let s := (execute_workflow wid me agents estimate credits show_credits w s0).1 in
  (∀ id, attempts s id ≤ 3) ∧ length (d_nodes (s_dag s)) ≤ length (d_nodes (s_dag s0)) + 3.
Proof.
  intros Hv Hnil s.
  set (G := λ s : sched, ∃ new, node_ids (s_dag s) = node_ids (s_dag s0) ++ new ∧
    s_replans s = s_replans s0 + length new ∧ (new = [] ∨ s_replans s ≤ MAX_REPLANS_PER_WORKFLOW)).
  assert ((∀ id, attempts s id ≤ 3) ∧ G s) as [Hle (new&E&Hn&Hc)].
  { assert (∀ s1 : sched, effort_inv s0 s1 → (∀ id, attempts s1 id ≤ 3) ∧ G s1) as Hout.
    { intros s1 [Hi _ Hleft]. split; [|done]. intros id. specialize (Hleft id). unfold MAX_RETRIES_PER_TASK in Hleft. lia. }
    apply (execute_ind (effort_inv s0) (λ r, (∀ id, attempts r.1 id ≤ 3) ∧ G r.1) s0); try done.
    - intros t ready s1 s2 Hv1 Hi _. by apply effort_step.
    - intros s1 Hv1 Hi _. apply (Hout s1 Hi).
    - intros ready s1 s2 node rid Hv1 Hi Hw T. destruct (Hout s1 Hi) as [Ha Hg]. split.
      + intros id. unfold attempts. cbn [fst]. rewrite (tc_runs _ _ _ T). apply Ha.
      + exact (grown _ s0 _ _ T Hv1 Hg).
    - intros s1 e Hi _. by apply Hout.
    - split.
      + exists []. rewrite app_nil_r. split_and!; [done|cbn; lia|by left].
      + intros p Hp. change (p ∈ s_runs s0) in Hp. rewrite Hnil in Hp. by apply elem_of_nil in Hp.
      + intros id. unfold attempts. cbn. rewrite Hnil. apply (weight_bound (set_workflow_status _ _ s0)). }
  split; [done|]. pose proof (f_equal length E) as El. unfold node_ids in El.
  rewrite length_app, !length_map in El. unfold MAX_REPLANS_PER_WORKFLOW in Hc.
  destruct Hc as [->|Hc]; cbn [length] in *; lia.
Qed.
End loop.

(** ** A concrete run *)

Definition demo_agents : gmap string Agent := list_to_map (map (λ id,
  (id, {| ag_id := "agent-" +:+ id; ag_name := id; ag_profile_usd := 0 |})) ["a"; "b"; "c"; "d"]).

Definition demo_response (text : string) : LLMResponse := {|
  content := text; model_used := "m"; tool_calls := []; cost := 0; m_tool_calls := [];
  m_tool_iterations := None; m_budget_truncated := false; m_summary_forced := false;
  m_summary_empty := false |}.

Definition demo_id (t : nat) (id kind : string) : string := str_join "/" [pretty t; id; kind].

(** A world in which everything works; the policies and the reflection vary. *)
Definition demo_world (policy : nat → string → option Policy.Decision)
    (reflect : nat → string → option ReflectionResult) : World := {|
  w_event_id := demo_id;
  w_task_id t id := {| uuid_int := fold_left (λ k c, k * 256 + N_of_ascii c)%N (str_chars id) (N.of_nat t) |};
  w_context_ok _ _ := true; w_policy := policy; w_lookup_ok _ _ := true; w_checkpoint _ _ := None;
  w_request_id t id := demo_id t id "request"; w_up _ _ := true; w_now t _ := Z.of_nat t;
  w_others _ _ d := d; w_cached _ _ := None;
  w_generate _ _ _ _ := Some (demo_response "an answer");
  w_tool _ _ _ _ := {| tr_content := ""; tr_success := true; cost_credits := 0 |};
  w_afford _ _ _ := true; w_max_iterations := 3; w_memory_ok _ _ := true; w_trust_ok _ _ := true;
  w_consensus _ _ := None; w_reflect := reflect; w_published _ _ := true; w_synthesis_ok := true;
  w_tokens _ _ := 12; w_exn_text _ _ _ := "error" |}.

Definition demo_start (d : DAG) : sched Z := {|
  s_dag := d; s_wallet := fresh_wallet 100;
  s_desk := {| store := ∅; pending_set := ∅; twins := []; workflow_status := ∅ |};
  s_tasks := ∅; s_replans := 0; s_result := None; s_runs := [] |}.

Definition demo_run (w : World) (d : DAG) : sched Z * outcome :=
  execute_workflow "w" "me" demo_agents (λ _ _, 1%Z) (λ _, 1%Z) (λ _, "1") w (demo_start d).

Definition statuses (d : DAG) : list (string * TaskStatus) := map (λ kn, (kn.1, status kn.2)) (d_nodes d).

Definition no_policy (t : nat) (id : string) : option Policy.Decision := None.
Definition no_reflection (t : nat) (id : string) : option ReflectionResult := None.

Example diamond_runs :
  let '(s, o) := demo_run (demo_world no_policy no_reflection) (build diamond) in
  (statuses (s_dag s), s_runs s, o) =
  ([("a", COMPLETED); ("b", COMPLETED); ("c", COMPLETED); ("d", COMPLETED)],
   [(1, "a"); (2, "b"); (2, "c"); (3, "d")], Finished).
Proof. vm_compute. reflexivity. Qed.

Abbreviation diamond_start := (demo_start (build diamond)).
Abbreviation calm := (demo_world no_policy no_reflection).

Lemma diamond_waits x : x ∈ node_ids (s_dag diamond_start) → waits diamond_start x.
Proof.
  intros Hx. apply (bool_decide_eq_true_1 (waits diamond_start x)). revert x Hx. apply Forall_forall.
  apply (bool_decide_eq_true_1 (Forall _ _)). vm_compute. reflexivity.
Qed.

Lemma diamond_at_rest : at_rest diamond_start.
Proof.
  split; [apply pending_cascaded; vm_compute; reflexivity|]. intros x Hx. left. by apply diamond_waits.
Qed.

Lemma no_runaway_witness :
  valid_dag (s_dag diamond_start) ∧
  ends_well (demo_run calm (build diamond)).2.
Proof.
  split; [exact diamond_valid|].
  exact (no_runaway "w" "me" demo_agents (λ _ _, 1%Z) (λ _, 1%Z) (λ _, "1") calm diamond_start diamond_valid).
Defined.

Lemma workflow_completes_witness :
  is_complete (s_dag (demo_run calm (build diamond)).1) = true.
Proof.
  apply (workflow_completes "w" "me" demo_agents (λ _ _, 1%Z) (λ _, 1%Z) (λ _, "1") calm diamond_start
    diamond_valid diamond_at_rest).
  - intros t id (d&Hd&_). discriminate.
  - vm_compute. reflexivity.
Defined.

Lemma dependencies_first_witness :
  st_of (demo_run calm (build diamond)).1 "b" = Some COMPLETED.
Proof.
  refine (dependencies_first "w" "me" demo_agents (λ _ _, 1%Z) (λ _, 1%Z) (λ _, "1") calm diamond_start
    diamond_valid eq_refl (3, "d") "b" _ _).
  - apply (bool_decide_eq_true_1 ((3, "d") ∈ s_runs (demo_run calm (build diamond)).1)). vm_compute. reflexivity.
  - apply (bool_decide_eq_true_1 (("b" : string) ∈ deps (s_dag (demo_run calm (build diamond)).1) "d")). vm_compute. reflexivity.
Defined.

Lemma runs_cleared_witness :
  cleared "w" calm diamond_start (demo_run calm (build diamond)).1 (1, "a").
Proof.
  refine (runs_cleared "w" "me" demo_agents (λ _ _, 1%Z) (λ _, 1%Z) (λ _, "1") calm diamond_start
    diamond_valid eq_refl (1, "a") _).
  apply (bool_decide_eq_true_1 ((1, "a") ∈ s_runs (demo_run calm (build diamond)).1)). vm_compute. reflexivity.
Defined.

Lemma effort_bounded_witness :
  (∀ id, attempts (demo_run calm (build diamond)).1 id ≤ 3) ∧
  length (d_nodes (s_dag (demo_run calm (build diamond)).1)) ≤
    length (d_nodes (s_dag diamond_start)) + 3.
Proof.
  exact (effort_bounded "w" "me" demo_agents (λ _ _, 1%Z) (λ _, 1%Z) (λ _, "1") calm diamond_start
    diamond_valid eq_refl).
Defined.
