(* ===== verification/SchedExamples.v ===== *)
(** * SchedExamples: runs of the scheduler that surprise

    The concrete world of SchedLoop.v with one answer changed at a time: a
    policy verdict, the advice of the reflection, or the capability of a node. *)

From Stdlib Require Import ZArith QArith SpecFloat Lia.
From stdpp Require Import base tactics strings gmap relations list.
From S2P Require Import Prelude PyStr Dict Json PyVal Uuid Policy Wallet Approval TaskFsm Dag DagTopo DagOps ToolLoop.
From S2P Require Import Scheduler SchedLoop.

#[local] Open Scope nat_scope.

Definition verdict_on (a : DecisionAction) (x : string) (t : nat) (id : string) : option Policy.Decision :=
  if String.eqb id x then
    Some {| act := a; rule_id := Some "r"; Policy.reason := "no"; metadata := []; contributing_rule_ids := [] |}
  else None.

Definition advice (a x : string) (t : nat) (id : string) : option ReflectionResult :=
  if String.eqb id x then Some {| rf_action := a; rf_confidence := f_of_nat 0; rf_issues := [] |} else None.

Definition risky (n : DAGNode) : DAGNode := {|
  node_id := node_id n; capability := "risk-assessment"; description := description n;
  depends_on := depends_on n; estimated_complexity := estimated_complexity n;
  assigned_agent_id := assigned_agent_id n; task_id := task_id n;
  status := status n; output := output n; error := error n |}.

Definition fork : list DAGNode := [mk_node "a" []; risky (mk_node "b" []); mk_node "c" ["a"]].

Definition summary (r : sched Z * outcome) :=
  (statuses (s_dag r.1), s_runs r.1, r.2, workflow_status (s_desk r.1) !! "w", s_result r.1).

(** A node that a policy denies stays RUNNING and its dependents PENDING; the
    workflow is COMPLETED and its result does not mention them. *)
Example denied_left_running :
  summary (demo_run (demo_world (verdict_on DENY "b") no_reflection) (build diamond)) =
  ([("a", COMPLETED); ("b", RUNNING); ("c", COMPLETED); ("d", PENDING)], [(1, "a"); (2, "c")],
   Finished, Some Approval.COMPLETED, Some (ResultFinal false 0 0 [] false)).
Proof. vm_compute. reflexivity. Qed.

(** Its reservation is never released. *)
Example denied_keeps_reservation :
  let s := (demo_run (demo_world (verdict_on DENY "b") no_reflection) (build diamond)).1 in
  _compute_reserved "w" (s_wallet s) = 1%Z.
Proof. vm_compute. reflexivity. Qed.

(** A policy denies a node that also needs an approval: the gate looks the node
    up in [node_contexts], from which the denial has removed it. *)
Example denied_high_risk_raises :
  (demo_run (demo_world (verdict_on DENY "b") no_reflection) (build fork)).2 = Raised ContextKeyError.
Proof. vm_compute. reflexivity. Qed.

(** The reflection orders the workflow to be aborted; it is COMPLETED. *)
Example abort_overwritten :
  summary (demo_run (demo_world no_policy (advice "abort" "a")) (build diamond)) =
  ([("a", COMPLETED); ("b", COMPLETED); ("c", COMPLETED); ("d", COMPLETED)],
   [(1, "a"); (2, "b"); (2, "c"); (3, "d")],
   Finished, Some Approval.COMPLETED, Some (ResultFinal false 0 0 [] false)).
Proof. vm_compute. reflexivity. Qed.

(** The node a re-plan adds has no agent, and fails. *)
Example alternative_fails :
  statuses (s_dag (demo_run (demo_world no_policy (advice "re_plan" "a")) (build diamond)).1) =
  [("a", COMPLETED); ("b", COMPLETED); ("c", COMPLETED); ("d", COMPLETED); ("a_alt", FAILED)].
Proof. vm_compute. reflexivity. Qed.

(** A task that is run three times is charged once. *)
Example retries_not_charged :
  let s := (demo_run (demo_world no_policy (advice "retry_task" "a")) (build [mk_node "a" []])).1 in
  (s_runs s, map action_type (events (s_wallet s))) =
  ([(1, "a"); (2, "a"); (3, "a")], [RESERVE; RELEASE; DEBIT]).
Proof. vm_compute. reflexivity. Qed.

(** The pause leaves the other nodes of the batch RUNNING: in the graph that a
    resume starts from they are never ready again. *)
Example siblings_stranded :
  let '(s, o) := demo_run (demo_world no_policy no_reflection) (build fork) in
  (statuses (s_dag s), o) =
  ([("a", RUNNING); ("b", PENDING); ("c", PENDING)], Paused "b" "1/b/request").
Proof. vm_compute. reflexivity. Qed.
