(* ===== verification/Resume.v ===== *)
(** * Resume: workflows restored from a checkpoint on any node

    Models [orchestration/resume.py] and the endpoint [resume_workflow] of
    [api/workflows.py].  The tables are the rows in the order in which the
    database returns them; the object of a row is its position in that list,
    so a row that two nodes of the graph share is one object.  Parameters are
    [py_hash], the built-in [hash] of a text in this process, and [new_id],
    the identifiers that [uuid4] draws.  Texts are stored in columns of at most
    100 characters or of any length, integers in columns of 32 bits; the digits
    in the identifiers of nodes are ASCII. *)

From Stdlib Require Import Ascii NArith ZArith Lia.
From stdpp Require Import base tactics strings pretty gmap relations list.
From S2P Require Approval Crdt Scheduler.
From S2P Require Import Prelude PyStr Dict Base58 Json Did PyVal Merkle Uuid Signer TaskFsm Dag DagTopo DagOps Checkpoint.

#[local] Open Scope nat_scope.

(** ** Rows *)

Record wf_row (T : Type) := {
  wr_user : string;
  wr_prompt : string;
  wr_status : Approval.WorkflowStatus;
  wr_budget_limit : pyfloat;
  wr_budget_used : pyfloat;
  wr_priority : Z;
  wr_metadata : items;
  wr_dag : items;
  wr_started : option T;
  wr_completed : option T;
}.
Arguments wr_user {T}. Arguments wr_prompt {T}. Arguments wr_status {T}. Arguments wr_budget_limit {T}.
Arguments wr_budget_used {T}. Arguments wr_priority {T}. Arguments wr_metadata {T}. Arguments wr_dag {T}.
Arguments wr_started {T}. Arguments wr_completed {T}.

Record task_row := {
  tr_id : uuid;
  tr_workflow : uuid;
  tr_step : Z;
  tr_capability : string;
  tr_description : string;
  tr_status : TaskStatus;
  tr_retry_count : Z;
  tr_max_retries : Z;
  tr_cost_used : pyfloat;
}.

Record db (T : Type) := { wfs : gmap uuid (wf_row T); tasks : list task_row }.
Arguments wfs {T}. Arguments tasks {T}.

Inductive resume_exn :=
  | ResumeError
  | CheckpointExn (e : checkpoint_error)
  | UnhashableId
  | TooManyDigits
  | DataError.

Record ResumeOutcome (T : Type) := {
  ro_workflow_id : uuid;
  ro_workflow : wf_row T;
  ro_checkpoint : WorkflowCheckpoint T;
  ro_restored_dag : DAG;
  ro_created_workflow : bool;
  ro_created : list string;
  ro_updated : list string;
}.
Arguments ro_workflow_id {T}. Arguments ro_workflow {T}. Arguments ro_checkpoint {T}. Arguments ro_restored_dag {T}.
Arguments ro_created_workflow {T}. Arguments ro_created {T}. Arguments ro_updated {T}.

(** ** The helpers *)

(** [out[nid] = st] for every [nid] of a bucket: a key that is not a text is
    never looked up, and a list or a dictionary is no key. *)
Definition fill (st : TaskStatus) (ids : list json) (out : gmap string TaskStatus)
    : res resume_exn (gmap string TaskStatus) :=
  if existsb (λ j, match j with JList _ | JObj _ => true | _ => false end) ids then Err UnhashableId
  else Ok (foldl (λ out j, match j with JStr s => <[s := st]> out | _ => out end) out ids).

Definition _bucket_statuses {T} (cp : WorkflowCheckpoint T) : res resume_exn (gmap string TaskStatus) :=
  out <~ fill COMPLETED (cp_completed_task_ids cp) ∅;
  out <~ fill FAILED (cp_failed_task_ids cp) out;
  fill PENDING (cp_pending_task_ids cp) out.

Definition is_digit (c : ascii) : bool := (48 <=? N_of_ascii c)%N && (N_of_ascii c <=? 57)%N.

(** [int] refuses a text of more than 4300 digits. *)
Definition _step_number (py_hash : string → Z) (id : string) : res resume_exn Z :=
  let digits := filter (λ c, is_digit c = true) (str_chars id) in
  if decide (digits = []) then Ok (Z.abs (py_hash id) mod (2 ^ 31 - 1) + 1)%Z
  else if 4300 <? length digits then Err TooManyDigits
  else Ok (Scheduler.step_number id).

Definition hash_prefix (h : option string) : string := str_join "" (take 12 (py_chars (default "" h))).

(** [meta["resumed_from_checkpoint"] = ...; meta["resumed_at"] = ...] *)
Definition resume_marks {T} `{Instant T} (h : option string) (now : T) (meta : items) : items :=
  dict_set (KStr "resumed_at") (JStr (isoformat now))
    (dict_set (KStr "resumed_from_checkpoint") (jopt h) meta).

Section resume.
Context {T : Type} `{Instant T} `{Conversions}.
Context (py_hash : string → Z) (new_id : nat → uuid).

(** ** Loading *)

Definition load (now : T) (h : string) (n : Crdt.node) : res resume_exn (WorkflowCheckpoint T) :=
  raise_if (str_empty h) ResumeError ;!
  o <~ res_catch (load_by_hash now h n) (λ e, Err (CheckpointExn e));
  res_of_option ResumeError o.

(** ** Restoring *)

Definition shadow_row (cp : WorkflowCheckpoint T) (prompt user : string) (budget : pyfloat) (now : T) : wf_row T := {|
  wr_user := user;
  wr_prompt := if str_empty prompt then "resumed from checkpoint " +:+ hash_prefix (cp_content_hash cp) else prompt;
  wr_status := Approval.RUNNING; wr_budget_limit := budget; wr_budget_used := FInt 0; wr_priority := 5;
  wr_metadata := resume_marks (cp_content_hash cp) now []; wr_dag := cp_dag_snapshot cp;
  wr_started := Some now; wr_completed := None |}.

Definition patch_row (cp : WorkflowCheckpoint T) (now : T) (w : wf_row T) : wf_row T := {|
  wr_user := wr_user w; wr_prompt := wr_prompt w; wr_status := Approval.RUNNING;
  wr_budget_limit := wr_budget_limit w; wr_budget_used := wr_budget_used w; wr_priority := wr_priority w;
  wr_metadata := resume_marks (cp_content_hash cp) now (wr_metadata w); wr_dag := cp_dag_snapshot cp;
  wr_started := wr_started w; wr_completed := None |}.

Definition set_task_status (st : TaskStatus) (r : task_row) : task_row := {|
  tr_id := tr_id r; tr_workflow := tr_workflow r; tr_step := tr_step r; tr_capability := tr_capability r;
  tr_description := tr_description r; tr_status := st; tr_retry_count := tr_retry_count r;
  tr_max_retries := tr_max_retries r; tr_cost_used := tr_cost_used r |}.

Definition of_step (wid : uuid) (step : Z) (r : task_row) : bool :=
  bool_decide (tr_workflow r = wid) && bool_decide (tr_step r = step).

(** [tasks_by_step.get(step)]: [setdefault] keeps the first row of a step. *)
Definition tasks_by_step (wid : uuid) (rows : list task_row) (step : Z) : option nat :=
  fst <$> list_find (λ r, of_step wid step r = true) rows.

Definition new_task (wid : uuid) (k : nat) (step : Z) (n : DAGNode) (st : TaskStatus) : task_row := {|
  tr_id := new_id k; tr_workflow := wid; tr_step := step; tr_capability := capability n;
  tr_description := description n; tr_status := st; tr_retry_count := 0; tr_max_retries := 3;
  tr_cost_used := FInt 0 |}.

Record progress := { pg_rows : list task_row; pg_created : list string; pg_updated : list string }.

(** One turn of the loop over the nodes *)
Definition reconcile_node (wid : uuid) (rows0 : list task_row) (status_by_node : gmap string TaskStatus)
    (n : DAGNode) (p : progress) : res resume_exn progress :=
  step <~ _step_number py_hash (node_id n);
  let target := default PENDING (status_by_node !! node_id n) in
  match tasks_by_step wid rows0 step with
  | None =>
      Ok {| pg_rows := pg_rows p ++ [new_task wid (length (pg_created p)) step n target];
            pg_created := pg_created p ++ [node_id n]; pg_updated := pg_updated p |}
  | Some i =>
      if decide (tr_status <$> pg_rows p !! i = Some target) then Ok p
      else Ok {| pg_rows := alter (set_task_status target) i (pg_rows p);
                 pg_created := pg_created p; pg_updated := pg_updated p ++ [node_id n] |}
  end.

Fixpoint reconcile (wid : uuid) (rows0 : list task_row) (status_by_node : gmap string TaskStatus)
    (ns : list DAGNode) (p : progress) : res resume_exn progress :=
  match ns with
  | [] => Ok p
  | n :: ns => p <~ reconcile_node wid rows0 status_by_node n p; reconcile wid rows0 status_by_node ns p
  end.

(** What the columns of a new row can hold *)
Definition storable (r : task_row) : bool :=
  (tr_step r <=? 2 ^ 31 - 1)%Z && (length (py_chars (tr_capability r)) <=? 100).

Definition restore (cp : WorkflowCheckpoint T) (default_prompt default_user_id : string)
    (default_budget_limit : pyfloat) (now : T) (d : db T) : res resume_exn (ResumeOutcome T * db T) :=
  restored_dag <~ res_catch (restore_dag cp) (λ e, Err (CheckpointExn e));
  let wid := cp_workflow_id cp in
  let workflow := match wfs d !! wid with
                  | None => shadow_row cp default_prompt default_user_id default_budget_limit now
                  | Some w => patch_row cp now w
                  end in
  status_by_node <~ _bucket_statuses cp;
  p <~ reconcile wid (tasks d) status_by_node (nodes restored_dag)
         {| pg_rows := tasks d; pg_created := []; pg_updated := [] |};
  raise_if (negb (forallb storable (drop (length (tasks d)) (pg_rows p)))) DataError ;!
  Ok ({| ro_workflow_id := wid; ro_workflow := workflow; ro_checkpoint := cp; ro_restored_dag := restored_dag;
         ro_created_workflow := bool_decide (wfs d !! wid = None);
         ro_created := pg_created p; ro_updated := pg_updated p |},
      {| wfs := <[wid := workflow]> (wfs d); tasks := pg_rows p |}).

(** ** The endpoint *)

Inductive api_exn := Http (code : Z) | Unhandled (e : resume_exn).

Definition resume_workflow (workflow_id : uuid) (checkpoint_hash : string) (approval_id : option string)
    (up : bool) (clock : Z) (desk : Approval.desk) (store : Crdt.node) (now : T) (d : db T)
    : res api_exn (ResumeOutcome T * db T) :=
  raise_if (str_empty checkpoint_hash || (200 <? length (py_chars checkpoint_hash))) (Http 422) ;!
  raise_if (from_option (λ id, 100 <? length (py_chars id)) false approval_id) (Http 422) ;!
  match approval_id with
  | Some id =>
      if str_empty id then Ok tt
      else match Approval._merged_approval_status up id clock desk with
           | None => Err (Http 404)
           | Some approval =>
               raise_if (negb (String.eqb (Approval.status approval) "approved")) (Http 409) ;!
               match Approval.checkpoint_hash approval with
               | Some h => raise_if (negb (str_empty h) && negb (String.eqb h checkpoint_hash)) (Http 409)
               | None => Ok tt
               end
           end
  | None => Ok tt
  end ;!
  checkpoint <~ res_catch (load now checkpoint_hash store)
                  (λ e, match e with ResumeError => Err (Http 404) | e => Err (Unhandled e) end);
  raise_if (negb (bool_decide (cp_workflow_id checkpoint = workflow_id))) (Http 409) ;!
  res_catch (restore checkpoint "" "federation" (FInt 100) now d) (λ e, Err (Unhandled e)).
End resume.


(** ** The loop over the nodes *)

Definition key (r : task_row) : uuid * Z := (tr_workflow r, tr_step r).

Lemma of_step_key wid step r : of_step wid step r = true ↔ key r = (wid, step).
Proof.
  unfold of_step, key. rewrite andb_true_iff, !bool_decide_eq_true. split; [by intros [-> ->]|by intros [= -> ->]].
Qed.

(** The row of a step depends on the keys only. *)
Lemma tasks_by_step_keys wid rows step :
  tasks_by_step wid rows step = fst <$> list_find (λ k, k = (wid, step)) (map key rows).
Proof.
  unfold tasks_by_step. induction rows as [|r rows IH]; [done|]. cbn [map list_find].
  destruct (decide (of_step wid step r = true)) as [Hr|Hr], (decide (key r = (wid, step))) as [Hk|Hk];
    rewrite of_step_key in Hr; try done.
  destruct (list_find _ rows) as [[i x]|], (list_find _ (map key rows)) as [[j y]|]; cbn in *; congruence.
Qed.

Lemma tasks_by_step_Some wid rows step i :
  tasks_by_step wid rows step = Some i → ∃ r, rows !! i = Some r ∧ key r = (wid, step).
Proof.
  unfold tasks_by_step. intros ([j r]&(Hl&Hr&_)%list_find_Some&[= <-])%fmap_Some. exists r.
  by rewrite of_step_key in Hr.
Qed.

Lemma tasks_by_step_None wid rows step :
  tasks_by_step wid rows step = None ↔ (wid, step) ∉ map key rows.
Proof.
  rewrite tasks_by_step_keys, fmap_None, list_find_None, Forall_forall. split.
  - intros Hf Hin. by apply (Hf _ Hin).
  - by intros Hn k Hin ->.
Qed.

Lemma tasks_by_step_app wid rows more step i :
  tasks_by_step wid rows step = Some i → tasks_by_step wid (rows ++ more) step = Some i.
Proof. unfold tasks_by_step. intros ([j r]&Hf&->)%fmap_Some. by rewrite (list_find_app_l _ _ _ _ _ Hf). Qed.

Lemma tasks_by_step_snoc wid rows r step :
  tasks_by_step wid rows step = None → key r = (wid, step) →
  tasks_by_step wid (rows ++ [r]) step = Some (length rows).
Proof.
  unfold tasks_by_step. intros Hn%fmap_None Hk. rewrite list_find_app_r by done. cbn [list_find].
  rewrite decide_True by (by apply of_step_key). done.
Qed.

Lemma map_key_alter st i rows : map key (alter (set_task_status st) i rows) = map key rows.
Proof.
  revert i. induction rows as [|r rows IH]; intros [|i]; try done.
  change (key r :: map key (alter (set_task_status st) i rows) = key r :: map key rows). by rewrite IH.
Qed.

Section loop.
Context (py_hash : string → Z) (new_id : nat → uuid) (wid : uuid) (rows0 : list task_row).
Context (bucket : gmap string TaskStatus).

Definition target (n : DAGNode) : TaskStatus := default PENDING (bucket !! node_id n).

(** The row of the node exists, and has the status of the checkpoint. *)
Definition settled (rows : list task_row) (n : DAGNode) : Prop :=
  ∃ step i, _step_number py_hash (node_id n) = Ok step ∧ tasks_by_step wid rows step = Some i ∧
    tr_status <$> rows !! i = Some (target n).

(** [p2] comes from [p1] by work on the row of one step: no other row changes,
    and a row is added only where the step had none. *)
Definition touches (step : Z) (rows1 rows2 : list task_row) : Prop :=
  (∀ i r, rows1 !! i = Some r → key r ≠ (wid, step) → rows2 !! i = Some r) ∧
  (map key rows2 = map key rows1 ∨ map key rows2 = map key rows1 ++ [(wid, step)]).

Lemma touches_other step rows1 rows2 n step' :
  touches step rows1 rows2 → _step_number py_hash (node_id n) = Ok step' → step' ≠ step →
  settled rows1 n → settled rows2 n.
Proof.
  intros [Hf Hk] Hs Hne (s&i&Hs'&Hi&Ht). assert (s = step') as -> by congruence. exists step', i.
  split; [done|]. pose proof (tasks_by_step_Some _ _ _ _ Hi) as (r&Hr&Hkr). split.
  - rewrite tasks_by_step_keys in Hi |- *. apply fmap_Some in Hi as ([j k]&Hj&->).
    destruct Hk as [-> | ->]; [by rewrite Hj|]. by rewrite (list_find_app_l _ _ _ _ _ Hj).
  - rewrite (Hf i r Hr); [by rewrite Hr in Ht|]. rewrite Hkr. by intros [= ->].
Qed.

Lemma reconcile_node_spec n p p' ks :
  reconcile_node py_hash new_id wid rows0 bucket n p = Ok p' → map key (pg_rows p) = map key rows0 ++ ks →
  (∀ step, _step_number py_hash (node_id n) = Ok step → (wid, step) ∉ ks) →
  ∃ step, _step_number py_hash (node_id n) = Ok step ∧ touches step (pg_rows p) (pg_rows p') ∧
    settled (pg_rows p') n.
Proof.
  unfold reconcile_node. intros (step&Hs&E)%res_bind_Ok Hk Hnew. exists step. split; [done|].
  specialize (Hnew step Hs). fold (target n) in E. destruct (tasks_by_step wid rows0 step) as [i|] eqn:Ei.
  - assert (tasks_by_step wid (pg_rows p) step = Some i) as Hi.
    { rewrite tasks_by_step_keys in Ei |- *. apply fmap_Some in Ei as ([j k]&Hj&->).
      by rewrite Hk, (list_find_app_l _ _ _ _ _ Hj). }
    pose proof (tasks_by_step_Some _ _ _ _ Hi) as (r&Hr&Hkr). case_decide as Ht; injection E as <-.
    + split; [split; by auto|]. by exists step, i.
    + cbn [pg_rows]. split; [split|].
      * intros j q Hq Hkq. rewrite list_lookup_alter_ne; [done|]. intros <-. congruence.
      * left. apply map_key_alter.
      * exists step, i. split; [done|]. split; [by rewrite tasks_by_step_keys, map_key_alter, <-tasks_by_step_keys|].
        by rewrite list_lookup_alter_eq, Hr.
  - injection E as <-. cbn [pg_rows]. assert (tasks_by_step wid (pg_rows p) step = None) as Hi.
    { apply tasks_by_step_None. apply tasks_by_step_None in Ei. rewrite Hk. set_solver. }
    split; [split|].
    + intros j q Hq _. by apply lookup_app_l_Some.
    + right. by rewrite map_app.
    + exists step, (length (pg_rows p)). split; [done|]. split; [by apply tasks_by_step_snoc|].
      by rewrite list_lookup_middle.
Qed.

Lemma reconcile_spec ns p p' ks :
  reconcile py_hash new_id wid rows0 bucket ns p = Ok p' → map key (pg_rows p) = map key rows0 ++ ks →
  NoDup (map (λ n, _step_number py_hash (node_id n)) ns) →
  (∀ n step, n ∈ ns → _step_number py_hash (node_id n) = Ok step → (wid, step) ∉ ks) →
  Forall (settled (pg_rows p')) ns ∧
  (∀ m step, settled (pg_rows p) m → _step_number py_hash (node_id m) = Ok step →
     Ok step ∉ map (λ n, _step_number py_hash (node_id n)) ns → settled (pg_rows p') m) ∧
  (∀ i r, pg_rows p !! i = Some r →
     (tr_workflow r = wid → Ok (tr_step r) ∉ map (λ n, _step_number py_hash (node_id n)) ns) →
     pg_rows p' !! i = Some r) ∧
  (length (pg_rows p) ≤ length (pg_rows p')).
Proof.
  revert p ks. induction ns as [|n ns IH]; intros p ks E Hk Hnd Hnew; cbn [reconcile map] in *.
  - injection E as <-. split; [done|]. split; [by auto|]. by split; [auto|lia].
  - apply res_bind_Ok in E as (p1&E1&E). apply NoDup_cons in Hnd as [Hn Hnd].
    destruct (reconcile_node_spec _ _ _ _ E1 Hk (λ s, Hnew n s (list_elem_of_here n ns))) as (step&Hs&Hto&Hse).
    assert (∃ ks1, map key (pg_rows p1) = map key rows0 ++ ks1 ∧ ∀ k, k ∈ ks1 → k ∈ ks ∨ k = (wid, step)) as (ks1&Hk1&Hks).
    { destruct Hto as [_ [Hto|Hto]]; rewrite Hk in Hto; [by exists ks; auto|]. exists (ks ++ [(wid, step)]).
      rewrite Hto, app_assoc. set_solver. }
    destruct (IH p1 ks1 E Hk1 Hnd) as (Hall&Hother&Hrows&Hlen).
    { intros m s Hm Hms Hin. apply Hks in Hin as [Hin|[= ->]]; [exact (Hnew m s (list_elem_of_further _ _ _ Hm) Hms Hin)|].
      apply Hn. rewrite Hs, <-Hms. apply list_elem_of_fmap. by exists m. }
    split; [constructor; [by apply (Hother n step); [..|rewrite <-Hs]|done]|]. split; [|split].
    + intros m s Hm Hms Hin. apply (Hother m s); [|done|set_solver].
      apply (touches_other step _ _ _ s Hto Hms); [|done]. intros ->. apply Hin. rewrite Hs. by left.
    + intros i r Hr Hin. apply Hrows; [|intros Hw; specialize (Hin Hw); set_solver]. apply (proj1 Hto); [done|].
      intros [= Hw Hst]. apply (Hin Hw). rewrite Hs, Hst. by left.
    + assert (length (pg_rows p) ≤ length (pg_rows p1)); [|lia].
      rewrite <-!(length_map key). destruct (proj2 Hto) as [-> | ->]; rewrite ?length_app; lia.
Qed.

(** Every node that has a step and fits into the columns gets its row. *)
Definition restorable (n : DAGNode) : Prop :=
  ∃ step, _step_number py_hash (node_id n) = Ok step ∧ (step ≤ 2 ^ 31 - 1)%Z ∧ length (py_chars (capability n)) ≤ 100.

Lemma reconcile_total ns p old news :
  Forall restorable ns → pg_rows p = old ++ news → length old = length rows0 → forallb storable news = true →
  ∃ p' old' news', reconcile py_hash new_id wid rows0 bucket ns p = Ok p' ∧
    pg_rows p' = old' ++ news' ∧ length old' = length rows0 ∧ forallb storable news' = true.
Proof.
  intros Hns. revert p old news. induction Hns as [|n ns (step&Hs&Hmax&Hcap) _ IH]; intros p old news Hp Hl Hn.
  { by exists p, old, news. }
  cbn [reconcile]. unfold reconcile_node. rewrite Hs. cbn [res_bind].
  destruct (tasks_by_step wid rows0 step) as [i|] eqn:Ei; [case_decide|]; cbn [res_bind].
  - by apply (IH p old news).
  - apply (IH _ (alter (set_task_status (target n)) i old) news); cbn [pg_rows]; [|by rewrite length_alter|done].
    rewrite Hp. apply alter_app_l. apply tasks_by_step_Some in Ei as (r&Hr&_). apply lookup_lt_Some in Hr. lia.
  - apply (IH _ old (news ++ [new_task new_id wid (length (pg_created p)) step n (target n)])); cbn [pg_rows]; [|done|].
    + by rewrite Hp, <-app_assoc.
    + rewrite forallb_app, Hn. cbn. unfold storable. cbn [new_task tr_step tr_capability].
      assert ((step <=? 2 ^ 31 - 1)%Z = true) as -> by lia.
      by assert ((length (py_chars (capability n)) <=? 100) = true) as -> by (apply Nat.leb_le; lia).
Qed.

(** Keys are only ever added, and every node finds or gets a row of its step. *)
Lemma reconcile_rows ns p p' ks :
  reconcile py_hash new_id wid rows0 bucket ns p = Ok p' → map key (pg_rows p) = map key rows0 ++ ks →
  (∃ ks', map key (pg_rows p') = map key (pg_rows p) ++ ks') ∧
  Forall (λ n, ∃ step i, _step_number py_hash (node_id n) = Ok step ∧ tasks_by_step wid (pg_rows p') step = Some i) ns.
Proof.
  revert p ks. induction ns as [|n ns IH]; intros p ks E Hk; cbn [reconcile] in *.
  - injection E as <-. split; [by exists []; rewrite app_nil_r|done].
  - apply res_bind_Ok in E as (p1&E1&E).
    assert (∃ step ks1, _step_number py_hash (node_id n) = Ok step ∧ map key (pg_rows p1) = map key (pg_rows p) ++ ks1 ∧
      (wid, step) ∈ map key (pg_rows p1)) as (step&ks1&Hs&Hk1&Hin).
    { unfold reconcile_node in E1. apply res_bind_Ok in E1 as (step&Hs&E1). exists step.
      destruct (tasks_by_step wid rows0 step) as [i|] eqn:Ei.
      - apply tasks_by_step_Some in Ei as (r&Hr&Hkr). exists [].
        assert (map key (pg_rows p1) = map key (pg_rows p)) as ->
          by (case_decide; injection E1 as <-; [done|apply map_key_alter]).
        rewrite app_nil_r. split_and!; [done..|]. rewrite Hk, <-Hkr. apply elem_of_app. left.
        apply list_elem_of_fmap. exists r. split; [done|]. by eapply list_elem_of_lookup_2.
      - injection E1 as <-. exists [(wid, step)]. cbn [pg_rows]. rewrite map_app. split_and!; [done..|].
        apply elem_of_app. right. by left. }
    destruct (IH p1 (ks ++ ks1) E) as [(ks'&Hk') Hall]; [by rewrite Hk1, Hk, <-app_assoc|]. split.
    + exists (ks1 ++ ks'). by rewrite Hk', Hk1, <-app_assoc.
    + constructor; [|done]. exists step. destruct (tasks_by_step wid (pg_rows p') step) as [i|] eqn:Ei; [by exists i|].
      exfalso. apply tasks_by_step_None in Ei. apply Ei. rewrite Hk'. apply elem_of_app. by left.
Qed.

(** Where every node is settled the loop does nothing. *)
Lemma reconcile_settled ns p :
  pg_rows p = rows0 → Forall (settled rows0) ns → reconcile py_hash new_id wid rows0 bucket ns p = Ok p.
Proof.
  intros Hp. induction 1 as [|n ns (step&i&Hs&Hi&Ht) _ IH]; [done|]. cbn [reconcile]. unfold reconcile_node.
  rewrite Hs. cbn [res_bind]. rewrite Hi, Hp, Ht. by rewrite decide_True.
Qed.
End loop.

(** ** Restoring *)

Lemma fill_texts st l out :
  ∃ out', fill st (map JStr l) out = Ok out' ∧
    ∀ s, out' !! s = if decide (s ∈ l) then Some st else out !! s.
Proof.
  unfold fill. assert (existsb (λ j, match j with JList _ | JObj _ => true | _ => false end) (map JStr l) = false) as ->.
  { by induction l. }
  eexists. split; [done|]. revert out. induction l as [|a l IH]; intros out s; [done|].
  cbn [map foldl]. rewrite IH. destruct (decide (s ∈ l)) as [Hs|Hs], (decide (s ∈ a :: l)) as [Hc|Hc]; try set_solver.
  - apply elem_of_cons in Hc as [->|Hc]; [by rewrite lookup_insert_eq|done].
  - by rewrite lookup_insert_ne by set_solver.
Qed.

(** The status in which a node of the graph is resumed; a node without a name is
    in none of the checkpoint's lists. *)
Definition resumed_status (n : DAGNode) : TaskStatus :=
  if str_empty (node_id n) then PENDING
  else match status n with COMPLETED => COMPLETED | FAILED => FAILED | _ => PENDING end.

Section restoring.
Context {T : Type} `{LawfulInstant T} `{Conversions}.

(** The keys of the graph are the identifiers of its nodes. *)
Lemma wf_map_node_id d : wf_dag d → map node_id (nodes d) = node_ids d.
Proof.
  intros Hwf. change (map node_id (map snd (d_nodes d)) = map fst (d_nodes d)). rewrite List.map_map. apply List.map_ext_in.
  intros [k n] Hin%list_elem_of_In. apply (wf_id d Hwf). by apply dict_get_elem_of; [apply (wf_keys d Hwf)|].
Qed.

Definition bucket_ids (p : string → bool) (d : DAG) : list string :=
  map node_id (filter (λ n, negb (str_empty (node_id n)) && p (status_value (status n)) = true) (nodes d)).

Lemma ids_with_texts p d : ids_with p d = map JStr (bucket_ids p d).
Proof. done. Qed.

Lemma elem_of_bucket p d n :
  NoDup (map node_id (nodes d)) → n ∈ nodes d → str_empty (node_id n) = false →
  node_id n ∈ bucket_ids p d ↔ p (status_value (status n)) = true.
Proof.
  intros Hnd Hn He. unfold bucket_ids. rewrite list_elem_of_fmap. split.
  - intros (m&Hm&[Hp Hin]%list_elem_of_filter).
    assert (m = n) as ->; [|by rewrite He in Hp].
    by apply (NoDup_map_inj node_id (nodes d)).
  - intros Hp. exists n. split; [done|]. apply list_elem_of_filter. by rewrite He.
Qed.

Lemma buckets_of_dag wid d reason cur vars refl (t : T) :
  NoDup (map node_id (nodes d)) →
  ∃ out, _bucket_statuses (from_dag wid d reason cur vars refl t) = Ok out ∧
    ∀ n, n ∈ nodes d → default PENDING (out !! node_id n) = resumed_status n.
Proof.
  intros Hnd. unfold _bucket_statuses. cbn [from_dag cp_completed_task_ids cp_failed_task_ids cp_pending_task_ids].
  rewrite !ids_with_texts.
  edestruct (fill_texts COMPLETED) as (o1&->&Ho1). cbn [res_bind].
  edestruct (fill_texts FAILED) as (o2&->&Ho2). cbn [res_bind].
  edestruct (fill_texts PENDING) as (o3&->&Ho3). exists o3. split; [done|].
  intros n Hn. rewrite Ho3, Ho2, Ho1. unfold resumed_status. destruct (str_empty (node_id n)) eqn:He.
  { assert (∀ p, node_id n ∉ bucket_ids p d) as Hno.
    { intros p (m&Hm&[Hp _]%list_elem_of_filter)%list_elem_of_fmap. by rewrite <-Hm, He in Hp. }
    by rewrite !decide_False by apply Hno. }
  repeat case_decide; rewrite ?elem_of_bucket in * by done; destruct (status n); cbn in *; congruence.
Qed.

Context (py_hash : string → Z) (new_id : nat → uuid).

(** The restored graph has no two nodes of the same step. *)
Definition distinct_steps (d : DAG) : Prop := NoDup (map (λ n, _step_number py_hash (node_id n)) (nodes d)).

Lemma restore_Ok cp prompt user budget now (b : db T) o b' :
  restore py_hash new_id cp prompt user budget now b = Ok (o, b') →
  ∃ d bucket p w, restore_dag cp = Ok d ∧ _bucket_statuses cp = Ok bucket ∧
    reconcile py_hash new_id (cp_workflow_id cp) (tasks b) bucket (nodes d)
      {| pg_rows := tasks b; pg_created := []; pg_updated := [] |} = Ok p ∧
    ro_restored_dag o = d ∧ tasks b' = pg_rows p ∧ wfs b' = <[cp_workflow_id cp := w]> (wfs b) ∧
    wr_status w = Approval.RUNNING ∧ wr_dag w = cp_dag_snapshot cp ∧ wr_completed w = None ∧
    dict_get (KStr "resumed_from_checkpoint") (wr_metadata w) = Some (jopt (cp_content_hash cp)).
Proof.
  unfold restore. intros (d&Hd&(bucket&Hb&(p&Hp&(u&_&[= <- <-])%res_bind_Ok)%res_bind_Ok)%res_bind_Ok)%res_bind_Ok.
  destruct (restore_dag cp) as [d1|e]; [|done]. injection Hd as ->. eexists d, bucket, p, _.
  repeat (split; [done|]).
  assert (∀ meta, dict_get (KStr "resumed_from_checkpoint") (resume_marks (cp_content_hash cp) now meta) =
    Some (jopt (cp_content_hash cp))) as Hm.
  { intros meta. unfold resume_marks. by rewrite dict_get_set_ne, dict_get_set_eq. }
  destruct (wfs b !! cp_workflow_id cp); cbn [wr_status wr_dag wr_completed wr_metadata patch_row shadow_row]; by rewrite Hm.
Qed.

Lemma restore_settles cp prompt user budget now (b : db T) o b' bucket :
  restore py_hash new_id cp prompt user budget now b = Ok (o, b') →
  _bucket_statuses cp = Ok bucket → distinct_steps (ro_restored_dag o) →
  Forall (settled py_hash (cp_workflow_id cp) bucket (tasks b')) (nodes (ro_restored_dag o)) ∧
  ∀ i r, tasks b !! i = Some r →
    (tr_workflow r = cp_workflow_id cp →
     Ok (tr_step r) ∉ map (λ n, _step_number py_hash (node_id n)) (nodes (ro_restored_dag o))) →
    tasks b' !! i = Some r.
Proof.
  intros (d&bk&p&w&_&Hb&Hp&<-&->&_)%restore_Ok Hbk Hnd. assert (bk = bucket) as -> by congruence.
  destruct (reconcile_spec _ _ _ _ _ _ _ _ [] Hp) as (Hall&_&Hrows&_); [by rewrite app_nil_r|done| |by split].
  intros n step _ _ Hin. by apply elem_of_nil in Hin.
Qed.

Lemma restore_total cp prompt user budget now (b : db T) d bucket :
  restore_dag cp = Ok d → _bucket_statuses cp = Ok bucket → Forall (restorable py_hash) (nodes d) →
  ∃ o b', restore py_hash new_id cp prompt user budget now b = Ok (o, b') ∧ ro_restored_dag o = d.
Proof.
  intros Hd Hb Hns. unfold restore. rewrite Hd, Hb. cbn [res_catch res_bind].
  destruct (reconcile_total py_hash new_id (cp_workflow_id cp) (tasks b) bucket (nodes d)
    {| pg_rows := tasks b; pg_created := []; pg_updated := [] |} (tasks b) [] Hns) as (p&old&news&->&Hp&Hl&Hn);
    [by rewrite app_nil_r|done..|].
  cbn [res_bind]. rewrite Hp, <-Hl, drop_app_length, Hn. by eexists _, _.
Qed.

(** A restore leaves the workflow's row running, without an end time, with
    the checkpoint's graph and a reference to the checkpoint; the first row of
    the step of every node has the status of the bucket that lists the node
    (pending where none does), provided no two nodes share a step; and it
    changes no row of another workflow, and no row of a step without node. *)
Theorem restore_reconciles cp prompt user budget now (b : db T) o b' bucket :
  restore py_hash new_id cp prompt user budget now b = Ok (o, b') →
  _bucket_statuses cp = Ok bucket → distinct_steps (ro_restored_dag o) →
  (∃ w, wfs b' = <[cp_workflow_id cp := w]> (wfs b) ∧ wr_status w = Approval.RUNNING ∧ wr_completed w = None ∧
     wr_dag w = cp_dag_snapshot cp ∧
     dict_get (KStr "resumed_from_checkpoint") (wr_metadata w) = Some (jopt (cp_content_hash cp))) ∧
  Forall (settled py_hash (cp_workflow_id cp) bucket (tasks b')) (nodes (ro_restored_dag o)) ∧
  ∀ i r, tasks b !! i = Some r →
    (tr_workflow r = cp_workflow_id cp →
     Ok (tr_step r) ∉ map (λ n, _step_number py_hash (node_id n)) (nodes (ro_restored_dag o))) →
    tasks b' !! i = Some r.
Proof.
  intros Hr Hb Hnd. split; [|by eapply restore_settles].
  apply restore_Ok in Hr as (d&_&p&w&_&_&_&_&_&Hw&Hs&Hg&Hc&Hm). by exists w.
Qed.

(** C12: a second restore of the checkpoint by a process with the same [hash]
    succeeds, creates and updates nothing and leaves every task row as it is,
    provided no two nodes of the graph share a step. *)
Theorem restore_idempotent cp prompt user budget now (b : db T) o b' new_id' prompt' user' budget' now' :
  restore py_hash new_id cp prompt user budget now b = Ok (o, b') → distinct_steps (ro_restored_dag o) →
  ∃ o' b'', restore py_hash new_id' cp prompt' user' budget' now' b' = Ok (o', b'') ∧ tasks b'' = tasks b' ∧
    ro_created o' = [] ∧ ro_updated o' = [] ∧ ro_created_workflow o' = false.
Proof.
  intros Hr Hnd. pose proof (restore_Ok _ _ _ _ _ _ _ _ Hr) as (d&bucket&p&w&Hd&Hb&_&Ho&_&Hw&_).
  destruct (restore_settles _ _ _ _ _ _ _ _ _ Hr Hb Hnd) as [Hall _]. rewrite Ho in Hall.
  unfold restore. rewrite Hd, Hb. cbn [res_catch res_bind].
  rewrite (reconcile_settled _ _ _ _ _ _ {| pg_rows := tasks b'; pg_created := []; pg_updated := [] |} eq_refl Hall).
  cbn [res_bind pg_rows]. rewrite drop_all. cbn [forallb negb raise_if res_bind]. eexists _, _. split; [done|].
  cbn [tasks ro_created ro_updated ro_created_workflow pg_created pg_updated]. rewrite Hw, lookup_insert_eq. done.
Qed.

(** C11: what lets a workflow resume: the node holds, under the hash of the
    request, a META record that is marked as a checkpoint and decodes to one of
    the workflow of the path; and where the request names an approval, that
    approval is approved and names either no checkpoint or this one.  In every
    other case nothing is written. *)
Theorem resume_guarded wid h approval_id up clock desk m now (b : db T) o b' :
  resume_workflow py_hash new_id wid h approval_id up clock desk m now b = Ok (o, b') →
  (∃ r cp, Crdt._fetch_by_hash h m = Some r ∧ is_checkpoint_record r = true ∧ _decode_record now r = Ok cp ∧
     cp_workflow_id cp = wid ∧ cp_content_hash cp = Some h ∧
     restore py_hash new_id cp "" "federation" (FInt 100) now b = Ok (o, b')) ∧
  ∀ id, approval_id = Some id → id ≠ "" →
    ∃ q, Approval._merged_approval_status up id clock desk = Some q ∧ Approval.status q = "approved" ∧
      ∀ h', Approval.checkpoint_hash q = Some h' → h' ≠ "" → h' = h.
Proof.
  unfold resume_workflow. intros (u1&_&(u2&_&(u3&Ha&(cp&Hl&(u4&Hw&Hr)%res_bind_Ok)%res_bind_Ok)%res_bind_Ok)%res_bind_Ok)%res_bind_Ok.
  split.
  - unfold load in Hl. destruct (str_empty h); [done|]. cbn [raise_if res_bind] in Hl. unfold load_by_hash in Hl.
    destruct (Crdt._fetch_by_hash h m) as [r|] eqn:Ef; [|done]. destruct (is_checkpoint_record r) eqn:Ec; [|done].
    destruct (_decode_record now r) as [cp1|e] eqn:Ed; [|done]. injection Hl as ->. exists r, cp.
    apply raise_if_Ok, negb_false_iff, bool_decide_eq_true in Hw. split_and!; try done.
    + unfold _decode_record in Ed. destruct (dict_get _ _) as [[]|]; try done.
      apply res_bind_Ok in Ed as (c&_&[= <-]). cbn. by apply Crdt.fetch_Some in Ef as [].
    + destruct (restore py_hash new_id cp "" "federation" (FInt 100) now b) as [x|e]; [|done]. by injection Hr as ->.
  - intros id -> Hne. assert (str_empty id = false) as He by (by destruct id). rewrite He in Ha.
    destruct (Approval._merged_approval_status up id clock desk) as [q|]; [|done]. exists q. split; [done|].
    apply res_bind_Ok in Ha as (u&Hs&Hh). apply raise_if_Ok, negb_false_iff, String.eqb_eq in Hs. split; [done|].
    intros h' Eh Hne'. rewrite Eh in Hh. apply raise_if_Ok in Hh.
    assert (str_empty h' = false) as Hf by (by destruct h'). rewrite Hf in Hh.
    by apply negb_false_iff, String.eqb_eq in Hh.
Qed.

Lemma restore_rows cp prompt user budget now (b : db T) o b' :
  restore py_hash new_id cp prompt user budget now b = Ok (o, b') →
  Forall (λ n, ∃ step i, _step_number py_hash (node_id n) = Ok step ∧
    tasks_by_step (cp_workflow_id cp) (tasks b') step = Some i) (nodes (ro_restored_dag o)).
Proof.
  intros (d&bk&p&w&_&_&Hp&<-&->&_)%restore_Ok. by eapply (reconcile_rows _ _ _ _ _ _ _ _ []); [|rewrite app_nil_r].
Qed.

(** A request without approval for a checkpoint that is held restores it. *)
Lemma resume_accepts wid h up clock desk m now (b : db T) cp o b' :
  h ≠ "" → length (py_chars h) ≤ 200 → load_by_hash now h m = Ok (Some cp) → cp_workflow_id cp = wid →
  restore py_hash new_id cp "" "federation" (FInt 100) now b = Ok (o, b') →
  resume_workflow py_hash new_id wid h None up clock desk m now b = Ok (o, b').
Proof.
  intros Hne Hlen Hload Hwid Hr. unfold resume_workflow, load. assert (str_empty h = false) as -> by (by destruct h).
  cbn [orb]. assert ((200 <? length (py_chars h)) = false) as -> by (by apply Nat.ltb_ge).
  cbn [raise_if res_bind from_option]. rewrite Hload. cbn [res_catch res_bind res_of_option].
  rewrite Hwid, bool_decide_eq_true_2 by done. cbn [negb raise_if res_bind]. by rewrite Hr.
Qed.

Context (sha256 : string → list Byte.byte) `{Ed25519}.

(** C3: the whole way of a paused workflow: once its checkpoint is saved, any
    node that holds the record resumes it on request, whatever rows that node
    had, provided every task has a step number and a capability that fit their
    columns: the workflow runs there with the saved graph, every task of the
    graph has a row of its step there, and no other row of the node changes.  If
    no two tasks share a step, the row of a task is completed or failed where the
    task was, and pending for every other status (paused, skipped or running
    tasks, and those without a name, start over). *)
Theorem resume_elsewhere new_mid race kp author wid d reason cur vars refl t n cp n' h m up clock desk now (b : db T) :
  uuid_ok wid → dag_inv d → Forall uuids_ok (nodes d) →
  save sha256 new_mid race kp author (from_dag wid d reason cur vars refl t) n = Ok (cp, n') →
  cp_content_hash cp = Some h → h ∉ omap Crdt.content_hash (Crdt.records n ++ race) →
  (∀ r, Crdt._fetch_by_hash h n' = Some r → Crdt._fetch_by_hash h m = Some r) →
  h ≠ "" → length (py_chars h) ≤ 200 → Forall (restorable py_hash) (nodes d) →
  ∃ o b' w, resume_workflow py_hash new_id wid h None up clock desk m now b = Ok (o, b') ∧
    ro_restored_dag o = d ∧ wfs b' = <[wid := w]> (wfs b) ∧ wr_status w = Approval.RUNNING ∧
    wr_dag w = cp_dag_snapshot cp ∧
    Forall (λ x, ∃ step i, _step_number py_hash (node_id x) = Ok step ∧
      tasks_by_step wid (tasks b') step = Some i ∧
      (distinct_steps d → tr_status <$> tasks b' !! i = Some (resumed_status x))) (nodes d) ∧
    (distinct_steps d → ∀ i r, tasks b !! i = Some r →
       (tr_workflow r = wid → Ok (tr_step r) ∉ map (λ x, _step_number py_hash (node_id x)) (nodes d)) →
       tasks b' !! i = Some r).
Proof.
  intros Hu Hinv Huu Hs Hh Hfresh Hm Hne Hlen Hres.
  destruct (saved_loads sha256 _ _ _ _ _ _ _ _ _ _ _ now _ _ _ _ _ Hu Hinv Huu Hs Hh Hfresh Hm) as [Hload Hdag].
  assert (∃ cp0, cp = with_hash (Some h) cp0 ∧ cp0 = from_dag wid d reason cur vars refl t) as (cp0&Hcp&Hcp0).
  { unfold save in Hs. apply res_bind_Ok in Hs as (p&_&[= <- _]). eexists. split; [|done].
    change (Crdt.content_hash p.1 = Some h) in Hh. by rewrite Hh. }
  assert (cp_workflow_id cp = wid) as Hwid by (by rewrite Hcp, Hcp0).
  assert (NoDup (map node_id (nodes d))) as Hnn.
  { destruct Hinv as ((Hwf&_&_)&_&_). rewrite wf_map_node_id by done. apply (wf_keys d Hwf). }
  destruct (buckets_of_dag wid d reason cur vars refl t Hnn) as (bucket&Hb&Hst).
  assert (_bucket_statuses cp = Ok bucket) as Hb' by (by rewrite Hcp, Hcp0).
  destruct (restore_total cp "" "federation" (FInt 100) now b d bucket Hdag Hb' Hres) as (o&b'&Hr&Ho).
  pose proof (restore_settles _ _ _ _ _ _ _ _ _ Hr Hb') as Hall. rewrite Ho, Hwid in Hall.
  pose proof (restore_rows _ _ _ _ _ _ _ _ Hr) as Hrows. rewrite Ho, Hwid in Hrows.
  pose proof (restore_Ok _ _ _ _ _ _ _ _ Hr) as (_&_&_&w&_&_&_&_&_&Hw&Hrun&Hdg&_). rewrite Hwid in Hw.
  exists o, b', w. split; [|split_and!; [done..| |by intros Hnd; apply Hall]].
  - by eapply resume_accepts.
  - apply Forall_forall. intros x Hx. rewrite Forall_forall in Hrows. destruct (Hrows x Hx) as (step&i&Hsx&Hi).
    exists step, i. split_and!; [done..|]. intros Hnd. destruct (Hall Hnd) as [Hset _].
    rewrite Forall_forall in Hset. destruct (Hset x Hx) as (step'&i'&Hsx'&Hi'&Ht). assert (step' = step) as -> by congruence.
    assert (i' = i) as -> by congruence. rewrite Ht. f_equal. by apply Hst.
Qed.
End restoring.

(** ** Concrete checkpoints *)

Definition with_status (st : TaskStatus) (n : DAGNode) : DAGNode := {|
  node_id := node_id n; capability := capability n; description := description n; depends_on := depends_on n;
  estimated_complexity := estimated_complexity n; assigned_agent_id := assigned_agent_id n; task_id := task_id n;
  status := st; output := output n; error := error n |}.

Definition chain : list DAGNode := [
  with_status COMPLETED (mk_node "task-1" []); with_status AWAITING_APPROVAL (mk_node "task-2" ["task-1"]);
  mk_node "task-3" ["task-2"]].

Definition cp_of (ns : list DAGNode) : WorkflowCheckpoint string :=
  with_hash (Some "abc") (from_dag (UUID 1) (build ns) "awaiting_approval" None [] None "2026-01-01").

Definition no_hash : string → Z := λ _, 0%Z.
Definition ids_from (base : N) : nat → uuid := λ k, UUID (base + N.of_nat k).
Definition no_rows : db string := {| wfs := ∅; tasks := [] |}.

Definition run_restore (py_hash : string → Z) (base : N) (ns : list DAGNode) (b : db string)
    : res resume_exn (ResumeOutcome string * db string) :=
  restore py_hash (ids_from base) (cp_of ns) "" "federation" (FInt 100) "2026-01-02" b.

(** Created and updated nodes, and the rows *)
Definition summary (r : res resume_exn (ResumeOutcome string * db string))
    : option (list string * list string * list (Z * TaskStatus)) :=
  match r with
  | Ok (o, b) => Some (ro_created o, ro_updated o, map (λ t, (tr_step t, tr_status t)) (tasks b))
  | Err _ => None
  end.

Definition run_twice (h1 h2 : string → Z) (ns : list DAGNode) : res resume_exn (ResumeOutcome string * db string) :=
  p <~ run_restore h1 100 ns no_rows; run_restore h2 200 ns p.2.

Example chain_restored : summary (run_restore no_hash 100 chain no_rows) =
  Some (["task-1"; "task-2"; "task-3"], [], [(1%Z, COMPLETED); (2%Z, PENDING); (3%Z, PENDING)]).
Proof. vm_compute. reflexivity. Qed.

(** Two nodes of one step: a restore of a restored workflow still changes
    rows, and the row ends in the status of the last node. *)
Example shared_step_never_settles :
  let ns := [with_status COMPLETED (mk_node "t2" []); mk_node "t2_alt" ["t2"]] in
  summary (run_restore no_hash 100 ns no_rows) = Some (["t2"; "t2_alt"], [], [(2%Z, COMPLETED); (2%Z, PENDING)]) ∧
  summary (run_twice no_hash no_hash ns) = Some ([], ["t2_alt"], [(2%Z, PENDING); (2%Z, PENDING)]).
Proof. split; vm_compute; reflexivity. Qed.

(** An identifier without digits has its step from [hash], which is salted:
    another process adds a second row for the node. *)
Example other_process_duplicates :
  let ns := [with_status COMPLETED (mk_node "solo" []); mk_node "task-3" ["solo"]] in
  summary (run_twice no_hash (λ _, 41%Z) ns) =
    Some (["solo"], [], [(1%Z, COMPLETED); (3%Z, PENDING); (42%Z, COMPLETED)]).
Proof. vm_compute. reflexivity. Qed.

(** The scheduler numbers such a node 0, the resumer never does. *)
Example scheduler_disagrees : Scheduler.step_number "solo" = 0%Z ∧ _step_number no_hash "solo" = Ok 1%Z.
Proof. split; vm_compute; reflexivity. Qed.

Example skipped_becomes_pending :
  summary (run_restore no_hash 100 [with_status FAILED (mk_node "t1" []); with_status SKIPPED (mk_node "t2" ["t1"])] no_rows) =
    Some (["t1"; "t2"], [], [(1%Z, FAILED); (2%Z, PENDING)]).
Proof. vm_compute. reflexivity. Qed.

(** Witnesses *)

Definition nodup_steps (ns : list DAGNode) : bool :=
  bool_decide (NoDup (omap (λ n, match _step_number no_hash (node_id n) with Ok z => Some z | Err _ => None end) ns)) &&
  forallb (λ n, is_ok (_step_number no_hash (node_id n))) ns.

Lemma nodup_steps_true ns : nodup_steps ns = true → NoDup (map (λ n, _step_number no_hash (node_id n)) ns).
Proof.
  unfold nodup_steps. rewrite andb_true_iff, bool_decide_eq_true. induction ns as [|n ns IH]; [constructor|].
  cbn [omap list_omap forallb map]. intros [Hn Ho]. apply andb_true_iff in Ho as [Ho Hos].
  destruct (_step_number no_hash (node_id n)) as [z|e]; [|done]. apply NoDup_cons in Hn as [Hz Hn].
  constructor; [|by apply IH]. intros (m&Hm&Hin)%list_elem_of_fmap. apply Hz. apply list_elem_of_omap. exists m.
  split; [done|]. by rewrite <-Hm.
Qed.


Lemma chain_runs : ∃ p, run_restore no_hash 100 chain no_rows = Ok p ∧ ro_restored_dag p.1 = build chain.
Proof.
  assert (res_map (λ p, ro_restored_dag p.1) (run_restore no_hash 100 chain no_rows) = Ok (build chain)) as Hd
    by (vm_compute; reflexivity).
  unfold res_map in Hd. destruct (run_restore no_hash 100 chain no_rows) as [p|e]; [|discriminate Hd].
  injection Hd as Hd. by exists p.
Qed.

Lemma chain_steps : distinct_steps no_hash (build chain).
Proof. apply nodup_steps_true. vm_compute. reflexivity. Qed.

Lemma chain_buckets : ∃ bucket, _bucket_statuses (cp_of chain) = Ok bucket.
Proof. apply is_ok_Ok. vm_compute. reflexivity. Qed.

Lemma restore_reconciles_witness : ∃ p bucket,
  run_restore no_hash 100 chain no_rows = Ok p ∧ _bucket_statuses (cp_of chain) = Ok bucket ∧
  Forall (settled no_hash (UUID 1) bucket (tasks p.2)) (nodes (ro_restored_dag p.1)).
Proof.
  destruct chain_runs as (p&Hp&Hd), chain_buckets as (bucket&Hb). exists p, bucket.
  split; [exact Hp|]. split; [exact Hb|]. destruct p as [o b'].
  refine (proj1 (proj2 (restore_reconciles no_hash (ids_from 100) (cp_of chain) "" "federation" (FInt 100) "2026-01-02"
    no_rows o b' bucket Hp Hb _))).
  cbn [fst] in Hd. rewrite Hd. exact chain_steps.
Defined.

Lemma restore_idempotent_witness : ∃ p p',
  run_restore no_hash 100 chain no_rows = Ok p ∧ run_restore no_hash 200 chain p.2 = Ok p' ∧
  tasks p'.2 = tasks p.2 ∧ ro_created p'.1 = [].
Proof.
  destruct chain_runs as ([o b']&Hp&Hd). cbn [fst] in Hd.
  assert (distinct_steps no_hash (ro_restored_dag o)) as Hs by (rewrite Hd; exact chain_steps).
  destruct (restore_idempotent no_hash (ids_from 100) (cp_of chain) "" "federation" (FInt 100) "2026-01-02" no_rows o b'
    (ids_from 200) "" "federation" (FInt 100) "2026-01-02" Hp Hs) as (o'&b''&Hr&Ht&Hc&_).
  exists (o, b'), (o', b''). exact (conj Hp (conj Hr (conj Ht Hc))).
Defined.

(** A checkpoint of [chain] in the memory store of a node, and an approval *)
Definition chain_saved : res checkpoint_error (WorkflowCheckpoint string * Crdt.node) :=
  save (H1 := flat_ed25519) flat_sha (UUID 9) [] Crdt.toy_kp "a"
    (from_dag (UUID 1) (build chain) "awaiting_approval" None [] None "2026-01-01") Crdt.toy_node.

Definition ok_request : Approval.ApprovalRequest := {|
  Approval.request_id := "r1"; Approval.workflow_id := "w"; Approval.task_id := None; Approval.action := "a";
  Approval.context := []; Approval.policy_rule := "p"; Approval.status := "approved";
  Approval.requested_at := Approval.Aware 0 0; Approval.decided_at := None; Approval.decided_by := None;
  Approval.expires_at := Approval.Aware 0 0; Approval.checkpoint_hash := None |}.

Definition ok_desk : Approval.desk := {|
  Approval.store := {[ "r1" := (Some ok_request, None) ]}; Approval.pending_set := ∅; Approval.twins := [];
  Approval.workflow_status := ∅ |}.

Definition chain_hash : string := match chain_saved with Ok (cp, _) => default "" (cp_content_hash cp) | Err _ => "" end.
Definition chain_node : Crdt.node := match chain_saved with Ok (_, n) => n | Err _ => Crdt.toy_node end.

Definition resume_chain (approval_id : option string) : res api_exn (ResumeOutcome string * db string) :=
  resume_workflow no_hash (ids_from 100) (UUID 1) chain_hash approval_id true 0 ok_desk chain_node "2026-01-02" no_rows.

(** The approval belongs to another workflow and names no checkpoint: nothing
    ties it to the workflow it resumes. *)
Example unbound_approval : Approval.workflow_id ok_request ≠ uuid_str (UUID 1) ∧ is_ok (resume_chain (Some "r1")) = true.
Proof. split; [by vm_compute|vm_compute; reflexivity]. Qed.

Example resume_refusals :
  resume_workflow no_hash (ids_from 100) (UUID 2) chain_hash None true 0 ok_desk chain_node "2026-01-02" no_rows = Err (Http 409) ∧
  resume_workflow no_hash (ids_from 100) (UUID 1) "00" None true 0 ok_desk chain_node "2026-01-02" no_rows = Err (Http 404) ∧
  resume_chain (Some "r2") = Err (Http 404).
Proof. repeat split; vm_compute; reflexivity. Qed.

Lemma resume_guarded_witness : ∃ p, resume_chain (Some "r1") = Ok p ∧
  ∃ r, Crdt._fetch_by_hash chain_hash chain_node = Some r ∧ is_checkpoint_record r = true.
Proof.
  assert (is_ok (resume_chain (Some "r1")) = true) as Hok by (vm_compute; reflexivity).
  apply is_ok_Ok in Hok as [[o b'] E]. exists (o, b'). split; [exact E|].
  unfold resume_chain in E. apply resume_guarded in E as [(r&cp&Hf&Hc&_) _].
  exists r. exact (conj Hf Hc).
Defined.

Lemma chain_inv : dag_inv (build chain).
Proof.
  apply (DAG_init_inv chain); [|vm_compute; reflexivity].
  apply (bool_decide_eq_true_1 (NoDup (map node_id chain))). reflexivity.
Qed.

Lemma chain_nodes : nodes (build chain) = chain.
Proof. vm_compute. reflexivity. Qed.

Lemma chain_save_ok : ∃ cp n, chain_saved = Ok (cp, n) ∧ cp_content_hash cp = Some chain_hash ∧ n = chain_node.
Proof.
  assert (match chain_saved with Ok (cp, _) => match cp_content_hash cp with Some _ => true | None => false end | Err _ => false end = true) as Hs
    by (vm_compute; reflexivity).
  unfold chain_hash, chain_node. destruct chain_saved as [[cp n]|e]; [|discriminate Hs].
  exists cp, n. by destruct (cp_content_hash cp).
Qed.

Lemma resume_elsewhere_witness : ∃ p w,
  resume_chain None = Ok p ∧ wfs p.2 = <[UUID 1 := w]> ∅ ∧ wr_status w = Approval.RUNNING ∧
  Forall (λ x, ∃ step i, _step_number no_hash (node_id x) = Ok step ∧ tasks_by_step (UUID 1) (tasks p.2) step = Some i ∧
    tr_status <$> tasks p.2 !! i = Some (resumed_status x)) (nodes (build chain)) ∧
  map resumed_status (nodes (build chain)) = [COMPLETED; PENDING; PENDING].
Proof.
  destruct chain_save_ok as (cp&n&Hs&Hh&Hn).
  destruct (resume_elsewhere no_hash (ids_from 100) (H2 := flat_ed25519) flat_sha (UUID 9) [] Crdt.toy_kp "a" (UUID 1)
    (build chain) "awaiting_approval" None [] None "2026-01-01" Crdt.toy_node cp n chain_hash chain_node true 0 ok_desk
    "2026-01-02" no_rows) as (o&b'&w&Hr&_&Hw&Hst&_&Hall&_).
  - reflexivity.
  - exact chain_inv.
  - rewrite chain_nodes. repeat constructor.
  - exact Hs.
  - exact Hh.
  - intros Hin. apply elem_of_nil in Hin. exact Hin.
  - rewrite Hn. intros r Hr. exact Hr.
  - vm_compute. discriminate.
  - apply Nat.leb_le. vm_compute. reflexivity.
  - rewrite chain_nodes. repeat constructor; eexists; (split; [vm_compute; reflexivity|split; [lia|apply Nat.leb_le; reflexivity]]).
  - exists (o, b'), w. split; [exact Hr|]. split; [exact Hw|]. split; [exact Hst|]. split; [|vm_compute; reflexivity].
    eapply Forall_impl; [exact Hall|]. intros x (step&i&Hs'&Hi&Ht). exists step, i.
    split; [exact Hs'|]. split; [exact Hi|]. apply Ht. exact chain_steps.
Defined.
