(* ===== verification/Strategy.v ===== *)
(** * Strategy: from a prompt to an executed workflow

    Models [intelligence/goal_interpreter.py], [planner.py], [guardrails.py], the
    evaluation of [reflection.py], the strategies of [strategy_router.py] that do
    not build a graph, and the background task of [api/workflows.py] around them:
    its transaction, its time limit and what is written when it fails.  The
    strategies that build a graph call [pipeline], the composition of Decompose.v,
    Selector.v and Scheduler.v, which is an argument here.  The language model
    answers by the number of the call; pydantic's coercions, [str.lower] and
    [float(str)] are parameters.  Prompts and the texts of reasons are not
    modelled. *)

From Stdlib Require Import Ascii NArith ZArith QArith Lia SpecFloat.
From stdpp Require Import base tactics strings list gmap.
From S2P Require Import Prelude PyStr Dict PyVal PyFloat Regex Json JsonLoads Decompose Wallet Approval ToolLoop Scheduler.

#[local] Open Scope nat_scope.

(** ** The goal *)

Record StructuredGoal := {
  original_prompt : string;
  intent : string;
  constraints : list string;
  risk_level : string;
  expected_output_type : string;
  complexity_estimate : string;
  domain_hint : option string;
  stop_conditions : list string;
}.

(** The number of words of [s.split()] *)
Fixpoint count_words (in_word : bool) (chars : list string) : nat :=
  match chars with
  | [] => 0
  | c :: chars => if is_space c then count_words false chars
                  else (if in_word then 0 else 1) + count_words true chars
  end.

Definition mentions (s : string) (words : list string) : bool := existsb (λ w, str_contains w s) words.

(** What [find("{")] and [rfind("}")] leave of an answer, [None] where one of them
    finds nothing *)
Definition braces (content : string) : option string :=
  let s := str_text content in
  match find_char 123 s, rfind_char 125 s with
  | Some start, Some stop => Some (slice s (start, S stop))
  | _, _ => None
  end.

Section goal.
Context (lower : string → string) (float_of_text : string → pyfloat).
Context (as_str : json → option string) (as_strs : json → option (list string)) (as_opt_str : json → option (option string)).

Definition _heuristic_interpret (prompt : string) : StructuredGoal :=
  let prompt_lower := lower prompt in
  let intent :=
    if mentions prompt_lower ["compare"; "versus"; "vs"; "difference"] then "compare"
    else if mentions prompt_lower ["explain"; "what is"; "how does"] then "explain"
    else if mentions prompt_lower ["create"; "build"; "generate"; "write"] then "create"
    else if mentions prompt_lower ["plan"; "strategy"; "roadmap"] then "plan"
    else if mentions prompt_lower ["fix"; "debug"; "error"; "issue"] then "debug"
    else "analyze" in
  let word_count := count_words false (py_chars prompt) in
  let complexity := if word_count <? 20 then "simple" else if word_count <? 60 then "moderate" else "complex" in
  let risk :=
    if mentions prompt_lower ["critical"; "urgent"; "production"; "patient"; "financial"; "legal"] then "high"
    else if mentions prompt_lower ["important"; "significant"; "risk"] then "medium"
    else "low" in
  {| original_prompt := prompt; intent := intent; constraints := []; risk_level := risk;
     expected_output_type := if String.eqb complexity "simple" then "answer" else "report";
     complexity_estimate := complexity; domain_hint := None; stop_conditions := [] |}.

(** [StructuredGoal(...)] of the parsed answer, [None] where validation fails *)
Definition goal_of (prompt : string) (parsed : list (pykey * json)) : option StructuredGoal :=
  let get k d := default d (dict_get (KStr k) parsed) in
  i ← as_str (get "intent" (JStr "analyze"));
  cs ← as_strs (get "constraints" (JList []));
  r ← as_str (get "risk_level" (JStr "medium"));
  o ← as_str (get "expected_output_type" (JStr "report"));
  c ← as_str (get "complexity_estimate" (JStr "moderate"));
  d ← as_opt_str (get "domain_hint" JNull);
  st ← as_strs (get "stop_conditions" (JList []));
  Some {| original_prompt := prompt; intent := i; constraints := cs; risk_level := r; expected_output_type := o;
          complexity_estimate := c; domain_hint := d; stop_conditions := st |}.

(** [None] is a failed call; every failure falls back on the heuristics. *)
Definition interpret_goal (answer : option string) (prompt : string) : StructuredGoal :=
  default (_heuristic_interpret prompt)
    (answer ← answer;
     let content := py_strip answer in
     let content :=
       if str_contains "```" content then
         match fenced (str_text content) with
         | Some span => py_strip (slice (str_text content) span)
         | None => content
         end
       else content in
     let content := default content (braces content) in
     match loads float_of_text content with
     | Ok (JObj parsed) => goal_of prompt parsed
     | _ => None
     end).
End goal.

(** ** The plan *)

Inductive ExecutionMode := DIRECT_RESPONSE | DAG_PIPELINE | ITERATIVE | VERIFY_AND_REFINE | EXPLORE_AND_PRUNE.

#[export] Instance ExecutionMode_eq_dec : EqDecision ExecutionMode.
Proof. solve_decision. Defined.

Record ExecutionPlan := {
  mode : ExecutionMode;
  goal : StructuredGoal;
  max_iterations : nat;
  confidence_threshold : spec_float;
  budget_allocation : list (string * spec_float);
}.

Definition DEFAULT_ALLOCATION : list (string * spec_float) :=
  [("execution", hundredths 70); ("reflection", hundredths 10); ("verification", hundredths 10); ("synthesis", hundredths 10)].

Definition _EXPLICIT_TOOL_KEYWORDS : list string :=
  ["code_execute"; "web_search"; "web_scrape"; "file_read"; "file_write"; "file_list"; "api_call"; "use the tool";
   "use a tool"; "run this"; "execute this"; "sandbox"; "do not answer from memory"; "do not answer directly"].

Definition make_plan (g : StructuredGoal) (m : ExecutionMode) (iterations : nat) (threshold : Z)
    (allocation : list (string * spec_float)) : ExecutionPlan :=
  {| mode := m; goal := g; max_iterations := iterations; confidence_threshold := hundredths threshold;
     budget_allocation := allocation |}.

Definition plan (lower : string → string) (g : StructuredGoal) : ExecutionPlan :=
  if mentions (lower (original_prompt g)) _EXPLICIT_TOOL_KEYWORDS then make_plan g DAG_PIPELINE 1 70 DEFAULT_ALLOCATION
  else if String.eqb (complexity_estimate g) "simple" && String.eqb (risk_level g) "low" then
    make_plan g DIRECT_RESPONSE 1 50 [("execution", hundredths 90); ("synthesis", hundredths 10)]
  else if String.eqb (risk_level g) "high" then
    make_plan g VERIFY_AND_REFINE 3 90
      [("execution", hundredths 55); ("reflection", hundredths 10); ("verification", hundredths 25); ("synthesis", hundredths 10)]
  else if String.eqb (intent g) "compare" then
    make_plan g EXPLORE_AND_PRUNE 2 70
      [("execution", hundredths 65); ("reflection", hundredths 15); ("verification", hundredths 10); ("synthesis", hundredths 10)]
  else if bool_decide (intent g ∈ ["explain"; "debug"]) && String.eqb (complexity_estimate g) "moderate" then
    make_plan g ITERATIVE 5 80
      [("execution", hundredths 60); ("reflection", hundredths 20); ("verification", hundredths 5); ("synthesis", hundredths 15)]
  else make_plan g DAG_PIPELINE 1 70 DEFAULT_ALLOCATION.

(** ** Guardrails *)

Record ExecutionGuardrails := {
  g_max_iterations : nat;
  max_reflection_calls : nat;
  max_branch_count : nat;
  budget_hard_ceiling_percent : spec_float;
  budget_reflection_ceiling_percent : spec_float;
  max_total_tasks : nat;
  max_execution_time_seconds : spec_float;
}.

Definition default_guardrails : ExecutionGuardrails :=
  {| g_max_iterations := 10; max_reflection_calls := 5; max_branch_count := 3;
     budget_hard_ceiling_percent := f_of_Z 100; budget_reflection_ceiling_percent := f_of_Z 10;
     max_total_tasks := 20; max_execution_time_seconds := f_of_Z 300 |}.

Definition check_iteration_limit (g : ExecutionGuardrails) (current : nat) : bool := current <? g_max_iterations g.
Definition check_reflection_limit (g : ExecutionGuardrails) (current : nat) : bool := current <? max_reflection_calls g.
Definition check_branch_limit (g : ExecutionGuardrails) (current : nat) : bool := current <? max_branch_count g.
Definition check_task_count (g : ExecutionGuardrails) (current : nat) : bool := current <? max_total_tasks g.

Definition below_percent (used limit ceiling : spec_float) : bool :=
  if f_le limit (f_of_Z 0) then false else f_lt (f_mul (f_div used limit) (f_of_Z 100)) ceiling.

Definition check_budget (g : ExecutionGuardrails) (used limit : spec_float) : bool :=
  below_percent used limit (budget_hard_ceiling_percent g).

Definition check_reflection_budget (g : ExecutionGuardrails) (reflection_cost total_budget : spec_float) : bool :=
  below_percent reflection_cost total_budget (budget_reflection_ceiling_percent g).

Definition should_force_stop (g : ExecutionGuardrails) (iteration reflection_count : nat)
    (budget_used budget_limit elapsed_seconds : spec_float) : bool :=
  negb (check_iteration_limit g iteration) || negb (check_reflection_limit g reflection_count) ||
  negb (check_budget g budget_used budget_limit) || f_lt (max_execution_time_seconds g) elapsed_seconds.

(** ** Reflection *)

Section reflection.
Context (float_of_text : string → pyfloat).
(** [ReflectionResult] of the fields of the parsed answer *)
Context (coerce_reflection : list (pykey * json) → option ReflectionResult).

Definition accept_fallback : ReflectionResult :=
  {| rf_action := "accept"; rf_confidence := hundredths 70; rf_issues := [] |}.

(** [ReflectionEngine.reflect] without a cache; a failed call accepts. *)
Definition reflect (completed_outputs : list string) (answer : option string) : ReflectionResult :=
  match completed_outputs with
  | [] => {| rf_action := "accept"; rf_confidence := f_of_Z 0; rf_issues := ["No outputs to evaluate"] |}
  | _ =>
      default accept_fallback
        (answer ← answer;
         content ← braces (py_strip answer);
         match loads float_of_text content with
         | Ok (JObj parsed) => coerce_reflection parsed
         | _ => None
         end)
  end.
End reflection.

(** ** The strategies *)

(** An answer of the language model: content, cost in dollars, tokens *)
Record answer := { a_content : string; a_cost : Q; a_tokens : Z }.

(** What a strategy leaves in [workflow.result] *)
Inductive run_result :=
  | Answered (content : string) (confidence : spec_float) (iterations : nat) (tokens : Z)
  | Piped (content : string) (verification : option (string * spec_float))
  | RunError.

Record wf := {
  wf_status : WorkflowStatus;
  wf_mode : option ExecutionMode;
  wf_result : option run_result;
  wf_started : option Z;
  wf_completed : option Z;
}.

(** The rows a strategy writes: the workflow and the ledger *)
Record db := { db_wf : wf; db_wallet : wallet spec_float }.

Inductive run_exn := ProviderFailed | WalletError (e : wallet_error) | PipelineFailed.

(** How a strategy ends.  [Raised] has what was committed before, where anything
    was: the scheduler commits at its approval gate.  [PausedIn]: the scheduler
    committed the state it pauses in and raised. *)
Inductive ending := Done (d : db) | Raised (e : run_exn) (committed : option db) | PausedIn (committed : db).

Definition set_wf (f : wf → wf) (d : db) : db := {| db_wf := f (db_wf d); db_wallet := db_wallet d |}.

Definition start_wf (now : Z) (w : wf) : wf :=
  {| wf_status := RUNNING; wf_mode := wf_mode w; wf_result := wf_result w; wf_started := Some now; wf_completed := wf_completed w |}.

Definition complete_wf (now : Z) (r : run_result) (w : wf) : wf :=
  {| wf_status := COMPLETED; wf_mode := wf_mode w; wf_result := Some r; wf_started := wf_started w; wf_completed := Some now |}.

Definition with_mode (m : ExecutionMode) (w : wf) : wf :=
  {| wf_status := wf_status w; wf_mode := Some m; wf_result := wf_result w; wf_started := wf_started w; wf_completed := wf_completed w |}.

Definition with_result (r : run_result) (w : wf) : wf :=
  {| wf_status := wf_status w; wf_mode := wf_mode w; wf_result := Some r; wf_started := wf_started w; wf_completed := wf_completed w |}.

Section strategies.
Context (float_of_text : string → pyfloat) (coerce_reflection : list (pykey * json) → option ReflectionResult).
(** [Decimal(str(x))] of the ledger, the id of its next event, the workflow *)
Context (stored : spec_float → Z) (event_id wid : string).
(** The answers of the language model by call, [None] where the call raises; the
    clock and the elapsed seconds by iteration *)
Context (llm : nat → option answer) (now : Z) (elapsed : nat → spec_float).
Context (guardrails : ExecutionGuardrails).

#[local] Instance ledger_arith : Arith spec_float := IEEE stored.

Definition reflect_call (outputs : list string) (call : nat) : ReflectionResult :=
  reflect float_of_text coerce_reflection outputs (a_content <$> llm call).

(** Charged to the ledger if positive *)
Definition charge_cost (amount : spec_float) (why : string) (d : db) : res run_exn db :=
  if f_lt (f_of_Z 0) amount then
    match record_internal_cost event_id wid amount why None (db_wallet d) with
    | Ok (_, w) => Ok {| db_wf := db_wf d; db_wallet := w |}
    | Err e => Err (WalletError e)
    end
  else Ok d.

Definition _direct_response (d : db) : res run_exn db :=
  let d := set_wf (start_wf now) d in
  match llm 0 with
  | None => Err ProviderFailed
  | Some a =>
      d <~ charge_cost (tokens_to_credits (a_cost a)) "direct_response synthesis cost" d;
      Ok (set_wf (complete_wf now (Answered (a_content a) (hundredths 85) 1 (a_tokens a))) d)
  end.

(** The state of the iterative loop; two calls an iteration *)
Record loop := {
  lp_outputs : list string;
  lp_iteration : nat;
  lp_reflections : nat;
  lp_tokens : Z;
  lp_cost : spec_float;
}.

Definition MAX_CONTEXT_ITERATIONS : nat := 3.

Definition last_n (n : nat) (l : list string) : list string := drop (length l - n) l.

Definition limit_of (d : db) : spec_float :=
  match workflows (db_wallet d) !! wid with
  | Some row => f_of_units (budget_limit row)
  | None => f_of_Z 0
  end.

Definition after_answer (a : answer) (s : loop) : loop :=
  {| lp_outputs := lp_outputs s ++ [a_content a]; lp_iteration := S (lp_iteration s);
     lp_reflections := S (lp_reflections s); lp_tokens := (lp_tokens s + a_tokens a)%Z;
     lp_cost := f_add (lp_cost s) (tokens_to_credits (a_cost a)) |}.

(** [remaining] counts down from [plan.max_iterations]. *)
Fixpoint iterate (threshold limit : spec_float) (remaining : nat) (s : loop) : res run_exn loop :=
  match remaining with
  | 0 => Ok s
  | S remaining =>
      match llm (2 * lp_iteration s) with
      | None => Err ProviderFailed
      | Some a =>
          let s' := after_answer a s in
          let r := reflect_call (last_n MAX_CONTEXT_ITERATIONS (lp_outputs s')) (2 * lp_iteration s + 1) in
          if String.eqb (rf_action r) "accept" || f_ge (rf_confidence r) threshold then Ok s'
          else if should_force_stop guardrails (lp_iteration s') (lp_reflections s') (lp_cost s') limit
                    (elapsed (lp_iteration s')) then Ok s'
          else iterate threshold limit remaining s'
      end
  end.

Definition fresh_loop : loop :=
  {| lp_outputs := []; lp_iteration := 0; lp_reflections := 0; lp_tokens := 0; lp_cost := f_of_Z 0 |}.

(** [min(0.95, 0.5 + iteration * 0.1)] *)
Definition iterative_confidence (iteration : nat) : spec_float :=
  f_min (hundredths 95) (f_add float_half (f_mul (f_of_nat iteration) (f_div (f_of_Z 1) (f_of_Z 10)))).

Definition _iterative (p : ExecutionPlan) (d : db) : res run_exn db :=
  let d := set_wf (start_wf now) d in
  s <~ iterate (confidence_threshold p) (limit_of d) (max_iterations p) fresh_loop;
  d <~ charge_cost (lp_cost s) "iterative execution" d;
  let content := default "No output produced." (last (lp_outputs s)) in
  Ok (set_wf (complete_wf now (Answered content (iterative_confidence (lp_iteration s)) (lp_iteration s) (lp_tokens s))) d).

(** The graph pipeline: its ending, and the content of its result where it
    returns *)
Context (pipeline : ExecutionPlan → db → ending * string).

(** [verify_call] is the call of the reflection that follows the pipeline. *)
Definition _verify_and_refine (p : ExecutionPlan) (verify_call : nat) (d : db) : ending :=
  match pipeline p d with
  | (Done d, content) =>
      let r := reflect_call [content] verify_call in
      let status := if String.eqb (rf_action r) "accept" && f_ge (rf_confidence r) (confidence_threshold p)
                    then "accepted" else rf_action r in
      Done (set_wf (with_result (Piped content (Some (status, rf_confidence r)))) d)
  | (e, _) => e
  end.

Definition ending_of (m : res run_exn db) : ending := match m with Ok d => Done d | Err e => Raised e None end.

(** [StrategyRouter.execute] *)
Definition execute (p : ExecutionPlan) (verify_call : nat) (d : db) : ending :=
  let d := set_wf (with_mode (mode p)) d in
  match mode p with
  | DIRECT_RESPONSE => ending_of (_direct_response d)
  | DAG_PIPELINE => (pipeline p d).1
  | ITERATIVE => ending_of (_iterative p d)
  | VERIFY_AND_REFINE | EXPLORE_AND_PRUNE => _verify_and_refine p verify_call d
  end.

(** ** The background task *)

Definition fail_wf (w : wf) : wf :=
  {| wf_status := FAILED; wf_mode := wf_mode w; wf_result := Some RunError; wf_started := wf_started w; wf_completed := Some now |}.

(** [_mark_workflow_failed], in a transaction of its own that may fail *)
Definition _mark_workflow_failed (db_ok : bool) (d : db) : db := if db_ok then set_wf fail_wf d else d.

(** Whether a plan builds a graph; only such a run commits before its end. *)
Definition graphed (p : ExecutionPlan) : bool := negb (bool_decide (mode p ∈ [DIRECT_RESPONSE; ITERATIVE])).

(** The transaction is committed where the run returns, and rolled back where it
    raises or is cut off by the time limit; what the scheduler committed before
    stays.  [cut] has, for a run the time limit cuts off, the last such commit. *)
Definition _execute_workflow_background (p : ExecutionPlan) (verify_call : nat) (cut : option (option db)) (db_ok : bool) (d : db)
    : db :=
  match cut with
  | Some committed => _mark_workflow_failed db_ok (if graphed p then default d committed else d)
  | None =>
      match execute p verify_call d with
      | Done d' => d'
      | PausedIn committed => committed
      | Raised _ committed => _mark_workflow_failed db_ok (default d committed)
      end
  end.
End strategies.

(** ** The loop *)

Section proofs.
Context (float_of_text : string → pyfloat) (coerce_reflection : list (pykey * json) → option ReflectionResult).
Context (stored : spec_float → Z) (event_id wid : string) (llm : nat → option answer) (now : Z) (elapsed : nat → spec_float).

Abbreviation charge_cost := (charge_cost stored event_id wid).
Abbreviation iterate g := (iterate float_of_text coerce_reflection llm elapsed g).
Abbreviation iterative g := (_iterative float_of_text coerce_reflection stored event_id wid llm now elapsed g).

(** The state after the first [k] answers *)
Definition answers (k : nat) : list answer := omap (λ i, llm (2 * i)) (seq 0 k).

Definition after (k : nat) : loop := foldl (λ s a, after_answer a s) fresh_loop (answers k).

Lemma after_S k a : llm (2 * k) = Some a → after (S k) = after_answer a (after k).
Proof.
  intros Ha. unfold after, answers. rewrite seq_S, omap_app, foldl_app. cbn -[Nat.mul]. by rewrite Ha.
Qed.

Lemma after_counts k :
  (∀ j, j < k → is_Some (llm (2 * j))) → lp_iteration (after k) = k ∧ lp_reflections (after k) = k.
Proof.
  induction k as [|k IH]; intros Hs; [done|]. destruct (Hs k) as [a Ha]; [lia|]. rewrite (after_S k a Ha).
  destruct IH as [Hi Hr]; [intros j Hj; apply Hs; lia|]. cbn. by rewrite Hi, Hr.
Qed.

Lemma answers_S k a : llm (2 * k) = Some a → answers (S k) = answers k ++ [a].
Proof. intros Ha. unfold answers. rewrite seq_S, omap_app. cbn -[Nat.mul]. by rewrite Ha. Qed.

Lemma answers_length k : (∀ j, j < k → is_Some (llm (2 * j))) → length (answers k) = k.
Proof.
  induction k as [|k IH]; intros Hs; [done|]. destruct (Hs k) as [a Ha]; [lia|].
  rewrite (answers_S k a Ha), length_app, IH; [cbn; lia|]. intros j Hj. apply Hs. lia.
Qed.

(** The last output is the last answer *)
Lemma last_output k a :
  (∀ j, j < k → is_Some (llm (2 * j))) → last (answers k) = Some a → last (lp_outputs (after k)) = Some (a_content a).
Proof.
  destruct k as [|k]; intros Hs; [done|]. destruct (Hs k) as [b Hb]; [lia|].
  rewrite (answers_S k b Hb), last_snoc. intros [= ->]. rewrite (after_S k a Hb). cbn. by rewrite last_snoc.
Qed.

Definition goes_on (g : ExecutionGuardrails) (limit : spec_float) (j : nat) : Prop :=
  should_force_stop g j j (lp_cost (after j)) limit (elapsed j) = false.

Lemma iterate_Ok g threshold limit n i s :
  (∀ j, j < i → is_Some (llm (2 * j))) → iterate g threshold limit n (after i) = Ok s →
  ∃ k, s = after k ∧ i ≤ k ≤ i + n ∧ (0 < n → i < k) ∧ (∀ j, j < k → is_Some (llm (2 * j))) ∧
       ∀ j, i < j < k → goes_on g limit j.
Proof.
  revert i. induction n as [|n IH]; intros i Hs; cbn [Strategy.iterate].
  { intros [= <-]. exists i. split_and!; [done|lia|lia|lia|done|intros; lia]. }
  destruct (after_counts i Hs) as [Hi _]. rewrite Hi. destruct (llm (2 * i)) as [a|] eqn:Ha; [|done].
  assert (∀ j, j < S i → is_Some (llm (2 * j))) as Hs'.
  { intros j Hj. destruct (decide (j = i)) as [->|]; [by exists a|apply Hs; lia]. }
  destruct (after_counts (S i) Hs') as [Hi' Hr']. pose proof (after_S i a Ha) as Hstep.
  rewrite Hstep in Hi', Hr'. rewrite Hi', Hr', <-!Hstep.
  assert (after (S i) = s → ∃ k, s = after k ∧ i ≤ k ≤ i + S n ∧ (0 < S n → i < k) ∧
    (∀ j, j < k → is_Some (llm (2 * j))) ∧ ∀ j, i < j < k → goes_on g limit j) as Hstop.
  { intros <-. exists (S i). split_and!; [done|lia|lia|lia|done|intros; lia]. }
  destruct (_ || _); [by intros [= E]; apply Hstop|]. destruct (should_force_stop _ _ _ _ _ _) eqn:Hf; [by intros [= E]; apply Hstop|].
  intros (k&->&Hk&Hlt&Hall&Hgo)%(IH (S i) Hs'). exists k. split_and!; [done|lia|lia|lia|done|].
  intros j Hj. destruct (decide (j = S i)) as [->|]; [exact Hf|apply Hgo; lia].
Qed.

Lemma goes_on_default limit j :
  goes_on default_guardrails limit j → j < 5 ∧ check_budget default_guardrails (lp_cost (after j)) limit = true ∧
    f_lt (f_of_Z 300) (elapsed j) = false.
Proof.
  unfold goes_on, should_force_stop. intros [[[_ Hr]%orb_false_iff Hb]%orb_false_iff He]%orb_false_iff.
  apply negb_false_iff, Nat.ltb_lt in Hr. by apply negb_false_iff in Hb.
Qed.

(** An iteration of a workflow, its cost and what it charges *)
Lemma iterative_Ok g p d d' :
  iterative g p d = Ok d' →
  ∃ k d1, (∀ j, j < k → is_Some (llm (2 * j))) ∧ k ≤ max_iterations p ∧ (0 < max_iterations p → 0 < k) ∧
    (∀ j, 0 < j < k → goes_on g (limit_of stored wid d) j) ∧
    charge_cost (lp_cost (after k)) "iterative execution" (set_wf (start_wf now) d) = Ok d1 ∧
    d' = set_wf (complete_wf now (Answered (default "No output produced." (last (lp_outputs (after k))))
                  (iterative_confidence k) k (lp_tokens (after k)))) d1.
Proof.
  unfold _iterative. intros (s&Hi&(d1&Hc&[= <-])%res_bind_Ok)%res_bind_Ok.
  apply (iterate_Ok g _ _ _ 0) in Hi as (k&->&Hk&Hlt&Hall&Hgo); [|lia].
  exists k, d1. destruct (after_counts k Hall) as [-> _]. split_and!; try done; lia.
Qed.

(** The charge reads and writes the ledger only *)
Lemma charge_cost_wf amount why f d d' :
  charge_cost amount why (set_wf f d) = Ok d' → ∃ d1, charge_cost amount why d = Ok d1 ∧ d' = set_wf f d1 ∧ db_wf d1 = db_wf d.
Proof.
  unfold Strategy.charge_cost. cbn [db_wallet set_wf]. destruct (f_lt _ _); [|by intros [= <-]; exists d].
  destruct (record_internal_cost _ _ _ _ _ _) as [[e w]|]; [|done]. intros [= <-]. by eexists.
Qed.
End proofs.

(** ** Samples *)

Definition sample_stored (f : spec_float) : Z :=
  match num_of_float (f_mul f (f_of_Z 10000)) with
  | NFin m e => if (0 <=? e)%Z then (m * 2 ^ e)%Z else round_half_even m (2 ^ (- e))
  | _ => 0%Z
  end.

(** A reflection that is never content, and one workflow with ten credits *)
Definition never (fields : list (pykey * json)) : option ReflectionResult :=
  Some {| rf_action := "re_plan"; rf_confidence := f_of_Z 0; rf_issues := [] |}.

Definition sample_llm (dollars : Q) (call : nat) : option answer :=
  Some {| a_content := if Nat.even call then "draft" else "{}"; a_cost := dollars; a_tokens := 7 |}.

Definition sample_db : db :=
  {| db_wf := {| wf_status := PENDING; wf_mode := None; wf_result := None; wf_started := None; wf_completed := None |};
     db_wallet := {| workflows := {[ "w" := {| budget_limit := 100000; budget_used := 0 |} ]}; events := [];
                     balance_cache := ∅ |} |}.

Definition sample_plan (iterations : nat) : ExecutionPlan :=
  make_plan (_heuristic_interpret str_lower "explain the long text") ITERATIVE iterations 80 DEFAULT_ALLOCATION.

Definition sample_execute (dollars : Q) (iterations : nat) : ending :=
  execute (λ _, FNonFinite) never sample_stored "e" "w" (sample_llm dollars) 9 (λ _, f_of_Z 0) default_guardrails
    (λ _ d, (Done d, "")) (sample_plan iterations) 99 sample_db.

Definition sample_done : db :=
  match sample_execute (1 # 1000) 9 with Done d => d | _ => sample_db end.

Definition ended (e : ending) : option (WorkflowStatus * option run_result * nat) :=
  match e with Done d => Some (wf_status (db_wf d), wf_result (db_wf d), length (events (db_wallet d))) | _ => None end.

(** A reflection that refuses every draft: five rounds, and the more it refused
    the higher the confidence that is reported *)
Example five_rounds :
  ended (sample_execute (1 # 1000) 9) = Some (COMPLETED, Some (Answered "draft" (hundredths 95) 5 35), 1).
Proof. vm_compute. reflexivity. Qed.

(** The last round may exceed the budget. The ledger then refuses the charge, the
    answer is lost and nothing is charged for any of the rounds. *)
Example overspent_run_lost : sample_execute (6 # 1000) 9 = Raised (WalletError BudgetExhaustedError) None.
Proof. vm_compute. reflexivity. Qed.

(** ** Correctness *)

Section correctness.
Context (float_of_text : string → pyfloat) (coerce_reflection : list (pykey * json) → option ReflectionResult).
Context (stored : spec_float → Z) (event_id wid : string) (llm : nat → option answer) (now : Z) (elapsed : nat → spec_float).
Context (pipeline : ExecutionPlan → db → ending * string).

Abbreviation execute := (execute float_of_text coerce_reflection stored event_id wid llm now elapsed default_guardrails pipeline).

Lemma execute_iterative p call d d' :
  mode p = ITERATIVE → execute p call d = Done d' →
  ∃ k d1, (∀ j, j < k → is_Some (llm (2 * j))) ∧ k ≤ max_iterations p ∧ k ≤ 5 ∧ (0 < max_iterations p → 0 < k) ∧
    (∀ j, 0 < j < k → check_budget default_guardrails (lp_cost (after llm j)) (limit_of stored wid d) = true) ∧
    charge_cost stored event_id wid (lp_cost (after llm k)) "iterative execution"
      (set_wf (start_wf now) (set_wf (with_mode ITERATIVE) d)) = Ok d1 ∧
    d' = set_wf (complete_wf now (Answered (default "No output produced." (last (lp_outputs (after llm k))))
                  (iterative_confidence k) k (lp_tokens (after llm k)))) d1.
Proof.
  intros Hm. unfold Strategy.execute. rewrite Hm. destruct (_iterative _ _ _ _ _ _ _ _ _ _ _) as [d2|e] eqn:E; [|done].
  intros [= ->]. apply iterative_Ok in E as (k&d1&Hs&Hk&H0&Hgo&Hc&He). exists k, d1.
  assert (k ≤ 5) as H5.
  { apply Nat.nlt_ge. intros Hlt. destruct (goes_on_default llm elapsed _ 5 (Hgo 5 ltac:(lia))) as (?&_). lia. }
  split_and!; try done. intros j Hj. by destruct (goes_on_default llm elapsed _ j (Hgo j Hj)) as (_&?&_).
Qed.
Lemma direct_completes d d' : _direct_response stored event_id wid llm now d = Ok d' → wf_status (db_wf d') = COMPLETED.
Proof. unfold _direct_response. destruct (llm 0); [|done]. by intros (d1&_&[= <-])%res_bind_Ok. Qed.

Lemma iterative_completes g p d d' :
  _iterative float_of_text coerce_reflection stored event_id wid llm now elapsed g p d = Ok d' → wf_status (db_wf d') = COMPLETED.
Proof. by intros (k&d1&_&_&_&_&_&->)%iterative_Ok. Qed.

(** The strategies without a graph *)
Lemma execute_ungraphed g p call d :
  graphed p = false →
  match Strategy.execute float_of_text coerce_reflection stored event_id wid llm now elapsed g pipeline p call d with
  | Done d' => wf_status (db_wf d') = COMPLETED
  | Raised _ committed => committed = None
  | PausedIn _ => False
  end.
Proof.
  unfold graphed. intros Hm%negb_false_iff%bool_decide_eq_true. assert (mode p = DIRECT_RESPONSE ∨ mode p = ITERATIVE) as [E0|E0] by set_solver;
    unfold Strategy.execute; rewrite E0.
  - destruct (_direct_response _ _ _ _ _ _) eqn:E; [by eapply direct_completes|done].
  - destruct (_iterative _ _ _ _ _ _ _ _ _ _ _) eqn:E; [by eapply iterative_completes|done].
Qed.
End correctness.

(** C23: an iterative run asks the language model for at most five drafts, and for
    at most as many as its plan allows; before every draft but the first the cost
    so far was below the budget; its answer is the last draft, and the ledger is
    charged once, with the cost of all drafts. *)
Theorem iterative_bounded float_of_text coerce_reflection stored event_id wid llm now elapsed pipeline p call d d'
    (Hmode : mode p = ITERATIVE) (Hpos : 0 < max_iterations p)
    (Hdone : execute float_of_text coerce_reflection stored event_id wid llm now elapsed default_guardrails pipeline
               p call d = Done d') :
  ∃ k a d1, 0 < k ≤ min (max_iterations p) 5 ∧ length (answers llm k) = k ∧ last (answers llm k) = Some a ∧
    (∀ j, 0 < j < k → check_budget default_guardrails (lp_cost (after llm j)) (limit_of stored wid d) = true) ∧
    charge_cost stored event_id wid (lp_cost (after llm k)) "iterative execution" d = Ok d1 ∧
    db_wallet d' = db_wallet d1 ∧ wf_status (db_wf d') = COMPLETED ∧
    wf_result (db_wf d') = Some (Answered (a_content a) (iterative_confidence k) k (lp_tokens (after llm k))).
Proof.
  apply execute_iterative in Hdone as (k&d1&Hs&Hk&H5&H0&Hgo&Hc&->); [|done].
  apply charge_cost_wf in Hc as (d2&Hc&->&_). apply charge_cost_wf in Hc as (d3&Hc&->&_).
  specialize (H0 Hpos). pose proof (answers_length llm k Hs) as Hlen.
  destruct (last (answers llm k)) as [a|] eqn:Ha; [|apply last_None in Ha; rewrite Ha in Hlen; cbn in Hlen; lia].
  exists k, a, d3. rewrite (last_output llm k a Hs Ha). split_and!; try done; lia.
Qed.

Lemma iterative_bounded_witness :
  ∃ k a d1, 0 < k ≤ min 9 5 ∧ length (answers (sample_llm (1 # 1000)) k) = k ∧ last (answers (sample_llm (1 # 1000)) k) = Some a ∧
    (∀ j, 0 < j < k → check_budget default_guardrails (lp_cost (after (sample_llm (1 # 1000)) j))
                        (limit_of sample_stored "w" sample_db) = true) ∧
    charge_cost sample_stored "e" "w" (lp_cost (after (sample_llm (1 # 1000)) k)) "iterative execution" sample_db = Ok d1 ∧
    db_wallet sample_done = db_wallet d1 ∧ wf_status (db_wf sample_done) = COMPLETED ∧
    wf_result (db_wf sample_done) =
      Some (Answered (a_content a) (iterative_confidence k) k (lp_tokens (after (sample_llm (1 # 1000)) k))).
Proof.
  apply (iterative_bounded (λ _, FNonFinite) never sample_stored "e" "w" (sample_llm (1 # 1000)) 9 (λ _, f_of_Z 0)
           (λ _ d, (Done d, "")) (sample_plan 9) 99 sample_db sample_done).
  - reflexivity.
  - cbn. lia.
  - vm_compute. reflexivity.
Defined.

(** The background task leaves a workflow settled: either the run returned and its
    writes are kept as a whole, or it paused in the state the scheduler committed,
    or its writes are rolled back, for a direct or iterative run all of them, and
    the workflow is marked FAILED with its error, where the mark gets through. *)
Lemma background_settles float_of_text coerce_reflection stored event_id wid llm now elapsed guardrails pipeline
    p call cut db_ok d :
  let run := execute float_of_text coerce_reflection stored event_id wid llm now elapsed guardrails pipeline p call d in
  let d' := _execute_workflow_background float_of_text coerce_reflection stored event_id wid llm now elapsed guardrails
              pipeline p call cut db_ok d in
  (cut = None ∧ (run = Done d' ∨ run = PausedIn d')
     ∧ (graphed p = false → run = Done d' ∧ wf_status (db_wf d') = COMPLETED))
  ∨ ((is_Some cut ∨ ∃ e c, run = Raised e c) ∧ ∃ kept, (graphed p = false → kept = d) ∧ db_wallet d' = db_wallet kept ∧
     if db_ok then wf_status (db_wf d') = FAILED ∧ wf_result (db_wf d') = Some RunError ∧ wf_completed (db_wf d') = Some now
     else d' = kept).
Proof.
  intros run d'. subst d'. unfold _execute_workflow_background. destruct cut as [c|].
  { right. split; [by left|]. exists (if graphed p then default d c else d). split; [by intros ->|]. by destruct db_ok. }
  pose proof (execute_ungraphed float_of_text coerce_reflection stored event_id wid llm now elapsed pipeline guardrails p call d) as Hu.
  fold run in Hu |- *. destruct run as [d1|e c|d1] eqn:E; [left|right|left].
  - split_and!; [done|by left|]. intros Hm. split; [done|]. by apply Hu in Hm.
  - split; [right; by exists e, c|]. exists (default d c). split; [intros Hm; by rewrite (Hu Hm)|]. by destruct db_ok.
  - split_and!; [done|by right|]. intros Hm. by apply Hu in Hm.
Qed.
