(* ===== verification/Workflows.v ===== *)
(** * Workflows: creating, watching and stopping workflows

    Models [services/workflow_service.py] and the endpoints of [api/workflows.py]
    that create, estimate, list, cancel and clean up workflows, on the rows of
    [models/workflow.py].  Executions are those of Strategy.v, progress is counted
    over the rows of Tasks.v.  Times are microseconds.  The texts of prompts beyond
    the keyword count, and pagination metadata, are not modelled. *)

From Stdlib Require Import Ascii ZArith QArith Lia SpecFloat.
From stdpp Require Import base tactics strings list gmap.
From S2P Require Import Prelude PyStr Dict PyVal PyFloat Json Uuid TaskFsm Wallet Approval Tasks Strategy.

#[local] Open Scope nat_scope.

(** ** Rows *)

Record Workflow := {
  w_id : uuid;
  w_prompt : string;
  w_created : Z;
  w_run : wf;
}.

Inductive control_exn := WorkflowNotFound | CannotCancel (s : WorkflowStatus) | RunFailed (e : run_exn) | RunPaused.

Definition TERMINAL_WORKFLOW_STATES : list WorkflowStatus := [COMPLETED; FAILED; CANCELLED].

Definition find_workflow (id : uuid) (ws : list Workflow) : option Workflow := snd <$> list_find (λ w, w_id w = id) ws.

Definition get_workflow (id : uuid) (ws : list Workflow) : res control_exn Workflow :=
  res_of_option WorkflowNotFound (find_workflow id ws).

Definition with_run (f : wf → wf) (w : Workflow) : Workflow := {|
  w_id := w_id w; w_prompt := w_prompt w; w_created := w_created w; w_run := f (w_run w) |}.

Definition update_workflow (id : uuid) (f : wf → wf) (ws : list Workflow) : list Workflow :=
  map (λ w, if bool_decide (w_id w = id) then with_run f w else w) ws.

(** The rows and their columns of the ledger (Wallet.v), where the budgets are *)
Record tables := { rows : list Workflow; ledger : wallet spec_float }.

Definition new_workflow (new_id : uuid) (now : Z) (prompt : string) : Workflow :=
  {| w_id := new_id; w_prompt := prompt; w_created := now;
     w_run := {| wf_status := PENDING; wf_mode := None; wf_result := None; wf_started := None; wf_completed := None |} |}.

(** [create_workflow] and [submit_task] before the background task *)
Definition create_workflow (new_id : uuid) (now : Z) (prompt : string) (budget : Z) (d : tables) : tables :=
  {| rows := rows d ++ [new_workflow new_id now prompt];
     ledger := {| workflows := <[uuid_str new_id := {| budget_limit := budget; budget_used := 0 |}]> (workflows (ledger d));
                  events := events (ledger d); balance_cache := balance_cache (ledger d) |} |}.

(** What a run of the workflow (Strategy.v) has made of its row and the ledger *)
Definition write_back (id : uuid) (r : db) (d : tables) : tables :=
  {| rows := update_workflow id (λ _, db_wf r) (rows d); ledger := db_wallet r |}.

(** [create_and_execute]: what is committed when it returns in a session that
    commits on return and rolls back on an exception, as both kinds of session of
    [core/database.py] do.  The row is marked FAILED before the exception is
    raised again, so the mark is rolled back with the rest. *)
Definition create_and_execute (new_id : uuid) (now : Z) (prompt : string) (budget : Z) (run : db → ending) (d : tables)
    : tables * res control_exn uuid :=
  let d' := create_workflow new_id now prompt budget d in
  match run {| db_wf := w_run (new_workflow new_id now prompt); db_wallet := ledger d' |} with
  | Done r => (write_back new_id r d', Ok new_id)
  | Raised e committed => (match committed with Some r => write_back new_id r d' | None => d end, Err (RunFailed e))
  | PausedIn r => (write_back new_id r d', Err RunPaused)
  end.

(** ** Status *)

Definition _elapsed_seconds (now : Z) (r : wf) : option spec_float :=
  started ← wf_started r;
  let stop := match wf_completed r with
              | Some t => if bool_decide (wf_status r ∈ TERMINAL_WORKFLOW_STATES) then t else now
              | None => now
              end in
  Some (f_max (f_of_Z 0) (f_div (f_of_Z (stop - started)) (f_of_Z 1000000))).

Definition count_tasks (s : TaskStatus) (ts : list Task) : nat := length (filter (λ t, status t = s) ts).

Definition f_hundred : spec_float := f_of_Z 100.

Record WorkflowStatusResponse := {
  ws_status : WorkflowStatus;
  progress_percent : spec_float;
  total_tasks : nat;
  completed_tasks : nat;
  running_tasks : nat;
  failed_tasks : nat;
  elapsed_seconds : option spec_float;
}.

Definition get_workflow_status (now : Z) (id : uuid) (ts : list Task) (ws : list Workflow) : res control_exn WorkflowStatusResponse :=
  w <~ get_workflow id ws;
  let mine := filter (λ t, workflow_id t = id) ts in
  let total := length mine in
  let completed := count_tasks TaskFsm.COMPLETED mine in
  let progress := if 0 <? total then f_mul (f_div (f_of_nat completed) (f_of_nat total)) f_hundred else f_of_Z 0 in
  Ok {| ws_status := wf_status (w_run w); progress_percent := f_round 1 progress; total_tasks := total;
        completed_tasks := completed; running_tasks := count_tasks TaskFsm.RUNNING mine;
        failed_tasks := count_tasks TaskFsm.FAILED mine; elapsed_seconds := f_round 1 <$> _elapsed_seconds now (w_run w) |}.

(** The tasks of [get_workflow_result] *)
Definition get_workflow_result (id : uuid) (ts : list Task) (ws : list Workflow)
    : res control_exn (WorkflowStatus * option run_result * nat * nat) :=
  w <~ get_workflow id ws;
  let mine := filter (λ t, workflow_id t = id) ts in
  Ok (wf_status (w_run w), wf_result (w_run w), count_tasks TaskFsm.COMPLETED mine, count_tasks TaskFsm.FAILED mine).

(** [ORDER BY created_at DESC OFFSET LIMIT] *)
Definition list_workflows (page page_size : nat) (s : option WorkflowStatus) (ws : list Workflow) : list Workflow * nat :=
  let chosen := match s with Some s => filter (λ w, wf_status (w_run w) = s) ws | None => ws end in
  (take page_size (drop ((page - 1) * page_size) (sort_by (λ a b, (w_created b <? w_created a)%Z) chosen)), length chosen).

(** ** Stopping *)

Definition cancellable (s : WorkflowStatus) : bool := bool_decide (s ∈ [PENDING; DECOMPOSING; RUNNING]).

Definition stop_run (s : WorkflowStatus) (r : option run_result) (now : Z) (w : wf) : wf :=
  {| wf_status := s; wf_mode := wf_mode w; wf_result := match r with Some r => Some r | None => wf_result w end;
     wf_started := wf_started w; wf_completed := Some now |}.

(** [cancel_workflow]: the row is read, and written when the lock on it is free;
    [committed] is what another transaction has made of the table by then.  The
    workflow that is reported is the one that was read, with the two columns set. *)
Definition cancel_workflow (now : Z) (id : uuid) (committed : list Workflow → list Workflow) (ws : list Workflow)
    : res control_exn (Workflow * list Workflow) :=
  w <~ get_workflow id ws;
  raise_if (negb (cancellable (wf_status (w_run w)))) (CannotCancel (wf_status (w_run w))) ;!
  Ok (with_run (stop_run CANCELLED None now) w, update_workflow id (stop_run CANCELLED None now) (committed ws)).

Definition STALE_MICROSECONDS : Z := 600 * 1000000.

Definition is_stale (now : Z) (w : Workflow) : bool :=
  cancellable (wf_status (w_run w)) && (w_created w <? now - STALE_MICROSECONDS)%Z.

(** The cleaned table and the ids *)
Definition cleanup_stale_workflows (now : Z) (ws : list Workflow) : list Workflow * list uuid :=
  (map (λ w, if is_stale now w then with_run (stop_run FAILED (Some RunError) now) w else w) ws,
   map w_id (List.filter (is_stale now) ws)).

(** ** Estimates *)

Definition complex_keywords : list string :=
  ["analyze"; "research"; "investigate"; "compare"; "evaluate"; "comprehensive"; "detailed"; "thorough"; "multi-step";
   "cross-reference"; "risk"; "compliance"; "audit"; "security"; "optimization"; "forecast"; "strategy"; "architecture";
   "design"; "implement"; "validate"].

Definition action_keywords : list string :=
  ["identify"; "propose"; "generate"; "create"; "build"; "plan"; "assess"; "review"; "check"; "verify"; "map"; "extract";
   "summarize"; "report"; "brief"; "schedule"; "allocate"; "estimate"].

Definition count_keywords (ks : list string) (s : string) : nat := length (List.filter (λ k, str_contains k s) ks).

Inductive complexity := simple | moderate | complex | comprehensive.

Record estimate := { estimated_budget : Z; estimated_ops : nat; est_complexity : complexity; est_confidence : spec_float }.

Definition estimate_ops (word_count complex_count action_count : nat) : nat * complexity :=
  if (word_count <? 10) && (complex_count =? 0) then (3, simple)
  else if (word_count <? 25) || ((complex_count <=? 1) && (action_count <=? 2)) then (5, moderate)
  else if (word_count <? 50) || ((complex_count <=? 3) && (action_count <=? 4)) then (7, complex)
  else (max 8 (min 12 (action_count + complex_count + 2)), comprehensive).

Definition estimate_budget (lower : string → string) (prompt : string) : estimate :=
  if str_empty (py_strip prompt) then
    {| estimated_budget := 100; estimated_ops := 2; est_complexity := simple; est_confidence := float_half |}
  else
    let complex_count := count_keywords complex_keywords (lower prompt) in
    let action_count := count_keywords action_keywords (lower prompt) in
    let '(ops, c) := estimate_ops (count_words false (py_chars prompt)) complex_count action_count in
    let per_op := match c with complex | comprehensive => 25 | _ => 18 end%Z in
    {| estimated_budget := Z.max 50 (round_half_even (Z.of_nat ops * per_op) 50 * 50); estimated_ops := ops; est_complexity := c;
       est_confidence := f_min (hundredths 90) (f_add (f_add float_half (f_mul (f_of_nat complex_count) (hundredths 5)))
                                                       (f_mul (f_of_nat action_count) (hundredths 5))) |}.

Lemma estimate_ops_bounds words c a : 3 ≤ (estimate_ops words c a).1 ≤ 12.
Proof. unfold estimate_ops. repeat case_match; cbn [fst]; lia. Qed.

(** An estimate is a multiple of 50 between 50 and 300. *)
Lemma estimate_budget_bounds lower prompt :
  (50 ≤ estimated_budget (estimate_budget lower prompt) ≤ 300)%Z ∧ (50 | estimated_budget (estimate_budget lower prompt))%Z.
Proof.
  unfold estimate_budget. destruct (str_empty _); [split; [cbn; lia|by exists 2%Z]|].
  pose proof (estimate_ops_bounds (count_words false (py_chars prompt)) (count_keywords complex_keywords (lower prompt))
                (count_keywords action_keywords (lower prompt))) as Hb.
  destruct (estimate_ops _ _ _) as [ops c]. cbn [fst] in Hb. cbn [estimated_budget].
  assert (∀ n, 3 ≤ n ≤ 12 → Forall (λ p, let b := Z.max 50 (round_half_even (Z.of_nat n * p) 50 * 50) in
    (50 <=? b)%Z && (b <=? 300)%Z && (b mod 50 =? 0)%Z = true) [18%Z; 25%Z]) as Hall.
  { intros n Hn. assert (n ∈ seq 3 10) as Hin by (apply elem_of_seq; lia). clear Hn. revert n Hin. apply Forall_forall.
    repeat (constructor; [repeat constructor|]); constructor. }
  specialize (Hall ops Hb). rewrite Forall_cons, Forall_singleton in Hall. destruct Hall as [H18 H25].
  destruct c; cbn zeta in *;
    match goal with |- (50 ≤ ?b ≤ 300)%Z ∧ _ => assert ((50 <=? b)%Z && (b <=? 300)%Z && (b mod 50 =? 0)%Z = true) as E by assumption end;
    apply andb_true_iff in E as [[?%Z.leb_le ?%Z.leb_le]%andb_true_iff ?%Z.eqb_eq]; (split; [lia|by apply Z.mod_divide]).
Qed.

(** ** Samples *)

Definition sample_row (s : WorkflowStatus) (created started : Z) : Workflow :=
  {| w_id := sample_uuid 1; w_prompt := "explain"; w_created := created;
     w_run := {| wf_status := s; wf_mode := None; wf_result := None; wf_started := Some started; wf_completed := None |} |}.

Definition completing (ws : list Workflow) : list Workflow := update_workflow (sample_uuid 1) (complete_wf 70 (Piped "report" None)) ws.

(** The run holds the lock on its row: a cancellation waits for the run, which it
    does not stop, and then overwrites the status of the completed workflow. *)
Example cancelled_after_completion :
  match cancel_workflow 60 (sample_uuid 1) completing [sample_row RUNNING 0 1] with
  | Ok (w, [w']) => Some (wf_result (w_run w), wf_status (w_run w'), wf_result (w_run w'))
  | _ => None
  end = Some (None, CANCELLED, Some (Piped "report" None)).
Proof. vm_compute. reflexivity. Qed.

(** Staleness counts from the creation: a workflow resumed a second ago is failed
    if it was created ten minutes ago. *)
Example resumed_is_stale :
  (λ w, wf_status (w_run w)) <$> (cleanup_stale_workflows 700000000 [sample_row RUNNING 0 699000000]).1 = [FAILED].
Proof. vm_compute. reflexivity. Qed.

(** A run that raises leaves nothing behind, not even the FAILED mark. *)
Lemma failed_run_vanishes new_id now prompt budget run d e :
  run {| db_wf := w_run (new_workflow new_id now prompt); db_wallet := ledger (create_workflow new_id now prompt budget d) |}
    = Raised e None →
  create_and_execute new_id now prompt budget run d = (d, Err (RunFailed e)).
Proof. unfold create_and_execute. by intros ->. Qed.

(** ** Correctness *)

(** The statuses in which a workflow can be stopped *)
Definition unfinished (w : Workflow) : Prop := wf_status (w_run w) ∈ [PENDING; DECOMPOSING; RUNNING].

(** A row ended with the status and the result given *)
Definition ended (now : Z) (s : WorkflowStatus) (r : option run_result) (w : Workflow) : Workflow := {|
  w_id := w_id w; w_prompt := w_prompt w; w_created := w_created w;
  w_run := {| wf_status := s; wf_mode := wf_mode (w_run w); wf_result := r; wf_started := wf_started (w_run w);
              wf_completed := Some now |} |}.

Lemma cancellable_unfinished w : cancellable (wf_status (w_run w)) = true ↔ unfinished w.
Proof. apply bool_decide_eq_true. Qed.

Lemma find_workflow_Some id ws w : find_workflow id ws = Some w → w ∈ ws ∧ w_id w = id.
Proof.
  unfold find_workflow. intros ([i x]&(Hl&Hx&_)%list_find_Some&->)%fmap_Some. by apply list_elem_of_lookup_2 in Hl.
Qed.

Lemma cleanup_again now ws : (cleanup_stale_workflows now (cleanup_stale_workflows now ws).1).2 = [].
Proof.
  unfold cleanup_stale_workflows. cbn [fst snd]. induction ws as [|w ws IH]; [done|]. cbn [map List.filter].
  destruct (is_stale now w) eqn:E; cbn [w_run with_run stop_run]; [done|]. by rewrite E.
Qed.

Lemma cancel_stops now id ws :
  NoDup (map w_id ws) →
  match cancel_workflow now id (λ ws, ws) ws with
  | Ok (w', ws') => ∃ w, find_workflow id ws = Some w ∧ unfinished w ∧ w' = ended now CANCELLED (wf_result (w_run w)) w ∧
                      ws' = map (λ x, if bool_decide (w_id x = id) then w' else x) ws
  | Err (CannotCancel s) => ∃ w, find_workflow id ws = Some w ∧ wf_status (w_run w) = s ∧ ¬ unfinished w
  | Err e => e = WorkflowNotFound ∧ find_workflow id ws = None
  end.
Proof.
  intros Hnd. unfold cancel_workflow, get_workflow. destruct (find_workflow id ws) as [w|] eqn:Hf; [|done]. cbn [res_of_option res_bind].
  destruct (cancellable _) eqn:Hc; cbn [negb raise_if res_bind].
  - exists w. apply find_workflow_Some in Hf as [Hw Hid]. split_and!; [done|by apply cancellable_unfinished|done|].
    unfold update_workflow. apply map_ext_in. intros x Hx%list_elem_of_In. case_bool_decide as Hi; [|done].
    assert (x = w) as -> by (eapply (NoDup_map_inj w_id ws); [done..|congruence]). done.
  - exists w. split_and!; [done..|]. rewrite <-cancellable_unfinished. by rewrite Hc.
Qed.

(** The rows that the cleanup ends *)
Definition overdue (now : Z) (w : Workflow) : Prop := unfinished w ∧ (w_created w < now - 600 * 1000000)%Z.

Lemma is_stale_overdue now w : is_stale now w = true ↔ overdue now w.
Proof. unfold is_stale, overdue. by rewrite andb_true_iff, cancellable_unfinished, Z.ltb_lt. Qed.

Lemma cleanup_row now ws w w' :
  NoDup (map w_id ws) → (w, w') ∈ zip ws (cleanup_stale_workflows now ws).1 →
  (w_id w ∈ (cleanup_stale_workflows now ws).2 ↔ overdue now w) ∧
  (overdue now w → w' = ended now FAILED (Some RunError) w) ∧ (¬ overdue now w → w' = w).
Proof.
  intros Hnd [Hw ->]%zip_map_inv. rewrite <-is_stale_overdue. split_and!; [|by intros ->|by intros ->%not_true_is_false].
  unfold cleanup_stale_workflows. cbn [snd]. rewrite list_elem_of_fmap.
  setoid_rewrite list_elem_of_In. setoid_rewrite filter_In. setoid_rewrite <-list_elem_of_In. split.
  - intros (x&Hi&Hx&Hs). assert (x = w) as -> by (eapply (NoDup_map_inj w_id ws); [done..|congruence]). done.
  - intros Hs. by exists w.
Qed.

(** C18: while no run is in flight, stopping ends unfinished workflows only.  A
    cancellation succeeds exactly on a workflow that is pending, being decomposed
    or running: its row becomes CANCELLED with the time of the call as its end and
    is otherwise kept, is what the call reports, and no other row changes; it
    refuses a workflow in any other status with that status and a missing one.
    The cleanup reports and fails, with the time and the error, exactly the
    workflows in one of the three statuses that are older than ten minutes, keeps
    every other row, and finds nothing the second time. *)
Theorem stopping_unfinished now id ws (Hids : NoDup (map w_id ws)) :
  match cancel_workflow now id (λ ws, ws) ws with
  | Ok (w', ws') => ∃ w, find_workflow id ws = Some w ∧ unfinished w ∧ w' = ended now CANCELLED (wf_result (w_run w)) w ∧
                      ws' = map (λ x, if bool_decide (w_id x = id) then w' else x) ws
  | Err (CannotCancel s) => ∃ w, find_workflow id ws = Some w ∧ wf_status (w_run w) = s ∧ ¬ unfinished w
  | Err e => e = WorkflowNotFound ∧ find_workflow id ws = None
  end ∧
  length (cleanup_stale_workflows now ws).1 = length ws ∧
  (∀ w w', (w, w') ∈ zip ws (cleanup_stale_workflows now ws).1 →
     (w_id w ∈ (cleanup_stale_workflows now ws).2 ↔ overdue now w) ∧
     (overdue now w → w' = ended now FAILED (Some RunError) w) ∧ (¬ overdue now w → w' = w)) ∧
  (cleanup_stale_workflows now (cleanup_stale_workflows now ws).1).2 = [].
Proof.
  split_and!; [by apply cancel_stops|by apply length_map| |apply cleanup_again].
  intros w w' Hz. by apply cleanup_row.
Qed.

(** A cancellation, and a cleanup of the row an hour later *)
Lemma stopping_unfinished_witness :
  let w := sample_row RUNNING 0 1 in
  (∃ ws', cancel_workflow 5 (sample_uuid 1) (λ ws, ws) [w] = Ok (ended 5 CANCELLED None w, ws') ∧
     ws' = [ended 5 CANCELLED None w]) ∧
  overdue 3600000000 w ∧
  ∀ w', (w, w') ∈ zip [w] (cleanup_stale_workflows 3600000000 [w]).1 → w' = ended 3600000000 FAILED (Some RunError) w.
Proof.
  intros w. assert (NoDup (map w_id [w])) as Hnd by (apply (bool_decide_eq_true_1 (NoDup _)); vm_compute; reflexivity).
  assert (overdue 3600000000 w) as Ho by (apply is_stale_overdue; vm_compute; reflexivity).
  split; [|split; [exact Ho|]].
  - pose proof (stopping_unfinished 5 (sample_uuid 1) [w] Hnd) as [H _].
    destruct (cancel_workflow 5 (sample_uuid 1) (λ ws, ws) [w]) as [[w' ws']|e] eqn:E; [|discriminate E].
    destruct H as (w0&Hf&_&->&->). vm_compute in Hf. injection Hf as <-. eexists. split; reflexivity.
  - intros w' Hz. destruct (stopping_unfinished 3600000000 (sample_uuid 1) [w] Hnd) as (_&_&H&_).
    destruct (H w w' Hz) as (_&He&_). exact (He Ho).
Defined.

(** The elapsed time is never negative. *)
Lemma elapsed_nonneg now r e : _elapsed_seconds now r = Some e → f_ge e (f_of_Z 0) = true.
Proof.
  unfold _elapsed_seconds. intros (started&_&[= <-])%bind_Some. exact (f_max_ge_l (f_of_Z 0) _ eq_refl).
Qed.
