(* ===== verification/Evolution.v ===== *)
(** * Evolution: scores of the agents and their safety levels

    Models [services/evolution_service.py] on the agents of Agents.v and the
    weights of Trust.v.  [avg] is the database's average, [None] over no rows;
    the order of rows with equal averages, which the database leaves open, is
    that of the table.  Times are in microseconds. *)

From Stdlib Require Import ZArith Lia Floats.SpecFloat.
From stdpp Require Import base tactics strings gmap sorting list.
From S2P Require Import Prelude PyStr Dict Json PyVal PyFloat Uuid Agents Trust.

#[local] Open Scope Z_scope.

Definition PROMOTE_PERCENTILE : Z := 90.
Definition DEMOTE_PERCENTILE : Z := 10.

(** [schemas/score.py] checks that each is between 0 and 1. *)
Record ScoreInput := {
  quality : spec_float;
  speed : spec_float;
  cost_efficiency : spec_float;
  consistency : spec_float;
  reliability : spec_float;
}.

Record AgentScore := {
  score_id : uuid;
  sc_agent : uuid;
  sc_workflow : option uuid;
  sc_scores : ScoreInput;
  sc_composite : spec_float;
  sc_created : Z;
}.

(** Agents and scores of the database, and the sorted set that Redis keeps *)
Record evolution := {
  ev_agents : list Agent;
  ev_scores : list AgentScore;
  ev_rankings : gmap uuid spec_float;
}.

(** ** Recording *)

Definition weighted (s : trust_settings) (i : ScoreInput) : spec_float :=
  f_add (f_add (f_add (f_add (f_mul (w_quality s) (quality i)) (f_mul (w_speed s) (speed i)))
    (f_mul (w_cost s) (cost_efficiency i))) (f_mul (w_consistency s) (consistency i)))
    (f_mul (w_reliability s) (reliability i)).

(** [known] are the workflows of the foreign key. *)
Definition record_score (s : trust_settings) (known : uuid → bool) (id : uuid) (scores : ScoreInput) (workflow_id : option uuid)
    (fresh : uuid) (now : Z) (st : evolution) : res agent_exn (AgentScore * evolution) :=
  _ <~ res_of_option Agents.NotFoundError (find_agent (ev_agents st) id);
  _ <~ raise_if (match workflow_id with Some w => negb (known w) | None => false end) IntegrityError;
  let comp := weighted s scores in
  let record := {| score_id := fresh; sc_agent := id; sc_workflow := workflow_id; sc_scores := scores;
                   sc_composite := f_round 4 comp; sc_created := now |} in
  Ok (record, {| ev_agents := ev_agents st; ev_scores := ev_scores st ++ [record]; ev_rankings := <[id := comp]> (ev_rankings st) |}).

(** ** Reading *)

Definition days (n : Z) : Z := n * 24 * 3600 * 1000000.

Definition scores_of (id : uuid) (st : evolution) : list AgentScore := filter (λ r, sc_agent r = id) (ev_scores st).

Definition within (from : Z) (until : option Z) (rs : list AgentScore) : list AgentScore :=
  filter (λ r, (from <=? sc_created r) && match until with Some u => sc_created r <? u | None => true end = true) rs.

Definition get_score_history (id : uuid) (page page_size : nat) (st : evolution) : res agent_exn (list AgentScore * nat) :=
  _ <~ res_of_option Agents.NotFoundError (find_agent (ev_agents st) id);
  let mine := scores_of id st in
  Ok (take page_size (drop ((page - 1) * page_size) (sort_by (λ a b, sc_created b <? sc_created a) mine)), length mine).

(** [x or y], of an average that may be missing *)
Definition f_or (x : option spec_float) (y : spec_float) : spec_float :=
  match x with Some f => if f_is_zero f then y else f | None => y end.

Section averages.
Context (avg : list spec_float → option spec_float).

Definition avg_composite (rs : list AgentScore) : option spec_float := avg (map sc_composite rs).

Definition _compute_percentile (id : uuid) (st : evolution) : spec_float :=
  match avg_composite (scores_of id st) with
  | None => f_of_Z 50
  | Some my_avg =>
      let scored := remove_dups (map sc_agent (ev_scores st)) in
      if (length scored <=? 1)%nat then f_of_Z 50
      else
        let lower := filter (λ a, match avg_composite (scores_of a st) with Some x => f_lt x my_avg | None => false end = true) scored in
        f_mul (f_div (f_of_nat (length lower)) (f_of_nat (length scored))) (f_of_Z 100)
  end.

Record AgentEvolution := {
  current_composite : spec_float;
  percentile : spec_float;
  trend_7d : spec_float;
  dimensions : ScoreInput;
  total_scored_tasks : nat;
}.

Definition get_agent_evolution (now : Z) (id : uuid) (st : evolution) : res agent_exn AgentEvolution :=
  _ <~ res_of_option Agents.NotFoundError (find_agent (ev_agents st) id);
  let mine := scores_of id st in
  let month := within (now - days 30) None mine in
  let dim (f : ScoreInput → spec_float) := f_round 4 (f_or (avg (map (λ r, f (sc_scores r)) month)) (f_of_Z 0)) in
  let recent_avg := f_or (avg_composite (within (now - days 7) None mine)) (f_of_Z 0) in
  let previous_avg := f_or (avg_composite (within (now - days 14) (Some (now - days 7)) mine)) recent_avg in
  Ok {| current_composite := f_round 4 (f_or (avg_composite month) (f_of_Z 0));
        percentile := f_round 1 (_compute_percentile id st);
        trend_7d := f_round 4 (f_sub recent_avg previous_avg);
        dimensions := {| quality := dim quality; speed := dim speed; cost_efficiency := dim cost_efficiency;
                         consistency := dim consistency; reliability := dim reliability |};
        total_scored_tasks := length month |}.

Record AgentRanking := {
  rank : nat;
  rk_agent : Agent;
  composite_score : spec_float;
  delta_from_previous : spec_float;
  total_tasks : nat;
}.

Definition ranked (capability : string) (a : Agent) : bool :=
  (bool_decide (status a = AgentStatus.ACTIVE) || bool_decide (status a = AgentStatus.DEGRADED)) &&
  (String.eqb capability "" || bool_decide (capability ∈ capabilities a)).

(** Best average first; an agent without scores counts as 0. *)
Definition get_rankings (now : Z) (limit : nat) (capability : string) (st : evolution) : list AgentRanking :=
  let coalesced a := default (f_of_Z 0) (avg_composite (scores_of (agent_id a) st)) in
  let rows := take limit (sort_by (λ a b, f_lt (coalesced b) (coalesced a))
                            (filter (λ a, ranked capability a = true) (ev_agents st))) in
  imap (λ i a,
    let current_avg := f_or (avg_composite (scores_of (agent_id a) st)) (f_of_Z 0) in
    let prev_avg := avg_composite (filter (λ r, sc_created r < now - days 7) (scores_of (agent_id a) st)) in
    {| rank := S i; rk_agent := a; composite_score := f_round 4 current_avg;
       delta_from_previous := f_round 4 (f_sub current_avg (f_or prev_avg current_avg));
       total_tasks := length (scores_of (agent_id a) st) |}) rows.

(** ** Promotion and demotion *)

Definition qualify (st : evolution) (a : Agent) : option (Agent * spec_float) :=
  let rs := scores_of (agent_id a) st in
  if bool_decide (status a = AgentStatus.ACTIVE) && (3 <=? length rs)%nat then pair a <$> avg_composite rs else None.

(** Highest average first *)
Definition qualified (st : evolution) : list (Agent * spec_float) :=
  sort_by (λ x y, f_lt y.2 x.2) (omap (qualify st) (ev_agents st)).

(** [int(n * (1 - percentile / 100))] *)
Definition share (n : nat) (p : Z) : res py_exn Z :=
  py_int (VFloat (f_mul (f_of_nat n) (f_sub f1 (percent p)))).

Definition with_level (a : Agent) (l : Z) : Agent := {|
  agent_id := agent_id a; name := name a; description := description a; capabilities := capabilities a;
  supported_tools := supported_tools a; cost_profile := cost_profile a; latency_profile := latency_profile a;
  trust_score := trust_score a; version := version a; safety_level := l; status := status a;
  health_check_url := health_check_url a; last_health_check := last_health_check a; metadata_ := metadata_ a |}.

(** One pass over the rows: what is promoted, and what is demoted *)
Definition promotes (threshold : spec_float) (r : Agent * spec_float) : bool :=
  f_ge r.2 threshold && (safety_level r.1 <? 10).

Definition demotes (promote_threshold demote_threshold : spec_float) (r : Agent * spec_float) : bool :=
  negb (promotes promote_threshold r) && f_le r.2 demote_threshold && (1 <? safety_level r.1).

Definition bump (ids : list uuid) (by_ : Z) (a : Agent) : Agent :=
  if bool_decide (agent_id a ∈ ids) then with_level a (safety_level a + by_) else a.

Inductive promote_exn := IndexError | Raises (e : py_exn).

(** The names promoted and demoted, and the new state *)
Definition promote_demote_agents (st : evolution) : res promote_exn (list string * list string * evolution) :=
  let rows := qualified st in
  let n := length rows in
  if (n <? 5)%nat then Ok ([], [], st)
  else
    up <~ res_catch (share n PROMOTE_PERCENTILE) (λ e, Err (Raises e));
    down <~ res_catch (share n DEMOTE_PERCENTILE) (λ e, Err (Raises e));
    let composites := map snd rows in
    promote_threshold <~ res_of_option IndexError (composites !! Z.to_nat (Z.max 0 up));
    demote_threshold <~ res_of_option IndexError (composites !! Z.to_nat (Z.min (Z.of_nat n - 1) down));
    let promoted := List.filter (promotes promote_threshold) rows in
    let demoted := List.filter (demotes promote_threshold demote_threshold) rows in
    let ids rs := map (λ r : Agent * spec_float, agent_id r.1) rs in
    Ok (map (λ r, name r.1) promoted, map (λ r, name r.1) demoted,
        {| ev_agents := map (bump (ids demoted) (-1)) (map (bump (ids promoted) 1) (ev_agents st));
           ev_scores := ev_scores st; ev_rankings := ev_rankings st |}).
End averages.

(** ** Who is moved *)

(** How many of the qualified agents have a higher average, and how many a lower
    one *)
Definition above (rows : list (Agent * spec_float)) (x : spec_float) : nat := length (List.filter (λ r, f_lt x r.2) rows).
Definition below (rows : list (Agent * spec_float)) (x : spec_float) : nat := length (List.filter (λ r, f_lt r.2 x) rows).

(** The change of level that the ranks give: up for the best tenth, else down for
    the worst tenth, both rounded up, within 1 and 10 *)
Definition deserved (rows : list (Agent * spec_float)) (a : Agent) (x : spec_float) : Z :=
  let margin := ((length rows - 1) / 10)%nat in
  if (length rows <? 5)%nat then 0
  else if (above rows x <=? margin)%nat && (safety_level a <? 10) then 1
  else if (below rows x <=? margin)%nat && (1 <? safety_level a) then -1
  else 0.

Definition level_change (avg : list spec_float → option spec_float) (st : evolution) (a : Agent) : Z :=
  match qualify avg st a with Some (_, x) => deserved (qualified avg st) a x | None => 0 end.

Definition level_ok (a : Agent) : Prop := 1 <= safety_level a <= 10.

(** The two shares, in doubles, are the exact ones. *)
Definition shares_exact (n : nat) : Prop :=
  share n PROMOTE_PERCENTILE = Ok ((Z.of_nat n - 1) / 10) ∧
  share n DEMOTE_PERCENTILE = Ok (Z.of_nat n - 1 - (Z.of_nat n - 1) / 10).

Definition shares_check (n : nat) : bool :=
  let part c := py_int (VFloat (f_mul (f_of_nat n) c)) in
  match part (S754_finite false 7205759403792792 (-56)), part (S754_finite false 8106479329266893 (-53)) with
  | Ok up, Ok down => (up =? (Z.of_nat n - 1) / 10) && (down =? Z.of_nat n - 1 - (Z.of_nat n - 1) / 10)
  | _, _ => false
  end.

Lemma shares_computed : forallb shares_check (seq 5 396) = true.
Proof. vm_compute. reflexivity. Qed.

Lemma shares_ok n : (5 <= n <= 400)%nat → shares_exact n.
Proof.
  intros Hn. pose proof shares_computed as Hc. rewrite forallb_forall in Hc. specialize (Hc n ltac:(apply in_seq; lia)).
  unfold shares_exact, share, shares_check in *.
  assert (f_sub f1 (percent PROMOTE_PERCENTILE) = S754_finite false 7205759403792792 (-56)) as -> by (vm_compute; reflexivity).
  assert (f_sub f1 (percent DEMOTE_PERCENTILE) = S754_finite false 8106479329266893 (-53)) as -> by (vm_compute; reflexivity).
  destruct (py_int _) as [up|], (py_int _) as [down|]; try done.
  apply andb_true_iff in Hc as [->%Z.eqb_eq ->%Z.eqb_eq]. done.
Qed.

(** Against the row at a position of a list that falls, counting is comparing. *)
Section ranks.
Context (rows : list (Agent * spec_float)).
Context (Hnum : ∀ r, r ∈ rows → is_nan r.2 = false).
Context (Hsorted : StronglySorted (λ a b : Agent * spec_float, f_lt a.2 b.2 = false) rows).

Lemma rank_split i r :
  rows !! i = Some r →
  ∃ before after, rows = before ++ r :: after ∧ length before = i ∧
    (∀ y, y ∈ before → f_le r.2 y.2 = true) ∧ (∀ y, y ∈ after → f_le y.2 r.2 = true).
Proof.
  intros Hr. exists (take i rows), (drop (S i) rows). pose proof (take_drop_middle _ _ _ Hr) as E.
  assert (∀ y z, y ∈ rows → z ∈ rows → f_lt y.2 z.2 = false → f_le z.2 y.2 = true) as Hle.
  { intros y z Hy Hz. rewrite f_lt_le by auto. by intros ?%negb_false_iff. }
  assert (r ∈ rows) as Hin by (by eapply list_elem_of_lookup_2).
  rewrite <-E in Hsorted. split_and!; [done|apply length_take_le; apply lookup_lt_Some in Hr; lia| |].
  - intros y Hy. apply Hle; [rewrite <-E; set_solver|done|]. eapply (StronglySorted_app_1_elem_of _ _ _ y r Hsorted); [done|left].
  - intros y Hy. apply Hle; [done|rewrite <-E; set_solver|].
    apply StronglySorted_app_1_r, StronglySorted_inv in Hsorted as [_ Hall]. rewrite Forall_forall in Hall. by apply Hall.
Qed.

Lemma above_rank i r x : rows !! i = Some r → is_nan x = false → f_ge x r.2 = (above rows x <=? i)%nat.
Proof.
  intros Hr Hx. assert (is_nan r.2 = false) as Hrn by (eapply Hnum, list_elem_of_lookup_2, Hr).
  destruct (rank_split i r Hr) as (before & after & E & Hi & Hb & Ha). unfold above.
  assert (∀ y, y ∈ rows → is_nan y.2 = false) as Hn by auto. rewrite E, List.filter_app, length_app in *.
  change (f_ge x r.2) with (f_le r.2 x). destruct (f_le r.2 x) eqn:Hc; symmetry.
  - rewrite (filter_none _ (r :: after)).
    + apply Nat.leb_le. cbn. pose proof (List.filter_length_le (λ r0, f_lt x r0.2) before). lia.
    + intros y Hy. rewrite f_lt_le by (try done; apply Hn; set_solver).
      apply negb_false_iff. apply elem_of_cons in Hy as [->|Hy]; [done|]. by eapply f_le_trans; [apply Ha|].
  - apply Nat.leb_gt. rewrite (filter_all _ before).
    + cbn. rewrite f_lt_le, Hc by done. cbn. lia.
    + intros y Hy. rewrite f_lt_le by (try done; apply Hn; set_solver).
      apply negb_true_iff, not_true_iff_false. intros Hyx. rewrite (f_le_trans r.2 y.2 x) in Hc; [done|by apply Hb|done].
Qed.

Lemma below_rank i r x : rows !! i = Some r → is_nan x = false → f_le x r.2 = (below rows x <=? length rows - 1 - i)%nat.
Proof.
  intros Hr Hx. assert (is_nan r.2 = false) as Hrn by (eapply Hnum, list_elem_of_lookup_2, Hr).
  destruct (rank_split i r Hr) as (before & after & E & Hi & Hb & Ha). unfold below.
  assert (∀ y, y ∈ rows → is_nan y.2 = false) as Hn by auto. rewrite E, List.filter_app, !length_app in *. cbn [length].
  destruct (f_le x r.2) eqn:Hc; symmetry.
  - rewrite (filter_none _ before).
    + apply Nat.leb_le. cbn. rewrite f_lt_le, Hc by done. cbn. pose proof (List.filter_length_le (λ r0, f_lt r0.2 x) after). lia.
    + intros y Hy. rewrite f_lt_le by (try done; apply Hn; set_solver).
      apply negb_false_iff. by eapply f_le_trans; [|apply Hb].
  - apply Nat.leb_gt. rewrite (filter_all _ (r :: after)); [cbn; lia|].
    intros y Hy. rewrite f_lt_le by (try done; apply Hn; set_solver). apply negb_true_iff, not_true_iff_false.
    intros Hyx. apply elem_of_cons in Hy as [->|Hy]; [congruence|]. rewrite (f_le_trans x y.2 r.2) in Hc; [done|done|by apply Ha].
Qed.
End ranks.

(** ** The theorem *)

Section promotion.
Context (avg : list spec_float → option spec_float) (st : evolution).
Context (Hids : NoDup (map agent_id (ev_agents st))).
Context (Hnum : ∀ a r, a ∈ ev_agents st → qualify avg st a = Some r → is_nan r.2 = false).

Lemma qualify_agent a r : qualify avg st a = Some r → r.1 = a.
Proof. unfold qualify. destruct (_ && _); [|done]. by intros (x&_&->)%fmap_Some. Qed.

Lemma elem_of_qualified r : r ∈ qualified avg st ↔ r.1 ∈ ev_agents st ∧ qualify avg st r.1 = Some r.
Proof.
  unfold qualified. rewrite sort_by_perm, list_elem_of_omap. split.
  - intros (a&Ha&E). by rewrite (qualify_agent a r E).
  - intros [Ha E]. by exists r.1.
Qed.

Lemma qualified_num r : r ∈ qualified avg st → is_nan r.2 = false.
Proof. intros [Ha E]%elem_of_qualified. eauto. Qed.

Lemma qualified_sorted : StronglySorted (λ a b : Agent * spec_float, f_lt a.2 b.2 = false) (qualified avg st).
Proof.
  unfold qualified. apply (sort_by_sorted _ (λ r : Agent * spec_float, is_nan r.2 = false)).
  - intros a b Ha Hb. rewrite !f_lt_le by done. intros H%negb_true_iff. apply negb_false_iff.
    destruct (f_le_total a.2 b.2 Ha Hb); congruence.
  - intros a b c Ha Hb Hc. rewrite !f_lt_le, !negb_false_iff by done. intros H1 H2. by eapply f_le_trans.
  - apply Forall_forall. intros r (a&Ha&E)%list_elem_of_omap. eauto.
Qed.

(** An agent's identifier is among those of a selection when its own row is. *)
Lemma selected_id (f : Agent * spec_float → bool) a :
  a ∈ ev_agents st →
  bool_decide (agent_id a ∈ map (λ r : Agent * spec_float, agent_id r.1) (List.filter f (qualified avg st))) =
  match qualify avg st a with Some r => f r | None => false end.
Proof.
  intros Ha. apply eq_bool_prop_intro. rewrite bool_decide_spec, list_elem_of_fmap, Is_true_true.
  setoid_rewrite list_elem_of_In. setoid_rewrite filter_In. setoid_rewrite <-list_elem_of_In. split.
  - intros (r & Hid & [Hin E]%elem_of_qualified & Hf).
    assert (r.1 = a) as Hra by (eapply (NoDup_map_inj agent_id (ev_agents st)); [done..|congruence]).
    rewrite <-Hra, E. done.
  - destruct (qualify avg st a) as [r|] eqn:E; [|done]. intros Hf. pose proof (qualify_agent a r E) as Hra.
    exists r. split; [by rewrite Hra|]. split; [|done]. apply elem_of_qualified. by rewrite Hra.
Qed.

Lemma with_level_same a : with_level a (safety_level a + 0) = a.
Proof. destruct a. unfold with_level. cbn. by rewrite Z.add_0_r. Qed.

Lemma level_change_bounds a : level_ok a → level_ok (with_level a (safety_level a + level_change avg st a)).
Proof.
  unfold level_ok, level_change, deserved. cbn [safety_level with_level].
  destruct (qualify avg st a) as [[b x]|]; [|lia]. destruct (_ <? 5)%nat; [lia|].
  destruct (_ && (_ <? 10)) eqn:E1; [apply andb_true_iff in E1 as [_ ?%Z.ltb_lt]; lia|].
  destruct (_ && (1 <? _)) eqn:E2; [apply andb_true_iff in E2 as [_ ?%Z.ltb_lt]; lia|lia].
Qed.

(** The two updates, on one agent *)
Lemma bump_levels m up down a :
  let rows := qualified avg st in
  let ids f := map (λ r : Agent * spec_float, agent_id r.1) (List.filter f rows) in
  (5 <= length rows)%nat → m = ((length rows - 1) / 10)%nat → rows !! m = Some up → rows !! (length rows - 1 - m)%nat = Some down →
  a ∈ ev_agents st →
  bump (ids (demotes up.2 down.2)) (-1) (bump (ids (promotes up.2)) 1 a) = with_level a (safety_level a + level_change avg st a).
Proof.
  intros rows ids H5 Hm Hup Hdown Ha. unfold bump at 2. unfold ids, rows. rewrite (selected_id _ _ Ha).
  assert (∀ l, bump (ids (demotes up.2 down.2)) (-1) (with_level a l) =
    if match qualify avg st a with Some r => demotes up.2 down.2 r | None => false end then with_level a (l - 1) else with_level a l) as Hd.
  { intros l. unfold bump. cbn [agent_id with_level safety_level]. unfold ids, rows. by rewrite (selected_id _ _ Ha). }
  fold rows. fold (ids (demotes up.2 down.2)).
  assert (∀ b : bool, (if b then with_level a (safety_level a + 1) else a) = with_level a (safety_level a + if b then 1 else 0)) as ->
    by (intros []; by rewrite ?with_level_same).
  rewrite Hd. unfold level_change. destruct (qualify avg st a) as [[b x]|] eqn:E; [|done].
  pose proof (Hnum a (b, x) Ha E) as Hx. pose proof (qualify_agent a _ E) as Hb. cbn in Hb, Hx. subst b.
  unfold demotes, promotes, deserved. cbn [fst snd]. fold rows.
  rewrite (above_rank rows qualified_num qualified_sorted m up x Hup Hx).
  rewrite (below_rank rows qualified_num qualified_sorted _ down x Hdown Hx).
  assert (m <= length rows - 1)%nat by (rewrite Hm; apply Nat.Div0.div_le_upper_bound; lia).
  replace (length rows - 1 - (length rows - 1 - m))%nat with m by lia. rewrite <-Hm.
  rewrite (proj2 (Nat.ltb_ge _ _) H5). destruct (_ && (safety_level a <? 10)); cbn; [done|]. rewrite Z.add_0_r.
  destruct (_ && _); [done|]. by rewrite Z.add_0_r.
Qed.

Lemma promoted_levels :
  (length (qualified avg st) <= 400)%nat →
  match promote_demote_agents avg st with
  | Ok (_, _, st') =>
      ev_agents st' = map (λ a, with_level a (safety_level a + level_change avg st a)) (ev_agents st) ∧
      ev_scores st' = ev_scores st ∧ ev_rankings st' = ev_rankings st
  | Err _ => False
  end.
Proof.
  intros Hn. unfold promote_demote_agents. destruct (_ <? 5)%nat eqn:H5.
  - split_and!; [|done..]. symmetry. etrans; [|apply map_id]. apply map_ext. intros a. unfold level_change, deserved.
    rewrite H5. destruct (qualify avg st a) as [[]|]; apply with_level_same.
  - apply Nat.ltb_ge in H5. destruct (shares_ok (length (qualified avg st)) ltac:(lia)) as [-> ->]. cbn [res_catch res_bind].
    set (rows := qualified avg st) in *. set (m := ((length rows - 1) / 10)%nat).
    assert ((Z.of_nat (length rows) - 1) / 10 = Z.of_nat m) as Em
      by (unfold m; rewrite Nat2Z.inj_div, Nat2Z.inj_sub by lia; done).
    assert (m <= length rows - 1)%nat as Hm by (unfold m; apply Nat.Div0.div_le_upper_bound; lia).
    rewrite Em. replace (Z.to_nat (Z.max 0 (Z.of_nat m))) with m by lia.
    replace (Z.to_nat (Z.min _ _)) with (length rows - 1 - m)%nat by lia.
    destruct (lookup_lt_is_Some_2 rows m) as [up Hup]; [lia|].
    destruct (lookup_lt_is_Some_2 rows (length rows - 1 - m)) as [down Hdown]; [lia|].
    change (map snd rows) with (snd <$> rows).
    rewrite !list_lookup_fmap, Hup, Hdown. cbn [fmap option_fmap option_map res_of_option res_bind ev_agents ev_scores ev_rankings].
    split_and!; [|done..]. rewrite map_map. apply map_ext_in. intros a Ha%list_elem_of_In.
    by apply (bump_levels m up down).
Qed.
End promotion.

(** C15: promotion and demotion go by rank, and keep every safety level within its
    bounds.  Of at most 400 agents that qualify (active, with three scores), an
    agent below level 10 rises by one exactly when at most [(n - 1) / 10] of the
    others have a higher average; otherwise one above level 1 falls by one exactly
    when at most as many have a lower average; nobody else is touched, and nothing
    happens below five agents.  The run never fails. *)
Theorem promotion_by_rank avg st
    (Hids : NoDup (map agent_id (ev_agents st))) (Hlevels : Forall level_ok (ev_agents st))
    (Hnum : ∀ a r, a ∈ ev_agents st → qualify avg st a = Some r → is_nan r.2 = false)
    (Hn : (length (qualified avg st) <= 400)%nat) :
  match promote_demote_agents avg st with
  | Ok (_, _, st') =>
      ev_agents st' = map (λ a, with_level a (safety_level a + level_change avg st a)) (ev_agents st) ∧
      ev_scores st' = ev_scores st ∧ ev_rankings st' = ev_rankings st ∧ Forall level_ok (ev_agents st')
  | Err _ => False
  end.
Proof.
  pose proof (promoted_levels avg st Hids Hnum Hn) as H. destruct (promote_demote_agents avg st) as [[[ps ds] st']|]; [|done].
  destruct H as (Ha & Hs & Hr). split_and!; [done..|]. rewrite Ha. apply Forall_map.
  eapply Forall_impl; [apply Hlevels|]. intros a. apply level_change_bounds.
Qed.

(** ** Concrete runs *)

(** The mean, by a sum from the left *)
Definition f_mean (l : list spec_float) : option spec_float :=
  match l with [] => None | x :: l => Some (f_div (foldl f_add x l) (f_of_nat (S (length l)))) end.

Definition scored (id : nat) (level : Z) (x : spec_float) : Agent * list AgentScore :=
  (with_level {| agent_id := UUID (N.of_nat id); name := "a"; description := ""; capabilities := []; supported_tools := [];
      cost_profile := []; latency_profile := []; trust_score := float_half; version := "1"; safety_level := 1;
      status := AgentStatus.ACTIVE; health_check_url := None; last_health_check := None; metadata_ := [] |} level,
   repeat {| score_id := UUID 0; sc_agent := UUID (N.of_nat id); sc_workflow := None; sc_composite := x; sc_created := 0;
      sc_scores := {| quality := x; speed := x; cost_efficiency := x; consistency := x; reliability := x |} |} 3).

Definition sample (rows : list (Agent * list AgentScore)) : evolution :=
  {| ev_agents := map fst rows; ev_scores := concat (map snd rows); ev_rankings := ∅ |}.

Definition levels_after (st : evolution) : list Z :=
  match promote_demote_agents f_mean st with Ok (_, _, st') => map safety_level (ev_agents st') | Err _ => [] end.

(** The best rises and the worst falls. *)
Example five_agents :
  levels_after (sample [scored 1 3 float_half; scored 2 3 f0_2; scored 3 3 f0_4; scored 4 3 f0_6; scored 5 3 f0_3]) = [3; 2; 3; 4; 3].
Proof. vm_compute. reflexivity. Qed.

(** Agents with the same average are all best and all worst: each rises, but the
    one that cannot rise any more falls. *)
Example equal_agents :
  levels_after (sample [scored 1 3 float_half; scored 2 1 float_half; scored 3 10 float_half; scored 4 9 float_half; scored 5 3 float_half])
    = [4; 2; 9; 10; 4].
Proof. vm_compute. reflexivity. Qed.

Lemma promotion_by_rank_witness :
  let st := sample [scored 1 3 float_half; scored 2 3 f0_2; scored 3 3 f0_4; scored 4 3 f0_6; scored 5 3 f0_3] in
  match promote_demote_agents f_mean st with
  | Ok (_, _, st') =>
      ev_agents st' = map (λ a, with_level a (safety_level a + level_change f_mean st a)) (ev_agents st) ∧
      ev_scores st' = ev_scores st ∧ ev_rankings st' = ev_rankings st ∧ Forall level_ok (ev_agents st')
  | Err _ => False
  end.
Proof.
  apply (promotion_by_rank f_mean (sample _)).
  - apply (bool_decide_eq_true_1 (NoDup _)). vm_compute. reflexivity.
  - repeat constructor; unfold level_ok; cbn; lia.
  - intros a r Ha. cbn in Ha. repeat (apply elem_of_cons in Ha as [->|Ha]; [vm_compute; by intros [= <-]|]). by apply elem_of_nil in Ha.
  - vm_compute. lia.
Defined.
