(* ===== verification/Projects.v ===== *)
(** * Projects: backlogs, sprints and the order of their tasks

    Models [services/project_service.py], the tables of [models/project.py] and the
    endpoint of [api/projects.py] that runs a workflow for a sprint task.  A sprint
    keeps its tasks by their positions; [order] is the list a board shows.  Rows
    keep the order of their creation, so [created_at] is the index in the table. *)

From Stdlib Require Import ZArith Lia.
From stdpp Require Import base tactics strings list gmap sorting.
From S2P Require Import Prelude PyStr Dict Json Uuid Wallet Strategy Workflows.

#[local] Open Scope Z_scope.

(** ** Tables *)

Record Project := {
  project_id : uuid;
  p_name : string;
  p_description : string;
  p_status : string;
  p_owner : string;
  p_metadata : list (pykey * json);
}.

Record BacklogTask := {
  backlog_task_id : uuid;
  b_project : uuid;
  b_title : string;
  b_description : string;
  b_priority : Z;
  b_points : option Z;
  b_labels : list string;
  b_status : string;
}.

(** Dates are days. *)
Record Sprint := {
  sprint_id : uuid;
  s_project : uuid;
  s_name : string;
  s_goal : option string;
  s_start : Z;
  s_end : Z;
  s_status : string;
}.

Record SprintTask := {
  sprint_task_id : uuid;
  st_sprint : uuid;
  st_backlog : uuid;
  st_workflow : option uuid;
  st_status : string;
  st_assigned : option string;
  position : Z;
}.

Record planning := {
  projects : list Project;
  backlog : list BacklogTask;
  sprints : list Sprint;
  sprint_tasks : list SprintTask;
}.

Inductive project_exn := NameTaken | Missing (kind : string) | DatesRequired | ConstraintViolated | ExecutionFailed (e : control_exn).

Definition find_by {A} (key : A → uuid) (id : uuid) (l : list A) : option A := List.find (λ a, bool_decide (key a = id)) l.

Definition update_by {A} (key : A → uuid) (id : uuid) (f : A → A) (l : list A) : list A :=
  map (λ a, if bool_decide (key a = id) then f a else a) l.

Definition remove_by {A} (key : A → uuid) (id : uuid) (l : list A) : list A := List.filter (λ a, negb (bool_decide (key a = id))) l.

(** ** Projects *)

Definition create_project (fresh : uuid) (name description owner : string) (b : planning) : res project_exn (Project * planning) :=
  raise_if (existsb (λ p, String.eqb (p_name p) name) (projects b)) NameTaken ;!
  let p := {| project_id := fresh; p_name := name; p_description := description; p_status := "active"; p_owner := owner; p_metadata := [] |} in
  Ok (p, {| projects := projects b ++ [p]; backlog := backlog b; sprints := sprints b; sprint_tasks := sprint_tasks b |}).

(** Newest first *)
Definition list_projects (page page_size : nat) (b : planning) : list Project * nat :=
  (take page_size (drop ((page - 1) * page_size) (reverse (projects b))), length (projects b)).

Definition get_project (id : uuid) (b : planning) : res project_exn Project :=
  res_of_option (Missing "Project") (find_by project_id id (projects b)).

(** Fields that are absent or null are kept. *)
Record ProjectUpdate := {
  u_name : option string;
  u_description : option string;
  u_status : option string;
  u_owner : option string;
  u_metadata : option (list (pykey * json));
}.

(** Names are unique in the table. *)
Definition update_project (id : uuid) (u : ProjectUpdate) (b : planning) : res project_exn (Project * planning) :=
  p <~ get_project id b;
  let p' := {| project_id := project_id p; p_name := default (p_name p) (u_name u);
               p_description := default (p_description p) (u_description u); p_status := default (p_status p) (u_status u);
               p_owner := default (p_owner p) (u_owner u); p_metadata := default (p_metadata p) (u_metadata u) |} in
  raise_if (existsb (λ q, String.eqb (p_name q) (p_name p') && negb (bool_decide (project_id q = id))) (projects b)) ConstraintViolated ;!
  Ok (p', {| projects := update_by project_id id (λ _, p') (projects b); backlog := backlog b; sprints := sprints b;
             sprint_tasks := sprint_tasks b |}).

(** ** Backlog *)

Definition with_backlog (b : planning) (ts : list BacklogTask) : planning :=
  {| projects := projects b; backlog := ts; sprints := sprints b; sprint_tasks := sprint_tasks b |}.

Definition create_backlog_task (fresh project : uuid) (title description : string) (priority : Z) (labels : list string) (b : planning)
    : res project_exn (BacklogTask * planning) :=
  _ <~ get_project project b;
  let t := {| backlog_task_id := fresh; b_project := project; b_title := title; b_description := description; b_priority := priority;
              b_points := None; b_labels := labels; b_status := "new" |} in
  Ok (t, with_backlog b (backlog b ++ [t])).

(** By priority, then age *)
Definition list_backlog (project : uuid) (status_filter : option string) (b : planning) : list BacklogTask :=
  sort_by (λ x y, b_priority x <? b_priority y)
    (List.filter (λ t, bool_decide (b_project t = project) &&
                       match status_filter with Some s => str_empty s || String.eqb (b_status t) s | None => true end) (backlog b)).

Record BacklogTaskUpdate := {
  v_title : option string;
  v_description : option string;
  v_priority : option Z;
  v_points : option Z;
  v_labels : option (list string);
  v_status : option string;
}.

Definition update_backlog_task (id : uuid) (u : BacklogTaskUpdate) (b : planning) : res project_exn (BacklogTask * planning) :=
  t <~ res_of_option (Missing "BacklogTask") (find_by backlog_task_id id (backlog b));
  let t' := {| backlog_task_id := backlog_task_id t; b_project := b_project t; b_title := default (b_title t) (v_title u);
               b_description := default (b_description t) (v_description u); b_priority := default (b_priority t) (v_priority u);
               b_points := match v_points u with Some n => Some n | None => b_points t end;
               b_labels := default (b_labels t) (v_labels u); b_status := default (b_status t) (v_status u) |} in
  Ok (t', with_backlog b (update_by backlog_task_id id (λ _, t') (backlog b))).

(** The mapper first empties the foreign key of the sprint tasks that refer to the
    row, a column that may not be null: the relationship has no cascade. *)
Definition delete_backlog_task (id : uuid) (b : planning) : res project_exn planning :=
  _ <~ res_of_option (Missing "BacklogTask") (find_by backlog_task_id id (backlog b));
  raise_if (existsb (λ t, bool_decide (st_backlog t = id)) (sprint_tasks b)) ConstraintViolated ;!
  Ok (with_backlog b (remove_by backlog_task_id id (backlog b))).

(** ** Sprints *)

Definition create_sprint (fresh project : uuid) (name : string) (goal : option string) (start_date end_date : option Z) (b : planning)
    : res project_exn (Sprint * planning) :=
  _ <~ get_project project b;
  match start_date, end_date with
  | Some start, Some stop =>
      let s := {| sprint_id := fresh; s_project := project; s_name := name; s_goal := goal; s_start := start; s_end := stop;
                  s_status := "planning" |} in
      Ok (s, {| projects := projects b; backlog := backlog b; sprints := sprints b ++ [s]; sprint_tasks := sprint_tasks b |})
  | _, _ => Err DatesRequired
  end.

Definition list_sprints (project : uuid) (b : planning) : list Sprint :=
  sort_by (λ x y, s_start x <? s_start y) (List.filter (λ s, bool_decide (s_project s = project)) (sprints b)).

(** ** Sprint tasks *)

Definition with_sprint_tasks (b : planning) (ts : list SprintTask) : planning :=
  {| projects := projects b; backlog := backlog b; sprints := sprints b; sprint_tasks := ts |}.

Definition tasks_of (sid : uuid) (b : planning) : list SprintTask := filter (λ t, st_sprint t = sid) (sprint_tasks b).

(** [coalesce(max(position), -1) + 1] *)
Definition next_position (ts : list SprintTask) : Z :=
  match map position ts with [] => 0 | p :: ps => foldl Z.max p ps + 1 end.

Definition add_task_to_sprint (fresh sid bid : uuid) (assigned_to : option string) (b : planning) : res project_exn (SprintTask * planning) :=
  _ <~ res_of_option (Missing "Sprint") (find_by sprint_id sid (sprints b));
  _ <~ res_of_option (Missing "BacklogTask") (find_by backlog_task_id bid (backlog b));
  let t := {| sprint_task_id := fresh; st_sprint := sid; st_backlog := bid; st_workflow := None; st_status := "todo";
              st_assigned := assigned_to; position := next_position (tasks_of sid b) |} in
  Ok (t, with_sprint_tasks b (sprint_tasks b ++ [t])).

Definition get_sprint_task (id : uuid) (b : planning) : res project_exn SprintTask :=
  res_of_option (Missing "SprintTask") (find_by sprint_task_id id (sprint_tasks b)).

Definition update_sprint_task (id : uuid) (status : option string) (pos : option Z) (assigned_to : option string) (b : planning)
    : res project_exn (SprintTask * planning) :=
  t <~ get_sprint_task id b;
  let t' := {| sprint_task_id := sprint_task_id t; st_sprint := st_sprint t; st_backlog := st_backlog t; st_workflow := st_workflow t;
               st_status := default (st_status t) status;
               st_assigned := match assigned_to with Some a => Some a | None => st_assigned t end;
               position := default (position t) pos |} in
  Ok (t', with_sprint_tasks b (update_by sprint_task_id id (λ _, t') (sprint_tasks b))).

Definition remove_sprint_task (id : uuid) (b : planning) : res project_exn planning :=
  _ <~ get_sprint_task id b;
  Ok (with_sprint_tasks b (remove_by sprint_task_id id (sprint_tasks b))).

Definition with_position (p : Z) (t : SprintTask) : SprintTask := {|
  sprint_task_id := sprint_task_id t; st_sprint := st_sprint t; st_backlog := st_backlog t; st_workflow := st_workflow t;
  st_status := st_status t; st_assigned := st_assigned t; position := p |}.

(** [for position, task_id in enumerate(task_ids)], from [k] on *)
Fixpoint set_positions (k : Z) (ids : list uuid) (ts : list SprintTask) : list SprintTask :=
  match ids with
  | [] => ts
  | id :: ids => set_positions (k + 1) ids (update_by sprint_task_id id (with_position k) ts)
  end.

Definition in_sprint (sid : uuid) (b : planning) (id : uuid) : bool :=
  existsb (λ t, bool_decide (sprint_task_id t = id) && bool_decide (st_sprint t = sid)) (sprint_tasks b).

Definition reorder_sprint_tasks (sid : uuid) (ids : list uuid) (b : planning) : res project_exn planning :=
  raise_if (negb (forallb (in_sprint sid b) ids)) (Missing "SprintTask") ;!
  Ok (with_sprint_tasks b (set_positions 0 ids (sprint_tasks b))).

Definition link_workflow (id workflow : uuid) (b : planning) : res project_exn (SprintTask * planning) :=
  t <~ get_sprint_task id b;
  let t' := {| sprint_task_id := sprint_task_id t; st_sprint := st_sprint t; st_backlog := st_backlog t; st_workflow := Some workflow;
               st_status := "in_progress"; st_assigned := st_assigned t; position := position t |} in
  Ok (t', with_sprint_tasks b (update_by sprint_task_id id (λ _, t') (sprint_tasks b))).

(** The workflow runs in a session of its own, which is over when the link is
    made. *)
Definition execute_sprint_task (id new_id : uuid) (now : Z) (prompt : string) (budget : Z) (run : db → ending) (d : tables) (b : planning)
    : tables * res project_exn (SprintTask * planning) :=
  match create_and_execute new_id now prompt budget run d with
  | (d', Ok workflow) => (d', link_workflow id workflow b)
  | (d', Err e) => (d', Err (ExecutionFailed e))
  end.

(** ** A sprint as an ordered list *)

Definition before (x y : SprintTask) : bool := position x <? position y.

Definition order (sid : uuid) (b : planning) : list uuid := map sprint_task_id (sort_by before (tasks_of sid b)).

(** Identifiers are unique, and so are the positions of one sprint. *)
Definition ranked_board (b : planning) : Prop :=
  NoDup (map sprint_task_id (sprint_tasks b)) ∧ ∀ sid, NoDup (map position (tasks_of sid b)).

Definition rises (x y : SprintTask) : Prop := position x < position y.

Lemma rises_positions ts : StronglySorted rises ts → NoDup (map position ts).
Proof.
  induction 1 as [|t ts _ IH Ht]; [constructor|]. cbn. constructor; [|done].
  intros (u&Hu&Hin)%list_elem_of_fmap. rewrite Forall_forall in Ht. specialize (Ht u Hin). unfold rises in Ht. lia.
Qed.

Lemma sorted_rises ts : NoDup (map position ts) → StronglySorted rises (sort_by before ts).
Proof.
  intros Hnd. assert (NoDup (map position (sort_by before ts))) as Hs by (by rewrite sort_by_perm).
  assert (StronglySorted (λ a b, before b a = false) (sort_by before ts)) as Hsort.
  { apply (sort_by_sorted before (λ _, True)); [unfold before; lia..|]. by apply Forall_true. }
  revert Hs. induction Hsort as [|t l _ IH Ht]; [constructor|]. cbn. intros [Hni Hl]%NoDup_cons. constructor; [by apply IH|].
  rewrite Forall_forall in *. intros u Hu. specialize (Ht u Hu). unfold before, rises in *.
  assert (position t ≠ position u) by (intros E; apply Hni; rewrite E; by apply list_elem_of_fmap_2). lia.
Qed.

(** The order is that of any arrangement of the tasks whose positions rise. *)
Lemma order_of sid b ts : ts ≡ₚ tasks_of sid b → StronglySorted rises ts → order sid b = map sprint_task_id ts.
Proof.
  intros Hp Hs. unfold order. f_equal. apply (StronglySorted_unique_strong rises); [| |done|by rewrite sort_by_perm].
  - unfold rises. intros x y _ _ ??. lia.
  - apply sorted_rises. rewrite <-Hp. by apply rises_positions.
Qed.

Lemma tasks_of_map (f : SprintTask → SprintTask) sid b ts :
  (∀ t, st_sprint (f t) = st_sprint t) → sprint_tasks b = map f ts →
  tasks_of sid b = map f (filter (λ t, st_sprint t = sid) ts).
Proof.
  intros Hf E. unfold tasks_of. rewrite E. clear E. induction ts as [|t ts IH]; [done|]. cbn [map].
  rewrite !filter_cons, Hf, IH. by destruct (decide _).
Qed.

(** *** Adding *)

Lemma next_position_gt ts t : t ∈ ts → position t < next_position ts.
Proof.
  intros Ht. unfold next_position. assert (position t ∈ map position ts) as Hin by (by apply list_elem_of_fmap_2).
  destruct (map position ts) as [|p ps]; [by apply elem_of_nil in Hin|]. apply foldl_max_ge in Hin. lia.
Qed.

Lemma add_order fresh sid bid who b t b' :
  ranked_board b → fresh ∉ map sprint_task_id (sprint_tasks b) → add_task_to_sprint fresh sid bid who b = Ok (t, b') →
  ranked_board b' ∧ ∀ s, order s b' = order s b ++ (if decide (s = sid) then [fresh] else []).
Proof.
  intros [Hnd Hpos] Hf. unfold add_task_to_sprint. destruct (find_by _ _ (sprints b)) as [sp|]; [|done].
  destruct (find_by _ _ (backlog b)) as [bt|]; [|done].
  intros [= <- <-]. cbn [res_of_option res_bind]. set (t := Build_SprintTask _ _ _ _ _ _ _). set (b' := with_sprint_tasks b _).
  assert (∀ s, tasks_of s b' = tasks_of s b ++ (if decide (s = sid) then [t] else [])) as Ht.
  { intros s. unfold tasks_of, b'. cbn [sprint_tasks with_sprint_tasks]. rewrite filter_app. f_equal. rewrite filter_cons, filter_nil.
    cbn [st_sprint t]. repeat destruct (decide _); congruence. }
  assert (∀ s, StronglySorted rises (sort_by before (tasks_of s b) ++ (if decide (s = sid) then [t] else []))) as Hs.
  { intros s. destruct (decide (s = sid)) as [->|]; [|rewrite app_nil_r; by apply sorted_rises].
    apply StronglySorted_app. split_and!; [|by apply sorted_rises|by repeat constructor].
    intros x y Hx ->%list_elem_of_singleton. rewrite sort_by_perm in Hx. unfold rises. cbn. by apply next_position_gt. }
  split; [split|].
  - unfold b'. cbn [sprint_tasks with_sprint_tasks]. rewrite map_app. apply NoDup_app. split_and!; [done| |apply NoDup_singleton].
    intros x Hx ->%list_elem_of_singleton. done.
  - intros s. rewrite Ht. rewrite <-(sort_by_perm before (tasks_of s b)). by apply rises_positions.
  - intros s. rewrite (order_of s b' (sort_by before (tasks_of s b) ++ (if decide (s = sid) then [t] else [])));
      [|by rewrite Ht, sort_by_perm|apply Hs].
    rewrite map_app. unfold order. by destruct (decide _).
Qed.

(** *** Removing *)

Lemma sublist_rises (f : SprintTask → bool) ts : StronglySorted rises ts → StronglySorted rises (List.filter f ts).
Proof.
  induction 1 as [|t ts _ IH Ht]; [constructor|]. cbn. destruct (f t); [|done]. constructor; [done|].
  rewrite Forall_forall in *. intros x [Hx _]%list_elem_of_In%filter_In. apply Ht. by apply list_elem_of_In.
Qed.

Lemma remove_order id b b' :
  ranked_board b → remove_sprint_task id b = Ok b' →
  ranked_board b' ∧ ∀ s, order s b' = List.filter (λ x, negb (bool_decide (x = id))) (order s b).
Proof.
  intros [Hnd Hpos]. unfold remove_sprint_task. destruct (get_sprint_task id b); [|done]. intros [= <-].
  set (f := λ t, negb (bool_decide (sprint_task_id t = id))).
  assert (∀ s, tasks_of s (with_sprint_tasks b (remove_by sprint_task_id id (sprint_tasks b))) = List.filter f (tasks_of s b)) as Ht
    by (intros s; apply filter_swap).
  assert (∀ s, StronglySorted rises (List.filter f (sort_by before (tasks_of s b)))) as Hs by (intros s; by apply sublist_rises, sorted_rises).
  split; [split|].
  - pose proof (filter_map (λ x, negb (bool_decide (x = id))) sprint_task_id (sprint_tasks b)) as E.
    change (NoDup (map sprint_task_id (List.filter f (sprint_tasks b)))). unfold f. rewrite <-E. by apply NoDup_filter'.
  - intros s. rewrite Ht. rewrite <-(filter_perm f _ _ (sort_by_perm before (tasks_of s b))). by apply rises_positions.
  - intros s. rewrite (order_of s _ (List.filter f (sort_by before (tasks_of s b)))); [|rewrite Ht; apply filter_perm, sort_by_perm|apply Hs].
    unfold order. by rewrite filter_map.
Qed.

(** *** Reordering *)

Lemma set_positions_map k ids ts : set_positions k ids ts = map (λ t, List.hd t (set_positions k ids [t])) ts.
Proof.
  revert k ts. induction ids as [|id ids IH]; intros k ts; cbn [set_positions].
  - symmetry. apply map_id.
  - rewrite IH. unfold update_by at 1. rewrite map_map. apply map_ext. intros t. cbn [map].
    pose proof (IH (k + 1) (update_by sprint_task_id id (with_position k) [t])) as E. rewrite E. cbn. by case_bool_decide.
Qed.

Definition placed (k : Z) (ids : list uuid) (t : SprintTask) : SprintTask := List.hd t (set_positions k ids [t]).

Lemma placed_cons k id ids t :
  placed k (id :: ids) t = placed (k + 1) ids (if bool_decide (sprint_task_id t = id) then with_position k t else t).
Proof. unfold placed. cbn [set_positions update_by map]. by rewrite set_positions_map. Qed.

Lemma placed_id k ids t : sprint_task_id (placed k ids t) = sprint_task_id t ∧ st_sprint (placed k ids t) = st_sprint t.
Proof.
  revert k t. induction ids as [|id ids IH]; intros k t; [done|]. rewrite placed_cons. case_bool_decide; [|apply IH].
  destruct (IH (k + 1) (with_position k t)) as [-> ->]. done.
Qed.

Lemma placed_other k ids t : sprint_task_id t ∉ ids → placed k ids t = t.
Proof.
  revert k. induction ids as [|id ids IH]; intros k Hn; [done|]. rewrite placed_cons. apply not_elem_of_cons in Hn as [Hne Hn].
  rewrite bool_decide_false by done. by apply IH.
Qed.

(** Tasks listed in the order of their identifiers get rising positions. *)
Lemma placed_rises k ts :
  NoDup (map sprint_task_id ts) →
  StronglySorted rises (map (placed k (map sprint_task_id ts)) ts) ∧
  ∀ t, t ∈ map (placed k (map sprint_task_id ts)) ts → k ≤ position t.
Proof.
  revert k. induction ts as [|t ts IH]; intros k Hnd; [split; [constructor|by intros ? ?%elem_of_nil]|].
  apply NoDup_cons in Hnd as [Hn Hnd]. destruct (IH (k + 1) Hnd) as [Hs Hge]. cbn [map].
  rewrite placed_cons, bool_decide_true, placed_other by done.
  assert (map (placed k (sprint_task_id t :: map sprint_task_id ts)) ts = map (placed (k + 1) (map sprint_task_id ts)) ts) as ->.
  { apply map_ext_in. intros u Hu%list_elem_of_In. rewrite placed_cons, bool_decide_false; [done|].
    intros E. apply Hn. rewrite <-E. by apply list_elem_of_fmap_2. }
  split.
  - constructor; [done|]. apply Forall_forall. intros u Hu. apply Hge in Hu. unfold rises. cbn. lia.
  - intros u [->|Hu]%elem_of_cons; [done|]. apply Hge in Hu. lia.
Qed.

Lemma elem_of_tasks_of sid b t : t ∈ tasks_of sid b ↔ t ∈ sprint_tasks b ∧ st_sprint t = sid.
Proof. unfold tasks_of. rewrite list_elem_of_filter. naive_solver. Qed.

Lemma elem_of_order sid b id : id ∈ order sid b ↔ ∃ t, t ∈ sprint_tasks b ∧ sprint_task_id t = id ∧ st_sprint t = sid.
Proof.
  unfold order. rewrite list_elem_of_fmap. setoid_rewrite (sort_by_perm before). setoid_rewrite elem_of_tasks_of. naive_solver.
Qed.

Lemma reorder_order sid ids b :
  ranked_board b → ids ≡ₚ order sid b →
  ∃ b', reorder_sprint_tasks sid ids b = Ok b' ∧ ranked_board b' ∧ order sid b' = ids ∧ ∀ s, s ≠ sid → order s b' = order s b.
Proof.
  intros [Hnd Hpos] Hids. unfold reorder_sprint_tasks.
  assert (forallb (in_sprint sid b) ids = true) as ->.
  { apply forallb_forall. intros id Hid%list_elem_of_In. rewrite Hids in Hid. apply elem_of_order in Hid as (t&Ht&Hi&Hs).
    apply existsb_exists. exists t. split; [by apply list_elem_of_In|]. by rewrite !bool_decide_true. }
  cbn [negb raise_if res_bind]. eexists. split; [done|]. set (b' := with_sprint_tasks b _).
  assert (sprint_tasks b' = map (placed 0 ids) (sprint_tasks b)) as E by apply set_positions_map.
  assert (∀ s, tasks_of s b' = map (placed 0 ids) (tasks_of s b)) as Ht
    by (intros s; apply tasks_of_map; [intros t; apply placed_id|done]).
  assert (∀ l, map sprint_task_id (map (placed 0 ids) l) = map sprint_task_id l) as Hkeep
    by (intros l; rewrite map_map; apply map_ext; intros t; apply placed_id).
  destruct (Permutation_map_inv sprint_task_id (sort_by before (tasks_of sid b)) (l1 := ids)) as (ts&Hts&Hp); [done|].
  assert (NoDup ids) as Hni.
  { rewrite Hids. unfold order. rewrite sort_by_perm. eapply sublist_NoDup; [apply Hnd|]. apply fmap_sublist, sublist_filter. }
  assert (StronglySorted rises (map (placed 0 ids) ts)) as Hs by (rewrite Hts in *; by apply placed_rises).
  assert (map (placed 0 ids) ts ≡ₚ tasks_of sid b') as Hperm by (rewrite Ht, <-Hp; by rewrite sort_by_perm).
  assert (∀ s, s ≠ sid → tasks_of s b' = tasks_of s b) as Hother.
  { intros s Hne. rewrite Ht. etrans; [|apply map_id]. apply map_ext_in. intros t Hin%list_elem_of_In. apply placed_other.
    rewrite Hids. intros (u&Hu&Hi&Hus)%elem_of_order. apply elem_of_tasks_of in Hin as [Hin Hst].
    assert (u = t) as -> by (eapply (NoDup_map_inj sprint_task_id (sprint_tasks b)); [done..|congruence]). congruence. }
  split_and!.
  - split; [by rewrite E, Hkeep|]. intros s. destruct (decide (s = sid)) as [->|Hne]; [|by rewrite Hother].
    rewrite <-Hperm. by apply rises_positions.
  - by rewrite (order_of sid b' _ Hperm Hs), Hkeep.
  - intros s Hne. unfold order. by rewrite Hother.
Qed.

(** *** Updates in place *)

Lemma update_found {A} (key : A → uuid) id (f : A → A) a l :
  NoDup (map key l) → find_by key id l = Some a → update_by key id (λ _, f a) l = update_by key id f l.
Proof.
  intros Hnd [Ha Hi%bool_decide_eq_true]%List.find_some. apply map_ext_in. intros x Hx. case_bool_decide as E; [|done].
  f_equal. eapply (NoDup_map_inj key l); [done|by apply list_elem_of_In..|congruence].
Qed.

Definition keeps_place (f : SprintTask → SprintTask) : Prop :=
  ∀ t, sprint_task_id (f t) = sprint_task_id t ∧ st_sprint (f t) = st_sprint t ∧ position (f t) = position t.

Lemma keeps_place_order f id b :
  keeps_place f → ranked_board b → let b' := with_sprint_tasks b (update_by sprint_task_id id f (sprint_tasks b)) in
  ranked_board b' ∧ ∀ s, order s b' = order s b.
Proof.
  intros Hf [Hnd Hpos] b'. set (g t := if bool_decide (sprint_task_id t = id) then f t else t).
  assert (keeps_place g) as Hg by (intros t; unfold g; case_bool_decide; [apply Hf|done]).
  assert (∀ l, map sprint_task_id (map g l) = map sprint_task_id l) as Hi by (intros l; rewrite map_map; apply map_ext, Hg).
  assert (∀ s, tasks_of s b' = map g (tasks_of s b)) as Ht by (intros s; apply tasks_of_map; [intros t; apply Hg|done]).
  assert (∀ s, NoDup (map position (tasks_of s b'))) as Hpos'.
  { intros s. rewrite Ht, map_map. erewrite map_ext; [apply Hpos|]. intros t. apply Hg. }
  split; [split; [by change (sprint_tasks b') with (map g (sprint_tasks b)); rewrite Hi|done]|]. intros s.
  rewrite (order_of s b' (map g (sort_by before (tasks_of s b)))); [apply Hi|by rewrite Ht, sort_by_perm|].
  pose proof (sorted_rises _ (Hpos s)) as Hs. induction Hs as [|t l _ IH Hall]; [constructor|]. cbn. constructor; [done|].
  apply Forall_map. eapply Forall_impl; [apply Hall|]. intros u. unfold rises, compose. destruct (Hg t) as (_&_&->), (Hg u) as (_&_&->). done.
Qed.

Lemma link_order id w b t b' :
  ranked_board b → link_workflow id w b = Ok (t, b') → ranked_board b' ∧ ∀ s, order s b' = order s b.
Proof.
  intros Hb. unfold link_workflow, get_sprint_task. destruct (find_by _ _ _) as [t0|] eqn:E; [|done]. intros [= _ <-].
  set (f t := {| sprint_task_id := sprint_task_id t; st_sprint := st_sprint t; st_backlog := st_backlog t; st_workflow := Some w;
                 st_status := "in_progress"; st_assigned := st_assigned t; position := position t |}).
  change (λ _, _) with (λ _ : SprintTask, f t0). rewrite (update_found _ _ f) by (try apply Hb; done).
  by apply (keeps_place_order f).
Qed.

Lemma update_order id status who b t b' :
  ranked_board b → update_sprint_task id status None who b = Ok (t, b') → ranked_board b' ∧ ∀ s, order s b' = order s b.
Proof.
  intros Hb. unfold update_sprint_task, get_sprint_task. destruct (find_by _ _ _) as [t0|] eqn:E; [|done]. intros [= _ <-].
  set (f t := {| sprint_task_id := sprint_task_id t; st_sprint := st_sprint t; st_backlog := st_backlog t; st_workflow := st_workflow t;
                 st_status := default (st_status t) status;
                 st_assigned := match who with Some a => Some a | None => st_assigned t end; position := position t |}).
  change (λ _, _) with (λ _ : SprintTask, f t0). rewrite (update_found _ _ f) by (try apply Hb; done).
  by apply (keeps_place_order f).
Qed.

(** The workflow is run, and its cost stays, even when there is no such sprint task
    to link it to. *)
Lemma spent_before_link id new_id now prompt budget run d b d' w :
  create_and_execute new_id now prompt budget run d = (d', Ok w) → find_by sprint_task_id id (sprint_tasks b) = None →
  execute_sprint_task id new_id now prompt budget run d b = (d', Err (Missing "SprintTask")).
Proof. intros H Hn. unfold execute_sprint_task, link_workflow, get_sprint_task. by rewrite H, Hn. Qed.

(** ** The theorem *)

(** The commands of a board that leave the positions to the service *)
Inductive command :=
  | Add (fresh sid bid : uuid) (who : option string)
  | Remove (id : uuid)
  | Reorder (sid : uuid) (ids : list uuid)
  | Edit (id : uuid) (status who : option string)
  | Link (id workflow : uuid).

Definition perform (c : command) (b : planning) : res project_exn planning :=
  match c with
  | Add fresh sid bid who => r <~ add_task_to_sprint fresh sid bid who b; Ok r.2
  | Remove id => remove_sprint_task id b
  | Reorder sid ids => reorder_sprint_tasks sid ids b
  | Edit id status who => r <~ update_sprint_task id status None who b; Ok r.2
  | Link id w => r <~ link_workflow id w b; Ok r.2
  end.

(** New rows have new identifiers; a new order names every task of the sprint. *)
Definition admissible (b : planning) (c : command) : Prop :=
  match c with
  | Add fresh _ _ _ => fresh ∉ map sprint_task_id (sprint_tasks b)
  | Reorder sid ids => ids ≡ₚ order sid b
  | _ => True
  end.

(** What each does to the list of sprint [s] *)
Definition list_after (c : command) (s : uuid) (l : list uuid) : list uuid :=
  match c with
  | Add fresh sid _ _ => if decide (s = sid) then l ++ [fresh] else l
  | Remove id => List.filter (λ x, negb (bool_decide (x = id))) l
  | Reorder sid ids => if decide (s = sid) then ids else l
  | Edit _ _ _ | Link _ _ => l
  end.

(** C14: a sprint implements an ordered list.  While positions are left to the
    service, each accepted command does to the tasks of a sprint, in the order of
    their positions, what it does to a list: an added task comes last, a removed one
    is left out, and reordering with every task of the sprint, which never fails,
    gives exactly the order asked for; other sprints are untouched and positions
    stay distinct. *)
Theorem sprint_is_list c b (Hb : ranked_board b) (Hc : admissible b c) :
  match perform c b with
  | Ok b' => ranked_board b' ∧ ∀ s, order s b' = list_after c s (order s b)
  | Err _ => match c with Reorder _ _ => False | _ => True end
  end.
Proof.
  destruct c as [fresh sid bid who|id|sid ids|id status who|id w]; cbn [perform list_after admissible] in *.
  - destruct (add_task_to_sprint _ _ _ _ _) as [[t b']|] eqn:E; [|done]. cbn. destruct (add_order _ _ _ _ _ _ _ Hb Hc E) as [Hr Ho].
    split; [done|]. intros s. rewrite Ho. destruct (decide _); [done|by rewrite app_nil_r].
  - destruct (remove_sprint_task _ _) as [b'|] eqn:E; [|done]. by apply remove_order.
  - destruct (reorder_order sid ids b Hb Hc) as (b'&->&Hr&Ho&Hs). split; [done|]. intros s. destruct (decide _) as [->|]; auto.
  - destruct (update_sprint_task _ _ _ _ _) as [[t b']|] eqn:E; [|done]. cbn. by eapply update_order.
  - destruct (link_workflow _ _ _) as [[t b']|] eqn:E; [|done]. cbn. by eapply link_order.
Qed.

(** ** Concrete runs *)

Definition card (id : N) (pos : Z) : SprintTask := {|
  sprint_task_id := UUID id; st_sprint := UUID 9; st_backlog := UUID 8; st_workflow := None; st_status := "todo"; st_assigned := None;
  position := pos |}.

Definition sample_board (ts : list SprintTask) : planning := {|
  projects := [];
  backlog := [{| backlog_task_id := UUID 8; b_project := UUID 7; b_title := "t"; b_description := ""; b_priority := 3; b_points := None;
                 b_labels := []; b_status := "new" |}];
  sprints := [{| sprint_id := UUID 9; s_project := UUID 7; s_name := "s"; s_goal := None; s_start := 0; s_end := 14; s_status := "planning" |}];
  sprint_tasks := ts |}.

(** Reordering only some of the tasks gives positions that others already have. *)
Example partial_reorder :
  match reorder_sprint_tasks (UUID 9) [UUID 3; UUID 2] (sample_board [card 1 0; card 2 1; card 3 2]) with
  | Ok b' => map position (sprint_tasks b')
  | Err _ => []
  end = [0; 1; 0].
Proof. vm_compute. reflexivity. Qed.

(** A backlog task that is on a sprint cannot be deleted. *)
Example delete_planned : delete_backlog_task (UUID 8) (sample_board [card 1 0]) = Err ConstraintViolated.
Proof. vm_compute. reflexivity. Qed.

Lemma sprint_is_list_witness :
  let b := sample_board [card 1 0; card 2 1; card 3 2] in
  match perform (Reorder (UUID 9) [UUID 3; UUID 1; UUID 2]) b with
  | Ok b' => ranked_board b' ∧ ∀ s, order s b' = list_after (Reorder (UUID 9) [UUID 3; UUID 1; UUID 2]) s (order s b)
  | Err _ => False
  end.
Proof.
  apply (sprint_is_list (Reorder (UUID 9) [UUID 3; UUID 1; UUID 2]) (sample_board _)).
  - split; [apply (bool_decide_eq_true_1 (NoDup _)); vm_compute; reflexivity|]. intros sid. unfold tasks_of. cbn [sprint_tasks sample_board].
    rewrite !filter_cons, filter_nil. cbn [st_sprint card]. destruct (decide _); [|constructor].
    apply (bool_decide_eq_true_1 (NoDup _)). vm_compute. reflexivity.
  - apply (bool_decide_eq_true_1 (_ ≡ₚ _)). vm_compute. reflexivity.
Defined.
